(* ===== verification/_CoqProject ===== *)
-Q . S2P
Prelude.v
Types.v
Memory.v
MemoryFacts.v
MemoryRefs.v
MemoryProofs.v
MemoryFork.v
MemoryCow.v
Malloc.v
MallocFacts.v
MallocBucket.v
MallocProofs.v
Mktime.v
StringH.v
StringHProofs.v
StrtokProofs.v
Vsprintf.v
VsprintfProofs.v
MemExamples.v
Screen.v
ScreenSpec.v
ScreenProofs.v
ScreenRefine.v
ConsoleFacts.v
Sched.v
SchedProofs.v
TimerProofs.v
Kernel.v
KernelFacts.v
LinkFacts.v
Blk.v
Ports.v
BlkProofs.v
RequestLive.v
Buffer.v
BlockFacts.v
BufferProofs.v
GetblkProofs.v
Inode.v
InodeProofs.v
FileDev.v
UserFacts.v
PipeProofs.v
Tty.v
Namei.v
NameiProofs.v
Open.v
OpenProofs.v
Fork.v
ForkProofs.v
Exit.v
SignalProofs.v
TtyProofs.v
Console.v
ConsoleProofs.v
Exec.v
Sys.v
Traps.v
TrapsProofs.v
SysProofs.v
RequestFacts.v
Hd.v
HdSpec.v
HdLive.v
HdFacts.v
HdProofs.v
Floppy.v
FloppyLive.v
FloppyProofs.v
Main.v
MainProofs.v
Syscall.v
SyscallProofs.v
Build.v
InitProc.v
Demo.v
ExecProofs.v
DiskExamples.v
FsExamples.v
Examples.v
