(* ===== verification/Prelude.v ===== *)
(** * A verification development for the Linux 0.11 kernel sources

    The sources under src/ are the C and assembly of Linux 0.11.  This library
    translates their core into executable Rocq definitions and proves what the
    parts promise.

    ** The program and the files

    The kernel is one address space of routines that work on static tables.
    Each table, with the variables that belong to it, is a record; [kernel]
    (Kernel.v) holds one record per part, and [io_system] (Ports.v) adds the
    variables of the drivers and the devices behind the i/o ports.

    - [mm] (Memory.v): mm/memory.c.  mem_map and physical memory as 32-bit
      words, the page directory at address 0.  get_free_page, free_page, the
      page-table routines of fork and exit, copy on write, mem_init.
    - [heap] (Malloc.v): lib/malloc.c, on the pages of [mm].
    - [sched_state] (Sched.v): kernel/sched.c.  The task structures by the
      address of their page, the table task[64], current, jiffies, timers, the
      gates of the interrupt table and the registers of the 387.
    - [buffer_state] (Buffer.v): fs/buffer.c, with the write-back of inodes
      from fs/inode.c, which it calls in a circle.
    - [fs_state] (Inode.v, FileDev.v, Namei.v, Open.v, Exec.v): fs/bitmap.c,
      inode.c, truncate.c, super.c; file_dev.c, block_dev.c, pipe.c;
      namei.c; open.c, read_write.c, fcntl.c, stat.c, ioctl.c; exec.c.
    - [blk_state] (Blk.v): kernel/blk_drv/ll_rw_blk.c, blk.h and ramdisk.c.
    - [hd_state] and [fd_state] (Hd.v, Floppy.v): kernel/blk_drv/hd.c with its
      interrupt entry, floppy.c with its own.
    - [tty_state] (Tty.v): kernel/chr_drv/tty_io.c, tty_ioctl.c, char_dev.c;
      [console] (Screen.v, Console.v): console.c and its video memory; the
      serial lines of serial.c are in Main.v.
    - Fork.v, Exit.v, Sys.v: kernel/fork.c, exit.c, signal.c, sys.c, the demand
      loading of mm/memory.c, rd_load, the memory layout of init/main.c.
    - Traps.v: kernel/traps.c, asm.s, math/math_emulate.c, mm/page.s and
      ret_from_sys_call of system_call.s.
    - Syscall.v: unistd.h and the stubs of lib/, sys.h, the system call and the
      clock interrupt of system_call.s on the words of the kernel stack of the
      current task ([machine]), do_timer() of sched.c, ctype.h and ctype.c.
    - Main.v: main() of init/main.c with sched_init, tty_init and rs_init;
      InitProc.v: what main() does in user mode and init(), as interaction
      trees over library calls.
    - StringH.v, Vsprintf.v, Mktime.v: include/string.h instruction by
      instruction, kernel/vsprintf.c, kernel/mktime.c with time_init.
    - Build.v: tools/build.c, which runs on the host.
    - Types.v: the structures and constants of the headers.

    Definitions carry the names of the C functions; a name with a suffix
    ([_loop], [_scan], [_with]) is a loop or a part of the function of that
    name, a name with a final underscore an assembly routine.  A pointer to a
    task is the address of its page; a pointer into a static table is an index;
    NULL is 0 or [None].  An access outside a table or through NULL is the
    outcome [Fault].

    ** Control

    A routine is a function of the monad [M] below: it returns, panics, is
    ended by do_exit(), faults, or runs out of fuel.  Fuel appears where a C
    loop is not structural.  Loops over tables, counts and lengths have the
    table size or the length as fuel, which is enough; [patience] bounds loops
    that wait for a lock, a buffer or a request, [depth] the recursion getblk
    -> sync_dev -> write_inode -> bread -> getblk, [path_fuel] the length of
    path names.  Loops of the drivers that poll a port have the count of the C
    loop as fuel; do_hd_request has a round for every error of every request,
    do_fd_request one for every request.

    A task switch (reschedule in Kernel.v) runs schedule() and then, if another
    task was chosen, [others n], the effect of everything that runs until the
    caller is resumed.  [others], the effect of starting a request
    ([start_io]), the terminal output routines ([tty_out]), the disk-change line
    and the ports of the kernel proper are the fields of the class [Env]:
    parameters of the model.  The drivers are modelled over the class
    [Controller], the ports of a device, with the laws of each device in the
    classes of HdSpec, FloppyProofs and MainProofs.  The theorems on the
    disk drivers are about their request functions and interrupt handlers;
    ConsoleProofs instantiates [tty_out] with con_write(), and shows that it
    is [CalmOutput], what the line discipline (TtyProofs) asks of an output
    routine.  The class [Image] of Syscall.v is what compiler and linker decide:
    among it the values that handlers leave in the stack slots of their
    parameters.

    ** What is proved

    - Memory (MemoryFacts, MemoryRefs, MemoryProofs, MemoryFork, MemoryCow): the
      invariant [mm_ok], that mem_map counts exactly the references from page
      tables; that fork's copy of an address range and exit's release of it
      keep it and never panic, copy on write, allocation.
    - Allocator (MallocFacts, MallocBucket, MallocProofs): malloc() gives
      memory that overlaps nothing in use, free_s() gives it back.
    - Scheduler (SchedProofs, TimerProofs): schedule() terminates and picks the
      task it should; the timer list under add_timer.  do_exit() comes back
      to task 0 only (SignalProofs).
    - fork (ForkProofs): a fresh pid and slot are found.  Signals
      (SignalProofs): kill() reaches who it may, delivery builds the frame.
      Identities and the boot memory map (SysProofs).
    - Buffer cache (LinkFacts, BlockFacts, BufferProofs, GetblkProofs): the
      queues are well formed, getblk() returns the block's only buffer.
    - Requests (BlkProofs: the elevator; RequestLive, RequestFacts: a request
      on its way through a driver).
    - Hard disk (HdSpec, HdLive, HdFacts, HdProofs): a transfer moves exactly
      the sectors of its request, errors and resets end in a retry or a failure,
      no request is stranded.  Floppy (FloppyLive, FloppyProofs): the same with
      motors, seeks and the DMA buffer.
    - Files (InodeProofs: the inode table and the bitmaps; UserFacts,
      PipeProofs: pipes are bounded queues; NameiProofs: permissions,
      directory entries, path names; OpenProofs: descriptors).
    - execve() (ExecProofs): the new program finds the argument and environment
      strings that were passed, on the stack the two string copies built.
    - Terminals (TtyProofs): queues are lists, the line discipline is a line
      editor.  Console (ScreenSpec, ScreenProofs, ScreenRefine, ConsoleFacts,
      ConsoleProofs): it stays in video memory and implements a grid of cells.
    - Exceptions (TrapsProofs): gates and handlers; lazy switching of the 387
      gives every task a coprocessor of its own.
    - Boot (MainProofs): main() establishes the invariants above; init and its
      shells (InitProc): which calls they make, whatever the calls answer.
    - System calls (SyscallProofs): the numbers fit the table, what a library
      call returns, the registers that come back from the stack; the timers a
      clock tick calls, which add timers (FloppyLive); the clock interrupt;
      ctype.
    - Text (StringHProofs, StrtokProofs, VsprintfProofs), time (Mktime:
      kernel_mktime is the proleptic calendar), the boot image (Build).

    MemExamples, DiskExamples, FsExamples and
    Examples apply the theorems to concrete states; Demo.v is the kernel state
    most of them use.

    ** What is not modelled

    The keyboard and serial interrupt routines (keyboard.S, rs_io.s), which
    fill the read queues of the terminals, and the boot assembly (bootsect.s,
    setup.s, head.s): the theorem on main() starts from the state they leave.
    Messages: printk() has no effect, panic() is an outcome, the register dumps of
    traps.c and show_task() print.  The translation look-aside buffers, the
    supervisor stacks but for what the processor and system_call.s push at a
    system call and at a clock tick, and what the instructions of the 387
    compute: they are arbitrary functions of its registers.  copy_process() and
    do_signal() are declared with the whole frame as parameters; they are taken
    to change only the slots that they assign to. *)

From stdpp Require Import base option list gmap strings numbers.
From Stdlib Require Import ZArith Lia Ascii.

Declare Scope kernel_scope.
Delimit Scope kernel_scope with kernel.
Create HintDb kernel.
Create Rewrite HintDb kernel.

#[global] Open Scope Z_scope.
#[global] Open Scope kernel_scope.

(** ** Machine integers

    A [w]-bit unsigned C integer is a [Z] reduced modulo [2^w]; a signed one
    is the representative in [[-2^(w-1), 2^(w-1))]. *)

Definition u8 (x : Z) : Z := x mod 256.
Definition u16 (x : Z) : Z := x mod 65536.
Definition u32 (x : Z) : Z := x mod 4294967296.
Definition s8 (x : Z) : Z := (x + 128) mod 256 - 128.
Definition s16 (x : Z) : Z := (x + 32768) mod 65536 - 32768.
Definition s32 (x : Z) : Z := (x + 2147483648) mod 4294967296 - 2147483648.

(** A character constant of the sources. *)
Definition chr (c : ascii) : Z := Z.of_N (N_of_ascii c).

(** C's [!!x]: a number used as a condition. *)
Definition truth (x : Z) : bool := negb (x =? 0).

(** The bit masks of the sources, [x & m] used as a condition. *)
Definition has (x m : Z) : bool := truth (Z.land x m).

(** ** Outcomes of kernel code

    [Ok a s] is a normal return.  [Panic msg s] is a call of [panic()], which
    never returns.  [Exit code s] is a call of [do_exit(code)] made in the
    middle of a routine (the C code relies on it not returning).  [Fault s] is
    a NULL dereference or an access outside a table, on which the C code has
    no defined behaviour.  [NoFuel] marks an unfinished loop. *)
Inductive outcome (S A : Type) : Type :=
| Ok (a : A) (s : S)
| Panic (msg : string) (s : S)
| Exit (code : Z) (s : S)
| Fault (s : S)
| NoFuel.
Arguments Ok {S A} a s.
Arguments Panic {S A} msg s.
Arguments Exit {S A} code s.
Arguments Fault {S A} s.
Arguments NoFuel {S A}.

(** The state-and-outcome monad in which the C routines are written. *)
Definition M (S A : Type) : Type := S -> outcome S A.

#[global] Instance M_ret S : MRet (M S) := fun A a s => Ok a s.
#[global] Instance M_bind S : MBind (M S) := fun A B f m s =>
  match m s with
  | Ok a s' => f a s'
  | Panic e s' => Panic e s'
  | Exit c s' => Exit c s'
  | Fault s' => Fault s'
  | NoFuel => NoFuel
  end.

Definition get {S} : M S S := fun s => Ok s s.
Definition gets {S A} (f : S -> A) : M S A := fun s => Ok (f s) s.
Definition modify {S} (f : S -> S) : M S unit := fun s => Ok tt (f s).
Definition panic {S A} (msg : string) : M S A := fun s => Panic msg s.
Definition exit_with {S A} (code : Z) : M S A := fun s => Exit code s.
Definition fault {S A} : M S A := fun s => Fault s.
Definition no_fuel {S A} : M S A := fun _ => NoFuel.

(** [printk] writes to the console and touches nothing the models keep. *)
Definition printk {S} (fmt : string) : M S unit := mret tt.

(** Reading an option the C code would dereference. *)
Definition deref {S A} (o : option A) : M S A :=
  match o with Some a => mret a | None => fault end.

(** [when]: an [if] without an [else]. *)
Definition when {S} (b : bool) (m : M S unit) : M S unit := if b then m else mret tt.

(** [for (x in l) f(x);] *)
Fixpoint for_each {S X} (l : list X) (f : X -> M S unit) : M S unit :=
  match l with
  | [] => mret tt
  | x :: l => f x ;; for_each l f
  end.

(** [while (cond) body], with a bound on the number of iterations. *)
Fixpoint while {S} (fuel : nat) (cond : M S bool) (body : M S unit) : M S unit :=
  match fuel with
  | O => no_fuel
  | S fuel => b ← cond; if b : bool then body ;; while fuel cond body else mret tt
  end.

(** [repeat: ... goto repeat;]: [None] goes round again. *)
Fixpoint retry {S A} (fuel : nat) (m : M S (option A)) : M S A :=
  match fuel with
  | O => no_fuel
  | S fuel => r ← m; match r with Some a => mret a | None => retry fuel m end
  end.

(** ** Record update

    [Eta R] lists the fields of [R] once; a [Setter] for a field is then
    derived from it.  [s <| f := v |>] is the C assignment [s.f = v] and
    [s <| f ::= g |>] is [s.f = g(s.f)]. *)
Class Eta (R : Type) := eta : R → R.
Class Setter {R T : Type} (proj : R → T) := set : (T → T) → R → R.
Arguments set {R T} proj {_} _ _.

Ltac derive_setter :=
  lazymatch goal with
  | |- @Setter ?R ?T ?proj =>
      let body := eval hnf in (@eta R _) in
      let abs := eval pattern proj in body in
      lazymatch abs with
      | ?F _ => let t := eval cbv beta in (fun (g : T → T) => F (fun r => g (proj r))) in
                exact t
      end
  end.
#[export] Hint Extern 0 (Setter _) => derive_setter : typeclass_instances.

Notation "x <| f := v |>" := (set f (λ _, v) x)
  (at level 12, f at next level, left associativity, format "x  <| f  :=  v |>") : kernel_scope.
Notation "x <| f ::= g |>" := (set f g x)
  (at level 12, f at next level, left associativity, format "x  <| f  ::=  g |>") : kernel_scope.

(** [zoom f m] runs a routine of the component stored in field [f]. *)
Definition zoom {S T A} (proj : S → T) `{!Setter proj} (m : M T A) : M S A := fun s =>
  match m (proj s) with
  | Ok a t => Ok a (s <| proj := t |>)
  | Panic e t => Panic e (s <| proj := t |>)
  | Exit c t => Exit c (s <| proj := t |>)
  | Fault t => Fault (s <| proj := t |>)
  | NoFuel => NoFuel
  end.

(** ** Program logic

    [wp m Q s]: from [s], [m] returns normally and its result satisfies [Q].
    [wlp m Q s]: if [m] returns normally, its result satisfies [Q]. *)
Definition wp {S A} (m : M S A) (Q : A → S → Prop) (s : S) : Prop :=
  match m s with Ok a s' => Q a s' | _ => False end.
Definition wlp {S A} (m : M S A) (Q : A → S → Prop) (s : S) : Prop :=
  match m s with Ok a s' => Q a s' | _ => True end.

Section Logic.
Context {S : Type}.
Implicit Types s : S.

Lemma wp_ret {A} (a : A) (Q : A → S → Prop) s : Q a s → wp (mret a) Q s.
Proof. done. Qed.
Lemma wlp_ret {A} (a : A) (Q : A → S → Prop) s : Q a s → wlp (mret a) Q s.
Proof. done. Qed.

Lemma wp_bind {A B} (m : M S A) (f : A → M S B) (Q : B → S → Prop) s :
  wp m (λ a, wp (f a) Q) s → wp (m ≫= f) Q s.
Proof. unfold wp, mbind, M_bind. by destruct (m s). Qed.
Lemma wlp_bind {A B} (m : M S A) (f : A → M S B) (Q : B → S → Prop) s :
  wlp m (λ a, wlp (f a) Q) s → wlp (m ≫= f) Q s.
Proof. unfold wlp, mbind, M_bind. by destruct (m s). Qed.

Lemma wp_mono {A} (m : M S A) (P Q : A → S → Prop) s :
  wp m P s → (∀ a s', P a s' → Q a s') → wp m Q s.
Proof. unfold wp. destruct (m s); eauto. Qed.
Lemma wlp_mono {A} (m : M S A) (P Q : A → S → Prop) s :
  wlp m P s → (∀ a s', P a s' → Q a s') → wlp m Q s.
Proof. unfold wlp. destruct (m s); eauto. Qed.

Lemma wp_wlp {A} (m : M S A) (Q : A → S → Prop) s : wp m Q s → wlp m Q s.
Proof. unfold wp, wlp. by destruct (m s). Qed.
Lemma wp_Ok {A} (m : M S A) (Q : A → S → Prop) s :
  wp m Q s ↔ ∃ a s', m s = Ok a s' ∧ Q a s'.
Proof.
  unfold wp. destruct (m s); split; try done; [by eauto| |..].
  1: by intros (? & ? & [= <- <-] & ?).
  all: by intros (? & ? & ? & ?).
Qed.
Lemma wlp_Ok {A} (m : M S A) (Q : A → S → Prop) s :
  wlp m Q s ↔ ∀ a s', m s = Ok a s' → Q a s'.
Proof.
  unfold wlp. destruct (m s); split; try done; [by intros ? ? ? [= <- <-]|by eauto].
Qed.

(** The loop rules: an invariant indexed by the elements already visited. *)
Lemma wp_for_each {X} (l : list X) (f : X → M S unit) (I : list X → S → Prop) s :
  I [] s →
  (∀ done x rest s, l = done ++ x :: rest → I done s → wp (f x) (λ _, I (done ++ [x])) s) →
  wp (for_each l f) (λ _, I l) s.
Proof.
  intros Hinit Hstep.
  cut (∀ rest done s, l = done ++ rest → I done s → wp (for_each rest f) (λ _, I l) s).
  { intros H. by apply (H l []). }
  intros rest. induction rest as [|x rest IH]; intros pre s' Hl HI; simpl.
  - apply wp_ret. by rewrite Hl, app_nil_r.
  - apply wp_bind. eapply wp_mono; [by eapply Hstep|].
    intros ? s'' HI'. apply (IH (pre ++ [x])); [by rewrite <-app_assoc|done].
Qed.
Lemma wlp_for_each {X} (l : list X) (f : X → M S unit) (I : S → Prop) s :
  I s → (∀ x s, x ∈ l → I s → wlp (f x) (λ _, I) s) → wlp (for_each l f) (λ _, I) s.
Proof.
  revert s. induction l as [|x l IH]; intros s HI Hf; simpl; [by apply wlp_ret|].
  apply wlp_bind. eapply wlp_mono; [apply Hf; [left|done]|].
  intros ? s' HI'. apply IH; [done|]. intros y s'' Hy. apply Hf. by right.
Qed.
Lemma wlp_while fuel (c : M S bool) (body : M S unit) (I : S → Prop) s :
  I s → (∀ s, I s → wlp c (λ b s', I s' ∧ (b = true → wlp body (λ _, I) s')) s) →
  wlp (while fuel c body) (λ _, I) s.
Proof.
  intros HI Hc. revert s HI. induction fuel as [|fuel IH]; intros s HI; [done|]; simpl.
  apply wlp_bind. eapply wlp_mono; [by apply Hc|].
  intros [] s' [HI' Hb]; [|by apply wlp_ret].
  apply wlp_bind. eapply wlp_mono; [by apply Hb|]. intros ? s'' HI''. by apply IH.
Qed.
End Logic.

(** ** C arrays

    An array is a list; [a[i]] faults outside it. *)
Definition zlookup {A} (l : list A) (i : Z) : option A :=
  if i <? 0 then None else l !! Z.to_nat i.
Definition zinsert {A} (i : Z) (x : A) (l : list A) : list A :=
  if i <? 0 then l else <[Z.to_nat i := x]> l.

Lemma zlookup_nat {A} (l : list A) (n : nat) : zlookup l (Z.of_nat n) = l !! n.
Proof. unfold zlookup. destruct (Z.ltb_spec (Z.of_nat n) 0); [lia|]. by rewrite Nat2Z.id. Qed.
Lemma zlookup_Some {A} (l : list A) i x :
  zlookup l i = Some x → 0 ≤ i < Z.of_nat (length l).
Proof.
  unfold zlookup. destruct (Z.ltb_spec i 0); [done|]. intros Hx%lookup_lt_Some. lia.
Qed.
Lemma zlookup_is_Some {A} (l : list A) i :
  0 ≤ i < Z.of_nat (length l) → is_Some (zlookup l i).
Proof.
  intros Hi. unfold zlookup. destruct (Z.ltb_spec i 0); [lia|].
  apply lookup_lt_is_Some. lia.
Qed.
Lemma length_zinsert {A} i (x : A) l : length (zinsert i x l) = length l.
Proof. unfold zinsert. destruct (i <? 0); [done|]. apply length_insert. Qed.
Lemma zlookup_zinsert_eq {A} i (x : A) l :
  0 ≤ i < Z.of_nat (length l) → zlookup (zinsert i x l) i = Some x.
Proof.
  intros Hi. unfold zlookup, zinsert. destruct (Z.ltb_spec i 0); [lia|].
  apply list_lookup_insert_eq. lia.
Qed.
Lemma zlookup_zinsert_ne {A} i j (x : A) l :
  i ≠ j → zlookup (zinsert i x l) j = zlookup l j.
Proof.
  intros Hi. unfold zlookup, zinsert.
  destruct (Z.ltb_spec i 0), (Z.ltb_spec j 0); try done.
  apply list_lookup_insert_ne. lia.
Qed.
#[export] Hint Rewrite @length_zinsert : kernel.

(** ** Facts about the integer types *)
Lemma u8_bound x : 0 ≤ u8 x < 256. Proof. apply Z.mod_pos_bound. lia. Qed.
Lemma u16_bound x : 0 ≤ u16 x < 65536. Proof. apply Z.mod_pos_bound. lia. Qed.
Lemma u32_bound x : 0 ≤ u32 x < 4294967296. Proof. apply Z.mod_pos_bound. lia. Qed.
Lemma s32_bound x : -2147483648 ≤ s32 x < 2147483648.
Proof. unfold s32. pose proof (Z.mod_pos_bound (x + 2147483648) 4294967296). lia. Qed.
Lemma u8_small x : 0 ≤ x < 256 → u8 x = x. Proof. apply Z.mod_small. Qed.
Lemma u16_small x : 0 ≤ x < 65536 → u16 x = x. Proof. apply Z.mod_small. Qed.
Lemma u32_small x : 0 ≤ x < 4294967296 → u32 x = x. Proof. apply Z.mod_small. Qed.
Lemma s32_small x : -2147483648 ≤ x < 2147483648 → s32 x = x.
Proof. intros Hx. unfold s32. rewrite Z.mod_small; lia. Qed.
#[export] Hint Resolve u8_bound u16_bound u32_bound s32_bound : kernel.

(** Congruence modulo [2^32], the equality that survives wrap-around. *)
Definition eqm32 (x y : Z) : Prop := x mod 4294967296 = y mod 4294967296.

#[export] Instance eqm32_equiv : Equivalence eqm32.
Proof. unfold eqm32. split; red; [done|done|]. intros ??? -> ->. done. Qed.
#[export] Instance eqm32_add : Proper (eqm32 ==> eqm32 ==> eqm32) Z.add.
Proof. intros x x' Hx y y' Hy. unfold eqm32. by rewrite (Z.add_mod x), (Z.add_mod x'), Hx, Hy. Qed.
#[export] Instance eqm32_sub : Proper (eqm32 ==> eqm32 ==> eqm32) Z.sub.
Proof. intros x x' Hx y y' Hy. unfold eqm32. by rewrite Zminus_mod, Hx, Hy, <-Zminus_mod. Qed.
#[export] Instance eqm32_mul : Proper (eqm32 ==> eqm32 ==> eqm32) Z.mul.
Proof. intros x x' Hx y y' Hy. unfold eqm32. by rewrite (Z.mul_mod x), (Z.mul_mod x'), Hx, Hy. Qed.

Lemma eqm32_eq x y : x = y → eqm32 x y. Proof. by intros ->. Qed.
Lemma s32_eqm x : eqm32 (s32 x) x.
Proof.
  unfold eqm32, s32. rewrite Zminus_mod_idemp_l. f_equal. lia.
Qed.
Lemma u32_eqm x : eqm32 (u32 x) x.
Proof. unfold eqm32, u32. apply Z.mod_mod. lia. Qed.
Lemma s32_eq_eqm x y : eqm32 x y → s32 x = s32 y.
Proof. unfold eqm32, s32. intros H. f_equal. by rewrite (Z.add_mod x), (Z.add_mod y), H. Qed.
Lemma u32_eq_eqm x y : eqm32 x y → u32 x = u32 y.
Proof. done. Qed.

(** Equations between 32-bit results: drop every inner wrap-around. *)
Ltac wrap_ring :=
  first [apply s32_eq_eqm | apply u32_eq_eqm | idtac];
  rewrite ?s32_eqm, ?u32_eqm; apply eqm32_eq; ring.

Lemma truth_true x : truth x = true ↔ x ≠ 0.
Proof. unfold truth. rewrite negb_true_iff, Z.eqb_neq. done. Qed.
Lemma truth_false x : truth x = false ↔ x = 0.
Proof. unfold truth. rewrite negb_false_iff, Z.eqb_eq. done. Qed.

(** ** Running monadic code *)
Lemma bind_Ok {S A B} (m : M S A) (f : A → M S B) s a s' :
  m s = Ok a s' → (m ≫= f) s = f a s'.
Proof. unfold mbind, M_bind. by intros ->. Qed.
Lemma bind_assoc {S A B D} (m : M S A) (f : A → M S B) (g : B → M S D) s :
  ((m ≫= f) ≫= g) s = (m ≫= λ a, f a ≫= g) s.
Proof. unfold mbind, M_bind. by destruct (m s). Qed.
Lemma bind_Ok_inv {S A B} (m : M S A) (f : A → M S B) s b s' :
  (m ≫= f) s = Ok b s' → ∃ a s1, m s = Ok a s1 ∧ f a s1 = Ok b s'.
Proof. unfold mbind, M_bind. destruct (m s); naive_solver. Qed.
Lemma bind_ret_l {S A B} (a : A) (f : A → M S B) s : (mret a ≫= f) s = f a s.
Proof. done. Qed.
Lemma for_each_app {S X} (l k : list X) (f : X → M S unit) s :
  for_each (l ++ k) f s = (for_each l f ;; for_each k f) s.
Proof.
  revert s. induction l as [|x l IH]; intros s; [done|]. simpl.
  unfold mbind, M_bind. destruct (f x s) as [? s1|? ?|? ?|?|]; [|done..]. apply IH.
Qed.

(** Unfold the monad's operations in the goal. *)
Ltac mred := unfold when, mbind, M_bind, mret, M_ret; cbn beta iota.
Tactic Notation "mred" "in" hyp(H) := unfold when, mbind, M_bind, mret, M_ret in H; cbn beta iota in H.

(** ** Sums over index ranges *)
Fixpoint zsum (f : nat → Z) (lo len : nat) : Z :=
  match len with O => 0 | S len => f lo + zsum f (S lo) len end.

Lemma zsum_ext f g lo len :
  (∀ k, (lo ≤ k < lo + len)%nat → f k = g k) → zsum f lo len = zsum g lo len.
Proof.
  revert lo. induction len as [|len IH]; intros lo H; simpl; [done|].
  rewrite (H lo) by lia. f_equal. apply IH. intros k Hk. apply H. lia.
Qed.
Lemma zsum_change f g lo len k :
  (lo ≤ k < lo + len)%nat → (∀ j, (lo ≤ j < lo + len)%nat → j ≠ k → f j = g j) →
  zsum g lo len = zsum f lo len - f k + g k.
Proof.
  revert lo. induction len as [|len IH]; intros lo Hk H; simpl; [lia|].
  destruct (decide (k = lo)) as [->|Hne].
  - rewrite (zsum_ext g f) by (intros j Hj; symmetry; apply H; lia). lia.
  - rewrite (IH (S lo)), (H lo) by (try (intros; apply H); lia). lia.
Qed.
Lemma zsum_nonneg f lo len :
  (∀ k, (lo ≤ k < lo + len)%nat → 0 ≤ f k) → 0 ≤ zsum f lo len.
Proof.
  revert lo. induction len as [|len IH]; intros lo H; simpl; [lia|].
  pose proof (H lo ltac:(lia)). pose proof (IH (S lo) ltac:(intros; apply H; lia)). lia.
Qed.
Lemma zsum_zero f lo len :
  (∀ k, (lo ≤ k < lo + len)%nat → f k = 0) → zsum f lo len = 0.
Proof.
  revert lo. induction len as [|len IH]; intros lo H; simpl; [done|].
  rewrite (H lo), (IH (S lo)) by (intros; try apply H; lia). done.
Qed.
Lemma zsum_ge f lo len k :
  (∀ k, (lo ≤ k < lo + len)%nat → 0 ≤ f k) → (lo ≤ k < lo + len)%nat → f k ≤ zsum f lo len.
Proof.
  revert lo. induction len as [|len IH]; intros lo H Hk; simpl; [lia|].
  pose proof (H lo ltac:(lia)).
  pose proof (zsum_nonneg f (S lo) len ltac:(intros; apply H; lia)).
  destruct (decide (k = lo)) as [->|Hne]; [lia|].
  pose proof (IH (S lo) ltac:(intros; apply H; lia) ltac:(lia)). lia.
Qed.

Lemma zsum_app f lo a b : zsum f lo (a + b) = zsum f lo a + zsum f (lo + a) b.
Proof.
  revert lo. induction a as [|a IH]; intros lo; simpl; [by rewrite Nat.add_0_r|].
  rewrite IH. replace (S lo + a)%nat with (lo + S a)%nat by lia. lia.
Qed.
Lemma zsum_snoc f lo n : zsum f lo (S n) = zsum f lo n + f (lo + n)%nat.
Proof. replace (S n) with (n + 1)%nat by lia. rewrite zsum_app. simpl. lia. Qed.
Lemma zsum_sub f lo len a n :
  (∀ k, (lo ≤ k < lo + len)%nat → 0 ≤ f k) → (lo ≤ a)%nat → (a + n ≤ lo + len)%nat →
  zsum f a n ≤ zsum f lo len.
Proof.
  intros Hf Ha Hn.
  replace len with ((a - lo) + (n + (lo + len - a - n)))%nat by lia. rewrite !zsum_app.
  replace (lo + (a - lo))%nat with a by lia.
  pose proof (zsum_nonneg f lo (a - lo) ltac:(intros; apply Hf; lia)).
  pose proof (zsum_nonneg f (a + n) (lo + len - a - n) ltac:(intros; apply Hf; lia)). lia.
Qed.

(** The loop rule for [for (k=0 ; k<n ; k++)]. *)
Lemma seq_middle n pre x rest : seq 0 n = pre ++ x :: rest → x = length pre ∧ (x < n)%nat.
Proof.
  intros H. assert (Hx : seq 0 n !! length pre = Some x) by (by rewrite H, list_lookup_middle).
  apply lookup_seq in Hx as [-> Hlt]. by rewrite Nat.add_0_l.
Qed.
Lemma wp_for_seq {S} n (f : nat → M S unit) (I : nat → S → Prop) s :
  I 0%nat s → (∀ k s, (k < n)%nat → I k s → wp (f k) (λ _, I (Datatypes.S k)) s) →
  wp (for_each (seq 0 n) f) (λ _, I n) s.
Proof.
  intros H0 Hstep. eapply wp_mono.
  - apply (wp_for_each (seq 0 n) f (λ l, I (length l))); [done|].
    intros pre x rest s' Hl HI. apply seq_middle in Hl as [-> Hlt].
    rewrite length_app, Nat.add_1_r. by apply Hstep.
  - intros ? s' HI. by rewrite length_seq in HI.
Qed.
