(* ===== verification/Types.v ===== *)
(** * The structures of the headers

    The constants and structures of include/linux/{sched,fs,tty,kernel}.h,
    kernel/blk_drv/blk.h, signal.h, errno.h, termios.h and sys/{stat,wait}.h.
    A pointer to a task is the address of its page (0 is NULL); a pointer into
    one of the kernel's static tables is the index of the entry ([None] is
    NULL). *)

From stdpp Require Import base option list gmap.
From Stdlib Require Import ZArith.
From S2P Require Import Prelude.
Local Open Scope Z_scope.

(** ** errno.h *)
Definition ERROR : Z := 99.
Definition EPERM : Z := 1.
Definition ENOENT : Z := 2.
Definition ESRCH : Z := 3.
Definition EINTR : Z := 4.
Definition EIO : Z := 5.
Definition ENXIO : Z := 6.
Definition E2BIG : Z := 7.
Definition ENOEXEC : Z := 8.
Definition EBADF : Z := 9.
Definition ECHILD : Z := 10.
Definition EAGAIN : Z := 11.
Definition ENOMEM : Z := 12.
Definition EACCES : Z := 13.
Definition ENOTBLK : Z := 15.
Definition EBUSY : Z := 16.
Definition EEXIST : Z := 17.
Definition EXDEV : Z := 18.
Definition ENODEV : Z := 19.
Definition ENOTDIR : Z := 20.
Definition EISDIR : Z := 21.
Definition EINVAL : Z := 22.
Definition ENFILE : Z := 23.
Definition EMFILE : Z := 24.
Definition ENOTTY : Z := 25.
Definition ENOSPC : Z := 28.
Definition ESPIPE : Z := 29.
Definition EROFS : Z := 30.
Definition ENOSYS : Z := 38.
Definition ENOTEMPTY : Z := 39.

(** ** signal.h *)
Definition SIGHUP : Z := 1.
Definition SIGINT : Z := 2.
Definition SIGQUIT : Z := 3.
Definition SIGFPE : Z := 8.
Definition SIGKILL : Z := 9.
Definition SIGPIPE : Z := 13.
Definition SIGALRM : Z := 14.
Definition SIGCHLD : Z := 17.
Definition SIGSTOP : Z := 19.
Definition SIGTTIN : Z := 21.
Definition SIGTTOU : Z := 22.
Definition SA_NOMASK : Z := 0x40000000.
Definition SA_ONESHOT : Z := 0x80000000.

Record sigaction_struct := mk_sigaction {
  sa_handler : Z; sa_mask : Z; sa_flags : Z; sa_restorer : Z
}.
#[export] Instance eta_sigaction : Eta sigaction_struct := fun s =>
  mk_sigaction (sa_handler s) (sa_mask s) (sa_flags s) (sa_restorer s).

(** ** sched.h *)
Definition NR_TASKS : nat := 64.
Definition HZ : Z := 100.
Definition TASK_RUNNING : Z := 0.
Definition TASK_INTERRUPTIBLE : Z := 1.
Definition TASK_UNINTERRUPTIBLE : Z := 2.
Definition TASK_ZOMBIE : Z := 3.
Definition TASK_STOPPED : Z := 4.
Definition WNOHANG : Z := 1.
Definition WUNTRACED : Z := 2.
Definition FIRST_TSS_ENTRY : Z := 4.
Definition FIRST_LDT_ENTRY : Z := FIRST_TSS_ENTRY + 1.
Definition LDT_SEL (n : Z) : Z := u32 (Z.shiftl n 4 + Z.shiftl FIRST_LDT_ENTRY 3).

Record desc_struct := mk_desc { desc_a : Z; desc_b : Z }.

(** The state of the 387, as fnsave stores it. *)
Record i387_struct := mk_i387 {
  cwd : Z; swd : Z; twd : Z; fip : Z; fcs : Z; foo : Z; fos : Z;
  st_space : list Z                       (* [20] *)
}.

(** The saved registers. *)
Record tss_struct := mk_tss {
  back_link : Z; esp0 : Z; ss0 : Z; esp1 : Z; ss1 : Z; esp2 : Z; ss2 : Z; cr3 : Z;
  eip : Z; eflags : Z; eax : Z; ecx : Z; edx : Z; ebx : Z; esp : Z; ebp : Z;
  esi : Z; edi : Z; es : Z; cs : Z; ss : Z; ds : Z; fs : Z; gs : Z;
  tss_ldt : Z; trace_bitmap : Z; i387 : i387_struct
}.
#[export] Instance eta_tss : Eta tss_struct := fun t =>
  mk_tss (back_link t) (esp0 t) (ss0 t) (esp1 t) (ss1 t) (esp2 t) (ss2 t) (cr3 t)
    (eip t) (eflags t) (eax t) (ecx t) (edx t) (ebx t) (esp t) (ebp t)
    (esi t) (edi t) (es t) (cs t) (ss t) (ds t) (fs t) (gs t) (tss_ldt t) (trace_bitmap t)
    (i387 t).

Record task_struct := mk_task {
  state : Z; counter : Z; priority : Z; signal : Z;
  sigaction : list sigaction_struct;      (* [32] *)
  blocked : Z;
  exit_code : Z;
  start_code : Z; end_code : Z; end_data : Z; brk : Z; start_stack : Z;
  pid : Z; father : Z; pgrp : Z; session : Z; leader : Z;
  uid : Z; euid : Z; suid : Z; gid : Z; egid : Z; sgid : Z;
  alarm : Z; utime : Z; stime : Z; cutime : Z; cstime : Z; start_time : Z;
  used_math : Z;
  tty : Z; umask : Z;
  pwd : option nat; root : option nat; executable : option nat;
  close_on_exec : Z;
  filp : list (option nat);               (* [NR_OPEN] *)
  ldt : list desc_struct;                 (* [3] *)
  tss : tss_struct
}.
#[export] Instance eta_task : Eta task_struct := fun t =>
  mk_task (state t) (counter t) (priority t) (signal t) (sigaction t) (blocked t) (exit_code t)
    (start_code t) (end_code t) (end_data t) (brk t) (start_stack t)
    (pid t) (father t) (pgrp t) (session t) (leader t)
    (uid t) (euid t) (suid t) (gid t) (egid t) (sgid t)
    (alarm t) (utime t) (stime t) (cutime t) (cstime t) (start_time t) (used_math t)
    (tty t) (umask t) (pwd t) (root t) (executable t) (close_on_exec t) (filp t) (ldt t) (tss t).

(** The base and limit fields of a segment descriptor. *)
Definition set_base (d : desc_struct) (base : Z) : desc_struct :=
  mk_desc (Z.lor (Z.land (desc_a d) 0xffff) (Z.shiftl (Z.land base 0xffff) 16))
    (Z.lor (Z.land (desc_b d) 0x00ffff00)
       (Z.lor (Z.land (Z.shiftr base 16) 0xff) (Z.land base 0xff000000))).
Definition get_base (d : desc_struct) : Z :=
  Z.lor (Z.shiftl (Z.lor (Z.shiftl (Z.land (Z.shiftr (desc_b d) 24) 0xff) 8) (Z.land (desc_b d) 0xff)) 16)
    (Z.land (Z.shiftr (desc_a d) 16) 0xffff).
(** [set_limit(ldt,limit)] stores [(limit-1)>>12] and keeps the flag bits. *)
Definition set_limit (d : desc_struct) (limit : Z) : desc_struct :=
  let l := Z.shiftr (u32 (limit - 1)) 12 in
  mk_desc (Z.lor (Z.land (desc_a d) 0xffff0000) (Z.land l 0xffff))
    (Z.lor (Z.land (desc_b d) 0xfff0ffff) (Z.land l 0xf0000)).
(** [lsll] scales the limit when the granularity bit is set; then [incl]. *)
Definition get_limit (d : desc_struct) : Z :=
  let l := Z.lor (Z.land (desc_a d) 0xffff) (Z.land (desc_b d) 0xf0000) in
  u32 ((if has (desc_b d) 0x800000 then Z.lor (Z.shiftl l 12) 0xfff else l) + 1).

(** ** fs.h *)
Definition READ : Z := 0.
Definition WRITE : Z := 1.
Definition READA : Z := 2.
Definition WRITEA : Z := 3.
Definition MAJOR (a : Z) : Z := Z.shiftr (u32 a) 8.
Definition MINOR (a : Z) : Z := Z.land a 0xff.
Definition IS_SEEKABLE (x : Z) : bool := (1 <=? x) && (x <=? 3).
Definition NAME_LEN : nat := 14.
Definition ROOT_INO : Z := 1.
Definition I_MAP_SLOTS : nat := 8.
Definition Z_MAP_SLOTS : nat := 8.
Definition SUPER_MAGIC : Z := 0x137F.
Definition NR_OPEN : nat := 20.
Definition NR_INODE : nat := 32.
Definition NR_FILE : nat := 64.
Definition NR_SUPER : nat := 8.
Definition NR_HASH : Z := 307.
Definition BLOCK_SIZE : Z := 1024.
Definition INODES_PER_BLOCK : Z := 32.          (* BLOCK_SIZE / sizeof(struct d_inode) *)
Definition DIR_ENTRIES_PER_BLOCK : Z := 64.     (* BLOCK_SIZE / sizeof(struct dir_entry) *)

Record buffer_head := mk_buffer {
  b_data : list Z;        (* the 1024 bytes *)
  b_blocknr : Z; b_dev : Z; b_uptodate : Z; b_dirt : Z; b_count : Z; b_lock : Z;
  b_wait : Z;
  b_prev : option nat; b_next : option nat; b_prev_free : option nat; b_next_free : option nat
}.
#[export] Instance eta_buffer : Eta buffer_head := fun b =>
  mk_buffer (b_data b) (b_blocknr b) (b_dev b) (b_uptodate b) (b_dirt b) (b_count b) (b_lock b)
    (b_wait b) (b_prev b) (b_next b) (b_prev_free b) (b_next_free b).

Record m_inode := mk_inode {
  i_mode : Z; i_uid : Z; i_size : Z; i_mtime : Z; i_gid : Z; i_nlinks : Z;
  i_zone : list Z;        (* [9] *)
  i_wait : Z; i_atime : Z; i_ctime : Z; i_dev : Z; i_num : Z; i_count : Z;
  i_lock : Z; i_dirt : Z; i_pipe : Z; i_mount : Z; i_seek : Z; i_update : Z
}.
#[export] Instance eta_inode : Eta m_inode := fun i =>
  mk_inode (i_mode i) (i_uid i) (i_size i) (i_mtime i) (i_gid i) (i_nlinks i) (i_zone i)
    (i_wait i) (i_atime i) (i_ctime i) (i_dev i) (i_num i) (i_count i)
    (i_lock i) (i_dirt i) (i_pipe i) (i_mount i) (i_seek i) (i_update i).

Record file := mk_file {
  f_mode : Z; f_flags : Z; f_count : Z; f_inode : option nat; f_pos : Z
}.
#[export] Instance eta_file : Eta file := fun f =>
  mk_file (f_mode f) (f_flags f) (f_count f) (f_inode f) (f_pos f).

Record super_block_struct := mk_super {
  s_ninodes : Z; s_nzones : Z; s_imap_blocks : Z; s_zmap_blocks : Z;
  s_firstdatazone : Z; s_log_zone_size : Z; s_max_size : Z; s_magic : Z;
  s_imap : list (option nat); s_zmap : list (option nat);   (* [8] each *)
  s_dev : Z; s_isup : option nat; s_imount : option nat; s_time : Z; s_wait : Z;
  s_lock : Z; s_rd_only : Z; s_dirt : Z
}.
#[export] Instance eta_super : Eta super_block_struct := fun s =>
  mk_super (s_ninodes s) (s_nzones s) (s_imap_blocks s) (s_zmap_blocks s)
    (s_firstdatazone s) (s_log_zone_size s) (s_max_size s) (s_magic s) (s_imap s) (s_zmap s)
    (s_dev s) (s_isup s) (s_imount s) (s_time s) (s_wait s) (s_lock s) (s_rd_only s) (s_dirt s).

(** PIPE_HEAD .. PIPE_FULL *)
Definition zone (i : m_inode) (k : nat) : Z := default 0 (i_zone i !! k).
Definition PIPE_HEAD (i : m_inode) : Z := zone i 0.
Definition PIPE_TAIL (i : m_inode) : Z := zone i 1.
Definition PIPE_SIZE (i : m_inode) : Z := Z.land (PIPE_HEAD i - PIPE_TAIL i) 4095.
Definition PIPE_EMPTY (i : m_inode) : bool := PIPE_HEAD i =? PIPE_TAIL i.
Definition PIPE_FULL (i : m_inode) : bool := PIPE_SIZE i =? 4095.

(** ** sys/stat.h *)
Definition S_IFMT : Z := 0xf000.      (* 00170000 *)
Definition S_IFREG : Z := 0x8000.     (* 0100000 *)
Definition S_IFBLK : Z := 0x6000.     (* 0060000 *)
Definition S_IFDIR : Z := 0x4000.     (* 0040000 *)
Definition S_IFCHR : Z := 0x2000.     (* 0020000 *)
Definition S_IFIFO : Z := 0x1000.     (* 0010000 *)
Definition S_ISVTX : Z := 0x200.      (* 0001000 *)
Definition S_ISREG (m : Z) : bool := Z.land m S_IFMT =? S_IFREG.
Definition S_ISDIR (m : Z) : bool := Z.land m S_IFMT =? S_IFDIR.
Definition S_ISCHR (m : Z) : bool := Z.land m S_IFMT =? S_IFCHR.
Definition S_ISBLK (m : Z) : bool := Z.land m S_IFMT =? S_IFBLK.
Definition S_ISFIFO (m : Z) : bool := Z.land m S_IFMT =? S_IFIFO.

(** ** blk.h *)
Definition NR_BLK_DEV : Z := 7.
Definition NR_REQUEST : nat := 32.

Record request_struct := mk_request {
  r_dev : Z; r_cmd : Z; r_errors : Z; r_sector : Z; r_nr_sectors : Z;
  r_buffer : Z;       (* the place in the data of [r_bh] *)
  r_waiting : Z; r_bh : option nat; r_next : option nat
}.
#[export] Instance eta_request : Eta request_struct := fun r =>
  mk_request (r_dev r) (r_cmd r) (r_errors r) (r_sector r) (r_nr_sectors r)
    (r_buffer r) (r_waiting r) (r_bh r) (r_next r).

(** The request functions the drivers install; [NULL] is [None]. *)
Inductive request_fn_ptr := do_rd_request_fn | do_fd_request_fn | do_hd_request_fn.
Record blk_dev_struct := mk_blk_dev { request_fn : option request_fn_ptr; current_request : option nat }.
#[export] Instance eta_blk_dev : Eta blk_dev_struct := fun b =>
  mk_blk_dev (request_fn b) (current_request b).

Definition IN_ORDER (s1 s2 : request_struct) : bool :=
  (r_cmd s1 <? r_cmd s2) ||
  (r_cmd s1 =? r_cmd s2) &&
  ((r_dev s1 <? r_dev s2) || ((r_dev s1 =? r_dev s2) && (r_sector s1 <? r_sector s2))).

(** ** tty.h and termios.h *)
Definition TTY_BUF_SIZE : Z := 1024.

Record termios_struct := mk_termios {
  c_iflag : Z; c_oflag : Z; c_cflag : Z; c_lflag : Z; c_line : Z; c_cc : list Z
}.
#[export] Instance eta_termios : Eta termios_struct := fun t =>
  mk_termios (c_iflag t) (c_oflag t) (c_cflag t) (c_lflag t) (c_line t) (c_cc t).

Record tty_queue := mk_tty_queue {
  q_data : Z; q_head : Z; q_tail : Z; q_proc_list : Z; q_buf : list Z
}.
#[export] Instance eta_tty_queue : Eta tty_queue := fun q =>
  mk_tty_queue (q_data q) (q_head q) (q_tail q) (q_proc_list q) (q_buf q).

Inductive tty_write_ptr := con_write_fn | rs_write_fn.
Record tty_struct := mk_tty {
  termios : termios_struct; t_pgrp : Z; t_stopped : Z; t_write : tty_write_ptr;
  read_q : tty_queue; write_q : tty_queue; secondary : tty_queue
}.
#[export] Instance eta_tty : Eta tty_struct := fun t =>
  mk_tty (termios t) (t_pgrp t) (t_stopped t) (t_write t) (read_q t) (write_q t) (secondary t).
