(* ===== verification/Memory.v ===== *)
(** * mm/memory.c: physical pages, page tables and copy-on-write

    The state [mm] is the reference-count array [mem_map], the limit
    [HIGH_MEMORY] and physical memory as 32-bit words; the page directory is
    at physical address 0, where head.s puts it.  Every routine of memory.c
    that works on this state alone is here; [share_page] and [do_no_page],
    which also use the task table and the file system, are in the files that
    have them. *)

From stdpp Require Import base option list gmap strings.
From Stdlib Require Import ZArith Lia.
From S2P Require Import Prelude.
Local Open Scope Z_scope.

Definition LOW_MEM : Z := 0x100000.
Definition PAGING_MEMORY : Z := 15*1024*1024.
Definition PAGING_PAGES : Z := Z.shiftr PAGING_MEMORY 12.
Definition MAP_NR (addr : Z) : Z := Z.shiftr (addr - LOW_MEM) 12.
Definition USED : Z := 100.
Definition SIGSEGV : Z := 11.
Definition PAGE_SIZE : Z := 4096.

Record mm := mk_mm {
  HIGH_MEMORY : Z;          (* static long HIGH_MEMORY *)
  mem_map : list Z;         (* static unsigned char mem_map[PAGING_PAGES] *)
  phys : gmap Z Z           (* physical memory, by the address of each long *)
}.
#[export] Instance eta_mm : Eta mm := fun s => mk_mm (HIGH_MEMORY s) (mem_map s) (phys s).

(** The long at the (4-byte aligned) physical address [a]. *)
Definition word (s : mm) (a : Z) : Z := u32 (default 0 (phys s !! a)).

Definition ld (a : Z) : M mm Z := λ s, Ok (word s a) s.
Definition st (a v : Z) : M mm unit := λ s, Ok tt (s <| phys := <[a := v]> (phys s) |>).

(** A byte store: [*(char * ) a = b]. *)
Definition st8 (a b : Z) : M mm unit :=
  let base := a - a mod 4 in let sh := 8 * (a mod 4) in
  w ← ld base;
  st base (Z.lor (Z.land w (Z.lnot (Z.shiftl 255 sh))) (Z.shiftl (u8 b) sh)).

(** [mem_map[i]]; an index outside the array faults. *)
Definition map_get (i : Z) : M mm Z := s ← get; deref (zlookup (mem_map s) i).
Definition map_set (i v : Z) : M mm unit :=
  _ ← map_get i; modify (λ s, s <| mem_map := zinsert i v (mem_map s) |>).

(** oom(): [do_exit] does not return. *)
Definition oom {A} : M mm A := printk "out of memory\n\r" ;; exit_with SIGSEGV.
(** invalidate() reloads cr3; translation look-aside buffers are not modelled. *)
Definition invalidate : M mm unit := mret tt.
Definition copy_page (from to : Z) : M mm unit :=
  for_each (seq 0 1024) (λ k, v ← ld (from + 4 * Z.of_nat k); st (to + 4 * Z.of_nat k) v).

(** [std ; repne ; scasb] with al=0: scan [mem_map] downwards from entry
    [ecx-1]; the result is the final ecx when a zero byte was found. *)
Fixpoint scasb (m : list Z) (ecx : nat) : option nat :=
  match ecx with
  | O => None
  | S ecx => match m !! ecx with
             | Some 0 => Some ecx
             | _ => scasb m ecx
             end
  end.

(** [leal 4092(%edx),%edi ; rep ; stosl] with eax=0 and ecx=1024, downwards *)
Definition zero_page (edx : Z) : M mm unit :=
  for_each (reverse (seq 0 1024)) (λ k, st (edx + 4 * Z.of_nat k) 0).

Definition get_free_page : M mm Z :=
  s ← get;
  match scasb (mem_map s) (Z.to_nat PAGING_PAGES) with
  | None => mret 0
  | Some ecx =>
      map_set (Z.of_nat ecx) 1 ;;
      let edx := u32 (Z.shiftl (Z.of_nat ecx) 12 + LOW_MEM) in
      zero_page edx ;;
      mret edx
  end.

Definition free_page (addr : Z) : M mm unit :=
  if addr <? LOW_MEM then mret tt else
  s ← get;
  (if HIGH_MEMORY s <=? addr then panic "trying to free nonexistent page" else mret tt) ;;
  let addr := Z.shiftr (addr - LOW_MEM) 12 in
  old ← map_get addr;
  map_set addr (u8 (old - 1)) ;;
  if truth old then mret tt else
  map_set addr 0 ;;
  panic "trying to free free page".

(** The inner loop of free_page_tables, over the 1024 entries of one table. *)
Definition free_page_table (pg_table : Z) : M mm unit :=
  for_each (seq 0 1024) (λ nr,
    let pg_table := pg_table + 4 * Z.of_nat nr in
    e ← ld pg_table;
    when (has 1 e) (free_page (Z.land 0xfffff000 e)) ;;
    st pg_table 0).

(** The body of its outer loop: one page-directory entry. *)
Definition free_page_dir (dir : Z) : M mm unit :=
  d ← ld dir;
  if negb (has 1 d) then mret tt else
  free_page_table (Z.land 0xfffff000 d) ;;
  d ← ld dir;
  free_page (Z.land 0xfffff000 d) ;;
  st dir 0.

Definition free_page_tables (from size : Z) : M mm Z :=
  (if has from 0x3fffff then panic "free_page_tables called with wrong alignment" else mret tt) ;;
  (if from =? 0 then panic "Trying to free up swapper memory space" else mret tt) ;;
  let size := Z.shiftr (u32 (size + 0x3fffff)) 22 in
  let dir := Z.land (Z.shiftr from 20) 0xffc in
  for_each (seq 0 (Z.to_nat size)) (λ i, free_page_dir (dir + 4 * Z.of_nat i)) ;;
  invalidate ;;
  mret 0.

(** One entry of the inner loop of copy_page_tables. *)
Definition copy_pte (from_page_table to_page_table : Z) : M mm unit :=
  this_page ← ld from_page_table;
  if negb (has 1 this_page) then mret tt else
  let this_page := Z.land this_page (Z.lnot 2) in
  st to_page_table this_page ;;
  when (LOW_MEM <? this_page) (
    st from_page_table this_page ;;
    let i := Z.shiftr (this_page - LOW_MEM) 12 in
    c ← map_get i;
    map_set i (u8 (c + 1))).

(** The loop [for( ; size-->0 ; from_dir++,to_dir++)]; [from] is only used to
    tell the first fork, which copies 640kB, from the others. *)
Fixpoint copy_page_dirs (from from_dir to_dir : Z) (size : nat) : M mm Z :=
  match size with
  | O => invalidate ;; mret 0
  | S size =>
      td ← ld to_dir;
      if has 1 td then panic "copy_page_tables: already exist" else
      fd ← ld from_dir;
      if negb (has 1 fd) then copy_page_dirs from (from_dir + 4) (to_dir + 4) size else
      let from_page_table := Z.land 0xfffff000 fd in
      to_page_table ← get_free_page;
      if to_page_table =? 0 then mret (-1) (* Out of memory, see freeing *) else
      st to_dir (Z.lor to_page_table 7) ;;
      let nr := if from =? 0 then 0xA0%nat else 1024%nat in
      for_each (seq 0 nr) (λ k,
        copy_pte (from_page_table + 4 * Z.of_nat k) (to_page_table + 4 * Z.of_nat k)) ;;
      copy_page_dirs from (from_dir + 4) (to_dir + 4) size
  end.

Definition copy_page_tables (from to size : Z) : M mm Z :=
  (if has from 0x3fffff || has to 0x3fffff
   then panic "copy_page_tables called with wrong alignment" else mret tt) ;;
  let from_dir := Z.land (Z.shiftr from 20) 0xffc in
  let to_dir := Z.land (Z.shiftr to 20) 0xffc in
  let size := Z.shiftr (u32 (size + 0x3fffff)) 22 in
  copy_page_dirs from from_dir to_dir (Z.to_nat size).

Definition put_page (page address : Z) : M mm Z :=
  s ← get;
  when ((page <? LOW_MEM) || (HIGH_MEMORY s <=? page)) (printk "Trying to put page %p at %p\n") ;;
  c ← map_get (Z.shiftr (u32 (page - LOW_MEM)) 12);
  when (negb (c =? 1)) (printk "mem_map disagrees with %p at %p\n") ;;
  let page_table := Z.land (Z.shiftr address 20) 0xffc in
  d ← ld page_table;
  page_table ← (if has d 1 then mret (Some (Z.land 0xfffff000 d)) else
    tmp ← get_free_page;
    if tmp =? 0 then mret None else
    st page_table (Z.lor tmp 7) ;;
    mret (Some tmp));
  match page_table with
  | None => mret 0
  | Some page_table =>
      st (page_table + 4 * Z.land (Z.shiftr address 12) 0x3ff) (Z.lor page 7) ;;
      (* no need for invalidate *)
      mret page
  end.

Definition un_wp_page (table_entry : Z) : M mm unit :=
  e ← ld table_entry;
  let old_page := Z.land 0xfffff000 e in
  alone ← (if LOW_MEM <=? old_page
           then c ← map_get (MAP_NR old_page); mret (c =? 1)
           else mret false);
  if alone : bool then
    st table_entry (Z.lor e 2) ;; invalidate
  else
    new_page ← get_free_page;
    (if new_page =? 0 then oom else mret tt) ;;
    when (LOW_MEM <=? old_page) (
      c ← map_get (MAP_NR old_page); map_set (MAP_NR old_page) (u8 (c - 1))) ;;
    st table_entry (Z.lor new_page 7) ;;
    invalidate ;;
    copy_page old_page new_page.

Definition do_wp_page (error_code address : Z) : M mm unit :=
  d ← ld (Z.land (Z.shiftr address 20) 0xffc);
  un_wp_page (Z.land (Z.shiftr address 10) 0xffc + Z.land 0xfffff000 d).

Definition write_verify (address : Z) : M mm unit :=
  page ← ld (Z.land (Z.shiftr address 20) 0xffc);
  if negb (has page 1) then mret tt else
  let page := Z.land page 0xfffff000 in
  let page := page + Z.land (Z.shiftr address 10) 0xffc in
  e ← ld page;
  if Z.land 3 e =? 1 (* non-writeable, present *) then un_wp_page page else mret tt.

Definition get_empty_page (address : Z) : M mm unit :=
  tmp ← get_free_page;
  ok ← (if truth tmp then r ← put_page tmp address; mret (truth r) else mret false);
  if ok : bool then mret tt else
  free_page tmp ;; (* 0 is ok - ignored *)
  oom.

(** [p_start] and [cur_start] are [p->start_code] and [current->start_code]. *)
Definition try_to_share (address p_start cur_start : Z) : M mm Z :=
  let from_page := Z.land (Z.shiftr address 20) 0xffc + Z.land (Z.shiftr p_start 20) 0xffc in
  let to_page := Z.land (Z.shiftr address 20) 0xffc + Z.land (Z.shiftr cur_start 20) 0xffc in
  (* is there a page-directory at from? *)
  from ← ld from_page;
  if negb (has from 1) then mret 0 else
  let from := Z.land from 0xfffff000 in
  let from_page := from + Z.land (Z.shiftr address 10) 0xffc in
  phys_addr ← ld from_page;
  (* is the page clean and present? *)
  if negb (Z.land phys_addr 0x41 =? 0x01) then mret 0 else
  let phys_addr := Z.land phys_addr 0xfffff000 in
  s ← get;
  if (HIGH_MEMORY s <=? phys_addr) || (phys_addr <? LOW_MEM) then mret 0 else
  to ← ld to_page;
  to ← (if negb (has to 1) then
          to ← get_free_page;
          if truth to then st to_page (Z.lor to 7) ;; mret to else oom
        else mret to);
  let to := Z.land to 0xfffff000 in
  let to_page := to + Z.land (Z.shiftr address 10) 0xffc in
  e ← ld to_page;
  (if has 1 e then panic "try_to_share: to_page already exists" else mret tt) ;;
  (* share them: write-protect *)
  e ← ld from_page;
  st from_page (Z.land e (Z.lnot 2)) ;;
  e ← ld from_page;
  st to_page e ;;
  invalidate ;;
  let i := Z.shiftr (phys_addr - LOW_MEM) 12 in
  c ← map_get i;
  map_set i (u8 (c + 1)) ;;
  mret 1.

Definition mem_init (start_mem end_mem : Z) : M mm unit :=
  modify (λ s, s <| HIGH_MEMORY := end_mem |>) ;;
  for_each (seq 0 (Z.to_nat PAGING_PAGES)) (λ i, map_set (Z.of_nat i) USED) ;;
  let i := MAP_NR start_mem in
  let end_mem := Z.shiftr (end_mem - start_mem) 12 in
  for_each (seq 0 (Z.to_nat end_mem)) (λ k, map_set (i + Z.of_nat k) 0).

(** What calc_mem() prints: the number of free pages, and for every present
    entry of the page directory from the third on, the pages its table uses. *)
Definition calc_mem (s : mm) : nat * list (nat * nat) :=
  (length (filter (λ c, c = 0) (mem_map s)),
   omap (λ i,
     let pg_dir_i := word s (4 * Z.of_nat i) in
     if has 1 pg_dir_i then
       let pg_tbl := Z.land 0xfffff000 pg_dir_i in
       Some (i, length (filter (λ j, has 1 (word s (pg_tbl + 4 * Z.of_nat j)) = true) (seq 0 1024)))
     else None) (seq 2 1022)).
