(* ===== verification/MemoryFacts.v ===== *)
(** * Facts about physical pages and page-table words

    The bit-level facts on page-table entries and the effect of each
    primitive of [Memory] on the words of memory, shared by the proofs about
    page tables. *)

From stdpp Require Import base option list gmap.
From Stdlib Require Import ZArith Lia.
From S2P Require Import Prelude Memory.
Local Open Scope Z_scope.

(** ** Page-table entries *)
Definition present (e : Z) : bool := has 1 e.
Definition frame (e : Z) : Z := Z.land 0xfffff000 e.

Lemma frame_spec e : 0 ≤ e < 2^32 → frame e = 4096 * (e / 4096).
Proof.
  intros He. unfold frame. rewrite Z.land_comm.
  change 0xfffff000 with (Z.shiftl (Z.ones 20) 12).
  replace (4096 * (e / 4096)) with (Z.shiftl (Z.shiftr e 12) 12)
    by (rewrite Z.shiftl_mul_pow2, Z.shiftr_div_pow2 by lia; change (2^12) with 4096; lia).
  apply Z.bits_inj'. intros n Hn. rewrite Z.land_spec, !Z.shiftl_spec by lia.
  destruct (Z.ltb_spec n 12).
  - rewrite !(Z.testbit_neg_r _ (n - 12)), andb_false_r by lia. done.
  - rewrite Z.shiftr_spec by lia. replace (n - 12 + 12) with n by lia.
    destruct (Z.ltb_spec n 32).
    + rewrite Z.ones_spec_low by lia. apply andb_true_r.
    + rewrite Z.ones_spec_high, andb_false_r by lia. symmetry.
      apply Z.bits_above_log2; [lia|]. destruct (decide (e = 0)) as [->|]; [simpl; lia|].
      apply Z.log2_lt_pow2; [lia|]. apply Z.lt_le_trans with (2^32); [lia|].
      by apply Z.pow_le_mono_r.
Qed.
Lemma frame_aligned e : 0 ≤ e < 2^32 → frame e mod 4096 = 0.
Proof. intros He. rewrite frame_spec by done. rewrite Z.mul_comm. by apply Z.mod_mul. Qed.
Lemma frame_bound e : 0 ≤ e < 2^32 → 0 ≤ frame e ≤ e.
Proof. intros He. rewrite frame_spec by done. pose proof (Z.div_mod e 4096 ltac:(lia)). pose proof (Z.mod_pos_bound e 4096 ltac:(lia)).
  pose proof (Z.div_pos e 4096 ltac:(lia) ltac:(lia)). lia. Qed.
Lemma frame_below e : 0 ≤ e < 2^32 → e < frame e + 4096.
Proof.
  intros He. rewrite frame_spec by done.
  pose proof (Z.div_mod e 4096 ltac:(lia)). pose proof (Z.mod_pos_bound e 4096 ltac:(lia)). lia.
Qed.

Lemma frame_clear_rw e : frame (Z.land e (Z.lnot 2)) = frame e.
Proof. unfold frame. rewrite (Z.land_comm e), Z.land_assoc. done. Qed.
Lemma present_clear_rw e : present (Z.land e (Z.lnot 2)) = present e.
Proof. unfold present, has. rewrite (Z.land_comm e), Z.land_assoc. done. Qed.
Lemma frame_set_rw e : frame (Z.lor e 2) = frame e.
Proof. unfold frame. rewrite Z.land_lor_distr_r. apply Z.lor_0_r. Qed.
Lemma frame_or7 p : 0 ≤ p < 2^32 → p mod 4096 = 0 → frame (Z.lor p 7) = p.
Proof.
  intros Hp Hal. unfold frame. rewrite Z.land_lor_distr_r.
  change (Z.land 4294963200 7) with 0. rewrite Z.lor_0_r.
  change (frame p = p). rewrite frame_spec by done. pose proof (Z.div_mod p 4096 ltac:(lia)). lia.
Qed.
Lemma present_or7 p : present (Z.lor p 7) = true.
Proof.
  unfold present, has, truth. rewrite Z.land_lor_distr_r. change (Z.land 1 7) with 1.
  apply negb_true_iff, Z.eqb_neq. intros [_ H]%Z.lor_eq_0_iff. done.
Qed.
Lemma present_0 : present 0 = false. Proof. done. Qed.
Lemma land_u32 e c : 0 ≤ e < 2^32 → 0 ≤ Z.land e c < 2^32.
Proof.
  intros He. split; [apply Z.land_nonneg; lia|].
  destruct (decide (e = 0)) as [->|]; [done|].
  destruct (decide (Z.land e c = 0)) as [->|]; [lia|].
  assert (0 < Z.land e c) by (pose proof (proj2 (Z.land_nonneg e c)); lia).
  apply Z.log2_lt_pow2; [done|].
  destruct (Z.leb_spec 32 (Z.log2 (Z.land e c))) as [Hl|]; [|done]. exfalso.
  pose proof (Z.bit_log2 (Z.land e c) ltac:(done)) as Hb. rewrite Z.land_spec in Hb.
  rewrite Z.bits_above_log2 in Hb; [done|lia|].
  apply Z.lt_le_trans with 32; [|done]. apply Z.log2_lt_pow2; lia.
Qed.
Lemma lor7_u32 p : 0 ≤ p < 2^32 → 0 ≤ Z.lor p 7 < 2^32.
Proof.
  intros Hp. assert (Hn : 0 ≤ Z.lor p 7) by (apply Z.lor_nonneg; lia). split; [done|].
  destruct (decide (Z.lor p 7 = 0)) as [->|]; [lia|].
  apply Z.log2_lt_pow2; [lia|]. rewrite Z.log2_lor by lia. change (Z.log2 7) with 2.
  destruct (decide (p = 0)) as [->|]; [simpl; lia|].
  assert (Z.log2 p < 32) by (apply Z.log2_lt_pow2; lia). lia.
Qed.

(** ** Words of memory *)
Lemma word_bound s a : 0 ≤ word s a < 2^32. Proof. apply u32_bound. Qed.
#[export] Hint Resolve word_bound frame_bound frame_aligned land_u32 lor7_u32 : kernel.

(** [s'] differs from [s] in memory words only. *)
Definition same_maps (s s' : mm) : Prop :=
  HIGH_MEMORY s' = HIGH_MEMORY s ∧ mem_map s' = mem_map s.

Lemma word_st s a v b :
  word (s <| phys := <[a := v]> (phys s) |>) b = if decide (a = b) then u32 v else word s b.
Proof. unfold word; simpl. rewrite lookup_insert. by case_decide. Qed.
Lemma word_map_set s m b : word (s <| mem_map := m |>) b = word s b.
Proof. done. Qed.

(** The 1024 words of the page at [p]. *)
Definition in_page (p a : Z) : bool := (p <=? a) && (a <? p + 4096) && ((a - p) mod 4 =? 0).
Lemma in_page_slot p k : (k < 1024)%nat → in_page p (p + 4 * Z.of_nat k) = true.
Proof.
  intros Hk. unfold in_page. replace (p + _ - p) with (Z.of_nat k * 4) by lia.
  rewrite Z.mod_mul by lia. lia.
Qed.
Lemma in_page_inv p a : in_page p a = true → ∃ k, (k < 1024)%nat ∧ a = p + 4 * Z.of_nat k.
Proof.
  unfold in_page. intros H. exists (Z.to_nat ((a - p) / 4)).
  pose proof (Z.div_mod (a - p) 4 ltac:(lia)).
  pose proof (Z.div_pos (a - p) 4 ltac:(lia) ltac:(lia)). split; [apply Nat2Z.inj_lt|]; rewrite Z2Nat.id; lia.
Qed.
Lemma in_page_disjoint p q a :
  p mod 4096 = 0 → q mod 4096 = 0 → p ≠ q → in_page p a = true → in_page q a = false.
Proof.
  intros Hp Hq Hne Ha. unfold in_page in *. 
  pose proof (Z.div_mod p 4096 ltac:(lia)). pose proof (Z.div_mod q 4096 ltac:(lia)).
  destruct (decide (q <= a < q + 4096)); [|lia]. exfalso. lia.
Qed.

(** A run of stores of a fixed value. *)
Lemma for_each_st_const (f : nat → Z) v l s :
  ∃ s', for_each l (λ k, st (f k) v) s = Ok tt s' ∧ same_maps s s' ∧
    ∀ a, word s' a = if decide (a ∈ f <$> l) then u32 v else word s a.
Proof.
  revert s. induction l as [|k l IH]; intros s.
  { exists s. split; [done|]. split; [done|]. intros a. rewrite decide_False; [done|].
    by apply not_elem_of_nil. }
  simpl. destruct (IH (s <| phys := <[f k := v]> (phys s) |>)) as (s' & Hrun & Hsame & Hw).
  exists s'. split; [exact Hrun|]. split; [exact Hsame|]. intros a. rewrite Hw, word_st.
  repeat case_decide; first [done | exfalso; rewrite elem_of_cons in *; naive_solver].
Qed.

Lemma zero_page_spec p s :
  ∃ s', zero_page p s = Ok tt s' ∧ same_maps s s' ∧
    ∀ a, word s' a = if in_page p a then 0 else word s a.
Proof.
  destruct (for_each_st_const (λ k, p + 4 * Z.of_nat k) 0 (reverse (seq 0 1024)) s)
    as (s' & Hrun & Hsame & Hw).
  exists s'. split; [exact Hrun|]. split; [done|]. intros a. rewrite Hw.
  destruct (in_page p a) eqn:Hp.
  - rewrite decide_True; [done|]. apply in_page_inv in Hp as (k & Hk & ->).
    apply list_elem_of_fmap. exists k. split; [done|]. rewrite elem_of_reverse.
    apply elem_of_seq. lia.
  - rewrite decide_False; [done|]. intros (k & -> & Hk)%list_elem_of_fmap.
    rewrite elem_of_reverse, elem_of_seq in Hk. by rewrite in_page_slot in Hp by lia.
Qed.

(** ** The reference-count array *)
Definition mm_wf (s : mm) : Prop :=
  length (mem_map s) = Z.to_nat PAGING_PAGES ∧
  Forall (λ c, 0 ≤ c < 256) (mem_map s) ∧
  HIGH_MEMORY s ≤ LOW_MEM + PAGING_MEMORY.

(** The count of page frame number [i] and the address of that page. *)
Definition count (s : mm) (i : Z) : Z := default 0 (zlookup (mem_map s) i).
Definition page_addr (i : Z) : Z := LOW_MEM + 4096 * i.

Lemma mm_wf_lookup s i : mm_wf s → 0 ≤ i < PAGING_PAGES → zlookup (mem_map s) i = Some (count s i).
Proof.
  intros (Hlen & _ & _) Hi. unfold count.
  destruct (zlookup_is_Some (mem_map s) i) as [c ->]; [|done]. rewrite Hlen, Z2Nat.id; lia.
Qed.
Lemma mm_wf_count s i : mm_wf s → 0 ≤ count s i < 256.
Proof.
  intros (_ & Hall & _). unfold count, zlookup. destruct (i <? 0); simpl; [lia|].
  destruct (mem_map s !! Z.to_nat i) as [c|] eqn:Hc; simpl; [|lia].
  by apply (Forall_lookup_1 _ _ _ _ Hall Hc).
Qed.
Lemma mm_wf_insert s i c :
  mm_wf s → 0 ≤ c < 256 → mm_wf (s <| mem_map := zinsert i c (mem_map s) |>).
Proof.
  intros (Hlen & Hall & Hh) Hc. split; [|split; [|done]]; simpl.
  - by rewrite length_zinsert.
  - unfold zinsert. destruct (i <? 0); [done|]. by apply Forall_insert.
Qed.
Lemma mm_wf_same s s' : mm_wf s → same_maps s s' → mm_wf s'.
Proof. intros (? & ? & ?) (Hh & Hm). unfold mm_wf. rewrite Hh, Hm. done. Qed.
Lemma count_same s s' i : same_maps s s' → count s' i = count s i.
Proof. unfold count. by intros (_ & ->). Qed.
Lemma count_insert s i j c :
  mm_wf s → 0 ≤ i < PAGING_PAGES →
  count (s <| mem_map := zinsert i c (mem_map s) |>) j = if decide (i = j) then c else count s j.
Proof.
  intros (Hlen & _) Hi. unfold count; simpl. case_decide; subst.
  - rewrite zlookup_zinsert_eq; [done|]. rewrite Hlen, Z2Nat.id; lia.
  - by rewrite zlookup_zinsert_ne.
Qed.
#[export] Hint Resolve mm_wf_lookup mm_wf_count mm_wf_insert mm_wf_same : kernel.

Lemma map_get_run s i : mm_wf s → 0 ≤ i < PAGING_PAGES → map_get i s = Ok (count s i) s.
Proof. intros Hs Hi. unfold map_get, get. mred. by rewrite mm_wf_lookup. Qed.
Lemma map_set_run s i v :
  mm_wf s → 0 ≤ i < PAGING_PAGES →
  map_set i v s = Ok tt (s <| mem_map := zinsert i v (mem_map s) |>).
Proof. intros Hs Hi. unfold map_set. by rewrite (bind_Ok _ _ _ _ _ (map_get_run s i Hs Hi)). Qed.

Lemma scasb_Some m n k :
  scasb m n = Some k →
  (k < n)%nat ∧ m !! k = Some 0 ∧ ∀ j, (k < j < n)%nat → m !! j ≠ Some 0.
Proof.
  induction n as [|n IH]; simpl; [done|]. intros H.
  destruct (m !! n) as [[|p|p]|] eqn:Hn; simplify_eq.
  { split; [lia|]. split; [done|]. lia. }
  all: destruct (IH H) as (? & ? & Hlast); split; [lia|]; split; [done|];
    intros j Hj; destruct (decide (j = n)) as [->|]; [by rewrite Hn|apply Hlast; lia].
Qed.
Lemma scasb_None m n : scasb m n = None → ∀ j, (j < n)%nat → m !! j ≠ Some 0.
Proof.
  induction n as [|n IH]; simpl; intros H j Hj; [lia|].
  destruct (m !! n) as [[|p|p]|] eqn:Hn; simplify_eq;
    (destruct (decide (j = n)) as [->|]; [by rewrite Hn|apply IH; [done|lia]]).
Qed.

(** What [get_free_page] returns: 0 when every page is in use, else the last
    free page, now with count 1 and all words zero. *)
Inductive got_free_page (s : mm) : Z → mm → Prop :=
| got_none : (∀ i, 0 ≤ i < PAGING_PAGES → count s i ≠ 0) → got_free_page s 0 s
| got_page i s' :
    0 ≤ i < PAGING_PAGES → count s i = 0 → (∀ j, i < j < PAGING_PAGES → count s j ≠ 0) →
    HIGH_MEMORY s' = HIGH_MEMORY s → mem_map s' = zinsert i 1 (mem_map s) →
    (∀ a, word s' a = if in_page (page_addr i) a then 0 else word s a) →
    got_free_page s (page_addr i) s'.

Lemma get_free_page_run s :
  mm_wf s → ∃ p s', get_free_page s = Ok p s' ∧ got_free_page s p s'.
Proof.
  intros Hs. pose proof Hs as (Hlen & _ & _).
  assert (Hcount : ∀ j, (j < Z.to_nat PAGING_PAGES)%nat → mem_map s !! j = Some (count s (Z.of_nat j))).
  { intros j Hj. rewrite <-zlookup_nat. apply mm_wf_lookup; [done|lia]. }
  unfold get_free_page, get. mred. destruct (scasb _ _) as [k|] eqn:Hk.
  - apply scasb_Some in Hk as (Hk & H0 & Hlast). rewrite Hcount in H0 by done.
    injection H0 as H0. rewrite map_set_run by (done || lia).
    assert (Haddr : u32 (Z.shiftl (Z.of_nat k) 12 + LOW_MEM) = page_addr (Z.of_nat k)).
    { rewrite Z.shiftl_mul_pow2 by lia. unfold page_addr, PAGING_PAGES in *.
      change (Z.to_nat (Z.shiftr PAGING_MEMORY 12)) with (Z.to_nat 3840) in Hk.
      rewrite u32_small; unfold LOW_MEM; lia. }
    rewrite Haddr.
    destruct (zero_page_spec (page_addr (Z.of_nat k))
                (s <| mem_map := zinsert (Z.of_nat k) 1 (mem_map s) |>)) as (s' & -> & [Hh Hm] & Hw).
    eexists _, s'. split; [done|]. apply got_page; try done; [lia|].
    intros j Hj Hj0. apply (Hlast (Z.to_nat j)); [lia|]. rewrite Hcount by lia.
    rewrite Z2Nat.id by lia. by rewrite Hj0.
  - eexists 0, s. split; [done|]. apply got_none. intros i Hi Hi0.
    eapply (scasb_None _ _ Hk (Z.to_nat i)); [lia|]. rewrite Hcount by lia.
    rewrite Z2Nat.id by lia. by rewrite Hi0.
Qed.
