(* ===== verification/MemoryRefs.v ===== *)
(** * Page reference counts

    The accounting behind [mem_map]: the number of user page-table entries
    and user page-directory entries that point to a page frame, the invariant
    that [mem_map] is that number plus the references the kernel itself holds,
    and the effect of the primitive stores on it. *)

From stdpp Require Import base option list gmap.
From Stdlib Require Import ZArith Lia.
From S2P Require Import Prelude Memory MemoryFacts.
Local Open Scope Z_scope.

(** Task [n]'s address space is the 16 page-directory entries from [16*n]; the
    entries of task 0 map all of memory for the kernel and are not counted. *)
Definition USER_DIR : nat := 16.
Definition USER_DIRS : nat := 1008.
Definition user_dir (d : nat) : Prop := (USER_DIR ≤ d < USER_DIR + USER_DIRS)%nat.

Definition pde (s : mm) (d : nat) : Z := word s (4 * Z.of_nat d).
Definition pte (s : mm) (d k : nat) : Z := word s (frame (pde s d) + 4 * Z.of_nat k).

(** Does the entry [e] refer to page frame number [i]? *)
Definition refers (e i : Z) : Z :=
  if present e && (LOW_MEM <=? frame e) && (MAP_NR (frame e) =? i) then 1 else 0.
Definition table_refs (s : mm) (t i : Z) : Z :=
  zsum (λ k, refers (word s (t + 4 * Z.of_nat k)) i) 0 1024.
Definition dir_refs (s : mm) (i : Z) (d : nat) : Z :=
  if present (pde s d) then refers (pde s d) i + table_refs s (frame (pde s d)) i else 0.
Definition refs (s : mm) (i : Z) : Z := zsum (dir_refs s i) USER_DIR USER_DIRS.

(** User page tables are pages of main memory, each used once. *)
Record tables_ok (s : mm) : Prop := {
  table_high d : user_dir d → present (pde s d) = true →
    LOW_MEM ≤ frame (pde s d) < HIGH_MEMORY s;
  table_distinct d d' : user_dir d → user_dir d' →
    present (pde s d) = true → present (pde s d') = true →
    frame (pde s d) = frame (pde s d') → d = d';
  page_high d k : user_dir d → (k < 1024)%nat → present (pde s d) = true →
    present (pte s d k) = true → frame (pte s d k) < HIGH_MEMORY s
}.

(** [ext i] is the number of references to page [i] that are not in user page
    tables: task structures, pipe buffers, kernel bucket pages, and the [USED]
    marks of the pages the kernel reserves. *)
Definition accounted (ext : Z → Z) (s : mm) : Prop :=
  ∀ i, 0 ≤ i < PAGING_PAGES → count s i = refs s i + ext i.

Record mm_inv (ext : Z → Z) (s : mm) : Prop := {
  inv_wf : mm_wf s;
  inv_tables : tables_ok s;
  inv_ext i : 0 ≤ ext i;
  inv_count : accounted ext s
}.

Lemma refers_bound e i : 0 ≤ refers e i ≤ 1.
Proof. unfold refers. destruct (_ && _); lia. Qed.
Lemma refers_absent e i : present e = false → refers e i = 0.
Proof. unfold refers. by intros ->. Qed.
Lemma refers_eq e e' i : present e = present e' → frame e = frame e' → refers e i = refers e' i.
Proof. unfold refers. by intros -> ->. Qed.
Lemma refers_frame e :
  present e = true → LOW_MEM ≤ frame e → refers e (MAP_NR (frame e)) = 1.
Proof.
  intros He Hl. unfold refers. rewrite He, Z.eqb_refl. by destruct (Z.leb_spec LOW_MEM (frame e)); [|lia].
Qed.
Lemma table_refs_nonneg s t i : 0 ≤ table_refs s t i.
Proof. apply zsum_nonneg. intros k _. apply refers_bound. Qed.
Lemma dir_refs_nonneg s i d : 0 ≤ dir_refs s i d.
Proof.
  unfold dir_refs. destruct (present _); [|lia].
  pose proof (refers_bound (pde s d) i). pose proof (table_refs_nonneg s (frame (pde s d)) i). lia.
Qed.
Lemma refs_nonneg s i : 0 ≤ refs s i.
Proof. apply zsum_nonneg. intros d _. apply dir_refs_nonneg. Qed.
Lemma refs_ge_dir s i d : user_dir d → dir_refs s i d ≤ refs s i.
Proof. intros Hd. apply zsum_ge; [|exact Hd]. intros d' _. apply dir_refs_nonneg. Qed.
Lemma refs_ge_pte s i d k :
  user_dir d → (k < 1024)%nat → present (pde s d) = true → refers (pte s d k) i ≤ refs s i.
Proof.
  intros Hd Hk Hp. etrans; [|by apply refs_ge_dir]. unfold dir_refs. rewrite Hp.
  pose proof (refers_bound (pde s d) i).
  assert (refers (pte s d k) i ≤ table_refs s (frame (pde s d)) i); [|lia].
  unfold table_refs, pte.
  apply (zsum_ge (λ k, refers (word s (frame (pde s d) + 4 * Z.of_nat k)) i) 0 1024 k); [|lia].
  intros ? _. apply refers_bound.
Qed.

(** [refs] only looks at the page directory and at the user page tables. *)
Lemma refs_same s s' i :
  (∀ d, user_dir d → pde s' d = pde s d) →
  (∀ d k, user_dir d → (k < 1024)%nat → present (pde s d) = true → pte s' d k = pte s d k) →
  refs s' i = refs s i.
Proof.
  intros Hd Hk. apply zsum_ext. intros d Hdu. unfold dir_refs. rewrite (Hd d Hdu).
  destruct (present (pde s d)) eqn:Hp; [|done]. f_equal. apply zsum_ext. intros k Hkk.
  specialize (Hk d k Hdu ltac:(lia) Hp). unfold pte in Hk. rewrite (Hd d Hdu) in Hk. by rewrite Hk.
Qed.

(** ** The effect of the primitive stores *)
Definition store (s : mm) (a v : Z) : mm := s <| phys := <[a := v]> (phys s) |>.

Lemma word_store s a v b : word (store s a v) b = if decide (a = b) then u32 v else word s b.
Proof. apply word_st. Qed.
Lemma st_run a v s : st a v s = Ok tt (store s a v).
Proof. done. Qed.

Section Store.
Context (s : mm) (Htab : tables_ok s).

Lemma slot_not_dir d k d' :
  user_dir d → present (pde s d) = true → user_dir d' →
  frame (pde s d) + 4 * Z.of_nat k ≠ 4 * Z.of_nat d'.
Proof using Htab.
  intros Hd Hp Hd'. destruct (table_high _ Htab d Hd Hp) as [Hl _].
  unfold user_dir, USER_DIR, USER_DIRS, LOW_MEM in *. lia.
Qed.
Lemma slot_inj d k d' k' :
  user_dir d → user_dir d' → present (pde s d) = true → present (pde s d') = true →
  (k < 1024)%nat → (k' < 1024)%nat →
  frame (pde s d) + 4 * Z.of_nat k = frame (pde s d') + 4 * Z.of_nat k' → d = d' ∧ k = k'.
Proof using Htab.
  intros Hd Hd' Hp Hp' Hk Hk' Heq.
  assert (Hf : frame (pde s d) = frame (pde s d')).
  { destruct (decide (frame (pde s d) = frame (pde s d'))) as [|Hne]; [done|]. exfalso.
    pose proof (in_page_slot (frame (pde s d)) k Hk) as H1.
    rewrite (in_page_disjoint (frame (pde s d')) (frame (pde s d))) in H1; [done|..].
    1,2: apply frame_aligned, word_bound. 1: done. rewrite Heq. by apply in_page_slot. }
  split; [by eapply table_distinct|lia].
Qed.

Section Pte.
Context (d k : nat) (v : Z).
Context (Hd : user_dir d) (Hk : (k < 1024)%nat) (Hp : present (pde s d) = true).
Let s' := store s (frame (pde s d) + 4 * Z.of_nat k) v.

Lemma pde_store_pte d' : user_dir d' → pde s' d' = pde s d'.
Proof using Htab Hd Hp.
  intros Hd'. unfold pde, s'. rewrite word_store, decide_False; [done|]. by apply slot_not_dir.
Qed.
Lemma pte_store_pte d' k' :
  user_dir d' → (k' < 1024)%nat → present (pde s d') = true →
  pte s' d' k' = if decide (d = d' ∧ k = k') then u32 v else pte s d' k'.
Proof using Htab Hd Hp Hk.
  intros Hd' Hk' Hp'. unfold pte. rewrite pde_store_pte by done. unfold s'. rewrite word_store.
  destruct (decide (_ ∧ _)) as [[<- <-]|Hne]; [by rewrite decide_True|].
  rewrite decide_False; [done|]. intros Heq. apply Hne. by apply slot_inj.
Qed.
Lemma refs_store_pte i :
  refs s' i = refs s i - refers (pte s d k) i + refers (u32 v) i.
Proof using Htab Hd Hp Hk.
  unfold refs. etrans; [apply (zsum_change (dir_refs s i) _ _ _ d Hd)|].
  - intros d' Hd' Hne. unfold dir_refs. rewrite pde_store_pte by done.
    destruct (present (pde s d')) eqn:Hp'; [|done]. f_equal. apply zsum_ext. intros k' Hk'.
    pose proof (pte_store_pte d' k' Hd' ltac:(lia) Hp') as H. unfold pte in H.
    rewrite pde_store_pte in H by done. rewrite H, decide_False; [done|]. naive_solver.
  - unfold dir_refs. rewrite pde_store_pte, Hp by done.
    assert (Ht : table_refs s' (frame (pde s d)) i =
      table_refs s (frame (pde s d)) i - refers (pte s d k) i + refers (u32 v) i); [|lia].
    unfold table_refs. etrans; [apply (zsum_change (λ k, refers (word s (frame (pde s d) + 4 * Z.of_nat k)) i)
      _ 0 1024 k ltac:(lia))|].
    + intros k' _ Hne. unfold s'. rewrite word_store, decide_False; [done|]. lia.
    + unfold s'. rewrite word_store, decide_True by done. done.
Qed.
End Pte.
End Store.

(** Storing a page-table entry whose page exists keeps the tables proper. *)
Lemma tables_ok_store_pte s d k v :
  tables_ok s → user_dir d → (k < 1024)%nat → present (pde s d) = true →
  (present (u32 v) = true → frame (u32 v) < HIGH_MEMORY s) →
  tables_ok (store s (frame (pde s d) + 4 * Z.of_nat k) v).
Proof.
  intros Htab Hd Hk Hp Hv. pose proof (pde_store_pte s Htab d k v Hd Hp) as Hpde.
  split; simpl.
  - intros d' Hd'. rewrite Hpde by done. by apply table_high.
  - intros d1 d2 Hd1 Hd2. rewrite !Hpde by done. by apply table_distinct.
  - intros d' k' Hd' Hk'. rewrite Hpde by done. intros Hp'.
    rewrite pte_store_pte by done. case_decide; [done|]. by eapply page_high.
Qed.

Section Pde.
Context (s : mm) (Htab : tables_ok s) (d : nat) (v : Z) (Hd : user_dir d).
Let s' := store s (4 * Z.of_nat d) v.

Lemma pde_store_pde d' : pde s' d' = if decide (d = d') then u32 v else pde s d'.
Proof using Hd.
  unfold pde, s'. rewrite word_store. destruct (decide (d = d')) as [->|]; [by rewrite decide_True|].
  rewrite decide_False; [done|]. clear Hd. lia.
Qed.
Lemma word_store_pde a : LOW_MEM ≤ a → word s' a = word s a.
Proof using Hd.
  intros Ha. unfold s'. rewrite word_store, decide_False; [done|].
  unfold user_dir, USER_DIR, USER_DIRS, LOW_MEM in *. lia.
Qed.
Lemma pte_store_pde d' k :
  d ≠ d' → user_dir d' → present (pde s d') = true → pte s' d' k = pte s d' k.
Proof using Htab Hd.
  intros Hne Hd' Hp'. unfold pte. rewrite pde_store_pde, decide_False by done.
  apply word_store_pde. pose proof (table_high _ Htab d' Hd' Hp'). lia.
Qed.
Lemma refs_store_pde i :
  refs s' i = refs s i - dir_refs s i d + dir_refs s' i d.
Proof using Htab Hd.
  apply (zsum_change (dir_refs s i) _ _ _ d Hd). intros d' Hd' Hne.
  unfold dir_refs. rewrite pde_store_pde, decide_False by done.
  destruct (present (pde s d')) eqn:Hp'; [|done]. f_equal. apply zsum_ext. intros k' Hk'.
  pose proof (pte_store_pde d' k' (not_eq_sym Hne) Hd' Hp') as H. unfold pte in H.
  rewrite pde_store_pde, decide_False in H by done. by rewrite H.
Qed.
End Pde.

(** Unlinking an emptied page table. *)
Lemma refs_unlink s d i :
  tables_ok s → user_dir d → present (pde s d) = true →
  (∀ k, (k < 1024)%nat → present (pte s d k) = false) →
  refs (store s (4 * Z.of_nat d) 0) i = refs s i - refers (pde s d) i.
Proof.
  intros Htab Hd Hp Hempty. rewrite refs_store_pde by done.
  unfold dir_refs. rewrite Hp, pde_store_pde, decide_True by done. change (present (u32 0)) with false.
  cbv iota. unfold table_refs. rewrite zsum_zero; [lia|].
  intros k Hk. apply refers_absent, Hempty. lia.
Qed.
Lemma tables_ok_unlink s d :
  tables_ok s → user_dir d → tables_ok (store s (4 * Z.of_nat d) 0).
Proof.
  intros Htab Hd.
  assert (Hpde : ∀ d', present (pde (store s (4 * Z.of_nat d) 0) d') = true →
    d ≠ d' ∧ pde (store s (4 * Z.of_nat d) 0) d' = pde s d').
  { intros d'. rewrite pde_store_pde by done. by case_decide. }
  split; simpl.
  - intros d' Hd' Hp'. destruct (Hpde d' Hp') as [? Heq]. rewrite Heq in *. by apply table_high.
  - intros d1 d2 Hd1 Hd2 Hp1 Hp2. destruct (Hpde d1 Hp1) as [? Heq1], (Hpde d2 Hp2) as [? Heq2].
    rewrite Heq1, Heq2 in *. by apply table_distinct.
  - intros d' k Hd' Hk Hp'. destruct (Hpde d' Hp') as [? Heq]. rewrite Heq in Hp'.
    rewrite pte_store_pde by done. by apply page_high.
Qed.

(** Linking a fresh, zeroed page as the page table of an empty slot. *)
Section Link.
Context (s : mm) (Htab : tables_ok s) (d : nat) (Hd : user_dir d) (p : Z).
Context (Hp : 0 ≤ p < 2^32) (Hal : p mod 4096 = 0) (Hr : LOW_MEM ≤ p < HIGH_MEMORY s).
Context (Habs : present (pde s d) = false).
Context (Hzero : ∀ k, (k < 1024)%nat → word s (p + 4 * Z.of_nat k) = 0).
Context (Hfresh : ∀ d', user_dir d' → present (pde s d') = true → frame (pde s d') ≠ p).
Let s' := store s (4 * Z.of_nat d) (Z.lor p 7).

Lemma link_pde : pde s' d = Z.lor p 7.
Proof using Hp Hd.
  unfold s'. rewrite pde_store_pde, decide_True by done. apply u32_small. by apply lor7_u32.
Qed.
Lemma link_pte k : (k < 1024)%nat → pte s' d k = 0.
Proof using Hp Hal Hr Hzero Hd.
  intros Hk. unfold pte. rewrite link_pde, frame_or7 by done.
  unfold s'. rewrite word_store_pde by (done || lia). by apply Hzero.
Qed.
Lemma refs_link i : refs s' i = refs s i + refers (Z.lor p 7) i.
Proof using All.
  unfold s'. rewrite refs_store_pde by done. fold s'. unfold dir_refs.
  rewrite Habs, link_pde, present_or7. unfold table_refs. rewrite zsum_zero; [lia|].
  intros k Hk. apply refers_absent. pose proof (link_pte k ltac:(lia)) as H.
  unfold pte in H. rewrite link_pde in H. by rewrite H.
Qed.
Lemma tables_ok_link : tables_ok s'.
Proof using All.
  assert (Hcase : ∀ d', (d' = d ∧ pde s' d' = Z.lor p 7) ∨ (d ≠ d' ∧ pde s' d' = pde s d')).
  { intros d'. destruct (decide (d = d')) as [<-|Hne]; [left; by rewrite link_pde|right].
    unfold s'. by rewrite pde_store_pde, decide_False by done. }
  split; simpl.
  - intros d' Hd'. destruct (Hcase d') as [[-> ->]|[_ ->]]; [by rewrite frame_or7|by apply table_high].
  - intros d1 d2 Hd1 Hd2. destruct (Hcase d1) as [[-> ->]|[_ ->]], (Hcase d2) as [[-> ->]|[_ ->]];
      rewrite ?frame_or7 by done; try done.
    + intros _ Hp2 Heq. by destruct (Hfresh d2 Hd2 Hp2).
    + intros Hp1 _ Heq. by destruct (Hfresh d1 Hd1 Hp1).
    + by apply table_distinct.
  - intros d' k Hd' Hk. destruct (Hcase d') as [[-> _]|[Hne Heq]]; [by rewrite link_pte|].
    rewrite Heq. intros Hp'. unfold s'. rewrite pte_store_pde by done. by apply page_high.
Qed.
End Link.
