(* ===== verification/MemoryProofs.v ===== *)
(** * Correctness of mm/memory.c

    No page is leaked or freed twice: fork's [copy_page_tables] and exit's
    [free_page_tables] keep [mem_map] equal to the number of references. *)

From stdpp Require Import base option list gmap strings.
From Stdlib Require Import ZArith Lia.
From S2P Require Import Prelude Memory MemoryFacts MemoryRefs.
Local Open Scope Z_scope.

(** ** Pages *)
Lemma MAP_NR_page_addr i : 0 ≤ i → MAP_NR (page_addr i) = i.
Proof.
  intros Hi. unfold MAP_NR, page_addr. replace (LOW_MEM + 4096 * i - LOW_MEM) with (i * 2^12) by lia.
  rewrite Z.shiftr_div_pow2 by lia. by apply Z.div_mul.
Qed.
Lemma page_addr_MAP_NR p : p mod 4096 = 0 → page_addr (MAP_NR p) = p.
Proof.
  intros Hp. unfold MAP_NR, page_addr, LOW_MEM. rewrite Z.shiftr_div_pow2 by lia.
  change (2^12) with 4096. pose proof (Z.div_mod p 4096 ltac:(lia)).
  replace (p - 1048576) with ((p / 4096 - 256) * 4096) by lia. rewrite Z.div_mul; lia.
Qed.
Lemma page_addr_props i : 0 ≤ i < PAGING_PAGES →
  page_addr i mod 4096 = 0 ∧ LOW_MEM ≤ page_addr i < LOW_MEM + PAGING_MEMORY ∧ 0 ≤ page_addr i < 2^32.
Proof.
  intros Hi. unfold PAGING_PAGES in Hi. change (Z.shiftr PAGING_MEMORY 12) with 3840 in Hi.
  unfold page_addr, LOW_MEM, PAGING_MEMORY. split; [|lia].
  replace (1048576 + 4096 * i) with ((256 + i) * 4096) by lia. apply Z.mod_mul. lia.
Qed.
Lemma MAP_NR_range s p : mm_wf s → LOW_MEM ≤ p < HIGH_MEMORY s → 0 ≤ MAP_NR p < PAGING_PAGES.
Proof.
  intros (_ & _ & Hh) Hp. unfold MAP_NR. rewrite Z.shiftr_div_pow2 by lia.
  change (2^12) with 4096. unfold PAGING_PAGES. change (Z.shiftr PAGING_MEMORY 12) with 3840.
  unfold PAGING_MEMORY in Hh. split; [apply Z.div_pos; lia|]. apply Z.div_lt_upper_bound; lia.
Qed.

(** [mem_map[i] = c] as a state change. *)
Definition set_count (s : mm) (i c : Z) : mm := s <| mem_map := zinsert i c (mem_map s) |>.

Lemma free_page_low p s : p < LOW_MEM → free_page p s = Ok tt s.
Proof. intros Hp. unfold free_page. by destruct (Z.ltb_spec p LOW_MEM); [|lia]. Qed.
Lemma free_page_used p s :
  mm_wf s → LOW_MEM ≤ p < HIGH_MEMORY s → 0 < count s (MAP_NR p) →
  free_page p s = Ok tt (set_count s (MAP_NR p) (count s (MAP_NR p) - 1)).
Proof.
  intros Hs Hp Hc. pose proof (MAP_NR_range s p Hs Hp) as Hr. unfold free_page, get.
  destruct (Z.ltb_spec p LOW_MEM); [lia|]. mred. destruct (Z.leb_spec (HIGH_MEMORY s) p); [lia|].
  change (Z.shiftr (p - LOW_MEM) 12) with (MAP_NR p).
  rewrite map_get_run, map_set_run by done.
  destruct (truth (count s (MAP_NR p))) eqn:Ht; [|by apply truth_false in Ht; lia].
  pose proof (mm_wf_count s (MAP_NR p) Hs). unfold set_count. by rewrite u8_small by lia.
Qed.
(** The two panics of free_page. *)
Lemma free_page_nonexistent p s :
  LOW_MEM ≤ p → HIGH_MEMORY s ≤ p →
  free_page p s = Panic "trying to free nonexistent page" s.
Proof.
  intros Hl Hh. unfold free_page, get. destruct (Z.ltb_spec p LOW_MEM); [lia|]. mred.
  by destruct (Z.leb_spec (HIGH_MEMORY s) p); [|lia].
Qed.
Lemma free_page_free p s :
  mm_wf s → LOW_MEM ≤ p < HIGH_MEMORY s → count s (MAP_NR p) = 0 →
  ∃ s', free_page p s = Panic "trying to free free page" s' ∧
        ∀ i, count s' i = count s i.
Proof.
  intros Hs Hp Hc. pose proof (MAP_NR_range s p Hs Hp) as Hr. unfold free_page, get.
  destruct (Z.ltb_spec p LOW_MEM); [lia|]. mred. destruct (Z.leb_spec (HIGH_MEMORY s) p); [lia|].
  change (Z.shiftr (p - LOW_MEM) 12) with (MAP_NR p).
  rewrite map_get_run, map_set_run by done. rewrite Hc. change (truth 0) with false. cbv iota.
  pose proof (mm_wf_insert s (MAP_NR p) (u8 (0 - 1)) Hs (u8_bound _)) as Hs'.
  cbn beta. rewrite map_set_run by done.
  eexists. split; [reflexivity|]. intros i. rewrite !count_insert by done.
  destruct (decide (MAP_NR p = i)) as [<-|]; done.
Qed.

(** C11: [get_free_page] hands out a page exactly when one is free: the last
    free page, which becomes used once and reads as zero, while no other
    count and no other word of memory changes; it returns 0, changing
    nothing, exactly when every page is in use. *)
Theorem get_free_page_correct s :
  mm_wf s →
  ∃ p s', get_free_page s = Ok p s' ∧ mm_wf s' ∧
    ((p = 0 ∧ s' = s ∧ ∀ i, 0 ≤ i < PAGING_PAGES → count s i ≠ 0) ∨
     (∃ i, 0 ≤ i < PAGING_PAGES ∧ p = page_addr i ∧ count s i = 0 ∧
       (∀ j, i < j < PAGING_PAGES → count s j ≠ 0) ∧
       (∀ j, count s' j = if decide (i = j) then 1 else count s j) ∧
       (∀ a, word s' a = if in_page p a then 0 else word s a))).
Proof.
  intros Hs. destruct (get_free_page_run s Hs) as (p & s' & Hrun & Hgot).
  exists p, s'. split; [done|]. destruct Hgot as [Hfull|i s' Hi Hc Hlast Hh Hm Hw].
  - split; [done|]. by left.
  - assert (Hsame : same_maps (set_count s i 1) s') by done.
    split; [apply (mm_wf_same _ _ (mm_wf_insert s i 1 Hs ltac:(lia)) Hsame)|].
    right. exists i. do 4 (split; [done|]). split; [|done].
    intros j. rewrite (count_same _ _ _ Hsame). by apply count_insert.
Qed.

(** ** Releasing one reference *)

(** [s'] has the memory words of [s] (only counts differ). *)
Definition same_words (s s' : mm) : Prop :=
  HIGH_MEMORY s' = HIGH_MEMORY s ∧ ∀ a, word s' a = word s a.

Lemma same_words_pde s s' d : same_words s s' → pde s' d = pde s d.
Proof. intros (_ & H). apply H. Qed.
Lemma same_words_pte s s' d k : same_words s s' → pte s' d k = pte s d k.
Proof. intros H. unfold pte. rewrite (same_words_pde s s' d H). apply H. Qed.
Lemma same_words_refs s s' i : same_words s s' → refs s' i = refs s i.
Proof. intros H. apply refs_same; intros; [by apply same_words_pde|by apply same_words_pte]. Qed.
Lemma same_words_tables s s' : same_words s s' → tables_ok s → tables_ok s'.
Proof.
  intros H Htab. pose proof H as [Hh _]. split.
  - intros d. rewrite (same_words_pde s s' d H), Hh. by apply table_high.
  - intros d d'. rewrite (same_words_pde s s' d H), (same_words_pde s s' d' H). by apply table_distinct.
  - intros d k. rewrite (same_words_pde s s' d H), (same_words_pte s s' d k H), Hh. by apply page_high.
Qed.

Lemma refers_iff e i :
  refers e i = if decide (present e = true ∧ LOW_MEM ≤ frame e ∧ MAP_NR (frame e) = i) then 1 else 0.
Proof.
  unfold refers. case_decide as H.
  - destruct H as (-> & H & ->). rewrite Z.eqb_refl. by destruct (Z.leb_spec LOW_MEM (frame e)); [|lia].
  - destruct (present e), (Z.leb_spec LOW_MEM (frame e)), (Z.eqb_spec (MAP_NR (frame e)) i); naive_solver.
Qed.

Lemma free_page_entry ext s e :
  mm_wf s → accounted ext s → present e = true → frame e < HIGH_MEMORY s →
  (LOW_MEM ≤ frame e → 0 < count s (MAP_NR (frame e))) →
  ∃ s', free_page (frame e) s = Ok tt s' ∧ mm_wf s' ∧ same_words s s' ∧
        accounted (λ i, ext i - refers e i) s'.
Proof.
  intros Hs Hacc He Hh Hc. destruct (Z.lt_ge_cases (frame e) LOW_MEM) as [Hlow|Hlow].
  - exists s. split; [by apply free_page_low|]. split; [done|]. split; [done|].
    intros i Hi. rewrite (Hacc i Hi), refers_iff, decide_False by lia. lia.
  - pose proof (MAP_NR_range s _ Hs (conj Hlow Hh)) as Hr.
    rewrite free_page_used by auto. eexists. split; [done|]. specialize (Hc Hlow).
    pose proof (mm_wf_count s (MAP_NR (frame e)) Hs).
    assert (Hw : same_words s (set_count s (MAP_NR (frame e)) (count s (MAP_NR (frame e)) - 1))) by done.
    split; [apply mm_wf_insert; [done|lia]|]. split; [done|].
    intros i Hi. rewrite (same_words_refs _ _ i Hw).
    unfold set_count. rewrite count_insert by done. rewrite refers_iff.
    rewrite (Hacc i Hi). case_decide as Hd; [subst i|].
    + rewrite decide_True by done. rewrite (Hacc _ Hr). lia.
    + rewrite decide_False by naive_solver. lia.
Qed.

(** Storing 0 in a page-table entry turns its reference into one the kernel
    holds, and storing an entry turns one back. *)
Lemma accounted_store_pte ext s d k v :
  accounted ext s → tables_ok s → user_dir d → (k < 1024)%nat → present (pde s d) = true →
  accounted (λ i, ext i + refers (pte s d k) i - refers (u32 v) i)
    (store s (frame (pde s d) + 4 * Z.of_nat k) v).
Proof.
  intros Hacc Htab Hd Hk Hp i Hi. rewrite refs_store_pte by done.
  change (count (store s (frame (pde s d) + 4 * Z.of_nat k) v) i) with (count s i).
  rewrite (Hacc i Hi). lia.
Qed.
Lemma accounted_ext ext ext' s : (∀ i, ext i = ext' i) → accounted ext s → accounted ext' s.
Proof. intros H Hacc i Hi. rewrite (Hacc i Hi). by rewrite H. Qed.

(** The ext-independent part of the invariant. *)
Definition mm_ok (ext : Z → Z) (s : mm) : Prop := mm_wf s ∧ tables_ok s ∧ accounted ext s.

(** One iteration of free_page_table. *)
Lemma free_pte_step ext s d k :
  mm_ok ext s → (∀ i, 0 ≤ ext i) → user_dir d → (k < 1024)%nat → present (pde s d) = true →
  ∃ s1, (e ← ld (frame (pde s d) + 4 * Z.of_nat k);
         when (has 1 e) (free_page (Z.land 0xfffff000 e)) ;;
         st (frame (pde s d) + 4 * Z.of_nat k) 0) s =
        Ok tt (store s1 (frame (pde s d) + 4 * Z.of_nat k) 0) ∧
        same_words s s1 ∧ mm_ok ext (store s1 (frame (pde s d) + 4 * Z.of_nat k) 0).
Proof.
  intros (Hs & Htab & Hacc) Hext Hd Hk Hp.
  assert (Hfree : ∃ s1, when (present (pte s d k)) (free_page (frame (pte s d k))) s = Ok tt s1 ∧
    mm_wf s1 ∧ same_words s s1 ∧ accounted (λ i, ext i - refers (pte s d k) i) s1).
  { destruct (present (pte s d k)) eqn:Hpte; simpl.
    - apply free_page_entry; try done; [by eapply page_high|]. intros Hl.
      pose proof (page_high _ Htab d k Hd Hk Hp Hpte) as Hh.
      rewrite (Hacc _ (MAP_NR_range s _ Hs (conj Hl Hh))).
      pose proof (refs_ge_pte s (MAP_NR (frame (pte s d k))) d k Hd Hk Hp) as Hge.
      rewrite refers_frame in Hge by done. specialize (Hext (MAP_NR (frame (pte s d k)))). lia.
    - exists s. do 3 (split; [done|]). eapply accounted_ext, Hacc. intros i. simpl.
      rewrite refers_absent by done. lia. }
  destruct Hfree as (s1 & Hrun & Hs1 & Hw & Hacc1). exists s1.
  assert (Hslot : frame (pde s d) + 4 * Z.of_nat k = frame (pde s1 d) + 4 * Z.of_nat k)
    by (by rewrite (same_words_pde s s1 d Hw)).
  assert (Hp1 : present (pde s1 d) = true) by (by rewrite (same_words_pde s s1 d Hw)).
  pose proof (same_words_tables s s1 Hw Htab) as Htab1.
  split.
  - unfold ld. mred. change (word s (frame (pde s d) + 4 * Z.of_nat k)) with (pte s d k).
    change (has 1 (pte s d k)) with (present (pte s d k)).
    change (Z.land 0xfffff000 (pte s d k)) with (frame (pte s d k)).
    mred in Hrun. by rewrite Hrun.
  - split; [done|]. rewrite Hslot. split; [done|]. split; [by apply tables_ok_store_pte|].
    eapply accounted_ext; [|by apply accounted_store_pte].
    intros i; simpl. rewrite (same_words_pte s s1 d k Hw). change (refers (u32 0) i) with 0. lia.
Qed.

(** ** free_page_tables *)

(** After [n] iterations on the table of directory entry [d]: the invariant
    still holds, the first [n] entries are 0 and nothing outside the table
    has changed. *)
Record table_freed (ext : Z → Z) (s0 : mm) (d n : nat) (s : mm) : Prop := {
  tf_ok : mm_ok ext s;
  tf_high : HIGH_MEMORY s = HIGH_MEMORY s0;
  tf_pde d' : user_dir d' → pde s d' = pde s0 d';
  tf_zero k : (k < n)%nat → pte s d k = 0;
  tf_word a : in_page (frame (pde s0 d)) a = false → word s a = word s0 a
}.

Lemma free_page_table_spec ext s d :
  mm_ok ext s → (∀ i, 0 ≤ ext i) → user_dir d → present (pde s d) = true →
  wp (free_page_table (frame (pde s d))) (λ _, table_freed ext s d 1024) s.
Proof.
  intros Hok Hext Hd Hp. unfold free_page_table.
  apply (wp_for_seq 1024 _ (table_freed ext s d)); [by split; try lia|].
  intros k s1 Hk [Hok1 Hh1 Hpde1 Hz1 Hw1].
  assert (Hp1 : present (pde s1 d) = true) by (by rewrite Hpde1).
  destruct (free_pte_step ext s1 d k Hok1 Hext Hd Hk Hp1) as (s2 & Hrun & Hw2 & Hok2).
  rewrite (Hpde1 d Hd) in Hrun, Hok2. unfold wp. rewrite Hrun.
  pose proof Hok1 as (_ & Htab1 & _). pose proof (same_words_tables _ _ Hw2 Htab1) as Htab2.
  assert (Hpde2 : pde s2 d = pde s d) by (by rewrite (same_words_pde s1 s2 d Hw2), Hpde1).
  assert (Hp2 : present (pde s2 d) = true) by (by rewrite Hpde2).
  rewrite <-Hpde2. split.
  - by rewrite Hpde2.
  - simpl. destruct Hw2 as [-> _]. done.
  - intros d' Hd'. rewrite (pde_store_pte s2 Htab2 d k 0 Hd Hp2) by done.
    by rewrite (same_words_pde s1 s2 d' Hw2), Hpde1.
  - intros k' Hk'. rewrite (pte_store_pte s2 Htab2 d k 0 Hd Hk Hp2) by (done || lia).
    case_decide as Hkk; [done|]. rewrite (same_words_pte s1 s2 d k' Hw2). apply Hz1.
    assert (k ≠ k') by naive_solver. lia.
  - intros a Ha. rewrite word_store, decide_False.
    + destruct Hw2 as [_ Hw2]. rewrite Hw2. by apply Hw1.
    + intros <-. by rewrite Hpde2, in_page_slot in Ha.
Qed.

(** One page-directory entry: afterwards it is 0, every reference it held is
    given back, and the other user entries and their tables are as before. *)
Record dir_freed (ext : Z → Z) (s0 : mm) (d : nat) (s : mm) : Prop := {
  df_ok : mm_ok ext s;
  df_high : HIGH_MEMORY s = HIGH_MEMORY s0;
  df_gone : present (pde s d) = false;
  df_pde d' : user_dir d' → d' ≠ d → pde s d' = pde s0 d';
  df_pte d' k : user_dir d' → d' ≠ d → (k < 1024)%nat → present (pde s0 d') = true →
    pte s d' k = pte s0 d' k
}.

Lemma free_page_dir_spec ext s d :
  mm_ok ext s → (∀ i, 0 ≤ ext i) → user_dir d →
  wp (free_page_dir (4 * Z.of_nat d)) (λ _, dir_freed ext s d) s.
Proof.
  intros Hok Hext Hd. unfold free_page_dir. apply wp_bind. unfold wp at 1, ld.
  change (word s (4 * Z.of_nat d)) with (pde s d). change (has 1 (pde s d)) with (present (pde s d)).
  destruct (present (pde s d)) eqn:Hp; simpl; [|by split].
  apply wp_bind. eapply wp_mono; [by apply (free_page_table_spec ext)|].
  intros ? s1 [Hok1 Hh1 Hpde1 Hz1 Hw1]. apply wp_bind. unfold wp at 1, ld.
  change (word s1 (4 * Z.of_nat d)) with (pde s1 d). change (Z.land 0xfffff000 (pde s1 d)) with (frame (pde s1 d)).
  pose proof Hok1 as (Hs1 & Htab1 & Hacc1).
  assert (Hp1 : present (pde s1 d) = true) by (by rewrite Hpde1).
  destruct (table_high _ Htab1 d Hd Hp1) as [Hl Hh].
  destruct (free_page_entry ext s1 (pde s1 d) Hs1 Hacc1 Hp1 Hh) as (s2 & Hrun & Hs2 & Hw2 & Hacc2).
  { intros _. rewrite (Hacc1 _ (MAP_NR_range s1 _ Hs1 (conj Hl Hh))).
    pose proof (refs_ge_dir s1 (MAP_NR (frame (pde s1 d))) d Hd) as Hge.
    unfold dir_refs in Hge. rewrite Hp1, refers_frame in Hge by done.
    pose proof (table_refs_nonneg s1 (frame (pde s1 d)) (MAP_NR (frame (pde s1 d)))).
    specialize (Hext (MAP_NR (frame (pde s1 d)))). lia. }
  pose proof (same_words_tables _ _ Hw2 Htab1) as Htab2.
  assert (Hp2 : present (pde s2 d) = true) by (by rewrite (same_words_pde s1 s2)).
  apply wp_bind. unfold wp at 1. rewrite Hrun. unfold wp. rewrite st_run.
  split.
  - split; [done|]. split; [by apply tables_ok_unlink|].
    intros i Hi. rewrite refs_unlink; [|done..|].
    + change (count (store s2 (4 * Z.of_nat d) 0) i) with (count s2 i).
      rewrite (Hacc2 i Hi), (same_words_pde s1 s2) by done. lia.
    + intros k Hk. by rewrite (same_words_pte s1 s2), Hz1.
  - simpl. destruct Hw2 as [-> _]. done.
  - by rewrite pde_store_pde, decide_True.
  - intros d' Hd' Hne. rewrite pde_store_pde, decide_False by done.
    by rewrite (same_words_pde s1 s2), Hpde1.
  - intros d' k Hd' Hne Hk Hp'.
    assert (Hp'' : present (pde s2 d') = true) by (by rewrite (same_words_pde s1 s2), Hpde1).
    rewrite pte_store_pde by done. rewrite (same_words_pte s1 s2) by done.
    unfold pte. rewrite Hpde1 by done. apply Hw1. pose proof Hok as (_ & Htab & _).
    apply (in_page_disjoint (frame (pde s d'))); [apply frame_aligned, word_bound..| |by apply in_page_slot].
    intros Heq. apply Hne. by apply (table_distinct _ Htab).
Qed.

(** The linear address of directory entry [d], and the number of entries the
    code derives from a size in bytes. *)
Definition dir_base (d : nat) : Z := Z.of_nat d * 0x400000.
Definition dirs_of_size (size : Z) : nat := Z.to_nat (Z.shiftr (u32 (size + 0x3fffff)) 22).

Lemma forallb_seq (P : nat → bool) n : forallb P (seq 0 n) = true → ∀ k, (k < n)%nat → P k = true.
Proof. rewrite forallb_forall. intros H k Hk. apply H, in_seq. lia. Qed.

Lemma dir_base_props d : (d < 1024)%nat →
  has (dir_base d) 0x3fffff = false ∧ Z.land (Z.shiftr (dir_base d) 20) 0xffc = 4 * Z.of_nat d.
Proof.
  intros Hd. pose proof (forallb_seq (λ d, negb (has (dir_base d) 0x3fffff) &&
    (Z.land (Z.shiftr (dir_base d) 20) 0xffc =? 4 * Z.of_nat d)) 1024 ltac:(vm_compute; reflexivity) d Hd) as H.
  simpl in H. apply andb_true_iff in H as [H1 H2]. split; [by apply negb_true_iff|lia].
Qed.

(** The state after freeing the entries [d0, ..., d0+n-1]. *)
Record dirs_freed (ext : Z → Z) (s0 : mm) (d0 n : nat) (s : mm) : Prop := {
  dsf_ok : mm_ok ext s;
  dsf_high : HIGH_MEMORY s = HIGH_MEMORY s0;
  dsf_gone j : (j < n)%nat → present (pde s (d0 + j)) = false;
  dsf_pde d' : user_dir d' → ¬ (d0 ≤ d' < d0 + n)%nat → pde s d' = pde s0 d';
  dsf_pte d' k : user_dir d' → ¬ (d0 ≤ d' < d0 + n)%nat → (k < 1024)%nat →
    present (pde s0 d') = true → pte s d' k = pte s0 d' k
}.

Lemma free_page_dirs_spec ext s d0 n :
  mm_ok ext s → (∀ i, 0 ≤ ext i) → (USER_DIR ≤ d0)%nat → (d0 + n ≤ USER_DIR + USER_DIRS)%nat →
  wp (for_each (seq 0 n) (λ i, free_page_dir (4 * Z.of_nat d0 + 4 * Z.of_nat i)))
     (λ _, dirs_freed ext s d0 n) s.
Proof.
  intros Hok Hext Hd0 Hn. apply (wp_for_seq n _ (λ n, dirs_freed ext s d0 n)); [by split; try lia|].
  intros i s1 Hi [Hok1 Hh1 Hg1 Hd1 Hk1].
  replace (4 * Z.of_nat d0 + 4 * Z.of_nat i) with (4 * Z.of_nat (d0 + i)) by lia.
  assert (Hu : user_dir (d0 + i)) by (unfold user_dir; lia).
  eapply wp_mono; [by apply (free_page_dir_spec ext)|].
  intros ? s2 [Hok2 Hh2 Hg2 Hd2 Hk2]. split; [done|by rewrite Hh2|..].
  - intros j Hj. destruct (decide (j = i)) as [->|]; [done|].
    rewrite Hd2; [apply Hg1; lia| unfold user_dir; lia |lia].
  - intros d' Hd' Hr. rewrite Hd2 by (done || lia). apply Hd1; [done|lia].
  - intros d' k Hd' Hr Hk Hp.
    rewrite Hk2; [apply Hk1; done || lia|done|lia|done|]. rewrite Hd1; done || lia.
Qed.

(** C3: exit's [free_page_tables] on a user address range never panics (in
    particular no page is freed twice); afterwards the range has no page
    tables, every other user mapping is as before, and [mem_map] is again the
    exact number of references: every page used only by the range is free. *)
Theorem free_page_tables_correct ext s d0 size :
  mm_inv ext s → (USER_DIR ≤ d0)%nat → (d0 + dirs_of_size size ≤ 1024)%nat →
  ∃ s', free_page_tables (dir_base d0) size s = Ok 0 s' ∧ mm_inv ext s' ∧
    (∀ d, (d0 ≤ d < d0 + dirs_of_size size)%nat → present (pde s' d) = false) ∧
    (∀ d, user_dir d → ¬ (d0 ≤ d < d0 + dirs_of_size size)%nat → pde s' d = pde s d ∧
       (present (pde s d) = true → ∀ k, (k < 1024)%nat → pte s' d k = pte s d k)).
Proof.
  intros [Hwf Htab Hext Hacc] Hd0 Hn.
  destruct (decide (d0 = 1024%nat)) as [->|Hne].
  { (* nothing to do: the size is 0 *)
    assert (Hz : dirs_of_size size = 0%nat) by lia. exists s.
    split; [|split; [by split|split; [lia|done]]].
    unfold free_page_tables. change (dir_base 1024) with 0x100000000.
    change (has 4294967296 4194303) with false. mred. unfold dirs_of_size in Hz. by rewrite Hz. }
  destruct (dir_base_props d0) as [Hal Hdir]; [lia|].
  assert (Hnz : dir_base d0 =? 0 = false) by (unfold dir_base, USER_DIR in *; lia).
  pose proof (free_page_dirs_spec ext s d0 (dirs_of_size size) ltac:(done) Hext Hd0 ltac:(done)) as Hloop.
  apply wp_Ok in Hloop as ([] & s' & Hrun & [Hok Hh Hg Hd Hk]).
  exists s'. split.
  - unfold free_page_tables. rewrite Hal, Hnz, Hdir. mred.
    unfold dirs_of_size in Hrun. by rewrite Hrun.
  - split; [by destruct Hok as (? & ? & ?)|]. split.
    + intros d Hr. replace d with (d0 + (d - d0))%nat by lia. apply Hg. lia.
    + intros d Hu Hr. split; [by apply Hd|]. intros Hp k Hkk. by apply Hk.
Qed.
