(* ===== verification/MemoryFork.v ===== *)
(** * fork's copy_page_tables

    Copying an address space shares every page between parent and child,
    write-protected in both, and counts each new reference. *)

From stdpp Require Import base option list gmap strings.
From Stdlib Require Import ZArith Lia.
From S2P Require Import Prelude Memory MemoryFacts MemoryRefs MemoryProofs.
Local Open Scope Z_scope.

(** What becomes of a parent's entry, and the child's copy of it. *)
Definition protect (e : Z) : Z :=
  if present e && (LOW_MEM <=? frame e) then Z.land e (Z.lnot 2) else e.
Definition copied (e : Z) : Z := if present e then Z.land e (Z.lnot 2) else 0.

Lemma refers_protect e i : refers (protect e) i = refers e i.
Proof.
  unfold protect. destruct (_ && _) eqn:H; [|done].
  apply refers_eq; [by rewrite present_clear_rw|by rewrite frame_clear_rw].
Qed.
Lemma refers_copied e i : refers (copied e) i = refers e i.
Proof.
  unfold copied. destruct (present e) eqn:H.
  - apply refers_eq; [by rewrite present_clear_rw|by rewrite frame_clear_rw].
  - by rewrite !refers_absent.
Qed.
Lemma clear_rw_u32 e : 0 ≤ e < 2^32 → u32 (Z.land e (Z.lnot 2)) = Z.land e (Z.lnot 2).
Proof. intros He. apply u32_small. by apply land_u32. Qed.

(** [this_page > LOW_MEM] is a test on the page frame. *)
Lemma low_mem_test e :
  0 ≤ e < 2^32 → present e = true →
  (LOW_MEM <? Z.land e (Z.lnot 2)) = (LOW_MEM <=? frame e).
Proof.
  intros He Hp. set (v := Z.land e (Z.lnot 2)).
  assert (Hv : 0 ≤ v < 2^32) by (by apply land_u32).
  assert (Hf : frame v = frame e) by apply frame_clear_rw.
  assert (Hpv : present v = true) by (unfold v; by rewrite present_clear_rw).
  pose proof (frame_bound v Hv) as Hb. pose proof (frame_below v Hv). pose proof (frame_aligned v Hv) as Ha.
  rewrite Hf in *. unfold LOW_MEM.
  assert (v ≠ 1048576) by (intros Heq; by rewrite Heq in Hpv).
  pose proof (Z.div_mod (frame e) 4096 ltac:(lia)). lia.
Qed.
Lemma clear_rw_index e :
  0 ≤ e < 2^32 → Z.shiftr (Z.land e (Z.lnot 2) - LOW_MEM) 12 = MAP_NR (frame e).
Proof.
  intros He. set (v := Z.land e (Z.lnot 2)).
  assert (Hv : 0 ≤ v < 2^32) by (by apply land_u32).
  assert (Hf : frame v = frame e) by apply frame_clear_rw. rewrite <-Hf.
  unfold MAP_NR. rewrite !Z.shiftr_div_pow2 by lia. change (2^12) with 4096.
  rewrite frame_spec by done. unfold LOW_MEM.
  replace (v - 1048576) with (v + (-256) * 4096) by lia.
  replace (4096 * (v / 4096) - 1048576) with ((v / 4096) * 4096 + (-256) * 4096) by lia.
  rewrite !Z.div_add, Z.div_mul by lia. done.
Qed.

(** One entry. *)
Record pte_copied (ext : Z → Z) (s : mm) (d e k : nat) (s' : mm) : Prop := {
  pc_ok : mm_ok ext s';
  pc_high : HIGH_MEMORY s' = HIGH_MEMORY s;
  pc_pde d' : user_dir d' → pde s' d' = pde s d';
  pc_pte d' k' : user_dir d' → (k' < 1024)%nat → present (pde s d') = true →
    pte s' d' k' = if decide (d' = e ∧ k' = k) then copied (pte s d k)
                   else if decide (d' = d ∧ k' = k) then protect (pte s d k) else pte s d' k';
  pc_count i : 0 ≤ i < PAGING_PAGES → count s' i = count s i + refers (pte s d k) i
}.

Section CopyPte.
Context (ext : Z → Z) (s : mm) (d e k : nat).
Context (Hok : mm_ok ext s) (Hd : user_dir d) (He : user_dir e) (Hne : d ≠ e) (Hk : (k < 1024)%nat).
Context (Hpd : present (pde s d) = true) (Hpe : present (pde s e) = true).
Context (Hzero : pte s e k = 0).
Context (Hroom : ∀ i, 0 ≤ i < PAGING_PAGES → count s i + refers (pte s d k) i ≤ 255).
Let from := frame (pde s d) + 4 * Z.of_nat k.
Let to := frame (pde s e) + 4 * Z.of_nat k.
Let v := Z.land (pte s d k) (Z.lnot 2).

Lemma to_store_ok :
  present (pte s d k) = true →
  mm_wf (store s to v) ∧ tables_ok (store s to v) ∧
  accounted (λ i, ext i - refers (pte s d k) i) (store s to v).
Proof using All.
  intros Hp. destruct Hok as (Hwf & Htab & Hacc). split; [done|]. split.
  - apply tables_ok_store_pte; try done. unfold v. rewrite clear_rw_u32 by apply word_bound.
    rewrite frame_clear_rw. intros _. by eapply page_high.
  - eapply accounted_ext; [|by apply accounted_store_pte]. intros i; simpl.
    unfold v. rewrite clear_rw_u32 by apply word_bound.
    rewrite Hzero. change (refers 0 i) with 0.
    rewrite (refers_eq _ (pte s d k)); [lia|apply present_clear_rw|apply frame_clear_rw].
Qed.

Lemma to_store_pde d' : user_dir d' → pde (store s to v) d' = pde s d'.
Proof using All. destruct Hok as (Hwf & Htab & _). intros. by apply pde_store_pte. Qed.
Lemma to_store_pte d' k' :
  user_dir d' → (k' < 1024)%nat → present (pde s d') = true → present (pte s d k) = true →
  pte (store s to v) d' k' = if decide (d' = e ∧ k' = k) then copied (pte s d k) else pte s d' k'.
Proof using All.
  destruct Hok as (Hwf & Htab & _). intros Hd' Hk' Hp' Hp. unfold to. rewrite pte_store_pte by done.
  unfold copied. rewrite Hp. unfold v. rewrite clear_rw_u32 by apply word_bound.
  repeat case_decide; naive_solver.
Qed.

Lemma copy_pte_absent : present (pte s d k) = false → pte_copied ext s d e k s.
Proof using All.
  intros Hp. split; try done.
  - intros d' k' Hd' Hk' Hp'. unfold copied, protect. rewrite Hp. simpl. repeat case_decide; naive_solver.
  - intros i Hi. rewrite refers_absent by done. lia.
Qed.

(** A page below LOW_MEM is shared without a count. *)
Lemma copy_pte_low :
  present (pte s d k) = true → frame (pte s d k) < LOW_MEM → pte_copied ext s d e k (store s to v).
Proof using All.
  intros Hp Hl. destruct (to_store_ok Hp) as (Hwf1 & Htab1 & Hacc1).
  assert (Hr : ∀ i, refers (pte s d k) i = 0) by (intros i; rewrite refers_iff, decide_False by lia; done).
  split; try done.
  - split; [done|]. split; [done|]. eapply accounted_ext, Hacc1. intros i; simpl. rewrite Hr. lia.
  - exact to_store_pde.
  - intros d' k' Hd' Hk' Hp'. rewrite to_store_pte by done. case_decide; [done|]. case_decide; [|done].
    unfold protect. destruct (Z.leb_spec LOW_MEM (frame (pte s d k))); [lia|].
    rewrite andb_false_r. naive_solver.
  - intros i Hi. rewrite Hr. change (count (store s to v) i) with (count s i). lia.
Qed.

(** Another page is protected in the parent too, and its count goes up. *)
Let s2 := store (store s to v) from v.
Let p := MAP_NR (frame (pte s d k)).
Lemma from_slot : from = frame (pde (store s to v) d) + 4 * Z.of_nat k.
Proof using All. by rewrite to_store_pde. Qed.
Lemma copy_pte_tables :
  present (pte s d k) = true → tables_ok s2 ∧ accounted (λ i, ext i - refers (pte s d k) i) s2.
Proof using All.
  intros Hp. destruct Hok as (Hwf & Htab & Hacc). destruct (to_store_ok Hp) as (Hwf1 & Htab1 & Hacc1).
  assert (Hpd1 : present (pde (store s to v) d) = true) by (by rewrite to_store_pde).
  unfold s2. rewrite from_slot. split.
  - apply tables_ok_store_pte; try done.
    unfold v. rewrite clear_rw_u32, frame_clear_rw by apply word_bound. intros _.
    exact (page_high _ Htab d k Hd Hk Hpd Hp).
  - eapply accounted_ext; [|by apply accounted_store_pte].
    intros i; simpl. rewrite to_store_pte, decide_False by naive_solver. unfold v. rewrite clear_rw_u32 by apply word_bound.
    rewrite (refers_eq (Z.land _ _) (pte s d k)) by (apply present_clear_rw || apply frame_clear_rw). lia.
Qed.
Lemma counted_range : present (pte s d k) = true → LOW_MEM ≤ frame (pte s d k) → 0 ≤ p < PAGING_PAGES ∧ count s p + 1 ≤ 255.
Proof using All.
  intros Hp Hl. destruct Hok as (Hwf & Htab & _).
  assert (Hpr : 0 ≤ p < PAGING_PAGES) by (apply (MAP_NR_range s); [done|]; split; [done|]; by eapply page_high).
  split; [done|]. pose proof (Hroom p Hpr) as Hrp. by rewrite refers_frame in Hrp by done.
Qed.
Lemma copy_pte_counted :
  present (pte s d k) = true → LOW_MEM ≤ frame (pte s d k) → pte_copied ext s d e k (set_count s2 p (count s p + 1)).
Proof using All.
  intros Hp Hl. destruct (to_store_ok Hp) as (Hwf1 & Htab1 & _). destruct (copy_pte_tables Hp) as (Htab2 & Hacc2).
  destruct (counted_range Hp Hl) as [Hpr Hrp]. destruct Hok as (Hwf & Htab & _).
  pose proof (mm_wf_count s p Hwf) as Hcp.
  assert (Hpd1 : present (pde (store s to v) d) = true) by (by rewrite to_store_pde).
  assert (Hw : same_words s2 (set_count s2 p (count s p + 1))) by done.
  assert (Hcnt : ∀ i, count (set_count s2 p (count s p + 1)) i = count s i + refers (pte s d k) i).
  { intros i. unfold set_count. rewrite count_insert by done. rewrite refers_iff.
    change (count s2 i) with (count s i). unfold p.
    destruct (decide (MAP_NR (frame (pte s d k)) = i)) as [<-|]; [by rewrite decide_True|]. rewrite decide_False by naive_solver. lia. }
  split.
  - split; [apply mm_wf_insert; [done|lia]|]. split; [by eapply same_words_tables|].
    intros i Hi. rewrite Hcnt, (same_words_refs _ _ i Hw).
    pose proof (Hacc2 i Hi) as H2. change (count s2 i) with (count s i) in H2. cbn beta in H2. lia.
  - done.
  - intros d' Hd'. rewrite (same_words_pde _ _ d' Hw). unfold s2. rewrite from_slot.
    rewrite (pde_store_pte (store s to v) Htab1) by done. by apply to_store_pde.
  - intros d' k' Hd' Hk' Hp'. rewrite (same_words_pte _ _ d' k' Hw). unfold s2. rewrite from_slot.
    rewrite (pte_store_pte (store s to v) Htab1) by (try rewrite to_store_pde; done).
    rewrite to_store_pte by done. unfold v at 1. rewrite clear_rw_u32 by apply word_bound.
    unfold protect. rewrite Hp. destruct (Z.leb_spec LOW_MEM (frame (pte s d k))); [|lia]. simpl.
    repeat case_decide; try done; naive_solver.
  - intros i _. apply Hcnt.
Qed.

Lemma copy_pte_step : ∃ s', copy_pte from to s = Ok tt s' ∧ pte_copied ext s d e k s'.
Proof using All.
  unfold copy_pte, ld. mred. change (word s from) with (pte s d k).
  change (has 1 (pte s d k)) with (present (pte s d k)).
  destruct (present (pte s d k)) eqn:Hp; simpl; [|exists s; split; [done|by apply copy_pte_absent]].
  fold v. replace (LOW_MEM <? v) with (LOW_MEM <=? frame (pte s d k))
    by (symmetry; apply low_mem_test; [apply word_bound|done]).
  destruct (Z.leb_spec LOW_MEM (frame (pte s d k))) as [Hl|Hl];
    [|exists (store s to v); split; [done|by apply copy_pte_low]].
  destruct (counted_range Hp Hl) as [Hpr Hrp]. pose proof (mm_wf_count s p (proj1 Hok)) as Hcp.
  exists (set_count s2 p (count s p + 1)). split; [|by apply copy_pte_counted].
  change (st to v s) with (@Ok mm unit tt (store s to v)). cbn beta iota.
  replace (Z.shiftr (v - LOW_MEM) 12) with p by (unfold v; by rewrite clear_rw_index by apply word_bound).
  change (st from v (store s to v)) with (@Ok mm unit tt s2). cbn beta iota.
  rewrite map_get_run by (exact (proj1 Hok) || done). cbn beta iota. rewrite map_set_run by (exact (proj1 Hok) || done).
  assert (Hu8 : u8 (count s2 p + 1) = count s p + 1) by (apply u8_small; change (count s2 p) with (count s p); lia).
  unfold s2, store in Hu8. by rewrite Hu8.
Qed.
End CopyPte.

(** One page table: the first [n] entries are shared, the rest untouched. *)
Record table_copied (ext : Z → Z) (s : mm) (d e n : nat) (s' : mm) : Prop := {
  tc_ok : mm_ok ext s';
  tc_high : HIGH_MEMORY s' = HIGH_MEMORY s;
  tc_pde d' : user_dir d' → pde s' d' = pde s d';
  tc_pte d' k : user_dir d' → (k < 1024)%nat → present (pde s d') = true →
    pte s' d' k = if decide (d' = e ∧ (k < n)%nat) then copied (pte s d k)
                  else if decide (d' = d ∧ (k < n)%nat) then protect (pte s d k) else pte s d' k;
  tc_count i : 0 ≤ i < PAGING_PAGES →
    count s' i = count s i + zsum (λ k, refers (pte s d k) i) 0 n
}.

Lemma copy_table_spec ext s d e :
  mm_ok ext s → user_dir d → user_dir e → d ≠ e →
  present (pde s d) = true → present (pde s e) = true →
  (∀ k, (k < 1024)%nat → pte s e k = 0) →
  (∀ i, 0 ≤ i < PAGING_PAGES → count s i + zsum (λ k, refers (pte s d k) i) 0 1024 ≤ 255) →
  wp (for_each (seq 0 1024) (λ k,
        copy_pte (frame (pde s d) + 4 * Z.of_nat k) (frame (pde s e) + 4 * Z.of_nat k)))
     (λ _, table_copied ext s d e 1024) s.
Proof.
  intros Hok Hd He Hne Hpd Hpe Hzero Hroom.
  apply (wp_for_seq 1024 _ (table_copied ext s d e)).
  { split; try done; [|by intros; simpl; lia].
    intros d' k _ _ _. rewrite !decide_False by lia. done. }
  intros k s1 Hk [Hok1 Hh1 Hpde1 Hpte1 Hcnt1].
  assert (Hold : pte s1 d k = pte s d k).
  { rewrite Hpte1 by done. rewrite !decide_False by lia. done. }
  destruct (copy_pte_step ext s1 d e k) as (s2 & Hrun & [Hok2 Hh2 Hpde2 Hpte2 Hcnt2]);
    rewrite ?Hpde1 by done; try done.
  { rewrite Hpte1 by done. rewrite !decide_False by lia. by apply Hzero. }
  { intros i Hi. rewrite Hcnt1, Hold by done. specialize (Hroom i Hi).
    pose proof (zsum_sub (λ k, refers (pte s d k) i) 0 1024 0 (S k)) as Hsub.
    rewrite (zsum_snoc _ 0 k) in Hsub. cbn beta in Hsub.
    specialize (Hsub ltac:(intros; apply refers_bound) ltac:(lia) ltac:(lia)). change (0 + k)%nat with k in Hsub. lia. }
  rewrite !Hpde1 in Hrun by done. unfold wp. rewrite Hrun.
  split; [done|by rewrite Hh2|..].
  - intros d' Hd'. by rewrite Hpde2, Hpde1.
  - intros d' k' Hd' Hk' Hp'. rewrite Hpte2 by (try rewrite Hpde1; done). rewrite Hold, Hpte1 by done.
    repeat case_decide; try done; try (exfalso; lia); f_equal; f_equal; lia.
  - intros i Hi. rewrite Hcnt2, Hcnt1, Hold, zsum_snoc by done. simpl. lia.
Qed.

(** ** The whole range *)

(** After the first [m] of the directory entries from [d0] were copied to
    those from [e0]. *)
Record dirs_copied (ext : Z → Z) (s : mm) (d0 e0 m : nat) (s' : mm) : Prop := {
  dc_ok : mm_ok ext s';
  dc_high : HIGH_MEMORY s' = HIGH_MEMORY s;
  dc_pde d' : user_dir d' → ¬ (e0 ≤ d' < e0 + m)%nat → pde s' d' = pde s d';
  dc_child j : (j < m)%nat → present (pde s' (e0 + j)) = present (pde s (d0 + j));
  dc_child_pte j k : (j < m)%nat → (k < 1024)%nat → present (pde s (d0 + j)) = true →
    pte s' (e0 + j) k = copied (pte s (d0 + j) k);
  dc_parent_pte j k : (j < m)%nat → (k < 1024)%nat → present (pde s (d0 + j)) = true →
    pte s' (d0 + j) k = protect (pte s (d0 + j) k);
  dc_pte d' k : user_dir d' → ¬ (e0 ≤ d' < e0 + m)%nat → ¬ (d0 ≤ d' < d0 + m)%nat →
    (k < 1024)%nat → present (pde s d') = true → pte s' d' k = pte s d' k;
  dc_count i : 0 ≤ i < PAGING_PAGES →
    count s' i ≤ Z.max 1 (count s i + zsum (dir_refs s i) d0 m)
}.

(** Allocating and linking the child's page table. *)
Record linked (ext : Z → Z) (s : mm) (e : nat) (s' : mm) : Prop := {
  lk_ok : mm_ok ext s';
  lk_high : HIGH_MEMORY s' = HIGH_MEMORY s;
  lk_present : present (pde s' e) = true;
  lk_zero k : (k < 1024)%nat → pte s' e k = 0;
  lk_pde d : user_dir d → d ≠ e → pde s' d = pde s d;
  lk_pte d k : user_dir d → d ≠ e → (k < 1024)%nat → present (pde s d) = true → pte s' d k = pte s d k;
  lk_count i : 0 ≤ i < PAGING_PAGES →
    count s' i = count s i ∨ (count s i = 0 ∧ count s' i = 1)
}.

(** The frames above the installed memory are reserved. *)
Definition reserved (ext : Z → Z) (s : mm) : Prop :=
  ∀ i, 0 ≤ i < PAGING_PAGES → HIGH_MEMORY s ≤ page_addr i → 0 < ext i.

(** A page [get_free_page] hands out is in no page table and is none. *)
Section Fresh.
Context (ext : Z → Z) (s : mm) (i : Z) (s1 : mm).
Context (Hok : mm_ok ext s) (Hext : ∀ j, 0 ≤ ext j) (Hres : reserved ext s).
Context (Hi : 0 ≤ i < PAGING_PAGES) (Hfree : count s i = 0).
Context (Hh : HIGH_MEMORY s1 = HIGH_MEMORY s) (Hm : mem_map s1 = zinsert i 1 (mem_map s)).
Context (Hw : ∀ a, word s1 a = if in_page (page_addr i) a then 0 else word s a).

Lemma fresh_refs : refs s i = 0 ∧ ext i = 0.
Proof using Hok Hext Hi Hfree.
  destruct Hok as (_ & _ & Hacc). pose proof (Hacc i Hi). pose proof (refs_nonneg s i).
  pose proof (Hext i). lia.
Qed.
Lemma fresh_range : LOW_MEM ≤ page_addr i < HIGH_MEMORY s.
Proof using Hok Hext Hi Hfree Hres.
  destruct (page_addr_props i Hi) as (_ & ? & _). destruct fresh_refs as [_ H0].
  destruct (Z.lt_ge_cases (page_addr i) (HIGH_MEMORY s)) as [|Hge]; [lia|].
  pose proof (Hres i Hi Hge). lia.
Qed.
Lemma fresh_not_table d : user_dir d → present (pde s d) = true → frame (pde s d) ≠ page_addr i.
Proof using Hok Hext Hi Hfree.
  intros Hd Hp Heq. destruct fresh_refs as [Hr _]. destruct Hok as (_ & Htab & _).
  destruct (table_high _ Htab d Hd Hp) as [Hl _].
  pose proof (refs_ge_dir s i d Hd) as Hge. unfold dir_refs in Hge. rewrite Hp in Hge.
  pose proof (table_refs_nonneg s (frame (pde s d)) i).
  pose proof (refers_frame _ Hp Hl) as H1. rewrite Heq, MAP_NR_page_addr in H1 by lia. lia.
Qed.
Lemma fresh_pde d : (d < 1024)%nat → pde s1 d = pde s d.
Proof using Hw Hi.
  intros Hd. unfold pde. rewrite Hw. destruct (in_page (page_addr i) _) eqn:Hin; [|done].
  apply in_page_inv in Hin as (k & Hk & Heq). destruct (page_addr_props i Hi) as (_ & ? & _).
  unfold LOW_MEM in *. lia.
Qed.
Lemma fresh_pte d k :
  user_dir d → present (pde s d) = true → (k < 1024)%nat → pte s1 d k = pte s d k.
Proof using Hok Hext Hw Hi Hfree.
  intros Hd Hp Hk. unfold pte. rewrite fresh_pde by (unfold user_dir, USER_DIR, USER_DIRS in Hd; lia).
  rewrite Hw, (in_page_disjoint (frame (pde s d))); [done|..].
  - apply frame_aligned, word_bound.
  - by apply page_addr_props.
  - by apply fresh_not_table.
  - by apply in_page_slot.
Qed.
Lemma fresh_refs_same j : refs s1 j = refs s j.
Proof using Hok Hext Hw Hi Hfree.
  apply refs_same; intros; [|by apply fresh_pte].
  apply fresh_pde. unfold user_dir, USER_DIR, USER_DIRS in *. lia.
Qed.
Lemma fresh_count j : count s1 j = if decide (i = j) then 1 else count s j.
Proof using Hok Hm Hi.
  destruct Hok as (Hwf & _). rewrite <-(count_insert s i j 1 Hwf Hi). unfold count; simpl. by rewrite Hm.
Qed.
Lemma fresh_wf : mm_wf s1.
Proof using Hok Hm Hh.
  destruct Hok as (Hwf & _). apply (mm_wf_same _ _ (mm_wf_insert s i 1 Hwf ltac:(lia))). by split.
Qed.
Lemma fresh_tables : tables_ok s1.
Proof using Hok Hext Hw Hi Hfree Hh.
  destruct Hok as (_ & Htab & _).
  assert (Hp : ∀ d, user_dir d → pde s1 d = pde s d).
  { intros d Hd. apply fresh_pde. unfold user_dir, USER_DIR, USER_DIRS in Hd. lia. }
  split.
  - intros d Hd. rewrite Hp, Hh by done. by apply table_high.
  - intros d d' Hd Hd'. rewrite !Hp by done. by apply table_distinct.
  - intros d k Hd Hk. rewrite Hp, Hh by done. intros Hpd. rewrite fresh_pte by done. by apply page_high.
Qed.

Lemma link_fresh e :
  user_dir e → present (pde s e) = false →
  linked ext s e (store s1 (4 * Z.of_nat e) (Z.lor (page_addr i) 7)) ∧
  frame (pde (store s1 (4 * Z.of_nat e) (Z.lor (page_addr i) 7)) e) = page_addr i.
Proof using All.
  intros He Habs. destruct (page_addr_props i Hi) as (Hal & _ & Hu). pose proof fresh_range as Hr.
  pose proof fresh_tables as Htab. pose proof fresh_wf as Hwf.
  assert (Hp : ∀ d, user_dir d → pde s1 d = pde s d).
  { intros d Hd. apply fresh_pde. unfold user_dir, USER_DIR, USER_DIRS in Hd. lia. }
  assert (Hz : ∀ k, (k < 1024)%nat → word s1 (page_addr i + 4 * Z.of_nat k) = 0).
  { intros k Hk. by rewrite Hw, in_page_slot. }
  assert (Hr1 : LOW_MEM ≤ page_addr i < HIGH_MEMORY s1) by (by rewrite Hh).
  assert (Ha1 : present (pde s1 e) = false) by (by rewrite Hp).
  assert (Hf1 : ∀ d', user_dir d' → present (pde s1 d') = true → frame (pde s1 d') ≠ page_addr i).
  { intros d' Hd'. rewrite Hp by done. by apply fresh_not_table. }
  pose proof (link_pde s1 e He _ Hu) as Hlk.
  split; [split|].
  - split; [done|]. split; [by apply tables_ok_link|]. intros j Hj.
    rewrite (refs_link s1 Htab e He (page_addr i) Hu Hal Hr1 Ha1 Hz Hf1), fresh_refs_same.
    change (count (store s1 (4 * Z.of_nat e) (Z.lor (page_addr i) 7)) j) with (count s1 j).
    rewrite fresh_count, refers_iff, present_or7, frame_or7, MAP_NR_page_addr by (done || lia).
    destruct fresh_refs as [H0 H0']. destruct Hok as (_ & _ & Hacc). pose proof (Hacc j Hj).
    case_decide; [subst j; rewrite decide_True by (split; [done|lia]); lia|].
    rewrite decide_False by naive_solver. lia.
  - done.
  - rewrite Hlk. apply present_or7.
  - intros k Hk. by apply (link_pte s1 e He (page_addr i) Hu Hal Hr1 Hz).
  - intros d Hd Hne. rewrite (pde_store_pde s1 e _ He), decide_False by done. by apply Hp.
  - intros d k Hd Hne Hk Hpd. rewrite (pte_store_pde s1 Htab e _ He) by (try rewrite Hp; done).
    by apply fresh_pte.
  - intros j Hj. change (count (store s1 (4 * Z.of_nat e) (Z.lor (page_addr i) 7)) j) with (count s1 j).
    rewrite fresh_count. case_decide; [subst j; by right|by left].
  - rewrite Hlk. by apply frame_or7.
Qed.
End Fresh.

Lemma link_table ext s e :
  mm_ok ext s → (∀ i, 0 ≤ ext i) → reserved ext s → user_dir e → present (pde s e) = false →
  ∃ p s1, get_free_page s = Ok p s1 ∧
    ((p = 0 ∧ s1 = s) ∨
     (p ≠ 0 ∧ linked ext s e (store s1 (4 * Z.of_nat e) (Z.lor p 7)) ∧
      frame (pde (store s1 (4 * Z.of_nat e) (Z.lor p 7)) e) = p)).
Proof.
  intros Hok Hext Hres He Habs.
  destruct (get_free_page_run s (proj1 Hok)) as (p & s1 & Hrun & Hgot).
  exists p, s1. split; [done|]. destruct Hgot as [Hfull|i s1 Hi Hc Hlast Hh Hm Hw]; [by left|right].
  split.
  - destruct (page_addr_props i Hi) as (_ & ? & _). unfold LOW_MEM in *. lia.
  - by apply link_fresh.
Qed.

Lemma table_refs_pte s d i : table_refs s (frame (pde s d)) i = zsum (λ k, refers (pte s d k) i) 0 1024.
Proof. done. Qed.

Lemma range_user n a j : (USER_DIR ≤ a)%nat → (a + n ≤ 1024)%nat → (j < n)%nat → user_dir (a + j).
Proof. unfold user_dir, USER_DIR, USER_DIRS. lia. Qed.

Section Range.
Context (ext : Z → Z) (s0 : mm) (d0 e0 n : nat).
Context (Hext : ∀ i, 0 ≤ ext i) (Hres : reserved ext s0).
Context (Hd0 : (USER_DIR ≤ d0)%nat) (He0 : (USER_DIR ≤ e0)%nat).
Context (Hdn : (d0 + n ≤ 1024)%nat) (Hen : (e0 + n ≤ 1024)%nat).
Context (Hdisj : (d0 + n ≤ e0)%nat ∨ (e0 + n ≤ d0)%nat).
Context (Habs : ∀ j, (j < n)%nat → present (pde s0 (e0 + j)) = false).
Context (Hroom : ∀ i, 0 ≤ i < PAGING_PAGES → count s0 i + zsum (dir_refs s0 i) d0 n ≤ 255).
Context (Hacc0 : accounted ext s0).

Lemma range_room i m :
  0 ≤ i < PAGING_PAGES → (m < n)%nat →
  count s0 i + zsum (dir_refs s0 i) d0 m + dir_refs s0 i (d0 + m) ≤ 255 ∧
  0 ≤ zsum (dir_refs s0 i) d0 m ∧ 0 ≤ dir_refs s0 i (d0 + m) ∧
  dir_refs s0 i (d0 + m) ≤ count s0 i.
Proof using All.
  intros Hi Hm. pose proof (Hroom i Hi).
  pose proof (zsum_sub (dir_refs s0 i) d0 n d0 (S m)) as Hs. rewrite (zsum_snoc _ d0 m) in Hs.
  specialize (Hs ltac:(intros; apply dir_refs_nonneg) ltac:(lia) ltac:(lia)).
  pose proof (zsum_nonneg (dir_refs s0 i) d0 m ltac:(intros; apply dir_refs_nonneg)).
  pose proof (dir_refs_nonneg s0 i (d0 + m)).
  pose proof (refs_ge_dir s0 i (d0 + m) (range_user n d0 m Hd0 Hdn Hm)).
  pose proof (Hacc0 i Hi). pose proof (Hext i). lia.
Qed.

(** An absent directory entry is skipped. *)
Lemma dirs_copied_skip m s1 :
  (m < n)%nat → dirs_copied ext s0 d0 e0 m s1 → present (pde s0 (d0 + m)) = false →
  dirs_copied ext s0 d0 e0 (S m) s1.
Proof using All.
  intros Hm [Hok Hh Hpde Hch Hcp Hpp Hpte Hcnt] Hp. split; try done.
  - intros d' Hd' Hr. apply Hpde; [done|lia].
  - intros j Hj. destruct (decide (j = m)) as [->|]; [|apply Hch; lia].
    rewrite Hp, Hpde; [by apply Habs|by apply (range_user n)|lia].
  - intros j k Hj Hk Hpj. assert (j ≠ m) by (intros ->; congruence). apply Hcp; [lia|done..].
  - intros j k Hj Hk Hpj. assert (j ≠ m) by (intros ->; congruence). apply Hpp; [lia|done..].
  - intros d' k Hd' He' Hr. apply Hpte; [done|lia..].
  - intros i Hi. rewrite zsum_snoc. pose proof (Hcnt i Hi). pose proof (dir_refs_nonneg s0 i (d0 + m)). lia.
Qed.

(** A present one is copied into a fresh page table. *)
Section Copy.
Context (m : nat) (s1 s2 s3 : mm).
Context (Hm : (m < n)%nat) (H1 : dirs_copied ext s0 d0 e0 m s1).
Context (Hp : present (pde s0 (d0 + m)) = true).
Context (H2 : linked ext s1 (e0 + m) s2).

Lemma copy_dir_parent : pde s2 (d0 + m) = pde s0 (d0 + m).
Proof using All.
  rewrite (lk_pde _ _ _ _ H2) by (by apply (range_user n) || lia).
  apply (dc_pde _ _ _ _ _ _ H1); [by apply (range_user n)|lia].
Qed.
Lemma copy_dir_parent_pte k : (k < 1024)%nat → pte s2 (d0 + m) k = pte s0 (d0 + m) k.
Proof using All.
  intros Hk. pose proof (range_user n d0 m Hd0 Hdn Hm) as Hu.
  assert (Hp1 : pde s1 (d0 + m) = pde s0 (d0 + m)) by (apply (dc_pde _ _ _ _ _ _ H1); [done|lia]).
  rewrite (lk_pte _ _ _ _ H2) by (rewrite ?Hp1; done || lia).
  apply (dc_pte _ _ _ _ _ _ H1); done || lia.
Qed.
Lemma copy_dir_count i :
  0 ≤ i < PAGING_PAGES →
  count s2 i + zsum (λ k, refers (pte s2 (d0 + m) k) i) 0 1024 ≤
    Z.max 1 (count s0 i + zsum (dir_refs s0 i) d0 (S m)) ∧
  count s2 i + zsum (λ k, refers (pte s2 (d0 + m) k) i) 0 1024 ≤ 255.
Proof using All.
  intros Hi. rewrite (zsum_ext _ (λ k, refers (pte s0 (d0 + m) k) i)).
  2:{ intros k Hk. by rewrite copy_dir_parent_pte by lia. }
  rewrite <-table_refs_pte. rewrite zsum_snoc. destruct (range_room i m Hi Hm) as (Hr & Hz & Hd & Hc).
  pose proof (dc_count _ _ _ _ _ _ H1 i Hi) as Hcnt. pose proof (lk_count _ _ _ _ H2 i Hi) as Hlk.
  pose proof (table_refs_nonneg s0 (frame (pde s0 (d0 + m))) i) as Ht.
  assert (Hle : table_refs s0 (frame (pde s0 (d0 + m))) i ≤ dir_refs s0 i (d0 + m)).
  { unfold dir_refs. rewrite Hp. pose proof (refers_bound (pde s0 (d0 + m)) i). lia. }
  destruct Hlk as [->|[H0 ->]]; [lia|].
  assert (table_refs s0 (frame (pde s0 (d0 + m))) i = 0); [|lia].
  (* an unused page is not referred to *)
  destruct (dc_ok _ _ _ _ _ _ H1) as (_ & _ & Hacc). pose proof (Hacc i Hi) as Ha.
  pose proof (range_user n d0 m Hd0 Hdn Hm) as Hu.
  pose proof (refs_ge_dir s1 i (d0 + m) Hu) as Hge.
  assert (Hp1 : pde s1 (d0 + m) = pde s0 (d0 + m)) by (apply (dc_pde _ _ _ _ _ _ H1); [done|lia]).
  unfold dir_refs in Hge. rewrite Hp1, Hp in Hge. rewrite <-Hp1, table_refs_pte in Hge.
  rewrite (zsum_ext _ (λ k, refers (pte s0 (d0 + m) k) i)), <-table_refs_pte in Hge.
  2:{ intros k Hk. f_equal. apply (dc_pte _ _ _ _ _ _ H1); done || lia. }
  pose proof (refers_bound (pde s1 (d0 + m)) i). pose proof (Hext i). lia.
Qed.

Lemma dirs_copied_copy :
  table_copied ext s2 (d0 + m) (e0 + m) 1024 s3 → dirs_copied ext s0 d0 e0 (S m) s3.
Proof using All.
  intros [Hok3 Hh3 Hpde3 Hpte3 Hcnt3].
  assert (Hpde : ∀ d', user_dir d' → d' ≠ (e0 + m)%nat → pde s3 d' = pde s1 d').
  { intros d' Hd' Hne. by rewrite Hpde3, (lk_pde _ _ _ _ H2). }
  assert (Hpte : ∀ d' k, user_dir d' → d' ≠ (e0 + m)%nat → d' ≠ (d0 + m)%nat → (k < 1024)%nat →
    present (pde s1 d') = true → pte s3 d' k = pte s1 d' k).
  { intros d' k Hd' Hne Hne' Hk Hp'. rewrite Hpte3 by (try rewrite (lk_pde _ _ _ _ H2); done).
    rewrite !decide_False by lia. by apply (lk_pte _ _ _ _ H2). }
  pose proof (range_user n d0 m Hd0 Hdn Hm) as Hud. pose proof (range_user n e0 m He0 Hen Hm) as Hue.
  split.
  - done.
  - by rewrite Hh3, (lk_high _ _ _ _ H2), (dc_high _ _ _ _ _ _ H1).
  - intros d' Hd' Hr. rewrite Hpde by (done || lia). apply (dc_pde _ _ _ _ _ _ H1); [done|lia].
  - intros j Hj. destruct (decide (j = m)) as [->|].
    + by rewrite Hp, Hpde3, (lk_present _ _ _ _ H2).
    + rewrite Hpde by (try apply (range_user n); done || lia). apply (dc_child _ _ _ _ _ _ H1). lia.
  - intros j k Hj Hk Hpj. destruct (decide (j = m)) as [->|].
    + rewrite Hpte3 by (try apply (lk_present _ _ _ _ H2); done).
      rewrite decide_True by lia. by rewrite copy_dir_parent_pte.
    + rewrite Hpte; [apply (dc_child_pte _ _ _ _ _ _ H1); done || lia|apply (range_user n); done || lia|lia|lia|done|].
      rewrite (dc_child _ _ _ _ _ _ H1); [done|lia].
  - intros j k Hj Hk Hpj. destruct (decide (j = m)) as [->|].
    + rewrite Hpte3 by (rewrite ?copy_dir_parent; done).
      rewrite decide_False, decide_True by lia. by rewrite copy_dir_parent_pte.
    + assert (Huj : user_dir (d0 + j)) by (apply (range_user n); done || lia).
      rewrite Hpte; [apply (dc_parent_pte _ _ _ _ _ _ H1); done || lia|done|lia|lia|done|].
      rewrite (dc_pde _ _ _ _ _ _ H1); [done|done|lia].
  - intros d' k Hd' He' Hr Hk Hp'.
    rewrite Hpte; [apply (dc_pte _ _ _ _ _ _ H1); done || lia|done|lia|lia|done|].
    rewrite (dc_pde _ _ _ _ _ _ H1); [done|done|lia].
  - intros i Hi. rewrite Hcnt3 by done. by apply copy_dir_count.
Qed.
End Copy.

Lemma copy_page_dirs_spec from rem m s1 :
  (from =? 0) = false → n = (m + rem)%nat → dirs_copied ext s0 d0 e0 m s1 →
  ∃ r s', copy_page_dirs from (4 * Z.of_nat (d0 + m)) (4 * Z.of_nat (e0 + m)) rem s1 = Ok r s' ∧
    ∃ m', (m' ≤ n)%nat ∧ dirs_copied ext s0 d0 e0 m' s' ∧ (r = 0 ∧ m' = n ∨ r = -1 ∧ (m' < n)%nat).
Proof using All.
  intros Hfrom. revert m s1. induction rem as [|rem IH]; intros m s1 Hn H1.
  { eexists 0, s1. split; [done|]. exists m. split; [lia|]. split; [done|]. left. lia. }
  assert (Hm : (m < n)%nat) by lia. simpl. unfold ld. mred.
  pose proof (range_user n d0 m Hd0 Hdn Hm) as Hud. pose proof (range_user n e0 m He0 Hen Hm) as Hue.
  change (word s1 (4 * Z.of_nat (e0 + m))) with (pde s1 (e0 + m)).
  change (has 1 (pde s1 (e0 + m))) with (present (pde s1 (e0 + m))).
  rewrite (dc_pde _ _ _ _ _ _ H1) by (done || lia). rewrite Habs by done. cbn beta iota.
  change (word s1 (4 * Z.of_nat (d0 + m))) with (pde s1 (d0 + m)).
  change (has 1 (pde s1 (d0 + m))) with (present (pde s1 (d0 + m))).
  rewrite (dc_pde _ _ _ _ _ _ H1) by (done || lia).
  replace (4 * Z.of_nat (d0 + m) + 4) with (4 * Z.of_nat (d0 + S m)) by lia.
  replace (4 * Z.of_nat (e0 + m) + 4) with (4 * Z.of_nat (e0 + S m)) by lia.
  destruct (present (pde s0 (d0 + m))) eqn:Hp; simpl.
  2:{ destruct (IH (S m) s1 ltac:(lia)) as (r & s' & Hrun & Hres'); [by apply dirs_copied_skip|].
      by exists r, s'. }
  assert (Hp1 : present (pde s1 (e0 + m)) = false).
  { rewrite (dc_pde _ _ _ _ _ _ H1) by (done || lia). by apply Habs. }
  destruct (link_table ext s1 (e0 + m)) as (p & s1' & Hget & Hcase); try done.
  { exact (dc_ok _ _ _ _ _ _ H1). }
  { unfold reserved. rewrite (dc_high _ _ _ _ _ _ H1). exact Hres. }
  rewrite Hget. cbn beta iota. destruct Hcase as [[-> ->]|(Hpn & Hlk & Hfr)].
  { eexists (-1), s1. split; [done|]. exists m. split; [lia|]. split; [done|]. right. lia. }
  destruct (Z.eqb_spec p 0); [done|]. rewrite Hfrom. cbn beta iota.
  fold (store s1' (4 * Z.of_nat (e0 + m)) (Z.lor p 7)).
  set (s2 := store s1' (4 * Z.of_nat (e0 + m)) (Z.lor p 7)) in *.
  assert (Hw : wp (for_each (seq 0 1024) (λ k,
        copy_pte (frame (pde s2 (d0 + m)) + 4 * Z.of_nat k) (frame (pde s2 (e0 + m)) + 4 * Z.of_nat k)))
     (λ _, table_copied ext s2 (d0 + m) (e0 + m) 1024) s2).
  { apply copy_table_spec; try done.
    - exact (lk_ok _ _ _ _ Hlk).
    - lia.
    - by rewrite (copy_dir_parent m s1 s2).
    - exact (lk_present _ _ _ _ Hlk).
    - exact (lk_zero _ _ _ _ Hlk).
    - intros i Hi. by apply (copy_dir_count m s1 s2). }
  rewrite Hfr, (copy_dir_parent m s1 s2) in Hw by done.
  apply wp_Ok in Hw as ([] & s3 & Hrun3 & H3).
  change (Z.land 4294963200 (pde s0 (d0 + m))) with (frame (pde s0 (d0 + m))).
  rewrite Hrun3. simpl.
  destruct (IH (S m) s3 ltac:(lia)) as (r & s' & Hrun & Hres'); [by apply (dirs_copied_copy m s1 s2 s3)|].
  by exists r, s'.
Qed.
End Range.

(** C1: fork's [copy_page_tables], from one user address range to another
    that has no page tables yet, never panics.  When it returns 0 the child
    maps exactly the pages the parent maps, write-protected; the parent keeps
    its pages, write-protected as well when they are main memory.  When it
    returns -1 for lack of a free page, the ranges before the failing one are
    shared.  In both cases [mem_map] is still the exact number of references. *)
Theorem copy_page_tables_correct ext s d0 e0 size :
  mm_inv ext s → reserved ext s →
  (USER_DIR ≤ d0 < 1024)%nat → (USER_DIR ≤ e0 < 1024)%nat →
  (d0 + dirs_of_size size ≤ 1024)%nat → (e0 + dirs_of_size size ≤ 1024)%nat →
  (d0 + dirs_of_size size ≤ e0 ∨ e0 + dirs_of_size size ≤ d0)%nat →
  (∀ j, (j < dirs_of_size size)%nat → present (pde s (e0 + j)) = false) →
  (∀ i, 0 ≤ i < PAGING_PAGES →
     count s i + zsum (dir_refs s i) d0 (dirs_of_size size) ≤ 255) →
  ∃ r s' m, copy_page_tables (dir_base d0) (dir_base e0) size s = Ok r s' ∧ mm_inv ext s' ∧
    (r = 0 ∧ m = dirs_of_size size ∨ r = -1 ∧ (m < dirs_of_size size)%nat) ∧
    (∀ j, (j < m)%nat → present (pde s' (e0 + j)) = present (pde s (d0 + j)) ∧
       (present (pde s (d0 + j)) = true → ∀ k, (k < 1024)%nat →
          pte s' (e0 + j) k = copied (pte s (d0 + j) k) ∧
          pte s' (d0 + j) k = protect (pte s (d0 + j) k))) ∧
    (∀ d, user_dir d → ¬ (e0 ≤ d < e0 + m)%nat → pde s' d = pde s d) ∧
    (∀ d k, user_dir d → ¬ (e0 ≤ d < e0 + m)%nat → ¬ (d0 ≤ d < d0 + m)%nat → (k < 1024)%nat →
       present (pde s d) = true → pte s' d k = pte s d k).
Proof.
  intros [Hwf Htab Hext Hacc] Hres Hd0 He0 Hdn Hen Hdisj Habs Hroom.
  destruct (dir_base_props d0) as [Hald Hdird]; [lia|].
  destruct (dir_base_props e0) as [Hale Hdire]; [lia|].
  assert (Hnz : dir_base d0 =? 0 = false) by (unfold dir_base, USER_DIR in *; lia).
  destruct (copy_page_dirs_spec ext s d0 e0 (dirs_of_size size) Hext Hres ltac:(lia) ltac:(lia)
    Hdn Hen Hdisj Habs Hroom Hacc (dir_base d0) (dirs_of_size size) 0 s Hnz eq_refl)
    as (r & s' & Hrun & m & Hm & [Hok Hh Hpde Hch Hcp Hpp Hpte Hcnt] & Hr).
  { split; try done; [lia..|]. intros i Hi. simpl. lia. }
  exists r, s', m. split; [|split; [|split; [|split; [|split]]]].
  - unfold copy_page_tables. rewrite Hald, Hale, Hdird, Hdire. mred.
    rewrite !Nat.add_0_r in Hrun. exact Hrun.
  - by destruct Hok as (? & ? & ?).
  - naive_solver.
  - intros j Hj. split; [by apply Hch|]. intros Hp k Hk. split; [by apply Hcp|by apply Hpp].
  - done.
  - done.
Qed.
