(* ===== verification/MemoryCow.v ===== *)
(** * Copy on write

    [un_wp_page] gives the faulting process a page of its own: the data stays
    the same, the other sharers keep theirs, and the reference counts move
    with the page-table entry. *)

From stdpp Require Import base option list gmap strings.
From Stdlib Require Import ZArith Lia.
From S2P Require Import Prelude Memory MemoryFacts MemoryRefs MemoryProofs MemoryFork.
Local Open Scope Z_scope.

Lemma copy_page_spec from to s :
  from mod 4096 = 0 → to mod 4096 = 0 → from ≠ to →
  wp (copy_page from to) (λ _ s', same_maps s s' ∧
    (∀ k, (k < 1024)%nat → word s' (to + 4 * Z.of_nat k) = word s (from + 4 * Z.of_nat k)) ∧
    (∀ a, in_page to a = false → word s' a = word s a)) s.
Proof.
  intros Hf Ht Hne. unfold copy_page.
  eapply wp_mono.
  - apply (wp_for_seq 1024 _ (λ n s', same_maps s s' ∧
      (∀ k, (k < n)%nat → word s' (to + 4 * Z.of_nat k) = word s (from + 4 * Z.of_nat k)) ∧
      (∀ a, in_page to a = false → word s' a = word s a))); [by repeat split; try lia|].
    intros k s1 Hk (Hsame & Hdone & Hrest). unfold wp, ld, st. mred.
    assert (Hsrc : word s1 (from + 4 * Z.of_nat k) = word s (from + 4 * Z.of_nat k)).
    { apply Hrest, (in_page_disjoint from); try done. by apply in_page_slot. }
    rewrite Hsrc. split; [done|]. split.
    + intros j Hj. rewrite word_st. case_decide as Heq.
      * assert (k = j) as -> by lia. apply u32_small, word_bound.
      * apply Hdone. assert (j ≠ k) by (by intros ->). lia.
    + intros a Ha. rewrite word_st, decide_False; [by apply Hrest|].
      intros <-. by rewrite in_page_slot in Ha.
  - by intros.
Qed.

Definition writable (e : Z) : bool := has 2 e.

Lemma writable_or2 e : writable (Z.lor e 2) = true.
Proof.
  unfold writable, has, truth. rewrite Z.land_lor_distr_r. change (Z.land 2 2) with 2.
  apply negb_true_iff, Z.eqb_neq. intros [_ H]%Z.lor_eq_0_iff. done.
Qed.
Lemma writable_or7 p : writable (Z.lor p 7) = true.
Proof.
  unfold writable, has, truth. rewrite Z.land_lor_distr_r. change (Z.land 2 7) with 2.
  apply negb_true_iff, Z.eqb_neq. intros [_ H]%Z.lor_eq_0_iff. done.
Qed.
Lemma present_set_rw e : present (Z.lor e 2) = present e.
Proof. unfold present, has. rewrite Z.land_lor_distr_r. change (Z.land 1 2) with 0. by rewrite Z.lor_0_r. Qed.
Lemma lor2_u32 e : 0 ≤ e < 2^32 → 0 ≤ Z.lor e 2 < 2^32.
Proof.
  intros Hp. assert (Hn : 0 ≤ Z.lor e 2) by (apply Z.lor_nonneg; lia). split; [done|].
  destruct (decide (Z.lor e 2 = 0)) as [->|]; [lia|].
  apply Z.log2_lt_pow2; [lia|]. rewrite Z.log2_lor by lia. change (Z.log2 2) with 1.
  destruct (decide (e = 0)) as [->|]; [simpl; lia|].
  assert (Z.log2 e < 32) by (apply Z.log2_lt_pow2; lia). lia.
Qed.

(** What the faulting entry [(d, k)] becomes. *)
Record unshared (ext : Z → Z) (s : mm) (d k : nat) (s' : mm) : Prop := {
  us_ok : mm_ok ext s';
  us_pde d' : user_dir d' → pde s' d' = pde s d';
  us_entry : present (pte s' d k) = true ∧ writable (pte s' d k) = true;
  us_own : LOW_MEM ≤ frame (pte s' d k) ∧ count s' (MAP_NR (frame (pte s' d k))) = 1;
  us_data j : (j < 1024)%nat →
    word s' (frame (pte s' d k) + 4 * Z.of_nat j) = word s (frame (pte s d k) + 4 * Z.of_nat j);
  us_old j : (j < 1024)%nat →
    word s' (frame (pte s d k) + 4 * Z.of_nat j) = word s (frame (pte s d k) + 4 * Z.of_nat j);
  us_pte d' k' : user_dir d' → (k' < 1024)%nat → present (pde s d') = true →
    (d', k') ≠ (d, k) → pte s' d' k' = pte s d' k';
  us_rest a : a ≠ frame (pde s d) + 4 * Z.of_nat k →
    frame (pte s' d k) = frame (pte s d k) ∨ in_page (frame (pte s' d k)) a = false → word s' a = word s a
}.

Section Cow.
Context (ext : Z → Z) (s : mm) (d k : nat).
Context (Hok : mm_ok ext s) (Hext : ∀ i, 0 ≤ ext i) (Hres : reserved ext s).
Context (Hd : user_dir d) (Hk : (k < 1024)%nat).
Context (Hpd : present (pde s d) = true) (Hp : present (pte s d k) = true).
(** The page is not itself the page table that maps it. *)
Context (Hself : frame (pte s d k) ≠ frame (pde s d)).
Let entry := frame (pde s d) + 4 * Z.of_nat k.
Let old := frame (pte s d k).

Lemma old_not_entry j : (j < 1024)%nat → old + 4 * Z.of_nat j ≠ entry.
Proof using Hself Hk.
  intros Hj Heq. pose proof (in_page_slot old j Hj) as H1.
  rewrite (in_page_disjoint (frame (pde s d)) old) in H1; [done|apply frame_aligned, word_bound..|exact (not_eq_sym Hself)|].
  rewrite Heq. by apply in_page_slot.
Qed.
Lemma old_counted : LOW_MEM ≤ old → 1 ≤ count s (MAP_NR old) ∧ 0 ≤ MAP_NR old < PAGING_PAGES.
Proof using Hok Hext Hd Hk Hpd Hp.
  intros Hl. destruct Hok as (Hwf & Htab & Hacc).
  pose proof (MAP_NR_range s old Hwf (conj Hl (page_high _ Htab d k Hd Hk Hpd Hp))) as Hr.
  split; [|done]. rewrite (Hacc _ Hr).
  pose proof (refs_ge_pte s (MAP_NR old) d k Hd Hk Hpd) as Hge.
  unfold old in Hge at 1. rewrite refers_frame in Hge by done. pose proof (Hext (MAP_NR old)). lia.
Qed.

(** The only user: the entry just becomes writable. *)
Lemma cow_alone :
  LOW_MEM ≤ old → count s (MAP_NR old) = 1 →
  unshared ext s d k (store s entry (Z.lor (pte s d k) 2)).
Proof using All.
  intros Hl Hc. destruct Hok as (Hwf & Htab & Hacc).
  assert (Hu : u32 (Z.lor (pte s d k) 2) = Z.lor (pte s d k) 2)
    by (apply u32_small, lor2_u32, word_bound).
  assert (Hnew : pte (store s entry (Z.lor (pte s d k) 2)) d k = Z.lor (pte s d k) 2).
  { unfold entry. by rewrite pte_store_pte, decide_True. }
  split; rewrite ?Hnew, ?frame_set_rw, ?present_set_rw.
  - split; [done|]. split.
    + apply tables_ok_store_pte; try done. rewrite Hu, present_set_rw, frame_set_rw. by apply page_high.
    + eapply accounted_ext; [|by apply accounted_store_pte]. intros i; simpl. rewrite Hu.
      rewrite (refers_eq (Z.lor _ _) (pte s d k)) by (apply present_set_rw || apply frame_set_rw). lia.
  - intros d' Hd'. by apply pde_store_pte.
  - split; [done|]. apply writable_or2.
  - done.
  - intros j Hj. rewrite word_store, decide_False; [done|]. intros He. by apply (old_not_entry j Hj).
  - intros j Hj. rewrite word_store, decide_False; [done|]. intros He. by apply (old_not_entry j Hj).
  - intros d' k' Hd' Hk' Hp' Hne. unfold entry. rewrite pte_store_pte, decide_False by (done || naive_solver). done.
  - intros a Ha _. rewrite word_store, decide_False by (intros He; by destruct Ha). done.
Qed.

(** A shared page: the state after the count and the entry have changed. *)
Section Shared.
Context (i : Z) (s1 s2 : mm).
Context (Hi : 0 ≤ i < PAGING_PAGES) (Hfree : count s i = 0).
Context (Hh1 : HIGH_MEMORY s1 = HIGH_MEMORY s) (Hm1 : mem_map s1 = zinsert i 1 (mem_map s)).
Context (Hw1 : ∀ a, word s1 a = if in_page (page_addr i) a then 0 else word s a).
Context (Hw2 : same_words s1 s2) (Hwf2 : mm_wf s2).
Context (Hc2 : ∀ j, 0 ≤ j < PAGING_PAGES → count s2 j = count s1 j - refers (pte s d k) j).
Let s3 := store s2 entry (Z.lor (page_addr i) 7).

Lemma shared_pde d' : user_dir d' → pde s2 d' = pde s d'.
Proof using All.
  intros Hd'. rewrite (same_words_pde _ _ _ Hw2). apply (fresh_pde s i s1); [done..|].
  unfold user_dir, USER_DIR, USER_DIRS in Hd'. lia.
Qed.
Lemma shared_tables : tables_ok s2.
Proof using All. eapply same_words_tables; [done|]. by apply (fresh_tables ext s i s1). Qed.
Lemma shared_pte d' k' :
  user_dir d' → (k' < 1024)%nat → present (pde s d') = true → pte s2 d' k' = pte s d' k'.
Proof using All.
  intros Hd' Hk' Hp'. rewrite (same_words_pte _ _ _ _ Hw2). by apply (fresh_pte ext s i s1).
Qed.
Lemma shared_entry : entry = frame (pde s2 d) + 4 * Z.of_nat k.
Proof using All. by rewrite shared_pde. Qed.
Lemma shared_new : u32 (Z.lor (page_addr i) 7) = Z.lor (page_addr i) 7.
Proof using All. apply u32_small, lor7_u32. by apply page_addr_props. Qed.
Lemma shared_old_ne : old ≠ page_addr i.
Proof using All.
  intros Heq. destruct (page_addr_props i Hi) as (_ & Hr & _).
  destruct (old_counted ltac:(lia)) as [Hc _]. rewrite Heq, MAP_NR_page_addr in Hc; lia.
Qed.

Lemma shared_ok : mm_ok ext s3.
Proof using All.
  pose proof shared_tables as Htab2. destruct Hok as (Hwf & Htab & Hacc).
  destruct (page_addr_props i Hi) as (Hal & Hlow & Hu).
  assert (Hp2 : present (pde s2 d) = true) by (by rewrite shared_pde).
  split; [done|]. unfold s3. rewrite shared_entry. split.
  - apply tables_ok_store_pte; try done. rewrite shared_new, frame_or7 by done. intros _.
    destruct Hw2 as [-> _]. rewrite Hh1. by apply (fresh_range ext s i).
  - intros j Hj. rewrite refs_store_pte by done. rewrite shared_pte by done.
    match goal with |- count ?t j = _ => change (count t j) with (count s2 j) end.
    rewrite (Hc2 j Hj), (fresh_count ext s i s1) by done.
    rewrite (same_words_refs s1 s2 j Hw2), (fresh_refs_same ext s i s1) by done.
    rewrite shared_new, (refers_iff (Z.lor _ _)), present_or7, frame_or7, MAP_NR_page_addr by (done || lia).
    destruct (fresh_refs ext s i) as [H0 H0']; try done. pose proof (Hacc j Hj).
    case_decide; [subst j; rewrite decide_True by (split; [done|lia]); lia|].
    rewrite decide_False by naive_solver. lia.
Qed.

Lemma cow_shared s4 :
  same_maps s3 s4 →
  (∀ j, (j < 1024)%nat → word s4 (page_addr i + 4 * Z.of_nat j) = word s3 (old + 4 * Z.of_nat j)) →
  (∀ a, in_page (page_addr i) a = false → word s4 a = word s3 a) →
  unshared ext s d k s4.
Proof using All.
  intros Hsame Hcopy Hrest. destruct shared_ok as (Hwf3 & Htab3 & Hacc3).
  destruct (page_addr_props i Hi) as (Hal & Hlow & Hu).
  pose proof shared_tables as Htab2.
  assert (Hp2 : present (pde s2 d) = true) by (by rewrite shared_pde).
  assert (Hpde3 : ∀ d', user_dir d' → pde s3 d' = pde s d').
  { intros d' Hd'. unfold s3. rewrite shared_entry, pde_store_pte by done. by apply shared_pde. }
  assert (Hpde4 : ∀ d', user_dir d' → pde s4 d' = pde s3 d').
  { intros d' Hd'. apply Hrest. destruct (in_page _ _) eqn:Hin; [|done].
    apply in_page_inv in Hin as (j & Hj & Heq). unfold user_dir, USER_DIR, USER_DIRS, LOW_MEM in *. lia. }
  assert (Hpte4 : ∀ d' k', user_dir d' → (k' < 1024)%nat → present (pde s d') = true →
    pte s4 d' k' = pte s3 d' k').
  { intros d' k' Hd' Hk' Hp'. unfold pte. rewrite Hpde4, Hpde3 by done. apply Hrest.
    apply (in_page_disjoint (frame (pde s d'))); [apply frame_aligned, word_bound|done| |by apply in_page_slot].
    by apply (fresh_not_table ext s i). }
  assert (Hpte3 : ∀ d' k', user_dir d' → (k' < 1024)%nat → present (pde s d') = true →
    pte s3 d' k' = if decide (d = d' ∧ k = k') then Z.lor (page_addr i) 7 else pte s d' k').
  { intros d' k' Hd' Hk' Hp'. unfold s3. rewrite shared_entry, pte_store_pte by (try rewrite shared_pde; done).
    rewrite shared_new. case_decide; [done|]. by apply shared_pte. }
  assert (Hnew : pte s4 d k = Z.lor (page_addr i) 7) by (rewrite Hpte4, Hpte3, decide_True by done; done).
  assert (Hold3 : ∀ j, (j < 1024)%nat → word s3 (old + 4 * Z.of_nat j) = word s (old + 4 * Z.of_nat j)).
  { intros j Hj. unfold s3. rewrite word_store, decide_False by (intros He; by apply (old_not_entry j Hj)).
    destruct Hw2 as [_ ->]. rewrite Hw1, (in_page_disjoint old); [done| |done|apply shared_old_ne|by apply in_page_slot].
    apply frame_aligned, word_bound. }
  split; rewrite ?Hnew, ?frame_or7 by done.
  - split; [by eapply mm_wf_same|]. split.
    + split.
      * intros d' Hd'. rewrite Hpde4 by done. destruct Hsame as [-> _]. by apply table_high.
      * intros d1 d2 H1 H2. rewrite !Hpde4 by done. by apply table_distinct.
      * intros d' k' Hd' Hk'. rewrite Hpde4 by done. intros Hp'. rewrite Hpte4 by (try rewrite <-Hpde3; done).
        destruct Hsame as [-> _]. by apply page_high.
    + intros j Hj. rewrite (count_same _ _ _ Hsame), (Hacc3 j Hj). f_equal. symmetry. apply refs_same; [done|].
      intros d' k' Hd' Hk' Hp'. rewrite Hpde3 in Hp' by done. by apply Hpte4.
  - intros d' Hd'. by rewrite Hpde4, Hpde3.
  - split; [apply present_or7|apply writable_or7].
  - split; [lia|]. rewrite (count_same _ _ _ Hsame), MAP_NR_page_addr by lia.
    change (count s3 i) with (count s2 i). rewrite Hc2, (fresh_count ext s i s1), decide_True by done.
    rewrite refers_iff, decide_False; [done|]. intros (_ & Hl & Heq). apply shared_old_ne.
    unfold old. rewrite <-(page_addr_MAP_NR (frame (pte s d k))) by (apply frame_aligned, word_bound). by rewrite Heq.
  - intros j Hj. by rewrite Hcopy, Hold3.
  - intros j Hj. rewrite Hrest; [by apply Hold3|].
    apply (in_page_disjoint old); [apply frame_aligned, word_bound|done|apply shared_old_ne|by apply in_page_slot].
  - intros d' k' Hd' Hk' Hp' Hne. rewrite Hpte4, Hpte3, decide_False by (done || naive_solver). done.
  - intros a Ha [Heq|Hin]; [by destruct shared_old_ne|]. rewrite (Hrest a Hin). unfold s3.
    rewrite word_store, decide_False by (intros He; by destruct Ha). destruct Hw2 as [_ ->]. by rewrite Hw1, Hin.
Qed.
End Shared.

(** The two runs of [un_wp_page]. *)
Lemma un_wp_page_run :
  (∃ s', un_wp_page entry s = Ok tt s' ∧ unshared ext s d k s') ∨
  (un_wp_page entry s = Exit SIGSEGV s ∧ (∀ i, 0 ≤ i < PAGING_PAGES → count s i ≠ 0) ∧
   (LOW_MEM ≤ old → count s (MAP_NR old) ≠ 1)).
Proof using All.
  destruct Hok as (Hwf & Htab & Hacc). unfold un_wp_page, ld. mred.
  change (word s entry) with (pte s d k).
  change (Z.land 4294963200 (pte s d k)) with old.
  destruct (Z.leb_spec LOW_MEM old) as [Hl|Hl].
  - destruct (old_counted Hl) as [Hc Hr]. rewrite map_get_run by done. cbn beta iota.
    destruct (Z.eqb_spec (count s (MAP_NR old)) 1) as [H1|H1].
    { left. eexists. split; [done|]. by apply cow_alone. }
    destruct (get_free_page_run s Hwf) as (p & s1 & Hrun & Hgot). rewrite Hrun. cbn beta iota.
    destruct Hgot as [Hfull|i s1 Hi Hc0 Hlast Hh Hm Hw].
    { right. split; [done|]. done. }
    left. destruct (page_addr_props i Hi) as (Hal & Hlow & Hu).
    destruct (Z.eqb_spec (page_addr i) 0); [unfold LOW_MEM in *; lia|]. cbn beta iota.
    assert (Hwf1 : mm_wf s1) by (by apply (fresh_wf ext s i)).
    rewrite map_get_run by done. cbn beta iota. rewrite map_set_run by done. cbn beta iota.
    assert (Hc1 : count s1 (MAP_NR old) = count s (MAP_NR old)).
    { rewrite (fresh_count ext s i s1) by done. rewrite decide_False; [done|]. intros Heq. rewrite Heq in Hc0. lia. }
    pose proof (mm_wf_count s (MAP_NR old) Hwf). rewrite Hc1, u8_small by lia.
    fold (set_count s1 (MAP_NR old) (count s (MAP_NR old) - 1)). rewrite st_run. unfold invalidate. mred.
    set (s2 := set_count s1 (MAP_NR old) (count s (MAP_NR old) - 1)).
    assert (Hne : old ≠ page_addr i) by (intros He; rewrite He, MAP_NR_page_addr in Hc; lia).
    pose proof (copy_page_spec old (page_addr i) (store s2 entry (Z.lor (page_addr i) 7))
      (frame_aligned _ (word_bound _ _)) Hal Hne) as Hcp.
    destruct (proj1 (wp_Ok _ _ _) Hcp) as ([] & s4 & Hrun4 & Hsame & Hcopy & Hrest). rewrite Hrun4.
    exists s4. split; [reflexivity|]. clear Hrun4.
    refine (cow_shared i s1 s2 Hi Hc0 Hh Hm Hw (conj eq_refl (λ a, eq_refl)) _ _ s4 Hsame Hcopy Hrest).
    + apply mm_wf_insert; [assumption|lia].
    + intros j Hj. unfold s2, set_count. rewrite count_insert by done. rewrite refers_iff. fold old.
      destruct (decide (MAP_NR old = j)) as [<-|Hnj].
      * rewrite decide_True by (split; [exact Hp|split; [exact Hl|reflexivity]]). lia.
      * rewrite decide_False by (intros (_ & _ & H0); exact (Hnj H0)). lia.
  - cbn beta iota. destruct (get_free_page_run s Hwf) as (p & s1 & Hrun & Hgot). rewrite Hrun. cbn beta iota.
    destruct Hgot as [Hfull|i s1 Hi Hc0 Hlast Hh Hm Hw].
    { right. split; [done|]. split; [done|lia]. }
    left. destruct (page_addr_props i Hi) as (Hal & Hlow & Hu).
    destruct (Z.eqb_spec (page_addr i) 0); [unfold LOW_MEM in *; lia|]. cbn beta iota.
    mred. rewrite st_run. unfold invalidate. mred.
    assert (Hne : old ≠ page_addr i) by lia.
    pose proof (copy_page_spec old (page_addr i) (store s1 entry (Z.lor (page_addr i) 7))
      (frame_aligned _ (word_bound _ _)) Hal Hne) as Hcp.
    destruct (proj1 (wp_Ok _ _ _) Hcp) as ([] & s4 & Hrun4 & Hsame & Hcopy & Hrest). rewrite Hrun4.
    exists s4. split; [reflexivity|]. clear Hrun4.
    refine (cow_shared i s1 s1 Hi Hc0 Hh Hm Hw (conj eq_refl (λ a, eq_refl)) _ _ s4 Hsame Hcopy Hrest).
    + by apply (fresh_wf ext s i).
    + intros j Hj. rewrite refers_iff, decide_False by lia. lia.
Qed.
End Cow.

(** C5: copy on write.  [un_wp_page] on a present entry of a user page table
    leaves the entry present and writable, on a page of main memory no one
    else refers to, with the data of the old page.  [mem_map] stays exact, and
    apart from this entry and the words of the page it has been given no word
    of memory changes: not the old page, no other page, no entry of another
    table and none of the kernel's.  When the page is shared or below main
    memory and no page is free, the process is killed instead (SIGSEGV) and
    nothing has changed. *)
Theorem un_wp_page_correct ext s d k :
  mm_inv ext s → reserved ext s → user_dir d → (k < 1024)%nat →
  present (pde s d) = true → present (pte s d k) = true →
  frame (pte s d k) ≠ frame (pde s d) →
  (∃ s', un_wp_page (frame (pde s d) + 4 * Z.of_nat k) s = Ok tt s' ∧
     mm_inv ext s' ∧ unshared ext s d k s') ∨
  (un_wp_page (frame (pde s d) + 4 * Z.of_nat k) s = Exit SIGSEGV s ∧
     (∀ i, 0 ≤ i < PAGING_PAGES → count s i ≠ 0) ∧
     (LOW_MEM ≤ frame (pte s d k) → count s (MAP_NR (frame (pte s d k))) ≠ 1)).
Proof.
  intros [Hwf Htab Hext Hacc] Hres Hd Hk Hpd Hp Hself.
  destruct (un_wp_page_run ext s d k) as [(s' & Hrun & Hun)|]; try done; [left|by right].
  exists s'. split; [done|]. split; [|done]. by destruct (us_ok _ _ _ _ _ Hun) as (? & ? & ?).
Qed.
