(* ===== verification/Malloc.v ===== *)
(** * lib/malloc.c: the kernel memory allocator

    Bucket descriptors and the free objects of a bucket are words of the
    physical memory of mm/memory.c: a descriptor at [b] has its page at [b],
    next at [b]+4, freeptr at [b]+8, and refcnt and bucket_size, two shorts, at
    [b]+12; the first word of a free object is the next one.  cli() and sti()
    have no effect on this state. *)

From stdpp Require Import base option list gmap strings.
From Stdlib Require Import ZArith.
From S2P Require Import Prelude Memory.
Local Open Scope Z_scope.

Record bucket_dir_struct := mk_bucket_dir { b_size : Z; b_chain : Z }.
#[export] Instance eta_bucket_dir : Eta bucket_dir_struct := fun d => mk_bucket_dir (b_size d) (b_chain d).

Record heap := mk_heap {
  h_mm : mm;
  bucket_dir : list bucket_dir_struct;
  free_bucket_desc : Z
}.
#[export] Instance eta_heap : Eta heap := fun h => mk_heap (h_mm h) (bucket_dir h) (free_bucket_desc h).

Definition init_bucket_dir : list bucket_dir_struct :=
  (λ n, mk_bucket_dir n 0) <$> [16; 32; 64; 128; 256; 512; 1024; 2048; 4096; 0].

(** The fields of the descriptor at [b]. *)
Definition get_page (b : Z) : M heap Z := zoom h_mm (ld b).
Definition set_page (b v : Z) : M heap unit := zoom h_mm (st b v).
Definition get_next (b : Z) : M heap Z := zoom h_mm (ld (b + 4)).
Definition set_next (b v : Z) : M heap unit := zoom h_mm (st (b + 4) v).
Definition get_freeptr (b : Z) : M heap Z := zoom h_mm (ld (b + 8)).
Definition set_freeptr (b v : Z) : M heap unit := zoom h_mm (st (b + 8) v).
Definition get_refcnt (b : Z) : M heap Z := w ← zoom h_mm (ld (b + 12)); mret (Z.land w 0xffff).
Definition set_refcnt (b v : Z) : M heap unit :=
  w ← zoom h_mm (ld (b + 12)); zoom h_mm (st (b + 12) (Z.lor (Z.land w 0xffff0000) (u16 v))).
Definition set_bucket_size (b v : Z) : M heap unit :=
  w ← zoom h_mm (ld (b + 12)); zoom h_mm (st (b + 12) (Z.lor (Z.land w 0xffff) (Z.shiftl (u16 v) 16))).
(** The pointer at [p]. *)
Definition get_link (p : Z) : M heap Z := zoom h_mm (ld p).
Definition set_link (p v : Z) : M heap unit := zoom h_mm (st p v).

Definition dir_at (i : nat) : M heap bucket_dir_struct := h ← get; deref (bucket_dir h !! i).
Definition set_chain (i : nat) (b : Z) : M heap unit :=
  d ← dir_at i; modify (λ h, h <| bucket_dir ::= <[i := d <| b_chain := b |>]> |>).

(** [for (i = PAGE_SIZE/sizeof(struct bucket_desc); i > 1; i--) {bdesc->next =
    bdesc+1; bdesc++;}], from [i]-1 rounds on; the last descriptor. *)
Fixpoint link_descs (n : nat) (bdesc : Z) : M heap Z :=
  match n with
  | O => mret bdesc
  | S n => set_next bdesc (bdesc + 16) ;; link_descs n (bdesc + 16)
  end.
(** The [n]+1 descriptors from [first] on become the free ones. *)
Definition fill_desc_page (n : nat) (first : Z) : M heap unit :=
  bdesc ← link_descs n first;
  h ← get;
  set_next bdesc (free_bucket_desc h) ;;
  modify (λ h, h <| free_bucket_desc := first |>).
Definition init_bucket_desc : M heap unit :=
  first ← zoom h_mm get_free_page;
  (if negb (truth first) then panic "Out of memory in init_bucket_desc()" else mret tt) ;;
  fill_desc_page (Z.to_nat (PAGE_SIZE / 16) - 1) first.

(** The loop that looks for a large enough size; [None] at the end marker. *)
Fixpoint find_size (len : Z) (i : nat) (l : list bucket_dir_struct) : option (nat * Z) :=
  match l with
  | [] => None
  | d :: l => if b_size d =? 0 then None else if len <=? b_size d then Some (i, b_size d) else find_size len (S i) l
  end.
(** The number of descriptors is bounded by the number of pages. *)
Definition chain_fuel : nat := Z.to_nat PAGING_PAGES.
(** [for (; bdesc; bdesc = bdesc->next) if (bdesc->freeptr) break;] *)
Fixpoint find_room (fuel : nat) (bdesc : Z) : M heap Z :=
  if bdesc =? 0 then mret 0 else
  match fuel with
  | O => no_fuel
  | S fuel =>
      f ← get_freeptr bdesc;
      if truth f then mret bdesc else
      n ← get_next bdesc;
      find_room fuel n
  end.
(** The chain of free objects, [n] links and the final 0. *)
Fixpoint link_objects (n : nat) (size cp : Z) : M heap unit :=
  match n with
  | O => set_link cp 0
  | S n => set_link cp (cp + size) ;; link_objects n size (cp + size)
  end.
(** A free descriptor, from a new page if there is none. *)
Definition spare_desc : M heap Z :=
  h ← get;
  when (negb (truth (free_bucket_desc h))) init_bucket_desc ;;
  h ← get;
  let bdesc := free_bucket_desc h in
  n ← get_next bdesc;
  modify (λ h, h <| free_bucket_desc := n |>) ;;
  mret bdesc.
(** A new bucket for size number [i]. *)
Definition new_bucket (i : nat) (size : Z) : M heap Z :=
  bdesc ← spare_desc;
  set_refcnt bdesc 0 ;;
  set_bucket_size bdesc size ;;
  cp ← zoom h_mm get_free_page;
  set_freeptr bdesc cp ;;
  set_page bdesc cp ;;
  (if negb (truth cp) then panic "Out of memory in kernel malloc()" else mret tt) ;;
  link_objects (Z.to_nat (PAGE_SIZE / size) - 1) size cp ;;
  d ← dir_at i;
  set_next bdesc (b_chain d) ;;
  set_chain i bdesc ;;
  mret bdesc.

(** The first free object of a bucket is taken. *)
Definition take_object (bdesc : Z) : M heap Z :=
  retval ← get_freeptr bdesc;
  f ← get_link retval;
  set_freeptr bdesc f ;;
  r ← get_refcnt bdesc;
  set_refcnt bdesc (r + 1) ;;
  mret retval.

Definition malloc (len : Z) : M heap Z :=
  h ← get;
  match find_size len 0 (bucket_dir h) with
  | None =>
      printk "malloc called with impossibly large argument (%d)\n" ;;
      panic "malloc: bad arg"
  | Some (i, size) =>
      d ← dir_at i;
      bdesc ← find_room chain_fuel (b_chain d);
      bdesc ← (if bdesc =? 0 then new_bucket i size else mret bdesc);
      take_object bdesc
  end.

(** The search for the bucket of a page in one chain: (bdesc, prev). *)
Fixpoint find_page (fuel : nat) (page bdesc prev : Z) : M heap (option (Z * Z)) :=
  if bdesc =? 0 then mret None else
  match fuel with
  | O => no_fuel
  | S fuel =>
      p ← get_page bdesc;
      if p =? page then mret (Some (bdesc, prev)) else
      n ← get_next bdesc;
      find_page fuel page n bdesc
  end.
(** ... and in the chains from size number [i] on. *)
Fixpoint find_bucket (page size : Z) (i : nat) (l : list bucket_dir_struct) : M heap (option (nat * Z * Z)) :=
  match l with
  | [] => mret None
  | d :: l =>
      if b_size d =? 0 then mret None else
      if b_size d <? size then find_bucket page size (S i) l else
      r ← find_page chain_fuel page (b_chain d) 0;
      match r with
      | Some (bdesc, prev) => mret (Some (i, bdesc, prev))
      | None => find_bucket page size (S i) l
      end
  end.
(** [for (prev = bdir->chain; prev; prev = prev->next) if (prev->next == bdesc) break;] *)
Fixpoint find_prev (fuel : nat) (bdesc prev : Z) : M heap Z :=
  if prev =? 0 then mret 0 else
  match fuel with
  | O => no_fuel
  | S fuel =>
      n ← get_next prev;
      if n =? bdesc then mret prev else find_prev fuel bdesc n
  end.
(** An empty bucket is unlinked and its page released. *)
Definition release_bucket (i : nat) (bdesc prev : Z) : M heap unit :=
  d ← dir_at i;
  stale ← (if truth prev then n ← get_next prev; mret (negb (n =? bdesc)) else mret (negb (b_chain d =? bdesc)));
  prev ← (if stale : bool then find_prev chain_fuel bdesc (b_chain d) else mret prev);
  n ← get_next bdesc;
  (if truth prev then set_next prev n
   else (if negb (b_chain d =? bdesc) then panic "malloc bucket chains corrupted" else mret tt) ;; set_chain i n) ;;
  p ← get_page bdesc;
  zoom h_mm (free_page p) ;;
  h ← get;
  set_next bdesc (free_bucket_desc h) ;;
  modify (λ h, h <| free_bucket_desc := bdesc |>).

(** The object goes back to its bucket; the new reference count. *)
Definition give_object (bdesc obj : Z) : M heap Z :=
  f ← get_freeptr bdesc;
  set_link obj f ;;
  set_freeptr bdesc obj ;;
  c ← get_refcnt bdesc;
  set_refcnt bdesc (c - 1) ;;
  get_refcnt bdesc.

Definition free_s (obj size : Z) : M heap unit :=
  let page := Z.land obj 0xfffff000 in
  h ← get;
  r ← find_bucket page size 0 (bucket_dir h);
  match r with
  | None => panic "Bad address passed to kernel free_s()"
  | Some (i, bdesc, prev) =>
      c ← give_object bdesc obj;
      when (c =? 0) (release_bucket i bdesc prev)
  end.
