(* ===== verification/MallocFacts.v ===== *)
(** * The state of the allocator

    [C] lists, for each size, the buckets of its chain: the descriptor, the
    page and the free objects in the order of their list; [sp] are the free
    descriptors.  [heap_ok h C sp] says that the words of memory hold exactly
    this and that nothing overlaps. *)

From stdpp Require Import base option list gmap strings.
From Stdlib Require Import ZArith Lia.
From S2P Require Import Prelude Memory MemoryFacts MemoryRefs MemoryProofs Malloc.
Local Open Scope Z_scope.

Record bucket := mk_bucket { desc : Z; page : Z; free : list Z }.
#[export] Instance eta_bucket : Eta bucket := fun β => mk_bucket (desc β) (page β) (free β).

Definition sizes : list Z := [16; 32; 64; 128; 256; 512; 1024; 2048; 4096].
(** The objects of a page. *)
Definition slots (p sz : Z) : list Z := (λ k : nat, p + sz * Z.of_nat k) <$> seq 0 (Z.to_nat (4096 / sz)).

(** A chain of pointers at offset [off] from [a] on, ended by 0. *)
Fixpoint chain_ok (s : mm) (off a : Z) (l : list Z) : Prop :=
  match l with
  | [] => a = 0
  | b :: l => a = b ∧ b ≠ 0 ∧ chain_ok s off (word s (b + off)) l
  end.

Record bucket_ok (s : mm) (sz : Z) (β : bucket) : Prop := {
  bk_page : word s (desc β) = page β;
  bk_chain : chain_ok s 0 (word s (desc β + 8)) (free β);
  bk_nodup : NoDup (free β);
  bk_slots : ∀ x, x ∈ free β → x ∈ slots (page β) sz;
  bk_refcnt : Z.land (word s (desc β + 12)) 0xffff = 4096 / sz - Z.of_nat (length (free β))
}.

(** Every descriptor, used or free. *)
Definition descs (C : list (list bucket)) (sp : list Z) : list Z := (desc <$> mjoin C) ++ sp.
Definition pages (C : list (list bucket)) : list Z := page <$> mjoin C.
(** The 16 bytes at [b] are not on the page at [p]. *)
Definition outside (p b : Z) : Prop := b + 16 ≤ p ∨ p + 4096 ≤ b.

Record heap_ok (h : heap) (C : list (list bucket)) (sp : list Z) : Prop := {
  hk_mm : mm_wf (h_mm h);
  hk_high : ∀ i, 0 ≤ i < PAGING_PAGES → HIGH_MEMORY (h_mm h) ≤ page_addr i → count (h_mm h) i ≠ 0;
  hk_dir : b_size <$> bucket_dir h = sizes ++ [0];
  hk_length : length C = 9%nat;
  hk_chain : ∀ i d bs, bucket_dir h !! i = Some d → C !! i = Some bs → chain_ok (h_mm h) 4 (b_chain d) (desc <$> bs);
  hk_spare : chain_ok (h_mm h) 4 (free_bucket_desc h) sp;
  hk_bucket : ∀ i sz bs β, sizes !! i = Some sz → C !! i = Some bs → β ∈ bs → bucket_ok (h_mm h) sz β;
  hk_descs : NoDup (descs C sp);
  hk_desc : ∀ b, b ∈ descs C sp → (16 | b) ∧ LOW_MEM ≤ b < LOW_MEM + PAGING_MEMORY ∧
    ∀ i, 0 ≤ i < PAGING_PAGES → count (h_mm h) i = 0 → outside (page_addr i) b;
  hk_pages : NoDup (pages C);
  hk_page : ∀ p, p ∈ pages C → ∃ i, 0 ≤ i < PAGING_PAGES ∧ p = page_addr i ∧ count (h_mm h) i = 1 ∧
    p < HIGH_MEMORY (h_mm h) ∧ ∀ b, b ∈ descs C sp → outside p b
}.

(** ** Objects *)

Lemma size_facts i sz : sizes !! i = Some sz →
  16 ≤ sz ≤ 4096 ∧ sz * (4096 / sz) = 4096 ∧ (4 | sz) ∧ 1 ≤ 4096 / sz ≤ 256.
Proof.
  intros H. repeat (destruct i as [|i]; [injection H as <-; split; [lia|]; split; [reflexivity|]; split;
    [by apply Z.mod_divide|vm_compute; split; discriminate]|]). done.
Qed.
Lemma elem_of_slots p i sz x :
  sizes !! i = Some sz → x ∈ slots p sz ↔ ∃ k, 0 ≤ k < 4096 / sz ∧ x = p + sz * k.
Proof.
  intros Hsz. destruct (size_facts i sz Hsz) as (_ & _ & _ & Hn). unfold slots. rewrite list_elem_of_fmap. split.
  - intros (k & -> & Hk%elem_of_seq). exists (Z.of_nat k). split; [lia|done].
  - intros (k & Hk & ->). exists (Z.to_nat k). rewrite Z2Nat.id by lia. split; [done|]. apply elem_of_seq. lia.
Qed.
Lemma slot_bounds p i sz x :
  sizes !! i = Some sz → x ∈ slots p sz → p ≤ x ∧ x + sz ≤ p + 4096.
Proof.
  intros Hsz Hx. destruct (size_facts i sz Hsz) as (H1 & H2 & _ & H3). apply (elem_of_slots p i sz x Hsz) in Hx as (k & Hk & ->). nia.
Qed.
Lemma slots_disjoint p i sz x y :
  sizes !! i = Some sz → x ∈ slots p sz → y ∈ slots p sz → x ≠ y → x + sz ≤ y ∨ y + sz ≤ x.
Proof.
  intros Hsz. destruct (size_facts i sz Hsz) as (H1 & _). rewrite !(elem_of_slots p i sz _ Hsz).
  intros (k & Hk & ->) (j & Hj & ->) Hne. assert (k < j ∨ j < k) by nia. nia.
Qed.
Lemma NoDup_slots p i sz : sizes !! i = Some sz → NoDup (slots p sz).
Proof.
  intros Hsz. destruct (size_facts i sz Hsz) as (H1 & _). apply NoDup_fmap_2; [|apply NoDup_seq].
  intros k j Hkj. nia.
Qed.
Lemma length_slots p sz : length (slots p sz) = Z.to_nat (4096 / sz).
Proof. unfold slots. by rewrite length_fmap, length_seq. Qed.

(** ** Chains *)

Lemma chain_ok_ext s s' off a l :
  (∀ b, b ∈ l → word s' (b + off) = word s (b + off)) → chain_ok s off a l → chain_ok s' off a l.
Proof.
  revert a. induction l as [|b l IH]; intros a Hw; simpl; [done|]. intros (H1 & H2 & H3).
  split; [done|]. split; [done|]. rewrite Hw by set_solver. apply IH; [|done]. intros c Hc. apply Hw. set_solver.
Qed.
Lemma chain_ok_head s off a l : chain_ok s off a l → a = default 0 (head l).
Proof. destruct l; simpl; tauto. Qed.

Lemma bucket_ok_ext s s' sz β :
  (∀ o, o = 0 ∨ o = 8 ∨ o = 12 → word s' (desc β + o) = word s (desc β + o)) →
  (∀ x, x ∈ free β → word s' x = word s x) → bucket_ok s sz β → bucket_ok s' sz β.
Proof.
  intros Hd Hf [H1 H2 H3 H4 H5]. pose proof (Hd 0 ltac:(lia)) as Hd0. rewrite Z.add_0_r in Hd0. split; [congruence| |done|done|].
  - rewrite Hd by lia. eapply chain_ok_ext; [|exact H2]. intros x Hx. rewrite Z.add_0_r. by apply Hf.
  - by rewrite Hd by lia.
Qed.

(** ** Nothing overlaps *)

Lemma NoDup_fmap_inj {A B} (f : A → B) l x y : NoDup (f <$> l) → x ∈ l → y ∈ l → f x = f y → x = y.
Proof.
  intros Hnd (i & Hi)%list_elem_of_lookup (j & Hj)%list_elem_of_lookup Hf.
  assert (i = j) as ->; [|congruence]. apply (NoDup_lookup _ _ _ (f x) Hnd); rewrite list_lookup_fmap; [by rewrite Hi|].
  rewrite Hj. simpl. by f_equal.
Qed.

Section Sep.
Context (h : heap) (C : list (list bucket)) (sp : list Z) (Hh : heap_ok h C sp).
Notation s := (h_mm h).

(** One of the four words of a descriptor. *)
Definition field (o : Z) : Prop := o = 0 ∨ o = 4 ∨ o = 8 ∨ o = 12.
Lemma desc_sep b b' o o' :
  b ∈ descs C sp → b' ∈ descs C sp → b ≠ b' → field o → field o' → b + o ≠ b' + o'.
Proof.
  intros Hb Hb' Hne Ho Ho'. destruct (hk_desc _ _ _ Hh b Hb) as [[k ->] _]. destruct (hk_desc _ _ _ Hh b' Hb') as [[k' ->] _].
  unfold field in *. lia.
Qed.
Lemma desc_page b p o a : b ∈ descs C sp → p ∈ pages C → field o → p ≤ a < p + 4096 → b + o ≠ a.
Proof.
  intros Hb Hp Ho Ha. destruct (hk_page _ _ _ Hh p Hp) as (i & _ & _ & _ & _ & Hout). specialize (Hout b Hb).
  unfold outside, field in *. lia.
Qed.
Lemma page_sep p q a : p ∈ pages C → q ∈ pages C → p ≠ q → p ≤ a < p + 4096 → q ≤ a < q + 4096 → False.
Proof.
  intros Hp Hq Hne Ha Ha'. destruct (hk_page _ _ _ Hh p Hp) as (i & _ & -> & _). destruct (hk_page _ _ _ Hh q Hq) as (j & _ & -> & _).
  unfold page_addr in *. lia.
Qed.
Lemma in_chain i bs β : C !! i = Some bs → β ∈ bs → β ∈ mjoin C.
Proof. intros HC Hβ. apply list_elem_of_join. exists bs. split; [done|]. by eapply list_elem_of_lookup_2. Qed.
Lemma desc_in β : β ∈ mjoin C → desc β ∈ descs C sp.
Proof. intros Hβ. apply elem_of_app. left. apply list_elem_of_fmap. by exists β. Qed.
Lemma page_in β : β ∈ mjoin C → page β ∈ pages C.
Proof. intros Hβ. apply list_elem_of_fmap. by exists β. Qed.
Lemma class_of β : β ∈ mjoin C → ∃ i sz bs, sizes !! i = Some sz ∧ C !! i = Some bs ∧ β ∈ bs.
Proof.
  intros (bs & Hβ & Hbs)%list_elem_of_join. apply list_elem_of_lookup in Hbs as [i Hi].
  pose proof (lookup_lt_Some _ _ _ Hi) as Hlt. rewrite (hk_length _ _ _ Hh) in Hlt.
  destruct (lookup_lt_is_Some_2 sizes i Hlt) as [sz Hsz]. by exists i, sz, bs.
Qed.
Lemma free_in_page β x : β ∈ mjoin C → x ∈ free β → page β ≤ x < page β + 4096.
Proof.
  intros Hβ Hx. destruct (class_of β Hβ) as (i & sz & bs & Hsz & HC & Hin).
  destruct (hk_bucket _ _ _ Hh i sz bs β Hsz HC Hin) as [_ _ _ Hs _].
  pose proof (slot_bounds _ _ _ _ Hsz (Hs x Hx)). destruct (size_facts i sz Hsz) as [? _]. lia.
Qed.
Lemma desc_inj β γ : β ∈ mjoin C → γ ∈ mjoin C → desc β = desc γ → β = γ.
Proof. intros. apply (NoDup_fmap_inj desc (mjoin C)); [|done..]. by pose proof (hk_descs _ _ _ Hh) as (? & _)%NoDup_app. Qed.
Lemma page_inj β γ : β ∈ mjoin C → γ ∈ mjoin C → page β = page γ → β = γ.
Proof. intros. apply (NoDup_fmap_inj page (mjoin C)); [apply (hk_pages _ _ _ Hh)|done..]. Qed.

(** A change inside one bucket, its free list and its reference count, leaves
    every other bucket and every chain as they are. *)
Definition local (s' : mm) (β : bucket) : Prop :=
  ∀ a, a ≠ desc β + 8 → a ≠ desc β + 12 → ¬ (page β ≤ a < page β + 4096) → word s' a = word s a.
Lemma local_bucket s' β γ sz :
  β ∈ mjoin C → γ ∈ mjoin C → γ ≠ β → local s' β → bucket_ok s sz γ → bucket_ok s' sz γ.
Proof.
  intros Hβ Hγ Hne Hl. pose proof (desc_in _ Hβ). pose proof (desc_in _ Hγ). pose proof (page_in _ Hβ). pose proof (page_in _ Hγ).
  assert (desc γ ≠ desc β) by (intros H'; by apply Hne, desc_inj). 
  assert (page γ ≠ page β) by (intros H'; by apply Hne, page_inj).
  apply bucket_ok_ext.
  - intros o Ho. apply Hl; [apply desc_sep; unfold field; tauto..|]. intros Ha.
    apply (desc_page (desc γ) (page β) o _ ltac:(done) ltac:(done) ltac:(unfold field; tauto) Ha). done.
  - intros x Hx. pose proof (free_in_page γ x Hγ Hx) as Hxp. apply Hl.
    + intros ->. by apply (desc_page (desc β) (page γ) 8 _ ltac:(done) ltac:(done) ltac:(unfold field; tauto) Hxp).
    + intros ->. by apply (desc_page (desc β) (page γ) 12 _ ltac:(done) ltac:(done) ltac:(unfold field; tauto) Hxp).
    + intros Ha. by apply (page_sep (page γ) (page β) x).
Qed.
Lemma local_chain s' β l a :
  β ∈ mjoin C → local s' β → (∀ b, b ∈ l → b ∈ descs C sp) → chain_ok s 4 a l → chain_ok s' 4 a l.
Proof.
  intros Hβ Hl Hin. apply chain_ok_ext. intros b Hb. pose proof (desc_in _ Hβ). specialize (Hin b Hb). apply Hl.
  - destruct (decide (b = desc β)) as [->|]; [lia|]. apply desc_sep; unfold field; tauto.
  - destruct (decide (b = desc β)) as [->|]; [lia|]. apply desc_sep; unfold field; tauto.
  - intros Ha. apply (desc_page b (page β) 4 _ ltac:(done) (page_in _ Hβ) ltac:(unfold field; tauto) Ha). done.
Qed.
End Sep.

(** ** One bucket changes *)

Lemma split_at {A} (C : list (list A)) i bs :
  C !! i = Some bs → ∃ C1 C2, C = C1 ++ bs :: C2 ∧ i = length C1 ∧ ∀ bs', <[i := bs']> C = C1 ++ bs' :: C2.
Proof.
  intros (C1 & C2 & -> & ->)%list_elem_of_split_length. exists C1, C2. split; [done|]. split; [done|]. intros bs'.
  by rewrite insert_app_r_alt, Nat.sub_diag by lia.
Qed.
Lemma mjoin_middle {A} (C1 C2 : list (list A)) bs : mjoin (C1 ++ bs :: C2) = mjoin C1 ++ bs ++ mjoin C2.
Proof. by rewrite join_app. Qed.

Section Update.
Context (h : heap) (C : list (list bucket)) (sp : list Z) (Hh : heap_ok h C sp).
Notation s := (h_mm h).

Lemma chain_nodup i bs : C !! i = Some bs → NoDup (desc <$> bs).
Proof.
  intros (C1 & C2 & HC12 & _)%split_at. pose proof (hk_descs _ _ _ Hh) as (Hn & _)%NoDup_app.
  rewrite HC12, mjoin_middle, !fmap_app in Hn. apply NoDup_app in Hn as (_ & _ & Hn). by apply NoDup_app in Hn as (Hn & _).
Qed.
Lemma chain_other i pre β post γ : C !! i = Some (pre ++ β :: post) → γ ∈ pre ∨ γ ∈ post → γ ≠ β.
Proof.
  intros HC Hγ ->. pose proof (chain_nodup i _ HC) as Hn. rewrite fmap_app in Hn. simpl in Hn.
  apply NoDup_app in Hn as (_ & Hd & Hn). apply NoDup_cons in Hn as [Hn _].
  destruct Hγ as [Hγ|Hγ].
  - apply (Hd (desc β)); [by apply list_elem_of_fmap_2|left].
  - apply Hn. by apply list_elem_of_fmap_2.
Qed.
(** The buckets of another chain are others, too. *)
Lemma class_other i j bs bs' β γ :
  C !! i = Some bs → C !! j = Some bs' → i ≠ j → β ∈ bs → γ ∈ bs' → γ ≠ β.
Proof.
  intros HC HC' Hij Hβ Hγ ->. pose proof (hk_descs _ _ _ Hh) as (Hn & _)%NoDup_app.
  assert (Hlt : ∀ i j bs bs', C !! i = Some bs → C !! j = Some bs' → β ∈ bs → β ∈ bs' → (i < j)%nat → False).
  { clear i j bs bs' HC HC' Hij Hβ Hγ. intros i j bs bs' HC HC' Hβ Hγ Hlt.
    destruct (split_at _ _ _ HC) as (C1 & C2 & HC12 & -> & _). rewrite HC12 in Hn, HC'.
    rewrite lookup_app_r in HC' by lia. destruct (j - length C1)%nat as [|k] eqn:Hk; [lia|]. simpl in HC'.
    rewrite mjoin_middle, !fmap_app in Hn. apply NoDup_app in Hn as (_ & _ & Hn). apply NoDup_app in Hn as (_ & Hd & _).
    apply (Hd (desc β)); [by apply list_elem_of_fmap_2|]. apply list_elem_of_fmap_2, list_elem_of_join.
    exists bs'. split; [done|]. by eapply list_elem_of_lookup_2. }
  destruct (decide (i < j)%nat); [by apply (Hlt i j bs bs')|apply (Hlt j i bs' bs); try done; lia].
Qed.

Lemma heap_update i pre β post β' sz s' :
  C !! i = Some (pre ++ β :: post) → sizes !! i = Some sz → desc β' = desc β → page β' = page β →
  same_maps s s' → local h s' β → bucket_ok s' sz β' →
  heap_ok (h <| h_mm := s' |>) (<[i := pre ++ β' :: post]> C) sp.
Proof.
  intros HC Hsz Hd Hp Hsame Hloc Hb. assert (Hβ : β ∈ mjoin C) by (eapply in_chain; [done|]; set_solver).
  destruct (split_at _ _ _ HC) as (C1 & C2 & HC12 & Hi & Hins).
  assert (Hdescs : descs (<[i := pre ++ β' :: post]> C) sp = descs C sp).
  { unfold descs. f_equal. rewrite Hins, HC12, !mjoin_middle, !fmap_app. simpl. by rewrite Hd. }
  assert (Hpages : pages (<[i := pre ++ β' :: post]> C) = pages C).
  { unfold pages. rewrite Hins, HC12, !mjoin_middle, !fmap_app. simpl. by rewrite Hp. }
  assert (Hcount : ∀ j, count s' j = count s j) by (intros j; by apply count_same).
  destruct Hsame as [HH Hm].
  pose proof Hh as [H1 H2 H3 H4 H5 H6 H7 H8 H9 H10 H11]. split; simpl; rewrite ?Hdescs, ?Hpages, ?HH; try done.
  - by apply (mm_wf_same s s').
  - intros j Hj. rewrite Hcount. by apply H2.
  - by rewrite length_insert.
  - intros j d bs Hdj HCj. rewrite list_lookup_insert_Some in HCj.
    assert (Hall : ∀ bs, C !! j = Some bs → ∀ b, b ∈ desc <$> bs → b ∈ descs C sp).
    { intros bs0 HC0 b (γ & -> & Hγ)%list_elem_of_fmap. eapply desc_in, in_chain; done. }
    destruct HCj as [(-> & <- & _)|(Hne & HCj)].
    + assert (desc <$> (pre ++ β' :: post) = desc <$> (pre ++ β :: post)) as ->.
      { rewrite !fmap_app. simpl. by rewrite Hd. }
      apply (local_chain h C sp Hh s' β _ _ Hβ Hloc); [by apply Hall|by apply (H5 j)].
    + apply (local_chain h C sp Hh s' β _ _ Hβ Hloc); [by apply Hall|by apply (H5 j)].
  - apply (local_chain h C sp Hh s' β _ _ Hβ Hloc); [|done]. intros b Hb'. apply elem_of_app. by right.
  - intros j szj bs γ Hszj HCj Hγ. rewrite list_lookup_insert_Some in HCj. destruct HCj as [(-> & <- & _)|(Hne & HCj)].
    + assert (szj = sz) as -> by congruence. rewrite elem_of_app, elem_of_cons in Hγ.
      assert (Hcase : γ = β' ∨ γ ∈ pre ∨ γ ∈ post) by tauto. destruct Hcase as [->|Hγ']; [done|].
      assert (Hin : γ ∈ pre ++ β :: post) by (rewrite elem_of_app, elem_of_cons; tauto).
      apply (local_bucket h C sp Hh s' β); [done|by eapply in_chain|by apply (chain_other j pre β post)|done|].
      by apply (H7 j sz _ γ Hszj HC).
    + apply (local_bucket h C sp Hh s' β); [done|by eapply in_chain| |done|by apply (H7 j szj bs γ)].
      apply (class_other i j _ _ _ _ HC HCj); [done| |done]. rewrite elem_of_app, elem_of_cons. tauto.
  - intros b Hb'. destruct (H9 b Hb') as (? & ? & Hout). split; [done|]. split; [done|]. intros j Hj. rewrite Hcount. by apply Hout.
  - intros p Hp'. destruct (H11 p Hp') as (j & Hj). exists j. rewrite Hcount. done.
Qed.
End Update.

(** ** Running the accesses *)

Definition hstore (h : heap) (a v : Z) : heap := h <| h_mm ::= λ s, store s a v |>.
Lemma zoom_st a v h : zoom h_mm (st a v) h = Ok tt (hstore h a v).
Proof. by destruct h. Qed.
Lemma zoom_ld a h : zoom h_mm (ld a) h = Ok (word (h_mm h) a) h.
Proof. by destruct h. Qed.
Lemma word_hstore h a v b : word (h_mm (hstore h a v)) b = if decide (a = b) then u32 v else word (h_mm h) b.
Proof. apply word_store. Qed.
Lemma u32_word s a : u32 (word s a) = word s a.
Proof. apply u32_small, word_bound. Qed.

(** The two halves of the last word of a descriptor. *)
Lemma low_half w v : Z.land (u32 (Z.lor (Z.land w 0xffff0000) (u16 v))) 0xffff = u16 v.
Proof.
  unfold u32, u16. change 0xffff with (Z.ones 16). change 4294967296 with (2 ^ 32). change 65536 with (2 ^ 16).
  rewrite <-!Z.land_ones by lia. rewrite <-!Z.land_assoc, Z.land_lor_distr_l, <-!Z.land_assoc.
  change (Z.land 0xffff0000 (Z.land (Z.ones 32) (Z.ones 16))) with 0. rewrite Z.land_0_r, Z.lor_0_l.
  by change (Z.land (Z.ones 16) (Z.land (Z.ones 32) (Z.ones 16))) with (Z.ones 16).
Qed.
Lemma keep_low_half w v : Z.land (u32 (Z.lor (Z.land w 0xffff) (Z.shiftl (u16 v) 16))) 0xffff = Z.land w 0xffff.
Proof.
  unfold u32. change 0xffff with (Z.ones 16). change 4294967296 with (2 ^ 32).
  rewrite <-!Z.land_ones by lia. rewrite <-!Z.land_assoc, Z.land_lor_distr_l, <-!Z.land_assoc.
  change (Z.land (Z.ones 32) (Z.ones 16)) with (Z.ones 16). rewrite Z.land_diag.
  rewrite (Z.land_ones (Z.shiftl _ _)), Z.shiftl_mul_pow2, Z.mod_mul by lia. apply Z.lor_0_r.
Qed.

(** The memory with other free pointer and count in the descriptor at [b]. *)
Definition recount (h : heap) (b f c : Z) : heap :=
  let h1 := hstore h (b + 8) f in
  hstore h1 (b + 12) (Z.lor (Z.land (word (h_mm h1) (b + 12)) 0xffff0000) (u16 c)).
Lemma recount_word h b f c a :
  a ≠ b + 8 → a ≠ b + 12 → word (h_mm (recount h b f c)) a = word (h_mm h) a.
Proof. intros H1 H2. unfold recount. by rewrite !word_hstore, !decide_False by congruence. Qed.
Lemma recount_freeptr h b f c : word (h_mm (recount h b f c)) (b + 8) = u32 f.
Proof. unfold recount. rewrite !word_hstore. rewrite decide_False by lia. by rewrite decide_True. Qed.
Lemma recount_refcnt h b f c : Z.land (word (h_mm (recount h b f c)) (b + 12)) 0xffff = u16 c.
Proof. unfold recount at 1. rewrite !word_hstore, decide_True by done. apply low_half. Qed.

Lemma take_object_run b h :
  take_object b h =
    Ok (word (h_mm h) (b + 8))
       (recount h b (word (h_mm h) (word (h_mm h) (b + 8))) (Z.land (word (h_mm h) (b + 12)) 0xffff + 1)).
Proof.
  unfold take_object, get_freeptr, get_link, set_freeptr, get_refcnt, set_refcnt, mbind, M_bind, mret, M_ret.
  rewrite !zoom_ld, zoom_st, !zoom_ld, zoom_st. unfold recount. by rewrite word_hstore, decide_False by lia.
Qed.
Lemma give_object_run b x h :
  x ≠ b + 8 → x ≠ b + 12 →
  ∃ h1, h1 = hstore h x (word (h_mm h) (b + 8)) ∧
  give_object b x h =
    Ok (u16 (Z.land (word (h_mm h) (b + 12)) 0xffff - 1)) (recount h1 b x (Z.land (word (h_mm h) (b + 12)) 0xffff - 1)).
Proof.
  intros Hx Hx'. eexists. split; [done|].
  unfold give_object, get_freeptr, set_link, set_freeptr, get_refcnt, set_refcnt, mbind, M_bind, mret, M_ret.
  rewrite !zoom_ld, !zoom_st, !zoom_ld, !zoom_st, !zoom_ld.
  assert (Hw : word (h_mm (hstore (hstore h x (word (h_mm h) (b + 8))) (b + 8) x)) (b + 12) = word (h_mm h) (b + 12)).
  { by rewrite !word_hstore, !decide_False by lia. }
  rewrite Hw. f_equal.
  - rewrite word_hstore, decide_True by done. apply low_half.
  - unfold recount. by rewrite Hw.
Qed.

(** ** Taking and giving an object *)

Section Objects.
Context (h : heap) (C : list (list bucket)) (sp : list Z) (Hh : heap_ok h C sp).
Notation s := (h_mm h).

Lemma refcnt_bound i sz bs β :
  sizes !! i = Some sz → C !! i = Some bs → β ∈ bs → Z.of_nat (length (free β)) ≤ 4096 / sz.
Proof.
  intros Hsz HC Hβ. destruct (hk_bucket _ _ _ Hh i sz bs β Hsz HC Hβ) as [_ _ Hn Hs _].
  destruct (size_facts i sz Hsz) as (_ & _ & _ & Hb).
  pose proof (submseteq_length _ _ (NoDup_submseteq _ (slots (page β) sz) Hn Hs)) as Hl. rewrite length_slots in Hl. lia.
Qed.

Lemma take_ok i sz pre b p x fl post :
  C !! i = Some (pre ++ mk_bucket b p (x :: fl) :: post) → sizes !! i = Some sz →
  ∃ h', take_object b h = Ok x h' ∧ heap_ok h' (<[i := pre ++ mk_bucket b p fl :: post]> C) sp ∧
    (∀ a, a ≠ b + 8 → a ≠ b + 12 → word (h_mm h') a = word s a).
Proof.
  intros HC Hsz. set (β := mk_bucket b p (x :: fl)) in *.
  assert (Hin : β ∈ pre ++ β :: post) by set_solver. pose proof (in_chain C i _ β HC Hin) as Hβ.
  pose proof (hk_bucket _ _ _ Hh i sz _ β Hsz HC Hin) as [H1 H2 H3 H4 H5]. simpl in *.
  pose proof (refcnt_bound i sz _ β Hsz HC Hin) as Hlen. simpl in Hlen.
  destruct H2 as (Hx & Hx0 & Hch). destruct (size_facts i sz Hsz) as (_ & _ & _ & Hns).
  rewrite take_object_run, Hx, H5. rewrite Z.add_0_r in Hch. set (h' := recount _ _ _ _).
  exists h'. assert (Hw : ∀ a, a ≠ b + 8 → a ≠ b + 12 → word (h_mm h') a = word s a) by (intros; by apply recount_word).
  assert (Hfp : word (h_mm h') (b + 8) = word s x) by (unfold h'; by rewrite recount_freeptr, u32_word).
  assert (Hrc : Z.land (word (h_mm h') (b + 12)) 0xffff = 4096 / sz - Z.of_nat (S (length fl)) + 1).
  { unfold h'. rewrite recount_refcnt, u16_small; lia. }
  assert (Hsame : same_maps s (h_mm h')) by done. assert (Heq : h' = h <| h_mm := h_mm h' |>) by (by destruct h).
  clearbody h'. split; [done|]. split; [|done]. rewrite Heq.
  apply (heap_update h C sp Hh i pre β post (mk_bucket b p fl) sz (h_mm h') HC Hsz); [done|done|done| |].
  - intros a Ha Ha' _. by apply Hw.
  - split; simpl.
    + rewrite Hw by lia. done.
    + rewrite Hfp. eapply chain_ok_ext; [|exact Hch]. intros y Hy. rewrite Z.add_0_r.
      assert (Hyp : page β ≤ y < page β + 4096) by (apply (free_in_page h C sp Hh β y Hβ); simpl; set_solver).
      apply Hw; intros ->.
      * apply (desc_page h C sp Hh b p 8 _ (desc_in C sp β Hβ) (page_in C β Hβ) ltac:(unfold field; tauto) Hyp). done.
      * apply (desc_page h C sp Hh b p 12 _ (desc_in C sp β Hβ) (page_in C β Hβ) ltac:(unfold field; tauto) Hyp). done.
    + by apply NoDup_cons in H3 as [_ ?].
    + intros y Hy. apply H4. set_solver.
    + rewrite Hrc. lia.
Qed.

Lemma give_ok i sz pre b p fl x post :
  C !! i = Some (pre ++ mk_bucket b p fl :: post) → sizes !! i = Some sz → x ∈ slots p sz → x ∉ fl →
  ∃ h', give_object b x h = Ok (4096 / sz - Z.of_nat (S (length fl))) h' ∧
    heap_ok h' (<[i := pre ++ mk_bucket b p (x :: fl) :: post]> C) sp ∧
    (∀ a, a ≠ b + 8 → a ≠ b + 12 → a ≠ x → word (h_mm h') a = word s a).
Proof.
  intros HC Hsz Hx Hxf. set (β := mk_bucket b p fl) in *.
  assert (Hin : β ∈ pre ++ β :: post) by set_solver. pose proof (in_chain C i _ β HC Hin) as Hβ.
  pose proof (desc_in C sp β Hβ) as Hd. pose proof (page_in C β Hβ) as Hp.
  pose proof (hk_bucket _ _ _ Hh i sz _ β Hsz HC Hin) as [H1 H2 H3 H4 H5]. simpl in *.
  assert (Hn : NoDup (x :: fl)) by (by apply NoDup_cons).
  assert (Hincl : ∀ y, y ∈ x :: fl → y ∈ slots p sz) by (intros y [->|Hy]%elem_of_cons; [done|by apply H4]).
  pose proof (submseteq_length _ _ (NoDup_submseteq _ _ Hn Hincl)) as Hlen. rewrite length_slots in Hlen. simpl in Hlen.
  destruct (size_facts i sz Hsz) as (Hs1 & _ & _ & Hns).
  assert (Hpg : ∀ y, y ∈ slots p sz → p ≤ y < p + 4096) by (intros y Hy; pose proof (slot_bounds p i sz y Hsz Hy); lia).
  assert (Hsep : ∀ o y, field o → y ∈ slots p sz → y ≠ b + o).
  { intros o y Ho Hy ->. by apply (desc_page h C sp Hh b p o _ Hd Hp Ho (Hpg _ Hy)). }
  assert (H8 : ∀ y, y ∈ slots p sz → y ≠ b + 8) by (intros; apply Hsep; unfold field; tauto).
  assert (H12 : ∀ y, y ∈ slots p sz → y ≠ b + 12) by (intros; apply Hsep; unfold field; tauto).
  assert (Hxr : 0 < x < 2 ^ 32).
  { destruct (hk_page _ _ _ Hh p Hp) as (j & Hj & Hpj & _). pose proof (page_addr_props j Hj). specialize (Hpg x Hx).
    rewrite <-Hpj in *. unfold LOW_MEM, PAGING_MEMORY in *. lia. }
  destruct (give_object_run b x h (H8 x Hx) (H12 x Hx)) as (h1 & Hh1 & Hrun). rewrite H5 in Hrun.
  set (h' := recount h1 b x _) in *. exists h'.
  assert (Hw : ∀ a, a ≠ b + 8 → a ≠ b + 12 → a ≠ x → word (h_mm h') a = word s a).
  { intros a Ha Ha' Hax. unfold h'. rewrite recount_word by done. by rewrite Hh1, word_hstore, decide_False by done. }
  assert (Hfp : word (h_mm h') (b + 8) = x) by (unfold h'; rewrite recount_freeptr; apply u32_small; lia).
  assert (Hlk : word (h_mm h') x = word s (b + 8)).
  { unfold h'. rewrite recount_word by auto. by rewrite Hh1, word_hstore, decide_True, u32_word. }
  assert (Hrc : Z.land (word (h_mm h') (b + 12)) 0xffff = 4096 / sz - Z.of_nat (length fl) - 1).
  { unfold h'. rewrite recount_refcnt, u16_small; lia. }
  assert (Hsame : same_maps s (h_mm h')) by (unfold h'; by rewrite Hh1).
  assert (Heq : h' = h <| h_mm := h_mm h' |>) by (unfold h'; rewrite Hh1; by destruct h).
  clearbody h'. split; [rewrite Hrun; f_equal; rewrite u16_small; lia|]. split; [|done]. rewrite Heq.
  apply (heap_update h C sp Hh i pre β post (mk_bucket b p (x :: fl)) sz (h_mm h') HC Hsz); [done|done|done| |].
  - intros a Ha Ha' Hpa. apply Hw; [done|done|]. intros ->. by apply Hpa, Hpg.
  - split; simpl.
    + rewrite Hw; [done|lia|lia|]. intros Hbx. apply (Hsep 0 x); [unfold field; tauto|done|lia].
    + rewrite Hfp, Z.add_0_r, Hlk. split; [done|]. split; [lia|]. eapply chain_ok_ext; [|exact H2]. intros y Hy.
      rewrite Z.add_0_r. specialize (H4 y Hy). apply Hw; [by apply H8|by apply H12|]. by intros ->.
    + done.
    + exact Hincl.
    + rewrite Hrc. lia.
Qed.
End Objects.
