(* ===== verification/MallocBucket.v ===== *)
(** * New descriptors and new buckets *)

From stdpp Require Import base option list gmap strings.
From Stdlib Require Import ZArith Lia.
From S2P Require Import Prelude Memory MemoryFacts MemoryRefs MemoryProofs Malloc MallocFacts.
Local Open Scope Z_scope.

(** ** Linking a run of equidistant cells *)

(** The addresses [a], [a]+[step], ..., [n] of them. *)
Definition run_of (a step : Z) (n : nat) : list Z := (λ k : nat, a + step * Z.of_nat k) <$> seq 0 n.
Lemma run_of_S a step n : run_of a step (S n) = a :: run_of (a + step) step n.
Proof.
  unfold run_of. rewrite <-cons_seq. simpl. f_equal; [lia|]. rewrite <-fmap_S_seq, <-list_fmap_compose.
  apply list_fmap_ext. intros i k _. simpl. lia.
Qed.
Lemma elem_of_run a step n x : x ∈ run_of a step n ↔ ∃ k, 0 ≤ k < Z.of_nat n ∧ x = a + step * k.
Proof.
  unfold run_of. rewrite list_elem_of_fmap. split.
  - intros (k & -> & Hk%elem_of_seq). exists (Z.of_nat k). split; [lia|done].
  - intros (k & Hk & ->). exists (Z.to_nat k). rewrite Z2Nat.id by lia. split; [done|]. apply elem_of_seq. lia.
Qed.
Lemma chain_of_run s off step a n :
  0 < a → 0 < step → (∀ k, 0 ≤ k < Z.of_nat n → word s (a + step * k + off) = a + step * (k + 1)) →
  word s (a + step * Z.of_nat n + off) = 0 → chain_ok s off a (run_of a step (S n)).
Proof.
  intros Ha Hs. revert a Ha. induction n as [|n IH]; intros a Ha Hk Hlast; rewrite run_of_S.
  - simpl. split; [done|]. split; [lia|]. rewrite <-Hlast. f_equal. lia.
  - cbn [chain_ok]. split; [done|]. split; [lia|]. pose proof (Hk 0 ltac:(lia)) as H0.
    replace (a + step * 0 + off) with (a + off) in H0 by lia. rewrite H0.
    replace (a + step * (0 + 1)) with (a + step) by lia. apply IH; [lia| |].
    + intros k Hk'. specialize (Hk (k + 1) ltac:(lia)). replace (a + step + step * k + off) with (a + step * (k + 1) + off) by lia.
      rewrite Hk. lia.
    + rewrite <-Hlast. f_equal. lia.
Qed.

(** Only memory words differ. *)
Definition same_heap (h h' : heap) : Prop :=
  same_maps (h_mm h) (h_mm h') ∧ bucket_dir h' = bucket_dir h ∧ free_bucket_desc h' = free_bucket_desc h.
#[export] Instance same_heap_preorder : PreOrder same_heap.
Proof. split; [done|]. intros h1 h2 h3 ([H1 H2] & H3 & H4) ([H5 H6] & H7 & H8). split; [split|split]; congruence. Qed.
Lemma same_heap_store h a v : same_heap h (hstore h a v).
Proof. done. Qed.

Lemma link_descs_run n b h :
  0 ≤ b → b + 16 * Z.of_nat n < 2 ^ 32 →
  ∃ h', link_descs n b h = Ok (b + 16 * Z.of_nat n) h' ∧ same_heap h h' ∧
    (∀ k, 0 ≤ k < Z.of_nat n → word (h_mm h') (b + 16 * k + 4) = b + 16 * (k + 1)) ∧
    (∀ a, (∀ k, 0 ≤ k < Z.of_nat n → a ≠ b + 16 * k + 4) → word (h_mm h') a = word (h_mm h) a).
Proof.
  revert b h. induction n as [|n IH]; intros b h Hb Hlt.
  - exists h. split; [simpl; unfold mret, M_ret; f_equal; lia|]. split; [done|]. split; [lia|done].
  - destruct (IH (b + 16) (hstore h (b + 4) (b + 16))) as (h' & Hrun & Hsame & Hin & Hout); [lia..|].
    exists h'. cbn [link_descs]. unfold set_next. rewrite (bind_Ok _ _ _ _ _ (zoom_st _ _ _)). rewrite Hrun.
    split; [f_equal; lia|]. split; [etrans; [apply same_heap_store|exact Hsame]|]. split.
    + intros k Hk. destruct (decide (k = 0)) as [->|].
      * rewrite Hout by lia. rewrite word_hstore, decide_True by lia. rewrite u32_small; lia.
      * replace (b + 16 * k + 4) with (b + 16 + 16 * (k - 1) + 4) by lia. rewrite Hin by lia. lia.
    + intros a Ha. rewrite Hout by (intros k Hk; specialize (Ha (k + 1)); lia).
      specialize (Ha 0). rewrite word_hstore, decide_False by lia. done.
Qed.
Lemma link_objects_run n sz p h :
  0 ≤ p → 0 < sz → p + sz * Z.of_nat n < 2 ^ 32 →
  ∃ h', link_objects n sz p h = Ok tt h' ∧ same_heap h h' ∧
    (∀ k, 0 ≤ k < Z.of_nat n → word (h_mm h') (p + sz * k + 0) = p + sz * (k + 1)) ∧
    word (h_mm h') (p + sz * Z.of_nat n + 0) = 0 ∧
    (∀ a, (∀ k, 0 ≤ k ≤ Z.of_nat n → a ≠ p + sz * k) → word (h_mm h') a = word (h_mm h) a).
Proof.
  intros Hp Hsz. revert p Hp h. induction n as [|n IH]; intros p Hp h Hlt.
  - exists (hstore h p 0). cbn [link_objects]. unfold set_link. rewrite zoom_st. split; [done|]. split; [done|].
    split; [lia|]. split; [rewrite word_hstore, decide_True by lia; done|]. intros a Ha. specialize (Ha 0).
    by rewrite word_hstore, decide_False by lia.
  - destruct (IH (p + sz) ltac:(lia) (hstore h p (p + sz))) as (h' & Hrun & Hsame & Hin & Hlast & Hout); [lia|].
    exists h'. cbn [link_objects]. unfold set_link. rewrite (bind_Ok _ _ _ _ _ (zoom_st _ _ _)).
    split; [exact Hrun|]. split; [etrans; [apply same_heap_store|exact Hsame]|]. split; [|split].
    + intros k Hk. destruct (decide (k = 0)) as [->|].
      * rewrite Hout by (intros j Hj; nia). rewrite word_hstore, decide_True by lia. rewrite u32_small; nia.
      * replace (p + sz * k + 0) with (p + sz + sz * (k - 1) + 0) by lia. rewrite Hin by lia. lia.
    + rewrite <-Hlast. f_equal. lia.
    + intros a Ha. rewrite Hout by (intros k Hk; specialize (Ha (k + 1) ltac:(lia)); lia).
      specialize (Ha 0 ltac:(lia)). rewrite word_hstore, decide_False by lia. done.
Qed.

(** ** A page from get_free_page() *)

Section Fresh.
Context (h : heap) (C : list (list bucket)) (sp : list Z) (Hh : heap_ok h C sp).
Notation s := (h_mm h).

(** The words the invariant reads. *)
Definition reads (a : Z) : Prop :=
  (∃ β, β ∈ mjoin C ∧ page β ≤ a < page β + 4096) ∨ (∃ b o, b ∈ descs C sp ∧ field o ∧ a = b + o).
Lemma heap_frame s' :
  mm_wf s' → HIGH_MEMORY s' = HIGH_MEMORY s →
  (∀ j, 0 ≤ j < PAGING_PAGES → count s' j = 0 → count s j = 0) →
  (∀ j, 0 ≤ j < PAGING_PAGES → count s j = 1 → count s' j = 1) →
  (∀ a, reads a → word s' a = word s a) → heap_ok (h <| h_mm := s' |>) C sp.
Proof.
  intros Hwf HH Hc0 Hc1 Hw. pose proof Hh as [H1 H2 H3 H4 H5 H6 H7 H8 H9 H10 H11].
  assert (Hchain : ∀ a l, (∀ b, b ∈ l → b ∈ descs C sp) → chain_ok s 4 a l → chain_ok s' 4 a l).
  { intros a l Hl. apply chain_ok_ext. intros b Hb. apply Hw. right. exists b, 4. split; [by apply Hl|]. unfold field. tauto. }
  split; simpl; rewrite ?HH; try done.
  - intros i Hi Hhi H0. by apply (H2 i Hi Hhi), Hc0.
  - intros i d bs Hd HC. apply Hchain; [|by apply (H5 i)]. intros b (γ & -> & Hγ)%list_elem_of_fmap. eapply desc_in, in_chain; done.
  - apply Hchain; [|done]. intros b Hb. apply elem_of_app. by right.
  - intros i sz bs β Hsz HC Hβ. pose proof (in_chain C i bs β HC Hβ) as Hin. apply (bucket_ok_ext s).
    + intros o Ho. apply Hw. right. exists (desc β), o. split; [by apply desc_in|]. unfold field. tauto.
    + intros x Hx. apply Hw. left. exists β. split; [done|]. by apply (free_in_page h C sp Hh).
    + by apply (H7 i sz bs β).
  - intros b Hb. destruct (H9 b Hb) as (? & ? & Hout). split; [done|]. split; [done|]. intros i Hi Hi0. by apply Hout, Hc0.
  - intros p Hp. destruct (H11 p Hp) as (i & Hi & -> & Hc & Hr). exists i. split; [done|]. split; [done|]. split; [by apply Hc1|done].
Qed.

(** The page is free, so the invariant reads no word of it. *)
Lemma free_page_unread i a :
  0 ≤ i < PAGING_PAGES → count s i = 0 → page_addr i ≤ a < page_addr i + 4096 → ¬ reads a.
Proof.
  intros Hi H0 Ha [(β & Hβ & Hp)|(b & o & Hb & Ho & ->)].
  - destruct (hk_page _ _ _ Hh (page β) (page_in C β Hβ)) as (j & Hj & Hpj & Hc & _). rewrite Hpj in Hp.
    assert (i ≠ j) by congruence. unfold page_addr in *. lia.
  - destruct (hk_desc _ _ _ Hh b Hb) as (_ & _ & Hout). specialize (Hout i Hi H0). unfold outside, field in *. lia.
Qed.
Lemma in_page_range p a : in_page p a = true → p ≤ a < p + 4096.
Proof. unfold in_page. intros H. lia. Qed.

Lemma fresh_page :
  (zoom h_mm get_free_page h = Ok 0 h ∧ ∀ i, 0 ≤ i < PAGING_PAGES → count s i ≠ 0) ∨
  ∃ i s', 0 ≤ i < PAGING_PAGES ∧ count s i = 0 ∧ page_addr i < HIGH_MEMORY s' ∧
    zoom h_mm get_free_page h = Ok (page_addr i) (h <| h_mm := s' |>) ∧
    heap_ok (h <| h_mm := s' |>) C sp ∧ (∀ j, count s' j = if decide (i = j) then 1 else count s j) ∧
    (∀ a, ¬ (page_addr i ≤ a < page_addr i + 4096) → word s' a = word s a) ∧
    (∀ k, (k < 1024)%nat → word s' (page_addr i + 4 * Z.of_nat k) = 0).
Proof.
  pose proof (hk_mm _ _ _ Hh) as Hwf. destruct (get_free_page_run s Hwf) as (p & s' & Hrun & Hgot).
  unfold zoom. rewrite Hrun. destruct Hgot as [Hfull|i s' Hi Hi0 _ HH Hm Hw]; [left; by destruct h|right].
  assert (Hsame : same_maps (set_count s i 1) s') by done.
  assert (Hc : ∀ j, count s' j = if decide (i = j) then 1 else count s j).
  { intros j. rewrite (count_same _ _ _ Hsame). by apply count_insert. }
  assert (Hout : ∀ a, ¬ (page_addr i ≤ a < page_addr i + 4096) → word s' a = word s a).
  { intros a Ha. rewrite Hw. destruct (in_page (page_addr i) a) eqn:Hp; [|done]. by apply in_page_range in Hp. }
  exists i, s'. split; [done|]. split; [done|]. split.
  { rewrite HH. apply Z.lt_nge. intros Hhi. by apply (hk_high _ _ _ Hh i Hi Hhi). }
  split; [done|]. split; [|split; [exact Hc|split; [done|]]].
  - apply heap_frame; [apply (mm_wf_same _ _ (mm_wf_insert s i 1 Hwf ltac:(lia)) Hsame)|done| | |].
    + intros j Hj. rewrite Hc. case_decide; [lia|done].
    + intros j Hj. rewrite Hc. by case_decide.
    + intros a Ha. apply Hout. intros Hp. by apply (free_page_unread i a).
  - intros k Hk. by rewrite Hw, in_page_slot.
Qed.
End Fresh.

(** ** A page of descriptors *)

(** The memory of the buckets is untouched. *)
Definition pages_kept (h : heap) (C : list (list bucket)) (h' : heap) : Prop :=
  ∀ β a, β ∈ mjoin C → page β ≤ a < page β + 4096 → word (h_mm h') a = word (h_mm h) a.

Lemma descs_nil C : descs C [] = desc <$> mjoin C.
Proof. unfold descs. apply app_nil_r. Qed.

Lemma add_spare h C i l a :
  heap_ok h C [] → 0 ≤ i < PAGING_PAGES → count (h_mm h) i ≠ 0 →
  (∀ b, b ∈ descs C [] → outside (page_addr i) b) → page_addr i ∉ pages C →
  (∀ b, b ∈ l → ∃ k, 0 ≤ k < 256 ∧ b = page_addr i + 16 * k) → NoDup l → chain_ok (h_mm h) 4 a l →
  heap_ok (h <| free_bucket_desc := a |>) C l.
Proof.
  intros Hh Hi Hc Hout Hpg Hl Hn Hch. pose proof Hh as [H1 H2 H3 H4 H5 H6 H7 H8 H9 H10 H11].
  rewrite descs_nil in *. destruct (page_addr_props i Hi) as (_ & Hr & _).
  assert (Hpa : (16 | page_addr i)) by (unfold page_addr, LOW_MEM; exists (65536 + 256 * i); lia).
  split; simpl; try done.
  - apply NoDup_app. split; [done|]. split; [|done]. intros b Hb Hbl. specialize (Hout b Hb).
    destruct (Hl b Hbl) as (k & Hk & ->). unfold outside in Hout. lia.
  - intros b [Hb|Hb]%elem_of_app; [by apply H9|]. destruct (Hl b Hb) as (k & Hk & ->).
    split; [apply Z.divide_add_r; [done|by exists k; lia]|]. split.
    + unfold page_addr, PAGING_PAGES in *. change (Z.shiftr PAGING_MEMORY 12) with 3840 in Hi. unfold PAGING_MEMORY in *. lia.
    + intros j Hj Hj0. unfold outside. assert (i ≠ j) by congruence. unfold page_addr in *. lia.
  - intros p Hp. destruct (H11 p Hp) as (j & Hj & -> & Hcj & Hhi & Hb). exists j. do 4 (split; [done|]).
    intros b [Hb'|Hb']%elem_of_app; [by apply Hb|]. destruct (Hl b Hb') as (k & Hk & ->).
    assert (i ≠ j) by (intros <-; done). unfold outside, page_addr in *. lia.
Qed.

Lemma fill_desc_page_run n p h :
  0 < p → p + 16 * (Z.of_nat n + 1) < 2 ^ 32 → free_bucket_desc h = 0 →
  ∃ s', fill_desc_page n p h = Ok tt (h <| h_mm := s' |> <| free_bucket_desc := p |>) ∧ same_maps (h_mm h) s' ∧
    (∀ a, ¬ (p ≤ a < p + 16 * (Z.of_nat n + 1)) → word s' a = word (h_mm h) a) ∧
    chain_ok s' 4 p (run_of p 16 (S n)).
Proof.
  intros Hp Hb Hf. destruct (link_descs_run n p h) as (h2 & Hlink & (Hm2 & Hd2 & Hf2) & Hin & Hout); [lia..|].
  set (h3 := hstore h2 (p + 16 * Z.of_nat n + 4) (free_bucket_desc h2)). exists (h_mm h3).
  assert (Heq : h3 = h <| h_mm := h_mm h3 |>).
  { unfold h3. destruct h, h2. unfold hstore, set in *. simpl in *. by subst. }
  split; [|split; [exact Hm2|split]].
  - unfold fill_desc_page. rewrite (bind_Ok _ _ _ _ _ Hlink), (bind_Ok get _ h2 h2 h2 eq_refl). unfold set_next.
    rewrite (bind_Ok _ _ _ _ _ (zoom_st _ _ _)). fold h3. unfold modify. by rewrite <-Heq.
  - intros a Ha. unfold h3. rewrite word_hstore, decide_False by lia. apply Hout. intros k Hk. lia.
  - apply chain_of_run; [done|lia| |].
    + intros k Hk. unfold h3. rewrite word_hstore, decide_False by lia. exact (Hin k Hk).
    + unfold h3. rewrite word_hstore, decide_True by lia. by rewrite Hf2, Hf.
Qed.

Lemma init_bucket_desc_ok h C :
  heap_ok h C [] →
  (∃ msg h', init_bucket_desc h = Panic msg h' ∧ ∀ i, 0 ≤ i < PAGING_PAGES → count (h_mm h') i ≠ 0) ∨
  ∃ h' b sp, init_bucket_desc h = Ok tt h' ∧ heap_ok h' C (b :: sp) ∧ bucket_dir h' = bucket_dir h ∧ pages_kept h C h'.
Proof.
  intros Hh. pose proof (hk_spare _ _ _ Hh) as Hfree. simpl in Hfree. unfold init_bucket_desc.
  destruct (fresh_page h C [] Hh) as [[Hrun Hfull]|(i & s1 & Hi & Hi0 & Hhi & Hrun & Hh1 & Hc1 & Hout & Hz)].
  { left. rewrite (bind_Ok _ _ _ _ _ Hrun). eexists _, _. by split. }
  right. rewrite (bind_Ok _ _ _ _ _ Hrun). set (h1 := h <| h_mm := s1 |>) in *.
  destruct (page_addr_props i Hi) as (_ & Hr & _). unfold LOW_MEM, PAGING_MEMORY in Hr.
  assert (truth (page_addr i) = true) as -> by (apply truth_true; lia).
  set (n := (Z.to_nat (PAGE_SIZE / 16) - 1)%nat). assert (Hn : Z.of_nat n = 255) by reflexivity. clearbody n.
  destruct (fill_desc_page_run n (page_addr i) h1) as (s3 & Hfill & Hmaps & Hw3 & Hch); [lia|lia|exact Hfree|].
  rewrite Hn in Hw3. replace (16 * (255 + 1)) with 4096 in Hw3 by lia.
  assert (Hh3 : heap_ok (h1 <| h_mm := s3 |>) C []).
  { destruct Hmaps as [HH Hm]. assert (Hc : ∀ j, count s3 j = count s1 j) by (intros j; by apply (count_same s1)).
    apply (heap_frame h1 C [] Hh1); [by apply (mm_wf_same s1 s3 (hk_mm _ _ _ Hh1))|exact HH| | |].
    - intros j _. rewrite Hc. exact (λ H, H).
    - intros j _. rewrite Hc. exact (λ H, H).
    - intros a Ha. apply Hw3. intros Hp. exact (free_page_unread h C [] Hh i a Hi Hi0 Hp Ha). }
  exists (h1 <| h_mm := s3 |> <| free_bucket_desc := page_addr i |>), (page_addr i), (run_of (page_addr i + 16) 16 n).
  split; [exact Hfill|]. split; [|split; [done|]].
  - rewrite <-(run_of_S (page_addr i) 16 n). apply (add_spare _ C i); [exact Hh3|exact Hi| | | | | |exact Hch].
    + simpl. rewrite (count_same _ _ i Hmaps). simpl. rewrite Hc1, decide_True by done. lia.
    + intros b Hb. destruct (hk_desc _ _ _ Hh b Hb) as (_ & _ & Ho). by apply Ho.
    + intros Hp. destruct (hk_page _ _ _ Hh _ Hp) as (j & Hj & Hpj & Hcj & _). unfold page_addr in Hpj.
      assert (i = j) as <- by lia. lia.
    + intros b Hb. apply elem_of_run in Hb as (k & Hk & ->). exists k. split; [lia|done].
    + apply NoDup_fmap_2; [|apply NoDup_seq]. intros k j Hkj. lia.
  - intros β a Hβ Ha. simpl.
    assert (Hnp : ¬ (page_addr i ≤ a < page_addr i + 4096)).
    { intros Hp. apply (free_page_unread h C [] Hh i a Hi Hi0 Hp). left. exists β. split; [exact Hβ|exact Ha]. }
    rewrite (Hw3 a Hnp). exact (Hout a Hnp).
Qed.

(** ** A descriptor between the lists *)

Record loose (h : heap) (C : list (list bucket)) (sp : list Z) (b : Z) : Prop := {
  lo_align : (16 | b);
  lo_range : LOW_MEM ≤ b < LOW_MEM + PAGING_MEMORY;
  lo_new : b ∉ descs C sp;
  lo_free : ∀ i, 0 ≤ i < PAGING_PAGES → count (h_mm h) i = 0 → outside (page_addr i) b;
  lo_pages : ∀ p, p ∈ pages C → outside p b
}.
Lemma loose_mono h h' C sp b :
  (∀ i, 0 ≤ i < PAGING_PAGES → count (h_mm h') i = 0 → count (h_mm h) i = 0) → loose h C sp b → loose h' C sp b.
Proof. intros Hc []. split; try done. intros i Hi Hi0. by apply lo_free0, Hc. Qed.
Lemma loose_unread h C sp b o : heap_ok h C sp → loose h C sp b → field o → ¬ reads C sp (b + o).
Proof.
  intros Hh [[k ->] _ Hn _ Hp] Ho [(β & Hβ & Ha)|(b' & o' & Hb' & Ho' & Heq)].
  - specialize (Hp (page β) (page_in C β Hβ)). unfold outside, field in *. lia.
  - destruct (hk_desc _ _ _ Hh b' Hb') as [[k' ->] _]. unfold field in *. assert (k = k') as <- by lia. done.
Qed.
Lemma heap_store h C sp a v : heap_ok h C sp → ¬ reads C sp a → heap_ok (hstore h a v) C sp.
Proof.
  intros Hh Ha. assert (Heq : hstore h a v = h <| h_mm := store (h_mm h) a v |>) by (by destruct h). rewrite Heq.
  apply (heap_frame h C sp Hh); [exact (hk_mm _ _ _ Hh)|done|done|done|].
  intros a' Ha'. rewrite word_store, decide_False; [done|]. by intros ->.
Qed.
Lemma pop_spare h C b sp :
  heap_ok h C (b :: sp) → heap_ok (h <| free_bucket_desc := word (h_mm h) (b + 4) |>) C sp ∧
    free_bucket_desc h = b ∧ b ≠ 0 ∧ loose h C sp b.
Proof.
  intros Hh. pose proof Hh as [H1 H2 H3 H4 H5 H6 H7 H8 H9 H10 H11]. simpl in H6. destruct H6 as (Hb & Hb0 & Hch).
  assert (Hperm : descs C (b :: sp) ≡ₚ b :: descs C sp) by (unfold descs; by rewrite Permutation_middle).
  assert (Hin : ∀ c, c ∈ descs C sp → c ∈ descs C (b :: sp)) by (intros c Hc; rewrite Hperm; set_solver).
  assert (Hbin : b ∈ descs C (b :: sp)) by (rewrite Hperm; set_solver).
  rewrite Hperm in H8. apply NoDup_cons in H8 as [Hnew H8]. split; [|split; [done|split; [done|]]].
  - split; simpl; try done.
    + intros c Hc. by apply H9, Hin.
    + intros p Hp. destruct (H11 p Hp) as (i & Hi & Hpi & Hc & Hhi & Hout). exists i. do 4 (split; [done|]).
      intros c Hc'. by apply Hout, Hin.
  - destruct (H9 b Hbin) as (? & ? & ?). split; try done.
    intros p Hp. destruct (H11 p Hp) as (i & _ & _ & _ & _ & Hout). by apply Hout.
Qed.

(** A bucket is put in front of its chain. *)
Lemma add_bucket h C sp i sz bs d β k :
  heap_ok h C sp → sizes !! i = Some sz → C !! i = Some bs → bucket_dir h !! i = Some d →
  bucket_ok (h_mm h) sz β → word (h_mm h) (desc β + 4) = b_chain d → loose h C sp (desc β) →
  0 ≤ k < PAGING_PAGES → page β = page_addr k → count (h_mm h) k = 1 → page β < HIGH_MEMORY (h_mm h) →
  page β ∉ pages C → (∀ b, b ∈ descs C sp → outside (page β) b) → outside (page β) (desc β) →
  heap_ok (h <| bucket_dir ::= <[i := d <| b_chain := desc β |>]> |>) (<[i := β :: bs]> C) sp.
Proof.
  intros Hh Hsz HC Hd Hβ Hnext Hlo Hk Hpk Hck Hhi Hpn Hout Hout'. pose proof Hh as [H1 H2 H3 H4 H5 H6 H7 H8 H9 H10 H11].
  destruct (split_at _ _ _ HC) as (C1 & C2 & HC12 & Hi & Hins).
  assert (Hdescs : descs (<[i := β :: bs]> C) sp ≡ₚ desc β :: descs C sp).
  { unfold descs. rewrite Hins, HC12, !mjoin_middle, !fmap_app. simpl. by rewrite <-Permutation_middle. }
  assert (Hpages : pages (<[i := β :: bs]> C) ≡ₚ page β :: pages C).
  { unfold pages. rewrite Hins, HC12, !mjoin_middle, !fmap_app. simpl. by rewrite <-Permutation_middle. }
  split; simpl; try done.
  - rewrite list_fmap_insert. etrans; [|exact H3]. apply list_insert_id. by rewrite list_lookup_fmap, Hd.
  - by rewrite length_insert.
  - intros j d' bs' Hd' HC'. apply list_lookup_insert_Some in Hd'. apply list_lookup_insert_Some in HC'.
    destruct HC' as [(<- & <- & _)|(Hne & HC')].
    + destruct Hd' as [(_ & <- & _)|(? & _)]; [|done]. simpl. split; [done|]. split.
      { pose proof (lo_range _ _ _ _ Hlo). unfold LOW_MEM in *. lia. }
      rewrite Hnext. by apply (H5 i).
    + destruct Hd' as [(? & _)|(_ & Hd')]; [done|]. by apply (H5 j).
  - intros j szj bs' γ Hszj HC' Hγ. rewrite list_lookup_insert_Some in HC'. destruct HC' as [(<- & <- & _)|(Hne & HC')].
    + apply elem_of_cons in Hγ as [->|Hγ]; [by assert (szj = sz) as -> by congruence|]. by apply (H7 i szj bs).
    + by apply (H7 j szj bs').
  - rewrite Hdescs. apply NoDup_cons. split; [apply Hlo|done].
  - intros b. rewrite Hdescs. intros [->|Hb]%elem_of_cons; [|by apply H9]. destruct Hlo. done.
  - rewrite Hpages. by apply NoDup_cons.
  - intros p. rewrite Hpages. intros [->|Hp]%elem_of_cons.
    + exists k. do 4 (split; [done|]). intros b. rewrite Hdescs. intros [->|Hb]%elem_of_cons; [done|by apply Hout].
    + destruct (H11 p Hp) as (j & Hj & Hpj & Hcj & Hhj & Hb). exists j. do 4 (split; [done|]).
      intros b. rewrite Hdescs. intros [->|Hb']%elem_of_cons; [by apply (lo_pages _ _ _ _ Hlo)|by apply Hb].
Qed.

(** ** new_bucket *)

Lemma pages_kept_trans h1 C h2 h3 : pages_kept h1 C h2 → pages_kept h2 C h3 → pages_kept h1 C h3.
Proof. intros H1 H2 β a Hβ Ha. etrans; [exact (H2 β a Hβ Ha)|exact (H1 β a Hβ Ha)]. Qed.
(** No page is left. *)
Definition exhausted (h : heap) : Prop := ∀ i, 0 ≤ i < PAGING_PAGES → count (h_mm h) i ≠ 0.

Lemma spare_desc_ok h C sp :
  heap_ok h C sp →
  (∃ msg h', spare_desc h = Panic msg h' ∧ exhausted h') ∨
  ∃ b sp' h', spare_desc h = Ok b h' ∧ heap_ok h' C sp' ∧ loose h' C sp' b ∧ bucket_dir h' = bucket_dir h ∧ pages_kept h C h'.
Proof.
  intros Hh. unfold spare_desc. rewrite (bind_Ok get _ h h h eq_refl).
  assert (Hpop : ∀ h1 b sp1, heap_ok h1 C (b :: sp1) → bucket_dir h1 = bucket_dir h → pages_kept h C h1 →
    ∃ b sp' h', (h ← get; let bdesc := free_bucket_desc h in n ← get_next bdesc;
                 modify (λ h, h <| free_bucket_desc := n |>) ;; mret bdesc) h1 = Ok b h' ∧
      heap_ok h' C sp' ∧ loose h' C sp' b ∧ bucket_dir h' = bucket_dir h ∧ pages_kept h C h').
  { intros h1 b sp1 Hh1 Hd Hk. destruct (pop_spare h1 C b sp1 Hh1) as (Hok & Hf & _ & Hlo).
    exists b, sp1, (h1 <| free_bucket_desc := word (h_mm h1) (b + 4) |>).
    rewrite (bind_Ok get _ h1 h1 h1 eq_refl), Hf. unfold get_next.
    rewrite (bind_Ok _ _ _ _ _ (zoom_ld _ _)). split; [done|]. split; [done|]. split; [by destruct Hlo|done]. }
  pose proof (hk_spare _ _ _ Hh) as Hf. destruct sp as [|b sp].
  - simpl in Hf. rewrite Hf. change (negb (truth 0)) with true. unfold when.
    destruct (init_bucket_desc_ok h C Hh) as [(msg & h' & Hrun & Hfull)|(h' & b & sp' & Hrun & Hok & Hd & Hk)].
    + left. exists msg, h'. split; [|exact Hfull]. unfold mbind, M_bind. by rewrite Hrun.
    + right. rewrite (bind_Ok _ _ _ _ _ Hrun). by apply (Hpop h' b sp').
  - right. destruct Hf as (Hb & Hb0 & _). rewrite Hb. assert (truth b = true) as -> by (by apply truth_true).
    apply (Hpop h b sp Hh); [done|]. intros β a _ _. done.
Qed.

(** [h'] is [h] with other contents of the loose descriptor [b] or of memory
    the invariant does not read. *)
Definition stage (h : heap) (C : list (list bucket)) (sp : list Z) (b : Z) (h' : heap) : Prop :=
  heap_ok h' C sp ∧ loose h' C sp b ∧ bucket_dir h' = bucket_dir h ∧ pages_kept h C h'.
Lemma stage_trans h1 C sp b h2 h3 : stage h1 C sp b h2 → stage h2 C sp b h3 → stage h1 C sp b h3.
Proof.
  intros (H1 & H2 & H3 & H4) (H5 & H6 & H7 & H8). split; [done|]. split; [done|]. split; [congruence|].
  by eapply pages_kept_trans.
Qed.
Lemma stage_store h C sp b o v : heap_ok h C sp → loose h C sp b → field o → stage h C sp b (hstore h (b + o) v).
Proof.
  intros Hh Hlo Ho. pose proof (loose_unread h C sp b o Hh Hlo Ho) as Hun. split; [by apply heap_store|].
  split; [by apply (loose_mono h)|]. split; [done|]. intros β a Hβ Ha. rewrite word_hstore, decide_False; [done|].
  intros <-. apply Hun. left. by exists β.
Qed.
Lemma set_refcnt_run b v h :
  ∃ w, set_refcnt b v h = Ok tt (hstore h (b + 12) w) ∧ Z.land (u32 w) 0xffff = u16 v.
Proof.
  eexists. unfold set_refcnt. rewrite (bind_Ok _ _ _ _ _ (zoom_ld _ _)), zoom_st. split; [done|]. apply low_half.
Qed.
Lemma set_bucket_size_run b v h :
  ∃ w, set_bucket_size b v h = Ok tt (hstore h (b + 12) w) ∧
    Z.land (u32 w) 0xffff = Z.land (word (h_mm h) (b + 12)) 0xffff.
Proof.
  eexists. unfold set_bucket_size. rewrite (bind_Ok _ _ _ _ _ (zoom_ld _ _)), zoom_st. split; [done|]. apply keep_low_half.
Qed.

(** The loose descriptor and a page with linked objects make a bucket. *)
Lemma finish_bucket h C sp i sz bs b k :
  heap_ok h C sp → sizes !! i = Some sz → C !! i = Some bs → loose h C sp b →
  0 ≤ k < PAGING_PAGES → count (h_mm h) k = 1 → page_addr k < HIGH_MEMORY (h_mm h) → page_addr k ∉ pages C →
  (∀ c, c ∈ descs C sp → outside (page_addr k) c) → outside (page_addr k) b →
  word (h_mm h) b = page_addr k → word (h_mm h) (b + 8) = page_addr k → Z.land (word (h_mm h) (b + 12)) 0xffff = 0 →
  chain_ok (h_mm h) 0 (page_addr k) (slots (page_addr k) sz) →
  ∃ h', (d ← dir_at i; set_next b (b_chain d) ;; set_chain i b ;; mret b) h = Ok b h' ∧
    heap_ok h' (<[i := mk_bucket b (page_addr k) (slots (page_addr k) sz) :: bs]> C) sp ∧ pages_kept h C h'.
Proof.
  intros Hh Hsz HC Hlo Hk Hck Hhi Hpn Hout Hout' Hw0 Hw8 Hw12 Hch.
  destruct (size_facts i sz Hsz) as (Hs1 & _ & _ & Hns).
  assert (Hlt : (i < length (bucket_dir h))%nat).
  { pose proof (f_equal length (hk_dir _ _ _ Hh)) as Hl. rewrite length_fmap in Hl. simpl in Hl.
    apply lookup_lt_Some in Hsz. simpl in Hsz. lia. }
  destruct (lookup_lt_is_Some_2 _ _ Hlt) as [d Hd].
  assert (Hdir : ∀ h1, bucket_dir h1 = bucket_dir h → dir_at i h1 = Ok d h1).
  { intros h1 Hd1. unfold dir_at. rewrite (bind_Ok get _ h1 h1 h1 eq_refl), Hd1, Hd. done. }
  destruct (stage_store h C sp b 4 (b_chain d) Hh Hlo ltac:(unfold field; tauto)) as (Hh1 & Hlo1 & Hd1 & Hk1).
  set (h1 := hstore h (b + 4) (b_chain d)) in *.
  assert (Hw : ∀ a, a ≠ b + 4 → word (h_mm h1) a = word (h_mm h) a).
  { intros a Ha. unfold h1. by rewrite word_hstore, decide_False by congruence. }
  exists (h1 <| bucket_dir ::= <[i := d <| b_chain := b |>]> |>). split; [|split; [|exact Hk1]].
  { rewrite (bind_Ok _ _ _ _ _ (Hdir h eq_refl)). unfold set_next. rewrite (bind_Ok _ _ _ _ _ (zoom_st _ _ _)). fold h1.
    unfold set_chain, mbind at 1 2, M_bind at 1 2. by rewrite (Hdir h1 Hd1). }
  assert (Hchain32 : 0 ≤ b_chain d < 4294967296).
  { pose proof (hk_chain _ _ _ Hh i d bs Hd HC) as Hc. destruct bs as [|γ bs]; simpl in Hc; [lia|].
    destruct Hc as (-> & _). destruct (hk_desc _ _ _ Hh (desc γ)) as (_ & Hr & _); [|unfold LOW_MEM, PAGING_MEMORY in *; lia].
    apply desc_in. eapply in_chain; [exact HC|]. left. }
  apply (add_bucket h1 C sp i sz bs d (mk_bucket b (page_addr k) (slots (page_addr k) sz)) k); try done.
  - split; simpl.
    + rewrite Hw by lia. exact Hw0.
    + rewrite Hw, Hw8 by lia. eapply chain_ok_ext; [|exact Hch]. intros x Hx. pose proof (slot_bounds _ _ _ _ Hsz Hx).
      apply Hw. unfold outside in Hout'. lia.
    + by apply (NoDup_slots _ i).
    + done.
    + rewrite Hw, Hw12 by lia. rewrite length_slots. lia.
  - unfold h1. simpl desc. rewrite word_hstore, decide_True by done. by apply u32_small.
Qed.

(** The last word of the descriptor: no object in use. *)
Lemma desc_word_run {A} h C sp b sz (m : M heap A) :
  heap_ok h C sp → loose h C sp b →
  ∃ h', (set_refcnt b 0 ;; set_bucket_size b sz ;; m) h = m h' ∧ stage h C sp b h' ∧
    Z.land (word (h_mm h') (b + 12)) 0xffff = 0.
Proof.
  intros Hh Hlo. destruct (set_refcnt_run b 0 h) as (w & Hrun & Hw). rewrite (bind_Ok _ _ _ _ _ Hrun).
  pose proof (stage_store h C sp b 12 w Hh Hlo ltac:(unfold field; tauto)) as H1. set (h1 := hstore h (b + 12) w) in *.
  destruct (set_bucket_size_run b sz h1) as (w' & Hrun' & Hw'). rewrite (bind_Ok _ _ _ _ _ Hrun').
  pose proof (stage_store h1 C sp b 12 w' (proj1 H1) (proj1 (proj2 H1)) ltac:(unfold field; tauto)) as H2.
  eexists. split; [done|]. split; [by eapply stage_trans|].
  rewrite word_hstore, decide_True, Hw' by done. unfold h1. by rewrite word_hstore, decide_True, Hw by done.
Qed.

(** The page that the descriptor gets, and the chain of its objects. *)
Lemma fill_page_run {A} h C sp b i sz k (m : M heap A) :
  heap_ok h C sp → loose h C sp b → sizes !! i = Some sz → 0 ≤ k < PAGING_PAGES →
  (∀ a, reads C sp a → ¬ (page_addr k ≤ a < page_addr k + 4096)) → outside (page_addr k) b →
  ∃ h', (set_freeptr b (page_addr k) ;; set_page b (page_addr k) ;;
         (if negb (truth (page_addr k)) then panic "Out of memory in kernel malloc()" else mret tt) ;;
         link_objects (Z.to_nat (PAGE_SIZE / sz) - 1) sz (page_addr k) ;; m) h = m h' ∧
    stage h C sp b h' ∧ same_maps (h_mm h) (h_mm h') ∧
    word (h_mm h') b = page_addr k ∧ word (h_mm h') (b + 8) = page_addr k ∧
    word (h_mm h') (b + 12) = word (h_mm h) (b + 12) ∧ chain_ok (h_mm h') 0 (page_addr k) (slots (page_addr k) sz).
Proof.
  intros Hh Hlo Hsz Hk Hunread Hout. destruct (size_facts i sz Hsz) as (Hs1 & Hs2 & _ & Hns).
  destruct (page_addr_props k Hk) as (_ & Hr & _). unfold LOW_MEM, PAGING_MEMORY in Hr.
  unfold set_freeptr, set_page. rewrite (bind_Ok _ _ _ _ _ (zoom_st _ _ _)).
  pose proof (stage_store h C sp b 8 (page_addr k) Hh Hlo ltac:(unfold field; tauto)) as H1.
  set (h1 := hstore h (b + 8) (page_addr k)) in *. rewrite (bind_Ok _ _ _ _ _ (zoom_st _ _ _)).
  pose proof (stage_store h1 C sp b 0 (page_addr k) (proj1 H1) (proj1 (proj2 H1)) ltac:(unfold field; tauto)) as H2.
  rewrite Z.add_0_r in H2. set (h2 := hstore h1 b (page_addr k)) in *.
  assert (truth (page_addr k) = true) as -> by (apply truth_true; lia).
  set (n := (Z.to_nat (PAGE_SIZE / sz) - 1)%nat). change PAGE_SIZE with 4096 in n.
  assert (Hn : Z.of_nat n = 4096 / sz - 1) by (unfold n; lia). clearbody n.
  destruct (link_objects_run n sz (page_addr k) h2) as (h3 & Hlink & (Hm & Hd & Hf) & Hin & Hlast & Hout3); [lia|lia|nia|].
  change (negb true) with false. cbv iota. rewrite bind_ret_l, (bind_Ok _ _ _ _ _ Hlink).
  assert (Hw : ∀ a, ¬ (page_addr k ≤ a < page_addr k + 4096) → word (h_mm h3) a = word (h_mm h2) a).
  { intros a Ha. apply Hout3. intros j Hj ->. apply Ha. nia. }
  assert (Hc : ∀ j, count (h_mm h3) j = count (h_mm h2) j) by (intros j; by rewrite (count_same _ _ _ Hm)).
  assert (H3 : stage h2 C sp b h3).
  { split; [|split; [|split; [done|]]].
    - assert (h3 = h2 <| h_mm := h_mm h3 |>) as -> by (destruct h3; unfold set; simpl in *; by rewrite Hd, Hf).
      apply (heap_frame h2 C sp (proj1 H2)); [exact (mm_wf_same _ _ (hk_mm _ _ _ (proj1 H2)) Hm)|exact (proj1 Hm)| | |].
      + intros j _. by rewrite Hc.
      + intros j _. by rewrite Hc.
      + intros a Ha. apply Hw, Hunread, Ha.
    - apply (loose_mono h2); [|apply H2]. intros j _. by rewrite Hc.
    - intros β a Hβ Ha. apply Hw, Hunread. left. by exists β. }
  exists h3. split; [done|]. split; [eapply stage_trans; [eapply stage_trans|]; [exact H1|exact H2|exact H3]|].
  split; [exact Hm|]. unfold outside in Hout.
  split; [|split; [|split]]; [rewrite Hw by lia; unfold h2; rewrite word_hstore..|].
  - rewrite decide_True by done. apply u32_small. lia.
  - rewrite decide_False by lia. unfold h1. rewrite word_hstore, decide_True by done. apply u32_small. lia.
  - rewrite decide_False by lia. unfold h1. by rewrite word_hstore, decide_False by lia.
  - assert (slots (page_addr k) sz = run_of (page_addr k) sz (S n)) as -> by (unfold slots, run_of; do 2 f_equal; lia).
    apply chain_of_run; [lia|lia|exact Hin|exact Hlast].
Qed.

Lemma new_bucket_ok h C sp i sz bs :
  heap_ok h C sp → sizes !! i = Some sz → C !! i = Some bs →
  (∃ msg h', new_bucket i sz h = Panic msg h' ∧ exhausted h') ∨
  ∃ b p sp' h', new_bucket i sz h = Ok b h' ∧
    heap_ok h' (<[i := mk_bucket b p (slots p sz) :: bs]> C) sp' ∧ pages_kept h C h'.
Proof.
  intros Hh Hsz HC. unfold new_bucket.
  destruct (spare_desc_ok h C sp Hh) as [(msg & h' & Hrun & Hfull)|(b & sp1 & h1 & Hrun & Hh1 & Hlo1 & Hd1 & Hk1)].
  { left. exists msg, h'. split; [|done]. unfold mbind, M_bind. by rewrite Hrun. }
  rewrite (bind_Ok _ _ _ _ _ Hrun). clear Hrun.
  match goal with |- context [(set_refcnt b 0 ≫= λ _, set_bucket_size b sz ≫= λ _, ?m) h1] =>
    destruct (desc_word_run h1 C sp1 b sz m Hh1 Hlo1) as (h2 & Hrun & (Hh2 & Hlo2 & Hd2 & Hk2) & Hw12) end.
  rewrite Hrun. clear Hrun.
  destruct (fresh_page h2 C sp1 Hh2) as [[Hrun Hfull]|(k & s3 & Hk & Hk0 & Hhi & Hrun & Hh3 & Hc3 & Hout3 & Hz3)].
  { left. rewrite (bind_Ok _ _ _ _ _ Hrun). unfold set_freeptr, set_page.
    rewrite (bind_Ok _ _ _ _ _ (zoom_st _ _ _)), (bind_Ok _ _ _ _ _ (zoom_st _ _ _)). eexists _, _. split; [done|]. exact Hfull. }
  right. rewrite (bind_Ok _ _ _ _ _ Hrun). clear Hrun. set (h3 := h2 <| h_mm := s3 |>) in *.
  assert (Hbp : outside (page_addr k) b) by (by apply (lo_free _ _ _ _ Hlo2)).
  assert (Hunread : ∀ a, reads C sp1 a → ¬ (page_addr k ≤ a < page_addr k + 4096)).
  { intros a Ha Hp. exact (free_page_unread h2 C sp1 Hh2 k a Hk Hk0 Hp Ha). }
  assert (Hlo3 : loose h3 C sp1 b).
  { apply (loose_mono h2); [|done]. intros j Hj. simpl. rewrite Hc3. case_decide; [lia|done]. }
  match goal with |- context [link_objects _ sz _ ≫= λ _, ?m] =>
    destruct (fill_page_run h3 C sp1 b i sz k m Hh3 Hlo3 Hsz Hk Hunread Hbp)
      as (h4 & Hrun & (Hh4 & Hlo4 & Hd4 & Hk4) & Hm4 & Hw0 & Hw8 & Hw4 & Hch) end.
  rewrite Hrun. clear Hrun.
  assert (Hc4 : ∀ j, count (h_mm h4) j = count s3 j) by (intros j; by rewrite (count_same _ _ _ Hm4)).
  destruct (finish_bucket h4 C sp1 i sz bs b k Hh4 Hsz HC Hlo4 Hk) as (h5 & Hrun & Hok & Hk5); try done.
  - rewrite Hc4, Hc3. by rewrite decide_True.
  - rewrite (proj1 Hm4). exact Hhi.
  - intros Hp. destruct (hk_page _ _ _ Hh2 _ Hp) as (j & Hj & Hpj & Hcj & _). unfold page_addr in Hpj.
    assert (k = j) as <- by lia. lia.
  - intros c Hc. destruct (hk_desc _ _ _ Hh2 c Hc) as (_ & _ & Ho). by apply Ho.
  - rewrite Hw4. simpl. rewrite Hout3 by (unfold outside in Hbp; lia). exact Hw12.
  - exists b, (page_addr k), sp1, h5. split; [exact Hrun|]. split; [exact Hok|].
    intros β a Hβ Ha. rewrite (Hk5 β a Hβ Ha), (Hk4 β a Hβ Ha). simpl. rewrite Hout3, (Hk2 β a Hβ Ha); [exact (Hk1 β a Hβ Ha)|].
    apply Hunread. left. by exists β.
Qed.
