(* ===== verification/MallocProofs.v ===== *)
(** * malloc() and free_s() *)

From stdpp Require Import base option list gmap strings.
From Stdlib Require Import ZArith Lia.
From S2P Require Import Prelude Memory MemoryFacts MemoryRefs MemoryProofs Malloc MallocFacts MallocBucket.
Local Open Scope Z_scope.

(** ** The objects in use *)

Definition live_at (sz : Z) (bs : list bucket) (y z : Z) : Prop :=
  z = sz ∧ ∃ β, β ∈ bs ∧ y ∈ slots (page β) sz ∧ y ∉ free β.
(** An object of [z] bytes at [y] has been handed out and not been freed. *)
Definition live (C : list (list bucket)) (y z : Z) : Prop :=
  ∃ i sz bs, sizes !! i = Some sz ∧ C !! i = Some bs ∧ live_at sz bs y z.

Lemma live_insert C i sz bs bs' (P : Z → Z → Prop) :
  sizes !! i = Some sz → C !! i = Some bs →
  (∀ y z, live_at sz bs' y z ↔ live_at sz bs y z ∨ P y z) →
  ∀ y z, live (<[i := bs']> C) y z ↔ live C y z ∨ P y z.
Proof.
  intros Hsz HC HP y z. unfold live. setoid_rewrite list_lookup_insert_Some. split.
  - intros (j & szj & bsj & Hj & [(<- & <- & _)|(Hne & HCj)] & Hl).
    + assert (szj = sz) as -> by congruence. apply HP in Hl as [Hl|?]; [left; by exists i, sz, bs|by right].
    + left. by exists j, szj, bsj.
  - pose proof (lookup_lt_Some _ _ _ HC). intros [(j & szj & bsj & Hj & HCj & Hl)|HPy].
    + destruct (decide (i = j)) as [<-|Hne].
      * assert (szj = sz) as -> by congruence. assert (bsj = bs) as -> by congruence.
        exists i, sz, bs'. split; [done|]. split; [by left|]. apply HP. by left.
      * exists j, szj, bsj. split; [done|]. split; [by right|done].
    + exists i, sz, bs'. split; [done|]. split; [by left|]. apply HP. by right.
Qed.

Section Live.
Context (h : heap) (C : list (list bucket)) (sp : list Z) (Hh : heap_ok h C sp).
Notation s := (h_mm h).

(** An object lies in the page of its bucket. *)
Lemma live_bucket y z : live C y z → ∃ β i, β ∈ mjoin C ∧ sizes !! i = Some z ∧ y ∈ slots (page β) z ∧ y ∉ free β ∧
  page β ≤ y ∧ y + z ≤ page β + 4096 ∧ 16 ≤ z.
Proof.
  intros (i & sz & bs & Hsz & HC & -> & β & Hβ & Hy & Hf). exists β, i. split; [by eapply in_chain|].
  pose proof (slot_bounds _ _ _ _ Hsz Hy). destruct (size_facts i sz Hsz) as [? _]. split_and!; try done; lia.
Qed.
Lemma page_unique β γ a :
  β ∈ mjoin C → γ ∈ mjoin C → page β ≤ a < page β + 4096 → page γ ≤ a < page γ + 4096 → β = γ.
Proof.
  intros Hβ Hγ Ha Ha'. apply (page_inj h C sp Hh); [done..|]. destruct (decide (page β = page γ)); [done|].
  exfalso. apply (page_sep h C sp Hh (page β) (page γ) a); [by apply page_in|by apply page_in|done..].
Qed.
Lemma class_unique β i j sz sz' bs bs' :
  C !! i = Some bs → C !! j = Some bs' → β ∈ bs → β ∈ bs' → sizes !! i = Some sz → sizes !! j = Some sz' → sz = sz'.
Proof.
  intros HC HC' Hβ Hβ' Hsz Hsz'. destruct (decide (i = j)) as [<-|Hne]; [congruence|].
  exfalso. by apply (class_other h C sp Hh i j bs bs' β β).
Qed.
Lemma live_disjoint x z y w : live C x z → live C y w → x ≠ y → x + z ≤ y ∨ y + w ≤ x.
Proof.
  intros (i & sz & bs & Hsz & HC & -> & β & Hβ & Hx & _) (j & szj & bsj & Hszj & HCj & -> & γ & Hγ & Hy & _) Hne.
  pose proof (slot_bounds _ _ _ _ Hsz Hx). pose proof (slot_bounds _ _ _ _ Hszj Hy).
  destruct (size_facts i sz Hsz) as [? _]. destruct (size_facts j szj Hszj) as [? _].
  pose proof (in_chain C i bs β HC Hβ) as Hβm. pose proof (in_chain C j bsj γ HCj Hγ) as Hγm.
  destruct (decide (page β = page γ)) as [Hp|Hp].
  - assert (β = γ) as <- by (apply (page_inj h C sp Hh); [exact Hβm|exact Hγm|done]).
    assert (sz = szj) as <- by (by apply (class_unique β i j sz szj bs bsj)).
    by apply (slots_disjoint (page β) i).
  - destruct (hk_page _ _ _ Hh (page β)) as (k & _ & Hk & _); [by apply page_in|].
    destruct (hk_page _ _ _ Hh (page γ)) as (k' & _ & Hk' & _); [by apply page_in|].
    unfold page_addr in *. assert (k < k' ∨ k' < k) by lia. lia.
Qed.
(** A free object is not in use. *)
Lemma free_not_live β x z : β ∈ mjoin C → x ∈ free β → ¬ live C x z.
Proof.
  intros Hβ Hx Hl. destruct (live_bucket x z Hl) as (γ & i & Hγ & Hsz & _ & Hf & H1 & H2 & H3).
  assert (β = γ) as <-; [|done]. apply (page_unique β γ x); [done|done|by apply (free_in_page h C sp Hh)|lia].
Qed.
Lemma live_unread_desc x z a b o : live C x z → x ≤ a < x + z → b ∈ descs C sp → field o → a ≠ b + o.
Proof.
  intros Hl Ha Hb Ho ->. destruct (live_bucket x z Hl) as (β & i & Hβ & _ & _ & _ & H1 & H2 & _).
  by apply (desc_page h C sp Hh b (page β) o (b + o) Hb (page_in C β Hβ) Ho); [lia|].
Qed.

(** ** The searches *)

Lemma pages_bound : (length (mjoin C) ≤ chain_fuel)%nat.
Proof.
  pose proof (submseteq_length (pages C) (page_addr <$> seqZ 0 PAGING_PAGES)) as Hl.
  unfold pages in Hl. rewrite !length_fmap, length_seqZ in Hl. unfold chain_fuel. apply Hl.
  apply NoDup_submseteq; [apply (hk_pages _ _ _ Hh)|]. intros p Hp. destruct (hk_page _ _ _ Hh p Hp) as (i & Hi & -> & _).
  apply list_elem_of_fmap_2, elem_of_seqZ. lia.
Qed.
Lemma bucket_chain_bound i bs : C !! i = Some bs → (length bs ≤ chain_fuel)%nat.
Proof.
  intros HC. etrans; [|apply pages_bound]. destruct (split_at _ _ _ HC) as (C1 & C2 & -> & _). rewrite mjoin_middle, !length_app. lia.
Qed.
Lemma find_room_run fuel a bs sz :
  (∀ β, β ∈ bs → bucket_ok s sz β) → (length bs ≤ fuel)%nat → chain_ok s 4 a (desc <$> bs) →
  (find_room fuel a h = Ok 0 h ∧ ∀ β, β ∈ bs → free β = []) ∨
  ∃ pre b p x fl post, bs = pre ++ mk_bucket b p (x :: fl) :: post ∧ find_room fuel a h = Ok b h ∧ b ≠ 0.
Proof.
  revert fuel a. induction bs as [|β bs IH]; intros fuel a Hbs Hf Hch; simpl in Hch.
  - left. subst a. split; [by destruct fuel|]. set_solver.
  - destruct Hch as (-> & Hb0 & Hch). destruct fuel as [|fuel]; [simpl in Hf; lia|]. cbn [find_room].
    destruct (Z.eqb_spec (desc β) 0) as [|_]; [done|]. unfold get_freeptr. rewrite (bind_Ok _ _ _ _ _ (zoom_ld _ _)).
    destruct (Hbs β) as [_ Hfree _ _ _]; [left|]. destruct β as [b p [|x fl]]; simpl in *.
    + rewrite Hfree. change (truth 0) with false. cbv iota. unfold get_next. rewrite (bind_Ok _ _ _ _ _ (zoom_ld _ _)).
      destruct (IH fuel (word s (b + 4))) as [[Hr Hall]|(pre & b' & p' & x & fl & post & -> & Hr & Hb')];
        [intros γ Hγ; apply Hbs; by right|lia|done| |].
      * left. split; [exact Hr|]. intros γ [->|Hγ]%elem_of_cons; [done|by apply Hall].
      * right. exists (mk_bucket b p [] :: pre), b', p', x, fl, post. split; [done|]. split; [exact Hr|done].
    + destruct Hfree as (-> & Hx & _). assert (truth x = true) as -> by (by apply truth_true).
      right. by exists [], b, p, x, fl, bs.
Qed.
End Live.

Lemma find_size_run len ss i l :
  b_size <$> l = ss ++ [0] → Forall (λ z, z ≠ 0) ss →
  match find_size len i l with
  | Some (j, z) => ∃ k, j = (i + k)%nat ∧ ss !! k = Some z ∧ len ≤ z ∧ ∀ k' z', (k' < k)%nat → ss !! k' = Some z' → z' < len
  | None => ∀ k z, ss !! k = Some z → z < len
  end.
Proof.
  revert i l. induction ss as [|z ss IH]; intros i l Hl Hss.
  - destruct l as [|d [|? ?]]; simplify_eq/=. rewrite H. simpl. done.
  - destruct l as [|d l]; simplify_eq/=. apply Forall_cons in Hss as [Hz Hss].
    destruct (Z.eqb_spec (b_size d) 0) as [|_]; [done|]. destruct (Z.leb_spec len (b_size d)).
    + exists 0%nat. split; [lia|]. split; [done|]. split; [done|]. lia.
    + specialize (IH (S i) l ltac:(done) Hss). destruct (find_size len (S i) l) as [[j z]|].
      * destruct IH as (k & -> & Hk & Hle & Hall). exists (S k). split; [lia|]. split; [done|]. split; [done|].
        intros [|k'] z' Hk' Hz'; [simpl in Hz'; congruence|]. apply (Hall k'); [lia|done].
      * intros [|k] z Hk; simpl in Hk; [congruence|]. by apply (IH k).
Qed.

(** ** malloc *)

Lemma NoDup_not_in_tail {A} (x : A) l : NoDup (x :: l) → x ∉ l.
Proof. by intros [? _]%NoDup_cons. Qed.

(** Taking the first free object of a bucket makes it the only new one. *)
Lemma take_live h C sp i sz pre b p x fl post :
  heap_ok h C sp → C !! i = Some (pre ++ mk_bucket b p (x :: fl) :: post) → sizes !! i = Some sz →
  ∃ h' C', take_object b h = Ok x h' ∧ heap_ok h' C' sp ∧
    (∀ y z, live C' y z ↔ live C y z ∨ y = x ∧ z = sz) ∧
    (∀ y z, live C y z → y + z ≤ x ∨ x + sz ≤ y) ∧
    (∀ y z a, live C y z → y ≤ a < y + z → word (h_mm h') a = word (h_mm h) a).
Proof.
  intros Hh HC Hsz. destruct (take_ok h C sp Hh i sz pre b p x fl post HC Hsz) as (h' & Hrun & Hok & Hw).
  set (β := mk_bucket b p (x :: fl)) in *. set (C' := <[i := _]> C) in *.
  assert (Hin : β ∈ pre ++ β :: post) by set_solver. pose proof (in_chain C i _ β HC Hin) as Hβ.
  destruct (hk_bucket _ _ _ Hh i sz _ β Hsz HC Hin) as [_ _ Hnd Hslots _]. simpl in *.
  pose proof (NoDup_not_in_tail _ _ Hnd) as Hxfl. assert (Hx : x ∈ slots p sz) by (apply Hslots; left).
  assert (Hlive : ∀ y z, live C' y z ↔ live C y z ∨ y = x ∧ z = sz).
  { apply (live_insert C i sz (pre ++ β :: post)); [done..|]. intros y z. unfold live_at.
    setoid_rewrite elem_of_app. setoid_rewrite elem_of_cons. split.
    - intros (-> & γ & [Hγ|[->|Hγ]] & Hy & Hf); simpl in *.
      + left. split; [done|]. exists γ. tauto.
      + destruct (decide (y = x)) as [->|Hne]; [by right|]. left. split; [done|]. exists β.
        split; [by right; left|]. split; [done|]. set_solver.
      + left. split; [done|]. exists γ. tauto.
    - intros [(-> & γ & [Hγ|[->|Hγ]] & Hy & Hf)|[-> ->]].
      + split; [done|]. exists γ. tauto.
      + split; [done|]. exists (mk_bucket b p fl). split; [by right; left|]. split; [done|]. simpl in *. set_solver.
      + split; [done|]. exists γ. tauto.
      + split; [done|]. exists (mk_bucket b p fl). split; [by right; left|]. done. }
  exists h', C'. split; [done|]. split; [done|]. split; [done|]. split.
  - intros y z Hl. apply (live_disjoint h' C' sp Hok); [apply Hlive; by left|apply Hlive; by right|].
    intros ->. apply (free_not_live h C sp Hh β x z Hβ); [left|done].
  - intros y z a Hl Ha. pose proof (desc_in C sp β Hβ) as Hd.
    apply Hw; apply (live_unread_desc h C sp Hh y z a b _ Hl Ha Hd); unfold field; tauto.
Qed.
(** A new bucket has no object in use. *)
Lemma new_live C i sz bs b p :
  sizes !! i = Some sz → C !! i = Some bs →
  ∀ y z, live (<[i := mk_bucket b p (slots p sz) :: bs]> C) y z ↔ live C y z.
Proof.
  intros Hsz HC y z. rewrite (live_insert C i sz bs _ (λ _ _, False) Hsz HC); [tauto|]. clear y z.
  intros y z. unfold live_at. setoid_rewrite elem_of_cons. split.
  - intros (-> & γ & [->|Hγ] & Hy & Hf); [done|]. left. split; [done|]. by exists γ.
  - intros [(-> & γ & Hγ & Hy & Hf)|[]]. split; [done|]. exists γ. tauto.
Qed.
Lemma slots_cons p i sz : sizes !! i = Some sz → ∃ x fl, slots p sz = x :: fl.
Proof.
  intros Hsz. destruct (size_facts i sz Hsz) as (_ & _ & _ & Hn). pose proof (length_slots p sz) as Hl.
  destruct (slots p sz) as [|x fl]; [simpl in Hl; lia|by exists x, fl].
Qed.

(** C13: malloc().  A request of more than a page panics.  Any other either
    panics because no page of memory is left, or returns an object of the
    smallest size that is large enough: it overlaps no object in use, becomes
    the only new one, and no byte of the others changes; the allocator's state
    stays well-formed. *)
Theorem malloc_correct (h : heap) (C : list (list bucket)) (sp : list Z) (len : Z) (Hh : heap_ok h C sp) :
  if decide (4096 < len) then malloc len h = Panic "malloc: bad arg" h else
  (∃ msg h', malloc len h = Panic msg h' ∧ exhausted h') ∨
  ∃ p sz h' C' sp', malloc len h = Ok p h' ∧ heap_ok h' C' sp' ∧
    (sz ∈ sizes ∧ len ≤ sz ∧ ∀ z, z ∈ sizes → len ≤ z → sz ≤ z) ∧
    (∀ y z, live C' y z ↔ live C y z ∨ y = p ∧ z = sz) ∧
    (∀ y z, live C y z → y + z ≤ p ∨ p + sz ≤ y) ∧
    (∀ y z a, live C y z → y ≤ a < y + z → word (h_mm h') a = word (h_mm h) a).
Proof.
  unfold malloc. rewrite (bind_Ok get _ h h h eq_refl).
  pose proof (find_size_run len sizes 0 (bucket_dir h) (hk_dir _ _ _ Hh)) as Hfind.
  specialize (Hfind ltac:(by repeat constructor)).
  destruct (find_size len 0 (bucket_dir h)) as [[i sz]|].
  2:{ pose proof (Hfind 8%nat 4096 eq_refl). by rewrite decide_True by lia. }
  destruct Hfind as (k & Hk & Hsz & Hlen & Hmin). simpl in Hk. subst k.
  destruct (size_facts i sz Hsz) as [Hsb _]. rewrite decide_False by lia.
  assert (Hsel : sz ∈ sizes ∧ len ≤ sz ∧ ∀ z, z ∈ sizes → len ≤ z → sz ≤ z).
  { split; [by eapply list_elem_of_lookup_2|]. split; [done|]. intros z (j & Hj)%list_elem_of_lookup Hz.
    destruct (decide (j < i)%nat) as [Hji|Hji]; [specialize (Hmin j z Hji Hj); lia|].
    clear -Hsz Hj Hji. do 9 (destruct i as [|i]; [injection Hsz as <-; do 9 (destruct j as [|j]; [injection Hj as <-; lia|]); done|]). done. }
  pose proof (lookup_lt_Some _ _ _ Hsz) as Hlt. change (length sizes) with 9%nat in Hlt.
  destruct (lookup_lt_is_Some_2 C i) as [bs HC]; [by rewrite (hk_length _ _ _ Hh)|].
  destruct (lookup_lt_is_Some_2 (bucket_dir h) i) as [d Hd].
  { pose proof (f_equal length (hk_dir _ _ _ Hh)) as Hl. rewrite length_fmap in Hl. simpl in Hl. lia. }
  assert (Hdir : dir_at i h = Ok d h) by (unfold dir_at; by rewrite (bind_Ok get _ h h h eq_refl), Hd).
  rewrite (bind_Ok _ _ _ _ _ Hdir).
  destruct (find_room_run h C sp Hh chain_fuel (b_chain d) bs sz) as [[Hr _]|(pre & b & p & x & fl & post & -> & Hr & Hb)];
    [intros β Hβ; by apply (hk_bucket _ _ _ Hh i sz bs)|by apply (bucket_chain_bound h C sp Hh i)|by apply (hk_chain _ _ _ Hh i)| |];
    rewrite (bind_Ok _ _ _ _ _ Hr).
  - change (0 =? 0) with true. cbv iota.
    destruct (new_bucket_ok h C sp i sz bs Hh Hsz HC) as [(msg & h1 & Hrun & Hex)|(b & p & sp1 & h1 & Hrun & Hok & Hkept)].
    { left. exists msg, h1. split; [|done]. unfold mbind, M_bind. by rewrite Hrun. }
    right. rewrite (bind_Ok _ _ _ _ _ Hrun). pose proof (new_live C i sz bs b p Hsz HC) as Hnew.
    destruct (slots_cons p i sz Hsz) as (x & fl & Hs). rewrite Hs in Hok, Hnew.
    destruct (take_live h1 _ sp1 i sz [] b p x fl bs Hok) as (h' & C' & Htake & Hok' & Hlive & Hdis & Hw).
    { apply list_lookup_insert_eq. rewrite (hk_length _ _ _ Hh). lia. }
    { done. }
    exists x, sz, h', C', sp1. split; [exact Htake|]. split; [done|]. split; [done|]. split; [|split].
    + intros y z. rewrite Hlive, Hnew. done.
    + intros y z Hl. apply Hdis, Hnew, Hl.
    + intros y z a Hl Ha. etrans; [apply (Hw y z a); [by apply Hnew|done]|].
      destruct (live_bucket C y z Hl) as (γ & j & Hγ & _ & _ & _ & ? & ? & _). apply (Hkept γ); [done|lia].
  - right. destruct (Z.eqb_spec b 0) as [|_]; [done|]. rewrite bind_ret_l.
    destruct (take_live h C sp i sz pre b p x fl post Hh HC Hsz) as (h' & C' & Htake & Hok' & Hlive & Hdis & Hw).
    exists x, sz, h', C', sp. done.
Qed.

(** ** Releasing a bucket *)

(** The descriptor before the one after [pre], 0 at the start of the chain. *)
Definition prev_of (pre : list bucket) : Z := default 0 (last (desc <$> pre)).
Lemma prev_of_snoc pre β : prev_of (pre ++ [β]) = desc β.
Proof. unfold prev_of. rewrite fmap_app. simpl. by rewrite last_snoc. Qed.

Lemma chain_ok_app s off a l k : chain_ok s off a (l ++ k) → ∃ a', chain_ok s off a' k ∧
  (a' = match last l with Some q => word s (q + off) | None => a end).
Proof.
  revert a. induction l as [|b l IH]; intros a Hch; simpl in Hch; [by exists a|].
  destruct Hch as (_ & _ & Hch). destruct (IH _ Hch) as (a' & Hk & Ha'). exists a'. split; [done|].
  rewrite last_cons. destruct (last l); done.
Qed.
(** Cutting [b] out of a chain. *)
Lemma bucket_chain_cut s s' off a l b k :
  chain_ok s off a (l ++ b :: k) → NoDup (l ++ b :: k) →
  (∀ c, c ∈ l ++ k → last l ≠ Some c → word s' (c + off) = word s (c + off)) →
  (∀ q, last l = Some q → word s' (q + off) = word s (b + off)) →
  chain_ok s' off (match l with [] => word s (b + off) | _ => a end) (l ++ k).
Proof.
  intros Hch Hnd Hw Hq. destruct l as [|c l]; simpl in *.
  { destruct Hch as (_ & _ & Hch). eapply chain_ok_ext; [|exact Hch]. intros d Hd. by apply Hw. }
  revert a c Hch Hnd Hw Hq. induction l as [|c' l IH]; intros a c Hch Hnd Hw Hq; simpl in *.
  - destruct Hch as (-> & Hc0 & _ & Hb0 & Hch). split; [done|]. split; [done|]. rewrite (Hq c eq_refl).
    eapply chain_ok_ext; [|exact Hch]. intros d Hd. apply Hw; [set_solver|]. intros [= ->]. apply NoDup_cons in Hnd as [Hn _]. apply Hn. set_solver.
  - destruct Hch as (-> & Hc0 & Hch). split; [done|]. split; [done|].
    apply NoDup_cons in Hnd as [Hcn Hnd]. rewrite Hw; [|set_solver|].
    + apply (IH (word s (c + off)) c'); [exact Hch|exact Hnd| |exact Hq].
      intros d Hd Hl. apply Hw; [set_solver|exact Hl].
    + intros Hl. apply Hcn. apply last_Some_elem_of in Hl. set_solver.
Qed.

Section Cut.
Context (h : heap) (C : list (list bucket)) (sp : list Z) (Hh : heap_ok h C sp).
Notation s := (h_mm h).
Context (i : nat) (pre : list bucket) (β : bucket) (post : list bucket) (d : bucket_dir_struct) (k : Z) (s' : mm).
Context (HC : C !! i = Some (pre ++ β :: post)) (Hd : bucket_dir h !! i = Some d) (Hk : page β = page_addr k).
Context (Hkr : 0 ≤ k < PAGING_PAGES) (Hhi : page β < HIGH_MEMORY s).
Context (Hwf : mm_wf s') (HH : HIGH_MEMORY s' = HIGH_MEMORY s).
Context (Hcount : ∀ j, count s' j = if decide (k = j) then 0 else count s j).
Context (Hw : ∀ a, a ≠ desc β + 4 → (pre ≠ [] → a ≠ prev_of pre + 4) → word s' a = word s a).
Context (Hprev : pre ≠ [] → word s' (prev_of pre + 4) = word s (desc β + 4)).
Context (Hnext : word s' (desc β + 4) = free_bucket_desc h).

Definition cut_dir : list bucket_dir_struct :=
  <[i := d <| b_chain := match pre with [] => word s (desc β + 4) | _ => b_chain d end |>]> (bucket_dir h).
Notation C' := (<[i := pre ++ post]> C).

Lemma cut_in : β ∈ mjoin C.
Proof. eapply in_chain; [exact HC|]. set_solver. Qed.
Lemma cut_descs : descs C' (desc β :: sp) ≡ₚ descs C sp.
Proof.
  destruct (split_at _ _ _ HC) as (C1 & C2 & HC12 & _ & Hins). unfold descs.
  rewrite Hins, HC12, !mjoin_middle, !fmap_app. simpl. solve_Permutation.
Qed.
Lemma cut_pages : page β :: pages C' ≡ₚ pages C.
Proof.
  destruct (split_at _ _ _ HC) as (C1 & C2 & HC12 & _ & Hins). unfold pages.
  rewrite Hins, HC12, !mjoin_middle, !fmap_app. simpl. solve_Permutation.
Qed.
(** The last bucket before the cut. *)
Lemma cut_prev : pre ≠ [] → ∃ γ, γ ∈ pre ∧ last pre = Some γ ∧ prev_of pre = desc γ.
Proof.
  intros Hp. destruct (last pre) as [γ|] eqn:Hl; [|by apply last_None in Hl].
  exists γ. split; [by apply last_Some_elem_of|]. split; [done|]. unfold prev_of. by rewrite fmap_last, Hl.
Qed.
Lemma cut_word b o : b ∈ descs C sp → field o → o ≠ 4 → word s' (b + o) = word s (b + o).
Proof.
  intros Hb Ho Ho4. apply Hw.
  - destruct (decide (b = desc β)) as [->|]; [lia|]. apply (desc_sep h C sp Hh); [done|by apply desc_in, cut_in|done|done|unfold field; tauto].
  - intros Hp. destruct (cut_prev Hp) as (γ & Hγ & _ & ->).
    destruct (decide (b = desc γ)) as [->|]; [lia|].
    apply (desc_sep h C sp Hh); [done| |done|done|unfold field; tauto].
    apply desc_in. eapply in_chain; [exact HC|]. set_solver.
Qed.
Lemma cut_next b : b ∈ descs C sp → b ≠ desc β → (pre ≠ [] → b ≠ prev_of pre) → word s' (b + 4) = word s (b + 4).
Proof. intros Hb Hne Hp. apply Hw; [lia|]. intros Hpre. specialize (Hp Hpre). lia. Qed.
Lemma cut_object γ x : γ ∈ mjoin C → page γ ≤ x < page γ + 4096 → word s' x = word s x.
Proof.
  intros Hγ Hx. apply Hw.
  - intros ->. by apply (desc_page h C sp Hh (desc β) (page γ) 4 _ (desc_in _ _ _ cut_in) (page_in _ _ Hγ) ltac:(unfold field; tauto) Hx).
  - intros Hp. destruct (cut_prev Hp) as (δ & Hδ & _ & ->). intros ->.
    assert (Hin : δ ∈ mjoin C) by (eapply in_chain; [exact HC|]; set_solver).
    by apply (desc_page h C sp Hh (desc δ) (page γ) 4 _ (desc_in _ _ _ Hin) (page_in _ _ Hγ) ltac:(unfold field; tauto) Hx).
Qed.
(** The links of the chain that stay. *)
Lemma cut_link :
  NoDup ((desc <$> pre) ++ desc β :: (desc <$> post)) →
  ∀ c, c ∈ (desc <$> pre) ++ (desc <$> post) → last (desc <$> pre) ≠ Some c → word s' (c + 4) = word s (c + 4).
Proof.
  intros Hnd c Hc Hl. apply NoDup_app in Hnd as (_ & Hdis & Hn2). apply NoDup_cons in Hn2 as [Hn2 _].
  apply cut_next.
  - apply elem_of_app in Hc as [(γ & -> & Hγ)%list_elem_of_fmap|(γ & -> & Hγ)%list_elem_of_fmap];
      apply desc_in; (eapply in_chain; [exact HC|]); set_solver.
  - intros ->. apply elem_of_app in Hc as [Hc|Hc]; [|done]. apply (Hdis _ Hc). left.
  - intros Hp Heq. destruct (cut_prev Hp) as (γ & _ & Hγ & Hpo). apply Hl. rewrite fmap_last, Hγ. simpl. congruence.
Qed.
Lemma cut_chain j d' bs :
  cut_dir !! j = Some d' → C' !! j = Some bs → chain_ok s' 4 (b_chain d') (desc <$> bs).
Proof.
  intros Hd' Hbs. unfold cut_dir in Hd'. apply list_lookup_insert_Some in Hd'. apply list_lookup_insert_Some in Hbs.
  destruct Hbs as [(<- & <- & _)|(Hne & Hbs)].
  - destruct Hd' as [(_ & <- & _)|(? & _)]; [|done]. simpl.
    pose proof (hk_chain _ _ _ Hh i d _ Hd HC) as Hch. pose proof (chain_nodup h C sp Hh i _ HC) as Hnd.
    rewrite fmap_app in *. simpl in Hch, Hnd.
    assert (Hcut := bucket_chain_cut s s' 4 (b_chain d) (desc <$> pre) (desc β) (desc <$> post) Hch Hnd).
    assert (Hmatch : match desc <$> pre with [] => word s (desc β + 4) | _ => b_chain d end =
      match pre with [] => word s (desc β + 4) | _ => b_chain d end) by (by destruct pre).
    rewrite <-Hmatch. apply Hcut; [exact (cut_link Hnd)|]. intros q Hq.
    assert (Hp : pre ≠ []) by (intros Hp; by rewrite Hp in Hq).
    rewrite <-(Hprev Hp). unfold prev_of. by rewrite Hq.
  - destruct Hd' as [(? & _)|(_ & Hd')]; [done|]. pose proof (hk_chain _ _ _ Hh j d' bs Hd' Hbs) as Hch.
    eapply chain_ok_ext; [|exact Hch]. intros c (γ & -> & Hγ)%list_elem_of_fmap.
    pose proof (in_chain _ _ _ _ Hbs Hγ) as Hγm. apply cut_next; [by apply desc_in| |].
    + intros Heq. apply (desc_inj h C sp Hh γ β Hγm cut_in) in Heq.
      apply (class_other h C sp Hh i j _ _ β γ HC Hbs Hne); [set_solver|done|done].
    + intros Hp Heq. destruct (cut_prev Hp) as (δ & Hδ & _ & Hδp). rewrite Hδp in Heq.
      apply (desc_inj h C sp Hh γ δ Hγm) in Heq; [|eapply in_chain; [exact HC|]; set_solver].
      apply (class_other h C sp Hh i j _ _ δ γ HC Hbs Hne); [set_solver|done|done].
Qed.
Lemma cut_sub j bs : C' !! j = Some bs → ∃ bs0, C !! j = Some bs0 ∧ ∀ γ, γ ∈ bs → γ ∈ bs0 ∧ γ ≠ β.
Proof.
  intros Hbs. apply list_lookup_insert_Some in Hbs as [(<- & <- & _)|(Hne & Hbs)].
  - exists (pre ++ β :: post). split; [done|]. intros γ Hγ. split; [set_solver|].
    apply (chain_other h C sp Hh i pre β post); [done|]. by apply elem_of_app.
  - exists bs. split; [done|]. intros γ Hγ. split; [done|].
    apply (class_other h C sp Hh i j _ _ β γ HC Hbs Hne); [set_solver|done].
Qed.

(** The state after the cut: the descriptor is free, its page too. *)
Lemma cut_ok : heap_ok (mk_heap s' cut_dir (desc β)) C' (desc β :: sp).
Proof.
  pose proof Hh as [H1 H2 H3 H4 H5 H6 H7 H8 H9 H10 H11].
  pose proof (desc_in C sp β cut_in) as Hβd. pose proof (page_in C β cut_in) as Hβp.
  assert (Hnp : page β ∉ pages C' ∧ NoDup (pages C')) by (apply NoDup_cons; by rewrite cut_pages).
  assert (Hpin : ∀ p, p ∈ pages C' → p ∈ pages C) by (intros p Hp; rewrite <-cut_pages; by right).
  split; simpl; try done.
  - intros j Hj Hhj. rewrite Hcount. case_decide as Hkj; [|apply H2; [done|congruence]].
    subst j. rewrite HH, <-Hk in Hhj. lia.
  - unfold cut_dir. rewrite list_fmap_insert. etrans; [|exact H3]. apply list_insert_id. by rewrite list_lookup_fmap, Hd.
  - by rewrite length_insert.
  - exact cut_chain.
  - split; [done|]. split; [destruct (H9 _ Hβd) as (_ & Hr & _); unfold LOW_MEM in Hr; lia|].
    rewrite Hnext. eapply chain_ok_ext; [|exact H6]. intros b Hb.
    apply NoDup_app in H8 as (_ & Hdis & _). apply cut_next; [by apply elem_of_app; right| |].
    + intros ->. apply (Hdis (desc β)); [by apply list_elem_of_fmap_2, cut_in|done].
    + intros Hp ->. destruct (cut_prev Hp) as (γ & Hγ & _ & Heq). apply (Hdis (prev_of pre)); [|done]. rewrite Heq.
      apply list_elem_of_fmap_2. eapply in_chain; [exact HC|]. set_solver.
  - intros j szj bs γ Hszj HCj Hγ. destruct (cut_sub j bs HCj) as (bs0 & HC0 & Hsub). destruct (Hsub γ Hγ) as [Hγ0 _].
    pose proof (in_chain C j bs0 γ HC0 Hγ0) as Hin. apply (bucket_ok_ext s); [|
      |exact (H7 j szj bs0 γ Hszj HC0 Hγ0)].
    + intros o Ho. apply cut_word; [by apply desc_in|unfold field; lia|lia].
    + intros x Hx. apply (cut_object γ); [done|by apply (free_in_page h C sp Hh)].
  - by rewrite cut_descs.
  - intros b. rewrite cut_descs. intros Hb. destruct (H9 b Hb) as (Hal & Hr & Ho). split; [done|]. split; [done|].
    intros j Hj. rewrite Hcount. case_decide as Hkj; [|by apply Ho]. intros _. subst j.
    destruct (H11 _ Hβp) as (k' & _ & _ & _ & _ & Hout). rewrite <-Hk. by apply Hout.
  - apply Hnp.
  - intros p Hp. destruct (H11 p (Hpin p Hp)) as (j & Hj & Hpj & Hcj & Hhj & Hout). exists j. split; [done|]. split; [done|].
    split; [|split; [congruence|intros b; rewrite cut_descs; apply Hout]]. rewrite Hcount. case_decide as Hkj; [|done].
    subst j. destruct Hnp as [Hnp _]. rewrite Hk, <-Hpj in Hnp. done.
Qed.
End Cut.


Lemma free_desc_bound h C sp : heap_ok h C sp → 0 ≤ free_bucket_desc h < 4294967296.
Proof.
  intros Hh. pose proof (hk_spare _ _ _ Hh) as Hf. destruct sp as [|b sp]; simpl in Hf; [lia|]. destruct Hf as (-> & _).
  destruct (hk_desc _ _ _ Hh b) as (_ & Hr & _); [apply elem_of_app; right; left|]. unfold LOW_MEM, PAGING_MEMORY in *. lia.
Qed.

(** The second half of [release_bucket]: the page and the descriptor. *)
Lemma give_back_run b k h :
  mm_wf (h_mm h) → 0 ≤ k < PAGING_PAGES → word (h_mm h) b = page_addr k → count (h_mm h) k = 1 →
  page_addr k < HIGH_MEMORY (h_mm h) → 0 ≤ free_bucket_desc h < 4294967296 →
  ∃ s', (p ← get_page b; zoom h_mm (free_page p) ;; h ← get; set_next b (free_bucket_desc h) ;;
         modify (λ h, h <| free_bucket_desc := b |>)) h = Ok tt (mk_heap s' (bucket_dir h) b) ∧
    mm_wf s' ∧ HIGH_MEMORY s' = HIGH_MEMORY (h_mm h) ∧
    (∀ j, count s' j = if decide (k = j) then 0 else count (h_mm h) j) ∧
    (∀ a, a ≠ b + 4 → word s' a = word (h_mm h) a) ∧ word s' (b + 4) = free_bucket_desc h.
Proof.
  intros Hwf Hk Hp Hc Hhi Hf. pose proof (MAP_NR_page_addr k ltac:(lia)) as Hnr. destruct (page_addr_props k Hk) as (_ & Hr & _).
  set (s1 := set_count (h_mm h) k 0). exists (store s1 (b + 4) (free_bucket_desc h)).
  assert (Hfree : zoom h_mm (free_page (page_addr k)) h = Ok tt (h <| h_mm := s1 |>)).
  { unfold zoom. rewrite free_page_used; [|done|unfold LOW_MEM in *; lia|rewrite Hnr, Hc; lia]. by rewrite Hnr, Hc. }
  assert (Hs1 : mm_wf s1) by (apply mm_wf_insert; [done|lia]). split; [|split; [|split; [|split; [|split]]]].
  - unfold get_page. rewrite (bind_Ok _ _ _ _ _ (zoom_ld _ _)), Hp, (bind_Ok _ _ _ _ _ Hfree).
    set (h1 := h <| h_mm := s1 |>). rewrite (bind_Ok get _ h1 h1 h1 eq_refl). unfold set_next.
    by rewrite (bind_Ok _ _ _ _ _ (zoom_st _ _ _)).
  - exact Hs1.
  - done.
  - intros j. change (count s1 j = if decide (k = j) then 0 else count (h_mm h) j). by apply count_insert.
  - intros a Ha. rewrite word_store, decide_False by congruence. done.
  - rewrite word_store, decide_True by done. by apply u32_small.
Qed.

(** The first half: the descriptor leaves its chain. *)
Lemma unlink_run h C sp i pre β post d :
  heap_ok h C sp → C !! i = Some (pre ++ β :: post) → bucket_dir h !! i = Some d →
  ∃ h1, release_bucket i (desc β) (prev_of pre) h =
      (p ← get_page (desc β); zoom h_mm (free_page p) ;; h ← get; set_next (desc β) (free_bucket_desc h) ;;
       modify (λ h, h <| free_bucket_desc := desc β |>)) h1 ∧
    same_maps (h_mm h) (h_mm h1) ∧ bucket_dir h1 = cut_dir h i pre β d ∧ free_bucket_desc h1 = free_bucket_desc h ∧
    (∀ a, (pre ≠ [] → a ≠ prev_of pre + 4) → word (h_mm h1) a = word (h_mm h) a) ∧
    (pre ≠ [] → word (h_mm h1) (prev_of pre + 4) = word (h_mm h) (desc β + 4)).
Proof.
  intros Hh HC Hd. pose proof (hk_chain _ _ _ Hh i d _ Hd HC) as Hch. rewrite fmap_app in Hch. simpl in Hch.
  destruct (chain_ok_app _ _ _ _ _ Hch) as (a' & (Ha' & Hb0 & _) & Hat). subst a'.
  assert (Hdir : dir_at i h = Ok d h) by (unfold dir_at; by rewrite (bind_Ok get _ h h h eq_refl), Hd).
  assert (Hdir' : ∀ h1, bucket_dir h1 = bucket_dir h → dir_at i h1 = Ok d h1).
  { intros h1 Hd1. unfold dir_at. by rewrite (bind_Ok get _ h1 h1 h1 eq_refl), Hd1, Hd. }
  unfold release_bucket. rewrite (bind_Ok _ _ _ _ _ Hdir). unfold prev_of in *.
  destruct (last (desc <$> pre)) as [q|] eqn:Hl; simpl.
  - assert (Hq0 : q ≠ 0).
    { rewrite fmap_last in Hl. destruct (last pre) as [γ|] eqn:Hlp; simplify_eq/=. apply last_Some_elem_of in Hlp.
      destruct (hk_desc _ _ _ Hh (desc γ)) as (_ & Hr & _); [|unfold LOW_MEM in Hr; lia].
      apply desc_in. eapply in_chain; [exact HC|]. set_solver. }
    assert (Hpre : pre ≠ []) by (intros ->; done). set (h1 := hstore h (q + 4) (word (h_mm h) (desc β + 4))).
    exists h1. assert (Htq : truth q = true) by (by apply truth_true). rewrite Htq. unfold get_next, set_next.
    rewrite !bind_assoc, (bind_Ok _ _ _ _ _ (zoom_ld _ _)), bind_ret_l, <-Hat, Z.eqb_refl. cbn [negb].
    rewrite bind_ret_l, (bind_Ok _ _ _ _ _ (zoom_ld _ _)), Htq, (bind_Ok _ _ _ _ _ (zoom_st _ _ _)). fold h1.
    split; [done|]. split; [done|]. split; [|split; [done|split]].
    + unfold cut_dir. destruct pre; [done|]. symmetry. apply list_insert_id. etrans; [exact Hd|]. by destruct d.
    + intros a Ha. unfold h1. rewrite word_hstore, decide_False; [done|]. intros <-. by apply Ha.
    + intros _. unfold h1. by rewrite word_hstore, decide_True, u32_word.
  - assert (pre = []) as ->. { rewrite fmap_last in Hl. apply last_None. by destruct (last pre). }
    exists (h <| bucket_dir ::= <[i := d <| b_chain := word (h_mm h) (desc β + 4) |>]> |>).
    change (truth 0) with false. cbv iota. rewrite bind_ret_l, <-Hat, Z.eqb_refl. cbn [negb].
    rewrite bind_ret_l. unfold get_next. rewrite (bind_Ok _ _ _ _ _ (zoom_ld _ _)).
    change (truth 0) with false. cbv iota. rewrite bind_assoc, bind_ret_l.
    unfold set_chain. rewrite bind_assoc, (bind_Ok _ _ _ _ _ Hdir). done.
Qed.

Lemma release_bucket_run h C sp i sz pre β post :
  heap_ok h C sp → sizes !! i = Some sz → C !! i = Some (pre ++ β :: post) →
  ∃ h', release_bucket i (desc β) (prev_of pre) h = Ok tt h' ∧
    heap_ok h' (<[i := pre ++ post]> C) (desc β :: sp) ∧ count (h_mm h') (MAP_NR (page β)) = 0 ∧
    (∀ a, a ≠ desc β + 4 → (pre ≠ [] → a ≠ prev_of pre + 4) → word (h_mm h') a = word (h_mm h) a).
Proof.
  intros Hh Hsz HC. assert (Hβ : β ∈ mjoin C) by (eapply in_chain; [exact HC|]; set_solver).
  destruct (lookup_lt_is_Some_2 (bucket_dir h) i) as [d Hd].
  { pose proof (f_equal length (hk_dir _ _ _ Hh)) as Hl. rewrite length_fmap in Hl. simpl in Hl.
    apply lookup_lt_Some in Hsz. simpl in Hsz. lia. }
  destruct (hk_page _ _ _ Hh _ (page_in C β Hβ)) as (k & Hk & Hpk & Hck & Hhi & _).
  destruct (hk_bucket _ _ _ Hh i sz _ β Hsz HC) as [Hpg _ _ _ _]; [set_solver|].
  destruct (unlink_run h C sp i pre β post d Hh HC Hd) as (h1 & Hrun & Hsame & Hdir & Hf & Hw & Hwp). rewrite Hrun. clear Hrun.
  assert (Hoff : ∀ o, field o → o ≠ 4 → pre ≠ [] → desc β + o ≠ prev_of pre + 4).
  { intros o Ho Ho4 Hp. destruct (cut_prev pre Hp) as (γ & Hγ & _ & ->). assert (Hne : γ ≠ β).
    { apply (chain_other h C sp Hh i pre β post); [done|by left]. }
    assert (Hin : γ ∈ mjoin C) by (eapply in_chain; [exact HC|]; set_solver).
    apply (desc_sep h C sp Hh); [by apply desc_in|by apply desc_in| |done|unfold field; tauto].
    intros Heq. by apply Hne, (desc_inj h C sp Hh). }
  destruct (give_back_run (desc β) k h1) as (s' & Hrun & Hwf & HH & Hcount & Hws & Hwf4).
  - apply (mm_wf_same _ _ (hk_mm _ _ _ Hh) Hsame).
  - exact Hk.
  - rewrite <-(Z.add_0_r (desc β)), Hw, Z.add_0_r; [congruence|]. apply Hoff; [unfold field; tauto|lia].
  - by rewrite (count_same _ _ _ Hsame).
  - rewrite (proj1 Hsame). congruence.
  - rewrite Hf. by apply (free_desc_bound h C sp).
  - exists (mk_heap s' (bucket_dir h1) (desc β)). split; [exact Hrun|]. rewrite Hdir. split; [|split].
    + apply (cut_ok h C sp Hh i pre β post d k); try done.
      * rewrite HH. apply Hsame.
      * intros j. rewrite Hcount. by rewrite (count_same _ _ _ Hsame).
      * intros a Ha Hap. rewrite Hws by done. by apply Hw.
      * intros Hp. rewrite Hws; [by apply Hwp|]. destruct (cut_prev pre Hp) as (γ & Hγ & _ & ->).
        intros Heq. apply (chain_other h C sp Hh i pre β post γ HC); [by left|].
        apply (desc_inj h C sp Hh); [|done|lia]. eapply in_chain; [exact HC|]. set_solver.
      * congruence.
    + simpl. rewrite Hpk, MAP_NR_page_addr by lia. by rewrite Hcount, decide_True.
    + intros a Ha Hap. simpl. rewrite Hws by done. by apply Hw.
Qed.

(** ** Finding the bucket of an object *)

Lemma find_page_run fuel pg a prev bs h :
  (∀ β, β ∈ bs → word (h_mm h) (desc β) = page β) → (length bs ≤ fuel)%nat → chain_ok (h_mm h) 4 a (desc <$> bs) →
  (find_page fuel pg a prev h = Ok None h ∧ ∀ β, β ∈ bs → page β ≠ pg) ∨
  ∃ pre β post, bs = pre ++ β :: post ∧ page β = pg ∧
    find_page fuel pg a prev h = Ok (Some (desc β, default prev (last (desc <$> pre)))) h.
Proof.
  revert fuel a prev. induction bs as [|β bs IH]; intros fuel a prev Hbs Hf Hch; simpl in Hch.
  - left. subst a. split; [by destruct fuel|]. set_solver.
  - destruct Hch as (-> & Hb0 & Hch). destruct fuel as [|fuel]; [simpl in Hf; lia|]. cbn [find_page].
    destruct (Z.eqb_spec (desc β) 0) as [|_]; [done|]. unfold get_page.
    rewrite (bind_Ok _ _ _ _ _ (zoom_ld _ _)), Hbs by left. destruct (Z.eqb_spec (page β) pg) as [Hp|Hp].
    + right. exists [], β, bs. done.
    + unfold get_next. rewrite (bind_Ok _ _ _ _ _ (zoom_ld _ _)).
      destruct (IH fuel (word (h_mm h) (desc β + 4)) (desc β)) as [[Hr Hall]|(pre & γ & post & -> & Hpg & Hr)];
        [intros γ Hγ; apply Hbs; by right|simpl in Hf; lia|done| |].
      * left. split; [exact Hr|]. by intros γ [->|Hγ]%elem_of_cons; [|apply Hall].
      * right. exists (β :: pre), γ, post. split; [done|]. split; [done|]. rewrite Hr, fmap_cons, last_cons.
        by destruct (last (desc <$> pre)).
Qed.

Lemma find_bucket_run h C sp pg size l i :
  heap_ok h C sp → l = drop i (bucket_dir h) →
  (find_bucket pg size i l h = Ok None h ∧
    ∀ j sz bs β, (i ≤ j)%nat → sizes !! j = Some sz → size ≤ sz → C !! j = Some bs → β ∈ bs → page β ≠ pg) ∨
  ∃ j sz pre β post, sizes !! j = Some sz ∧ size ≤ sz ∧ C !! j = Some (pre ++ β :: post) ∧ page β = pg ∧
    find_bucket pg size i l h = Ok (Some (j, desc β, prev_of pre)) h.
Proof.
  intros Hh. revert i. induction l as [|d l IH]; intros i Hl.
  - left. split; [done|]. intros j sz bs β Hj Hsz. exfalso. symmetry in Hl. apply (f_equal length) in Hl. rewrite length_drop in Hl.
    pose proof (f_equal length (hk_dir _ _ _ Hh)) as Hlen. rewrite length_fmap in Hlen. simpl in Hl, Hlen.
    apply lookup_lt_Some in Hsz. simpl in Hsz. lia.
  - assert (Hd : bucket_dir h !! i = Some d).
    { rewrite <-(Nat.add_0_r i), <-lookup_drop, <-Hl. done. }
    assert (Hl' : l = drop (S i) (bucket_dir h)).
    { rewrite <-Nat.add_1_r, <-drop_drop, <-Hl. done. }
    specialize (IH (S i) Hl'). clear Hl Hl'. cbn [find_bucket].
    pose proof (f_equal (λ l, l !! i) (hk_dir _ _ _ Hh)) as Hi. cbn beta in Hi. rewrite list_lookup_fmap, Hd in Hi.
    change (Some (b_size d) = (sizes ++ [0]) !! i) in Hi.
    destruct (Z.eqb_spec (b_size d) 0) as [Hz|Hz].
    { left. split; [done|]. intros j sz bs β Hj Hsz. exfalso. apply lookup_lt_Some in Hsz.
      rewrite lookup_app_l in Hi by lia. symmetry in Hi. destruct (size_facts i _ Hi) as [? _]. lia. }
    assert (Hsz : sizes !! i = Some (b_size d)).
    { symmetry in Hi. apply lookup_app_Some in Hi as [Hi|[Hlen Hi]]; [done|]. simpl in *.
      destruct (i - 9)%nat as [|[|?]]; simplify_eq/=. }
    assert (Hskip : (∀ bs β, C !! i = Some bs → size ≤ b_size d → β ∈ bs → page β ≠ pg) →
      (∀ j sz bs β, (S i ≤ j)%nat → sizes !! j = Some sz → size ≤ sz → C !! j = Some bs → β ∈ bs → page β ≠ pg) →
      ∀ j sz bs β, (i ≤ j)%nat → sizes !! j = Some sz → size ≤ sz → C !! j = Some bs → β ∈ bs → page β ≠ pg).
    { intros Hnow Hlater j sz bs β Hj Hszj Hs HCj Hβ. destruct (decide (i = j)) as [<-|].
      - apply (Hnow bs β HCj); [|done]. congruence.
      - apply (Hlater j sz bs β); [lia|done..]. }
    destruct (Z.ltb_spec (b_size d) size) as [Hlt|Hge].
    { destruct IH as [[Hr Hall]|Hfound]; [left|by right]. split; [exact Hr|]. apply Hskip; [|exact Hall]. intros; lia. }
    destruct (lookup_lt_is_Some_2 C i) as [bs HC].
    { rewrite (hk_length _ _ _ Hh). by apply lookup_lt_Some in Hsz. }
    destruct (find_page_run chain_fuel pg (b_chain d) 0 bs h) as [[Hr Hall]|(pre & β & post & -> & Hpg & Hr)].
    + intros β Hβ. apply (hk_bucket _ _ _ Hh i _ bs β Hsz HC Hβ).
    + by apply (bucket_chain_bound h C sp Hh i).
    + by apply (hk_chain _ _ _ Hh i).
    + rewrite (bind_Ok _ _ _ _ _ Hr). destruct IH as [[Hr' Hall']|Hfound]; [left|by right]. split; [exact Hr'|].
      apply Hskip; [|exact Hall']. intros bs' β HC' _. assert (bs' = bs) as -> by congruence. apply Hall.
    + right. exists i, (b_size d), pre, β, post. rewrite (bind_Ok _ _ _ _ _ Hr). done.
Qed.

(** ** free_s *)

(** Giving an object back makes it the only one no longer in use. *)
Lemma give_live h C sp i sz pre b p fl x post :
  heap_ok h C sp → C !! i = Some (pre ++ mk_bucket b p fl :: post) → sizes !! i = Some sz → x ∈ slots p sz → x ∉ fl →
  let C1 := <[i := pre ++ mk_bucket b p (x :: fl) :: post]> C in
  ∃ h1, give_object b x h = Ok (4096 / sz - Z.of_nat (S (length fl))) h1 ∧ heap_ok h1 C1 sp ∧
    (∀ y z, live C1 y z ↔ live C y z ∧ y ≠ x) ∧
    (∀ y z a, live C y z → y ≠ x → y ≤ a < y + z → word (h_mm h1) a = word (h_mm h) a).
Proof.
  intros Hh HC Hsz Hx Hxf C1. destruct (give_ok h C sp Hh i sz pre b p fl x post HC Hsz Hx Hxf) as (h1 & Hrun & Hok & Hw).
  exists h1. split; [exact Hrun|]. split; [exact Hok|]. fold C1 in Hok.
  set (β := mk_bucket b p fl) in *. set (β1 := mk_bucket b p (x :: fl)) in *.
  assert (HC1 : C1 !! i = Some (pre ++ β1 :: post)) by (apply list_lookup_insert_eq; by eapply lookup_lt_Some).
  assert (Hβ : β ∈ mjoin C) by (eapply in_chain; [exact HC|]; set_solver).
  assert (Hβ1 : β1 ∈ mjoin C1) by (eapply in_chain; [exact HC1|]; set_solver).
  assert (HCC : C = <[i := pre ++ β :: post]> C1).
  { unfold C1. rewrite list_insert_insert, decide_True by done. symmetry. by apply list_insert_id. }
  assert (Hadd : ∀ y z, live C y z ↔ live C1 y z ∨ y = x ∧ z = sz).
  { rewrite HCC. apply (live_insert C1 i sz (pre ++ β1 :: post)); [done..|]. intros y z. unfold live_at.
    setoid_rewrite elem_of_app. setoid_rewrite elem_of_cons. split.
    - intros (-> & γ & [Hγ|[->|Hγ]] & Hy & Hf); simpl in *.
      + left. split; [done|]. exists γ. tauto.
      + destruct (decide (y = x)) as [->|Hne]; [by right|]. left. split; [done|]. exists β1.
        split; [by right; left|]. split; [done|]. simpl. set_solver.
      + left. split; [done|]. exists γ. tauto.
    - intros [(-> & γ & [Hγ|[->|Hγ]] & Hy & Hf)|[-> ->]].
      + split; [done|]. exists γ. tauto.
      + split; [done|]. exists β. split; [by right; left|]. split; [done|]. simpl in *. set_solver.
      + split; [done|]. exists γ. tauto.
      + split; [done|]. exists β. split; [by right; left|]. done. }
  split.
  - intros y z. rewrite Hadd. split; [|by intros [[?|[-> _]] Hne]]. intros Hl. split; [by left|]. intros ->.
    apply (free_not_live h1 C1 sp Hok β1 x z Hβ1); [left|done].
  - intros y z a Hl Hne Ha. pose proof (desc_in C sp β Hβ) as Hd. apply Hw.
    + apply (live_unread_desc h C sp Hh y z a b 8 Hl Ha Hd). unfold field. tauto.
    + apply (live_unread_desc h C sp Hh y z a b 12 Hl Ha Hd). unfold field. tauto.
    + intros ->. assert (Hlx : live C x sz) by (apply Hadd; by right). destruct (size_facts i sz Hsz) as [? _].
      destruct (live_disjoint h C sp Hh y z x sz Hl Hlx Hne); lia.
Qed.

(** An empty bucket has no object in use. *)
Lemma empty_live C i sz pre β post :
  C !! i = Some (pre ++ β :: post) → sizes !! i = Some sz → (∀ y, y ∈ slots (page β) sz → y ∈ free β) →
  ∀ y z, live (<[i := pre ++ post]> C) y z ↔ live C y z.
Proof.
  intros HC Hsz Hall y z. rewrite (live_insert C i sz (pre ++ β :: post) _ (λ _ _, False) Hsz HC); [tauto|]. clear y z.
  intros y z. unfold live_at. setoid_rewrite elem_of_app. setoid_rewrite elem_of_cons. split.
  - intros (-> & γ & Hγ & Hy). left. split; [done|]. exists γ. tauto.
  - intros [(-> & γ & [Hγ|[->|Hγ]] & Hy & Hf)|[]].
    + split; [done|]. exists γ. tauto.
    + by destruct Hf; apply Hall.
    + split; [done|]. exists γ. tauto.
Qed.
(** A full set of free objects, by counting. *)
Lemma all_free i sz p l :
  sizes !! i = Some sz → NoDup l → (∀ y, y ∈ l → y ∈ slots p sz) → Z.of_nat (length l) = 4096 / sz →
  ∀ y, y ∈ slots p sz → y ∈ l.
Proof.
  intros Hsz Hn Hl Hlen y Hy.
  assert (Hperm : l ≡ₚ slots p sz); [|by rewrite Hperm].
  apply submseteq_length_Permutation; [by apply NoDup_submseteq|]. rewrite length_slots. lia.
Qed.
Lemma live_page h C sp y z β :
  heap_ok h C sp → β ∈ mjoin C → live C y z → MAP_NR y = MAP_NR (page β) →
  ∃ i sz bs, sizes !! i = Some sz ∧ C !! i = Some bs ∧ β ∈ bs ∧ y ∈ slots (page β) sz ∧ y ∉ free β.
Proof.
  intros Hh Hβ Hl Hm. destruct (live_bucket C y z Hl) as (γ & i0 & Hγ & Hsz & Hy & Hf & H1 & H2 & H3).
  destruct (hk_page _ _ _ Hh _ (page_in C β Hβ)) as (k & Hk & Hpk & _).
  destruct (hk_page _ _ _ Hh _ (page_in C γ Hγ)) as (k' & Hk' & Hpk' & _).
  assert (Hyk : MAP_NR y = k').
  { unfold MAP_NR. rewrite Z.shiftr_div_pow2 by lia. change (2 ^ 12) with 4096. rewrite Hpk' in *. unfold page_addr in *.
    replace (y - LOW_MEM) with (y - (LOW_MEM + 4096 * k') + k' * 4096) by lia.
    rewrite Z.div_add, Z.div_small by lia. lia. }
  rewrite Hyk, Hpk, MAP_NR_page_addr in Hm by lia. subst k'.
  assert (γ = β) as -> by (apply (page_inj h C sp Hh); [done|done|congruence]).
  destruct Hl as (i & sz & bs & Hsz' & HC & -> & δ & Hδ & Hyδ & Hfδ).
  assert (δ = β) as ->.
  { apply (page_unique h C sp Hh δ β y); [by eapply in_chain|done| |].
    - pose proof (slot_bounds _ _ _ _ Hsz' Hyδ). destruct (size_facts i sz Hsz') as [? _]. lia.
    - lia. }
  by exists i, sz, bs.
Qed.
(** The page of an address. *)
Lemma page_of k x : 0 ≤ k < PAGING_PAGES → page_addr k ≤ x < page_addr k + 4096 →
  MAP_NR x = k ∧ Z.land x 0xfffff000 = page_addr k.
Proof.
  intros Hk Hx. destruct (page_addr_props k Hk) as (_ & Hr & _). unfold LOW_MEM, PAGING_MEMORY in Hr. split.
  - unfold MAP_NR. rewrite Z.shiftr_div_pow2 by lia. change (2 ^ 12) with 4096. unfold page_addr in Hx.
    replace (x - LOW_MEM) with (x - (LOW_MEM + 4096 * k) + k * 4096) by lia.
    rewrite Z.div_add, Z.div_small by lia. lia.
  - rewrite Z.land_comm. change (frame x = page_addr k). rewrite frame_spec by lia. unfold page_addr, LOW_MEM in *.
    replace x with (x - (1048576 + 4096 * k) + (256 + k) * 4096) by lia. rewrite Z.div_add, Z.div_small by lia. lia.
Qed.

(** What free_s() does once the bucket is found. *)
Lemma give_release h C sp i sz pre b p fl x post :
  heap_ok h C sp → C !! i = Some (pre ++ mk_bucket b p fl :: post) → sizes !! i = Some sz → x ∈ slots p sz → x ∉ fl →
  ∃ h' C' sp', (c ← give_object b x; when (c =? 0) (release_bucket i b (prev_of pre))) h = Ok tt h' ∧ heap_ok h' C' sp' ∧
    (∀ y z, live C' y z ↔ live C y z ∧ y ≠ x) ∧
    (∀ y z a, live C y z → y ≠ x → y ≤ a < y + z → word (h_mm h') a = word (h_mm h) a) ∧
    (count (h_mm h') (MAP_NR x) = 0 ↔ ¬ ∃ y z, live C y z ∧ y ≠ x ∧ MAP_NR y = MAP_NR x).
Proof.
  intros Hh HC Hsz Hx Hxf.
  destruct (give_live h C sp i sz pre b p fl x post Hh HC Hsz Hx Hxf) as (h1 & Hrun & Hok & Hlive & Hw).
  rewrite (bind_Ok _ _ _ _ _ Hrun). set (β1 := mk_bucket b p (x :: fl)) in *. set (C1 := <[i := _]> C) in *.
  assert (HC1 : C1 !! i = Some (pre ++ β1 :: post)) by (apply list_lookup_insert_eq; by eapply lookup_lt_Some).
  assert (Hin : β1 ∈ pre ++ β1 :: post) by set_solver. pose proof (in_chain C1 i _ β1 HC1 Hin) as Hβ1.
  destruct (hk_bucket _ _ _ Hok i sz _ β1 Hsz HC1 Hin) as [_ _ Hnd Hslots _]. cbn [free page β1] in Hnd, Hslots.
  destruct (hk_page _ _ _ Hok _ (page_in C1 β1 Hβ1)) as (k & Hk & Hpk & Hck & _). cbn [page β1] in Hpk.
  pose proof (slot_bounds p i sz x Hsz Hx) as Hxb. destruct (size_facts i sz Hsz) as [Hsb _].
  destruct (page_of k x Hk) as [Hnr _]; [lia|]. rewrite Hnr.
  assert (Hon : ∀ y, y ∈ slots p sz → MAP_NR y = k).
  { intros y Hy. pose proof (slot_bounds p i sz y Hsz Hy). apply page_of; [done|lia]. }
  unfold when. destruct (Z.eqb_spec (4096 / sz - Z.of_nat (S (length fl))) 0) as [Hz|Hz].
  - assert (Hall : ∀ y, y ∈ slots p sz → y ∈ x :: fl) by (apply (all_free i); [done..|simpl; lia]).
    destruct (release_bucket_run h1 C1 sp i sz pre β1 post Hok Hsz HC1) as (h2 & Hrel & Hok2 & Hcount & Hw2).
    pose proof (empty_live C1 i sz pre β1 post HC1 Hsz Hall) as Hempty.
    exists h2, (<[i := pre ++ post]> C1), (b :: sp). split; [exact Hrel|]. split; [exact Hok2|]. split; [|split].
    + intros y z. rewrite Hempty. apply Hlive.
    + intros y z a Hl Hne Ha. assert (Hl1 : live C1 y z) by (by apply Hlive).
      rewrite Hw2; [by apply (Hw y z)| |].
      * apply (live_unread_desc h1 C1 sp Hok y z a b 4 Hl1 Ha (desc_in C1 sp β1 Hβ1)). unfold field. tauto.
      * intros Hp. destruct (cut_prev pre Hp) as (γ & Hγ & _ & ->).
        apply (live_unread_desc h1 C1 sp Hok y z a (desc γ) 4 Hl1 Ha); [|unfold field; tauto].
        apply desc_in. eapply in_chain; [exact HC1|]. set_solver.
    + cbn [page β1] in Hcount. rewrite Hpk, MAP_NR_page_addr in Hcount by lia. split; [|done]. intros _ (y & z & Hl & Hne & Hy).
      destruct (live_page h1 C1 sp y z β1 Hok Hβ1) as (j & szj & bsj & Hszj & HCj & Hj & Hys & Hyf).
      * by apply Hlive.
      * rewrite Hy. cbn [page β1]. by rewrite Hpk, MAP_NR_page_addr by lia.
      * assert (szj = sz) as -> by (apply (class_unique h1 C1 sp Hok β1 j i _ _ _ _ HCj HC1 Hj Hin Hszj Hsz)). by apply Hyf, Hall.
  - exists h1, C1, sp. split; [done|]. split; [exact Hok|]. split; [exact Hlive|]. split; [exact Hw|].
    split; [lia|]. intros Hno. exfalso. apply Hz.
    assert (Hfull : ∀ y, y ∈ slots p sz → y ∈ x :: fl).
    { intros y Hy. destruct (decide (y ∈ x :: fl)) as [|Hn]; [done|]. destruct Hno. exists y, sz.
      split; [|split; [intros ->; apply Hn; left|by apply Hon]].
      apply Hlive. exists i, sz, (pre ++ β1 :: post). split; [done|]. split; [done|]. split; [done|]. by exists β1. }
    assert (Hle : (length (slots p sz) ≤ length (x :: fl))%nat).
    { apply submseteq_length, NoDup_submseteq; [by apply (NoDup_slots p i)|done]. }
    assert (Hge : (length (x :: fl) ≤ length (slots p sz))%nat) by (by apply submseteq_length, NoDup_submseteq).
    rewrite length_slots in Hle, Hge. destruct (size_facts i sz Hsz) as (_ & _ & _ & ?). simpl in Hle, Hge. lia.
Qed.

(** C14: free_s().  An object in use, freed with a size hint that is not larger
    than its size, is found: afterwards exactly the other objects are in use,
    none of their bytes has changed, the allocator's state is well-formed, and
    the object's page has gone back to the page allocator if and only if no
    other object in use is on it.  An address on a page that holds no bucket
    of a large enough size is refused with a panic. *)
Theorem free_s_correct (h : heap) (C : list (list bucket)) (sp : list Z) (x size : Z) (Hh : heap_ok h C sp) :
  (∀ sz, live C x sz → size ≤ sz →
    ∃ h' C' sp', free_s x size h = Ok tt h' ∧ heap_ok h' C' sp' ∧
      (∀ y z, live C' y z ↔ live C y z ∧ y ≠ x) ∧
      (∀ y z a, live C y z → y ≠ x → y ≤ a < y + z → word (h_mm h') a = word (h_mm h) a) ∧
      (count (h_mm h') (MAP_NR x) = 0 ↔ ¬ ∃ y z, live C y z ∧ y ≠ x ∧ MAP_NR y = MAP_NR x)) ∧
  ((∀ i sz bs β, sizes !! i = Some sz → size ≤ sz → C !! i = Some bs → β ∈ bs → page β ≠ Z.land x 0xfffff000) →
    free_s x size h = Panic "Bad address passed to kernel free_s()" h).
Proof.
  unfold free_s. rewrite (bind_Ok get _ h h h eq_refl).
  destruct (find_bucket_run h C sp (Z.land x 0xfffff000) size (bucket_dir h) 0 Hh eq_refl)
    as [[Hr Hnone]|(j & szj & pre & β & post & Hszj & Hsj & HCj & Hpg & Hr)]; rewrite (bind_Ok _ _ _ _ _ Hr).
  - split; [|done]. intros sz (i & sz' & bs & Hsz & HC & -> & β & Hβ & Hx & Hf) Hs. exfalso.
    pose proof (in_chain C i bs β HC Hβ) as Hin. destruct (hk_page _ _ _ Hh _ (page_in C β Hin)) as (k & Hk & Hpk & _).
    pose proof (slot_bounds _ i _ _ Hsz Hx). destruct (size_facts i sz' Hsz) as [? _].
    apply (Hnone i sz' bs β); [lia|done..|]. rewrite Hpk. symmetry. apply page_of; [done|lia].
  - assert (Hβj : β ∈ pre ++ β :: post) by set_solver. pose proof (in_chain C j _ β HCj Hβj) as Hβm. split.
    2:{ intros Hnone. by destruct (Hnone j szj _ β Hszj Hsj HCj Hβj). }
    intros sz (i & sz' & bs & Hsz & HC & -> & γ & Hγ & Hx & Hf) _. pose proof (in_chain C i bs γ HC Hγ) as Hin.
    destruct (hk_page _ _ _ Hh _ (page_in C γ Hin)) as (k & Hk & Hpk & _).
    pose proof (slot_bounds _ i _ _ Hsz Hx). destruct (size_facts i sz' Hsz) as [? _].
    assert (γ = β) as ->.
    { apply (page_inj h C sp Hh); [done|done|]. rewrite Hpg, Hpk. symmetry. apply page_of; [done|lia]. }
    assert (sz' = szj) as -> by (exact (class_unique h C sp Hh β i j _ _ _ _ HC HCj Hγ Hβj Hsz Hszj)).
    destruct β as [b p fl]. exact (give_release h C sp j szj pre b p fl x post Hh HCj Hszj Hx Hf).
Qed.
