(* ===== verification/Mktime.v ===== *)
(** * kernel/mktime.c and the clock set-up of init/main.c

    [kernel_mktime] computes a time stamp from a broken-down date with a few
    magic offsets; the reference definition counts the days of whole years
    and months with the Gregorian rules. *)

From stdpp Require Import base list.
From Stdlib Require Import ZArith Lia.
From S2P Require Import Prelude.
Local Open Scope Z_scope.

(** struct tm of include/time.h, the fields the kernel reads. *)
Record tm := mk_tm {
  tm_sec : Z; tm_min : Z; tm_hour : Z; tm_mday : Z; tm_mon : Z; tm_year : Z
}.
#[export] Instance eta_tm : Eta tm := fun t =>
  mk_tm (tm_sec t) (tm_min t) (tm_hour t) (tm_mday t) (tm_mon t) (tm_year t).

Definition MINUTE : Z := 60.
Definition HOUR : Z := 60 * MINUTE.
Definition DAY : Z := 24 * HOUR.
Definition YEAR : Z := 365 * DAY.

(** interestingly, we assume leap-years *)
Definition month : list Z :=
  [0;
   DAY*(31);
   DAY*(31+29);
   DAY*(31+29+31);
   DAY*(31+29+31+30);
   DAY*(31+29+31+30+31);
   DAY*(31+29+31+30+31+30);
   DAY*(31+29+31+30+31+30+31);
   DAY*(31+29+31+30+31+30+31+31);
   DAY*(31+29+31+30+31+30+31+31+30);
   DAY*(31+29+31+30+31+30+31+31+30+31);
   DAY*(31+29+31+30+31+30+31+31+30+31+30)].

(** [None]: [month[tm->tm_mon]] reads outside the table. *)
Definition kernel_mktime (t : tm) : option Z :=
  let year := s32 (tm_year t - 70) in
  let res := s32 (s32 (YEAR * year) + s32 (DAY * Z.quot (s32 (year + 1)) 4)) in
  m ← zlookup month (tm_mon t);
  let res := s32 (res + m) in
  let res := if (1 <? tm_mon t) && truth (Z.rem (s32 (year + 2)) 4)
             then s32 (res - DAY) else res in
  let res := s32 (res + s32 (DAY * (tm_mday t - 1))) in
  let res := s32 (res + s32 (HOUR * tm_hour t)) in
  let res := s32 (res + s32 (MINUTE * tm_min t)) in
  let res := s32 (res + tm_sec t) in
  mret res.

(** ** The reference calendar *)

Definition is_leap (y : Z) : bool :=
  (y mod 4 =? 0) && (negb (y mod 100 =? 0) || (y mod 400 =? 0)).
Definition days_in_year (y : Z) : Z := if is_leap y then 366 else 365.
Definition days_in_month (y : Z) (m : nat) : Z :=
  match m with
  | 1%nat => if is_leap y then 29 else 28
  | 3%nat | 5%nat | 8%nat | 10%nat => 30
  | _ => 31
  end.
Fixpoint days_of_years (y0 : Z) (n : nat) : Z :=
  match n with O => 0 | S n => days_of_years y0 n + days_in_year (y0 + Z.of_nat n) end.
Fixpoint days_of_months (y : Z) (m : nat) : Z :=
  match m with O => 0 | S m => days_of_months y m + days_in_month y m end.

(** Seconds from 1970-01-01 00:00:00 to the date [t], counting the days one
    year and one month at a time. *)
Definition epoch_seconds (t : tm) : Z :=
  86400 * (days_of_years 1970 (Z.to_nat (tm_year t - 70))
           + days_of_months (1900 + tm_year t) (Z.to_nat (tm_mon t))
           + (tm_mday t - 1))
  + 3600 * tm_hour t + 60 * tm_min t + tm_sec t.

(** A date the CMOS clock can hold: [tm_year] counts from 1900, and the two
    CMOS digits keep it below 2000; 2099 is the last year for which "every
    fourth year is a leap year" is the calendar. *)
Record valid_date (t : tm) : Prop := {
  vd_year : 70 ≤ tm_year t < 200;
  vd_mon : 0 ≤ tm_mon t < 12;
  vd_mday : 1 ≤ tm_mday t ≤ 31;
  vd_hour : 0 ≤ tm_hour t < 24;
  vd_min : 0 ≤ tm_min t < 60;
  vd_sec : 0 ≤ tm_sec t < 60
}.

(** The day offset the code computes for a month and a year. *)
Definition mktime_days (y mon : Z) : option Z :=
  m ← zlookup month mon;
  mret (365 * y + Z.quot (y + 1) 4 + m / DAY
        - (if (1 <? mon) && truth (Z.rem (y + 2) 4) then 1 else 0)).

(** The finite part of the correctness argument: all months of all the
    years 1970-2099, by computation. *)
Lemma mktime_days_correct (y m : nat) :
  (y < 130)%nat → (m < 12)%nat →
  mktime_days (Z.of_nat y) (Z.of_nat m) =
    Some (days_of_years 1970 y + days_of_months (1970 + Z.of_nat y) m).
Proof.
  intros Hy Hm.
  assert (Hall : forallb (λ y, forallb (λ m,
      match mktime_days (Z.of_nat y) (Z.of_nat m) with
      | Some d => d =? days_of_years 1970 y + days_of_months (1970 + Z.of_nat y) m
      | None => false end) (seq 0 12)) (seq 0 130) = true) by (vm_compute; reflexivity).
  rewrite forallb_forall in Hall. ospecialize (Hall y _); [by apply in_seq; lia|].
  rewrite forallb_forall in Hall. ospecialize (Hall m _); [by apply in_seq; lia|].
  destruct (mktime_days _ _); [|done]. by apply Z.eqb_eq in Hall as ->.
Qed.

(** Every entry of [month] is a whole number of days. *)
Lemma month_divides i m : zlookup month i = Some m → m = DAY * (m / DAY).
Proof.
  intros Hm. pose proof (zlookup_Some _ _ _ Hm) as Hi. simpl in Hi.
  unfold zlookup in Hm. destruct (i <? 0); [done|].
  assert (Hall : Forall (λ m, m = DAY * (m / DAY)) month) by (repeat constructor).
  by eapply Forall_lookup_1 in Hall.
Qed.

(** With all wrap-arounds pushed outwards, the result is the time stamp of
    the day count reduced to 32 bits. *)
Lemma kernel_mktime_days t d :
  valid_date t → mktime_days (tm_year t - 70) (tm_mon t) = Some d →
  kernel_mktime t =
    Some (s32 (DAY * (d + (tm_mday t - 1)) + HOUR * tm_hour t + MINUTE * tm_min t + tm_sec t)).
Proof.
  intros [] Hd. unfold mktime_days in Hd. unfold kernel_mktime.
  rewrite !(s32_small (tm_year t - 70)) by lia.
  rewrite (s32_small (tm_year t - 70 + 1)), (s32_small (tm_year t - 70 + 2)) by lia.
  destruct (zlookup month (tm_mon t)) as [m|] eqn:Hm; simpl in *; [|done].
  injection Hd as <-. f_equal. pose proof (month_divides _ _ Hm) as Hdiv.
  clear Hm. revert Hdiv. generalize (m / DAY). intros q ->.
  unfold YEAR. destruct (_ && _); wrap_ring.
Qed.

(** C40: for every date from 1970 to 2099, [kernel_mktime] is the number of
    seconds since the epoch by the Gregorian calendar, reduced to the 32 bits
    of its [long] result; in particular the magic offsets [(y+1)] and [(y+2)]
    and the assumed-leap month table are right for all those years, and before
    2038-01-19 03:14:08 the result is exact. *)
Theorem kernel_mktime_correct t :
  valid_date t →
  kernel_mktime t = Some (s32 (epoch_seconds t)) ∧
  (epoch_seconds t < 2147483648 → kernel_mktime t = Some (epoch_seconds t)).
Proof.
  intros Ht. assert (Hmain : kernel_mktime t = Some (s32 (epoch_seconds t))).
  { pose proof Ht as [].
    pose proof (mktime_days_correct (Z.to_nat (tm_year t - 70)) (Z.to_nat (tm_mon t))
                  ltac:(lia) ltac:(lia)) as Hd.
    rewrite !Z2Nat.id in Hd by lia. rewrite (kernel_mktime_days _ _ Ht Hd).
    do 2 f_equal. unfold epoch_seconds, DAY, HOUR, MINUTE.
    replace (1970 + (tm_year t - 70)) with (1900 + tm_year t) by lia. ring. }
  split; [done|]. intros Hlt. rewrite Hmain, s32_small; [done|].
  split; [|lia]. pose proof Ht as [].
  assert (0 ≤ days_of_years 1970 (Z.to_nat (tm_year t - 70))).
  { induction (Z.to_nat _); simpl; [lia|]. unfold days_in_year. destruct (is_leap _); lia. }
  assert (0 ≤ days_of_months (1900 + tm_year t) (Z.to_nat (tm_mon t))).
  { induction (Z.to_nat (tm_mon t)) as [|n IH]; simpl; [lia|].
    assert (28 ≤ days_in_month (1900 + tm_year t) n); [|lia].
    unfold days_in_month. repeat case_match; lia. }
  unfold epoch_seconds. lia.
Qed.

(** The release date of Linux 0.11. *)
Lemma kernel_mktime_correct_witness :
  kernel_mktime (mk_tm 30 45 12 8 11 91) = Some 692196330.
Proof.
  refine (proj2 (kernel_mktime_correct (mk_tm 30 45 12 8 11 91) _) _);
    [split; simpl; lia | vm_compute; reflexivity].
Defined.

Lemma days_of_years_le n : (n ≤ 30)%nat → 0 ≤ days_of_years 1970 n ≤ 10957.
Proof.
  intros Hn. assert (Hall : forallb (λ n, (0 <=? days_of_years 1970 n) &&
    (days_of_years 1970 n <=? 10957)) (seq 0 31) = true) by reflexivity.
  rewrite forallb_forall in Hall. ospecialize (Hall n _); [apply in_seq; lia|]. lia.
Qed.
Lemma days_of_months_le y m : (m < 12)%nat → 0 ≤ days_of_months y m ≤ 336.
Proof.
  intros Hm. do 12 (destruct m as [|m]; [simpl; unfold days_in_month; repeat case_match; lia|]).
  lia.
Qed.

(** ** time_init of init/main.c

    The CMOS clock is hardware: [CMOS_READ addr] is a read of it, in any state
    in which the clock can be read. *)
Section TimeInit.
Context {S : Type}.
Variable CMOS_READ : Z → M S Z.

Definition BCD_TO_BIN (val : Z) : Z := Z.land val 15 + Z.shiftr val 4 * 10.

Definition read_date : M S tm :=
  sec ← CMOS_READ 0; min ← CMOS_READ 2; hour ← CMOS_READ 4;
  mday ← CMOS_READ 7; mon ← CMOS_READ 8; year ← CMOS_READ 9;
  mret (mk_tm sec min hour mday mon year).

(** [do { ... } while (time.tm_sec != CMOS_READ(0))] *)
Fixpoint read_stable_date (fuel : nat) : M S tm :=
  match fuel with
  | O => no_fuel
  | Datatypes.S fuel =>
      t ← read_date; sec ← CMOS_READ 0;
      if tm_sec t =? sec then mret t else read_stable_date fuel
  end.

(** The value given to [startup_time]. *)
Definition time_init (fuel : nat) : M S Z :=
  t ← read_stable_date fuel;
  let t := mk_tm (BCD_TO_BIN (tm_sec t)) (BCD_TO_BIN (tm_min t)) (BCD_TO_BIN (tm_hour t))
                 (BCD_TO_BIN (tm_mday t)) (BCD_TO_BIN (tm_mon t)) (BCD_TO_BIN (tm_year t)) in
  deref (kernel_mktime (t <| tm_mon ::= λ m, m - 1 |>)).
End TimeInit.

(** The clock's encoding of a number below 100. *)
Definition to_bcd (x : Z) : Z := Z.shiftl (x / 10) 4 + x mod 10.

Lemma BCD_TO_BIN_to_bcd x : 0 ≤ x < 100 → BCD_TO_BIN (to_bcd x) = x.
Proof.
  intros Hx. assert (Hall : forallb (λ n, BCD_TO_BIN (to_bcd (Z.of_nat n)) =? Z.of_nat n)
                                    (seq 0 100) = true) by reflexivity.
  rewrite forallb_forall in Hall. ospecialize (Hall (Z.to_nat x) _); [apply in_seq; lia|].
  rewrite Z2Nat.id in Hall by lia. lia.
Qed.

(** The registers of a clock that shows [t]. *)
Definition clock_regs (t : tm) : list (Z * Z) :=
  [(0, to_bcd (tm_sec t)); (2, to_bcd (tm_min t)); (4, to_bcd (tm_hour t)); (7, to_bcd (tm_mday t));
   (8, to_bcd (tm_mon t + 1)); (9, to_bcd (tm_year t))].
(** In the states [I] the clock shows the date [t], and reading it stays there. *)
Definition clock_shows {S} (CMOS_READ : Z → M S Z) (I : S → Prop) (t : tm) : Prop :=
  ∀ s addr v, I s → (addr, v) ∈ clock_regs t → ∃ s', CMOS_READ addr s = Ok v s' ∧ I s'.

Ltac read_clock H a :=
  let s' := fresh "s" in let E := fresh "E" in let I' := fresh "I" in
  lazymatch goal with |- context [match _ a ?s with _ => _ end] =>
    edestruct (H s a) as (s' & E & I'); [eassumption|repeat constructor|]; rewrite E end.

(** When the CMOS clock holds a date of 1970-1999 that does not tick
    during one round of the read loop, [time_init] needs only that round and
    sets [startup_time] to the exact number of seconds since the epoch. *)
Theorem time_init_correct {S} (CMOS_READ : Z → M S Z) (I : S → Prop) t s fuel :
  valid_date t → tm_year t < 100 → clock_shows CMOS_READ I t → I s →
  ∃ s', time_init CMOS_READ (Datatypes.S fuel) s = Ok (epoch_seconds t) s' ∧ I s'.
Proof.
  intros Ht Hy Hclock HI.
  assert (Hres : kernel_mktime t = Some (epoch_seconds t)).
  { apply kernel_mktime_correct; [done|]. pose proof Ht as [].
    pose proof (days_of_years_le (Z.to_nat (tm_year t - 70)) ltac:(lia)).
    pose proof (days_of_months_le (1900 + tm_year t) (Z.to_nat (tm_mon t)) ltac:(lia)).
    unfold epoch_seconds. lia. }
  unfold time_init, read_stable_date, read_date, mbind, M_bind, mret, M_ret.
  read_clock Hclock 0. read_clock Hclock 2. read_clock Hclock 4. read_clock Hclock 7.
  read_clock Hclock 8. read_clock Hclock 9. read_clock Hclock 0.
  destruct Ht. simpl in *. rewrite Z.eqb_refl. cbn -[kernel_mktime].
  unfold set. rewrite !BCD_TO_BIN_to_bcd by lia. cbn -[kernel_mktime].
  replace (tm_mon t + 1 - 1) with (tm_mon t) by lia.
  destruct t; simpl in *. rewrite Hres. eexists. split; [reflexivity|done].
Qed.

Lemma time_init_correct_witness :
  let cmos addr : M nat Z := λ n, Ok (match addr with
    | 0 => 48 | 2 => 69 | 4 => 18 | 7 => 8 | 8 => 18 | 9 => 145 | _ => 0 end) (S n) in
  ∃ n, time_init cmos 1%nat 0%nat = Ok 692196330 n ∧ True.
Proof.
  refine (time_init_correct _ (λ _, True) (mk_tm 30 45 12 8 11 91) 0%nat 0%nat _ _ _ _);
    [split; simpl; lia | simpl; lia | | done].
  intros n addr v _ Hv. exists (S n). split; [|done].
  repeat (apply elem_of_cons in Hv as [[= -> ->]|Hv]; [done|]). by apply elem_of_nil in Hv.
Defined.
