(* ===== verification/StringH.v ===== *)
(** * include/string.h: the string functions

    Each function is one asm statement.  [cpu] has the registers, the flags and
    the bytes of memory it uses, one definition per instruction; a label that
    is jumped back to is the head of a [loop], a label that is jumped forward to
    a [let].  The operands of a statement are set in [with_args]. *)

From stdpp Require Import base option list gmap.
From Stdlib Require Import ZArith.
From S2P Require Import Prelude.
Local Open Scope Z_scope.

Record cpu := mk_cpu {
  eax : Z; ebx : Z; ecx : Z; edx : Z; esi : Z; edi : Z;
  zf : bool;           (* the last result was 0 *)
  sf : bool;           (* ... was negative *)
  lt : bool;           (* SF and OF differ: the condition of jl *)
  df : bool;           (* string instructions go down *)
  ram : gmap Z Z;
  ___strtok : Z        (* char * ___strtok *)
}.
#[export] Instance eta_cpu : Eta cpu := fun c =>
  mk_cpu (eax c) (ebx c) (ecx c) (edx c) (esi c) (edi c) (zf c) (sf c) (lt c) (df c) (ram c) (___strtok c).

Definition byte (m : gmap Z Z) (a : Z) : Z := u8 (default 0 (m !! a)).
Definition al (c : cpu) : Z := Z.land (eax c) 0xff.
Definition ah (c : cpu) : Z := Z.land (Z.shiftr (eax c) 8) 0xff.
Definition set_al (v : Z) (c : cpu) : cpu := c <| eax := Z.lor (Z.land (eax c) 0xffffff00) v |>.

(** ** Instructions *)
Definition with_args (f : cpu → cpu) : M cpu unit := modify f.
Definition cld : M cpu unit := modify (λ c, c <| df := false |>).
Definition std : M cpu unit := modify (λ c, c <| df := true |>).
(** The next address of a string instruction. *)
Definition step_of (c : cpu) (a : Z) : Z := if df c then u32 (a - 1) else u32 (a + 1).
Definition set_flags (z s l : bool) (c : cpu) : cpu := c <| zf := z |> <| sf := s |> <| lt := l |>.
(** x - y on bytes. *)
Definition cmp8 (x y : Z) (c : cpu) : cpu := set_flags (x =? y) (128 <=? u8 (x - y)) (s8 x <? s8 y) c.
(** x on 32 bits, of which the signed value was [v] before wrapping around. *)
Definition flags32 (v : Z) (c : cpu) : cpu := set_flags (u32 v =? 0) (s32 v <? 0) (v <? 0) c.

Definition lodsb : M cpu unit :=
  modify (λ c, set_al (byte (ram c) (esi c)) c <| esi := step_of c (esi c) |>).
Definition stosb : M cpu unit :=
  modify (λ c, c <| ram ::= <[edi c := al c]> |> <| edi := step_of c (edi c) |>).
Definition movsb : M cpu unit :=
  modify (λ c, c <| ram ::= <[edi c := byte (ram c) (esi c)]> |> <| esi := step_of c (esi c) |> <| edi := step_of c (edi c) |>).
Definition scasb : M cpu unit :=
  modify (λ c, cmp8 (al c) (byte (ram c) (edi c)) c <| edi := step_of c (edi c) |>).
Definition cmpsb : M cpu unit :=
  modify (λ c, cmp8 (byte (ram c) (esi c)) (byte (ram c) (edi c)) c
               <| esi := step_of c (esi c) |> <| edi := step_of c (edi c) |>).
Definition testb_al : M cpu unit := modify (λ c, set_flags (al c =? 0) (128 <=? al c) (128 <=? al c) c).
Definition cmpb_ah_al : M cpu unit := modify (λ c, cmp8 (al c) (ah c) c).
(** [cmpb $0,(a)] *)
Definition cmpb_0 (a : cpu → Z) : M cpu unit := modify (λ c, cmp8 (byte (ram c) (a c)) 0 c).
Definition testl (r : cpu → Z) : M cpu unit := modify (λ c, flags32 (s32 (r c)) c).
Definition decl_ecx : M cpu unit := modify (λ c, flags32 (s32 (ecx c) - 1) c <| ecx := u32 (ecx c - 1) |>).
Definition notl_ecx : M cpu unit := modify (λ c, c <| ecx := u32 (- ecx c - 1) |>).
Definition decl_esi : M cpu unit := modify (λ c, flags32 (s32 (esi c) - 1) c <| esi := u32 (esi c - 1) |>).
Definition incl_esi : M cpu unit := modify (λ c, flags32 (s32 (esi c) + 1) c <| esi := u32 (esi c + 1) |>).
Definition decl_edi : M cpu unit := modify (λ c, flags32 (s32 (edi c) - 1) c <| edi := u32 (edi c - 1) |>).
Definition decl_eax : M cpu unit := modify (λ c, flags32 (s32 (eax c) - 1) c <| eax := u32 (eax c - 1) |>).
Definition decl_edx : M cpu unit := modify (λ c, flags32 (s32 (edx c) - 1) c <| edx := u32 (edx c - 1) |>).
Definition negl_eax : M cpu unit := modify (λ c, flags32 (- s32 (eax c)) c <| eax := u32 (- eax c) |>).
(** [xorl r,r] *)
Definition clear (f : cpu → cpu) : M cpu unit := modify (λ c, set_flags true false false (f c)).
Definition xorl_eax : M cpu unit := clear (λ c, c <| eax := 0 |>).
Definition xorl_ebx : M cpu unit := clear (λ c, c <| ebx := 0 |>).
Definition xorl_esi : M cpu unit := clear (λ c, c <| esi := 0 |>).
(** [movl]: no flag changes. *)
Definition movl (f : cpu → cpu) : M cpu unit := modify f.

(** ** Jumps

    A piece of code up to a jump back is a computation of [Some k], with [k]
    the code jumped to, or [None] for the label at its own head. *)
Definition cond (b : cpu → bool) {A} (target next : M cpu A) : M cpu A := c ← get; if b c then target else next.
Definition je {A} : M cpu A → M cpu A → M cpu A := cond zf.
Definition jne {A} : M cpu A → M cpu A → M cpu A := cond (λ c, negb (zf c)).
Definition jl {A} : M cpu A → M cpu A → M cpu A := cond lt.
Definition js {A} : M cpu A → M cpu A → M cpu A := cond sf.
Definition back {A} : M cpu (option A) := mret None.
Definition goto {A} (k : A) : M cpu (option A) := mret (Some k).
Definition done_ : M cpu unit := mret tt.

Fixpoint loop (fuel : nat) (body : M cpu (option (M cpu unit))) : M cpu unit :=
  match fuel with
  | O => no_fuel
  | S fuel => k ← body; match k with None => loop fuel body | Some k => k end
  end.
(** [rep], [repe] and [repne]: while ecx is not 0, and until [stop]. *)
Fixpoint repeat_ (stop : cpu → bool) (fuel : nat) (op : M cpu unit) : M cpu unit :=
  c ← get;
  if ecx c =? 0 then mret tt else
  match fuel with
  | O => no_fuel
  | S fuel =>
      modify (λ c, c <| ecx := u32 (ecx c - 1) |>) ;;
      op ;;
      c ← get;
      if stop c then mret tt else repeat_ stop fuel op
  end.
Definition rep : nat → M cpu unit → M cpu unit := repeat_ (λ _, false).
Definition repne : nat → M cpu unit → M cpu unit := repeat_ zf.
Definition repe : nat → M cpu unit → M cpu unit := repeat_ (λ c, negb (zf c)).

(** ** The functions

    [fuel] bounds the bytes that are looked at. *)
Section Functions.
Context (fuel : nat).

Definition strcpy (dest src : Z) : M cpu Z :=
  with_args (λ c, c <| esi := src |> <| edi := dest |>) ;;
  cld ;;
  loop fuel (lodsb ;; stosb ;; testb_al ;; jne back (goto done_)) ;;
  mret dest.

Definition strncpy (dest src count : Z) : M cpu Z :=
  with_args (λ c, c <| esi := src |> <| edi := dest |> <| ecx := u32 count |>) ;;
  cld ;;
  loop fuel
    (decl_ecx ;; js (goto done_)
    (lodsb ;; stosb ;; testb_al ;; jne back
    (goto (rep fuel stosb)))) ;;
  mret dest.

Definition strcat (dest src : Z) : M cpu Z :=
  with_args (λ c, c <| esi := src |> <| edi := dest |> <| eax := 0 |> <| ecx := 0xffffffff |>) ;;
  cld ;; repne fuel scasb ;; decl_edi ;;
  loop fuel (lodsb ;; stosb ;; testb_al ;; jne back (goto done_)) ;;
  mret dest.

Definition strncat (dest src count : Z) : M cpu Z :=
  with_args (λ c, c <| esi := src |> <| edi := dest |> <| eax := 0 |> <| ecx := 0xffffffff |>) ;;
  cld ;; repne fuel scasb ;; decl_edi ;;
  movl (λ c, c <| ecx := u32 count |>) ;;
  let l2 := xorl_eax ;; stosb in
  loop fuel
    (decl_ecx ;; js (goto l2)
    (lodsb ;; stosb ;; testb_al ;; jne back
    (goto l2))) ;;
  mret dest.

Definition strcmp (cs ct : Z) : M cpu Z :=
  with_args (λ c, c <| edi := cs |> <| esi := ct |>) ;;
  cld ;;
  let l3 := done_ in
  let l2 := movl (λ c, c <| eax := 1 |>) ;; jl l3 (negl_eax ;; l3) in
  loop fuel
    (lodsb ;; scasb ;; jne (goto l2)
    (testb_al ;; jne back
    (goto (xorl_eax ;; l3)))) ;;
  c ← get; mret (s32 (eax c)).

Definition strncmp (cs ct count : Z) : M cpu Z :=
  with_args (λ c, c <| edi := cs |> <| esi := ct |> <| ecx := u32 count |>) ;;
  cld ;;
  let l4 := done_ in
  let l3 := movl (λ c, c <| eax := 1 |>) ;; jl l4 (negl_eax ;; l4) in
  let l2 := xorl_eax ;; l4 in
  loop fuel
    (decl_ecx ;; js (goto l2)
    (lodsb ;; scasb ;; jne (goto l3)
    (testb_al ;; jne back
    (goto l2)))) ;;
  c ← get; mret (s32 (eax c)).

Definition strchr (s ch : Z) : M cpu Z :=
  with_args (λ c, set_al (u8 ch) c <| esi := s |>) ;;
  cld ;;
  movl (λ c, c <| eax := Z.lor (Z.land (eax c) 0xffff00ff) (Z.shiftl (al c) 8) |>) ;;
  let l2 := movl (λ c, c <| eax := esi c |>) ;; decl_eax in
  loop fuel
    (lodsb ;; cmpb_ah_al ;; je (goto l2)
    (testb_al ;; jne back
    (goto (movl (λ c, c <| esi := 1 |>) ;; l2)))) ;;
  c ← get; mret (eax c).

Definition strrchr (s ch : Z) : M cpu Z :=
  with_args (λ c, set_al (u8 ch) c <| edx := 0 |> <| esi := s |>) ;;
  cld ;;
  movl (λ c, c <| eax := Z.lor (Z.land (eax c) 0xffff00ff) (Z.shiftl (al c) 8) |>) ;;
  let l2 := testb_al ;; jne back (goto done_) in
  loop fuel
    (lodsb ;; cmpb_ah_al ;; jne l2
    (movl (λ c, c <| edx := esi c |>) ;; decl_edx ;;
    l2)) ;;
  c ← get; mret (edx c).

(** The length of the string at [ct], to edx: the first lines of strspn,
    strcspn, strpbrk and strstr; eax is 0 and ecx -1. *)
Definition count_ct (ct : Z) : M cpu unit :=
  cld ;;
  movl (λ c, c <| edi := ct |>) ;;
  repne fuel scasb ;;
  notl_ecx ;; decl_ecx ;;
  movl (λ c, c <| edx := ecx c |>).
(** Is the character in al in the string at [ct]? *)
Definition scan_ct (ct : Z) : M cpu unit :=
  movl (λ c, c <| edi := ct |>) ;;
  movl (λ c, c <| ecx := edx c |>) ;;
  repne fuel scasb.

Definition strspn (cs ct : Z) : M cpu Z :=
  with_args (λ c, c <| eax := 0 |> <| ecx := 0xffffffff |> <| esi := cs |>) ;;
  count_ct ct ;;
  let l2 := decl_esi in
  loop fuel
    (lodsb ;; testb_al ;; je (goto l2)
    (scan_ct ct ;; je back
    (goto l2))) ;;
  c ← get; mret (s32 (esi c - cs)).

Definition strcspn (cs ct : Z) : M cpu Z :=
  with_args (λ c, c <| eax := 0 |> <| ecx := 0xffffffff |> <| esi := cs |>) ;;
  count_ct ct ;;
  let l2 := decl_esi in
  loop fuel
    (lodsb ;; testb_al ;; je (goto l2)
    (scan_ct ct ;; jne back
    (goto l2))) ;;
  c ← get; mret (s32 (esi c - cs)).

Definition strpbrk (cs ct : Z) : M cpu Z :=
  with_args (λ c, c <| eax := 0 |> <| ecx := 0xffffffff |> <| esi := cs |>) ;;
  count_ct ct ;;
  loop fuel
    (lodsb ;; testb_al ;; je (goto xorl_esi)
    (scan_ct ct ;; jne back
    (goto decl_esi))) ;;
  c ← get; mret (esi c).

Definition strstr (cs ct : Z) : M cpu Z :=
  with_args (λ c, c <| eax := 0 |> <| ecx := 0xffffffff |> <| esi := cs |>) ;;
  count_ct ct ;;
  loop fuel
    (movl (λ c, c <| edi := ct |>) ;;
     movl (λ c, c <| eax := esi c |>) ;;
     movl (λ c, c <| ecx := edx c |>) ;;
     repe fuel cmpsb ;; je (goto done_)
    (movl (λ c, c <| eax := esi c |> <| esi := eax c |>) ;;
     incl_esi ;;
     cmpb_0 (λ c, u32 (eax c - 1)) ;; jne back
    (goto xorl_eax))) ;;
  c ← get; mret (eax c).

Definition strlen (s : Z) : M cpu Z :=
  with_args (λ c, c <| edi := s |> <| eax := 0 |> <| ecx := 0xffffffff |>) ;;
  cld ;; repne fuel scasb ;; notl_ecx ;; decl_ecx ;;
  c ← get; mret (s32 (ecx c)).

Definition strtok (s ct : Z) : M cpu Z :=
  with_args (λ c, c <| ebx := ___strtok c |> <| esi := s |>) ;;
  let l8 := done_ in
  let l7 := testl ebx ;; jne l8 (movl (λ c, c <| esi := ebx c |>) ;; l8) in
  let l6 := cmpb_0 ebx ;; jne l7 (xorl_ebx ;; l7) in
  let l5 := xorl_esi ;; l6 in
  let l3 := loop fuel
    (lodsb ;; testb_al ;; je (goto l5)
    (scan_ct ct ;; jne back
    (decl_esi ;; cmpb_0 esi ;; je (goto l5)
    (movl (λ c, c <| ram ::= <[esi c := 0]> |>) ;; incl_esi ;; goto l6)))) in
  let l2 := loop fuel
    (lodsb ;; testb_al ;; je (goto l7)
    (scan_ct ct ;; je back
    (decl_esi ;; cmpb_0 esi ;; je (goto l7)
    (movl (λ c, c <| ebx := esi c |>) ;; goto l3)))) in
  let l1 :=
    xorl_ebx ;; movl (λ c, c <| ecx := 0xffffffff |>) ;; xorl_eax ;;
    cld ;; movl (λ c, c <| edi := ct |>) ;; repne fuel scasb ;; notl_ecx ;; decl_ecx ;; je l7
    (movl (λ c, c <| edx := ecx c |>) ;; l2) in
  testl esi ;; jne l1
  (testl ebx ;; je l8
  (movl (λ c, c <| esi := ebx c |>) ;; l1)) ;;
  modify (λ c, c <| ___strtok := esi c |>) ;;
  c ← get; mret (ebx c).

Definition memcpy (dest src n : Z) : M cpu Z :=
  with_args (λ c, c <| ecx := u32 n |> <| esi := src |> <| edi := dest |>) ;;
  cld ;; rep fuel movsb ;;
  mret dest.

Definition memmove (dest src n : Z) : M cpu Z :=
  (if dest <? src then
     with_args (λ c, c <| ecx := u32 n |> <| esi := src |> <| edi := dest |>) ;;
     cld ;; rep fuel movsb
   else
     with_args (λ c, c <| ecx := u32 n |> <| esi := u32 (src + n - 1) |> <| edi := u32 (dest + n - 1) |>) ;;
     std ;; rep fuel movsb) ;;
  mret dest.

(** With [count] = 0 the flags are those of the code before. *)
Definition memcmp (cs ct count : Z) : M cpu Z :=
  with_args (λ c, c <| eax := 0 |> <| edi := cs |> <| esi := ct |> <| ecx := u32 count |>) ;;
  cld ;; repe fuel cmpsb ;;
  let l1 := done_ in
  je l1 (movl (λ c, c <| eax := 1 |>) ;; jl l1 (negl_eax ;; l1)) ;;
  c ← get; mret (s32 (eax c)).

Definition memchr (cs ch count : Z) : M cpu Z :=
  if negb (truth count) then mret 0 else
  with_args (λ c, set_al (u8 ch) c <| edi := cs |> <| ecx := u32 count |>) ;;
  cld ;; repne fuel scasb ;;
  let l1 := decl_edi in
  je l1 (movl (λ c, c <| edi := 1 |>) ;; l1) ;;
  c ← get; mret (edi c).

Definition memset (s ch count : Z) : M cpu Z :=
  with_args (λ c, set_al (u8 ch) c <| edi := s |> <| ecx := u32 count |>) ;;
  cld ;; rep fuel stosb ;;
  mret s.
End Functions.
