(* ===== verification/StringHProofs.v ===== *)
(** * The functions of include/string.h

    [cstr m a l]: the string [l] is at [a] in memory [m], a zero behind it;
    [blit m a l]: [m] with the bytes [l] from [a] on; [bytes m a n]: the [n]
    bytes from [a] on. *)

From stdpp Require Import base option list gmap.
From Stdlib Require Import ZArith Lia.
From S2P Require Import Prelude StringH.
Local Open Scope Z_scope.

(** ** Memory *)

Fixpoint cstr (m : gmap Z Z) (a : Z) (l : list Z) : Prop :=
  match l with
  | [] => byte m a = 0
  | x :: l => x ≠ 0 ∧ byte m a = x ∧ cstr m (a + 1) l
  end.
Fixpoint blit (m : gmap Z Z) (a : Z) (l : list Z) : gmap Z Z :=
  match l with [] => m | x :: l => blit (<[a := x]> m) (a + 1) l end.
Fixpoint bytes (m : gmap Z Z) (a : Z) (n : nat) : list Z :=
  match n with O => [] | S n => byte m a :: bytes m (a + 1) n end.
(** [n] bytes from [a] on and one more end below the end of memory. *)
Definition fits (a : Z) (n : nat) : Prop := 0 ≤ a ∧ a + Z.of_nat n + 1 < 4294967296.

Lemma byte_bound m a : 0 ≤ byte m a < 256.
Proof. apply u8_bound. Qed.
Lemma byte_insert m a v b : 0 ≤ v < 256 → byte (<[a := v]> m) b = if decide (a = b) then v else byte m b.
Proof.
  intros Hv. unfold byte. case_decide; subst; [by rewrite lookup_insert_eq; apply u8_small|by rewrite lookup_insert_ne].
Qed.
Lemma byte_insert_ne m a v b : a ≠ b → byte (<[a := v]> m) b = byte m b.
Proof. intros Hab. unfold byte. by rewrite lookup_insert_ne. Qed.
Lemma cstr_insert m a v b l : ¬ (b ≤ a ≤ b + Z.of_nat (length l)) → cstr m b l → cstr (<[a := v]> m) b l.
Proof.
  revert b. induction l as [|x l IH]; intros b Ha; simpl in *.
  - by rewrite byte_insert_ne by lia.
  - intros (Hx & Hb & Hl). rewrite byte_insert_ne by lia. split; [done|]. split; [done|]. apply IH; [lia|done].
Qed.
Lemma cstr_bound m a l : cstr m a l → Forall (λ x, 0 < x < 256) l.
Proof.
  revert a. induction l as [|x l IH]; intros a; simpl; [done|]. intros (Hx & Hb & Hl). constructor; [|by apply (IH (a + 1))].
  pose proof (byte_bound m a). lia.
Qed.
Lemma cstr_app m a l k : cstr m a (l ++ k) → cstr m (a + Z.of_nat (length l)) k.
Proof.
  revert a. induction l as [|x l IH]; intros a; simpl; [by rewrite Z.add_0_r|]. intros (_ & _ & Hl).
  apply IH in Hl. by replace (a + Z.of_nat (S (length l))) with (a + 1 + Z.of_nat (length l)) by lia.
Qed.
Lemma fits_S a n : fits a (S n) → fits (a + 1) n ∧ u32 (a + 1) = a + 1.
Proof. unfold fits. intros H. split; [lia|]. apply u32_small. lia. Qed.
Lemma fits_bound a n : fits a n → 0 ≤ a < 4294967296.
Proof. unfold fits. lia. Qed.

(** ** Registers *)

Lemma al_set v e : 0 ≤ v < 256 → Z.land (Z.lor (Z.land e 0xffffff00) v) 0xff = v.
Proof.
  intros Hv. rewrite Z.land_lor_distr_l, <-Z.land_assoc. change (Z.land 0xffffff00 0xff) with 0.
  rewrite Z.land_0_r, Z.lor_0_l. change 0xff with (Z.ones 8). rewrite Z.land_ones by lia. by apply Z.mod_small.
Qed.
Lemma al_bound c : 0 ≤ al c < 256.
Proof. unfold al. change 0xff with (Z.ones 8). rewrite Z.land_ones by lia. by apply Z.mod_pos_bound. Qed.
(** al leaves ah alone. *)
Lemma ah_set v e : 0 ≤ v < 256 → Z.land (Z.shiftr (Z.lor (Z.land e 0xffffff00) v) 8) 0xff = Z.land (Z.shiftr e 8) 0xff.
Proof.
  intros Hv. rewrite Z.shiftr_lor, Z.shiftr_land. rewrite (Z.shiftr_div_pow2 v) by lia.
  change (2 ^ 8) with 256. rewrite Z.div_small, Z.lor_0_r by lia. change (Z.shiftr 0xffffff00 8) with (Z.ones 24).
  rewrite <-Z.land_assoc. done.
Qed.
Lemma ah_copy e : Z.land (Z.shiftr (Z.lor (Z.land e 0xffff00ff) (Z.shiftl (Z.land e 0xff) 8)) 8) 0xff = Z.land e 0xff.
Proof.
  rewrite Z.shiftr_lor, Z.shiftr_land, Z.shiftr_shiftl_l by lia. rewrite Z.sub_diag, Z.shiftl_0_r.
  change (Z.shiftr 0xffff00ff 8) with 0xffff00. rewrite Z.land_lor_distr_l, <-!Z.land_assoc.
  change (Z.land 0xffff00 0xff) with 0. change (Z.land 0xff 0xff) with 0xff. by rewrite Z.land_0_r, Z.lor_0_l.
Qed.

(** Execute instructions; the state becomes a record again. *)
Ltac run :=
  cbv beta iota zeta delta [with_args cld std lodsb stosb movsb scasb cmpsb testb_al cmpb_ah_al cmpb_0 testl decl_ecx notl_ecx
    decl_esi incl_esi decl_edi decl_eax decl_edx negl_eax xorl_eax xorl_ebx xorl_esi clear movl modify
    je jne jl js cond back goto done_ get mbind M_bind mret M_ret cmp8 flags32 set_flags set_al al ah step_of set
    eax ebx ecx edx esi edi zf sf lt df ram ___strtok].

(** Split a state into its fields. *)
Ltac fields c := destruct c as [a0 b0 c0 d0 si di z0 s0 l0 dir m t0];
  cbn [eax ebx ecx edx esi edi zf sf lt df ram ___strtok] in *; try subst dir.

Lemma loop_next fuel body c c' : body c = Ok None c' → loop (S fuel) body c = loop fuel body c'.
Proof. intros H. cbn [loop]. by rewrite (bind_Ok _ _ _ _ _ H). Qed.
Lemma loop_exit fuel body c k c' : body c = Ok (Some k) c' → loop (S fuel) body c = k c'.
Proof. intros H. cbn [loop]. by rewrite (bind_Ok _ _ _ _ _ H). Qed.
Lemma repeat_end stop fuel op c : ecx c = 0 → repeat_ stop fuel op c = Ok tt c.
Proof. intros H. destruct fuel; cbn [repeat_]; rewrite (bind_Ok get _ c c c eq_refl), H; done. Qed.
Lemma repeat_step stop fuel op c c' :
  ecx c ≠ 0 → op (c <| ecx := u32 (ecx c - 1) |>) = Ok tt c' →
  repeat_ stop (S fuel) op c = if stop c' then Ok tt c' else repeat_ stop fuel op c'.
Proof.
  intros H Hop. cbn [repeat_]. rewrite (bind_Ok get _ c c c eq_refl). destruct (Z.eqb_spec (ecx c) 0); [done|].
  rewrite (bind_Ok (modify _) _ c tt _ eq_refl), (bind_Ok _ _ _ _ _ Hop), (bind_Ok get _ c' c' c' eq_refl).
  by destruct (stop c').
Qed.

(** The state as a record again: [cpu_simp] computes the fields of one. *)
Ltac cpu_simp := cbn [eax ebx ecx edx esi edi zf sf lt df ram ___strtok] in *.
(** One round of a loop, by execution: [tac] decides the jumps. *)
Ltac next tac := erewrite loop_next by (run; tac; reflexivity).
Ltac leave tac := erewrite loop_exit by (run; tac; reflexivity).

(** ** Copying *)

Local Notation copy_byte := (lodsb ;; stosb ;; testb_al ;; jne back (goto done_)).

Lemma copy_loop l fuel c :
  (length l < fuel)%nat → df c = false → cstr (ram c) (esi c) l → fits (esi c) (length l) → fits (edi c) (length l) →
  edi c ≤ esi c ∨ esi c + Z.of_nat (length l) < edi c →
  ∃ c', loop fuel copy_byte c = Ok tt c' ∧ ram c' = blit (ram c) (edi c) (l ++ [0]).
Proof.
  revert fuel c. induction l as [|x l IH]; intros fuel c Hf Hd Hl Hs Ht Hdis; (destruct fuel as [|fuel]; [simpl in Hf; lia|]);
    fields c; simpl in Hl, Hdis.
  - leave ltac:(rewrite al_set by apply byte_bound; rewrite Hl). eexists. split; [done|]. done.
  - destruct Hl as (Hx & Hb & Hl). destruct (fits_S _ _ Hs) as [Hs' Hs1]. destruct (fits_S _ _ Ht) as [Ht' Ht1].
    next ltac:(rewrite al_set, Hb, Hs1, Ht1 by apply byte_bound; destruct (Z.eqb_spec x 0); [done|]; cbn [negb]).
    apply IH; cpu_simp; [simpl in Hf; lia|done| |done|done|lia].
    apply cstr_insert; [lia|done].
Qed.

(** ** Scanning *)

(** Only ecx, edi and the flags differ. *)
Record kept (c c' : cpu) : Prop := {
  kp_eax : eax c' = eax c; kp_ebx : ebx c' = ebx c; kp_edx : edx c' = edx c; kp_esi : esi c' = esi c;
  kp_df : df c' = df c; kp_ram : ram c' = ram c; kp_strtok : ___strtok c' = ___strtok c
}.
#[export] Instance kept_preorder : PreOrder kept.
Proof. split; [by split|]. intros x y z [] []. split; congruence. Qed.
Lemma kept_al c c' : kept c c' → al c' = al c.
Proof. intros []. unfold al. congruence. Qed.

(** One round of repne scasb. *)
Lemma scasb_step fuel c :
  df c = false → 0 < ecx c < 4294967296 → fits (edi c) 0 →
  ∃ c', kept c c' ∧ ecx c' = ecx c - 1 ∧ edi c' = edi c + 1 ∧ zf c' = (al c =? byte (ram c) (edi c)) ∧
    repne (S fuel) scasb c = if zf c' then Ok tt c' else repne fuel scasb c'.
Proof.
  intros Hd Hx Hi. destruct (fits_bound _ _ Hi) as [? ?]. eexists. split; [|split; [|split; [|split]]].
  5: { unfold repne. apply repeat_step; [lia|]. run. reflexivity. }
  all: fields c; try done.
  - apply u32_small. lia.
  - apply u32_small. unfold fits in Hi. lia.
Qed.
Lemma scan_found i fuel c :
  (i < fuel)%nat → df c = false → Z.of_nat i < ecx c < 4294967296 → fits (edi c) i →
  (∀ j, (j < i)%nat → byte (ram c) (edi c + Z.of_nat j) ≠ al c) → byte (ram c) (edi c + Z.of_nat i) = al c →
  ∃ c', repne fuel scasb c = Ok tt c' ∧ kept c c' ∧ zf c' = true ∧
    ecx c' = ecx c - Z.of_nat i - 1 ∧ edi c' = edi c + Z.of_nat i + 1.
Proof.
  revert fuel c. induction i as [|i IH]; intros fuel c Hf Hd Hx Hi Hne Heq; (destruct fuel as [|fuel]; [lia|]);
    destruct (scasb_step fuel c Hd) as (c1 & Hk & H1 & H2 & H3 & Hrun); [lia|unfold fits in *; lia| |lia|unfold fits in *; lia|];
    rewrite Hrun, H3.
  - rewrite Z.add_0_r in Heq. rewrite Heq, Z.eqb_refl. exists c1. split; [done|]. split; [done|]. rewrite H3, Heq, Z.eqb_refl.
    split; [done|lia].
  - specialize (Hne 0%nat) as Hne0. rewrite Z.add_0_r in Hne0. destruct (Z.eqb_spec (al c) (byte (ram c) (edi c))) as [He|_]; [by destruct Hne0; [lia|]|].
    destruct (IH fuel c1) as (c' & Hr & Hk' & Hz & Hex & Hed); rewrite ?H1, ?H2, ?(kept_al _ _ Hk), ?(kp_ram _ _ Hk), ?(kp_df _ _ Hk);
      [lia|done|lia|unfold fits in *; lia| | |].
    + intros j Hj. specialize (Hne (S j)). replace (edi c + 1 + Z.of_nat j) with (edi c + Z.of_nat (S j)) by lia. apply Hne. lia.
    + rewrite <-Heq. f_equal. lia.
    + exists c'. split; [done|]. split; [by etrans|]. split; [done|]. lia.
Qed.
Lemma scan_none n fuel c :
  (n < fuel)%nat → df c = false → ecx c = Z.of_nat n → fits (edi c) n →
  (∀ j, (j < n)%nat → byte (ram c) (edi c + Z.of_nat j) ≠ al c) → (zf c = false ∨ n ≠ 0%nat) →
  ∃ c', repne fuel scasb c = Ok tt c' ∧ kept c c' ∧ zf c' = false.
Proof.
  revert fuel c. induction n as [|n IH]; intros fuel c Hf Hd Hx Hi Hne Hz.
  - exists c. split; [by apply repeat_end|]. split; [done|]. by destruct Hz.
  - destruct fuel as [|fuel]; [lia|].
    destruct (scasb_step fuel c Hd) as (c1 & Hk & H1 & H2 & H3 & Hrun); [unfold fits in *; lia|unfold fits in *; lia|].
    specialize (Hne 0%nat) as Hne0. rewrite Z.add_0_r in Hne0.
    destruct (Z.eqb_spec (al c) (byte (ram c) (edi c))) as [He|_]; [by destruct Hne0; [lia|]|]. rewrite Hrun, H3.
    destruct (IH fuel c1) as (c' & Hr & Hk' & Hz'); rewrite ?H1, ?H2, ?(kept_al _ _ Hk), ?(kp_ram _ _ Hk), ?(kp_df _ _ Hk);
      [lia|done|lia|unfold fits in *; lia| |by left|].
    + intros j Hj. specialize (Hne (S j)). replace (edi c + 1 + Z.of_nat j) with (edi c + Z.of_nat (S j)) by lia. apply Hne. lia.
    + exists c'. split; [done|]. split; [by etrans|done].
Qed.

Lemma cstr_lookup m a l (j : nat) x : cstr m a l → l !! j = Some x → byte m (a + Z.of_nat j) = x.
Proof.
  revert a j. induction l as [|y l IH]; intros a [|j] Hl Hj; try done; simpl in Hl; destruct Hl as (_ & Hb & Hl).
  - injection Hj as <-. by rewrite Z.add_0_r.
  - rewrite <-(IH (a + 1) j Hl Hj). f_equal. lia.
Qed.
Lemma cstr_end m a l : cstr m a l → byte m (a + Z.of_nat (length l)) = 0.
Proof.
  revert a. induction l as [|x l IH]; intros a; simpl; [by rewrite Z.add_0_r|]. intros (_ & _ & Hl).
  rewrite <-(IH _ Hl). f_equal. lia.
Qed.
Lemma cstr_nonzero m a l (j : nat) : cstr m a l → (j < length l)%nat → byte m (a + Z.of_nat j) ≠ 0.
Proof.
  intros Hl Hj. destruct (lookup_lt_is_Some_2 l j Hj) as [x Hx]. rewrite (cstr_lookup m a l j x Hl Hx).
  pose proof (Forall_lookup_1 _ _ _ _ (cstr_bound m a l Hl) Hx). simpl in *. lia.
Qed.

(** The end of a string. *)
Lemma scan_end fuel c l :
  (length l < fuel)%nat → df c = false → al c = 0 → ecx c = 4294967295 → cstr (ram c) (edi c) l → fits (edi c) (length l) →
  ∃ c', repne fuel scasb c = Ok tt c' ∧ kept c c' ∧ ecx c' = 4294967295 - Z.of_nat (length l) - 1 ∧
    edi c' = edi c + Z.of_nat (length l) + 1.
Proof.
  intros Hf Hd Ha Hx Hl Hi.
  destruct (scan_found (length l) fuel c Hf Hd) as (c' & Hr & Hk & _ & H1 & H2); rewrite ?Ha; [unfold fits in *; lia|done| | |].
  - intros j Hj. by apply (cstr_nonzero _ _ _ _ Hl).
  - by apply cstr_end.
  - exists c'. rewrite H1, Hx. done.
Qed.

(** ** Is a character in a string? *)
Lemma scan_ct_run fuel c ct d :
  (length d < fuel)%nat → df c = false → cstr (ram c) ct d → fits ct (length d) → edx c = Z.of_nat (length d) →
  (zf c = false ∨ d ≠ []) →
  ∃ c', scan_ct fuel ct c = Ok tt c' ∧ kept c c' ∧ zf c' = bool_decide (al c ∈ d).
Proof.
  intros Hf Hd Hc Hi Hx Hz. unfold scan_ct. rewrite (bind_Ok (movl _) _ c tt _ eq_refl), (bind_Ok (movl _) _ _ tt _ eq_refl).
  set (c1 := c <| edi := ct |>). set (c2 := c1 <| ecx := edx c1 |>).
  assert (Hk : kept c c2) by (by split). change (al c) with (al c2).
  assert (Hch : ∀ j x, d !! j = Some x → byte (ram c2) (edi c2 + Z.of_nat j) = x) by (intros j x; by apply cstr_lookup).
  assert (Hfd : fits ct (length d) → fits (edi c2) (length d)) by done. specialize (Hfd Hi).
  destruct (list_find (λ x, x = al c2) d) as [[i x]|] eqn:Hfind.
  - apply list_find_Some in Hfind as (Hdi & -> & Hfirst). pose proof (lookup_lt_Some _ _ _ Hdi) as Hlt.
    destruct (scan_found i fuel c2) as (c' & Hr & Hk' & Hz' & _); [lia|done|unfold c2, fits in *; simpl; lia|unfold fits in *; lia| |by apply Hch|].
    + intros j Hj. destruct (lookup_lt_is_Some_2 d j) as [y Hy]; [lia|]. rewrite (Hch j y Hy). by apply (Hfirst j y).
    + exists c'. split; [done|]. split; [by etrans|]. rewrite Hz', bool_decide_true; [done|]. by eapply list_elem_of_lookup_2.
  - apply list_find_None in Hfind. rewrite Forall_forall in Hfind.
    destruct (scan_none (length d) fuel c2) as (c' & Hr & Hk' & Hz'); [lia|done|exact Hx|done| | |].
    + intros j Hj. destruct (lookup_lt_is_Some_2 d j Hj) as [y Hy]. rewrite (Hch j y Hy). apply Hfind. by eapply list_elem_of_lookup_2.
    + destruct Hz as [Hz|Hz]; [by left|right]. by destruct d.
    + exists c'. split; [done|]. split; [by etrans|]. rewrite Hz', bool_decide_false; [done|]. intros Hin. by apply (Hfind _ Hin).
Qed.

(** ** The loops over a string, one character at a time *)

(** esi has moved by [n]; eax, ecx, edi and the flags may differ. *)
Record moved (n : Z) (c c' : cpu) : Prop := {
  mv_ebx : ebx c' = ebx c; mv_edx : edx c' = edx c; mv_esi : esi c' = esi c + n;
  mv_df : df c' = df c; mv_ram : ram c' = ram c; mv_strtok : ___strtok c' = ___strtok c
}.
Lemma moved_trans n n' c1 c2 c3 : moved n c1 c2 → moved n' c2 c3 → moved (n + n') c1 c3.
Proof. intros [] []. split; try congruence. lia. Qed.

(** The next character is looked up in [d]. *)
Section Char.
Context (fuel : nat) (ct : Z) (d : list Z) (Hf : (length d < fuel)%nat) (Hct : fits ct (length d)).

Record ready (c : cpu) : Prop := {
  rd_df : df c = false; rd_d : cstr (ram c) ct d; rd_edx : edx c = Z.of_nat (length d)
}.
Lemma ready_step n c c' : ready c → moved n c c' → ready c'.
Proof. intros [] []. split; congruence. Qed.

Lemma char_end c :
  ready c → fits (esi c) 0 → byte (ram c) (esi c) = 0 →
  ∃ c', moved 1 c c' ∧ zf c' = true ∧
    ∀ {A} (X Y : M cpu A), (lodsb ;; testb_al ;; je X (scan_ct fuel ct ;; Y)) c = X c'.
Proof.
  intros [Hd _ _] Hi Hb. destruct (fits_bound _ _ Hi) as [? ?]. fields c. eexists. split; [|split].
  3: { intros A X Y. run. rewrite al_set, Hb by apply byte_bound. reflexivity. }
  - split; try done. apply u32_small. unfold fits in Hi. cpu_simp. lia.
  - done.
Qed.
Lemma char_next c x :
  ready c → fits (esi c) 0 → byte (ram c) (esi c) = x → x ≠ 0 →
  ∃ c', moved 1 c c' ∧ zf c' = bool_decide (x ∈ d) ∧
    ∀ {A} (X Y : M cpu A), (lodsb ;; testb_al ;; je X (scan_ct fuel ct ;; Y)) c = Y c'.
Proof.
  intros [Hd Hc Hx] Hi Hb Hx0. destruct (fits_bound _ _ Hi) as [? ?].
  set (c1 := set_al x c <| esi := u32 (esi c + 1) |>).
  set (c2 := set_flags false (128 <=? x) (128 <=? x) c1).
  assert (Hxb : 0 ≤ x < 256) by (rewrite <-Hb; apply byte_bound).
  assert (Hal : al c2 = x) by (by apply al_set).
  destruct (scan_ct_run fuel c2 ct d Hf Hd Hc Hct Hx) as (c' & Hr & Hk & Hz); [by left|].
  exists c'. split; [|split].
  - destruct Hk as [_ H1 H2 H3 H4 H5 H6]. split; [exact H1|exact H2| |exact H4|exact H5|exact H6].
    rewrite H3. apply u32_small. unfold fits in Hi. lia.
  - by rewrite Hz, Hal.
  - intros A X Y. transitivity ((scan_ct fuel ct ;; Y) c2); [|by rewrite (bind_Ok _ _ _ _ _ Hr)].
    unfold c2, c1. fields c. run. rewrite al_set by apply byte_bound. rewrite Hb. destruct (Z.eqb_spec x 0); [done|]. reflexivity.
Qed.

(** Past the characters that are ([inside]) or are not in [d]. *)
Definition jump (inside : bool) : M cpu (option (M cpu unit)) → M cpu (option (M cpu unit)) → M cpu (option (M cpu unit)) :=
  if inside then je else jne.
Definition stops (inside : bool) (x : Z) : Prop := bool_decide (x ∈ d) ≠ inside.
#[local] Instance stops_dec inside x : Decision (stops inside x).
Proof. unfold stops. apply _. Defined.
Definition span_body (inside : bool) (X : M cpu unit) (Y : M cpu (option (M cpu unit))) : M cpu (option (M cpu unit)) :=
  lodsb ;; testb_al ;; je (goto X) (scan_ct fuel ct ;; jump inside back Y).
Lemma jump_run inside X Y c (b : bool) : zf c = b → jump inside X Y c = if decide (b = inside) then X c else Y c.
Proof.
  intros Hz. unfold jump. destruct inside; unfold je, jne, cond; rewrite (bind_Ok get _ c c c eq_refl), Hz; by destruct b.
Qed.

Lemma span_loop inside l n c X Y :
  (length l < n)%nat → ready c → cstr (ram c) (esi c) l → fits (esi c) (length l) →
  match list_find (stops inside) l with
  | Some (i, x) => ∃ c1, moved (Z.of_nat i + 1) c c1 ∧ zf c1 = bool_decide (x ∈ d) ∧
      ∀ k c2, Y c1 = Ok (Some k) c2 → loop n (span_body inside X Y) c = k c2
  | None => ∃ c1, moved (Z.of_nat (length l) + 1) c c1 ∧ zf c1 = true ∧ loop n (span_body inside X Y) c = X c1
  end.
Proof.
  revert n c. induction l as [|x l IH]; intros n c Hn Hr Hl Hi; (destruct n as [|n]; [simpl in Hn; lia|]); simpl in Hl.
  - destruct (char_end c Hr) as (c1 & Hm & Hz & Hrun); [done|done|]. exists c1. split; [done|]. split; [done|].
    unfold span_body. apply loop_exit. rewrite Hrun. done.
  - destruct Hl as (Hx & Hb & Hl).
    destruct (char_next c x Hr) as (c1 & Hm & Hz & Hrun); [unfold fits in *; simpl in Hi; lia|done|done|].
    cbn [list_find]. destruct (decide (stops inside x)) as [Hs|Hs].
    + exists c1. split; [done|]. split; [done|]. intros k c2 HY. apply loop_exit. unfold span_body. rewrite Hrun.
      rewrite (jump_run inside _ _ _ _ Hz), decide_False by done. done.
    + assert (Heq : bool_decide (x ∈ d) = inside) by (by apply dec_stable).
      specialize (IH n c1). pose proof (mv_esi _ _ _ Hm) as He. pose proof (mv_ram _ _ _ Hm) as Hram. rewrite He, Hram in IH.
      destruct (fits_S _ _ Hi) as [Hi' _]. specialize (IH ltac:(simpl in Hn; lia) (ready_step _ _ _ Hr Hm) Hl Hi').
      assert (Hstep : loop (S n) (span_body inside X Y) c = loop n (span_body inside X Y) c1).
      { apply loop_next. unfold span_body. rewrite Hrun, (jump_run inside _ _ _ _ Hz), decide_True by done. done. }
      rewrite Hstep. destruct (list_find (stops inside) l) as [[i y]|]; cbn [prod_map fmap option_fmap option_map fst snd].
      * destruct IH as (c' & Hm' & Hz' & Hk). exists c'. split; [|done].
        replace (Z.of_nat (S i) + 1) with (1 + (Z.of_nat i + 1)) by lia. exact (moved_trans _ _ _ _ _ Hm Hm').
      * destruct IH as (c' & Hm' & Hz' & Hk). exists c'. split; [|done].
        replace (Z.of_nat (length (x :: l)) + 1) with (1 + (Z.of_nat (length l) + 1)) by (simpl; lia). exact (moved_trans _ _ _ _ _ Hm Hm').
Qed.
End Char.

(** ** The length of a string *)

Lemma not_dec n : 0 ≤ n < 4294967295 → u32 (- (4294967295 - n - 1) - 1) = n + 1 ∧ u32 (n + 1 - 1) = n ∧ u32 (s32 (n + 1) - 1) = n.
Proof.
  intros Hn. split; [|split].
  - unfold u32. replace (- (4294967295 - n - 1) - 1) with (n + 1 + (-1) * 4294967296) by lia.
    rewrite Z.mod_add by lia. apply Z.mod_small. lia.
  - rewrite u32_small; lia.
  - transitivity (u32 (n + 1 - 1)); [wrap_ring|]. rewrite u32_small; lia.
Qed.
(** [repne; scasb; notl; decl] *)
Lemma length_run fuel c l :
  (length l < fuel)%nat → df c = false → al c = 0 → ecx c = 4294967295 → cstr (ram c) (edi c) l → fits (edi c) (length l) →
  ∃ c', (∀ {A} (k : M cpu A), (repne fuel scasb ;; notl_ecx ;; decl_ecx ;; k) c = k c') ∧
    ecx c' = Z.of_nat (length l) ∧ zf c' = (Z.of_nat (length l) =? 0) ∧
    eax c' = eax c ∧ ebx c' = ebx c ∧ esi c' = esi c ∧ df c' = df c ∧ ram c' = ram c ∧ ___strtok c' = ___strtok c.
Proof.
  intros Hf Hd Ha Hx Hl Hi. destruct (scan_end fuel c l Hf Hd Ha Hx Hl Hi) as (c1 & Hr & [] & H1 & H2).
  destruct (not_dec (Z.of_nat (length l))) as (N1 & N2 & N3); [unfold fits in Hi; lia|].
  set (c2 := c1 <| ecx := u32 (- ecx c1 - 1) |>). assert (Hx2 : ecx c2 = Z.of_nat (length l) + 1).
  { change (ecx c2) with (u32 (- ecx c1 - 1)). by rewrite H1, N1. }
  exists (flags32 (s32 (ecx c2) - 1) c2 <| ecx := u32 (ecx c2 - 1) |>). split.
  { intros A k. by rewrite (bind_Ok _ _ _ _ _ Hr), (bind_Ok notl_ecx _ c1 tt c2 eq_refl), (bind_Ok decl_ecx _ c2 tt _ eq_refl). }
  split; [change (u32 (ecx c2 - 1) = Z.of_nat (length l)); by rewrite Hx2|].
  split; [change ((u32 (s32 (ecx c2) - 1) =? 0) = (Z.of_nat (length l) =? 0)); by rewrite Hx2, N3|]. done.
Qed.

Theorem strlen_correct fuel c s l :
  (length l < fuel)%nat → cstr (ram c) s l → fits s (length l) → Z.of_nat (length l) < 2147483648 →
  ∃ c', strlen fuel s c = Ok (Z.of_nat (length l)) c' ∧ ram c' = ram c.
Proof.
  intros Hf Hl Hi Hs. unfold strlen. set (c1 := c <| edi := s |> <| eax := 0 |> <| ecx := 0xffffffff |> <| df := false |>).
  destruct (length_run fuel c1 l Hf eq_refl eq_refl eq_refl Hl Hi) as (c' & Hrun & Hx & _ & _ & _ & _ & _ & Hram & _).
  exists c'. rewrite (bind_Ok (with_args _) _ c tt _ eq_refl), (bind_Ok cld _ _ tt c1 eq_refl), Hrun.
  rewrite (bind_Ok get _ c' c' c' eq_refl), Hx. split; [|done]. unfold mret, M_ret. f_equal. apply s32_small. lia.
Qed.

Lemma count_ct_run fuel ct d c :
  (length d < fuel)%nat → cstr (ram c) ct d → fits ct (length d) → eax c = 0 → ecx c = 0xffffffff →
  ∃ c', count_ct fuel ct c = Ok tt c' ∧ ready ct d c' ∧ zf c' = (Z.of_nat (length d) =? 0) ∧
    ebx c' = ebx c ∧ esi c' = esi c ∧ ram c' = ram c ∧ ___strtok c' = ___strtok c.
Proof.
  intros Hf Hd Hi Ha Hx. unfold count_ct. set (c1 := c <| df := false |> <| edi := ct |>).
  destruct (length_run fuel c1 d Hf eq_refl) as (c' & Hrun & Hx' & Hz & _ & H2 & H3 & H4 & H5 & H6);
    [unfold al; simpl; by rewrite Ha|done|done|done|].
  exists (c' <| edx := ecx c' |>). rewrite (bind_Ok cld _ c tt _ eq_refl), (bind_Ok (movl _) _ _ tt c1 eq_refl), Hrun.
  split; [done|]. split; [|done]. split; [exact H4|simpl; by rewrite H5|exact Hx'].
Qed.

(** ** strspn, strcspn and strpbrk *)

Lemma seq3 {A} (m1 m2 m3 : M cpu unit) (k : M cpu A) c c' :
  (m1 ;; m2 ;; m3) c = Ok tt c' → (m1 ;; m2 ;; m3 ;; k) c = k c'.
Proof.
  unfold mbind, M_bind. destruct (m1 c) as [? c1|? ?|? ?|?|]; try done. destruct (m2 c1) as [? c2|? ?|? ?|?|]; try done.
  by intros ->.
Qed.

Section Span.
Context (fuel : nat) (ct : Z) (d : list Z) (Hf : (length d < fuel)%nat) (Hct : fits ct (length d)).

(** A loop to the first character that is not ([inside]) or is in [d]; the
    address [Y] gets is one behind it. *)
Lemma span_run inside c cs l X Y :
  (length l < fuel)%nat → cstr (ram c) cs l → fits cs (length l) → cstr (ram c) ct d →
  ∃ c1, moved 1 (c <| esi := match list_find (stops d inside) l with Some (i, _) => cs + Z.of_nat i | None => cs + Z.of_nat (length l) end |>
                   <| edx := Z.of_nat (length d) |> <| df := false |>) c1 ∧
    (with_args (λ c, c <| eax := 0 |> <| ecx := 0xffffffff |> <| esi := cs |>) ;;
     count_ct fuel ct ;; loop fuel (span_body fuel ct inside X (goto Y))) c =
    (match list_find (stops d inside) l with Some _ => Y | None => X end) c1.
Proof.
  intros Hn Hl Hi Hd. set (c0 := c <| eax := 0 |> <| ecx := 0xffffffff |> <| esi := cs |>).
  destruct (count_ct_run fuel ct d c0 Hf Hd Hct eq_refl eq_refl) as (c1 & Hr & Hrd & _ & H1 & H2 & H3 & H4).
  rewrite (bind_Ok (with_args _) _ c tt _ eq_refl), (bind_Ok _ _ _ _ _ Hr).
  assert (Hl1 : cstr (ram c1) (esi c1) l) by (by rewrite H2, H3). assert (Hi1 : fits (esi c1) (length l)) by (by rewrite H2).
  pose proof (span_loop fuel ct d Hf Hct inside l fuel c1 X (goto Y) Hn Hrd Hl1 Hi1) as Hloop.
  assert (Hmv : ∀ n c2, moved (n + 1) c1 c2 →
    moved 1 (c <| esi := cs + n |> <| edx := Z.of_nat (length d) |> <| df := false |>) c2).
  { intros n c2 [M1 M2 M3 M4 M5 M6]. destruct Hrd as [R1 R2 R3]. split; simpl.
    - by rewrite M1, H1.
    - congruence.
    - rewrite M3, H2. simpl. lia.
    - congruence.
    - by rewrite M5, H3.
    - by rewrite M6, H4. }
  destruct (list_find (stops d inside) l) as [[i x]|].
  - destruct Hloop as (c2 & Hm & _ & Hk). exists c2. split; [by apply Hmv|]. by apply Hk.
  - destruct Hloop as (c2 & Hm & _ & Hk). exists c2. split; [by apply Hmv|done].
Qed.
Lemma span_length inside c cs l :
  (length l < fuel)%nat → cstr (ram c) cs l → fits cs (length l) → cstr (ram c) ct d → Z.of_nat (length l) < 2147483648 →
  ∃ c', (with_args (λ c, c <| eax := 0 |> <| ecx := 0xffffffff |> <| esi := cs |>) ;;
     count_ct fuel ct ;; loop fuel (span_body fuel ct inside decl_esi (goto decl_esi)) ;;
     c ← get; mret (s32 (esi c - cs))) c =
    Ok (match list_find (stops d inside) l with Some (i, _) => Z.of_nat i | None => Z.of_nat (length l) end) c' ∧ ram c' = ram c.
Proof.
  intros Hn Hl Hi Hd Hs. destruct (span_run inside c cs l decl_esi decl_esi Hn Hl Hi Hd) as (c1 & [_ _ H3 _ H5 _] & Hrun).
  assert (Hb : ∀ i x, list_find (stops d inside) l = Some (i, x) → (i < length l)%nat).
  { intros i x (Hi' & _)%list_find_Some. by apply lookup_lt_Some in Hi'. }
  set (n := match list_find (stops d inside) l with Some (i, _) => Z.of_nat i | None => Z.of_nat (length l) end) in *.
  assert (Hcs : esi c1 = cs + n + 1 ∧ 0 ≤ n ≤ Z.of_nat (length l)).
  { rewrite H3. unfold n. destruct (list_find (stops d inside) l) as [[i x]|]; simpl; [specialize (Hb i x eq_refl)|]; lia. }
  destruct Hcs as [Hcs Hnb].
  exists (flags32 (s32 (esi c1) - 1) c1 <| esi := u32 (esi c1 - 1) |>). split; [|exact H5].
  erewrite seq3 by (rewrite Hrun; by destruct (list_find (stops d inside) l)).
  rewrite (bind_Ok get _ _ _ _ eq_refl). unfold mret, M_ret. f_equal. cpu_simp. simpl. rewrite Hcs.
  replace (cs + n + 1 - 1) with (cs + n) by lia. unfold fits in Hi. rewrite u32_small by lia.
  replace (cs + n - cs) with n by lia. apply s32_small. lia.
Qed.
End Span.

Lemma find_outside d l : list_find (stops d true) l = list_find (λ x, x ∉ d) l.
Proof. apply list_find_ext. intros x. unfold stops. rewrite bool_decide_eq_true. done. Qed.
Lemma find_inside d l : list_find (stops d false) l = list_find (λ x, x ∈ d) l.
Proof.
  apply list_find_ext. intros x. unfold stops. rewrite bool_decide_eq_false. split; [apply dec_stable|tauto].
Qed.

Theorem strspn_correct fuel c cs ct l d :
  (length l < fuel)%nat → (length d < fuel)%nat → cstr (ram c) cs l → cstr (ram c) ct d →
  fits cs (length l) → fits ct (length d) → Z.of_nat (length l) < 2147483648 →
  ∃ c', strspn fuel cs ct c =
    Ok (match list_find (λ x, x ∉ d) l with Some (i, _) => Z.of_nat i | None => Z.of_nat (length l) end) c' ∧ ram c' = ram c.
Proof. intros Hf Hg Hl Hd Hi Hj Hs. rewrite <-find_outside. exact (span_length fuel ct d Hg Hj true c cs l Hf Hl Hi Hd Hs). Qed.
Theorem strcspn_correct fuel c cs ct l d :
  (length l < fuel)%nat → (length d < fuel)%nat → cstr (ram c) cs l → cstr (ram c) ct d →
  fits cs (length l) → fits ct (length d) → Z.of_nat (length l) < 2147483648 →
  ∃ c', strcspn fuel cs ct c =
    Ok (match list_find (λ x, x ∈ d) l with Some (i, _) => Z.of_nat i | None => Z.of_nat (length l) end) c' ∧ ram c' = ram c.
Proof. intros Hf Hg Hl Hd Hi Hj Hs. rewrite <-find_inside. exact (span_length fuel ct d Hg Hj false c cs l Hf Hl Hi Hd Hs). Qed.
Theorem strpbrk_correct fuel c cs ct l d :
  (length l < fuel)%nat → (length d < fuel)%nat → cstr (ram c) cs l → cstr (ram c) ct d →
  fits cs (length l) → fits ct (length d) →
  ∃ c', strpbrk fuel cs ct c =
    Ok (match list_find (λ x, x ∈ d) l with Some (i, _) => cs + Z.of_nat i | None => 0 end) c' ∧ ram c' = ram c.
Proof.
  intros Hf Hg Hl Hd Hi Hj. rewrite <-find_inside.
  destruct (span_run fuel ct d Hg Hj false c cs l xorl_esi decl_esi Hf Hl Hi Hd) as (c1 & [_ _ H3 _ H5 _] & Hrun).
  change (strpbrk fuel cs ct) with (with_args (λ c, c <| eax := 0 |> <| ecx := 0xffffffff |> <| esi := cs |>) ;;
    count_ct fuel ct ;; loop fuel (span_body fuel ct false xorl_esi (goto decl_esi)) ;; c ← get; mret (esi c)).
  destruct (list_find (stops d false) l) as [[i x]|] eqn:Hfind.
  - exists (flags32 (s32 (esi c1) - 1) c1 <| esi := u32 (esi c1 - 1) |>). split; [|exact H5]. rewrite (seq3 _ _ _ _ _ _ Hrun). apply list_find_Some in Hfind as (Hx & _). apply lookup_lt_Some in Hx.
    assert (He : u32 (esi c1 - 1) = cs + Z.of_nat i) by (simpl in H3; rewrite H3; unfold fits in Hi; rewrite u32_small; lia).
    rewrite <-He. reflexivity.
  - exists (set_flags true false false (c1 <| esi := 0 |>)). split; [|exact H5]. by rewrite (seq3 _ _ _ _ _ _ Hrun).
Qed.

(** ** strchr and strrchr *)

(** A character is in ah throughout. *)
Lemma set_ah ch c :
  0 ≤ ch < 256 → let c1 := set_al ch c in
  ah (c1 <| eax := Z.lor (Z.land (eax c1) 0xffff00ff) (Z.shiftl (al c1) 8) |>) = ch.
Proof. intros Hch. cbv zeta. unfold ah, al, set_al. simpl. rewrite ah_copy. by apply al_set. Qed.

Lemma chr_step {A} c (k : M cpu A) x ch :
  df c = false → fits (esi c) 0 → byte (ram c) (esi c) = x → ah c = ch →
  ∃ c', (lodsb ;; cmpb_ah_al ;; k) c = k c' ∧ zf c' = (x =? ch) ∧ al c' = x ∧ ah c' = ch ∧ esi c' = esi c + 1 ∧
    edx c' = edx c ∧ df c' = false ∧ ram c' = ram c.
Proof.
  intros Hd Hi Hb Ha. pose proof (byte_bound (ram c) (esi c)) as Hx. rewrite Hb in Hx.
  set (c1 := set_al x c <| esi := u32 (esi c + 1) |>).
  assert (H1 : al c1 = x) by (by apply al_set). assert (H2 : ah c1 = ch) by (rewrite <-Ha; by apply ah_set).
  exists (cmp8 (al c1) (ah c1) c1). split; [|split; [|split; [|split; [|split]]]].
  - unfold c1. fields c. rewrite <-Hb. reflexivity.
  - change ((al c1 =? ah c1) = (x =? ch)). by rewrite H1, H2.
  - exact H1.
  - exact H2.
  - change (u32 (esi c + 1) = esi c + 1). apply u32_small. unfold fits in Hi. lia.
  - done.
Qed.

Lemma je_run {A} (X Y : M cpu A) c v : zf c = v → je X Y c = if v : bool then X c else Y c.
Proof. intros <-. unfold je, cond. rewrite (bind_Ok get _ c c c eq_refl). by destruct (zf c). Qed.
Lemma jne_run {A} (X Y : M cpu A) c v : zf c = v → jne X Y c = if v : bool then Y c else X c.
Proof. intros <-. unfold jne, cond. rewrite (bind_Ok get _ c c c eq_refl). by destruct (zf c). Qed.
Lemma testb_al_run {A} (k : M cpu A) c x :
  al c = x → (testb_al ;; k) c = k (set_flags (x =? 0) (128 <=? x) (128 <=? x) c).
Proof. by intros <-. Qed.

Definition to_eax : M cpu unit := movl (λ c, c <| eax := esi c |>) ;; decl_eax.
Definition strchr_body : M cpu (option (M cpu unit)) :=
  lodsb ;; cmpb_ah_al ;; je (goto to_eax) (testb_al ;; jne back (goto (movl (λ c, c <| esi := 1 |>) ;; to_eax))).
Lemma strchr_round c x ch :
  df c = false → fits (esi c) 0 → byte (ram c) (esi c) = x → ah c = ch →
  ∃ c', strchr_body c =
      Ok (if x =? ch then Some to_eax else if x =? 0 then Some (movl (λ c, c <| esi := 1 |>) ;; to_eax) else None) c' ∧
    ah c' = ch ∧ esi c' = esi c + 1 ∧ df c' = false ∧ ram c' = ram c.
Proof.
  intros Hd Hi Hb Ha. destruct (chr_step c (je (goto to_eax) (testb_al ;; jne back (goto (movl (λ c, c <| esi := 1 |>) ;; to_eax)))) x ch Hd Hi Hb Ha)
    as (c1 & Hrun & Hz & Hal & Hah & He & _ & Hd1 & Hm).
  unfold strchr_body. rewrite Hrun. rewrite (je_run _ _ _ _ Hz). destruct (x =? ch); [by exists c1|].
  set (c2 := set_flags (x =? 0) (128 <=? x) (128 <=? x) c1). exists c2. split; [|done].
  rewrite (testb_al_run _ _ _ Hal), (jne_run _ _ c2 (x =? 0)) by done. by destruct (x =? 0).
Qed.
Lemma strchr_loop ch l n c :
  (length l < n)%nat → df c = false → ah c = ch → cstr (ram c) (esi c) l → fits (esi c) (length l) →
  ∃ c', loop n strchr_body c = Ok tt c' ∧ ram c' = ram c ∧
    eax c' = match list_find (λ x, x = ch) (l ++ [0]) with Some (i, _) => esi c + Z.of_nat i | None => 0 end.
Proof.
  revert n c. induction l as [|x l IH]; intros n c Hn Hd Ha Hl Hi; (destruct n as [|n]; [simpl in Hn; lia|]); simpl in Hl.
  - destruct (strchr_round c 0 ch Hd Hi Hl Ha) as (c1 & Hrun & _ & He & _ & Hm). cbn [list_find app].
    destruct (Z.eqb_spec 0 ch) as [H0|H0]; rewrite (loop_exit _ _ _ _ _ Hrun); (eexists; split; [reflexivity|]; split; [exact Hm|]).
    + rewrite decide_True by done. simpl. rewrite He. unfold fits in Hi. rewrite u32_small; lia.
    + by rewrite decide_False by done.
  - destruct Hl as (Hx & Hb & Hl). destruct (fits_S _ _ Hi) as [Hi' _].
    destruct (strchr_round c x ch Hd) as (c1 & Hrun & Hah & He & Hd1 & Hm); [unfold fits in *; simpl in Hi; lia|done|done|].
    cbn [list_find app]. destruct (Z.eqb_spec x ch) as [H0|H0].
    + rewrite (loop_exit _ _ _ _ _ Hrun). eexists. split; [reflexivity|]. split; [exact Hm|].
      rewrite decide_True by done. simpl. rewrite He. unfold fits in Hi. simpl in Hi. rewrite u32_small; lia.
    + destruct (Z.eqb_spec x 0) as [|_]; [done|]. rewrite (loop_next _ _ _ _ Hrun), decide_False by done.
      destruct (IH n c1) as (c' & Hr & Hm' & Hres); [simpl in Hn; lia|done|done|by rewrite Hm, He|by rewrite He|].
      exists c'. split; [exact Hr|]. split; [etrans; [exact Hm'|exact Hm]|]. rewrite Hres, He.
      destruct (list_find (λ x, x = ch) (l ++ [0])) as [[i y]|]; [|done]. cbn [prod_map fmap option_fmap option_map fst snd]. lia.
Qed.
Theorem strchr_correct fuel c s ch l :
  (length l < fuel)%nat → cstr (ram c) s l → fits s (length l) →
  ∃ c', strchr fuel s ch c =
    Ok (match list_find (λ x, x = u8 ch) (l ++ [0]) with Some (i, _) => s + Z.of_nat i | None => 0 end) c' ∧ ram c' = ram c.
Proof.
  intros Hf Hl Hi. set (c1 := set_al (u8 ch) c <| esi := s |> <| df := false |>).
  set (c2 := c1 <| eax := Z.lor (Z.land (eax c1) 0xffff00ff) (Z.shiftl (al c1) 8) |>).
  destruct (strchr_loop (u8 ch) l fuel c2 Hf eq_refl (set_ah _ _ (u8_bound _)) Hl Hi) as (c' & Hr & Hm & Hres).
  exists c'. split; [|exact Hm].
  change (strchr fuel s ch c) with ((loop fuel strchr_body ;; c ← get; mret (eax c)) c2).
  rewrite (bind_Ok _ _ _ _ _ Hr), (bind_Ok get _ c' c' c' eq_refl), Hres. done.
Qed.

(** ** Copying and filling memory *)

Lemma bytes_snoc m a n : bytes m a (S n) = bytes m a n ++ [byte m (a + Z.of_nat n)].
Proof.
  revert a. induction n as [|n IH]; intros a; [simpl; by rewrite Z.add_0_r|].
  change (bytes m a (S (S n))) with (byte m a :: bytes m (a + 1) (S n)). rewrite IH. simpl. do 4 f_equal. lia.
Qed.
Lemma length_bytes m a n : length (bytes m a n) = n.
Proof. revert a. induction n as [|n IH]; intros a; simpl; [done|]. by rewrite IH. Qed.
Lemma bytes_insert m a n b v : ¬ (a ≤ b < a + Z.of_nat n) → bytes (<[b := v]> m) a n = bytes m a n.
Proof.
  revert a. induction n as [|n IH]; intros a Hb; simpl; [done|]. f_equal; [apply byte_insert_ne; lia|apply IH; lia].
Qed.
Lemma blit_insert m a l b v : ¬ (a ≤ b < a + Z.of_nat (length l)) → blit (<[b := v]> m) a l = <[b := v]> (blit m a l).
Proof.
  revert m a. induction l as [|x l IH]; intros m a Hb; [done|]. simpl in *.
  rewrite insert_insert_ne by lia. apply IH. lia.
Qed.
Lemma blit_snoc m a l x : blit m a (l ++ [x]) = blit (<[a + Z.of_nat (length l) := x]> m) a l.
Proof.
  revert m a. induction l as [|y l IH]; intros m a; simpl; [by rewrite Z.add_0_r|].
  rewrite IH. f_equal. rewrite insert_insert_ne by lia. do 2 f_equal. lia.
Qed.
(** What [blit] stores and what it leaves alone. *)
Lemma byte_blit m a l b : Forall (λ x, 0 ≤ x < 256) l →
  byte (blit m a l) b = if decide (a ≤ b < a + Z.of_nat (length l)) then default 0 (l !! Z.to_nat (b - a)) else byte m b.
Proof.
  revert m a. induction l as [|x l IH]; intros m a Hl; simpl.
  - rewrite decide_False by lia. done.
  - apply Forall_cons in Hl as [Hx Hl]. rewrite IH by done. rewrite byte_insert by done.
    destruct (decide (a = b)) as [->|Hne].
    + rewrite decide_False, decide_True by lia. by rewrite Z.sub_diag.
    + destruct (decide (a + 1 ≤ b < a + 1 + Z.of_nat (length l))).
      * rewrite decide_True by lia. replace (Z.to_nat (b - a)) with (S (Z.to_nat (b - (a + 1)))) by lia. done.
      * rewrite decide_False by lia. done.
Qed.

Lemma rep_step fuel op c c' :
  ecx c ≠ 0 → op (c <| ecx := u32 (ecx c - 1) |>) = Ok tt c' → rep (S fuel) op c = rep fuel op c'.
Proof. intros H Hop. unfold rep. by rewrite (repeat_step _ _ _ _ _ H Hop). Qed.

(** [rep movsb] upwards, where no byte is stored before it is read. *)
Lemma move_up n fuel c :
  (n < fuel)%nat → df c = false → ecx c = Z.of_nat n → fits (esi c) n → fits (edi c) n →
  edi c ≤ esi c ∨ esi c + Z.of_nat n ≤ edi c →
  ∃ c', rep fuel movsb c = Ok tt c' ∧ ram c' = blit (ram c) (edi c) (bytes (ram c) (esi c) n) ∧ df c' = false.
Proof.
  revert fuel c. induction n as [|n IH]; intros fuel c Hf Hd Hx Hi Hj Hdis.
  - exists c. split; [by apply repeat_end|done].
  - destruct fuel as [|fuel]; [lia|]. destruct (fits_S _ _ Hi) as [Hi' Hi1]. destruct (fits_S _ _ Hj) as [Hj' Hj1].
    erewrite rep_step; [|lia|reflexivity]. set (c1 := _ <| edi := _ |>).
    assert (H1 : esi c1 = esi c + 1) by (unfold c1, step_of; simpl; rewrite Hd; exact Hi1).
    assert (H2 : edi c1 = edi c + 1) by (unfold c1, step_of; simpl; rewrite Hd; exact Hj1).
    assert (H3 : ram c1 = <[edi c := byte (ram c) (esi c)]> (ram c)) by done.
    destruct (IH fuel c1) as (c' & Hr & Hm & Hd'); rewrite ?H1, ?H2; [lia|exact Hd| |done|done|lia|].
    { change (ecx c1) with (u32 (ecx c - 1)). unfold fits in Hi. rewrite u32_small; lia. }
    exists c'. split; [exact Hr|]. split; [|done]. rewrite Hm, H1, H2, H3. simpl. f_equal. apply bytes_insert. lia.
Qed.
(** ... and downwards, from the last byte. *)
Lemma move_down n fuel c a b :
  (n < fuel)%nat → df c = true → ecx c = Z.of_nat n → fits a n → fits b n → a ≤ b →
  esi c = u32 (a + Z.of_nat n - 1) → edi c = u32 (b + Z.of_nat n - 1) →
  ∃ c', rep fuel movsb c = Ok tt c' ∧ ram c' = blit (ram c) b (bytes (ram c) a n) ∧ df c' = true.
Proof.
  revert fuel c. induction n as [|n IH]; intros fuel c Hf Hd Hx Hi Hj Hdis Hsi Hdi.
  - exists c. split; [by apply repeat_end|done].
  - destruct fuel as [|fuel]; [lia|]. unfold fits in *.
    rewrite u32_small in Hsi by lia. rewrite u32_small in Hdi by lia.
    erewrite rep_step; [|lia|reflexivity]. set (c1 := _ <| edi := _ |>).
    assert (H1 : esi c1 = u32 (a + Z.of_nat n - 1)) by (unfold c1, step_of; simpl; rewrite Hd, Hsi; f_equal; lia).
    assert (H2 : edi c1 = u32 (b + Z.of_nat n - 1)) by (unfold c1, step_of; simpl; rewrite Hd, Hdi; f_equal; lia).
    assert (H3 : ram c1 = <[edi c := byte (ram c) (esi c)]> (ram c)) by done.
    destruct (IH fuel c1) as (c' & Hr & Hm & Hd'); [lia|exact Hd| |lia|lia|lia|done|done|].
    { change (ecx c1) with (u32 (ecx c - 1)). rewrite u32_small; lia. }
    exists c'. split; [exact Hr|]. split; [|done]. rewrite Hm, H3, bytes_snoc, blit_snoc, length_bytes.
    rewrite bytes_insert by lia. do 2 f_equal; [lia|]. f_equal. lia.
Qed.

(** C16: memmove() copies any n bytes to any place, overlapping or not, and
    changes no other byte; it leaves the direction flag set after copying
    downwards. *)
Theorem memmove_correct fuel c dest src (n : nat) :
  (n < fuel)%nat → fits src n → fits dest n →
  ∃ c', memmove fuel dest src (Z.of_nat n) c = Ok dest c' ∧
    ram c' = blit (ram c) dest (bytes (ram c) src n) ∧ df c' = negb (dest <? src).
Proof.
  intros Hf Hi Hj. assert (Hn : u32 (Z.of_nat n) = Z.of_nat n) by (unfold fits in *; apply u32_small; lia).
  unfold memmove. destruct (Z.ltb_spec dest src) as [Hlt|Hge].
  - set (c1 := c <| ecx := u32 (Z.of_nat n) |> <| esi := src |> <| edi := dest |> <| df := false |>).
    destruct (move_up n fuel c1 Hf eq_refl Hn Hi Hj) as (c' & Hr & Hm & Hd); [left; simpl; lia|].
    exists c'. erewrite bind_Ok; [split; [reflexivity|by split]|].
    rewrite (bind_Ok (with_args _) _ c tt _ eq_refl), (bind_Ok cld _ _ tt c1 eq_refl). exact Hr.
  - set (c1 := c <| ecx := u32 (Z.of_nat n) |> <| esi := u32 (src + Z.of_nat n - 1) |> <| edi := u32 (dest + Z.of_nat n - 1) |>
               <| df := true |>).
    destruct (move_down n fuel c1 src dest Hf eq_refl Hn Hi Hj Hge eq_refl eq_refl) as (c' & Hr & Hm & Hd).
    exists c'. erewrite bind_Ok; [split; [reflexivity|by split]|].
    rewrite (bind_Ok (with_args _) _ c tt _ eq_refl), (bind_Ok std _ _ tt c1 eq_refl). exact Hr.
Qed.
(** memcpy() does the same where the places do not overlap the wrong way. *)
Theorem memcpy_correct fuel c dest src (n : nat) :
  (n < fuel)%nat → fits src n → fits dest n → dest ≤ src ∨ src + Z.of_nat n ≤ dest →
  ∃ c', memcpy fuel dest src (Z.of_nat n) c = Ok dest c' ∧ ram c' = blit (ram c) dest (bytes (ram c) src n).
Proof.
  intros Hf Hi Hj Hdis. assert (Hn : u32 (Z.of_nat n) = Z.of_nat n) by (unfold fits in *; apply u32_small; lia).
  set (c1 := c <| ecx := u32 (Z.of_nat n) |> <| esi := src |> <| edi := dest |> <| df := false |>).
  destruct (move_up n fuel c1 Hf eq_refl Hn Hi Hj Hdis) as (c' & Hr & Hm & Hd).
  exists c'. split; [|done]. unfold memcpy.
  by rewrite (bind_Ok (with_args _) _ c tt _ eq_refl), (bind_Ok cld _ _ tt c1 eq_refl), (bind_Ok _ _ _ _ _ Hr).
Qed.

Lemma fill_run n fuel c x :
  (n < fuel)%nat → df c = false → ecx c = Z.of_nat n → fits (edi c) n → al c = x →
  ∃ c', rep fuel stosb c = Ok tt c' ∧ ram c' = blit (ram c) (edi c) (replicate n x).
Proof.
  revert fuel c. induction n as [|n IH]; intros fuel c Hf Hd Hx Hj Ha.
  - exists c. split; [by apply repeat_end|done].
  - destruct fuel as [|fuel]; [lia|]. destruct (fits_S _ _ Hj) as [Hj' Hj1].
    erewrite rep_step; [|lia|reflexivity]. set (c1 := _ <| edi := _ |>).
    assert (H2 : edi c1 = edi c + 1) by (unfold c1, step_of; simpl; rewrite Hd; exact Hj1).
    assert (H3 : ram c1 = <[edi c := x]> (ram c)) by (rewrite <-Ha; done).
    destruct (IH fuel c1) as (c' & Hr & Hm); rewrite ?H2; [lia|exact Hd| |done|exact Ha|].
    { change (ecx c1) with (u32 (ecx c - 1)). unfold fits in Hj. rewrite u32_small; lia. }
    exists c'. split; [exact Hr|]. by rewrite Hm, H2, H3.
Qed.
Theorem memset_correct fuel c s ch (n : nat) :
  (n < fuel)%nat → fits s n →
  ∃ c', memset fuel s ch (Z.of_nat n) c = Ok s c' ∧ ram c' = blit (ram c) s (replicate n (u8 ch)).
Proof.
  intros Hf Hj. assert (Hn : u32 (Z.of_nat n) = Z.of_nat n) by (unfold fits in *; apply u32_small; lia).
  set (c1 := set_al (u8 ch) c <| edi := s |> <| ecx := u32 (Z.of_nat n) |> <| df := false |>).
  destruct (fill_run n fuel c1 (u8 ch) Hf eq_refl Hn Hj) as (c' & Hr & Hm); [apply al_set, u8_bound|].
  exists c'. split; [|done]. unfold memset.
  by rewrite (bind_Ok (with_args _) _ c tt _ eq_refl), (bind_Ok cld _ _ tt c1 eq_refl), (bind_Ok _ _ _ _ _ Hr).
Qed.

(** ** strcpy, strcat and strcmp *)

Theorem strcpy_correct fuel c dest src l :
  (length l < fuel)%nat → cstr (ram c) src l → fits src (length l) → fits dest (length l) →
  dest ≤ src ∨ src + Z.of_nat (length l) < dest →
  ∃ c', strcpy fuel dest src c = Ok dest c' ∧ ram c' = blit (ram c) dest (l ++ [0]).
Proof.
  intros Hf Hl Hi Hj Hdis. set (c1 := c <| esi := src |> <| edi := dest |> <| df := false |>).
  destruct (copy_loop l fuel c1 Hf eq_refl Hl Hi Hj Hdis) as (c' & Hr & Hm). exists c'. split; [|exact Hm]. unfold strcpy.
  by rewrite (bind_Ok (with_args _) _ c tt _ eq_refl), (bind_Ok cld _ _ tt c1 eq_refl), (bind_Ok _ _ _ _ _ Hr).
Qed.
Theorem strcat_correct fuel c dest src k l :
  (length l < fuel)%nat → (length k < fuel)%nat → cstr (ram c) dest k → cstr (ram c) src l →
  fits src (length l) → fits dest (length k + length l) →
  (dest + Z.of_nat (length k) ≤ src ∨ src + Z.of_nat (length l) < dest + Z.of_nat (length k)) →
  ∃ c', strcat fuel dest src c = Ok dest c' ∧ ram c' = blit (ram c) (dest + Z.of_nat (length k)) (l ++ [0]).
Proof.
  intros Hf Hg Hk Hl Hi Hj Hdis.
  set (c1 := c <| esi := src |> <| edi := dest |> <| eax := 0 |> <| ecx := 0xffffffff |> <| df := false |>).
  assert (Hjk : fits dest (length k)) by (unfold fits in *; lia).
  destruct (scan_end fuel c1 k Hg eq_refl eq_refl eq_refl Hk Hjk) as (c2 & Hr2 & [] & _ & He).
  set (c3 := flags32 (s32 (edi c2) - 1) c2 <| edi := u32 (edi c2 - 1) |>).
  assert (Hed : edi c3 = dest + Z.of_nat (length k)).
  { change (edi c3) with (u32 (edi c2 - 1)). rewrite He. unfold fits in Hj. simpl. rewrite u32_small; lia. }
  assert (Hram : ram c3 = ram c) by exact kp_ram0. assert (Hesi : esi c3 = src) by exact kp_esi0.
  assert (Hdf : df c3 = false) by exact kp_df0.
  destruct (copy_loop l fuel c3 Hf Hdf) as (c' & Hr & Hm); rewrite ?Hram, ?Hesi, ?Hed; [done|done|unfold fits in *; lia|done|].
  exists c'. rewrite Hram, Hed in Hm. split; [|exact Hm]. unfold strcat.
  by rewrite (bind_Ok (with_args _) _ c tt _ eq_refl), (bind_Ok cld _ _ tt c1 eq_refl), (bind_Ok _ _ _ _ _ Hr2),
    (bind_Ok decl_edi _ c2 tt c3 eq_refl), (bind_Ok _ _ _ _ _ Hr).
Qed.

(** The order of strings by their first difference, as signed characters. *)
Fixpoint str_order (l k : list Z) : Z :=
  match l, k with
  | [], [] => 0
  | [], y :: _ => if 0 <? s8 y then -1 else 1
  | x :: _, [] => if s8 x <? 0 then -1 else 1
  | x :: l, y :: k => if x =? y then str_order l k else if s8 x <? s8 y then -1 else 1
  end.
Definition cmp_out : M cpu unit := movl (λ c, c <| eax := 1 |>) ;; jl done_ (negl_eax ;; done_).
Definition cmp_body : M cpu (option (M cpu unit)) :=
  lodsb ;; scasb ;; jne (goto cmp_out) (testb_al ;; jne back (goto (xorl_eax ;; done_))).
Lemma cmp_round c x y :
  df c = false → fits (esi c) 0 → fits (edi c) 0 → byte (ram c) (esi c) = x → byte (ram c) (edi c) = y →
  ∃ c', cmp_body c = Ok (if x =? y then if x =? 0 then Some (xorl_eax ;; done_) else None else Some cmp_out) c' ∧
    (x ≠ y → lt c' = (s8 x <? s8 y)) ∧ esi c' = esi c + 1 ∧ edi c' = edi c + 1 ∧ df c' = false ∧ ram c' = ram c.
Proof.
  intros Hd Hi Hj Hx Hy. pose proof (byte_bound (ram c) (esi c)) as Hxb. rewrite Hx in Hxb.
  assert (Hi1 : u32 (esi c + 1) = esi c + 1) by (unfold fits in Hi; apply u32_small; lia).
  assert (Hj1 : u32 (edi c + 1) = edi c + 1) by (unfold fits in Hj; apply u32_small; lia).
  set (c1 := set_al x c <| esi := esi c + 1 |>).
  assert (Ha1 : al c1 = x) by (by apply al_set).
  set (c2 := cmp8 x y c1 <| edi := edi c + 1 |>).
  assert (H1 : lodsb c = Ok tt c1) by (unfold c1; fields c; rewrite <-Hx, <-Hi1; reflexivity).
  assert (H2 : scasb c1 = Ok tt (cmp8 (al c1) (byte (ram c) (edi c)) c1 <| edi := u32 (edi c + 1) |>)).
  { unfold c1. fields c. reflexivity. }
  rewrite Ha1, Hy, Hj1 in H2. fold c2 in H2.
  unfold cmp_body. rewrite (bind_Ok _ _ _ _ _ H1), (bind_Ok _ _ _ _ _ H2), (jne_run _ _ c2 (x =? y)) by done.
  destruct (Z.eqb_spec x y) as [->|Hne].
  - set (c3 := set_flags (y =? 0) (128 <=? y) (128 <=? y) c2). exists c3. split; [|done].
    rewrite (testb_al_run _ c2 y) by exact Ha1. rewrite (jne_run _ _ c3 (y =? 0)) by done. by destruct (y =? 0).
  - exists c2. done.
Qed.

Lemma s8_inj x y : 0 ≤ x < 256 → 0 ≤ y < 256 → s8 x = s8 y → x = y.
Proof. unfold s8. intros Hx Hy H. pose proof (Z.div_mod (x + 128) 256). pose proof (Z.div_mod (y + 128) 256). lia. Qed.
(** The last lines of strcmp. *)
Lemma cmp_out_run c x y :
  0 ≤ x < 256 → 0 ≤ y < 256 → x ≠ y → lt c = (s8 x <? s8 y) →
  ∃ c', cmp_out c = Ok tt c' ∧ s32 (eax c') = (if s8 y <? s8 x then -1 else 1) ∧ ram c' = ram c.
Proof.
  intros Hx Hy Hne Hlt. assert (Hs : s8 x ≠ s8 y) by (intros H; by apply Hne, s8_inj).
  set (c1 := c <| eax := 1 |>). assert (Hl1 : lt c1 = (s8 x <? s8 y)) by exact Hlt.
  unfold cmp_out. rewrite (bind_Ok (movl _) _ c tt _ eq_refl). fold c1. unfold jl, cond.
  rewrite (bind_Ok get _ c1 c1 c1 eq_refl), Hl1.
  destruct (Z.ltb_spec (s8 x) (s8 y)), (Z.ltb_spec (s8 y) (s8 x)); try lia; eexists; (split; [reflexivity|done]).
Qed.
Definition head_char (k : list Z) : Z := match k with [] => 0 | y :: _ => y end.
(** [k] is at edi and [l] at esi. *)
Lemma cmp_loop l k n c :
  (length l < n)%nat → df c = false → cstr (ram c) (esi c) l → cstr (ram c) (edi c) k →
  fits (esi c) (length l) → fits (edi c) (length k) →
  ∃ c', loop n cmp_body c = Ok tt c' ∧ s32 (eax c') = str_order k l ∧ ram c' = ram c.
Proof.
  revert k n c. induction l as [|x l IH]; intros k n c Hn Hd Hl Hk Hi Hj; (destruct n as [|n]; [simpl in Hn; lia|]).
  - assert (Hy : byte (ram c) (edi c) = head_char k) by (destruct k; simpl in Hk; tauto).
    pose proof (byte_bound (ram c) (edi c)) as Hyb. rewrite Hy in Hyb.
    destruct (cmp_round c 0 (head_char k) Hd) as (c1 & Hrun & Hlt & H1 & H2 & H3 & H4);
      [unfold fits in *; lia|unfold fits in *; lia|exact Hl|exact Hy|].
    destruct k as [|y k]; simpl in Hk; cbn [head_char] in *.
    + rewrite (loop_exit _ _ _ _ _ Hrun). eexists. split; [reflexivity|done].
    + destruct (Z.eqb_spec 0 y) as [<-|Hne]; [by destruct Hk|]. rewrite (loop_exit _ _ _ _ _ Hrun).
      destruct (cmp_out_run c1 0 y) as (c' & Hr & Hres & Hm); [lia|lia|done|by apply Hlt|].
      exists c'. split; [exact Hr|]. split; [exact Hres|congruence].
  - simpl in Hl. destruct Hl as (Hx0 & Hx & Hl). pose proof (byte_bound (ram c) (esi c)) as Hxb. rewrite Hx in Hxb.
    assert (Hy : byte (ram c) (edi c) = head_char k) by (destruct k; simpl in Hk; tauto).
    pose proof (byte_bound (ram c) (edi c)) as Hyb. rewrite Hy in Hyb.
    destruct (cmp_round c x (head_char k) Hd) as (c1 & Hrun & Hlt & H1 & H2 & H3 & H4);
      [unfold fits in *; simpl in Hi; lia|unfold fits in *; lia|exact Hx|exact Hy|].
    destruct k as [|y k]; simpl in Hk; cbn [head_char] in *.
    + destruct (Z.eqb_spec x 0) as [|Hne]; [done|]. rewrite (loop_exit _ _ _ _ _ Hrun).
      destruct (cmp_out_run c1 x 0) as (c' & Hr & Hres & Hm); [lia|lia|done|by apply Hlt|].
      exists c'. split; [exact Hr|]. split; [exact Hres|congruence].
    + destruct Hk as (Hy0 & Hyy & Hk). destruct (Z.eqb_spec x y) as [->|Hne].
      * destruct (Z.eqb_spec y 0) as [|_]; [done|]. rewrite (loop_next _ _ _ _ Hrun).
        destruct (fits_S _ _ Hi) as [Hi' _]. destruct (fits_S _ _ Hj) as [Hj' _].
        destruct (IH k n c1) as (c' & Hr & Hres & Hm); rewrite ?H1, ?H2, ?H4; [simpl in Hn; lia|done..|].
        exists c'. split; [exact Hr|]. split; [|congruence]. simpl. by rewrite Z.eqb_refl.
      * rewrite (loop_exit _ _ _ _ _ Hrun).
        destruct (cmp_out_run c1 x y) as (c' & Hr & Hres & Hm); [lia|lia|done|by apply Hlt|].
        exists c'. split; [exact Hr|]. split; [|congruence]. simpl. by destruct (Z.eqb_spec y x) as [->|].
Qed.
Theorem strcmp_correct fuel c cs ct k l :
  (length l < fuel)%nat → cstr (ram c) cs k → cstr (ram c) ct l → fits cs (length k) → fits ct (length l) →
  ∃ c', strcmp fuel cs ct c = Ok (str_order k l) c' ∧ ram c' = ram c.
Proof.
  intros Hf Hk Hl Hi Hj. set (c1 := c <| edi := cs |> <| esi := ct |> <| df := false |>).
  destruct (cmp_loop l k fuel c1 Hf eq_refl Hl Hk Hj Hi) as (c' & Hr & Hres & Hm).
  exists c'. split; [|exact Hm].
  change (strcmp fuel cs ct c) with ((loop fuel cmp_body ;; c ← get; mret (s32 (eax c))) c1).
  by rewrite (bind_Ok _ _ _ _ _ Hr), (bind_Ok get _ c' c' c' eq_refl), Hres.
Qed.

(** ** strstr *)

(** [repe cmpsb] against the string [t]; [l] is the text at esi. *)
Lemma cmps_run t l fuel c :
  (length t < fuel)%nat → df c = false → cstr (ram c) (edi c) t → cstr (ram c) (esi c) l → ecx c = Z.of_nat (length t) →
  fits (edi c) (length t) → fits (esi c) (length l) → (zf c = true ∨ t ≠ []) →
  ∃ c', repe fuel cmpsb c = Ok tt c' ∧ eax c' = eax c ∧ edx c' = edx c ∧ df c' = false ∧ ram c' = ram c ∧
    zf c' = bool_decide (t `prefix_of` l) ∧
    (¬ t `prefix_of` l → ∃ i, esi c' = esi c + Z.of_nat i + 1 ∧ (i ≤ length l)%nat ∧ (i < length t)%nat).
Proof.
  revert l fuel c. induction t as [|x t IH]; intros l fuel c Hf Hd Ht Hl Hx Hi Hj Hz.
  - exists c. split; [by apply repeat_end|]. do 4 (split; [done|]). rewrite bool_decide_true by apply prefix_nil.
    split; [by destruct Hz|]. intros []. apply prefix_nil.
  - destruct fuel as [|fuel]; [simpl in Hf; lia|]. destruct Ht as (Hx0 & Hxb & Ht). pose proof (byte_bound (ram c) (edi c)).
    destruct (fits_S _ _ Hi) as [Hi' Hi1]. assert (Hj1 : u32 (esi c + 1) = esi c + 1) by (unfold fits in Hj; apply u32_small; lia).
    simpl in Hx. unfold repe. erewrite repeat_step; [|lia|reflexivity]. set (c1 := _ <| edi := _ |>).
    assert (H1 : esi c1 = esi c + 1) by (unfold c1, step_of; simpl; rewrite Hd; exact Hj1).
    assert (H2 : edi c1 = edi c + 1) by (unfold c1, step_of; simpl; rewrite Hd; exact Hi1).
    assert (H3 : zf c1 = (head_char l =? x)).
    { change (zf c1) with (byte (ram c) (esi c) =? byte (ram c) (edi c)). rewrite Hxb. f_equal. destruct l; simpl in Hl; tauto. }
    assert (H4 : ecx c1 = Z.of_nat (length t)).
    { change (ecx c1) with (u32 (ecx c - 1)). unfold fits in Hi. simpl in Hi. rewrite u32_small; lia. }
    assert (Hno : ¬ (x :: t) `prefix_of` l → (head_char l =? x) = false →
      ∃ c', (if negb (zf c1) then Ok tt c1 else repeat_ (λ c, negb (zf c)) fuel cmpsb c1) = Ok tt c' ∧ eax c' = eax c ∧
        edx c' = edx c ∧ df c' = false ∧ ram c' = ram c ∧ zf c' = bool_decide ((x :: t) `prefix_of` l) ∧
        (¬ (x :: t) `prefix_of` l → ∃ i, esi c' = esi c + Z.of_nat i + 1 ∧ (i ≤ length l)%nat ∧ (i < length (x :: t))%nat)).
    { intros Hp Hh. exists c1. rewrite H3, Hh, bool_decide_false by done. do 6 (split; [done|]).
      intros _. exists 0%nat. rewrite H1. simpl. split; [lia|]. split; lia. }
    destruct l as [|y l].
    + apply Hno; [by intros ?%prefix_nil_inv|]. apply Z.eqb_neq. simpl. lia.
    + destruct Hl as (Hy0 & Hyb & Hl). destruct (Z.eqb_spec y x) as [->|Hne].
      2: { apply Hno; [by intros ?%prefix_cons_inv_1|]. by apply Z.eqb_neq. }
      destruct (fits_S _ _ Hj) as [Hj' _]. rewrite H3. cbn [head_char]. rewrite Z.eqb_refl. cbn [negb].
      destruct (IH l fuel c1) as (c' & Hr & E1 & E2 & E3 & E4 & E5 & E6); rewrite ?H1, ?H2; [simpl in Hf; lia|exact Hd|exact Ht|exact Hl|done|done|done| |].
      * left. rewrite H3. apply Z.eqb_refl.
      * exists c'. split; [exact Hr|]. split; [exact E1|]. split; [exact E2|]. split; [exact E3|]. split; [exact E4|]. split.
        -- rewrite E5. apply bool_decide_ext. split; [apply prefix_cons|apply prefix_cons_inv_2].
        -- intros Hp. destruct E6 as (i & He & Hil & Hit); [intros ?; by apply Hp, prefix_cons|].
           exists (S i). rewrite He, H1. simpl. split; [lia|]. split; lia.
Qed.

Definition strstr_next : M cpu (option (M cpu unit)) :=
  movl (λ c, c <| eax := esi c |> <| esi := eax c |>) ;; incl_esi ;; cmpb_0 (λ c, u32 (eax c - 1)) ;;
  jne back (goto xorl_eax).
Definition strstr_body (fuel : nat) (ct : Z) : M cpu (option (M cpu unit)) :=
  movl (λ c, c <| edi := ct |>) ;;
  movl (λ c, c <| eax := esi c |>) ;;
  movl (λ c, c <| ecx := edx c |>) ;;
  repe fuel cmpsb ;; je (goto done_) strstr_next.
(** The first place where [t] begins. *)
Fixpoint find_sub (t l : list Z) : option nat :=
  if decide (t `prefix_of` l) then Some 0%nat else match l with [] => None | _ :: l => S <$> find_sub t l end.
Lemma find_sub_spec t l :
  match find_sub t l with
  | Some k => t `prefix_of` drop k l ∧ ∀ j, (j < k)%nat → ¬ t `prefix_of` drop j l
  | None => ∀ j, ¬ t `prefix_of` drop j l
  end.
Proof.
  induction l as [|x l IH]; cbn [find_sub].
  - destruct (decide (t `prefix_of` [])) as [Hp|Hp]; [split; [done|lia]|]. intros j. by rewrite drop_nil.
  - destruct (decide (t `prefix_of` x :: l)) as [Hp|Hp]; [split; [done|lia]|].
    destruct (find_sub t l) as [k|]; cbn [fmap option_fmap option_map].
    + destruct IH as [H1 H2]. split; [done|]. intros [|j] Hj; [done|]. apply H2. lia.
    + intros [|j]; [done|]. apply IH.
Qed.
Lemma find_sub_short t l : (length l < length t)%nat → find_sub t l = None.
Proof.
  induction l as [|x l IH]; intros Hl; cbn [find_sub].
  - rewrite decide_False; [done|]. intros ->%prefix_nil_inv. simpl in Hl. lia.
  - rewrite decide_False; [|intros Hp%prefix_length; simpl in *; lia]. rewrite IH; [done|simpl in Hl; lia].
Qed.

Lemma strstr_next_run c :
  ∃ c', strstr_next c = Ok (if byte (ram c) (u32 (esi c - 1)) =? 0 then Some xorl_eax else None) c' ∧
    esi c' = u32 (eax c + 1) ∧ edx c' = edx c ∧ df c' = df c ∧ ram c' = ram c.
Proof.
  set (c1 := c <| eax := esi c |> <| esi := eax c |>).
  set (c2 := flags32 (s32 (esi c1) + 1) c1 <| esi := u32 (esi c1 + 1) |>).
  set (c3 := cmp8 (byte (ram c2) (u32 (eax c2 - 1))) 0 c2).
  assert (Hz : zf c3 = (byte (ram c) (u32 (esi c - 1)) =? 0)) by done.
  exists c3. split; [|done].
  change (strstr_next c) with (jne back (goto xorl_eax) c3). rewrite (jne_run _ _ _ _ Hz). by destruct (_ =? 0).
Qed.
Lemma strstr_round fuel ct t l c :
  (length t < fuel)%nat → ready ct t c → fits ct (length t) → cstr (ram c) (esi c) l → fits (esi c) (length l) →
  (zf c = true ∨ t ≠ []) →
  ∃ c', ram c' = ram c ∧
    ((t `prefix_of` l ∧ strstr_body fuel ct c = Ok (Some done_) c' ∧ eax c' = esi c) ∨
     (¬ t `prefix_of` l ∧ (length l < length t)%nat ∧ strstr_body fuel ct c = Ok (Some xorl_eax) c') ∨
     (¬ t `prefix_of` l ∧ l ≠ [] ∧ strstr_body fuel ct c = Ok None c' ∧ esi c' = u32 (esi c + 1) ∧ ready ct t c')).
Proof.
  intros Hf [Hd Ht Hx] Hi Hl Hj Hz. set (c1 := c <| edi := ct |> <| eax := esi c |> <| ecx := edx c |>).
  destruct (cmps_run t l fuel c1 Hf Hd Ht Hl Hx Hi Hj Hz) as (c2 & Hr & E1 & E2 & E3 & E4 & E5 & E6).
  assert (Hrun : strstr_body fuel ct c = je (goto done_) strstr_next c2).
  { unfold strstr_body. rewrite (bind_Ok (movl _) _ c tt _ eq_refl), (bind_Ok (movl _) _ _ tt _ eq_refl), (bind_Ok (movl _) _ _ tt _ eq_refl).
    rewrite (bind_Ok _ _ _ _ _ Hr). reflexivity. }
  rewrite (je_run _ _ _ _ E5) in Hrun. case_bool_decide as Hp; [exists c2; split; [done|]; by left|].
  destruct (E6 Hp) as (i & He & Hil & Hit). destruct (strstr_next_run c2) as (c3 & Hr3 & F1 & F2 & F3 & F4).
  assert (Ha : u32 (esi c2 - 1) = esi c + Z.of_nat i).
  { rewrite He. change (esi c1) with (esi c). unfold fits in Hj. rewrite u32_small; lia. }
  rewrite Ha, E4 in Hr3. change (ram c1) with (ram c) in *. exists c3. split; [congruence|]. right.
  destruct (decide (i = length l)) as [->|Hne].
  - left. rewrite (cstr_end _ _ _ Hl) in Hr3. split; [done|]. split; [lia|]. by rewrite Hrun, Hr3.
  - right. assert (Hb : byte (ram c) (esi c + Z.of_nat i) ≠ 0) by (apply (cstr_nonzero _ _ l); [done|lia]).
    destruct (Z.eqb_spec (byte (ram c) (esi c + Z.of_nat i)) 0) as [|_]; [done|].
    split; [done|]. split; [intros ->; simpl in *; lia|]. split; [by rewrite Hrun, Hr3|]. split; [by rewrite F1, E1|].
    split; [congruence|rewrite F4, E4; exact Ht|rewrite F2, E2; exact Hx].
Qed.
Lemma strstr_loop fuel ct t l n c :
  (length t < fuel)%nat → (length l < n)%nat → ready ct t c → fits ct (length t) → cstr (ram c) (esi c) l → fits (esi c) (length l) →
  (zf c = true ∨ t ≠ []) →
  ∃ c', loop n (strstr_body fuel ct) c = Ok tt c' ∧ ram c' = ram c ∧
    eax c' = match find_sub t l with Some k => esi c + Z.of_nat k | None => 0 end.
Proof.
  intros Hf. revert n c. induction l as [|x l IH]; intros n c Hn Hrd Hi Hl Hj Hz; (destruct n as [|n]; [simpl in Hn; lia|]);
    destruct (strstr_round fuel ct t _ c Hf Hrd Hi Hl Hj Hz) as (c1 & Hm & [(Hp & Hrun & Ha)|[(Hp & Hlen & Hrun)|(Hp & Hne & Hrun & He & Hrd')]]).
  - rewrite (loop_exit _ _ _ _ _ Hrun). exists c1. split; [done|]. split; [done|]. cbn [find_sub]. rewrite decide_True by done. lia.
  - rewrite (loop_exit _ _ _ _ _ Hrun), find_sub_short by done. eexists. split; [reflexivity|done].
  - done.
  - rewrite (loop_exit _ _ _ _ _ Hrun). exists c1. split; [done|]. split; [done|]. cbn [find_sub]. rewrite decide_True by done. lia.
  - rewrite (loop_exit _ _ _ _ _ Hrun), find_sub_short by done. eexists. split; [reflexivity|done].
  - rewrite (loop_next _ _ _ _ Hrun). destruct Hl as (_ & _ & Hl). destruct (fits_S _ _ Hj) as [Hj' Hj1]. rewrite Hj1 in He.
    destruct (IH n c1) as (c' & Hr & Hm' & Hres); rewrite ?He, ?Hm; [simpl in Hn; lia|done..| |].
    { right. intros ->. by apply Hp, prefix_nil. }
    exists c'. split; [exact Hr|]. split; [congruence|]. rewrite Hres, He. cbn [find_sub]. rewrite decide_False by done.
    destruct (find_sub t l); [|done]. cbn [fmap option_fmap option_map]. lia.
Qed.

(** strstr() returns the first place where [t] occurs in [l], and NULL if
    it occurs nowhere; it always ends and changes no memory. *)
Theorem strstr_correct fuel c cs ct l t :
  (length l < fuel)%nat → (length t < fuel)%nat → cstr (ram c) cs l → cstr (ram c) ct t →
  fits cs (length l) → fits ct (length t) →
  ∃ p c', strstr fuel cs ct c = Ok p c' ∧ ram c' = ram c ∧
    ((∃ k : nat, p = cs + Z.of_nat k ∧ t `prefix_of` drop k l ∧ ∀ j, (j < k)%nat → ¬ t `prefix_of` drop j l) ∨
     (p = 0 ∧ ∀ j, ¬ t `prefix_of` drop j l)).
Proof.
  intros Hn Hf Hl Ht Hi Hj. set (c0 := c <| eax := 0 |> <| ecx := 0xffffffff |> <| esi := cs |>).
  destruct (count_ct_run fuel ct t c0 Hf Ht Hj eq_refl eq_refl) as (c1 & Hr & Hrd & Hz & H1 & H2 & H3 & H4).
  assert (Hl1 : cstr (ram c1) (esi c1) l) by (by rewrite H2, H3). assert (Hi1 : fits (esi c1) (length l)) by (by rewrite H2).
  destruct (strstr_loop fuel ct t l fuel c1 Hf Hn Hrd Hj Hl1 Hi1) as (c' & Hr' & Hm & Hres).
  { destruct t; [by left|by right]. }
  exists (eax c'), c'. split; [|split; [by rewrite Hm, H3|]].
  - assert (Heq : strstr fuel cs ct = (with_args (λ c, c <| eax := 0 |> <| ecx := 0xffffffff |> <| esi := cs |>) ;;
      count_ct fuel ct ;; loop fuel (strstr_body fuel ct) ;; c ← get; mret (eax c))) by (unfold strstr_body, strstr_next; reflexivity).
    rewrite Heq. rewrite (bind_Ok (with_args _) _ c tt _ eq_refl), (bind_Ok _ _ _ _ _ Hr), (bind_Ok _ _ _ _ _ Hr').
    rewrite (bind_Ok get _ c' c' c' eq_refl). reflexivity.
  - rewrite Hres, H2. pose proof (find_sub_spec t l) as Hs. destruct (find_sub t l) as [k|]; [left|by right].
    exists k. split; [done|exact Hs].
Qed.
