(* ===== verification/StrtokProofs.v ===== *)
(** * strtok() splits a string into its tokens *)

From stdpp Require Import base option list gmap.
From Stdlib Require Import ZArith Lia.
From S2P Require Import Prelude StringH StringHProofs.
Local Open Scope Z_scope.

(** ** The blocks of its code, by their labels *)
Definition tok_7 : M cpu unit := testl ebx ;; jne done_ (movl (λ c, c <| esi := ebx c |>) ;; done_).
Definition tok_6 : M cpu unit := cmpb_0 ebx ;; jne tok_7 (xorl_ebx ;; tok_7).
Definition tok_5 : M cpu unit := xorl_esi ;; tok_6.
Definition tok_cut : M cpu (option (M cpu unit)) :=
  decl_esi ;; cmpb_0 esi ;; je (goto tok_5)
  (movl (λ c, c <| ram ::= <[esi c := 0]> |>) ;; incl_esi ;; goto tok_6).
Definition tok_3 (fuel : nat) (ct : Z) : M cpu unit := loop fuel (span_body fuel ct false tok_5 tok_cut).
Definition tok_begin (fuel : nat) (ct : Z) : M cpu (option (M cpu unit)) :=
  decl_esi ;; cmpb_0 esi ;; je (goto tok_7) (movl (λ c, c <| ebx := esi c |>) ;; goto (tok_3 fuel ct)).
Definition tok_2 (fuel : nat) (ct : Z) : M cpu unit := loop fuel (span_body fuel ct true tok_7 (tok_begin fuel ct)).
Definition tok_1 (fuel : nat) (ct : Z) : M cpu unit :=
  xorl_ebx ;; movl (λ c, c <| ecx := 0xffffffff |>) ;; xorl_eax ;;
  cld ;; movl (λ c, c <| edi := ct |>) ;; repne fuel scasb ;; notl_ecx ;; decl_ecx ;; je tok_7
  (movl (λ c, c <| edx := ecx c |>) ;; tok_2 fuel ct).
Lemma strtok_blocks fuel s ct :
  strtok fuel s ct =
  (with_args (λ c, c <| ebx := ___strtok c |> <| esi := s |>) ;;
   testl esi ;; jne (tok_1 fuel ct)
   (testl ebx ;; je done_
   (movl (λ c, c <| esi := ebx c |>) ;; tok_1 fuel ct)) ;;
   modify (λ c, c <| ___strtok := esi c |>) ;;
   c ← get; mret (ebx c)).
Proof. unfold tok_1, tok_2, tok_begin, tok_3, tok_cut, tok_5, tok_6, tok_7, span_body, jump. reflexivity. Qed.

(** The state at the end: the token, the place to go on at, the memory. *)
Definition tok_end (c' : cpu) (tok nxt : Z) (m : gmap Z Z) : Prop := ebx c' = tok ∧ esi c' = nxt ∧ ram c' = m.

Lemma tok_7_run c : 0 ≤ ebx c < 4294967296 →
  ∃ c', tok_7 c = Ok tt c' ∧ tok_end c' (ebx c) (if ebx c =? 0 then 0 else esi c) (ram c).
Proof.
  intros Hb. set (c1 := flags32 (s32 (ebx c)) c).
  assert (Hz : zf c1 = (ebx c =? 0)).
  { change (zf c1) with (u32 (s32 (ebx c)) =? 0). f_equal. transitivity (u32 (ebx c)); [wrap_ring|by apply u32_small]. }
  unfold tok_7. rewrite (bind_Ok (testl ebx) _ c tt c1 eq_refl), (jne_run _ _ _ _ Hz).
  destruct (Z.eqb_spec (ebx c) 0) as [H0|H0].
  - exists (c1 <| esi := ebx c1 |>). split; [reflexivity|]. split; [done|]. split; [exact H0|done].
  - exists c1. done.
Qed.
Lemma tok_6_run c : 0 < ebx c < 4294967296 → byte (ram c) (ebx c) ≠ 0 →
  ∃ c', tok_6 c = Ok tt c' ∧ tok_end c' (ebx c) (esi c) (ram c).
Proof.
  intros Hb Hne. set (c1 := cmp8 (byte (ram c) (ebx c)) 0 c). assert (Hz : zf c1 = false) by (by apply Z.eqb_neq).
  unfold tok_6. rewrite (bind_Ok (cmpb_0 ebx) _ c tt c1 eq_refl), (jne_run _ _ _ _ Hz).
  destruct (tok_7_run c1) as (c' & Hr & He); [change (ebx c1) with (ebx c); lia|]. exists c'. split; [exact Hr|].
  change (ebx c1) with (ebx c) in He. destruct (Z.eqb_spec (ebx c) 0); [lia|]. exact He.
Qed.
Lemma tok_5_run c : 0 < ebx c < 4294967296 → byte (ram c) (ebx c) ≠ 0 →
  ∃ c', tok_5 c = Ok tt c' ∧ tok_end c' (ebx c) 0 (ram c).
Proof.
  intros Hb Hne. set (c1 := set_flags true false false (c <| esi := 0 |>)).
  destruct (tok_6_run c1 Hb Hne) as (c' & Hr & He). exists c'. split; [|exact He].
  unfold tok_5. rewrite (bind_Ok xorl_esi _ c tt c1 eq_refl). exact Hr.
Qed.

(** The character esi has just passed is not the end of the string. *)
Lemma decl_cmp_run {A} (X Y : M cpu A) c q :
  esi c = q + 1 → 0 ≤ q < 4294967295 → byte (ram c) q ≠ 0 →
  ∃ c', (decl_esi ;; cmpb_0 esi ;; je X Y) c = Y c' ∧ esi c' = q ∧ eax c' = eax c ∧ ebx c' = ebx c ∧ ecx c' = ecx c ∧
    edx c' = edx c ∧ df c' = df c ∧ ram c' = ram c ∧ ___strtok c' = ___strtok c.
Proof.
  intros He Hq Hb. set (c1 := flags32 (s32 (esi c) - 1) c <| esi := u32 (esi c - 1) |>).
  assert (H1 : esi c1 = q) by (change (u32 (esi c - 1) = q); rewrite He, u32_small; lia).
  set (c2 := cmp8 (byte (ram c1) (esi c1)) 0 c1).
  assert (Hz : zf c2 = false) by (change ((byte (ram c) (esi c1) =? 0) = false); rewrite H1; by apply Z.eqb_neq).
  exists c2. split; [|done]. rewrite (bind_Ok decl_esi _ c tt c1 eq_refl), (bind_Ok (cmpb_0 esi) _ c1 tt c2 eq_refl).
  apply (je_run _ _ _ _ Hz).
Qed.

Section Tok.
Context (fuel : nat) (ct : Z) (d : list Z) (Hf : (length d < fuel)%nat) (Hct : fits ct (length d)).

(** From the start of a token on: [l] is the rest of the string. *)
Lemma tok_3_run x l c :
  (length (x :: l) < fuel)%nat → ready ct d c → cstr (ram c) (esi c) (x :: l) → fits (esi c) (length (x :: l)) →
  x ∉ d → ebx c = esi c → 0 < ebx c →
  ∃ c', tok_3 fuel ct c = Ok tt c' ∧
    match list_find (λ y, y ∈ d) (x :: l) with
    | Some (j, _) => tok_end c' (ebx c) (esi c + Z.of_nat j + 1) (<[esi c + Z.of_nat j := 0]> (ram c))
    | None => tok_end c' (ebx c) 0 (ram c)
    end.
Proof.
  intros Hn Hrd Hl Hi Hx Hb Hpos. assert (Hbx : 0 < ebx c < 4294967296) by (unfold fits in Hi; lia).
  assert (Hb0 : byte (ram c) (esi c) ≠ 0) by (destruct Hl as (? & -> & _); done).
  pose proof (span_loop fuel ct d Hf Hct false (x :: l) fuel c tok_5 tok_cut Hn Hrd Hl Hi) as Hloop.
  rewrite find_inside in Hloop. destruct (list_find (λ y, y ∈ d) (x :: l)) as [[j y]|] eqn:Hfind.
  - destruct Hloop as (c1 & [M1 M2 M3 M4 M5 M6] & _ & Hk).
    apply list_find_Some in Hfind as (Hj & Hy & _). pose proof (lookup_lt_Some _ _ _ Hj) as Hlt.
    assert (Hj0 : j ≠ 0%nat) by (intros ->; simpl in Hj; congruence).
    assert (Hbj : byte (ram c1) (esi c + Z.of_nat j) ≠ 0) by (rewrite M5; by apply (cstr_nonzero _ _ _ _ Hl)).
    destruct (decl_cmp_run (goto tok_5) (movl (λ c, c <| ram ::= <[esi c := 0]> |>) ;; incl_esi ;; goto tok_6) c1 (esi c + Z.of_nat j))
      as (c2 & Hr2 & N1 & _ & N3 & _ & _ & _ & N7 & _); [lia|unfold fits in Hi; lia|done|].
    set (c3 := c2 <| ram ::= <[esi c2 := 0]> |>). set (c4 := flags32 (s32 (esi c3) + 1) c3 <| esi := u32 (esi c3 + 1) |>).
    assert (E1 : ebx c4 = ebx c) by (change (ebx c2 = ebx c); congruence).
    assert (E2 : ram c4 = <[esi c + Z.of_nat j := 0]> (ram c)).
    { change (<[esi c2 := 0]> (ram c2) = <[esi c + Z.of_nat j := 0]> (ram c)). by rewrite N1, N7, M5. }
    assert (E3 : esi c4 = esi c + Z.of_nat j + 1).
    { change (u32 (esi c2 + 1) = esi c + Z.of_nat j + 1). rewrite N1. unfold fits in Hi. rewrite u32_small; lia. }
    destruct (tok_6_run c4) as (c' & Hr & He); [by rewrite E1|rewrite E1, E2, byte_insert_ne by lia; by rewrite Hb|].
    exists c'. rewrite E1, E2, E3 in He. split; [|exact He]. rewrite <-Hr. apply Hk. unfold tok_cut. rewrite Hr2.
    rewrite (bind_Ok (movl _) _ c2 tt _ eq_refl). fold c3. rewrite (bind_Ok incl_esi _ c3 tt c4 eq_refl). reflexivity.
  - destruct Hloop as (c1 & [M1 M2 M3 M4 M5 M6] & _ & Hk).
    destruct (tok_5_run c1) as (c' & Hr & He); [by rewrite M1|rewrite M1, M5; by rewrite Hb|].
    exists c'. rewrite M1, M5 in He. split; [|exact He]. unfold tok_3. by rewrite Hk.
Qed.

(** The result of a call whose text at [p] is [l]. *)
Definition tok_result (m : gmap Z Z) (p : Z) (l : list Z) (c' : cpu) : Prop :=
  match list_find (λ x, x ∉ d) l with
  | None => tok_end c' 0 0 m
  | Some (i, _) =>
      let q := p + Z.of_nat i in
      match list_find (λ x, x ∈ d) (drop i l) with
      | Some (j, _) => tok_end c' q (q + Z.of_nat j + 1) (<[q + Z.of_nat j := 0]> m)
      | None => tok_end c' q 0 m
      end
  end.
Lemma tok_2_run l c :
  (length l < fuel)%nat → ready ct d c → cstr (ram c) (esi c) l → fits (esi c) (length l) → 0 < esi c → ebx c = 0 →
  ∃ c', tok_2 fuel ct c = Ok tt c' ∧ tok_result (ram c) (esi c) l c'.
Proof.
  intros Hn Hrd Hl Hi Hpos Hb.
  pose proof (span_loop fuel ct d Hf Hct true l fuel c tok_7 (tok_begin fuel ct) Hn Hrd Hl Hi) as Hloop.
  unfold tok_result. rewrite find_outside in Hloop. destruct (list_find (λ x, x ∉ d) l) as [[i x]|] eqn:Hfind.
  - destruct Hloop as (c1 & Hm & _ & Hk). destruct Hm as [M1 M2 M3 M4 M5 M6].
    apply list_find_Some in Hfind as (Hj & Hy & _). pose proof (lookup_lt_Some _ _ _ Hj) as Hlt.
    assert (Hbj : byte (ram c1) (esi c + Z.of_nat i) ≠ 0) by (rewrite M5; by apply (cstr_nonzero _ _ _ _ Hl)).
    destruct (decl_cmp_run (goto tok_7) (movl (λ c, c <| ebx := esi c |>) ;; goto (tok_3 fuel ct)) c1 (esi c + Z.of_nat i))
      as (c2 & Hr2 & N1 & _ & N3 & _ & N5 & N6 & N7 & _); [lia|unfold fits in Hi; lia|done|].
    set (c3 := c2 <| ebx := esi c2 |>). pose proof (drop_S l x i Hj) as Hdrop.
    assert (Hrd3 : ready ct d c3).
    { destruct Hrd as [R1 R2 R3]. split; [change (df c2 = false); congruence| |change (edx c2 = Z.of_nat (length d)); congruence].
      change (cstr (ram c2) ct d). by rewrite N7, M5. }
    destruct (tok_3_run x (drop (S i) l) c3) as (c' & Hr & He).
    + rewrite <-Hdrop, length_drop. lia.
    + exact Hrd3.
    + change (cstr (ram c2) (esi c2) (x :: drop (S i) l)). rewrite N1, N7, M5, <-Hdrop.
      replace (Z.of_nat i) with (Z.of_nat (length (take i l))) by (rewrite length_take; lia).
      apply cstr_app. by rewrite take_drop.
    + change (esi c3) with (esi c2). rewrite N1, <-Hdrop, length_drop. unfold fits in *. lia.
    + exact Hy.
    + done.
    + change (0 < esi c2). lia.
    + exists c'. split.
      * rewrite <-Hr. apply Hk. unfold tok_begin. rewrite Hr2. reflexivity.
      * rewrite Hdrop. change (ebx c3) with (esi c2) in He. change (esi c3) with (esi c2) in He. change (ram c3) with (ram c2) in He.
        rewrite N1, N7, M5 in He. exact He.
  - destruct Hloop as (c1 & [M1 M2 M3 M4 M5 M6] & _ & Hk).
    destruct (tok_7_run c1) as (c' & Hr & He); [rewrite M1, Hb; lia|].
    exists c'. rewrite M1, M5, Hb in He. split; [|exact He]. unfold tok_2. by rewrite Hk.
Qed.
End Tok.

(** ** One call *)

Lemma tok_1_run fuel ct d l c :
  (length d < fuel)%nat → fits ct (length d) → d ≠ [] → (length l < fuel)%nat →
  cstr (ram c) (esi c) l → cstr (ram c) ct d → fits (esi c) (length l) → 0 < esi c →
  ∃ c', tok_1 fuel ct c = Ok tt c' ∧ tok_result d (ram c) (esi c) l c'.
Proof.
  intros Hf Hct Hd Hn Hl Hcd Hi Hpos.
  set (c0 := set_flags true false false (c <| ebx := 0 |>)). set (c1 := c0 <| ecx := 0xffffffff |>).
  set (c2 := set_flags true false false (c1 <| eax := 0 |>)). set (c3 := c2 <| df := false |>). set (c4 := c3 <| edi := ct |>).
  destruct (length_run fuel c4 d Hf eq_refl eq_refl eq_refl Hcd Hct) as (c5 & Hrun & H1 & H2 & _ & H4 & H5 & H6 & H7 & _).
  assert (Hz : zf c5 = false) by (rewrite H2; by destruct d).
  set (c6 := c5 <| edx := ecx c5 |>).
  destruct (tok_2_run fuel ct d Hf Hct l c6 Hn) as (c' & Hr & He).
  - split; [exact H6|change (cstr (ram c5) ct d); by rewrite H7|exact H1].
  - change (cstr (ram c5) (esi c5) l). by rewrite H7, H5.
  - change (fits (esi c5) (length l)). by rewrite H5.
  - change (0 < esi c5). by rewrite H5.
  - change (ebx c5 = 0). by rewrite H4.
  - exists c'. split.
    + unfold tok_1. rewrite (bind_Ok xorl_ebx _ c tt c0 eq_refl), (bind_Ok (movl _) _ c0 tt _ eq_refl). fold c1.
      rewrite (bind_Ok xorl_eax _ c1 tt c2 eq_refl), (bind_Ok cld _ c2 tt c3 eq_refl), (bind_Ok (movl _) _ c3 tt _ eq_refl). fold c4.
      rewrite Hrun, (je_run _ _ _ _ Hz), (bind_Ok (movl _) _ c5 tt _ eq_refl). exact Hr.
    + change (ram c6) with (ram c5) in He. change (esi c6) with (esi c5) in He. rewrite H7, H5 in He. exact He.
Qed.

(** Where a call begins: at [s], or at the saved place. *)
Definition start (c : cpu) (s : Z) : Z := if s =? 0 then ___strtok c else s.
(** The registers at the end are the results: the token and the next place. *)
Definition tok_ret (c' : cpu) (tok nxt : Z) (m : gmap Z Z) (r : Z) : Prop := r = tok ∧ ___strtok c' = nxt ∧ ram c' = m.
Definition call_result (d : list Z) (m : gmap Z Z) (p : Z) (l : list Z) (r : Z) (c' : cpu) : Prop :=
  match list_find (λ x, x ∉ d) l with
  | None => tok_ret c' 0 0 m r
  | Some (i, _) =>
      let q := p + Z.of_nat i in
      match list_find (λ x, x ∈ d) (drop i l) with
      | Some (j, _) => tok_ret c' q (q + Z.of_nat j + 1) (<[q + Z.of_nat j := 0]> m) r
      | None => tok_ret c' q 0 m r
      end
  end.
Lemma call_of_tok d m p l c c' :
  tok_result d m p l c → ebx c' = ebx c → ___strtok c' = esi c → ram c' = ram c → call_result d m p l (ebx c') c'.
Proof.
  unfold tok_result, call_result, tok_end, tok_ret. intros Hr H1 H2 H3. rewrite H1, H2, H3.
  by repeat case_match.
Qed.
Lemma testl_zf r c : 0 ≤ r c < 4294967296 → zf (flags32 (s32 (r c)) c) = (r c =? 0).
Proof.
  intros Hr. change ((u32 (s32 (r c)) =? 0) = (r c =? 0)). f_equal. transitivity (u32 (r c)); [wrap_ring|by apply u32_small].
Qed.
Lemma strtok_call fuel s ct d l c :
  (length d < fuel)%nat → fits ct (length d) → d ≠ [] → (length l < fuel)%nat → 0 ≤ s < 4294967296 →
  cstr (ram c) (start c s) l → cstr (ram c) ct d → fits (start c s) (length l) → 0 < start c s →
  ∃ r c', strtok fuel s ct c = Ok r c' ∧ call_result d (ram c) (start c s) l r c'.
Proof.
  intros Hf Hct Hd Hn Hs Hl Hcd Hi Hpos. rewrite strtok_blocks.
  set (c0 := c <| ebx := ___strtok c |> <| esi := s |>).
  assert (Hrun : ∃ c2, esi c2 = start c s ∧ ram c2 = ram c ∧ ∀ {A} (k : M cpu A),
    (testl esi ;; jne (tok_1 fuel ct) (testl ebx ;; je done_ (movl (λ c, c <| esi := ebx c |>) ;; tok_1 fuel ct)) ;; k) c0 =
    (tok_1 fuel ct ;; k) c2).
  { set (c1 := flags32 (s32 (esi c0)) c0). assert (Hz : zf c1 = (s =? 0)) by (exact (testl_zf esi c0 Hs)).
    unfold start in *. destruct (Z.eqb_spec s 0) as [->|Hs0].
    - set (c2 := flags32 (s32 (ebx c1)) c1). set (c3 := c2 <| esi := ebx c2 |>). exists c3. split; [done|]. split; [done|].
      assert (Hz2 : zf c2 = false).
      { unfold c2. rewrite testl_zf; [apply Z.eqb_neq; change (ebx c1) with (___strtok c); lia|].
        change (ebx c1) with (___strtok c). unfold fits in Hi. lia. }
      intros A k. rewrite (bind_Ok (testl esi) _ c0 tt c1 eq_refl). unfold mbind at 1, M_bind at 1. rewrite (jne_run _ _ _ _ Hz).
      rewrite (bind_Ok (testl ebx) _ c1 tt c2 eq_refl), (je_run _ _ _ _ Hz2), (bind_Ok (movl _) _ c2 tt _ eq_refl). reflexivity.
    - exists c1. split; [done|]. split; [done|]. intros A k. rewrite (bind_Ok (testl esi) _ c0 tt c1 eq_refl).
      unfold mbind at 1, M_bind at 1. rewrite (jne_run _ _ _ _ Hz). reflexivity. }
  destruct Hrun as (c2 & H1 & H2 & Hrun). rewrite (bind_Ok (with_args _) _ c tt _ eq_refl). fold c0. rewrite Hrun.
  destruct (tok_1_run fuel ct d l c2 Hf Hct Hd Hn) as (c3 & Hr & He); rewrite ?H1, ?H2; try done.
  rewrite H1, H2 in He. set (c' := c3 <| ___strtok := esi c3 |>). exists (ebx c'), c'.
  split; [|by apply (call_of_tok d _ _ _ c3)]. rewrite (bind_Ok _ _ _ _ _ Hr). reflexivity.
Qed.

(** ** All calls *)

(** [for (p = strtok(s,ct); p; p = strtok(NULL,ct))], the list of the p's. *)
Fixpoint all_tokens (n fuel : nat) (s ct : Z) : M cpu (list Z) :=
  match n with
  | O => no_fuel
  | S n => p ← strtok fuel s ct; if p =? 0 then mret [] else ps ← all_tokens n fuel 0 ct; mret (p :: ps)
  end.
(** The longest pieces of [l] without a character of [d]; [w] is the piece so far. *)
Fixpoint split_on (d w l : list Z) : list (list Z) :=
  match l with
  | [] => if decide (w = []) then [] else [w]
  | x :: l =>
      if decide (x ∈ d) then (if decide (w = []) then split_on d [] l else w :: split_on d [] l)
      else split_on d (w ++ [x]) l
  end.
Definition tokens (d l : list Z) : list (list Z) := split_on d [] l.

Lemma split_skip d w l : Forall (λ x, x ∉ d) l → w ++ l ≠ [] → split_on d w l = [w ++ l].
Proof.
  revert w. induction l as [|x l IH]; intros w Hl Hne; cbn [split_on].
  - rewrite app_nil_r in *. by rewrite decide_False.
  - apply Forall_cons in Hl as [Hx Hl]. rewrite decide_False by done. rewrite IH; [by rewrite <-app_assoc|done|].
    rewrite <-app_assoc. by intros [_ ?]%app_nil.
Qed.
Lemma split_cut d w l x k : Forall (λ x, x ∉ d) l → x ∈ d → w ++ l ≠ [] →
  split_on d w (l ++ x :: k) = (w ++ l) :: split_on d [] k.
Proof.
  revert w. induction l as [|y l IH]; intros w Hl Hx Hne; cbn [split_on app].
  - rewrite app_nil_r in *. rewrite decide_True by done. by rewrite decide_False.
  - apply Forall_cons in Hl as [Hy Hl]. rewrite decide_False by done. rewrite IH; [by rewrite <-app_assoc|done|done|].
    rewrite <-app_assoc. by intros [_ ?]%app_nil.
Qed.
Lemma split_drop d l k : Forall (λ x, x ∈ d) l → split_on d [] (l ++ k) = split_on d [] k.
Proof. induction 1 as [|x l Hx Hl IH]; [done|]. cbn [split_on app]. rewrite decide_True by done. by rewrite decide_True. Qed.

Lemma find_before (P : Z → Prop) `{!∀ x, Decision (P x)} l i x :
  list_find P l = Some (i, x) → l !! i = Some x ∧ P x ∧ Forall (λ y, ¬ P y) (take i l) ∧ (i < length l)%nat.
Proof.
  intros (Hi & Hx & Hall)%list_find_Some. split; [done|]. split; [done|]. split; [|by apply lookup_lt_Some in Hi].
  apply Forall_lookup. intros j y Hj. apply lookup_take_Some in Hj as [Hj Hlt]. by apply (Hall j).
Qed.
(** The tokens of a text, by the two searches of a call. *)
Lemma tokens_step d l :
  tokens d l = match list_find (λ x, x ∉ d) l with
    | None => []
    | Some (i, _) => match list_find (λ x, x ∈ d) (drop i l) with
        | None => [drop i l]
        | Some (j, _) => take j (drop i l) :: tokens d (drop (S j) (drop i l))
        end
    end.
Proof.
  unfold tokens. destruct (list_find (λ x, x ∉ d) l) as [[i x]|] eqn:Hfind.
  - apply find_before in Hfind as (Hi & Hx & Hall & Hlt).
    assert (Hpre : Forall (λ x, x ∈ d) (take i l)).
    { eapply Forall_impl; [exact Hall|]. intros y Hy. by apply dec_stable. }
    rewrite <-(take_drop i l) at 1. rewrite split_drop by done.
    assert (Hcons : drop i l = x :: drop (S i) l) by (by apply drop_S).
    destruct (list_find (λ x, x ∈ d) (drop i l)) as [[j y]|] eqn:Hfind2.
    + apply find_before in Hfind2 as (Hj & Hy & Hall2 & Hlt2).
      rewrite <-(take_drop j (drop i l)) at 1. rewrite (drop_S (drop i l) y j Hj). rewrite split_cut; [done|done|done|].
      destruct j; [rewrite Hcons in Hj; simpl in Hj; congruence|by rewrite Hcons].
    + apply list_find_None in Hfind2. rewrite split_skip; [done|done|by rewrite Hcons].
  - apply list_find_None in Hfind. rewrite <-(app_nil_r l). rewrite split_drop; [done|].
    eapply Forall_impl; [exact Hfind|]. intros y Hy. by apply dec_stable.
Qed.

Lemma cstr_take m a l (j : nat) : cstr m a l → (j ≤ length l)%nat → cstr (<[a + Z.of_nat j := 0]> m) a (take j l).
Proof.
  revert a l. induction j as [|j IH]; intros a l Hl Hj; cbn [take].
  - simpl. rewrite Z.add_0_r, byte_insert by lia. by rewrite decide_True.
  - destruct l as [|x l]; [simpl in Hj; lia|]. destruct Hl as (Hx & Hb & Hl). simpl in Hj.
    split; [done|]. rewrite byte_insert_ne by lia. split; [done|].
    replace (a + Z.of_nat (S j)) with (a + 1 + Z.of_nat j) by lia. apply IH; [done|lia].
Qed.
Lemma cstr_drop m a l (i : nat) : cstr m a l → (i ≤ length l)%nat → cstr m (a + Z.of_nat i) (drop i l).
Proof.
  intros Hl Hi. rewrite <-(take_drop i l) in Hl. apply cstr_app in Hl. by rewrite length_take_le in Hl.
Qed.
Lemma cstr_ext m m' a l : (∀ b, a ≤ b ≤ a + Z.of_nat (length l) → byte m' b = byte m b) → cstr m a l → cstr m' a l.
Proof.
  revert a. induction l as [|x l IH]; intros a Hb; simpl in *; [by rewrite Hb by lia|].
  intros (Hx & H1 & Hl). rewrite Hb by lia. split; [done|]. split; [done|]. apply IH; [|done]. intros b Hab. apply Hb. lia.
Qed.

(** With no place saved there is no token. *)
Lemma strtok_null fuel ct c : ___strtok c = 0 → ∃ c', strtok fuel 0 ct c = Ok 0 c' ∧ ram c' = ram c.
Proof.
  intros H0. rewrite strtok_blocks. set (c0 := c <| ebx := ___strtok c |> <| esi := 0 |>).
  set (c1 := flags32 (s32 (esi c0)) c0). set (c2 := flags32 (s32 (ebx c1)) c1). set (c3 := c2 <| ___strtok := esi c2 |>).
  assert (Hz : zf c1 = true) by reflexivity.
  assert (Hz2 : zf c2 = true).
  { change ((u32 (s32 (___strtok c)) =? 0) = true). by rewrite H0. }
  exists c3. split; [|done]. rewrite (bind_Ok (with_args _) _ c tt _ eq_refl). fold c0.
  rewrite (bind_Ok (testl esi) _ c0 tt c1 eq_refl). unfold mbind at 1, M_bind at 1. rewrite (jne_run _ _ _ _ Hz).
  rewrite (bind_Ok (testl ebx) _ c1 tt c2 eq_refl), (je_run _ _ _ _ Hz2).
  change (Ok (___strtok c) c3 = Ok 0 c3). by rewrite H0.
Qed.

Section All.
Context (fuel : nat) (ct : Z) (d : list Z) (Hf : (length d < fuel)%nat) (Hct : fits ct (length d)) (Hd : d ≠ []).

(** The delimiters are outside the text. *)
Definition apart (p : Z) (l : list Z) : Prop := ct + Z.of_nat (length d) < p ∨ p + Z.of_nat (length l) < ct.

Lemma all_tokens_run n s l c :
  (length l < n)%nat → (length l < fuel)%nat → 0 ≤ s < 4294967296 → 0 < start c s →
  cstr (ram c) (start c s) l → fits (start c s) (length l) → cstr (ram c) ct d → apart (start c s) l →
  ∃ ps c', all_tokens n fuel s ct c = Ok ps c' ∧ Forall2 (cstr (ram c')) ps (tokens d l) ∧
    ∀ a, ¬ (start c s ≤ a < start c s + Z.of_nat (length l)) → byte (ram c') a = byte (ram c) a.
Proof.
  revert s l c. induction n as [|n IH]; intros s l c Hn Hlf Hs Hpos Hl Hi Hcd Hap; [lia|].
  destruct (strtok_call fuel s ct d l c Hf Hct Hd Hlf Hs Hl Hcd Hi Hpos) as (r & c1 & Hrun & Hres).
  set (p := start c s) in *. cbn [all_tokens]. rewrite (bind_Ok _ _ _ _ _ Hrun), tokens_step. unfold call_result in Hres.
  destruct (list_find (λ x, x ∉ d) l) as [[i x]|] eqn:Hfind.
  2: { destruct Hres as (-> & _ & Hm). exists [], c1. rewrite Hm. split; [done|]. split; [by constructor|done]. }
  apply find_before in Hfind as (Hix & Hx & _ & Hlt).
  pose proof (cstr_drop _ _ _ i Hl ltac:(lia)) as Hq. pose proof (length_drop l i) as Hld.
  destruct (list_find (λ x, x ∈ d) (drop i l)) as [[j y]|] eqn:Hfind2.
  - destruct Hres as (Hr & Hnx & Hm). apply find_before in Hfind2 as (Hj & _ & _ & Hlt2).
    set (q := p + Z.of_nat i) in *. assert (Hq0 : 0 < q) by (unfold q; lia). destruct (Z.eqb_spec r 0) as [|_]; [lia|].
    set (rest := drop (S j) (drop i l)) in *. assert (Hrl : length rest = (length l - i - S j)%nat) by (unfold rest; rewrite !length_drop; lia).
    assert (Hst : start c1 0 = q + Z.of_nat j + 1) by exact Hnx.
    destruct (IH 0 rest c1) as (ps & c' & Hall & Hps & Hfr); rewrite ?Hst; [lia|lia|lia|lia| | | | |].
    + rewrite Hm. apply cstr_insert; [lia|]. unfold rest.
      replace (q + Z.of_nat j + 1) with (q + Z.of_nat (S j)) by lia. apply cstr_drop; [exact Hq|lia].
    + unfold fits in *. unfold q. lia.
    + rewrite Hm. apply cstr_insert; [unfold apart in Hap; unfold q; lia|exact Hcd].
    + unfold apart in *. unfold q. lia.
    + rewrite Hst in Hfr. rewrite (bind_Ok _ _ _ _ _ Hall). exists (r :: ps), c'. split; [done|]. split.
      * constructor; [|exact Hps]. rewrite Hr. pose proof (cstr_take _ _ _ j Hq ltac:(lia)) as Htok. rewrite <-Hm in Htok.
        eapply cstr_ext; [|exact Htok]. rewrite length_take_le by lia. intros b Hb. apply Hfr. lia.
      * intros a Ha. rewrite Hfr by (unfold q in *; lia). rewrite Hm. apply byte_insert_ne. unfold q. lia.
  - destruct Hres as (Hr & Hnx & Hm). set (q := p + Z.of_nat i) in *. assert (Hq0 : 0 < q) by (unfold q; lia).
    destruct (Z.eqb_spec r 0) as [|_]; [lia|]. destruct n as [|n]; [lia|].
    destruct (strtok_null fuel ct c1 Hnx) as (c2 & Hrun2 & Hm2). exists [r], c2.
    assert (Hall : all_tokens (S n) fuel 0 ct c1 = Ok [] c2) by (cbn [all_tokens]; by rewrite (bind_Ok _ _ _ _ _ Hrun2)).
    rewrite (bind_Ok _ _ _ _ _ Hall). split; [done|]. rewrite Hm2, Hm. split; [|done].
    constructor; [by rewrite Hr|constructor].
Qed.
End All.

(** C15: repeated calls of strtok() split a string into its tokens, the longest
    pieces without a delimiter, in order: every call returns the address of the
    next token, which is a string of its own by then, the last call NULL; no
    byte outside the string changes. *)
Theorem strtok_correct fuel s ct l d c :
  (length l < fuel)%nat → (length d < fuel)%nat → d ≠ [] → cstr (ram c) s l → cstr (ram c) ct d →
  0 < s → fits s (length l) → fits ct (length d) → apart ct d s l →
  ∃ ps c', all_tokens (S (length l)) fuel s ct c = Ok ps c' ∧ Forall2 (cstr (ram c')) ps (tokens d l) ∧
    ∀ a, ¬ (s ≤ a < s + Z.of_nat (length l)) → byte (ram c') a = byte (ram c) a.
Proof.
  intros Hlf Hf Hd Hl Hcd Hs Hi Hct Hap. assert (Hst : start c s = s) by (unfold start; destruct (Z.eqb_spec s 0); lia).
  pose proof (all_tokens_run fuel ct d Hf Hct Hd (S (length l)) s l c) as Hrun. rewrite Hst in Hrun.
  apply Hrun; try done; unfold fits in Hi; lia.
Qed.
