(* ===== verification/Vsprintf.v ===== *)
(** * kernel/vsprintf.c: formatted output

    Strings are lists of bytes without their final 0; the output buffer is the
    list of the bytes written so far.  The arguments are the 32-bit words of
    the [va_list]; the strings they point at are in kernel memory. *)

From stdpp Require Import base option list gmap.
From Stdlib Require Import ZArith Ascii.
From S2P Require Import Prelude.
Local Open Scope Z_scope.

(** [*p]: the final 0 at the end. *)
Definition deref_str (l : list Z) : Z := default 0 (head l).

Definition is_digit (c : Z) : bool := (chr "0" <=? c) && (c <=? chr "9").

(** [while (is_digit( **s)) i = i*10 + *(( *s)++) - '0';] *)
Fixpoint skip_atoi_from (i : Z) (s : list Z) : Z * list Z :=
  match s with
  | c :: s' => if is_digit c then skip_atoi_from (s32 (i * 10 + c - chr "0")) s' else (i, s)
  | [] => (i, s)
  end.
Definition skip_atoi (s : list Z) : Z * list Z := skip_atoi_from 0 s.

Definition ZEROPAD : Z := 1.   (* pad with zero *)
Definition SIGN : Z := 2.      (* unsigned/signed long *)
Definition PLUS : Z := 4.      (* show plus *)
Definition SPACE : Z := 8.     (* space if plus *)
Definition LEFT : Z := 16.     (* left justified *)
Definition SPECIAL : Z := 32.  (* 0x *)
Definition SMALL : Z := 64.    (* use 'abcdef' instead of 'ABCDEF' *)

(** [digits[k]] *)
Definition digit (small : bool) (k : Z) : Z :=
  if k <? 10 then chr "0" + k else (if small then chr "a" else chr "A") + (k - 10).

(** [do_div(n,base)]: divl leaves the quotient in n and yields the remainder. *)
Definition do_div (n base : Z) : Z * Z := (s32 (u32 n / base), u32 n mod base).

(** [while (num!=0) tmp[i++]=digits[do_div(num,base)];], the digits from the
    lowest on. *)
Fixpoint div_loop (fuel : nat) (small : bool) (num base : Z) : list Z :=
  if num =? 0 then [] else
  match fuel with
  | O => []
  | S fuel => let '(num, r) := do_div num base in digit small r :: div_loop fuel small num base
  end.

(** [while (size-->0) *str++ = c;]: what is written, and the final size. *)
Definition pad (c : Z) (size : Z) : list Z * Z := (replicate (Z.to_nat size) c, s32 (Z.min size 0 - 1)).

(** The character for the sign, 0 for none, and the number left to print. *)
Definition number_sign (num type : Z) : Z * Z :=
  if has type SIGN && (num <? 0) then (chr "-", s32 (- num))
  else (if has type PLUS then chr "+" else if has type SPACE then chr " " else 0, num).
(** [if (sign) size--; if (type&SPECIAL) ...]: the room for the rest. *)
Definition reserve (size sign base type : Z) : Z :=
  let size := if truth sign then s32 (size - 1) else size in
  if has type SPECIAL then
    if base =? 16 then s32 (size - 2) else if base =? 8 then s32 (size - 1) else size
  else size.
Definition special (base type : Z) (small : bool) : list Z :=
  if has type SPECIAL then
    if base =? 8 then [chr "0"] else if base =? 16 then [chr "0"; digit small 33] else []
  else [].
(** From [if (!(type&(ZEROPAD+LEFT)))] to the end: [size] characters of padding
    around the sign, the prefix, [z] zeros and the digits. *)
Definition emit (size z type : Z) (s x ds : list Z) : list Z :=
  let c := if has type ZEROPAD then chr "0" else chr " " in
  let '(p1, size) := if negb (has type (ZEROPAD + LEFT)) then pad (chr " ") size else ([], size) in
  let '(p2, size) := if negb (has type LEFT) then pad c size else ([], size) in
  let z := replicate (Z.to_nat z) (chr "0") in
  let '(p3, _) := pad (chr " ") size in
  p1 ++ s ++ x ++ p2 ++ z ++ ds ++ p3.

(** number(): the bytes written at [str], [None] for its [return 0]. *)
Definition number (num base size precision type : Z) : option (list Z) :=
  let small := has type SMALL in
  let type := if has type LEFT then Z.land type (Z.lnot ZEROPAD) else type in
  if (base <? 2) || (36 <? base) then None else
  let '(sign, num) := number_sign num type in
  let size := reserve size sign base type in
  let tmp := if num =? 0 then [chr "0"] else div_loop 32 small num base in
  let i := Z.of_nat (length tmp) in
  let precision := if precision <? i then i else precision in
  let size := s32 (size - precision) in
  Some (emit size (precision - i) type (if truth sign then [sign] else []) (special base type small) (reverse tmp)).

(** ** vsprintf *)

Record vs := mk_vs {
  v_out : list Z;            (* from buf to str *)
  v_args : list Z;           (* args *)
  v_mem : gmap Z Z           (* kernel memory *)
}.
#[export] Instance eta_vs : Eta vs := fun s => mk_vs (v_out s) (v_args s) (v_mem s).

Definition put (l : list Z) : M vs unit := modify (λ s, s <| v_out ::= λ o, o ++ l |>).
(** va_arg: the caller must have passed enough arguments. *)
Definition va_arg : M vs Z :=
  s ← get;
  match v_args s with
  | [] => fault
  | a :: l => modify (λ s, s <| v_args := l |>) ;; mret a
  end.
Definition va_int : M vs Z := a ← va_arg; mret (s32 a).

(** The bytes of the string at [p]; an address outside the memory reads 0. *)
Fixpoint string_at (fuel : nat) (m : gmap Z Z) (p : Z) : list Z :=
  match fuel with
  | O => []
  | S fuel =>
      let c := u8 (default 0 (m !! p)) in
      if c =? 0 then [] else c :: string_at fuel m (p + 1)
  end.
Definition get_string (p : Z) : M vs (list Z) := s ← get; mret (string_at (S (size (v_mem s))) (v_mem s) p).
Definition set_int (p v : Z) : M vs unit :=
  modify (λ s, s <| v_mem ::= λ m,
    <[p + 3 := u8 (Z.shiftr v 24)]> (<[p + 2 := u8 (Z.shiftr v 16)]> (<[p + 1 := u8 (Z.shiftr v 8)]> (<[p := u8 v]> m))) |>).

(** [repeat: ++fmt; switch ( *fmt)]: the flags, from behind the '%' on. *)
Fixpoint parse_flags (flags : Z) (fmt : list Z) : Z * list Z :=
  match fmt with
  | c :: fmt' =>
      if c =? chr "-" then parse_flags (Z.lor flags LEFT) fmt'
      else if c =? chr "+" then parse_flags (Z.lor flags PLUS) fmt'
      else if c =? chr " " then parse_flags (Z.lor flags SPACE) fmt'
      else if c =? chr "#" then parse_flags (Z.lor flags SPECIAL) fmt'
      else if c =? chr "0" then parse_flags (Z.lor flags ZEROPAD) fmt'
      else (flags, fmt)
  | [] => (flags, fmt)
  end.

(** The field width; after a '*' the code does not step over it. *)
Definition parse_width (flags : Z) (fmt : list Z) : M vs (Z * Z * list Z) :=
  if is_digit (deref_str fmt) then let '(w, fmt) := skip_atoi fmt in mret (flags, w, fmt)
  else if deref_str fmt =? chr "*" then
    w ← va_int;
    mret (if w <? 0 then (Z.lor flags LEFT, s32 (- w), fmt) else (flags, w, fmt))
  else mret (flags, -1, fmt).
Definition parse_precision (fmt : list Z) : M vs (Z * list Z) :=
  if negb (deref_str fmt =? chr ".") then mret (-1, fmt) else
  let fmt := tail fmt in
  '(p, fmt) ← (if is_digit (deref_str fmt) then mret (skip_atoi fmt)
               else if deref_str fmt =? chr "*" then w ← va_int; mret (w, fmt)
               else mret (-1, fmt));
  mret (if p <? 0 then 0 else p, fmt).
(** The qualifier is read and not used. *)
Definition skip_qualifier (fmt : list Z) : list Z :=
  let c := deref_str fmt in
  if (c =? chr "h") || (c =? chr "l") || (c =? chr "L") then tail fmt else fmt.

(** [while (--w > 0) *str++ = ' ';] and the final w *)
Definition pad_pre (w : Z) : list Z * Z :=
  (replicate (Z.to_nat (w - 1)) (chr " "), s32 (Z.min (w - 1) 0)).
(** [while (len < w--) *str++ = ' ';] *)
Definition pad_to (len w : Z) : list Z * Z :=
  (replicate (Z.to_nat (w - len)) (chr " "), s32 (Z.min w len - 1)).

Definition put_number (num base w p flags : Z) : M vs unit :=
  match number num base w p flags with Some l => put l | None => fault end.

(** The conversion for the character [c]; 0 is the end of the format. *)
Definition convert (flags w p c : Z) : M vs unit :=
  if c =? chr "c" then
    let '(p1, w) := if negb (has flags LEFT) then pad_pre w else ([], w) in
    put p1 ;;
    a ← va_int;
    put [u8 a] ;;
    let '(p2, _) := pad_pre w in
    put p2
  else if c =? chr "s" then
    a ← va_arg;
    s ← get_string a;
    let len := Z.of_nat (length s) in
    let len := if p <? 0 then len else if p <? len then p else len in
    let '(p1, w) := if negb (has flags LEFT) then pad_to len w else ([], w) in
    put p1 ;;
    put (take (Z.to_nat len) s) ;;
    let '(p2, _) := pad_to len w in
    put p2
  else if c =? chr "o" then a ← va_int; put_number a 8 w p flags
  else if c =? chr "p" then
    let '(w, flags) := if w =? -1 then (8, Z.lor flags ZEROPAD) else (w, flags) in
    a ← va_int; put_number a 16 w p flags
  else if (c =? chr "x") || (c =? chr "X") then
    a ← va_int;
    put_number a 16 w p (if c =? chr "x" then Z.lor flags SMALL else flags)
  else if (c =? chr "d") || (c =? chr "i") || (c =? chr "u") then
    a ← va_int;
    put_number a 10 w p (if c =? chr "u" then flags else Z.lor flags SIGN)
  else if c =? chr "n" then
    a ← va_arg;
    s ← get;
    set_int a (Z.of_nat (length (v_out s)))
  else
    when (negb (c =? chr "%")) (put [chr "%"]) ;;
    when (truth c) (put [c]).

(** What follows a '%'.  At the end of the format the code steps back, so that
    the loop ends there. *)
Definition directive (fmt : list Z) : M vs (list Z) :=
  let '(flags, fmt) := parse_flags 0 fmt in
  '(flags, w, fmt) ← parse_width flags fmt;
  '(p, fmt) ← parse_precision fmt;
  let fmt := skip_qualifier fmt in
  convert flags w p (deref_str fmt) ;;
  mret (tail fmt).

Fixpoint vsprintf_loop (fuel : nat) (fmt : list Z) : M vs unit :=
  match fmt with
  | [] => mret tt
  | c :: fmt =>
      match fuel with
      | O => no_fuel
      | S fuel =>
          if negb (c =? chr "%") then put [c] ;; vsprintf_loop fuel fmt
          else fmt ← directive fmt; vsprintf_loop fuel fmt
      end
  end.
(** The result is the length; the bytes are in [v_out]. *)
Definition vsprintf (fmt : list Z) : M vs Z :=
  modify (λ s, s <| v_out := [] |>) ;;
  vsprintf_loop (length fmt) fmt ;;
  s ← get;
  mret (Z.of_nat (length (v_out s))).
