(* ===== verification/VsprintfProofs.v ===== *)
(** * Printed numbers and formats *)

From stdpp Require Import base option list gmap.
From Stdlib Require Import ZArith Lia Ascii.
From S2P Require Import Prelude Vsprintf.
Local Open Scope Z_scope.

(** ** Digits *)

Definition digit_value (c : Z) : Z :=
  if c <=? chr "9" then c - chr "0" else if c <=? chr "Z" then c - chr "A" + 10 else c - chr "a" + 10.
(** The number a string of digits stands for. *)
Definition value_from (base v : Z) (l : list Z) : Z := fold_left (λ v c, v * base + digit_value c) l v.
Definition value (base : Z) (l : list Z) : Z := value_from base 0 l.

Lemma digit_value_digit small k : 0 ≤ k < 36 → digit_value (digit small k) = k.
Proof.
  intros Hk. unfold digit_value, digit. change (chr "0") with 48. change (chr "9") with 57.
  change (chr "A") with 65. change (chr "Z") with 90. change (chr "a") with 97.
  destruct (Z.ltb_spec k 10).
  - destruct (Z.leb_spec (48 + k) 57); lia.
  - destruct small.
    + destruct (Z.leb_spec (97 + (k - 10)) 57); [lia|]. destruct (Z.leb_spec (97 + (k - 10)) 90); lia.
    + destruct (Z.leb_spec (65 + (k - 10)) 57); [lia|]. destruct (Z.leb_spec (65 + (k - 10)) 90); lia.
Qed.
Lemma is_digit_digit small k : 0 ≤ k < 10 → is_digit (digit small k) = true.
Proof.
  intros Hk. unfold is_digit, digit. change (chr "0") with 48. change (chr "9") with 57.
  destruct (Z.ltb_spec k 10); lia.
Qed.
Lemma value_app base l c : value base (l ++ [c]) = value base l * base + digit_value c.
Proof. unfold value, value_from. by rewrite fold_left_app. Qed.

(** What do_div leaves, as an unsigned number. *)
Lemma do_div_u32 n base :
  2 ≤ base → do_div n base = (s32 (u32 n / base), u32 n mod base) ∧ u32 (s32 (u32 n / base)) = u32 n / base.
Proof.
  intros Hb. split; [done|]. pose proof (u32_bound n).
  rewrite <-(u32_small (u32 n / base)) at 2; [apply u32_eq_eqm, s32_eqm|].
  split; [apply Z.div_pos; lia|]. apply Z.div_lt_upper_bound; nia.
Qed.
Lemma eqb_u32 n : -2147483648 ≤ n < 4294967296 → (n =? 0) = (u32 n =? 0).
Proof.
  intros Hn. destruct (Z.eqb_spec n 0) as [->|]; [done|].
  unfold u32. destruct (Z.eqb_spec (n mod 4294967296) 0) as [H|]; [|done].
  apply Z.mod_divide in H as [k Hk]; lia.
Qed.

(** The digits of [m] are those of the loop, from the lowest. *)
Lemma div_loop_spec fuel small base n :
  2 ≤ base ≤ 36 → -2147483648 ≤ n < 2147483648 → u32 n < 2 ^ Z.of_nat fuel →
  let l := div_loop fuel small n base in
  value base (reverse l) = u32 n ∧ (length l ≤ fuel)%nat ∧
  Forall (λ c, ∃ k, 0 ≤ k < base ∧ c = digit small k) l ∧ (u32 n ≠ 0 → last l ≠ Some (chr "0") ∧ l ≠ []).
Proof.
  intros Hb. revert n. induction fuel as [|fuel IH]; intros n Hn Hf.
  - change (2 ^ Z.of_nat 0) with 1 in Hf. pose proof (u32_bound n). simpl.
    destruct (n =? 0); simpl; (split; [unfold value, value_from; simpl; lia|]); (split; [lia|]); (split; [constructor|lia]).
  - cbn [div_loop]. rewrite eqb_u32 by lia. destruct (Z.eqb_spec (u32 n) 0) as [H0|H0].
    { simpl. split; [done|]. split; [lia|]. split; [constructor|done]. }
    destruct (do_div_u32 n base) as [-> Hq]; [lia|]. pose proof (u32_bound n) as Hu.
    set (q := u32 n / base) in *. set (r := u32 n mod base).
    pose proof (Z.mod_pos_bound (u32 n) base ltac:(lia)) as Hr. pose proof (Z.div_mod (u32 n) base ltac:(lia)) as Hdm.
    fold q in Hdm. fold r in Hr, Hdm.
    assert (Hlt : q < 2 ^ Z.of_nat fuel).
    { apply Z.div_lt_upper_bound; [lia|]. rewrite Nat2Z.inj_succ, Z.pow_succ_r in Hf by lia. nia. }
    destruct (IH (s32 q)) as (Hv & Hl & Hd & Hz); [apply s32_bound|by rewrite Hq|]. rewrite Hq in *.
    set (l := div_loop fuel small (s32 q) base) in *. simpl. rewrite reverse_cons.
    split; [rewrite value_app, Hv, digit_value_digit by lia; lia|]. split; [lia|].
    split; [constructor; [by exists r|done]|]. intros _. split; [|done].
    rewrite last_cons. destruct (decide (q = 0)) as [Hq0|Hq0].
    + assert (l = []) as ->. { unfold l. rewrite Hq0. by destruct fuel. }
      simpl. intros [= Hc]. assert (digit_value (digit small r) = 0) by (rewrite Hc; reflexivity).
      rewrite digit_value_digit in * by lia. lia.
    + destruct (Hz Hq0) as [H1 H2]. destruct (last l) eqn:Hll; [done|]. by apply last_None in Hll.
Qed.

(** ** number() *)

Definition magnitude (num type : Z) : Z := if has type SIGN then Z.abs num else u32 num.
Definition sign_of (num type : Z) : list Z :=
  if has type SIGN && (num <? 0) then [chr "-"]
  else if has type PLUS then [chr "+"] else if has type SPACE then [chr " "] else [].
(** The characters in front of the digits with SPECIAL. *)
Definition prefix_of (base type : Z) : list Z :=
  if has type SPECIAL then
    if base =? 8 then [chr "0"] else if base =? 16 then [chr "0"; if has type SMALL then chr "x" else chr "X"] else []
  else [].
(** The digits of [m], from the highest. *)
Definition canonical (base m : Z) (ds : list Z) : Prop :=
  value base ds = m ∧ (1 ≤ length ds ≤ 32)%nat ∧ (m = 0 → ds = [chr "0"]) ∧ (m ≠ 0 → head ds ≠ Some (chr "0")).

Lemma number_digits small base n :
  2 ≤ base ≤ 36 → -2147483648 ≤ n < 2147483648 →
  let tmp := if n =? 0 then [chr "0"] else div_loop 32 small n base in
  canonical base (u32 n) (reverse tmp) ∧
  Forall (λ c, ∃ k, 0 ≤ k < base ∧ c = digit small k) (reverse tmp).
Proof.
  intros Hb Hn tmp.
  destruct (div_loop_spec 32 small base n Hb Hn ltac:(apply u32_bound)) as (Hv & Hl & Hd & Hz).
  assert (Hn0 : n = 0 ↔ u32 n = 0).
  { rewrite <-!Z.eqb_eq. by rewrite eqb_u32 by lia. }
  unfold tmp. destruct (Z.eqb_spec n 0) as [->|H0].
  - split; [|constructor; [exists 0; split; [lia|done]|constructor]].
    split; [done|]. split; [simpl; lia|]. split; [done|]. by intros [].
  - split; [|by apply Forall_reverse]. destruct (Hz ltac:(tauto)) as [Hlast Hne].
    split; [done|]. rewrite length_reverse. split.
    { split; [|done]. destruct (div_loop _ _ _ _); [done|simpl; lia]. }
    split; [tauto|]. intros _. by rewrite head_reverse.
Qed.

Lemma replicate_le {A} (n : Z) (x : A) : n ≤ 0 → replicate (Z.to_nat n) x = [].
Proof. intros Hn. by replace (Z.to_nat n) with 0%nat by lia. Qed.
Lemma has_clear_other x m k : Z.land m k = 0 → has (Z.land x (Z.lnot k)) m = has x m.
Proof.
  intros H. unfold has. f_equal. rewrite <-Z.land_assoc. f_equal.
  apply Z.bits_inj'. intros n Hn. rewrite Z.land_spec, Z.lnot_spec by done.
  assert (Ht : Z.testbit (Z.land m k) n = false) by (rewrite H; apply Z.testbit_0_l).
  rewrite Z.land_spec in Ht. destruct (Z.testbit m n), (Z.testbit k n); done.
Qed.
Lemma has_clear_self x k : has (Z.land x (Z.lnot k)) k = false.
Proof.
  unfold has. rewrite <-Z.land_assoc, (Z.land_comm (Z.lnot k)), Z.land_lnot_diag, Z.land_0_r. done.
Qed.

(** The padding around a number of [total] characters in a field of width [w]. *)
Definition left_spaces (w total type : Z) : Z := if has type LEFT || has type ZEROPAD then 0 else w - total.
Definition pad_zeros (w total type : Z) : Z := if has type LEFT then 0 else if has type ZEROPAD then w - total else 0.
Definition right_spaces (w total type : Z) : Z := if has type LEFT then w - total else 0.
Definition spaces (n : Z) : list Z := replicate (Z.to_nat n) (chr " ").
Definition zeros (n : Z) : list Z := replicate (Z.to_nat n) (chr "0").

Lemma zeropad_left type :
  has type (ZEROPAD + LEFT) = has type ZEROPAD || has type LEFT.
Proof.
  change (ZEROPAD + LEFT) with (Z.lor ZEROPAD LEFT). unfold has. rewrite Z.land_lor_distr_r.
  unfold truth. rewrite <-negb_andb. f_equal. apply eq_true_iff_eq.
  rewrite andb_true_iff, !Z.eqb_eq. apply Z.lor_eq_0_iff.
Qed.

Lemma pad_run c size : -2147483648 < size < 2147483648 → pad c size = (replicate (Z.to_nat size) c, Z.min size 0 - 1).
Proof. intros Hs. unfold pad. by rewrite s32_small by lia. Qed.

(** What number() writes when [size] characters are to be filled. *)
Lemma emit_layout size (type z : Z) (s x ds : list Z) :
  -2147483600 < size < 2147483648 → 0 ≤ z →
  let type' := if has type LEFT then Z.land type (Z.lnot ZEROPAD) else type in
  emit size z type' s x ds =
  spaces (left_spaces size 0 type) ++ s ++ x ++
    zeros (Z.max 0 (pad_zeros size 0 type) + z) ++ ds ++ spaces (right_spaces size 0 type).
Proof.
  intros Hs Hz type'. unfold emit, left_spaces, pad_zeros, right_spaces, spaces. rewrite zeropad_left, Z.sub_0_r.
  assert (Hl : has type' LEFT = has type LEFT).
  { unfold type'. destruct (has type LEFT) eqn:E; [|done]. by rewrite has_clear_other. }
  assert (Hzp : has type' ZEROPAD = negb (has type LEFT) && has type ZEROPAD).
  { unfold type'. destruct (has type LEFT); [apply has_clear_self|done]. }
  rewrite Hl, Hzp. destruct (has type LEFT); cbn [negb andb orb].
  - rewrite pad_run by lia. by rewrite Z.max_id, Z.add_0_l.
  - destruct (has type ZEROPAD); cbn [negb andb orb]; rewrite pad_run by lia; cbv beta iota;
      rewrite pad_run by lia; cbv beta iota.
    + rewrite (replicate_le (Z.min size 0 - 1)) by lia. simpl. rewrite !app_nil_r. do 2 f_equal. unfold zeros.
      rewrite Z2Nat.inj_add, replicate_add, <-app_assoc by lia. by replace (Z.to_nat (Z.max 0 size)) with (Z.to_nat size) by lia.
    + rewrite pad_run by lia. cbv beta iota.
      rewrite (replicate_le (Z.min size 0 - 1)), (replicate_le (Z.min (Z.min size 0 - 1) 0 - 1)) by lia.
      by rewrite !app_nil_r.
Qed.

(** The sign and the prefix. *)
Lemma number_sign_spec num type :
  let r := number_sign num type in
  (if truth r.1 then [r.1] else []) = sign_of num type ∧
  r.2 = (if has type SIGN && (num <? 0) then s32 (- num) else num).
Proof. unfold number_sign, sign_of. by repeat case_match. Qed.
Lemma special_spec base type : special base type (has type SMALL) = prefix_of base type.
Proof. unfold special, prefix_of. by repeat case_match. Qed.
Lemma reserve_spec w num base type :
  -1000000000 ≤ w < 1000000000 →
  reserve w (number_sign num type).1 base type =
    w - Z.of_nat (length (sign_of num type)) - Z.of_nat (length (prefix_of base type)).
Proof.
  intros Hw. pose proof (number_sign_spec num type) as [Hs _]. cbv zeta in Hs. rewrite <-Hs.
  unfold reserve, prefix_of.
  destruct (truth _), (has type SPECIAL), (Z.eqb_spec base 16), (Z.eqb_spec base 8); subst; simpl;
    rewrite ?s32_small by (rewrite ?s32_small; lia); lia.
Qed.

(** Clearing ZEROPAD changes none of these. *)
Section Clear.
Context (type : Z) (k : Z) (Hk : k ∈ [SIGN; PLUS; SPACE; SPECIAL; LEFT]).
Lemma has_left_type : has (if has type LEFT then Z.land type (Z.lnot ZEROPAD) else type) k = has type k.
Proof.
  destruct (has type LEFT); [|done]. apply has_clear_other.
  repeat (apply elem_of_cons in Hk as [->|Hk]; [done|]). by apply elem_of_nil in Hk.
Qed.
End Clear.
Ltac in_list := repeat (first [left; reflexivity|right]).

Lemma number_unfold num base w p type :
  2 ≤ base ≤ 36 →
  let type' := if has type LEFT then Z.land type (Z.lnot ZEROPAD) else type in
  let n := (number_sign num type).2 in
  let tmp := if n =? 0 then [chr "0"] else div_loop 32 (has type SMALL) n base in
  let i := Z.of_nat (length tmp) in
  number num base w p type =
    Some (emit (s32 (reserve w (number_sign num type).1 base type - Z.max p i)) (Z.max p i - i) type'
            (sign_of num type) (prefix_of base type) (reverse tmp)).
Proof.
  intros Hb type' n tmp i. unfold number. destruct (Z.ltb_spec base 2); [lia|]. destruct (Z.ltb_spec 36 base); [lia|].
  cbn [orb]. fold type'.
  assert (number_sign num type' = number_sign num type) as ->.
  { unfold number_sign, type'. by rewrite !has_left_type by in_list. }
  rewrite (surjective_pairing (number_sign num type)). fold n. fold tmp. fold i.
  assert (∀ s, reserve w s base type' = reserve w s base type) as ->.
  { intros s. unfold reserve, type'. by rewrite has_left_type by in_list. }
  assert (special base type' (has type SMALL) = prefix_of base type) as ->.
  { rewrite <-special_spec. unfold special, type'. by rewrite has_left_type by in_list. }
  rewrite (proj1 (number_sign_spec num type)).
  replace (if p <? i then i else p) with (Z.max p i) by (destruct (Z.ltb_spec p i); lia). done.
Qed.

Lemma number_layout (num base w p type : Z)
    (Hbase : 2 ≤ base ≤ 36) (Hnum : -2147483648 ≤ num < 2147483648)
    (Hw : -1000000000 ≤ w < 1000000000) (Hp : -1000000000 ≤ p < 1000000000) :
  ∃ ds, let sign := sign_of num type in let prefix := prefix_of base type in
    let len := Z.of_nat (length ds) in
    let total := Z.of_nat (length sign) + Z.of_nat (length prefix) + Z.max p len in
    number num base w p type =
      Some (spaces (left_spaces w total type) ++ sign ++ prefix ++
            zeros (Z.max 0 (pad_zeros w total type) + (Z.max p len - len)) ++ ds ++
            spaces (right_spaces w total type)) ∧
    canonical base (magnitude num type) ds ∧
    Forall (λ c, ∃ k, 0 ≤ k < base ∧ c = digit (has type SMALL) k) ds.
Proof.
  set (n := (number_sign num type).2).
  assert (Hn : -2147483648 ≤ n < 2147483648 ∧ u32 n = magnitude num type).
  { unfold n. rewrite (proj2 (number_sign_spec num type)). unfold magnitude.
    destruct (has type SIGN); cbn [andb]; [|done].
    destruct (Z.ltb_spec num 0); [split; [apply s32_bound|]|split; [done|]; rewrite u32_small; lia].
    rewrite Z.abs_neq by lia. rewrite (u32_eq_eqm (s32 (- num)) (- num)) by apply s32_eqm. apply u32_small. lia. }
  destruct Hn as [Hnb Hmag].
  destruct (number_digits (has type SMALL) base n Hbase Hnb) as [Hcan Hdig].
  set (tmp := if n =? 0 then _ else _) in *. exists (reverse tmp). cbv zeta.
  split; [|by rewrite <-Hmag]. rewrite number_unfold by done. fold n. fold tmp.
  assert (Hlen : (1 ≤ length tmp ≤ 32)%nat) by (rewrite <-length_reverse; apply Hcan). rewrite length_reverse.
  assert (Hsl : (length (sign_of num type) ≤ 1)%nat) by (unfold sign_of; repeat case_match; simpl; lia).
  assert (Hpl : (length (prefix_of base type) ≤ 2)%nat) by (unfold prefix_of; repeat case_match; simpl; lia).
  rewrite reserve_spec by done. rewrite s32_small by lia. rewrite emit_layout by lia.
  set (len := Z.of_nat (length tmp)). set (total := _ + _ + Z.max p len).
  replace (w - _ - _ - Z.max p len) with (w - total) by (unfold total; lia).
  unfold left_spaces, pad_zeros, right_spaces. by rewrite Z.sub_0_r.
Qed.

(** number().  For a base from 2 to 36 the bytes written are: spaces to the
    left, the sign, the 0 or 0x prefix, zeros, digits and spaces to the right.
    The digits denote the argument, as an int with SIGN and as an unsigned long
    without, they are at most 32 (so that they fit into tmp[36]) and have no
    leading zero; the zeros fill up the precision and, with ZEROPAD, the field;
    the spaces fill up the field on the left, or on the right with LEFT. *)
Theorem number_correct (num base w p type : Z)
    (Hbase : 2 ≤ base ≤ 36) (Hnum : -2147483648 ≤ num < 2147483648)
    (Hw : -1000000000 ≤ w < 1000000000) (Hp : -1000000000 ≤ p < 1000000000) :
  ∃ ds, let sign := sign_of num type in let prefix := prefix_of base type in
    let len := Z.of_nat (length ds) in
    let total := Z.of_nat (length sign) + Z.of_nat (length prefix) + Z.max p len in
    number num base w p type =
      Some (spaces (left_spaces w total type) ++ sign ++ prefix ++
            zeros (Z.max 0 (pad_zeros w total type) + (Z.max p len - len)) ++ ds ++
            spaces (right_spaces w total type)) ∧
    canonical base (magnitude num type) ds ∧
    Forall (λ c, ∃ k, 0 ≤ k < base ∧ c = digit (has type SMALL) k) ds.
Proof. by apply number_layout. Qed.

(** ** Reading numbers back *)

Lemma is_digit_value c : is_digit c = true → digit_value c = c - chr "0" ∧ 0 ≤ c - chr "0" < 10.
Proof.
  unfold is_digit, digit_value. change (chr "0") with 48. change (chr "9") with 57.
  intros [H1%Z.leb_le H2%Z.leb_le]%andb_true_iff. destruct (Z.leb_spec c 57); lia.
Qed.
Lemma value_from_ge i l : 0 ≤ i → Forall (λ c, is_digit c = true) l → i ≤ value_from 10 i l.
Proof.
  intros Hi Hl. revert i Hi. induction Hl as [|c l Hc Hl IH]; intros i Hi; [unfold value_from; simpl; lia|].
  destruct (is_digit_value c Hc) as [Hv ?]. change (value_from 10 i (c :: l)) with (value_from 10 (i * 10 + digit_value c) l).
  rewrite Hv. specialize (IH (i * 10 + (c - chr "0")) ltac:(lia)). lia.
Qed.
Lemma skip_atoi_run i l rest :
  0 ≤ i → Forall (λ c, is_digit c = true) l → is_digit (deref_str rest) = false → value_from 10 i l < 2147483648 →
  skip_atoi_from i (l ++ rest) = (value_from 10 i l, rest).
Proof.
  intros Hi Hl Hr. revert i Hi. induction Hl as [|c l Hc Hl IH]; intros i Hi Hv; simpl.
  - destruct rest as [|c rest]; [done|]. change (is_digit c = false) in Hr. simpl. by rewrite Hr.
  - rewrite Hc. destruct (is_digit_value c Hc) as [Hd ?].
    change (value_from 10 i (c :: l)) with (value_from 10 (i * 10 + digit_value c) l) in *. rewrite Hd in *.
    pose proof (value_from_ge (i * 10 + (c - chr "0")) l ltac:(lia) Hl).
    rewrite s32_small by lia. replace (i * 10 + c - chr "0") with (i * 10 + (c - chr "0")) by lia. apply IH; lia.
Qed.

(** The decimal digits of [n], as "%d" prints them. *)
Definition decimal (n : Z) : list Z := default [] (number n 10 (-1) (-1) SIGN).
Lemma decimal_spec n :
  0 ≤ n < 2147483648 →
  number n 10 (-1) (-1) SIGN = Some (decimal n) ∧ canonical 10 n (decimal n) ∧
  Forall (λ c, is_digit c = true) (decimal n).
Proof.
  intros Hn. destruct (number_layout n 10 (-1) (-1) SIGN) as (ds & Hrun & Hc & Hd); [lia..|].
  assert (Hs : sign_of n SIGN = []).
  { unfold sign_of. destruct (Z.ltb_spec n 0); [lia|]. by rewrite andb_false_r. }
  assert (Hl : (1 ≤ length ds)%nat) by apply Hc.
  unfold magnitude in Hc. change (has SIGN SIGN) with true in Hc. cbv iota in Hc. rewrite Z.abs_eq in Hc by lia.
  rewrite Hs in Hrun. change (prefix_of 10 SIGN) with (@nil Z) in Hrun.
  unfold left_spaces, pad_zeros, right_spaces in Hrun.
  change (has SIGN LEFT) with false in Hrun. change (has SIGN ZEROPAD) with false in Hrun. cbn [orb length app] in Hrun.
  unfold spaces, zeros in Hrun. rewrite !(replicate_le) in Hrun by lia. rewrite app_nil_l, app_nil_r in Hrun.
  assert (Hdec : decimal n = ds) by (unfold decimal; by rewrite Hrun).
  rewrite Hdec. split; [done|]. split; [done|]. eapply Forall_impl; [apply Hd|].
  intros c (k & Hk & ->). apply is_digit_digit. lia.
Qed.

(** skip_atoi() reads back what number() prints: for a non-negative int,
    the decimal digits followed by anything but a digit are read as that
    number, and the rest of the string is left. *)
Theorem skip_atoi_number (n : Z) (Hn : 0 ≤ n < 2147483648) :
  ∃ l, number n 10 (-1) (-1) SIGN = Some l ∧
    ∀ rest, is_digit (deref_str rest) = false → skip_atoi (l ++ rest) = (n, rest).
Proof.
  destruct (decimal_spec n Hn) as (Hrun & (Hv & _) & Hd). exists (decimal n). split; [done|].
  intros rest Hr. unfold skip_atoi. fold (value 10 (decimal n)) in Hv.
  rewrite skip_atoi_run by (done || (unfold value in Hv; lia)). by rewrite <-Hv at 2.
Qed.

(** ** Formats *)

(** A format as its author means it. *)
Inductive item :=
  | Text (c : Z)
  | Conv (flags : list Z) (width precision qualifier : option Z) (c : Z).

Definition flag_chars : list Z := [chr "-"; chr "+"; chr " "; chr "#"; chr "0"].
Definition qualifiers : list Z := [chr "h"; chr "l"; chr "L"].
Definition conversions : list Z :=
  [chr "c"; chr "s"; chr "o"; chr "p"; chr "x"; chr "X"; chr "d"; chr "i"; chr "u"; chr "n"; chr "%"].
Definition item_ok (i : item) : Prop :=
  match i with
  | Text c => c ≠ chr "%"
  | Conv fl w p q c =>
      Forall (.∈ flag_chars) fl ∧ (∀ n, w = Some n → 0 < n < 1000000000) ∧
      (∀ n, p = Some n → 0 ≤ n < 1000000000) ∧ (∀ n, q = Some n → n ∈ qualifiers) ∧ c ∈ conversions
  end.

(** How it is written. *)
Definition render_item (i : item) : list Z :=
  match i with
  | Text c => [c]
  | Conv fl w p q c =>
      chr "%" :: fl ++ default [] (decimal <$> w) ++ default [] ((λ n, chr "." :: decimal n) <$> p) ++
      default [] ((λ n, [n]) <$> q) ++ [c]
  end.
Definition render (l : list item) : list Z := mjoin (render_item <$> l).

(** *** What it prints

    Said without the code's flag bits and loops: a text in a field, a numeral
    in a field, the bytes of a string, the count of what was printed so far. *)

Definition flag (a : ascii) (fl : list Z) : bool := bool_decide (chr a ∈ fl).

(** [l] in a field of [w] characters. *)
Definition field (fl : list Z) (w : Z) (l : list Z) : list Z :=
  let room := spaces (w - Z.of_nat (length l)) in
  if flag "-" fl then l ++ room else room ++ l.

(** The numeral of [m] in a base, without leading zeros. *)
Definition numeral (base : Z) (small : bool) (m : Z) (ds : list Z) : Prop :=
  canonical base m ds ∧ Forall (λ c, ∃ k, 0 ≤ k < base ∧ c = digit small k) ds.

(** The numeral [ds] of [num] with its sign and its prefix, at least [p] digits,
    in a field of [w] characters that is filled with zeros or spaces. *)
Definition number_text (fl : list Z) (signed small : bool) (base num w p : Z) (ds : list Z) : list Z :=
  let sign := if signed && (num <? 0) then [chr "-"]
              else if flag "+" fl then [chr "+"] else if flag " " fl then [chr " "] else [] in
  let prefix := if flag "#" fl then
                  if base =? 8 then [chr "0"]
                  else if base =? 16 then [chr "0"; if small then chr "x" else chr "X"] else []
                else [] in
  let body := zeros (p - Z.of_nat (length ds)) ++ ds in
  let room := w - Z.of_nat (length (sign ++ prefix ++ body)) in
  if flag "-" fl then sign ++ prefix ++ body ++ spaces room
  else if flag "0" fl then sign ++ prefix ++ zeros room ++ body
  else spaces room ++ sign ++ prefix ++ body.

(** The bytes of memory from [a] to the next 0; [v] in the four bytes from [a]. *)
Definition byte_at (m : gmap Z Z) (a : Z) : Z := u8 (default 0 (m !! a)).
Definition holds_string (m : gmap Z Z) (a : Z) (l : list Z) : Prop :=
  (∀ k c, l !! k = Some c → byte_at m (a + Z.of_nat k) = c ∧ c ≠ 0) ∧ byte_at m (a + Z.of_nat (length l)) = 0.
Definition stores (m : gmap Z Z) (a v : Z) (m' : gmap Z Z) : Prop :=
  (∀ b, b < a ∨ a + 4 ≤ b → m' !! b = m !! b) ∧
  ∀ k, 0 ≤ k < 4 → m' !! (a + k) = Some (v / 2 ^ (8 * k) mod 256).

(** [%d %i], [%u], [%o], [%x] and [%X], [%p]: signed or not, small letters or
    not, and the base. *)
Definition number_kind (c : Z) : option (bool * bool * Z) :=
  if bool_decide (c ∈ [chr "d"; chr "i"]) then Some (true, false, 10)
  else if c =? chr "u" then Some (false, false, 10)
  else if c =? chr "o" then Some (false, false, 8)
  else if c =? chr "x" then Some (false, true, 16)
  else if bool_decide (c ∈ [chr "X"; chr "p"]) then Some (false, false, 16)
  else None.

(** From one state to the next: the output, the arguments left, the memory. *)
Inductive prints : item → vs → vs → Prop :=
  | prints_text c s : prints (Text c) s (s <| v_out ::= λ o, o ++ [c] |>)
  | prints_percent fl w p q s : prints (Conv fl w p q (chr "%")) s (s <| v_out ::= λ o, o ++ [chr "%"] |>)
  | prints_char fl w p q o a l m :
      prints (Conv fl w p q (chr "c")) (mk_vs o (a :: l) m) (mk_vs (o ++ field fl (default 0 w) [u8 a]) l m)
  | prints_string fl w p q o a l m str :
      holds_string m a str →
      let text := default str ((λ p, take (Z.to_nat p) str) <$> p) in
      prints (Conv fl w p q (chr "s")) (mk_vs o (a :: l) m) (mk_vs (o ++ field fl (default 0 w) text) l m)
  | prints_count fl w p q o a l m m' :
      stores m a (Z.of_nat (length o)) m' →
      prints (Conv fl w p q (chr "n")) (mk_vs o (a :: l) m) (mk_vs o l m')
  | prints_number fl w p q c o a l m signed small base ds :
      number_kind c = Some (signed, small, base) →
      numeral base small (if signed then Z.abs (s32 a) else u32 a) ds →
      let fl' := if (c =? chr "p") && bool_decide (w = None) then chr "0" :: fl else fl in
      let w' := default (if c =? chr "p" then 8 else 0) w in
      prints (Conv fl w p q c) (mk_vs o (a :: l) m)
        (mk_vs (o ++ number_text fl' signed small base (s32 a) w' (default 0 p) ds) l m).
(** One after the other. *)
Inductive prints_all : list item → vs → vs → Prop :=
  | prints_nil s : prints_all [] s s
  | prints_cons i l s1 s2 s3 : prints i s1 s2 → prints_all l s2 s3 → prints_all (i :: l) s1 s3.
(** How many arguments it takes. *)
Definition takes (i : item) : nat :=
  match i with Text _ => 0 | Conv _ _ _ _ c => if c =? chr "%" then 0 else 1 end.

(** *** The parser *)

Definition flag_value (c : Z) : Z :=
  if c =? chr "-" then LEFT else if c =? chr "+" then PLUS else if c =? chr " " then SPACE
  else if c =? chr "#" then SPECIAL else ZEROPAD.
Definition flags_value (v : Z) (fl : list Z) : Z := fold_left (λ v c, Z.lor v (flag_value c)) fl v.

Lemma parse_flags_run fl v c rest :
  Forall (.∈ flag_chars) fl → c ∉ flag_chars → parse_flags v (fl ++ c :: rest) = (flags_value v fl, c :: rest).
Proof.
  intros Hfl Hc. revert v. induction Hfl as [|f fl Hf Hfl IH]; intros v; simpl.
  - unfold flag_chars in Hc. rewrite !not_elem_of_cons in Hc. destruct Hc as (H1 & H2 & H3 & H4 & H5 & _).
    repeat (match goal with |- context [c =? ?k] => destruct (Z.eqb_spec c k); [done|] end). done.
  - unfold flag_chars in Hf. rewrite !elem_of_cons, elem_of_nil in Hf.
    destruct Hf as [->|[->|[->|[->|[->|[]]]]]]; apply IH.
Qed.

(** The characters that may follow: none is a digit or a star. *)
Definition plain (c : Z) : Prop := is_digit c = false ∧ c ≠ chr "*".
Lemma parse_width_run v w c rest s :
  (∀ n, w = Some n → 0 < n < 1000000000) → plain c →
  parse_width v (default [] (decimal <$> w) ++ c :: rest) s = Ok (v, default (-1) w, c :: rest) s.
Proof.
  intros Hw [Hc Hs]. unfold parse_width. destruct w as [n|]; simpl.
  - destruct (decimal_spec n) as (_ & (Hv & Hl & _) & Hd); [specialize (Hw n eq_refl); lia|].
    assert (is_digit (deref_str (decimal n ++ c :: rest)) = true) as ->.
    { destruct Hd as [|d ds Hd _]; [simpl in Hl; lia|done]. }
    unfold skip_atoi. specialize (Hw n eq_refl). unfold value in Hv.
    rewrite skip_atoi_run by (done || lia). by rewrite Hv.
  - change (deref_str (c :: rest)) with c. rewrite Hc. by destruct (Z.eqb_spec c (chr "*")).
Qed.
Lemma parse_precision_run p c rest s :
  (∀ n, p = Some n → 0 ≤ n < 1000000000) → plain c → c ≠ chr "." →
  parse_precision (default [] ((λ n, chr "." :: decimal n) <$> p) ++ c :: rest) s = Ok (default (-1) p, c :: rest) s.
Proof.
  intros Hp [Hc Hs] Hdot. unfold parse_precision. destruct p as [n|]; simpl.
  - change (chr "." =? chr ".") with true. cbn [negb]. specialize (Hp n eq_refl).
    destruct (decimal_spec n ltac:(lia)) as (_ & (Hv & Hl & _) & Hd).
    assert (is_digit (deref_str (decimal n ++ c :: rest)) = true) as ->.
    { destruct Hd as [|d ds Hd _]; [simpl in Hl; lia|done]. }
    unfold skip_atoi. unfold value in Hv. rewrite skip_atoi_run by (done || lia). rewrite Hv.
    unfold mbind, M_bind, mret, M_ret. destruct (Z.ltb_spec n 0); [lia|done].
  - change (deref_str (c :: rest)) with c. by destruct (Z.eqb_spec c (chr ".")).
Qed.

Lemma conversions_plain c :
  c ∈ conversions → plain c ∧ c ≠ chr "." ∧ c ∉ flag_chars ∧ c ∉ qualifiers.
Proof.
  intros H. unfold conversions in H. rewrite !elem_of_cons, elem_of_nil in H.
  assert (Hb : plain c ∧ c ≠ chr "." ∧ bool_decide (c ∈ flag_chars) = false ∧ bool_decide (c ∈ qualifiers) = false).
  { repeat (destruct H as [->|H]; [by split_and!|]). done. }
  destruct Hb as (H1 & H2 & H3%bool_decide_eq_false & H4%bool_decide_eq_false). done.
Qed.
Lemma qualifiers_plain c : c ∈ qualifiers → plain c ∧ c ≠ chr "." ∧ c ∉ flag_chars.
Proof.
  intros H. unfold qualifiers in H. rewrite !elem_of_cons, elem_of_nil in H.
  assert (Hb : plain c ∧ c ≠ chr "." ∧ bool_decide (c ∈ flag_chars) = false).
  { repeat (destruct H as [->|H]; [by split_and!|]). done. }
  destruct Hb as (H1 & H2 & H3%bool_decide_eq_false). done.
Qed.
Lemma skip_qualifier_run q c rest :
  (∀ n, q = Some n → n ∈ qualifiers) → c ∉ qualifiers →
  skip_qualifier (default [] ((λ n, [n]) <$> q) ++ c :: rest) = c :: rest.
Proof.
  intros Hq Hc. unfold qualifiers in *. destruct q as [n|]; simpl.
  - specialize (Hq n eq_refl). rewrite !elem_of_cons, elem_of_nil in Hq.
    by destruct Hq as [->|[->|[->|[]]]].
  - rewrite !not_elem_of_cons in Hc. destruct Hc as (H1 & H2 & H3 & _). unfold skip_qualifier.
    change (deref_str (c :: rest)) with c.
    by destruct (Z.eqb_spec c (chr "h")), (Z.eqb_spec c (chr "l")), (Z.eqb_spec c (chr "L")).
Qed.
Lemma dot_plain : plain (chr ".") ∧ chr "." ∉ flag_chars.
Proof. split; [by split|]. by apply (bool_decide_eq_false_1 (chr "." ∈ flag_chars)). Qed.
(** A string that starts with a character of which [P] holds, in any case. *)
Lemma starts_with {A} (P : A → Prop) (o : option (list A)) (c : A) (rest : list A) :
  (∀ l, o = Some l → ∃ d l', l = d :: l' ∧ P d) → P c →
  ∃ d l', default [] o ++ c :: rest = d :: l' ∧ P d.
Proof.
  intros Ho Hc. destruct o as [l|]; [|by exists c, rest].
  destruct (Ho l eq_refl) as (d & l' & -> & Hd). by exists d, (l' ++ c :: rest).
Qed.

Lemma directive_run fl w p q c rest s :
  item_ok (Conv fl w p q c) →
  directive (tail (render_item (Conv fl w p q c)) ++ rest) s =
    (convert (flags_value 0 fl) (default (-1) w) (default (-1) p) c ;; mret rest) s.
Proof.
  intros (Hfl & Hw & Hp & Hq & Hc). destruct (conversions_plain c Hc) as (Hpl & Hdot & Hcf & Hcq).
  unfold directive, render_item. cbn [tail]. rewrite <-!app_assoc. cbn [app].
  set (r3 := default [] ((λ n, [n]) <$> q) ++ c :: rest).
  destruct (starts_with (λ d, plain d ∧ d ≠ chr "." ∧ d ∉ flag_chars) ((λ n, [n]) <$> q) c rest) as (d3 & l3 & H3 & Hd3).
  { intros l (n & -> & ->)%fmap_Some. exists n, []. split; [done|]. by apply qualifiers_plain, Hq. }
  { done. }
  fold r3 in H3.
  destruct (starts_with (λ d, plain d ∧ d ∉ flag_chars) ((λ n, chr "." :: decimal n) <$> p) d3 l3) as (d2 & l2 & H2 & Hd2).
  { intros l (n & -> & ->)%fmap_Some. exists (chr "."), (decimal n). split; [done|apply dot_plain]. }
  { tauto. }
  destruct (starts_with (λ d, d ∉ flag_chars) (decimal <$> w) d2 l2) as (d1 & l1 & H1 & Hd1).
  { intros l (n & -> & ->)%fmap_Some. specialize (Hw n eq_refl).
    destruct (decimal_spec n) as (_ & (Hv & Hl & _ & Hh) & Hd); [lia|].
    destruct (decimal n) as [|d ds]; [simpl in Hl; lia|]. exists d, ds. split; [done|].
    apply Forall_cons in Hd as [Hd _]. specialize (Hh ltac:(lia)). unfold flag_chars.
    rewrite !elem_of_cons, elem_of_nil. by intros [->|[->|[->|[->|[->|[]]]]]]. }
  { tauto. }
  rewrite H3, H2, H1, parse_flags_run by done. rewrite <-H1.
  rewrite (bind_Ok _ _ _ _ _ (parse_width_run (flags_value 0 fl) w d2 l2 s Hw (proj1 Hd2))). rewrite <-H2.
  rewrite (bind_Ok _ _ _ _ _ (parse_precision_run p d3 l3 s Hp (proj1 Hd3) (proj1 (proj2 Hd3)))).
  rewrite <-H3. unfold r3. by rewrite skip_qualifier_run.
Qed.

(** *** Each conversion *)

Lemma has_bit x k : 0 ≤ k → has x (2 ^ k) = Z.testbit x k.
Proof.
  intros Hk. unfold has, truth. destruct (Z.testbit x k) eqn:Hb.
  - apply negb_true_iff, Z.eqb_neq. intros H0. apply (f_equal (λ z, Z.testbit z k)) in H0.
    by rewrite Z.land_spec, Z.pow2_bits_true, Hb, Z.testbit_0_l in H0.
  - apply negb_false_iff, Z.eqb_eq. apply Z.bits_inj'. intros n Hn.
    rewrite Z.land_spec, Z.pow2_bits_eqb, Z.testbit_0_l by done.
    destruct (Z.eqb_spec k n) as [<-|]; [by rewrite Hb|by rewrite andb_false_r].
Qed.
Lemma has_lor x y k : 0 ≤ k → has (Z.lor x y) (2 ^ k) = has x (2 ^ k) || has y (2 ^ k).
Proof. intros Hk. by rewrite !has_bit, Z.lor_spec. Qed.

(** A bit of the flags is set when one of the characters that set it is there. *)
Lemma flags_value_has k (g : Z → bool) fl v :
  0 ≤ k → Forall (λ f, has (flag_value f) (2 ^ k) = g f) fl →
  has (flags_value v fl) (2 ^ k) = has v (2 ^ k) || existsb g fl.
Proof.
  intros Hk Hfl. revert v. induction Hfl as [|f fl Hf Hfl IH]; intros v; simpl; [by rewrite orb_false_r|].
  unfold flags_value in *. by rewrite IH, has_lor, Hf, orb_assoc by done.
Qed.
Lemma flag_existsb a fl : flag a fl = existsb (λ f, chr a =? f) fl.
Proof.
  unfold flag. apply eq_true_iff_eq. rewrite bool_decide_eq_true, existsb_exists.
  setoid_rewrite <-list_elem_of_In. setoid_rewrite Z.eqb_eq. naive_solver.
Qed.

(** What the flag word of a conversion says of its flag characters. *)
Record type_of (type : Z) (fl : list Z) (signed small : bool) : Prop := {
  type_left : has type LEFT = flag "-" fl;
  type_zero : has type ZEROPAD = flag "0" fl;
  type_plus : has type PLUS = flag "+" fl;
  type_space : has type SPACE = flag " " fl;
  type_special : has type SPECIAL = flag "#" fl;
  type_sign : has type SIGN = signed;
  type_small : has type SMALL = small
}.
Lemma type_of_flags fl : Forall (.∈ flag_chars) fl → type_of (flags_value 0 fl) fl false false.
Proof.
  intros Hfl.
  assert (Hb : ∀ k g, 0 ≤ k → (∀ f, f ∈ flag_chars → has (flag_value f) (2 ^ k) = g f) →
            has (flags_value 0 fl) (2 ^ k) = existsb g fl).
  { intros k g Hk Hg. rewrite (flags_value_has k g); [done|done|]. eapply Forall_impl; [exact Hfl|exact Hg]. }
  assert (Hc : ∀ (P : Z → Prop), Forall P flag_chars → ∀ f, f ∈ flag_chars → P f) by (intros P HP; by apply Forall_forall).
  assert (Hno : existsb (λ _, false) fl = false) by (clear; by induction fl).
  split; rewrite ?flag_existsb.
  - apply (Hb 4); [done|]. apply Hc. by repeat constructor.
  - apply (Hb 0); [done|]. apply Hc. by repeat constructor.
  - apply (Hb 2); [done|]. apply Hc. by repeat constructor.
  - apply (Hb 3); [done|]. apply Hc. by repeat constructor.
  - apply (Hb 5); [done|]. apply Hc. by repeat constructor.
  - rewrite <-Hno. apply (Hb 1); [done|]. apply Hc. by repeat constructor.
  - rewrite <-Hno. apply (Hb 6); [done|]. apply Hc. by repeat constructor.
Qed.
Lemma has_lor_keep type v k b :
  0 ≤ k → has v (2 ^ k) = false → has type (2 ^ k) = b → has (Z.lor type v) (2 ^ k) = b.
Proof. intros Hk Hv <-. by rewrite has_lor, Hv, orb_false_r by done. Qed.
Lemma has_lor_set type v k : 0 ≤ k → has v (2 ^ k) = true → has (Z.lor type v) (2 ^ k) = true.
Proof. intros Hk Hv. by rewrite has_lor, Hv, orb_true_r by done. Qed.
Ltac type_bits :=
  split; [apply (has_lor_keep _ _ 4)|first [by apply (has_lor_set _ _ 0)|apply (has_lor_keep _ _ 0)]|apply (has_lor_keep _ _ 2)
         |apply (has_lor_keep _ _ 3)|apply (has_lor_keep _ _ 5)
         |first [by apply (has_lor_set _ _ 1)|apply (has_lor_keep _ _ 1)]
         |first [by apply (has_lor_set _ _ 6)|apply (has_lor_keep _ _ 6)]]; try done; rewrite ?flag_existsb in *; try done.
Lemma type_of_sign type fl small : type_of type fl false small → type_of (Z.lor type SIGN) fl true small.
Proof. intros []. type_bits. Qed.
Lemma type_of_small type fl signed : type_of type fl signed false → type_of (Z.lor type SMALL) fl signed true.
Proof. intros []. type_bits. Qed.
Lemma type_of_zeropad type fl signed small :
  type_of type fl signed small → type_of (Z.lor type ZEROPAD) (chr "0" :: fl) signed small.
Proof. intros []. type_bits. Qed.

Lemma put_number_prints num base w p type fl signed small o l m :
  2 ≤ base ≤ 36 → -2147483648 ≤ num < 2147483648 → -1 ≤ w < 1000000000 → -1 ≤ p < 1000000000 →
  type_of type fl signed small →
  ∃ ds, numeral base small (if signed then Z.abs num else u32 num) ds ∧
    put_number num base w p type (mk_vs o l m) =
      Ok tt (mk_vs (o ++ number_text fl signed small base num (Z.max 0 w) (Z.max 0 p) ds) l m).
Proof.
  intros Hb Hn Hw Hp [Ht1 Ht2 Ht3 Ht4 Ht5 Ht6 Ht7].
  destruct (number_layout num base w p type Hb Hn ltac:(lia) ltac:(lia)) as (ds & Hrun & Hcan & Hdig).
  unfold magnitude in Hcan. rewrite Ht6 in Hcan. rewrite Ht7 in Hdig. exists ds. split; [done|].
  unfold put_number. rewrite Hrun. unfold put, modify, set. simpl. do 3 f_equal.
  assert (Hlen : (1 ≤ length ds)%nat) by apply Hcan.
  unfold number_text, sign_of, prefix_of. rewrite Ht3, Ht4, Ht5, Ht6, Ht7.
  set (sign := if signed && _ then _ else _). set (prefix := if flag "#" fl then _ else _).
  unfold left_spaces, pad_zeros, right_spaces. rewrite Ht1, Ht2. rewrite !length_app.
  unfold spaces, zeros. rewrite !length_replicate.
  assert (Hr : ∀ (c : Z) a b, Z.to_nat a = Z.to_nat b → replicate (Z.to_nat a) c = replicate (Z.to_nat b) c)
    by (by intros c a b ->).
  destruct (flag "-" fl); cbn [orb].
  - change (Z.to_nat 0) with 0%nat. simpl. rewrite <-!app_assoc. do 2 f_equal. f_equal; [apply Hr; lia|].
    f_equal. apply Hr. lia.
  - destruct (flag "0" fl); change (Z.to_nat 0) with 0%nat; simpl; rewrite ?app_nil_r.
    + do 2 f_equal. rewrite Z2Nat.inj_add, replicate_add, <-app_assoc by lia. f_equal; [apply Hr; lia|].
      f_equal. apply Hr. lia.
    + f_equal; [apply Hr; lia|]. do 2 f_equal. f_equal. apply Hr. lia.
Qed.

(** The string of [string_at] is the one in memory. *)
Lemma string_at_bytes fuel m a k c :
  string_at fuel m a !! k = Some c → byte_at m (a + Z.of_nat k) = c ∧ c ≠ 0.
Proof.
  revert a k. induction fuel as [|fuel IH]; intros a k; simpl; [done|].
  destruct (Z.eqb_spec (u8 (default 0 (m !! a))) 0) as [|Hne]; [done|].
  destruct k as [|k]; simpl.
  - intros [= <-]. by rewrite Z.add_0_r.
  - intros Hk. destruct (IH (a + 1) k Hk) as [<- ?]. split; [f_equal; lia|done].
Qed.
Lemma string_at_ends fuel m a :
  (length (string_at fuel m a) < fuel)%nat → byte_at m (a + Z.of_nat (length (string_at fuel m a))) = 0.
Proof.
  revert a. induction fuel as [|fuel IH]; intros a; simpl; [lia|]. fold (byte_at m a).
  destruct (Z.eqb_spec (byte_at m a) 0) as [H0|Hne]; simpl; [by rewrite Z.add_0_r|].
  intros Hl. rewrite <-(IH (a + 1)) by lia. f_equal. lia.
Qed.
(** There are no more bytes other than 0 than there is memory. *)
Lemma nonzero_bytes m a n :
  (∀ k, (k < n)%nat → byte_at m (a + Z.of_nat k) ≠ 0) → (n ≤ size m)%nat.
Proof.
  intros Hn. set (l := (λ k : nat, a + Z.of_nat k) <$> seq 0 n).
  assert (Hnd : NoDup l) by (apply NoDup_fmap_2; [intros ? ? ?; lia|apply NoDup_seq]).
  assert (Hsub : list_to_set l ⊆ dom m).
  { intros x Hx. apply elem_of_list_to_set, list_elem_of_fmap in Hx as (k & -> & Hk%elem_of_seq).
    apply elem_of_dom. specialize (Hn k ltac:(lia)). unfold byte_at in Hn. destruct (m !! _); [by eexists|done]. }
  apply subseteq_size in Hsub. rewrite size_list_to_set, size_dom in Hsub by done.
  unfold l in Hsub. by rewrite length_fmap, length_seq in Hsub.
Qed.
Lemma string_at_spec m a : holds_string m a (string_at (S (size m)) m a).
Proof.
  split; [apply string_at_bytes|]. apply string_at_ends. apply Nat.lt_succ_r, (nonzero_bytes m a). intros k Hk.
  destruct (lookup_lt_is_Some_2 _ _ Hk) as [c Hc]. by destruct (string_at_bytes _ _ _ _ _ Hc) as [-> ?].
Qed.

Lemma set_int_stores a v o l m :
  ∃ m', set_int a v (mk_vs o l m) = Ok tt (mk_vs o l m') ∧ stores m a v m'.
Proof.
  eexists. split; [reflexivity|]. split.
  - intros b Hb. cbn. rewrite !lookup_insert_ne by lia. done.
  - intros k Hk. unfold u8. assert (H4 : k = 0 ∨ k = 1 ∨ k = 2 ∨ k = 3) by lia; destruct H4 as [->|[->|[->| ->]]]; cbn -[Z.shiftr Z.div Z.modulo Z.pow].
    all: repeat first [rewrite Z.add_0_r|rewrite lookup_insert_eq|rewrite lookup_insert_ne by lia].
    all: rewrite ?Z.shiftr_div_pow2 by lia; try done. f_equal. by rewrite Z.div_1_r.
Qed.

Lemma u8_s32 x : u8 (s32 x) = u8 x.
Proof.
  pose proof (s32_eqm x) as H. unfold eqm32 in H. unfold u8.
  rewrite (Znumtheory.Zmod_div_mod 256 4294967296 (s32 x)), H, <-Znumtheory.Zmod_div_mod; [done|lia|lia|by exists 16777216|lia|lia|by exists 16777216].
Qed.
(** Padding before the text leaves none for after it. *)
Lemma pad_pre_field fl w b :
  (∀ n, w = Some n → 0 < n < 1000000000) →
  (let '(p1, w1) := if negb (flag "-" fl) then pad_pre (default (-1) w) else ([], default (-1) w) in
   let '(p2, _) := pad_pre w1 in p1 ++ b :: p2) = field fl (default 0 w) [b].
Proof.
  intros Hw. unfold pad_pre, field. destruct (flag "-" fl); cbn [negb].
  - simpl. f_equal. unfold spaces. f_equal. destruct w; simpl; lia.
  - unfold spaces. rewrite (replicate_le (s32 _ - 1)).
    + f_equal. f_equal. destruct w; simpl; lia.
    + destruct w as [n|]; simpl; [specialize (Hw n eq_refl); rewrite s32_small by lia; lia|done].
Qed.
Lemma pad_to_field fl w (l : list Z) :
  (∀ n, w = Some n → 0 < n < 1000000000) → let len := Z.of_nat (length l) in
  (let '(p1, w1) := if negb (flag "-" fl) then pad_to len (default (-1) w) else ([], default (-1) w) in
   let '(p2, _) := pad_to len w1 in p1 ++ l ++ p2) = field fl (default 0 w) l.
Proof.
  intros Hw len. assert (Hl : 0 ≤ len) by (unfold len; lia). unfold pad_to, field. fold len. destruct (flag "-" fl); cbn [negb].
  - simpl. f_equal. unfold spaces. f_equal. destruct w; simpl; lia.
  - unfold spaces. rewrite (replicate_le (s32 _ - len)), app_nil_r.
    + f_equal. f_equal. destruct w; simpl; lia.
    + set (m := Z.min (default (-1) w) len - 1).
      assert (-2147483648 ≤ m < 2147483648 ∧ m ≤ len).
      { unfold m. destruct w as [n|]; simpl; [specialize (Hw n eq_refl)|]; lia. }
      rewrite s32_small by lia. lia.
Qed.

(** The numbers: the flag word, the base and the argument the code uses. *)
Lemma convert_number fl w p q c a o l m signed small base :
  item_ok (Conv fl w p q c) → number_kind c = Some (signed, small, base) →
  ∃ s', convert (flags_value 0 fl) (default (-1) w) (default (-1) p) c (mk_vs o (a :: l) m) = Ok tt s' ∧
    prints (Conv fl w p q c) (mk_vs o (a :: l) m) s'.
Proof.
  intros (Hfl & Hw & Hp & _ & _) Hk. pose proof (type_of_flags fl Hfl) as Hty.
  set (fl' := if (c =? chr "p") && bool_decide (w = None) then chr "0" :: fl else fl).
  set (w' := default (if c =? chr "p" then 8 else -1) w).
  assert (Hb : 2 ≤ base ≤ 36).
  { unfold number_kind in Hk. repeat case_match; simplify_eq; lia. }
  assert (Hwb : -1 ≤ w' < 1000000000) by (unfold w'; destruct (c =? chr "p"), w as [w0|]; simpl; try specialize (Hw w0 eq_refl); lia).
  assert (Hpb : -1 ≤ default (-1) p < 1000000000) by (destruct p as [n|]; simpl; [specialize (Hp n eq_refl)|]; lia).
  assert (∃ type, type_of type fl' signed small ∧
    convert (flags_value 0 fl) (default (-1) w) (default (-1) p) c (mk_vs o (a :: l) m) =
    put_number (s32 a) base w' (default (-1) p) type (mk_vs o l m)) as (type & Htype & Hrun).
  { unfold number_kind in Hk. unfold fl', w'. clear fl' w' Hwb Hpb Hb.
    case_bool_decide as Hd.
    { simplify_eq. exists (Z.lor (flags_value 0 fl) SIGN).
      rewrite !elem_of_cons, elem_of_nil in Hd. destruct Hd as [->|[->|[]]]; (split; [by apply type_of_sign|done]). }
    destruct (Z.eqb_spec c (chr "u")) as [->|]; [simplify_eq; by exists (flags_value 0 fl)|].
    destruct (Z.eqb_spec c (chr "o")) as [->|]; [simplify_eq; by exists (flags_value 0 fl)|].
    destruct (Z.eqb_spec c (chr "x")) as [->|].
    { simplify_eq. exists (Z.lor (flags_value 0 fl) SMALL). split; [by apply type_of_small|done]. }
    case_bool_decide as Hd'; simplify_eq. rewrite !elem_of_cons, elem_of_nil in Hd'.
    destruct Hd' as [->|[->|[]]]; [by exists (flags_value 0 fl)|].
    destruct w as [w0|].
    - exists (flags_value 0 fl). split; [done|]. specialize (Hw w0 eq_refl). unfold convert. simpl.
      by destruct (Z.eqb_spec w0 (-1)); [lia|].
    - exists (Z.lor (flags_value 0 fl) ZEROPAD). split; [by apply type_of_zeropad|done]. }
  destruct (put_number_prints (s32 a) base w' (default (-1) p) type fl' signed small o l m Hb (s32_bound a) Hwb Hpb Htype)
    as (ds & Hnum & Hput).
  rewrite Hrun, Hput. eexists. split; [done|].
  assert (Hmax : Z.max 0 w' = default (if c =? chr "p" then 8 else 0) w).
  { unfold w'. destruct (c =? chr "p"), w as [w0|]; simpl; try specialize (Hw w0 eq_refl); lia. }
  assert (Hmp : Z.max 0 (default (-1) p) = default 0 p) by (destruct p as [n|]; simpl; [specialize (Hp n eq_refl)|]; lia).
  rewrite Hmax, Hmp. eapply prints_number; [exact Hk|]. destruct signed; [exact Hnum|].
  replace (u32 a) with (u32 (s32 a)); [exact Hnum|]. apply u32_eq_eqm, s32_eqm.
Qed.

Lemma convert_prints fl w p q c s :
  item_ok (Conv fl w p q c) → (takes (Conv fl w p q c) ≤ length (v_args s))%nat →
  ∃ s', convert (flags_value 0 fl) (default (-1) w) (default (-1) p) c s = Ok tt s' ∧ prints (Conv fl w p q c) s s'.
Proof.
  intros Hok Ht. pose proof Hok as (Hfl & Hw & Hp & _ & Hc). pose proof (type_left _ _ _ _ (type_of_flags fl Hfl)) as Hleft.
  unfold takes in Ht. destruct (Z.eqb_spec c (chr "%")) as [->|Hpc].
  { eexists. split; [reflexivity|]. apply prints_percent. }
  destruct s as [o [|a l] m]; simpl in Ht; [lia|].
  destruct (number_kind c) as [[[signed small] base]|] eqn:Hk; [by eapply convert_number|].
  assert (c = chr "c" ∨ c = chr "s" ∨ c = chr "n") as [->|[->| ->]].
  { unfold conversions in Hc. rewrite !elem_of_cons, elem_of_nil in Hc.
    repeat (destruct Hc as [->|Hc]; [by auto|]). done. }
  - pose proof (pad_pre_field fl w (u8 (s32 a)) Hw) as Hpad. unfold convert. change (chr "c" =? chr "c") with true.
    cbv iota. rewrite Hleft. destruct (if negb (flag "-" fl) then _ else _) as [p1 w1].
    destruct (pad_pre w1) as [p2 w2]. exists (mk_vs (((o ++ p1) ++ [u8 (s32 a)]) ++ p2) l m). split; [reflexivity|].
    rewrite <-!app_assoc. cbn [app]. rewrite Hpad, u8_s32. apply prints_char.
  - set (str := string_at (S (size m)) m a).
    set (text := default str ((λ p, take (Z.to_nat p) str) <$> p)).
    assert (Htext : ∃ len, len = Z.of_nat (length text) ∧ text = take (Z.to_nat len) str ∧
      len = (let len := Z.of_nat (length str) in
             if default (-1) p <? 0 then len else if default (-1) p <? len then default (-1) p else len)).
    { eexists. split; [done|]. unfold text. destruct p as [n|]; simpl.
      - specialize (Hp n eq_refl). rewrite length_take. split.
        + rewrite Nat2Z.id. destruct (Nat.le_ge_cases (Z.to_nat n) (length str)).
          * by rewrite Nat.min_l.
          * by rewrite Nat.min_r, firstn_all, take_ge by lia.
        + destruct (Z.ltb_spec n 0), (Z.ltb_spec n (Z.of_nat (length str))); lia.
      - by rewrite Nat2Z.id, firstn_all. }
    destruct Htext as (len & Hlen & Htake & Hdef).
    assert (Hrun : convert (flags_value 0 fl) (default (-1) w) (default (-1) p) (chr "s") (mk_vs o (a :: l) m) =
      (let '(p1, w1) := if negb (has (flags_value 0 fl) LEFT) then pad_to len (default (-1) w) else ([], default (-1) w) in
       put p1 ;; put (take (Z.to_nat len) str) ;; let '(p2, _) := pad_to len w1 in put p2) (mk_vs o l m)) by (by rewrite Hdef).
    rewrite Hrun, Hleft, <-Htake. pose proof (pad_to_field fl w text Hw) as Hpad. cbv zeta in Hpad. rewrite <-Hlen in Hpad.
    destruct (if negb (flag "-" fl) then _ else _) as [p1 w1]. destruct (pad_to len w1) as [p2 w2].
    exists (mk_vs (((o ++ p1) ++ text) ++ p2) l m). split; [reflexivity|].
    rewrite <-!app_assoc, Hpad. apply (prints_string fl w p q o a l m str), string_at_spec.
  - destruct (set_int_stores a (Z.of_nat (length o)) o l m) as (m' & Hrun & Hst).
    exists (mk_vs o l m'). split; [exact Hrun|]. by apply prints_count.
Qed.

Lemma prints_args i s s' : prints i s s' → length (v_args s) = (takes i + length (v_args s'))%nat.
Proof.
  intros H. destruct H as [| | | | |fl w p q c o a l m signed small base ds Hk]; try done. simpl.
  destruct (Z.eqb_spec c (chr "%")) as [->|]; done.
Qed.

(** C38: vsprintf on formats.  For every format written by [render] (any flags,
    a width and a precision in decimal below 10^9, a qualifier and one of the
    conversions, between plain characters) and enough arguments, vsprintf ends,
    returns the number of bytes written, and has written what [prints] says:
    characters and strings in a field of the width, padded on the side the
    flags name, a string cut to the precision; numbers with their sign, prefix,
    zeros and the digits of the argument in its base; [%n] stores the count of
    bytes so far.  A width or precision given as [*] is not covered: the code
    does not step over the star. *)
Theorem vsprintf_render (l : list item) (args : list Z) (m : gmap Z Z) (o : list Z)
    (Hok : Forall item_ok l) (Hargs : (sum_list (takes <$> l) ≤ length args)%nat) :
  ∃ out args' m', vsprintf (render l) (mk_vs o args m) = Ok (Z.of_nat (length out)) (mk_vs out args' m') ∧
    prints_all l (mk_vs [] args m) (mk_vs out args' m').
Proof.
  assert (Hloop : ∀ fuel s, (length (render l) ≤ fuel)%nat → (sum_list (takes <$> l) ≤ length (v_args s))%nat →
    ∃ s', vsprintf_loop fuel (render l) s = Ok tt s' ∧ prints_all l s s').
  { clear Hargs. induction Hok as [|i l Hi Hl IH]; intros fuel s Hf Ha.
    { exists s. split; [by destruct fuel|constructor]. }
    change (render (i :: l)) with (render_item i ++ render l) in *. rewrite length_app in Hf.
    change (sum_list (takes <$> i :: l)) with (takes i + sum_list (takes <$> l))%nat in Ha.
    destruct i as [c|fl w p q c].
    - destruct fuel as [|fuel]; simpl in Hf; [lia|]. simpl. simpl in Hi.
      destruct (Z.eqb_spec c (chr "%")); [done|]. simpl.
      destruct (IH fuel (s <| v_out ::= λ o, o ++ [c] |>)) as (s' & Hrun & Hp); [lia|exact Ha|].
      exists s'. split; [exact Hrun|]. eapply prints_cons; [apply prints_text|done].
    - pose proof (directive_run fl w p q c (render l)) as Hd.
      set (rest := tail (render_item (Conv fl w p q c))) in *.
      assert (Hr : render_item (Conv fl w p q c) = chr "%" :: rest) by done. rewrite Hr in *.
      destruct fuel as [|fuel]; simpl in Hf; [lia|]. cbn [app vsprintf_loop].
      change (negb (chr "%" =? chr "%")) with false. cbv iota.
      destruct (convert_prints fl w p q c s Hi ltac:(lia)) as (s1 & Hconv & Hp1).
      pose proof (prints_args _ _ _ Hp1).
      destruct (IH fuel s1) as (s' & Hrun & Hp); [lia|lia|].
      exists s'. split; [|by eapply prints_cons]. unfold mbind at 1, M_bind at 1. rewrite Hd by done.
      rewrite (bind_Ok _ _ _ _ _ Hconv). exact Hrun. }
  destruct (Hloop (length (render l)) (mk_vs [] args m)) as ([out args' m'] & Hrun & Hp); [done|done|].
  exists out, args', m'. split; [|done]. unfold vsprintf.
  assert (Hclear : modify (λ s : vs, s <| v_out := [] |>) (mk_vs o args m) = Ok tt (mk_vs [] args m)) by done.
  by rewrite (bind_Ok _ _ _ _ _ Hclear), (bind_Ok _ _ _ _ _ Hrun).
Qed.
