(* ===== verification/MemExamples.v ===== *)
(** * Concrete memories, strings and formats

    For the theorems on memory.c, malloc.c, string.h and vsprintf.c. *)

From stdpp Require Import base option list gmap strings.
From Stdlib Require Import ZArith Lia Ascii.
From S2P Require Import Prelude Memory MemoryFacts MemoryRefs MemoryProofs MemoryFork MemoryCow Malloc MallocFacts MallocBucket MallocProofs.
From S2P Require Import StringH StringHProofs StrtokProofs Vsprintf VsprintfProofs.
Local Open Scope Z_scope.

(** ** A concrete machine state for the theorems on memory.c *)

Definition ex_empty : mm := mk_mm (LOW_MEM + PAGING_MEMORY) (replicate (Z.to_nat PAGING_PAGES) 0) ∅.
Definition ex_got : mm := ex_empty <| mem_map := zinsert 3839 1 (mem_map ex_empty) |>.
Definition ex_linked : mm := store ex_got (4 * Z.of_nat 16) (Z.lor (page_addr 3839) 7).
Definition ex_mm : mm := store ex_linked (frame (pde ex_linked 16) + 4 * Z.of_nat 0) 0x5005.
Definition no_ext (i : Z) : Z := 0.

Lemma ex_count_empty i : count ex_empty i = 0.
Proof.
  unfold count, zlookup, ex_empty. destruct (i <? 0); [done|]. cbn [mem_map].
  destruct (replicate (Z.to_nat PAGING_PAGES) 0 !! Z.to_nat i) eqn:H; [|done].
  by apply lookup_replicate_1 in H as [-> _].
Qed.
Lemma ex_empty_ok : mm_ok no_ext ex_empty.
Proof.
  assert (Hw : ∀ a, word ex_empty a = 0) by done.
  assert (Hp : ∀ d, present (pde ex_empty d) = false) by (intros d; unfold pde; by rewrite Hw).
  split; [|split].
  - split; [|split].
    + apply length_replicate.
    + apply Forall_replicate. lia.
    + unfold ex_empty; simpl. lia.
  - split; intros d; rewrite Hp; done.
  - intros i Hi. unfold refs. rewrite zsum_zero.
    + by rewrite ex_count_empty.
    + intros d _. unfold dir_refs. by rewrite Hp.
Qed.
Lemma ex_reserved s : HIGH_MEMORY s = LOW_MEM + PAGING_MEMORY → reserved no_ext s.
Proof. intros Hh i Hi. destruct (page_addr_props i Hi) as (_ & ? & _). rewrite Hh. lia. Qed.

Lemma ex_user16 : user_dir 16.
Proof. unfold user_dir, USER_DIR, USER_DIRS. lia. Qed.
Lemma ex_page : 0 ≤ 3839 < PAGING_PAGES. Proof. by split. Qed.

Lemma ex_linked_ok : linked no_ext ex_empty 16 ex_linked ∧ frame (pde ex_linked 16) = page_addr 3839.
Proof.
  refine (link_fresh no_ext ex_empty 3839 ex_got ex_empty_ok _ (ex_reserved ex_empty eq_refl) ex_page
    (ex_count_empty _) eq_refl eq_refl _ 16 ex_user16 eq_refl).
  - intros j. unfold no_ext. lia.
  - intros a. by destruct (in_page _ a).
Qed.
Lemma ex_mm_inv : mm_inv no_ext ex_mm.
Proof.
  destruct ex_linked_ok as [[(Hwf & Htab & Hacc) Hh Hp Hz Hpde Hpte Hcnt] Hf].
  pose proof ex_user16 as Hu.
  split; [exact Hwf| | |].
  - apply tables_ok_store_pte; [exact Htab|exact Hu|lia|exact Hp|]. intros _. rewrite Hh.
    vm_compute. reflexivity.
  - intros i. unfold no_ext. lia.
  - eapply accounted_ext; [|apply accounted_store_pte; [exact Hacc|exact Htab|exact Hu|lia|exact Hp]].
    intros i. cbn beta. rewrite (Hz 0%nat) by lia. change (refers 0 i) with 0.
    rewrite refers_iff, decide_False; [unfold no_ext; lia|].
    intros (_ & Hl & _). apply Hl. reflexivity.
Qed.
Lemma ex_count i : 0 ≤ i < PAGING_PAGES → count ex_mm i ≤ 1.
Proof.
  intros Hi. destruct ex_linked_ok as [[_ _ _ _ _ _ Hcnt] _].
  change (count ex_mm i) with (count ex_linked i).
  destruct (Hcnt i Hi) as [->|[_ ->]]; [rewrite ex_count_empty|]; lia.
Qed.
Lemma ex_pde : pde ex_mm 16 = 0xFFF007. Proof. vm_compute. reflexivity. Qed.
Lemma ex_pte : pte ex_mm 16 0 = 0x5005. Proof. vm_compute. reflexivity. Qed.

Lemma get_free_page_correct_witness :
  ∃ p s', get_free_page ex_mm = Ok p s' ∧ mm_wf s' ∧
    ((p = 0 ∧ s' = ex_mm ∧ ∀ i, 0 ≤ i < PAGING_PAGES → count ex_mm i ≠ 0) ∨
     (∃ i, 0 ≤ i < PAGING_PAGES ∧ p = page_addr i ∧ count ex_mm i = 0 ∧
       (∀ j, i < j < PAGING_PAGES → count ex_mm j ≠ 0) ∧
       (∀ j, count s' j = if decide (i = j) then 1 else count ex_mm j) ∧
       (∀ a, word s' a = if in_page p a then 0 else word ex_mm a))).
Proof. exact (get_free_page_correct ex_mm (inv_wf _ _ ex_mm_inv)). Defined.

Lemma free_page_tables_correct_witness :
  ∃ s', free_page_tables 0x4000000 0x400000 ex_mm = Ok 0 s' ∧ mm_inv no_ext s' ∧
    (∀ d, (16 ≤ d < 17)%nat → present (pde s' d) = false) ∧
    (∀ d, user_dir d → ¬ (16 ≤ d < 17)%nat → pde s' d = pde ex_mm d ∧
       (present (pde ex_mm d) = true → ∀ k, (k < 1024)%nat → pte s' d k = pte ex_mm d k)).
Proof.
  refine (free_page_tables_correct no_ext ex_mm 16 0x400000 ex_mm_inv _ _).
  - unfold USER_DIR. lia.
  - change (dirs_of_size 4194304) with 1%nat. lia.
Defined.

Lemma copy_page_tables_correct_witness :
  ∃ r s' m, copy_page_tables 0x4000000 0x8000000 0x400000 ex_mm = Ok r s' ∧ mm_inv no_ext s' ∧
    (r = 0 ∧ m = 1%nat ∨ r = -1 ∧ (m < 1)%nat).
Proof.
  destruct (copy_page_tables_correct no_ext ex_mm 16 32 0x400000 ex_mm_inv) as (r & s' & m & H1 & H2 & H3 & _);
    change (dirs_of_size 4194304) with 1%nat in *; try (unfold USER_DIR; lia).
  - by apply ex_reserved.
  - intros j Hj. replace j with 0%nat by lia. vm_compute. reflexivity.
  - intros i Hi. pose proof (ex_count i Hi). pose proof (inv_count _ _ ex_mm_inv i Hi) as Ha.
    unfold no_ext in Ha. pose proof (refs_ge_dir ex_mm i 16 ex_user16). cbn [zsum]. lia.
  - exact (ex_intro _ r (ex_intro _ s' (ex_intro _ m (conj H1 (conj H2 H3))))).
Defined.

Lemma un_wp_page_correct_witness :
  (∃ s', un_wp_page (frame (pde ex_mm 16) + 4 * Z.of_nat 0) ex_mm = Ok tt s' ∧
     mm_inv no_ext s' ∧ unshared no_ext ex_mm 16 0 s') ∨
  (un_wp_page (frame (pde ex_mm 16) + 4 * Z.of_nat 0) ex_mm = Exit SIGSEGV ex_mm ∧
     (∀ i, 0 ≤ i < PAGING_PAGES → count ex_mm i ≠ 0) ∧
     (LOW_MEM ≤ frame (pte ex_mm 16 0) → count ex_mm (MAP_NR (frame (pte ex_mm 16 0))) ≠ 1)).
Proof.
  refine (un_wp_page_correct no_ext ex_mm 16 0 ex_mm_inv _ ex_user16 _ _ _ _).
  - by apply ex_reserved.
  - lia.
  - rewrite ex_pde. reflexivity.
  - rewrite ex_pte. reflexivity.
  - rewrite ex_pde, ex_pte. vm_compute. intros H. discriminate H.
Defined.

(** ** Concrete heaps for the theorems on malloc.c *)

(** At start-up there is no descriptor and no bucket. *)
Definition heap0 : heap := mk_heap ex_empty init_bucket_dir 0.
Definition buckets0 : list (list bucket) := replicate 9 [].

(** The first object of 16 MB of free memory: the last page holds the
    descriptors, the page before it the objects. *)
Example first_object :
  match malloc 20 heap0 with Ok p h => (p, word (h_mm h) (page_addr 3838)) | Panic _ _ => (0, 0) | _ => (1, 1) end
  = (page_addr 3838, page_addr 3838 + 32).
Proof. vm_compute. reflexivity. Qed.
(** Freed again, its page is free and its descriptor the first free one. *)
Example first_object_freed :
  match (p ← malloc 20; free_s p 0) heap0 with
  | Ok _ h => (count (h_mm h) 3838, count (h_mm h) 3839, free_bucket_desc h) | _ => (9, 9, 9) end
  = (0, 1, page_addr 3839).
Proof. vm_compute. reflexivity. Qed.

Lemma heap0_ok : heap_ok heap0 buckets0 [].
Proof.
  assert (Hno : ∀ (i : nat) bs, buckets0 !! i = Some bs → bs = []) by (intros i bs H; by apply lookup_replicate_1 in H as [-> _]).
  destruct ex_empty_ok as (Hwf & _). split; try done.
  - intros i Hi Hhi. destruct (page_addr_props i Hi) as (_ & Hr & _). simpl in Hhi. lia.
  - intros i d bs Hd HC. rewrite (Hno i bs HC). do 10 (destruct i as [|i]; [by injection Hd as <-|]). done.
  - intros i sz bs β _ HC Hβ. rewrite (Hno i bs HC) in Hβ. by apply elem_of_nil in Hβ.
  - constructor.
  - intros b Hb. by apply elem_of_nil in Hb.
  - constructor.
  - intros p Hp. by apply elem_of_nil in Hp.
Qed.

(** One bucket of two objects of 2048 bytes, the first one in use. *)
Definition ex_desc : Z := page_addr 0.
Definition ex_object : Z := page_addr 1.
Definition ex_counts : mm := set_count (set_count ex_empty 0 1) 1 1.
Definition ex_words : mm :=
  store (store (store (store ex_counts ex_desc ex_object) (ex_desc + 8) (ex_object + 2048))
    (ex_desc + 12) (1 + 2048 * 65536)) (ex_object + 2048) 0.
Definition heap1 : heap := mk_heap ex_words (<[7%nat := mk_bucket_dir 2048 ex_desc]> init_bucket_dir) 0.
Definition bucket1 : bucket := mk_bucket ex_desc ex_object [ex_object + 2048].
Definition buckets1 : list (list bucket) := replicate 7 [] ++ [[bucket1]; []].

Lemma buckets1_lookup (i : nat) bs : buckets1 !! i = Some bs → (i = 7%nat ∧ bs = [bucket1]) ∨ (i ≠ 7%nat ∧ bs = []).
Proof. intros H. do 9 (destruct i as [|i]; [injection H as <-; first [by left|by right]|]). done. Qed.
Lemma ex_words_count i : count ex_words i = if decide (i = 0 ∨ i = 1) then 1 else 0.
Proof.
  assert (Hc : count ex_words i = if decide (1 = i) then 1 else count (set_count ex_empty 0 1) i).
  { unfold ex_words, ex_counts. destruct ex_empty_ok as (Hwf & _). apply (count_insert (set_count ex_empty 0 1)); [|by split].
    apply mm_wf_insert; [done|lia]. }
  rewrite Hc. destruct ex_empty_ok as (Hwf & _).
  assert (H0 : count (set_count ex_empty 0 1) i = if decide (0 = i) then 1 else count ex_empty i) by (by apply count_insert).
  rewrite H0, ex_count_empty. repeat case_decide; lia.
Qed.
Lemma bucket1_ok : bucket_ok ex_words 2048 bucket1.
Proof.
  split.
  - vm_compute. reflexivity.
  - split; [vm_compute; reflexivity|]. split; [done|]. vm_compute. reflexivity.
  - apply NoDup_singleton.
  - intros x Hx%list_elem_of_singleton. subst x. right. left.
  - vm_compute. reflexivity.
Qed.
Lemma heap1_ok : heap_ok heap1 buckets1 [].
Proof.
  split; simpl h_mm; try done.
  - split; [|split]; [| |done].
    + unfold ex_words, ex_counts, set_count. simpl mem_map. done.
    + destruct ex_empty_ok as (Hwf & _). apply (mm_wf_insert (set_count ex_empty 0 1) 1 1); [apply mm_wf_insert; [done|lia]|lia].
  - intros i Hi Hhi. destruct (page_addr_props i Hi) as (_ & Hr & _). simpl in Hhi. lia.
  - intros i d bs Hd HC. destruct (buckets1_lookup i bs HC) as [[-> ->]|[Hne ->]].
    + injection Hd as <-. split; [done|]. split; [done|]. vm_compute. reflexivity.
    + do 10 (destruct i as [|i]; [first [by injection Hd as <-|done]|]). done.
  - intros i sz bs β Hsz HC Hβ. destruct (buckets1_lookup i bs HC) as [[-> ->]|[Hne ->]]; [|by apply elem_of_nil in Hβ].
    injection Hsz as <-. apply list_elem_of_singleton in Hβ as ->. exact bucket1_ok.
  - apply NoDup_singleton.
  - intros b Hb%list_elem_of_singleton. subst b. split; [by exists 65536|]. split; [done|].
    intros i Hi. rewrite ex_words_count. case_decide; [done|]. intros _. left. change (page_addr 0 + 16 ≤ page_addr i). unfold page_addr. lia.
  - apply NoDup_singleton.
  - intros p Hp%list_elem_of_singleton. subst p. exists 1. split; [done|]. split; [done|]. split; [by rewrite ex_words_count|].
    split; [done|]. intros b Hb%list_elem_of_singleton. subst b. by left.
Qed.
Lemma object1_live : live buckets1 ex_object 2048.
Proof.
  exists 7%nat, 2048, [bucket1]. split; [done|]. split; [done|]. split; [done|]. exists bucket1. split; [left|].
  split; [left|]. intros Hx%list_elem_of_singleton. vm_compute in Hx. discriminate.
Qed.

(** The other object of the bucket is handed out for 1500 bytes. *)
Lemma malloc_correct_witness :
  (∃ msg h', malloc 1500 heap1 = Panic msg h' ∧ exhausted h') ∨
  ∃ p sz h' C' sp', malloc 1500 heap1 = Ok p h' ∧ heap_ok h' C' sp' ∧
    (sz ∈ sizes ∧ 1500 ≤ sz ∧ ∀ z, z ∈ sizes → 1500 ≤ z → sz ≤ z) ∧
    (∀ y z, live C' y z ↔ live buckets1 y z ∨ y = p ∧ z = sz) ∧
    (∀ y z, live buckets1 y z → y + z ≤ p ∨ p + sz ≤ y) ∧
    (∀ y z a, live buckets1 y z → y ≤ a < y + z → word (h_mm h') a = word ex_words a).
Proof. exact (malloc_correct heap1 buckets1 [] 1500 heap1_ok). Defined.

(** The object in use is freed, its page with it. *)
Lemma free_s_correct_witness :
  ∃ h' C' sp', free_s ex_object 0 heap1 = Ok tt h' ∧ heap_ok h' C' sp' ∧
    (∀ y z, live C' y z ↔ live buckets1 y z ∧ y ≠ ex_object) ∧
    (∀ y z a, live buckets1 y z → y ≠ ex_object → y ≤ a < y + z → word (h_mm h') a = word ex_words a) ∧
    (count (h_mm h') (MAP_NR ex_object) = 0 ↔
      ¬ ∃ y z, live buckets1 y z ∧ y ≠ ex_object ∧ MAP_NR y = MAP_NR ex_object).
Proof. apply (proj1 (free_s_correct heap1 buckets1 [] ex_object 0 heap1_ok) 2048 object1_live). discriminate. Defined.

(** ** Concrete strings for the theorems on string.h *)

Definition chars (s : string) : list Z := chr <$> String.list_ascii_of_string s.
(** "usr//bin/" at 0x1000, "in" at 0x2000, "/" at 0x2010. *)
Definition ex_ram : gmap Z Z :=
  blit (blit (blit ∅ 0x1000 (chars "usr//bin/" ++ [0])) 0x2000 (chars "in" ++ [0])) 0x2010 (chars "/" ++ [0]).
Definition ex_cpu : cpu := mk_cpu 7 7 7 7 7 7 false false false true ex_ram 0.

Ltac cstr_compute := repeat split; first [vm_compute; reflexivity | vm_compute; discriminate].
Lemma ex_path : cstr ex_ram 0x1000 (chars "usr//bin/").
Proof. cstr_compute. Qed.
Lemma ex_in : cstr ex_ram 0x2000 (chars "in").
Proof. cstr_compute. Qed.
Lemma ex_slash : cstr ex_ram 0x2010 (chars "/").
Proof. cstr_compute. Qed.
Lemma small_fits a n : 0 ≤ a ≤ 1000000 → (n < 1000)%nat → fits a n.
Proof. unfold fits. lia. Qed.

Definition result {A} (o : outcome cpu A) : option A := match o with Ok a _ => Some a | _ => None end.
Example ex_strlen : result (strlen 100 0x1000 ex_cpu) = Some 9.
Proof. vm_compute. reflexivity. Qed.
Example ex_strchr : result (strchr 100 0x1000 (chr "/"%char) ex_cpu) = Some 0x1003.
Proof. vm_compute. reflexivity. Qed.
Example ex_strrchr : result (strrchr 100 0x1000 (chr "/"%char) ex_cpu) = Some 0x1008.
Proof. vm_compute. reflexivity. Qed.
Example ex_strncmp : result (strncmp 100 0x1006 0x2000 2 ex_cpu) = Some 0.
Proof. vm_compute. reflexivity. Qed.
Example ex_memcmp : result (memcmp 100 0x1005 0x2000 2 ex_cpu) = Some (-1).
Proof. vm_compute. reflexivity. Qed.
Example ex_memchr : result (memchr 100 0x1000 (chr "b"%char) 9 ex_cpu) = Some 0x1005.
Proof. vm_compute. reflexivity. Qed.
(** strncpy() pads with zeros and strncat() always ends the string. *)
Example ex_strncpy :
  match strncpy 100 0x3000 0x2000 4 ex_cpu with Ok _ c => bytes (ram c) 0x3000 4 | _ => [] end = chars "in" ++ [0; 0].
Proof. vm_compute. reflexivity. Qed.
Example ex_strncat :
  match strncat 100 0x2000 0x1000 3 ex_cpu with Ok _ c => bytes (ram c) 0x2000 6 | _ => [] end = chars "inusr" ++ [0].
Proof. vm_compute. reflexivity. Qed.
(** memcmp() of nothing tests the flags of the code before it. *)
Example ex_memcmp_0 :
  result (memcmp 100 0x1000 0x2000 0 ex_cpu) = Some (-1) ∧
  result (memcmp 100 0x1000 0x2000 0 (ex_cpu <| zf := true |>)) = Some 0.
Proof. split; vm_compute; reflexivity. Qed.
(** With an empty set of delimiters there is no token. *)
Example ex_strtok_empty : result (strtok 100 0x1000 0x3000 ex_cpu) = Some 0.
Proof. vm_compute. reflexivity. Qed.

(** Two bytes up, over themselves. *)
Lemma memmove_correct_witness :
  ∃ c', memmove 100 0x1002 0x1000 (Z.of_nat 5) ex_cpu = Ok 0x1002 c' ∧
    ram c' = blit ex_ram 0x1002 (bytes ex_ram 0x1000 5) ∧ df c' = negb (0x1002 <? 0x1000).
Proof.
  apply (memmove_correct 100 ex_cpu 0x1002 0x1000 5); [lia|apply small_fits; lia|apply small_fits; lia].
Defined.
Lemma strstr_correct_witness :
  ∃ p c', strstr 100 0x1000 0x2000 ex_cpu = Ok p c' ∧ ram c' = ex_ram ∧
    ((∃ k : nat, p = 0x1000 + Z.of_nat k ∧ chars "in" `prefix_of` drop k (chars "usr//bin/") ∧
        ∀ j, (j < k)%nat → ¬ chars "in" `prefix_of` drop j (chars "usr//bin/")) ∨
     (p = 0 ∧ ∀ j, ¬ chars "in" `prefix_of` drop j (chars "usr//bin/"))).
Proof.
  apply (strstr_correct 100 ex_cpu 0x1000 0x2000 (chars "usr//bin/") (chars "in"));
    [simpl; lia|simpl; lia|exact ex_path|exact ex_in|apply small_fits; simpl; lia|apply small_fits; simpl; lia].
Defined.
Lemma strtok_correct_witness :
  ∃ ps c', all_tokens 10 100 0x1000 0x2010 ex_cpu = Ok ps c' ∧
    Forall2 (cstr (ram c')) ps (tokens (chars "/") (chars "usr//bin/")) ∧
    ∀ a, ¬ (0x1000 ≤ a < 0x1000 + Z.of_nat (length (chars "usr//bin/"))) → byte (ram c') a = byte ex_ram a.
Proof.
  apply (strtok_correct 100 0x1000 0x2010 (chars "usr//bin/") (chars "/") ex_cpu);
    [simpl; lia|simpl; lia|done|exact ex_path|exact ex_slash|lia|apply small_fits; simpl; lia|apply small_fits; simpl; lia|].
  right. simpl. lia.
Defined.
(** "usr" and "bin". *)
Example ex_tokens :
  tokens (chars "/") (chars "usr//bin/") = [chars "usr"; chars "bin"] ∧
  result (all_tokens 10 100 0x1000 0x2010 ex_cpu) = Some [0x1000; 0x1005].
Proof. split; vm_compute; reflexivity. Qed.

(** ** Witnesses: printed numbers and formats *)

Definition text (s : string) : list Z := chr <$> String.list_ascii_of_string s.
Definition printed (fmt : string) (args : list Z) : option (Z * list Z) :=
  match vsprintf (text fmt) (mk_vs [] args ∅) with Ok n s => Some (n, v_out s) | _ => None end.

Example ex_printed :
  (printed "pid %5d, %-6x|%08lX %+i %#o %u%%" [7; 255; 48879; 3; 8; -1])
  = Some (45, text "pid     7, ff    |0000BEEF +3 010 4294967295%").
Proof. vm_compute. reflexivity. Qed.
(** A star does not work: it is read twice, first as the width and then as the
    conversion. *)
Example ex_star : printed "%*d" [5; 42] = Some (3, text "%*d").
Proof. vm_compute. reflexivity. Qed.

(** -255 with a width of 8, a precision of 4, a sign and a 0x. *)
Lemma number_correct_witness :
  number (-255) 16 8 4 (SIGN + SPECIAL + SMALL) = Some (text " -0x00ff") ∧
  ∃ ds : list Z, let sign := sign_of (-255) (SIGN + SPECIAL + SMALL) in
    let prefix := prefix_of 16 (SIGN + SPECIAL + SMALL) in
    let len := Z.of_nat (Datatypes.length ds) in
    let total := Z.of_nat (Datatypes.length sign) + Z.of_nat (Datatypes.length prefix) + Z.max 4 len in
    number (-255) 16 8 4 (SIGN + SPECIAL + SMALL) =
      Some (spaces (left_spaces 8 total (SIGN + SPECIAL + SMALL)) ++ sign ++ prefix ++
            zeros (Z.max 0 (pad_zeros 8 total (SIGN + SPECIAL + SMALL)) + (Z.max 4 len - len)) ++ ds ++
            spaces (right_spaces 8 total (SIGN + SPECIAL + SMALL))) ∧
    canonical 16 255 ds ∧ Forall (λ c, ∃ k, 0 ≤ k < 16 ∧ c = digit true k) ds.
Proof.
  split; [vm_compute; reflexivity|].
  apply (number_correct (-255) 16 8 4 (SIGN + SPECIAL + SMALL)); lia.
Defined.

Lemma skip_atoi_number_witness :
  ∃ l, number 1991 10 (-1) (-1) SIGN = Some l ∧
    ∀ rest, is_digit (deref_str rest) = false → skip_atoi (l ++ rest) = (1991, rest).
Proof. apply (skip_atoi_number 1991). lia. Defined.

(** "n=%-08.3lx%%%+5d" *)
Definition ex_format : list item :=
  [Text (chr "n"); Text (chr "="); Conv [chr "-"; chr "0"] (Some 8) (Some 3) (Some (chr "l")) (chr "x");
   Conv [] None None None (chr "%"); Conv [chr "+"] (Some 5) None None (chr "d")].
Lemma ex_format_ok : Forall item_ok ex_format.
Proof.
  assert (Hin : ∀ (c : Z) (l : list Z), bool_decide (c ∈ l) = true → c ∈ l) by (intros c l; apply bool_decide_eq_true_1).
  unfold ex_format. repeat (apply Forall_cons; split); try done; simpl; split_and!; try done;
    try (intros n [= <-]); try lia; try (by apply Hin).
  all: repeat (apply Forall_cons; split); try (by apply Hin); apply Forall_nil; done.
Qed.
Lemma vsprintf_render_witness :
  ∃ out args' m', vsprintf (text "n=%-08.3lx%%%+5d") (mk_vs [] [10; -3] ∅) =
      Ok (Z.of_nat (Datatypes.length out)) (mk_vs out args' m') ∧
    prints_all ex_format (mk_vs [] [10; -3] ∅) (mk_vs out args' m').
Proof. apply (vsprintf_render ex_format [10; -3] ∅ [] ex_format_ok). simpl. lia. Defined.
Example ex_formatted :
  match vsprintf (text "n=%-08.3lx%%%+5d") (mk_vs [] [10; -3] ∅) with Ok _ s => v_out s | _ => [] end
  = text "n=00a     %   -3".
Proof. vm_compute. reflexivity. Qed.
