(* ===== verification/Screen.v ===== *)
(** * kernel/chr_drv/console.c: the screen

    The variables of console.c and video memory, and every routine that works
    on them alone: scrolling, the erase, insert and delete sequences, and the
    automaton that interprets the characters of con_write().  con_write()
    itself, which takes them from a terminal's queue, is in Console.v.

    Video memory is the map [vram] from the (even) address of each 16-bit cell
    to its character and attribute; [ports] are the bytes sent to the i/o
    ports, (value, port), the latest last. *)

From stdpp Require Import base option list gmap.
From Stdlib Require Import ZArith Ascii.
From S2P Require Import Prelude Memory.
Local Open Scope Z_scope.

Definition VIDEO_TYPE_MDA : Z := 0x10.    (* Monochrome Text Display *)
Definition VIDEO_TYPE_CGA : Z := 0x11.    (* CGA Display *)
Definition VIDEO_TYPE_EGAM : Z := 0x20.   (* EGA/VGA in Monochrome Mode *)
Definition VIDEO_TYPE_EGAC : Z := 0x21.   (* EGA/VGA in Color Mode *)
Definition NPAR : nat := 16.

Record console := mk_console {
  video_type : Z;               (* unsigned char *)
  video_num_columns : Z;
  video_size_row : Z;
  video_num_lines : Z;
  video_page : Z;               (* unsigned char *)
  video_mem_start : Z;
  video_mem_end : Z;
  video_port_reg : Z;           (* unsigned short *)
  video_port_val : Z;           (* unsigned short *)
  video_erase_char : Z;         (* unsigned short *)
  origin : Z;
  scr_end : Z;
  c_pos : Z;                    (* pos *)
  c_x : Z;                      (* x *)
  c_y : Z;                      (* y *)
  c_top : Z;                    (* top *)
  c_bottom : Z;                 (* bottom *)
  c_state : Z;                  (* state *)
  npar : Z;
  par : list Z;                 (* par[NPAR] *)
  ques : bool;
  attr : Z;                     (* unsigned char *)
  saved_x : Z;                  (* int *)
  saved_y : Z;                  (* int *)
  vram : gmap Z Z;
  ports : list (Z * Z)
}.
#[export] Instance eta_console : Eta console := fun s =>
  mk_console (video_type s) (video_num_columns s) (video_size_row s) (video_num_lines s) (video_page s)
    (video_mem_start s) (video_mem_end s) (video_port_reg s) (video_port_val s) (video_erase_char s)
    (origin s) (scr_end s) (c_pos s) (c_x s) (c_y s) (c_top s) (c_bottom s) (c_state s) (npar s) (par s)
    (ques s) (attr s) (saved_x s) (saved_y s) (vram s) (ports s).

(** The variables as the program image initialises them. *)
Definition boot_console : console :=
  mk_console 0 0 0 0 0 0 0 0 0 0 0 0 0 0 0 0 0 0 0 (replicate NPAR 0) false 0x07 0 0 ∅ [].

Definition cell_at (m : gmap Z Z) (a : Z) : Z := default 0 (m !! a).
Definition outb_p (v port : Z) (c : console) : console := c <| ports ::= λ l, l ++ [(v, port)] |>.

(** ** The string instructions *)

(** [rep stosw] with the direction flag clear ([step] 2) or set (-2). *)
Fixpoint stosw (step : Z) (ecx : nat) (v edi : Z) (m : gmap Z Z) : gmap Z Z :=
  match ecx with
  | O => m
  | S ecx => stosw step ecx v (u32 (edi + step)) (<[edi := v]> m)
  end.
(** [rep movsl], a long being two cells ([step] 4 or -4), and the final edi *)
Fixpoint movsl (step : Z) (ecx : nat) (esi edi : Z) (m : gmap Z Z) : gmap Z Z * Z :=
  match ecx with
  | O => (m, edi)
  | S ecx =>
      movsl step ecx (u32 (esi + step)) (u32 (edi + step))
        (<[edi + 2 := cell_at m (esi + 2)]> (<[edi := cell_at m esi]> m))
  end.

(** ** The cursor *)

Definition gotoxy (new_x new_y : Z) (c : console) : console :=
  if (video_num_columns c <? new_x) || (video_num_lines c <=? new_y) then c else
  c <| c_x := new_x |> <| c_y := new_y |>
    <| c_pos := u32 (origin c + new_y * video_size_row c + Z.shiftl new_x 1) |>.

(** The two bytes of an offset into video memory, sent to registers [r], [r]+1. *)
Definition set_origin (c : console) : console :=
  let d := u32 (origin c - video_mem_start c) in
  outb_p (Z.land 0xff (Z.shiftr d 1)) (video_port_val c)
    (outb_p 13 (video_port_reg c)
      (outb_p (Z.land 0xff (Z.shiftr d 9)) (video_port_val c)
        (outb_p 12 (video_port_reg c) c))).
Definition set_cursor (c : console) : console :=
  let d := u32 (c_pos c - video_mem_start c) in
  outb_p (Z.land 0xff (Z.shiftr d 1)) (video_port_val c)
    (outb_p 15 (video_port_reg c)
      (outb_p (Z.land 0xff (Z.shiftr d 9)) (video_port_val c)
        (outb_p 14 (video_port_reg c) c))).

(** ** Scrolling *)

Definition is_ega (c : console) : bool :=
  (video_type c =? VIDEO_TYPE_EGAC) || (video_type c =? VIDEO_TYPE_EGAM).

(** The lines [top]+1 to [bottom]-1 are copied up by one; [bottom]-1 is cleared. *)
Definition copy_up (c : console) : console :=
  let n := Z.to_nat (Z.shiftr (u32 ((c_bottom c - c_top c - 1) * video_num_columns c)) 1) in
  let '(m, edi) := movsl 4 n (u32 (origin c + video_size_row c * (c_top c + 1)))
                     (u32 (origin c + video_size_row c * c_top c)) (vram c) in
  c <| vram := stosw 2 (Z.to_nat (video_num_columns c)) (video_erase_char c) edi m |>.

(** The window moves down by a line in video memory; at its end the screen is
    copied back to the start. *)
Definition shift_window (c : console) : console :=
  let row := video_size_row c in
  c <| origin ::= λ a, u32 (a + row) |> <| c_pos ::= λ a, u32 (a + row) |> <| scr_end ::= λ a, u32 (a + row) |>.
Definition copy_back (c : console) : console :=
  let n := Z.to_nat (Z.shiftr (u32 ((video_num_lines c - 1) * video_num_columns c)) 1) in
  let '(m, edi) := movsl 4 n (origin c) (video_mem_start c) (vram c) in
  let d := origin c - video_mem_start c in
  c <| vram := stosw 2 (Z.to_nat (video_num_columns c)) (video_erase_char c) edi m |>
    <| scr_end ::= λ a, u32 (a - d) |> <| c_pos ::= λ a, u32 (a - d) |> <| origin := video_mem_start c |>.
Definition clear_last_line (c : console) : console :=
  c <| vram ::= stosw 2 (Z.to_nat (video_num_columns c)) (video_erase_char c)
                  (u32 (scr_end c - video_size_row c)) |>.
Definition move_window (c : console) : console :=
  let c := shift_window c in
  set_origin (if video_mem_end c <? scr_end c then copy_back c else clear_last_line c).

Definition scrup (c : console) : console :=
  if is_ega c then
    if (c_top c =? 0) && (c_bottom c =? video_num_lines c) then move_window c else copy_up c
  else copy_up c.

(** Both branches are the same code. *)
Definition scrdown (c : console) : console :=
  let n := Z.to_nat (Z.shiftr (u32 ((c_bottom c - c_top c - 1) * video_num_columns c)) 1) in
  let '(m, edi) := movsl (-4) n (u32 (origin c + video_size_row c * (c_bottom c - 1) - 4))
                     (u32 (origin c + video_size_row c * c_bottom c - 4)) (vram c) in
  c <| vram := stosw (-2) (Z.to_nat (video_num_columns c)) (video_erase_char c) (u32 (edi + 2)) m |>.

Definition lf (c : console) : console :=
  if u32 (c_y c + 1) <? c_bottom c then
    c <| c_y ::= λ y, u32 (y + 1) |> <| c_pos ::= λ p, u32 (p + video_size_row c) |>
  else scrup c.
Definition ri (c : console) : console :=
  if c_top c <? c_y c then
    c <| c_y ::= λ y, u32 (y - 1) |> <| c_pos ::= λ p, u32 (p - video_size_row c) |>
  else scrdown c.
Definition cr (c : console) : console :=
  c <| c_pos := u32 (c_pos c - Z.shiftl (c_x c) 1) |> <| c_x := 0 |>.
Definition del (c : console) : console :=
  if truth (c_x c) then
    let c := c <| c_pos ::= λ p, u32 (p - 2) |> <| c_x ::= λ x, u32 (x - 1) |> in
    c <| vram ::= <[c_pos c := video_erase_char c]> |>
  else c.

(** ** Erasing *)

Definition erase (count start : Z) (c : console) : console :=
  c <| vram ::= stosw 2 (Z.to_nat (u32 count)) (video_erase_char c) start |>.
Definition csi_J (p : Z) (c : console) : console :=
  if p =? 0 then erase (Z.shiftr (u32 (scr_end c - c_pos c)) 1) (c_pos c) c
  else if p =? 1 then erase (Z.shiftr (u32 (c_pos c - origin c)) 1) (origin c) c
  else if p =? 2 then erase (video_num_columns c * video_num_lines c) (origin c) c
  else c.
Definition csi_K (p : Z) (c : console) : console :=
  let cols := video_num_columns c in
  let line := u32 (c_pos c - Z.shiftl (c_x c) 1) in
  if p =? 0 then
    if cols <=? c_x c then c else erase (cols - c_x c) (c_pos c) c
  else if p =? 1 then erase (if c_x c <? cols then c_x c else cols) line c
  else if p =? 2 then erase cols line c
  else c.

Definition set_attr (p : Z) (c : console) : console :=
  if p =? 0 then c <| attr := 0x07 |>
  else if p =? 1 then c <| attr := 0x0f |>
  else if p =? 4 then c <| attr := 0x0f |>
  else if p =? 7 then c <| attr := 0x70 |>
  else if p =? 27 then c <| attr := 0x07 |>
  else c.
Definition par_at (c : console) (k : nat) : Z := default 0 (par c !! k).
Definition csi_m (c : console) : console :=
  foldl (λ c i, set_attr (par_at c i) c) c (seq 0 (Z.to_nat (npar c) + 1)).

(** ** Inserting and deleting *)

(** [while (i++<video_num_columns) {tmp= *p; *p=old; old=tmp; p++;}] *)
Fixpoint insert_loop (n : nat) (old p : Z) (m : gmap Z Z) : gmap Z Z :=
  match n with
  | O => m
  | S n => insert_loop n (cell_at m p) (u32 (p + 2)) (<[p := old]> m)
  end.
Definition insert_char (c : console) : console :=
  c <| vram ::= insert_loop (Z.to_nat (video_num_columns c - c_x c)) (video_erase_char c) (c_pos c) |>.
(** [while (++i < video_num_columns) { *p = *(p+1); p++;}], and the final p *)
Fixpoint delete_loop (n : nat) (p : Z) (m : gmap Z Z) : gmap Z Z * Z :=
  match n with
  | O => (m, p)
  | S n => delete_loop n (u32 (p + 2)) (<[p := cell_at m (u32 (p + 2))]> m)
  end.
Definition delete_char (c : console) : console :=
  if video_num_columns c <=? c_x c then c else
  let '(m, p) := delete_loop (Z.to_nat (video_num_columns c - c_x c - 1)) (c_pos c) (vram c) in
  c <| vram := <[p := video_erase_char c]> m |>.

(** insert_line() and delete_line() scroll the lines from the cursor on. *)
Definition with_region (f : console → console) (c : console) : console :=
  f (c <| c_top := c_y c |> <| c_bottom := video_num_lines c |>) <| c_top := c_top c |> <| c_bottom := c_bottom c |>.
Definition insert_line (c : console) : console := with_region scrdown c.
Definition delete_line (c : console) : console := with_region scrup c.

(** How often: [nr] times, at least once and at most [limit] times. *)
Definition clip (nr limit : Z) : nat :=
  Z.to_nat (if limit <? nr then limit else if negb (truth nr) then 1 else nr).
Definition csi_at (nr : Z) (c : console) : console := Nat.iter (clip nr (video_num_columns c)) insert_char c.
Definition csi_L (nr : Z) (c : console) : console := Nat.iter (clip nr (video_num_lines c)) insert_line c.
Definition csi_P (nr : Z) (c : console) : console := Nat.iter (clip nr (video_num_columns c)) delete_char c.
Definition csi_M (nr : Z) (c : console) : console := Nat.iter (clip nr (video_num_lines c)) delete_line c.

Definition save_cur (c : console) : console := c <| saved_x := s32 (c_x c) |> <| saved_y := s32 (c_y c) |>.
Definition restore_cur (c : console) : console := gotoxy (u32 (saved_x c)) (u32 (saved_y c)) c.

(** ** The automaton of con_write() *)

(** What a character asks for outside the screen. *)
Inductive request := Silent | Beep | Respond.

(** The cursor has passed the end of a line by [video_num_columns]. *)
Definition wrap (c : console) : console :=
  lf (c <| c_x ::= λ x, u32 (x - video_num_columns c) |> <| c_pos ::= λ p, u32 (p - video_size_row c) |>).

(** case 0: plain characters; [erase] is ERASE_CHAR(tty). *)
Definition put_char (ch : Z) (c : console) : console :=
  let c := if video_num_columns c <=? c_x c then wrap c else c in
  c <| vram ::= <[c_pos c := attr c * 256 + ch]> |>
    <| c_pos ::= λ p, u32 (p + 2) |> <| c_x ::= λ x, u32 (x + 1) |>.
Definition tab (c : console) : console :=
  let n := 8 - Z.land (c_x c) 7 in
  let c := c <| c_x ::= λ x, u32 (x + n) |> <| c_pos ::= λ p, u32 (p + Z.shiftl n 1) |> in
  if video_num_columns c <? c_x c then wrap c else c.
Definition plain_char (erase ch : Z) (c : console) : console * request :=
  if (31 <? ch) && (ch <? 127) then (put_char ch c, Silent)
  else if ch =? 27 then (c <| c_state := 1 |>, Silent)
  else if (ch =? 10) || (ch =? 11) || (ch =? 12) then (lf c, Silent)
  else if ch =? 13 then (cr c, Silent)
  else if ch =? erase then (del c, Silent)
  else if ch =? 8 then
    (if truth (c_x c) then c <| c_x ::= λ x, u32 (x - 1) |> <| c_pos ::= λ p, u32 (p - 2) |> else c, Silent)
  else if ch =? 9 then (tab c, Silent)
  else if ch =? 7 then (c, Beep)
  else (c, Silent).

(** case 1: the character after ESC.  The last two tests look at the column. *)
Definition escape_char (ch : Z) (c : console) : console * request :=
  let c := c <| c_state := 0 |> in
  if ch =? chr "[" then (c <| c_state := 2 |>, Silent)
  else if ch =? chr "E" then (gotoxy 0 (u32 (c_y c + 1)) c, Silent)
  else if ch =? chr "M" then (ri c, Silent)
  else if ch =? chr "D" then (lf c, Silent)
  else if ch =? chr "Z" then (c, Respond)
  else if c_x c =? chr "7" then (save_cur c, Silent)
  else if c_x c =? chr "8" then (restore_cur c, Silent)
  else (c, Silent).

(** [if (par[k]) par[k]--;] and [if (!par[k]) par[k]++;] *)
Definition set_par (k : nat) (v : Z) (c : console) : console := c <| par ::= <[k := v]> |>.
Definition dec_par (k : nat) (c : console) : console :=
  if truth (par_at c k) then set_par k (u32 (par_at c k - 1)) c else c.
Definition inc_par (k : nat) (c : console) : console :=
  if negb (truth (par_at c k)) then set_par k (u32 (par_at c k + 1)) c else c.

(** The scrolling region. *)
Definition csi_r (c : console) : console :=
  let c := dec_par 0 c in
  let c := if negb (truth (par_at c 1)) then set_par 1 (video_num_lines c) c else c in
  if (par_at c 0 <? par_at c 1) && (par_at c 1 <=? video_num_lines c) then
    c <| c_top := par_at c 0 |> <| c_bottom := par_at c 1 |>
  else c.

(** case 4: the final character of a control sequence. *)
Definition csi_char (ch : Z) (c : console) : console :=
  let c := c <| c_state := 0 |> in
  let isc (a : ascii) := ch =? chr a in
  if isc "G"%char || isc "`"%char then let c := dec_par 0 c in gotoxy (par_at c 0) (c_y c) c
  else if isc "A"%char then let c := inc_par 0 c in gotoxy (c_x c) (u32 (c_y c - par_at c 0)) c
  else if isc "B"%char || isc "e"%char then let c := inc_par 0 c in gotoxy (c_x c) (u32 (c_y c + par_at c 0)) c
  else if isc "C"%char || isc "a"%char then let c := inc_par 0 c in gotoxy (u32 (c_x c + par_at c 0)) (c_y c) c
  else if isc "D"%char then let c := inc_par 0 c in gotoxy (u32 (c_x c - par_at c 0)) (c_y c) c
  else if isc "E"%char then let c := inc_par 0 c in gotoxy 0 (u32 (c_y c + par_at c 0)) c
  else if isc "F"%char then let c := inc_par 0 c in gotoxy 0 (u32 (c_y c - par_at c 0)) c
  else if isc "d"%char then let c := dec_par 0 c in gotoxy (c_x c) (par_at c 0) c
  else if isc "H"%char || isc "f"%char then
    let c := dec_par 1 (dec_par 0 c) in gotoxy (par_at c 1) (par_at c 0) c
  else if isc "J"%char then csi_J (s32 (par_at c 0)) c
  else if isc "K"%char then csi_K (s32 (par_at c 0)) c
  else if isc "L"%char then csi_L (par_at c 0) c
  else if isc "M"%char then csi_M (par_at c 0) c
  else if isc "P"%char then csi_P (par_at c 0) c
  else if isc "@"%char then csi_at (par_at c 0) c
  else if isc "m"%char then csi_m c
  else if isc "r"%char then csi_r c
  else if isc "s"%char then save_cur c
  else if isc "u"%char then restore_cur c
  else c.

(** case 3: the parameters. *)
Definition param_char (ch : Z) (c : console) : console :=
  if (ch =? chr ";") && (npar c <? Z.of_nat NPAR - 1) then c <| npar ::= λ n, u32 (n + 1) |>
  else if (chr "0" <=? ch) && (ch <=? chr "9") then
    let k := Z.to_nat (npar c) in set_par k (u32 (10 * par_at c k + ch - chr "0")) c
  else csi_char ch (c <| c_state := 4 |>).
(** case 2: the first character after ESC [ *)
Definition first_char (ch : Z) (c : console) : console :=
  let c := c <| par := replicate NPAR 0 |> <| npar := 0 |> <| c_state := 3 |> <| ques := ch =? chr "?" |> in
  if ques c then c else param_char ch c.

(** One character of con_write(). *)
Definition con_char (erase ch : Z) (c : console) : console * request :=
  if c_state c =? 0 then plain_char erase ch c
  else if c_state c =? 1 then escape_char ch c
  else if c_state c =? 2 then (first_char ch c, Silent)
  else if c_state c =? 3 then (param_char ch c, Silent)
  else if c_state c =? 4 then (csi_char ch c, Silent)
  else (c, Silent).

(** ** con_init(): the variables, from what setup.s left at 0x90000 *)

Definition setup_byte (s : mm) (a : Z) : Z := u8 (Z.shiftr (word s (a - a mod 4)) (8 * (a mod 4))).
Definition setup_short (s : mm) (a : Z) : Z := setup_byte s a + 256 * setup_byte s (a + 1).
Definition ORIG_X (s : mm) : Z := setup_byte s 0x90000.
Definition ORIG_Y (s : mm) : Z := setup_byte s 0x90001.
Definition ORIG_VIDEO_PAGE (s : mm) : Z := setup_short s 0x90004.
Definition ORIG_VIDEO_MODE (s : mm) : Z := Z.land (setup_short s 0x90006) 0xff.
Definition ORIG_VIDEO_COLS (s : mm) : Z := Z.shiftr (Z.land (setup_short s 0x90006) 0xff00) 8.
Definition ORIG_VIDEO_LINES : Z := 25.
Definition ORIG_VIDEO_EGA_BX (s : mm) : Z := setup_short s 0x9000a.

(** The display's name, written over the characters of the cells from [p] on. *)
Fixpoint show_desc (l : list Z) (p : Z) (m : gmap Z Z) : gmap Z Z :=
  match l with
  | [] => m
  | ch :: l => show_desc l (u32 (p + 2)) (<[p := Z.land (cell_at m p) 0xff00 + ch]> m)
  end.

(** The card: its type, the end of its memory and its name. *)
Definition display (s : mm) : Z * Z * list Z :=
  let ega := negb (Z.land (ORIG_VIDEO_EGA_BX s) 0xff =? 0x10) in
  if ORIG_VIDEO_MODE s =? 7 then
    if ega then (VIDEO_TYPE_EGAM, 0xb8000, chr <$> ["E"; "G"; "A"; "m"]%char)
    else (VIDEO_TYPE_MDA, 0xb2000, chr <$> ["*"; "M"; "D"; "A"]%char)
  else
    if ega then (VIDEO_TYPE_EGAC, 0xbc000, chr <$> ["E"; "G"; "A"; "c"]%char)
    else (VIDEO_TYPE_CGA, 0xba000, chr <$> ["*"; "C"; "G"; "A"]%char).

(** From [display_ptr = ...] to gotoxy(ORIG_X,ORIG_Y), for a card whose memory
    is from [start] to [mem_end]. *)
Definition init_vars (s : mm) (type start mem_end reg val : Z) (desc : list Z) (c : console) : console :=
  let cols := ORIG_VIDEO_COLS s in
  let c := c <| video_num_columns := cols |> <| video_size_row := cols * 2 |>
             <| video_num_lines := ORIG_VIDEO_LINES |> <| video_page := u8 (ORIG_VIDEO_PAGE s) |>
             <| video_erase_char := 0x0720 |> <| video_mem_start := start |> <| video_mem_end := mem_end |>
             <| video_port_reg := reg |> <| video_port_val := val |> <| video_type := type |> in
  let c := c <| vram ::= show_desc desc (u32 (start + video_size_row c - 8)) |> in
  let c := c <| origin := start |> <| scr_end := start + video_num_lines c * video_size_row c |>
             <| c_top := 0 |> <| c_bottom := video_num_lines c |> in
  gotoxy (ORIG_X s) (ORIG_Y s) c.
Definition init_screen (s : mm) (c : console) : console :=
  let '(type, mem_end, desc) := display s in
  if ORIG_VIDEO_MODE s =? 7 then init_vars s type 0xb0000 mem_end 0x3b4 0x3b5 desc c
  else init_vars s type 0xb8000 mem_end 0x3d4 0x3d5 desc c.
