(* ===== verification/ScreenSpec.v ===== *)
(** * The console as a grid of cells

    What a terminal is to its user: lines and columns of cells, a cursor and a
    scrolling region.  There are no addresses, no window that moves through
    video memory and no kinds of cards; ScreenRefine.v proves that console.c
    implements this. *)

From stdpp Require Import base option list.
From Stdlib Require Import ZArith.
From S2P Require Import Prelude.
Local Open Scope Z_scope.

Record grid := mk_grid {
  g_cols : Z;
  g_lines : Z;
  g_blank : Z;
  g_attr : Z;
  g_top : Z;
  g_bottom : Z;
  g_x : Z;
  g_y : Z;
  g_cell : Z → Z → Z          (* by line and column *)
}.
#[export] Instance eta_grid : Eta grid := fun g =>
  mk_grid (g_cols g) (g_lines g) (g_blank g) (g_attr g) (g_top g) (g_bottom g) (g_x g) (g_y g) (g_cell g).

(** Two grids are the same if they look the same. *)
Definition g_scalars (g : grid) :=
  (g_cols g, g_lines g, g_blank g, g_attr g, g_top g, g_bottom g, g_x g, g_y g).
#[export] Instance grid_equiv : Equiv grid := λ g h,
  g_scalars g = g_scalars h ∧
  ∀ r k, 0 ≤ r < g_lines g → 0 ≤ k < g_cols g → g_cell g r k = g_cell h r k.

(** Lines [t] to [b]-1 move by one. *)
Definition g_up (t b : Z) (g : grid) : grid :=
  g <| g_cell := λ r k,
    if decide (t ≤ r < b) then if decide (r + 1 < b) then g_cell g (r + 1) k else g_blank g else g_cell g r k |>.
Definition g_down (t b : Z) (g : grid) : grid :=
  g <| g_cell := λ r k,
    if decide (t ≤ r < b) then if decide (t ≤ r - 1) then g_cell g (r - 1) k else g_blank g else g_cell g r k |>.

Definition g_goto (x y : Z) (g : grid) : grid :=
  if decide (x ≤ g_cols g ∧ y < g_lines g) then g <| g_x := x |> <| g_y := y |> else g.
Definition g_lf (g : grid) : grid :=
  if decide (g_y g + 1 < g_bottom g) then g <| g_y := g_y g + 1 |> else g_up (g_top g) (g_bottom g) g.
Definition g_ri (g : grid) : grid :=
  if decide (g_top g < g_y g) then g <| g_y := g_y g - 1 |> else g_down (g_top g) (g_bottom g) g.
Definition g_write (r k v : Z) (g : grid) : grid :=
  g <| g_cell := λ r' k', if decide (r' = r ∧ k' = k) then v else g_cell g r' k' |>.
(** Behind the last column the next character goes to the next line. *)
Definition g_wrap (g : grid) : grid := g_lf (g <| g_x := g_x g - g_cols g |>).
Definition g_type (ch : Z) (g : grid) : grid :=
  g_write (g_y g) (g_x g) (g_attr g * 256 + ch) g <| g_x := g_x g + 1 |>.
Definition g_put (ch : Z) (g : grid) : grid := g_type ch (if decide (g_cols g ≤ g_x g) then g_wrap g else g).
Definition g_tab (g : grid) : grid :=
  let g := g <| g_x := g_x g + (8 - g_x g mod 8) |> in if decide (g_cols g < g_x g) then g_wrap g else g.
Definition g_del (g : grid) : grid :=
  if decide (g_x g = 0) then g else g_write (g_y g) (g_x g - 1) (g_blank g) (g <| g_x := g_x g - 1 |>).
(** Clearing the cells that satisfy [P]. *)
Definition g_clear (P : Z → Z → bool) (g : grid) : grid :=
  g <| g_cell := λ r k, if P r k then g_blank g else g_cell g r k |>.
Definition g_erase_display (p : Z) (g : grid) : grid :=
  if decide (p = 0) then g_clear (λ r k, bool_decide (g_y g < r ∨ r = g_y g ∧ g_x g ≤ k)) g
  else if decide (p = 1) then g_clear (λ r k, bool_decide (r < g_y g ∨ r = g_y g ∧ k < g_x g)) g
  else if decide (p = 2) then g_clear (λ _ _, true) g else g.
Definition g_erase_line (p : Z) (g : grid) : grid :=
  if decide (p = 0) then g_clear (λ r k, bool_decide (r = g_y g ∧ g_x g ≤ k)) g
  else if decide (p = 1) then g_clear (λ r k, bool_decide (r = g_y g ∧ k < g_x g)) g
  else if decide (p = 2) then g_clear (λ r _, bool_decide (r = g_y g)) g else g.
Definition g_insert_char (g : grid) : grid :=
  g <| g_cell := λ r k,
    if decide (r = g_y g ∧ g_x g ≤ k) then if decide (k = g_x g) then g_blank g else g_cell g r (k - 1)
    else g_cell g r k |>.
Definition g_delete_char (g : grid) : grid :=
  g <| g_cell := λ r k,
    if decide (r = g_y g ∧ g_x g ≤ k) then if decide (k = g_cols g - 1) then g_blank g else g_cell g r (k + 1)
    else g_cell g r k |>.

(** The operations of a terminal. *)
Inductive op :=
  | Put (ch : Z) | LineFeed | ReverseIndex | Return | Backspace | Rubout | Tab | Goto (x y : Z)
  | EraseDisplay (p : Z) | EraseLine (p : Z) | InsertChar | DeleteChar | InsertLine | DeleteLine.
Definition g_run (o : op) (g : grid) : grid :=
  match o with
  | Put ch => g_put ch g
  | LineFeed => g_lf g
  | ReverseIndex => g_ri g
  | Return => g <| g_x := 0 |>
  | Backspace => if decide (g_x g = 0) then g else g <| g_x := g_x g - 1 |>
  | Rubout => g_del g
  | Tab => g_tab g
  | Goto x y => g_goto x y g
  | EraseDisplay p => g_erase_display p g
  | EraseLine p => g_erase_line p g
  | InsertChar => g_insert_char g
  | DeleteChar => g_delete_char g
  | InsertLine => g_down (g_y g) (g_lines g) g
  | DeleteLine => g_up (g_y g) (g_lines g) g
  end.
