(* ===== verification/ScreenProofs.v ===== *)
(** * The console stays inside its video memory

    The invariant [con_ok] of the screen variables, what the string
    instructions do, and the proof that every routine keeps the invariant and
    writes inside video memory only. *)

From stdpp Require Import base option list gmap.
From Stdlib Require Import ZArith Lia Ascii.
From S2P Require Import Prelude Screen.
Local Open Scope Z_scope.

(** ** String instructions *)

Lemma cell_at_insert m a v b : cell_at (<[a := v]> m) b = if decide (b = a) then v else cell_at m b.
Proof. unfold cell_at. case_decide as H; [subst; by rewrite lookup_insert_eq|by rewrite lookup_insert_ne]. Qed.

(** Addresses [d], [d+step], ..., [n] of them, without wrap-around. *)
Definition no_wrap (step : Z) (n : nat) (d : Z) : Prop := ∀ k, 0 ≤ k < Z.of_nat n → 0 ≤ d + step * k < 4294967296.
Lemma no_wrap_S step n d :
  no_wrap step (S n) d → n ≠ 0%nat → u32 (d + step) = d + step ∧ no_wrap step n (u32 (d + step)).
Proof.
  intros H Hn. pose proof (H 1 ltac:(lia)).
  assert (Hu : u32 (d + step) = d + step) by (apply u32_small; lia).
  split; [done|]. rewrite Hu. intros k Hk. specialize (H (k + 1) ltac:(lia)). lia.
Qed.

Lemma stosw_out step n v d m a :
  no_wrap step n d → (∀ k, 0 ≤ k < Z.of_nat n → a ≠ d + step * k) →
  cell_at (stosw step n v d m) a = cell_at m a.
Proof.
  revert d m. induction n as [|n IH]; intros d m Hd Ha; simpl; [done|].
  pose proof (Ha 0 ltac:(lia)) as H0.
  destruct (decide (n = 0%nat)) as [->|Hn]; [simpl; rewrite cell_at_insert; case_decide; [lia|done]|].
  destruct (no_wrap_S _ _ _ Hd Hn) as [Hu Hd']. rewrite IH; [|done|].
  - rewrite cell_at_insert. case_decide; [lia|done].
  - intros k Hk. specialize (Ha (k + 1) ltac:(lia)). rewrite Hu. lia.
Qed.
Lemma stosw_in step n v d m k :
  step ≠ 0 → no_wrap step n d → 0 ≤ k < Z.of_nat n → cell_at (stosw step n v d m) (d + step * k) = v.
Proof.
  intros Hs. revert d m k. induction n as [|n IH]; intros d m k Hd Hk; simpl; [lia|].
  destruct (decide (n = 0%nat)) as [->|Hn].
  { simpl. rewrite cell_at_insert. case_decide; [done|]. assert (k = 0) as -> by lia. lia. }
  destruct (no_wrap_S _ _ _ Hd Hn) as [Hu Hd']. destruct (decide (k = 0)) as [->|Hk0].
  - rewrite stosw_out; [|done|].
    + rewrite cell_at_insert. case_decide; [done|lia].
    + intros j Hj. rewrite Hu. nia.
  - replace (d + step * k) with (u32 (d + step) + step * (k - 1)) by (rewrite Hu; lia). apply IH; [done|lia].
Qed.

(** Copying upwards ([edi] below [esi]) is a move of [2n] cells. *)
Lemma movsl_up n s d m :
  0 ≤ d → d + 2 ≤ s → s + 4 * Z.of_nat n ≤ 4294967296 - 4 →
  (movsl 4 n s d m).2 = d + 4 * Z.of_nat n ∧
  (∀ j, 0 ≤ j < 2 * Z.of_nat n → cell_at (movsl 4 n s d m).1 (d + 2 * j) = cell_at m (s + 2 * j)) ∧
  (∀ a, (∀ j, 0 ≤ j < 2 * Z.of_nat n → a ≠ d + 2 * j) → cell_at (movsl 4 n s d m).1 a = cell_at m a).
Proof.
  revert s d m. induction n as [|n IH]; intros s d m Hd Hs Hb; simpl.
  { split_and!; [lia|lia|done]. }
  rewrite (u32_small (s + 4)), (u32_small (d + 4)) by lia.
  set (m1 := <[_ := _]> (<[d := _]> m)).
  destruct (IH (s + 4) (d + 4) m1) as (H1 & H2 & H3); [lia..|].
  assert (Hm1 : ∀ a, a ≠ d → a ≠ d + 2 → cell_at m1 a = cell_at m a).
  { intros a Ha Ha'. unfold m1. rewrite !cell_at_insert. by repeat (case_decide; [lia|]). }
  split; [lia|]. split.
  - intros j Hj. destruct (decide (2 ≤ j)) as [Hj2|Hj2].
    + replace (d + 2 * j) with (d + 4 + 2 * (j - 2)) by lia. rewrite H2 by lia. rewrite Hm1 by lia. f_equal; lia.
    + rewrite H3 by lia. unfold m1. rewrite !cell_at_insert.
      destruct (decide (j = 0)) as [->|]; [|assert (j = 1) as -> by lia].
      * rewrite decide_False, decide_True by lia. f_equal; lia.
      * rewrite decide_True by lia. f_equal; lia.
  - intros a Ha. rewrite H3; [apply Hm1; [specialize (Ha 0)|specialize (Ha 1)]; lia|].
    intros j Hj. specialize (Ha (j + 2)). lia.
Qed.
(** Copying downwards ([edi] above [esi]); [s] and [d] are the last longs. *)
Lemma movsl_down n s d m :
  s + 2 ≤ d → 4 * Z.of_nat n ≤ s + 4 → d ≤ 4294967296 - 4 →
  u32 ((movsl (-4) n s d m).2 + 2) = u32 (d + 2 - 4 * Z.of_nat n) ∧
  (∀ j, 0 ≤ j < 2 * Z.of_nat n → cell_at (movsl (-4) n s d m).1 (d + 2 - 2 * j) = cell_at m (s + 2 - 2 * j)) ∧
  (∀ a, (∀ j, 0 ≤ j < 2 * Z.of_nat n → a ≠ d + 2 - 2 * j) → cell_at (movsl (-4) n s d m).1 a = cell_at m a).
Proof.
  revert s d m. induction n as [|n IH]; intros s d m Hs Hb Hd; cbn [movsl].
  { split_and!; [simpl; f_equal; lia|lia|done]. }
  set (m1 := <[_ := _]> (<[d := _]> m)).
  assert (Hm1 : ∀ a, a ≠ d → a ≠ d + 2 → cell_at m1 a = cell_at m a).
  { intros a Ha Ha'. unfold m1. rewrite !cell_at_insert. by repeat (case_decide; [lia|]). }
  assert (Hfst : ∀ j, 0 ≤ j < 2 → cell_at m1 (d + 2 - 2 * j) = cell_at m (s + 2 - 2 * j)).
  { intros j Hj. unfold m1. rewrite !cell_at_insert.
    destruct (decide (j = 0)) as [->|]; [|assert (j = 1) as -> by lia].
    - rewrite decide_True by lia. f_equal; lia.
    - rewrite decide_False, decide_True by lia. f_equal; lia. }
  destruct (decide (n = 0%nat)) as [->|Hn].
  { simpl. split; [apply u32_eq_eqm; rewrite u32_eqm; apply eqm32_eq; lia|].
    split; [intros j Hj; apply Hfst; lia|]. intros a Ha. apply Hm1; [specialize (Ha 1)|specialize (Ha 0)]; lia. }
  rewrite (u32_small (s + -4)), (u32_small (d + -4)) by lia.
  destruct (IH (s + -4) (d + -4) m1) as (H1 & H2 & H3); [lia..|].
  split; [rewrite H1; f_equal; lia|]. split.
  - intros j Hj. destruct (decide (2 ≤ j)) as [Hj2|Hj2].
    + replace (d + 2 - 2 * j) with (d + -4 + 2 - 2 * (j - 2)) by lia. rewrite H2 by lia. rewrite Hm1 by lia. f_equal; lia.
    + rewrite H3 by lia. apply Hfst. lia.
  - intros a Ha. rewrite H3; [apply Hm1; [specialize (Ha 1)|specialize (Ha 0)]; lia|].
    intros j Hj. specialize (Ha (j + 2)). lia.
Qed.

Lemma insert_loop_spec n old p m :
  0 ≤ p → p + 2 * Z.of_nat n < 4294967296 →
  (∀ j, 0 ≤ j < Z.of_nat n →
     cell_at (insert_loop n old p m) (p + 2 * j) = if decide (j = 0) then old else cell_at m (p + 2 * (j - 1))) ∧
  (∀ a, (∀ j, 0 ≤ j < Z.of_nat n → a ≠ p + 2 * j) → cell_at (insert_loop n old p m) a = cell_at m a).
Proof.
  revert old p m. induction n as [|n IH]; intros old p m Hp Hb; simpl; [split; [lia|done]|].
  rewrite u32_small by lia. destruct (IH (cell_at m p) (p + 2) (<[p := old]> m)) as [H1 H2]; [lia..|]. split.
  - intros j Hj. destruct (decide (j = 0)) as [->|].
    + rewrite H2 by lia. rewrite cell_at_insert. by rewrite decide_True by lia.
    + replace (p + 2 * j) with (p + 2 + 2 * (j - 1)) by lia. rewrite H1 by lia.
      destruct (decide (j - 1 = 0)); [f_equal; lia|]. rewrite cell_at_insert, decide_False by lia. f_equal; lia.
  - intros a Ha. rewrite H2; [|intros j Hj; specialize (Ha (j + 1)); lia].
    specialize (Ha 0). rewrite cell_at_insert, decide_False by lia. done.
Qed.
Lemma delete_loop_spec n p m :
  0 ≤ p → p + 2 * Z.of_nat n < 4294967296 →
  (delete_loop n p m).2 = p + 2 * Z.of_nat n ∧
  (∀ j, 0 ≤ j < Z.of_nat n → cell_at (delete_loop n p m).1 (p + 2 * j) = cell_at m (p + 2 * (j + 1))) ∧
  (∀ a, (∀ j, 0 ≤ j < Z.of_nat n → a ≠ p + 2 * j) → cell_at (delete_loop n p m).1 a = cell_at m a).
Proof.
  revert p m. induction n as [|n IH]; intros p m Hp Hb; simpl; [split; [lia|split; [lia|done]]|].
  rewrite u32_small by lia. destruct (IH (p + 2) (<[p := cell_at m (p + 2)]> m)) as (H1 & H2 & H3); [lia..|].
  split; [lia|]. split.
  - intros j Hj. destruct (decide (j = 0)) as [->|].
    + rewrite H3 by lia. rewrite cell_at_insert, decide_True by lia. f_equal; lia.
    + replace (p + 2 * j) with (p + 2 + 2 * (j - 1)) by lia. rewrite H2 by lia.
      rewrite cell_at_insert, decide_False by lia. f_equal; lia.
  - intros a Ha. rewrite H3; [|intros j Hj; specialize (Ha (j + 1)); lia].
    specialize (Ha 0). rewrite cell_at_insert, decide_False by lia. done.
Qed.

(** ** The invariant *)

(** The window of [video_num_lines] lines starts at [origin] and lies in video
    memory; a card that is not an EGA never moves it.  The cursor is on a line
    of the window, in a column or just behind the last one, and [pos] is its
    address; the scrolling region is not empty. *)
Record con_ok (c : console) : Prop := {
  ok_cols : 8 ≤ video_num_columns c ≤ 1000;
  ok_even : ∃ h, video_num_columns c = 2 * h;
  ok_row : video_size_row c = 2 * video_num_columns c;
  ok_lines : 1 ≤ video_num_lines c;
  ok_start : 4096 ≤ video_mem_start c ≤ origin c;
  ok_aligned : ∃ k, origin c = video_mem_start c + 2 * k;
  ok_scr : scr_end c = origin c + 2 * (video_num_lines c * video_num_columns c);
  ok_fit : scr_end c ≤ video_mem_end c ≤ 0x100000;
  ok_x : 0 ≤ c_x c ≤ video_num_columns c;
  ok_y : 0 ≤ c_y c < video_num_lines c;
  ok_region : 0 ≤ c_top c < c_bottom c ∧ c_bottom c ≤ video_num_lines c;
  ok_pos : c_pos c = origin c + 2 * (c_y c * video_num_columns c + c_x c);
  ok_ega : is_ega c = false → origin c = video_mem_start c;
  ok_npar : 0 ≤ npar c < Z.of_nat NPAR;
  ok_par : length (par c) = NPAR ∧ Forall (λ p, 0 ≤ p < 4294967296) (par c)
}.

(** The card stays the same and nothing is written outside video memory. *)
Definition card (c : console) :=
  (video_type c, video_num_columns c, video_num_lines c, video_mem_start c, video_mem_end c, video_erase_char c).
Definition keeps (c c' : console) : Prop :=
  card c' = card c ∧
  ∀ a, a < video_mem_start c ∨ video_mem_end c ≤ a → cell_at (vram c') a = cell_at (vram c) a.
#[export] Instance keeps_preorder : PreOrder keeps.
Proof.
  split; [by intros c; split|]. intros c1 c2 c3 [H1 H1'] [H2 H2']. split; [congruence|].
  intros a Ha. unfold card in *. simplify_eq. rewrite H2', H1' by congruence. done.
Qed.

(** The cell number [i] of the window, counted line by line. *)
Definition lin (c : console) (i : Z) : Z := cell_at (vram c) (origin c + 2 * i).

(** Lines and cells: [cols] cells to a line. *)
Lemma line_le cols a r k : 0 ≤ k < cols → a * cols ≤ r * cols + k ↔ a ≤ r.
Proof. intros Hk. split; intros; [|nia]. destruct (Z_le_gt_dec a r); [done|]. nia. Qed.
Lemma line_lt cols a r k : 0 ≤ k < cols → r * cols + k < a * cols ↔ r < a.
Proof. intros Hk. pose proof (line_le cols a r k Hk). lia. Qed.
Lemma line_inj cols r k r' k' : 0 ≤ k < cols → 0 ≤ k' < cols → r * cols + k = r' * cols + k' → r = r' ∧ k = k'.
Proof.
  intros Hk Hk' H. assert (r = r') as ->; [|lia].
  apply Z.le_antisymm; [apply (line_le cols r r' k')|apply (line_le cols r' r k)]; lia.
Qed.

Section Ok.
Implicit Types c : console.

(** The size of the window, and what it bounds. *)
Definition cells c : Z := video_num_lines c * video_num_columns c.
Lemma ok_cells c : con_ok c → 8 ≤ cells c ∧ origin c + 2 * cells c ≤ video_mem_end c ∧ video_mem_end c ≤ 0x100000.
Proof. intros []. unfold cells. nia. Qed.
Lemma line_bound c r : con_ok c → 0 ≤ r ≤ video_num_lines c → 0 ≤ r * video_num_columns c ≤ cells c.
Proof. intros [] Hr. unfold cells. nia. Qed.
Lemma line_next c r : con_ok c → 0 ≤ r < video_num_lines c →
  r * video_num_columns c + video_num_columns c ≤ cells c ∧ 0 ≤ r * video_num_columns c.
Proof. intros [] Hr. unfold cells. nia. Qed.

(** Filling [n] cells from cell [i] on. *)
Lemma fill_lin c n i v :
  con_ok c → 0 ≤ i → i + Z.of_nat n ≤ cells c → 
  let m := stosw 2 n v (origin c + 2 * i) (vram c) in
  (∀ j, 0 ≤ j < cells c → cell_at m (origin c + 2 * j) = if decide (i ≤ j < i + Z.of_nat n) then v else lin c j) ∧
  (∀ a, a < video_mem_start c ∨ video_mem_end c ≤ a → cell_at m a = cell_at (vram c) a).
Proof.
  intros Hok Hi Hn m. destruct (ok_cells c Hok) as (H1 & H2 & H3). pose proof (ok_start c Hok).
  assert (Hw : no_wrap 2 n (origin c + 2 * i)) by (intros k Hk; lia).
  split.
  - intros j Hj. unfold m, lin. case_decide as Hd.
    + replace (origin c + 2 * j) with (origin c + 2 * i + 2 * (j - i)) by lia. apply stosw_in; [lia|done|lia].
    + apply stosw_out; [done|]. intros k Hk. lia.
  - intros a Ha. unfold m. apply stosw_out; [done|]. intros k Hk. lia.
Qed.
End Ok.

(** ** Scrolling *)

Section Scroll.
Implicit Types c : console.

(** [c'] is like [c], its window's cells are those of [f]. *)
Definition shows c c' (f : Z → Z) : Prop :=
  con_ok c' ∧ keeps c c' ∧ ∀ j, 0 ≤ j < cells c → lin c' j = f j.

Lemma shows_vram c m f :
  con_ok c → (∀ a, a < video_mem_start c ∨ video_mem_end c ≤ a → cell_at m a = cell_at (vram c) a) →
  (∀ j, 0 ≤ j < cells c → cell_at m (origin c + 2 * j) = f j) → shows c (c <| vram := m |>) f.
Proof. intros [] Hm Hf. split; [by constructor|]. split; [by split|done]. Qed.

(** The lines [t] to [b]-1, one up or one down. *)
Definition up_cells c (t b j : Z) : Z :=
  let cols := video_num_columns c in
  if decide (t * cols ≤ j < b * cols) then
    if decide (j + cols < b * cols) then lin c (j + cols) else video_erase_char c
  else lin c j.
Definition down_cells c (t b j : Z) : Z :=
  let cols := video_num_columns c in
  if decide (t * cols ≤ j < b * cols) then
    if decide (t * cols ≤ j - cols) then lin c (j - cols) else video_erase_char c
  else lin c j.

(** The number of longs in [k] lines. *)
Lemma longs_of_lines c k :
  con_ok c → 0 ≤ k < video_num_lines c →
  4 * Z.of_nat (Z.to_nat (Z.shiftr (u32 (k * video_num_columns c)) 1)) = 2 * (k * video_num_columns c).
Proof.
  intros Hok Hk. destruct (ok_cells c Hok) as (? & ? & ?). pose proof (ok_start c Hok).
  pose proof (line_bound c k Hok ltac:(lia)). destruct (ok_even c Hok) as [h Hh].
  rewrite u32_small by lia. rewrite Z.shiftr_div_pow2 by lia. rewrite Hh in *.
  replace (k * (2 * h)) with (k * h * 2) in * by lia. change (2 ^ 1) with 2. rewrite Z.div_mul by lia. lia.
Qed.

Lemma copy_up_cells c : con_ok c → shows c (copy_up c) (up_cells c (c_top c) (c_bottom c)).
Proof.
  intros Hok. destruct (ok_cells c Hok) as (H1 & H2 & H3). pose proof (ok_start c Hok). pose proof (ok_cols c Hok).
  destruct (ok_region c Hok) as [Htb Hbl]. set (t := c_top c) in *. set (b := c_bottom c) in *.
  set (cols := video_num_columns c) in *. pose proof (line_bound c b Hok ltac:(lia)) as Hbb. fold cols in Hbb.
  assert (Htb' : t * cols + cols ≤ b * cols) by nia. assert (0 ≤ t * cols) by nia.
  unfold copy_up. fold t b cols. pose proof (longs_of_lines c (b - t - 1) Hok ltac:(lia)) as Hn. fold cols in Hn.
  set (n := Z.to_nat (Z.shiftr (u32 ((b - t - 1) * cols)) 1)) in *.
  rewrite (ok_row c Hok). fold cols.
  replace (origin c + 2 * cols * (t + 1)) with (origin c + 2 * (t * cols + cols)) by lia.
  replace (origin c + 2 * cols * t) with (origin c + 2 * (t * cols)) by lia. rewrite !u32_small by lia.
  destruct (movsl_up n (origin c + 2 * (t * cols + cols)) (origin c + 2 * (t * cols)) (vram c)) as (Hd & Hin & Hout); [lia..|].
  destruct (movsl 4 n _ _ _) as [m edi]. simpl in Hd, Hin, Hout.
  replace edi with (origin c + 2 * (b * cols - cols)) by lia.
  assert (Hw : no_wrap 2 (Z.to_nat cols) (origin c + 2 * (b * cols - cols))) by (intros k Hk; lia).
  apply shows_vram; [done| |].
  - intros a Ha. rewrite stosw_out by (done || intros k Hk; lia). apply Hout. intros j Hj. lia.
  - intros j Hj. unfold up_cells. fold cols. case_decide as Hd1; [case_decide as Hd2|].
    + rewrite stosw_out by (done || intros k Hk; lia).
      replace (origin c + 2 * j) with (origin c + 2 * (t * cols) + 2 * (j - t * cols)) by lia. rewrite Hin by lia.
      unfold lin. f_equal; lia.
    + replace (origin c + 2 * j) with (origin c + 2 * (b * cols - cols) + 2 * (j - (b * cols - cols))) by lia.
      apply stosw_in; [lia|done|lia].
    + rewrite stosw_out by (done || intros k Hk; lia). apply Hout. intros i Hi. lia.
Qed.

Lemma scrdown_cells c : con_ok c → shows c (scrdown c) (down_cells c (c_top c) (c_bottom c)).
Proof.
  intros Hok. destruct (ok_cells c Hok) as (H1 & H2 & H3). pose proof (ok_start c Hok). pose proof (ok_cols c Hok).
  destruct (ok_region c Hok) as [Htb Hbl]. set (t := c_top c) in *. set (b := c_bottom c) in *.
  set (cols := video_num_columns c) in *. pose proof (line_bound c b Hok ltac:(lia)) as Hbb. fold cols in Hbb.
  assert (Htb' : t * cols + cols ≤ b * cols) by nia. assert (0 ≤ t * cols) by nia.
  unfold scrdown. fold t b cols. pose proof (longs_of_lines c (b - t - 1) Hok ltac:(lia)) as Hn. fold cols in Hn.
  set (n := Z.to_nat (Z.shiftr (u32 ((b - t - 1) * cols)) 1)) in *.
  rewrite (ok_row c Hok). fold cols.
  replace (origin c + 2 * cols * (b - 1) - 4) with (origin c + 2 * (b * cols - cols) - 4) by lia.
  replace (origin c + 2 * cols * b - 4) with (origin c + 2 * (b * cols) - 4) by lia.
  rewrite !u32_small by lia.
  destruct (movsl_down n (origin c + 2 * (b * cols - cols) - 4) (origin c + 2 * (b * cols) - 4) (vram c))
    as (Hd & Hin & Hout); [lia..|].
  destruct (movsl (-4) n _ _ _) as [m edi]. simpl in Hd, Hin, Hout. rewrite Hd, u32_small by lia.
  set (e := origin c + 2 * (b * cols) - 4 + 2 - 4 * Z.of_nat n).
  assert (He : e = origin c + 2 * (t * cols + cols) - 2) by (unfold e; lia).
  assert (Hw : no_wrap (-2) (Z.to_nat cols) e) by (intros k Hk; lia).
  apply shows_vram; [done| |].
  - intros a Ha. rewrite stosw_out by (done || intros k Hk; lia). apply Hout. intros j Hj. lia.
  - intros j Hj. unfold down_cells. fold cols. case_decide as Hd1; [case_decide as Hd2|].
    + rewrite stosw_out by (done || intros k Hk; lia).
      replace (origin c + 2 * j) with (origin c + 2 * (b * cols) - 4 + 2 - 2 * (b * cols - 1 - j)) by lia.
      rewrite Hin by lia. unfold lin. f_equal; lia.
    + replace (origin c + 2 * j) with (e + -2 * (t * cols + cols - 1 - j)) by lia.
      apply stosw_in; [lia|done|lia].
    + rewrite stosw_out by (done || intros k Hk; lia). apply Hout. intros i Hi. lia.
Qed.

Lemma shows_set_origin c c' f : shows c c' f → shows c (set_origin c') f.
Proof. intros ([] & Hk & Hf). split; [by constructor|]. by split. Qed.

(** The window one line further on. *)
Lemma shift_window_eq c :
  con_ok c → shift_window c = c <| origin := origin c + 2 * video_num_columns c |>
    <| c_pos := c_pos c + 2 * video_num_columns c |> <| scr_end := scr_end c + 2 * video_num_columns c |>.
Proof.
  intros Hok. destruct (ok_cells c Hok) as (H1 & H2 & H3). pose proof (ok_start c Hok). pose proof (ok_cols c Hok).
  pose proof (ok_fit c Hok). pose proof (ok_scr c Hok) as Hscr. fold (cells c) in Hscr.
  pose proof (ok_pos c Hok). destruct (line_next c (c_y c) Hok (ok_y c Hok)). pose proof (ok_x c Hok).
  pose proof (ok_row c Hok) as Hrow. unfold shift_window. rewrite Hrow. destruct c. unfold set; simpl in *.
  by rewrite !u32_small by lia.
Qed.

Lemma copy_back_cells c :
  con_ok c → shows c (copy_back (c <| origin := origin c + 2 * video_num_columns c |>
    <| c_pos := c_pos c + 2 * video_num_columns c |> <| scr_end := scr_end c + 2 * video_num_columns c |>))
    (up_cells c 0 (video_num_lines c)).
Proof.
  intros Hok. destruct (ok_cells c Hok) as (H1 & H2 & H3). pose proof (ok_start c Hok). pose proof (ok_cols c Hok).
  pose proof (ok_scr c Hok) as Hscr. fold (cells c) in Hscr. pose proof (ok_fit c Hok).
  set (cols := video_num_columns c) in *. pose proof (ok_lines c Hok).
  pose proof (ok_pos c Hok) as Hpos. fold cols in Hpos.
  destruct (line_next c (c_y c) Hok (ok_y c Hok)) as [Hy Hy0]. fold cols in Hy, Hy0. pose proof (ok_x c Hok) as Hx. fold cols in Hx.
  assert (Hc : cells c = (video_num_lines c - 1) * cols + cols) by (unfold cells; fold cols; lia).
  assert (Hc0 : 0 ≤ (video_num_lines c - 1) * cols) by nia.
  pose proof (longs_of_lines c (video_num_lines c - 1) Hok ltac:(lia)) as Hn. fold cols in Hn.
  unfold copy_back. cbn -[u32 movsl stosw Z.shiftr Z.mul]. fold cols. set (n := Z.to_nat (Z.shiftr _ 1)) in *.
  destruct (movsl_up n (origin c + 2 * cols) (video_mem_start c) (vram c)) as (Hd & Hin & Hout); [lia..|].
  destruct (movsl 4 n _ _ _) as [m edi]. simpl in Hd, Hin, Hout. rewrite Hd, Hn. clear Hd.
  set (m' := stosw 2 _ _ _ m).
  assert (Hw : no_wrap 2 (Z.to_nat cols) (video_mem_start c + 2 * ((video_num_lines c - 1) * cols))) by (intros k Hk; lia).
  assert (Hm : ∀ a, a < video_mem_start c ∨ video_mem_end c ≤ a → cell_at m' a = cell_at (vram c) a).
  { intros a Ha. unfold m'. rewrite stosw_out by (done || intros k Hk; lia). apply Hout. intros j Hj. lia. }
  assert (Hf : ∀ j, 0 ≤ j < cells c → cell_at m' (video_mem_start c + 2 * j) = up_cells c 0 (video_num_lines c) j).
  { intros j Hj. unfold up_cells, m'. fold cols. rewrite decide_True by (fold (cells c) in *; lia). case_decide as Hd.
    - rewrite stosw_out by (done || intros k Hk; lia). rewrite Hin by lia. unfold lin. f_equal; lia.
    - replace (video_mem_start c + 2 * j)
        with (video_mem_start c + 2 * ((video_num_lines c - 1) * cols) + 2 * (j - (video_num_lines c - 1) * cols)) by lia.
      apply stosw_in; [lia|done|lia]. }
  clearbody m'. clear Hin Hout Hw Hn n m.
  split; [|by split].
  destruct Hok. constructor; simpl; try done; rewrite ?u32_small; fold cols; try lia; try done.
  exists 0. lia.
Qed.
Lemma clear_last_line_cells c :
  con_ok c → is_ega c = true → scr_end c + 2 * video_num_columns c ≤ video_mem_end c →
  shows c (clear_last_line (c <| origin := origin c + 2 * video_num_columns c |>
    <| c_pos := c_pos c + 2 * video_num_columns c |> <| scr_end := scr_end c + 2 * video_num_columns c |>))
    (up_cells c 0 (video_num_lines c)).
Proof.
  intros Hok Hega Hfit. destruct (ok_cells c Hok) as (H1 & H2 & H3). pose proof (ok_start c Hok). pose proof (ok_cols c Hok).
  pose proof (ok_scr c Hok) as Hscr. fold (cells c) in Hscr. pose proof (ok_fit c Hok).
  pose proof (ok_row c Hok) as Hrow. set (cols := video_num_columns c) in *. pose proof (ok_lines c Hok).
  assert (Hc : cells c = (video_num_lines c - 1) * cols + cols) by (unfold cells; fold cols; lia).
  assert (Hc0 : 0 ≤ (video_num_lines c - 1) * cols) by nia.
  unfold clear_last_line. cbn -[u32 stosw Z.mul]. fold cols. rewrite Hrow, u32_small by lia.
  replace (scr_end c + 2 * cols - 2 * cols) with (scr_end c) by lia.
  set (m' := stosw 2 (Z.to_nat cols) (video_erase_char c) (scr_end c) (vram c)).
  assert (Hw : no_wrap 2 (Z.to_nat cols) (scr_end c)) by (intros k Hk; lia).
  assert (Hm : ∀ a, a < video_mem_start c ∨ video_mem_end c ≤ a → cell_at m' a = cell_at (vram c) a).
  { intros a Ha. unfold m'. by rewrite stosw_out by (done || intros k Hk; lia). }
  assert (Hf : ∀ j, 0 ≤ j < cells c →
    cell_at m' (origin c + 2 * cols + 2 * j) = up_cells c 0 (video_num_lines c) j).
  { intros j Hj. unfold up_cells, m'. fold cols. rewrite decide_True by (fold (cells c) in *; lia). case_decide as Hd.
    - rewrite stosw_out by (done || intros k Hk; lia). unfold lin. f_equal; lia.
    - replace (origin c + 2 * cols + 2 * j) with (scr_end c + 2 * (j - (video_num_lines c - 1) * cols)) by lia.
      apply stosw_in; [lia|done|lia]. }
  cut (shows c (c <| origin := origin c + 2 * cols |> <| c_pos := c_pos c + 2 * cols |>
    <| scr_end := scr_end c + 2 * cols |> <| vram := m' |>) (up_cells c 0 (video_num_lines c))); [done|].
  clearbody m'. split; [|by split]. destruct (ok_aligned c Hok) as [al Hal].
  destruct Hok. constructor; simpl; try done; fold cols; try lia.
  - exists (al + cols). lia.
  - intros Hn. change (is_ega c = false) in Hn. congruence.
Qed.

Lemma move_window_cells c :
  con_ok c → is_ega c = true → shows c (move_window c) (up_cells c 0 (video_num_lines c)).
Proof.
  intros Hok Hega. unfold move_window. rewrite shift_window_eq by done. apply shows_set_origin.
  cbn [video_mem_end scr_end]. set (c1 := c <| origin := _ |> <| c_pos := _ |> <| scr_end := _ |>).
  change (scr_end c1) with (scr_end c + 2 * video_num_columns c). change (video_mem_end c1) with (video_mem_end c).
  destruct (Z.ltb_spec (video_mem_end c) (scr_end c + 2 * video_num_columns c)).
  - by apply copy_back_cells.
  - by apply clear_last_line_cells.
Qed.

(** Scrolling up shows the same on every card. *)
Lemma scrup_cells c : con_ok c → shows c (scrup c) (up_cells c (c_top c) (c_bottom c)).
Proof.
  intros Hok. unfold scrup. destruct (is_ega c) eqn:Hega; [|by apply copy_up_cells].
  destruct (Z.eqb_spec (c_top c) 0) as [Ht|]; [|by apply copy_up_cells].
  destruct (Z.eqb_spec (c_bottom c) (video_num_lines c)) as [Hb|]; [|by apply copy_up_cells].
  rewrite Ht, Hb. by apply move_window_cells.
Qed.
End Scroll.
