(* ===== verification/ScreenRefine.v ===== *)
(** * console.c implements the grid *)

From stdpp Require Import base option list gmap.
From Stdlib Require Import ZArith Lia Ascii.
From S2P Require Import Prelude Screen ScreenProofs ScreenSpec.
Local Open Scope Z_scope.

(** The routine of console.c for each operation. *)
Definition run (o : op) (c : console) : console :=
  match o with
  | Put ch => put_char ch c
  | LineFeed => lf c
  | ReverseIndex => ri c
  | Return => cr c
  | Backspace => (plain_char (-1) 8 c).1
  | Rubout => del c
  | Tab => tab c
  | Goto x y => gotoxy x y c
  | EraseDisplay p => csi_J p c
  | EraseLine p => csi_K p c
  | InsertChar => insert_char c
  | DeleteChar => delete_char c
  | InsertLine => insert_line c
  | DeleteLine => delete_line c
  end.

(** What a console shows. *)
Definition grid_of (c : console) : grid :=
  mk_grid (video_num_columns c) (video_num_lines c) (video_erase_char c) (attr c) (c_top c) (c_bottom c) (c_x c) (c_y c)
    (λ r k, lin c (r * video_num_columns c + k)).

#[export] Instance grid_equivalence : Equivalence (≡@{grid}).
Proof.
  split.
  - intros g. by split.
  - intros g h [H1 H2]. split; [done|]. unfold g_scalars in H1. simplify_eq. intros r k Hr Hk.
    symmetry. apply H2; congruence.
  - intros g h i [H1 H2] [H3 H4]. split; [congruence|]. unfold g_scalars in *. simplify_eq.
    intros r k Hr Hk. rewrite H2 by done. apply H4; congruence.
Qed.

(** [c'] is a well-formed successor of [c] that shows [g]. *)
Definition becomes (c c' : console) (g : grid) : Prop := con_ok c' ∧ keeps c c' ∧ grid_of c' ≡ g.

Lemma becomes_trans c c1 c2 g1 (F : grid → grid) `{!Proper ((≡) ==> (≡)) F} :
  becomes c c1 g1 → becomes c1 c2 (F (grid_of c1)) → becomes c c2 (F g1).
Proof.
  intros (H1 & H2 & H3) (H4 & H5 & H6). split; [done|]. split; [by etrans|]. by rewrite H6, H3.
Qed.
Lemma becomes_proper c c' g g' : g ≡ g' → becomes c c' g → becomes c c' g'.
Proof. intros Hg (H1 & H2 & H3). split; [done|]. split; [done|]. by rewrite <-Hg. Qed.

Section Refine.
Implicit Types (c : console) (g : grid).

(** The variables of the cursor and the region. *)
Definition vars c := (attr c, c_top c, c_bottom c, c_x c, c_y c).
Lemma shows_becomes c c' f g :
  shows c c' f → vars c' = vars c → g_scalars g = g_scalars (grid_of c) →
  (∀ r k, 0 ≤ r < video_num_lines c → 0 ≤ k < video_num_columns c →
     f (r * video_num_columns c + k) = g_cell g r k) →
  becomes c c' g.
Proof.
  intros (Hok & [Hcard Hframe] & Hf) Hv Hg Hc. split; [done|]. split; [by split|].
  unfold vars, card, g_scalars in *. simpl in Hg. simplify_eq. split; [simpl; unfold g_scalars; simpl; congruence|].
  simpl. intros r k Hr Hk. rewrite <-Hc by congruence. 
  replace (video_num_columns c') with (video_num_columns c) by done. apply Hf. unfold cells.
  assert (r * video_num_columns c + k < video_num_lines c * video_num_columns c).
  { apply line_lt; lia. }
  nia.
Qed.

Lemma scrup_vars c : vars (scrup c) = vars c.
Proof. unfold scrup, copy_up, move_window, copy_back. repeat case_match; done. Qed.
Lemma scrdown_vars c : vars (scrdown c) = vars c.
Proof. unfold scrdown. repeat case_match; done. Qed.

(** ** Moving the cursor *)

Lemma u32_val x y : eqm32 x y → 0 ≤ y < 4294967296 → u32 x = y.
Proof. intros Hxy Hy. rewrite <-(u32_small y) by done. by apply u32_eq_eqm. Qed.

Definition move (x y : Z) c : console :=
  c <| c_x := x |> <| c_y := y |> <| c_pos := origin c + 2 * (y * video_num_columns c + x) |>.
Lemma move_becomes c x y :
  con_ok c → 0 ≤ x ≤ video_num_columns c → 0 ≤ y < video_num_lines c →
  becomes c (move x y c) (grid_of c <| g_x := x |> <| g_y := y |>).
Proof. intros [] Hx Hy. split; [by constructor|]. split; [by split|done]. Qed.
Lemma pos_bound c x y :
  con_ok c → 0 ≤ x ≤ video_num_columns c → 0 ≤ y < video_num_lines c →
  4096 ≤ origin c + 2 * (y * video_num_columns c + x) ≤ 0x100000.
Proof.
  intros Hok Hx Hy. destruct (ok_cells c Hok) as (H1 & H2 & H3). pose proof (ok_start c Hok).
  destruct (line_next c y Hok Hy). lia.
Qed.
(** A state that is [c] with the cursor at [x], [y]. *)
Lemma moved_becomes c c' x y :
  con_ok c → 0 ≤ x ≤ video_num_columns c → 0 ≤ y < video_num_lines c → c' = move x y c →
  becomes c c' (grid_of c <| g_x := x |> <| g_y := y |>).
Proof. intros ? ? ? ->. by apply move_becomes. Qed.

Ltac moved c := destruct c; unfold move, set in *; simpl in *; f_equal; simpl; try lia.

Lemma gotoxy_becomes c x y :
  con_ok c → 0 ≤ x → 0 ≤ y → becomes c (gotoxy x y c) (g_goto x y (grid_of c)).
Proof.
  intros Hok Hx Hy. unfold gotoxy, g_goto. simpl.
  destruct (Z.ltb_spec (video_num_columns c) x); simpl; [rewrite decide_False by lia; by split|].
  destruct (Z.leb_spec (video_num_lines c) y); [rewrite decide_False by lia; by split|].
  rewrite decide_True by lia. pose proof (pos_bound c x y Hok ltac:(lia) ltac:(lia)).
  rewrite (ok_row c Hok), Z.shiftl_mul_pow2 by lia.
  replace (u32 _) with (origin c + 2 * (y * video_num_columns c + x)) by (rewrite u32_small; lia).
  apply move_becomes; [done|lia..].
Qed.
Lemma lf_move c : con_ok c → c_y c + 1 < c_bottom c → lf c = move (c_x c) (c_y c + 1) c.
Proof.
  intros Hok Hy. pose proof (ok_cells c Hok). pose proof (ok_start c Hok). pose proof (ok_y c Hok). pose proof (ok_region c Hok).
  pose proof (ok_cols c Hok). pose proof (ok_row c Hok) as Hrow. pose proof (ok_pos c Hok) as Hpos. pose proof (ok_x c Hok).
  pose proof (pos_bound c (c_x c) (c_y c + 1) Hok ltac:(lia) ltac:(lia)).
  destruct (line_next c (c_y c) Hok ltac:(lia)).
  assert (cells c ≤ 0x100000) by lia.
  assert (video_num_lines c ≤ cells c) by (unfold cells; nia).
  unfold lf. rewrite Hrow, (u32_small (c_y c + 1)) by lia. destruct (Z.ltb_spec (c_y c + 1) (c_bottom c)); [|lia].
  moved c; rewrite u32_small; lia.
Qed.
Lemma lf_becomes c : con_ok c → becomes c (lf c) (g_lf (grid_of c)).
Proof.
  intros Hok. unfold g_lf. simpl. pose proof (ok_y c Hok). pose proof (ok_region c Hok). pose proof (ok_x c Hok).
  case_decide as Hd.
  - rewrite lf_move by done. apply move_becomes; [done|lia..].
  - assert (lf c = scrup c) as ->.
    { unfold lf. pose proof (ok_cells c Hok). pose proof (ok_cols c Hok). pose proof (ok_start c Hok).
      assert (video_num_lines c ≤ cells c) by (unfold cells; nia).
      rewrite u32_small by lia. by destruct (Z.ltb_spec (c_y c + 1) (c_bottom c)). }
    apply (shows_becomes _ _ _ _ (scrup_cells c Hok)); [apply scrup_vars|done|]. simpl. intros r k Hr Hk.
    unfold up_cells. pose proof (line_le (video_num_columns c) (c_top c) r k Hk).
    pose proof (line_lt (video_num_columns c) (c_bottom c) r k Hk).
    pose proof (line_lt (video_num_columns c) (c_bottom c) (r + 1) k Hk).
    repeat case_decide; try lia; try done. f_equal. lia.
Qed.

Lemma ri_becomes c : con_ok c → becomes c (ri c) (g_ri (grid_of c)).
Proof.
  intros Hok. unfold g_ri, ri. simpl. pose proof (ok_y c Hok). pose proof (ok_region c Hok). pose proof (ok_x c Hok).
  destruct (Z.ltb_spec (c_top c) (c_y c)).
  - rewrite decide_True by lia.
    pose proof (pos_bound c (c_x c) (c_y c - 1) Hok ltac:(lia) ltac:(lia)).
    pose proof (pos_bound c (c_x c) (c_y c) Hok ltac:(lia) ltac:(lia)). pose proof (ok_cols c Hok).
    pose proof (ok_row c Hok) as Hrow. pose proof (ok_pos c Hok) as Hpos. pose proof (ok_cells c Hok).
    assert (c_y c ≤ cells c) by (unfold cells; nia). pose proof (ok_start c Hok).
    apply (moved_becomes c _ (c_x c) (c_y c - 1)); [done|lia..|].
    rewrite Hrow. moved c; rewrite u32_small; lia.
  - rewrite decide_False by lia.
    apply (shows_becomes _ _ _ _ (scrdown_cells c Hok)); [apply scrdown_vars|done|]. simpl. intros r k Hr Hk.
    unfold down_cells. pose proof (line_le (video_num_columns c) (c_top c) r k Hk).
    pose proof (line_lt (video_num_columns c) (c_bottom c) r k Hk).
    pose proof (line_le (video_num_columns c) (c_top c) (r - 1) k Hk).
    repeat case_decide; try lia; try done. f_equal. lia.
Qed.

(** The cursor to column [x] of its line, as cr(), del() and the backspace do. *)
Lemma column_becomes c x :
  con_ok c → 0 ≤ x ≤ c_x c →
  becomes c (c <| c_x := x |> <| c_pos := u32 (c_pos c - 2 * (c_x c - x)) |>) (grid_of c <| g_x := x |>).
Proof.
  intros Hok Hx. pose proof (ok_x c Hok). pose proof (ok_y c Hok). pose proof (ok_pos c Hok).
  pose proof (pos_bound c x (c_y c) Hok ltac:(lia) ltac:(lia)).
  apply (moved_becomes c _ x (c_y c)); [done|lia..|]. rewrite u32_small by lia. moved c.
Qed.
Lemma cr_becomes c : con_ok c → becomes c (cr c) (grid_of c <| g_x := 0 |>).
Proof.
  intros Hok. pose proof (ok_x c Hok). pose proof (column_becomes c 0 Hok ltac:(lia)) as Hc.
  unfold cr. rewrite Z.shiftl_mul_pow2 by lia. replace (2 * (c_x c - 0)) with (c_x c * 2 ^ 1) in Hc by lia.
  by destruct c.
Qed.
(** [x--; pos -= 2;] *)
Definition back c : console := c <| c_x ::= λ x, u32 (x - 1) |> <| c_pos ::= λ p, u32 (p - 2) |>.
Lemma back_becomes c : con_ok c → 0 < c_x c → becomes c (back c) (grid_of c <| g_x := c_x c - 1 |>).
Proof.
  intros Hok Hx. pose proof (ok_x c Hok). pose proof (ok_cols c Hok).
  pose proof (column_becomes c (c_x c - 1) Hok ltac:(lia)) as Hc.
  replace (2 * (c_x c - (c_x c - 1))) with 2 in Hc by lia. unfold back.
  assert (u32 (c_x c - 1) = c_x c - 1) as Hu by (apply u32_small; lia). destruct c; unfold set in *; simpl in *. by rewrite Hu.
Qed.

(** ** Writing cells *)

Lemma write_shows c i v :
  con_ok c → 0 ≤ i < cells c →
  shows c (c <| vram ::= <[origin c + 2 * i := v]> |>) (λ j, if decide (j = i) then v else lin c j).
Proof.
  intros Hok Hi. pose proof (ok_cells c Hok). pose proof (ok_start c Hok).
  apply (shows_vram c (<[origin c + 2 * i := v]> (vram c))); [done| |].
  - intros a Ha. rewrite cell_at_insert, decide_False by lia. done.
  - intros j Hj. rewrite cell_at_insert. unfold lin. repeat case_decide; try lia; done.
Qed.
Lemma write_becomes c k v :
  con_ok c → 0 ≤ k < video_num_columns c →
  becomes c (c <| vram ::= <[origin c + 2 * (c_y c * video_num_columns c + k) := v]> |>)
    (g_write (c_y c) k v (grid_of c)).
Proof.
  intros Hok Hk. pose proof (ok_y c Hok). destruct (line_next c (c_y c) Hok ltac:(lia)).
  apply (shows_becomes _ _ _ _ (write_shows c (c_y c * video_num_columns c + k) v Hok ltac:(lia))); [done..|].
  simpl. intros r k' Hr Hk'. case_decide as Hd.
  - apply line_inj in Hd as [-> ->]; [|done..]. by rewrite decide_True.
  - rewrite decide_False; [done|]. intros [-> ->]. done.
Qed.

#[export] Instance g_write_proper r k v : Proper ((≡) ==> (≡)) (g_write r k v).
Proof.
  intros g h [Hs Hc]. split; [done|]. intros r' k' Hr Hk. simpl. case_decide; [done|]. by apply Hc.
Qed.
#[export] Instance g_type_proper ch : Proper ((≡) ==> (≡)) (g_type ch).
Proof.
  intros g h [Hs Hc]. unfold g_scalars in Hs. unfold g_type. simplify_eq.
  split; [unfold g_scalars; simpl; congruence|]. simpl. intros r' k' Hr Hk.
  replace (g_y h) with (g_y g) by congruence. replace (g_x h) with (g_x g) by congruence.
  replace (g_attr h) with (g_attr g) by congruence. case_decide; [done|]. by apply Hc.
Qed.

Definition type_char (ch : Z) c : console :=
  c <| vram ::= <[c_pos c := attr c * 256 + ch]> |>
    <| c_pos ::= λ p, u32 (p + 2) |> <| c_x ::= λ x, u32 (x + 1) |>.
Lemma type_becomes c ch :
  con_ok c → c_x c < video_num_columns c → becomes c (type_char ch c) (g_type ch (grid_of c)).
Proof.
  intros Hok Hx. pose proof (ok_x c Hok). pose proof (ok_cols c Hok). pose proof (ok_pos c Hok) as Hpos. pose proof (ok_y c Hok).
  destruct (write_becomes c (c_x c) (attr c * 256 + ch) Hok ltac:(lia)) as (Hok1 & Hk1 & Hg1). rewrite <-Hpos in *.
  set (c1 := c <| vram ::= _ |>) in *.
  destruct (move_becomes c1 (c_x c + 1) (c_y c) Hok1) as (Hok2 & Hk2 & Hg2); [simpl; lia..|].
  pose proof (pos_bound c (c_x c + 1) (c_y c) Hok ltac:(lia) ltac:(lia)).
  assert (type_char ch c = move (c_x c + 1) (c_y c) c1) as ->.
  { unfold type_char, c1. moved c; rewrite u32_small; lia. }
  split; [done|]. split; [by etrans|]. rewrite Hg2. destruct Hg1 as [Hs Hc].
  unfold g_scalars in Hs. split; [unfold g_scalars, g_type; simpl; congruence|]. simpl. intros r k Hr Hk. by apply Hc.
Qed.
Lemma wrap_becomes c :
  con_ok c → c_x c = video_num_columns c → becomes c (wrap c) (g_wrap (grid_of c)).
Proof.
  intros Hok Hx. pose proof (ok_x c Hok). pose proof (ok_y c Hok). pose proof (ok_cols c Hok). pose proof (ok_pos c Hok) as Hpos.
  destruct (move_becomes c 0 (c_y c) Hok ltac:(lia) ltac:(lia)) as (Hok1 & Hk1 & Hg1).
  destruct (lf_becomes _ Hok1) as (Hok2 & Hk2 & Hg2).
  pose proof (pos_bound c 0 (c_y c) Hok ltac:(lia) ltac:(lia)). pose proof (ok_row c Hok) as Hrow.
  assert (wrap c = lf (move 0 (c_y c) c)) as ->.
  { unfold wrap. f_equal. rewrite Hrow. moved c; rewrite u32_small; lia. }
  split; [done|]. split; [by etrans|]. rewrite Hg2. unfold g_wrap.
  replace (g_x (grid_of c) - g_cols (grid_of c)) with 0 by (simpl; lia). done.
Qed.
Lemma lf_x c : c_x (lf c) = c_x c.
Proof. unfold lf. case_match; [done|]. pose proof (scrup_vars c) as Hv. unfold vars in Hv. congruence. Qed.
Lemma put_becomes c ch : con_ok c → becomes c (put_char ch c) (g_put ch (grid_of c)).
Proof.
  intros Hok. pose proof (ok_x c Hok). pose proof (ok_cols c Hok). unfold put_char, g_put. simpl.
  destruct (Z.leb_spec (video_num_columns c) (c_x c)).
  - rewrite decide_True by lia. pose proof (wrap_becomes c Hok ltac:(lia)) as Hw.
    apply (becomes_trans _ _ _ _ (g_type ch) Hw). apply type_becomes; [apply Hw|].
    assert (Hx : c_x (wrap c) = 0).
    { unfold wrap. rewrite lf_x. simpl. rewrite u32_small; lia. }
    destruct Hw as (Hok' & _). pose proof (ok_cols _ Hok'). lia.
  - rewrite decide_False by lia. apply type_becomes; [done|lia].
Qed.

Lemma tab_becomes c : con_ok c → becomes c (tab c) (g_tab (grid_of c)).
Proof.
  intros Hok. pose proof (ok_x c Hok). pose proof (ok_cols c Hok). pose proof (ok_pos c Hok) as Hpos. pose proof (ok_y c Hok).
  pose proof (ok_row c Hok) as Hrow. unfold tab, g_tab. change 7 with (Z.ones 3). rewrite Z.land_ones by lia.
  change (2 ^ 3) with 8. cbn [g_x grid_of]. pose proof (Z.mod_pos_bound (c_x c) 8 ltac:(lia)).
  set (n := 8 - c_x c mod 8) in *. rewrite Z.shiftl_mul_pow2 by lia.
  pose proof (pos_bound c (c_x c) (c_y c) Hok ltac:(lia) ltac:(lia)).
  assert (Hu : u32 (c_x c + n) = c_x c + n) by (apply u32_small; lia).
  change (c_x (c <| c_x ::= _ |> <| c_pos ::= _ |>)) with (u32 (c_x c + n)). rewrite Hu. cbn.
  destruct (Z.ltb_spec (video_num_columns c) (c_x c + n)).
  - rewrite decide_True by (simpl; lia).
    destruct (move_becomes c (c_x c + n - video_num_columns c) (c_y c) Hok) as (Hok1 & Hk1 & Hg1); [lia..|].
    destruct (lf_becomes _ Hok1) as (Hok2 & Hk2 & Hg2).
    pose proof (pos_bound c (c_x c + n - video_num_columns c) (c_y c) Hok ltac:(lia) ltac:(lia)).
    match goal with |- becomes _ (wrap ?x) _ =>
      assert (wrap x = lf (move (c_x c + n - video_num_columns c) (c_y c) c)) as -> end.
    { unfold wrap. f_equal. cbn. rewrite Hrow. moved c; apply u32_val; [rewrite u32_eqm; apply eqm32_eq; lia|lia|rewrite u32_eqm; apply eqm32_eq; lia|lia]. }
    split; [done|]. split; [by etrans|]. by rewrite Hg2.
  - rewrite decide_False by (simpl; lia). apply (moved_becomes c _ (c_x c + n) (c_y c)); [done|lia..|].
    pose proof (pos_bound c (c_x c + n) (c_y c) Hok ltac:(lia) ltac:(lia)). moved c; rewrite u32_small; lia.
Qed.
Lemma del_becomes c : con_ok c → becomes c (del c) (g_del (grid_of c)).
Proof.
  intros Hok. pose proof (ok_x c Hok). unfold del, g_del, truth. simpl.
  destruct (Z.eqb_spec (c_x c) 0) as [Hx|Hx]; simpl; [rewrite decide_True by done; by split|]. rewrite decide_False by done.
  pose proof (back_becomes c Hok ltac:(lia)) as Hb. fold (back c).
  apply (becomes_trans c (back c) _ _ (g_write (c_y c) (c_x c - 1) (video_erase_char c)) Hb).
  destruct Hb as (Hok1 & _ & Hg1). pose proof (ok_cols c Hok). 
  assert (Hx1 : c_x (back c) = c_x c - 1) by (simpl; apply u32_small; lia).
  change (becomes (back c) (back c <| vram ::= <[c_pos (back c) := video_erase_char c]> |>)
    (g_write (c_y c) (c_x c - 1) (video_erase_char c) (grid_of (back c)))).
  rewrite (ok_pos (back c) Hok1), Hx1. apply (write_becomes (back c)); [done|simpl; lia].
Qed.

(** ** Erasing *)

Lemma erase_becomes c n i (P : Z → Z → bool) :
  con_ok c → 0 ≤ i → 0 ≤ n → i + n ≤ cells c →
  (∀ r k, 0 ≤ r < video_num_lines c → 0 ≤ k < video_num_columns c →
     P r k = true ↔ i ≤ r * video_num_columns c + k < i + n) →
  becomes c (erase n (origin c + 2 * i) c) (g_clear P (grid_of c)).
Proof.
  intros Hok Hi Hn Hle HP. pose proof (ok_cells c Hok). pose proof (ok_start c Hok).
  unfold erase. rewrite u32_small by lia.
  destruct (fill_lin c (Z.to_nat n) i (video_erase_char c) Hok ltac:(lia) ltac:(lia)) as [H1 H2].
  apply (shows_becomes _ _ _ _ (shows_vram c _ _ Hok H2 H1)); [done..|]. simpl. intros r k Hr Hk.
  specialize (HP r k Hr Hk). rewrite Z2Nat.id by lia. destruct (P r k) eqn:HPr.
  - rewrite decide_True; [done|]. by apply HP.
  - rewrite decide_False; [done|]. intros Hd%HP. congruence.
Qed.
Lemma cursor_le cols y x r k : 0 ≤ x ≤ cols → 0 ≤ k < cols → y * cols + x ≤ r * cols + k ↔ y < r ∨ r = y ∧ x ≤ k.
Proof.
  intros Hx Hk. pose proof (line_lt cols (y + 1) r k Hk). pose proof (line_le cols y r k Hk).
  destruct (Z.lt_trichotomy r y) as [|[->|]]; [lia|lia|].
  assert ((y + 1) * cols ≤ r * cols + k) by (apply line_le; lia). lia.
Qed.
Lemma csi_J_becomes c p : con_ok c → becomes c (csi_J p c) (g_erase_display p (grid_of c)).
Proof.
  intros Hok. pose proof (ok_x c Hok). pose proof (ok_y c Hok). pose proof (ok_cells c Hok). pose proof (ok_pos c Hok) as Hpos.
  pose proof (ok_scr c Hok) as Hscr. fold (cells c) in Hscr. destruct (line_next c (c_y c) Hok ltac:(lia)).
  pose proof (ok_start c Hok). set (i := c_y c * video_num_columns c + c_x c) in *.
  assert (Hin : ∀ r k, 0 ≤ r < video_num_lines c → 0 ≤ k < video_num_columns c →
    0 ≤ r * video_num_columns c + k < cells c).
  { intros r k Hr Hk. pose proof (line_next c r Hok Hr). lia. }
  assert (Hhalf : ∀ n, 0 ≤ n → 2 * n < 4294967296 → Z.shiftr (u32 (2 * n)) 1 = n).
  { intros n Hn Hn'. rewrite u32_small, Z.shiftr_div_pow2 by lia. change (2 ^ 1) with 2.
    rewrite Z.mul_comm. by apply Z.div_mul. }
  unfold csi_J, g_erase_display. simpl.
  destruct (Z.eqb_spec p 0); [rewrite decide_True by done|rewrite decide_False by done].
  { replace (scr_end c - c_pos c) with (2 * (cells c - i)) by lia. rewrite Hhalf, Hpos by lia.
    apply erase_becomes; [done|lia..|]. intros r k Hr Hk. rewrite bool_decide_eq_true.
    pose proof (cursor_le (video_num_columns c) (c_y c) (c_x c) r k ltac:(lia) Hk). specialize (Hin r k Hr Hk). lia. }
  destruct (Z.eqb_spec p 1); [rewrite decide_True by done|rewrite decide_False by done].
  { replace (c_pos c - origin c) with (2 * i) by lia. rewrite Hhalf by lia.
    replace (origin c) with (origin c + 2 * 0) at 1 by lia.
    apply erase_becomes; [done|lia..|]. intros r k Hr Hk. rewrite bool_decide_eq_true.
    pose proof (cursor_le (video_num_columns c) (c_y c) (c_x c) r k ltac:(lia) Hk). specialize (Hin r k Hr Hk). lia. }
  destruct (Z.eqb_spec p 2); [rewrite decide_True by done|rewrite decide_False by done; by split].
  replace (video_num_columns c * video_num_lines c) with (cells c) by (unfold cells; lia).
  replace (origin c) with (origin c + 2 * 0) at 1 by lia.
  apply erase_becomes; [done|lia..|]. intros r k Hr Hk. specialize (Hin r k Hr Hk). split; [lia|done].
Qed.
Lemma csi_K_becomes c p : con_ok c → becomes c (csi_K p c) (g_erase_line p (grid_of c)).
Proof.
  intros Hok. pose proof (ok_x c Hok). pose proof (ok_y c Hok). pose proof (ok_cells c Hok). pose proof (ok_pos c Hok) as Hpos.
  destruct (line_next c (c_y c) Hok ltac:(lia)). pose proof (ok_start c Hok). pose proof (ok_cols c Hok).
  unfold csi_K, g_erase_line. simpl. rewrite Z.shiftl_mul_pow2, u32_small by lia. change (2 ^ 1) with 2.
  replace (c_pos c - c_x c * 2) with (origin c + 2 * (c_y c * video_num_columns c)) by lia.
  assert (Hcl : ∀ r k, 0 ≤ k < video_num_columns c →
    (c_y c * video_num_columns c ≤ r * video_num_columns c + k ↔ c_y c ≤ r) ∧
    (r * video_num_columns c + k < c_y c * video_num_columns c + video_num_columns c ↔ r < c_y c + 1)).
  { intros r k Hk. split; [by apply line_le|].
    replace (c_y c * video_num_columns c + video_num_columns c) with ((c_y c + 1) * video_num_columns c) by lia. by apply line_lt. }
  destruct (Z.eqb_spec p 0); [rewrite decide_True by done|rewrite decide_False by done].
  { destruct (Z.leb_spec (video_num_columns c) (c_x c)).
    - split; [done|]. split; [done|]. split; [done|]. simpl. intros r k Hr Hk.
      by rewrite bool_decide_eq_false_2 by lia.
    - rewrite Hpos. apply erase_becomes; [done|lia..|]. intros r k Hr Hk. rewrite bool_decide_eq_true.
      pose proof (cursor_le (video_num_columns c) (c_y c) (c_x c) r k ltac:(lia) Hk). specialize (Hcl r k Hk). lia. }
  destruct (Z.eqb_spec p 1); [rewrite decide_True by done|rewrite decide_False by done].
  { replace (if c_x c <? video_num_columns c then c_x c else video_num_columns c) with (c_x c)
      by (destruct (Z.ltb_spec (c_x c) (video_num_columns c)); lia).
    apply erase_becomes; [done|lia..|]. intros r k Hr Hk. rewrite bool_decide_eq_true.
    pose proof (cursor_le (video_num_columns c) (c_y c) (c_x c) r k ltac:(lia) Hk). specialize (Hcl r k Hk). lia. }
  destruct (Z.eqb_spec p 2); [rewrite decide_True by done|rewrite decide_False by done; by split].
  apply erase_becomes; [done|lia..|]. intros r k Hr Hk. rewrite bool_decide_eq_true. specialize (Hcl r k Hk). lia.
Qed.

(** ** Inserting and deleting *)

Lemma insert_char_becomes c : con_ok c → becomes c (insert_char c) (g_insert_char (grid_of c)).
Proof.
  intros Hok. pose proof (ok_x c Hok). pose proof (ok_y c Hok). pose proof (ok_cells c Hok). pose proof (ok_pos c Hok) as Hpos.
  destruct (line_next c (c_y c) Hok ltac:(lia)). pose proof (ok_start c Hok). pose proof (ok_cols c Hok).
  unfold insert_char. rewrite Hpos. set (i := c_y c * video_num_columns c + c_x c).
  destruct (insert_loop_spec (Z.to_nat (video_num_columns c - c_x c)) (video_erase_char c) (origin c + 2 * i) (vram c))
    as [Hin Hout]; [lia..|].
  set (m := insert_loop _ _ _ _) in *.
  cut (becomes c (c <| vram := m |>) (g_insert_char (grid_of c))); [done|].
  apply (shows_becomes _ _ (λ j, cell_at m (origin c + 2 * j))); [apply shows_vram; [done| |done]|done|done|].
  - intros a Ha. apply Hout. intros j Hj. lia.
  - simpl. intros r k Hr Hk.
    pose proof (cursor_le (video_num_columns c) (c_y c) (c_x c) r k ltac:(lia) Hk).
    pose proof (line_lt (video_num_columns c) (c_y c + 1) r k Hk). case_decide as Hd.
    + destruct Hd as [-> Hk']. replace (origin c + _) with (origin c + 2 * i + 2 * (k - c_x c)) by lia.
      rewrite Hin by lia. repeat case_decide; try lia. unfold lin. f_equal. lia.
    + rewrite Hout; [done|]. intros j Hj. lia.
Qed.
Lemma delete_char_becomes c : con_ok c → becomes c (delete_char c) (g_delete_char (grid_of c)).
Proof.
  intros Hok. pose proof (ok_x c Hok). pose proof (ok_y c Hok). pose proof (ok_cells c Hok). pose proof (ok_pos c Hok) as Hpos.
  destruct (line_next c (c_y c) Hok ltac:(lia)). pose proof (ok_start c Hok). pose proof (ok_cols c Hok).
  unfold delete_char. destruct (Z.leb_spec (video_num_columns c) (c_x c)) as [Hx|Hx].
  { split; [done|]. split; [done|]. split; [done|]. simpl. intros r k Hr Hk. by rewrite decide_False by lia. }
  rewrite Hpos. set (i := c_y c * video_num_columns c + c_x c).
  destruct (delete_loop_spec (Z.to_nat (video_num_columns c - c_x c - 1)) (origin c + 2 * i) (vram c))
    as (Hp & Hin & Hout); [lia..|].
  destruct (delete_loop _ _ _) as [m p]. simpl in Hp, Hin, Hout.
  apply (shows_becomes _ _ (λ j, cell_at (<[p := video_erase_char c]> m) (origin c + 2 * j)));
    [apply shows_vram; [done| |done]|done|done|].
  - intros a Ha. rewrite cell_at_insert, decide_False by lia. apply Hout. intros j Hj. lia.
  - simpl. intros r k Hr Hk. rewrite cell_at_insert.
    pose proof (cursor_le (video_num_columns c) (c_y c) (c_x c) r k ltac:(lia) Hk).
    pose proof (line_lt (video_num_columns c) (c_y c + 1) r k Hk). case_decide as Hd; case_decide as Hd'.
    + by rewrite decide_True by lia.
    + exfalso. lia.
    + destruct Hd' as [-> Hk']. rewrite decide_False by lia.
      replace (origin c + _) with (origin c + 2 * i + 2 * (k - c_x c)) by lia.
      rewrite Hin by lia. unfold lin. f_equal. lia.
    + rewrite Hout; [done|]. intros j Hj. lia.
Qed.

(** Scrolling from the cursor's line on. *)
Definition region c : console := c <| c_top := c_y c |> <| c_bottom := video_num_lines c |>.
Lemma with_region_becomes c (f : console → console) g :
  con_ok c → vars (f (region c)) = vars (region c) → g_scalars g = g_scalars (grid_of (region c)) →
  becomes (region c) (f (region c)) g →
  becomes c (with_region f c) (g <| g_top := c_top c |> <| g_bottom := c_bottom c |>).
Proof.
  intros Hok Hv Hg (Hok1 & [Hcard Hframe] & [Hs Hc]). pose proof (ok_region c Hok) as Hr.
  change (with_region f c) with (f (region c) <| c_top := c_top c |> <| c_bottom := c_bottom c |>).
  unfold card, g_scalars, vars in *. simpl in *. simplify_eq.
  split; [|split; [split; [unfold card; simpl; congruence|done]|]].
  - destruct Hok1. constructor; simpl; try done. replace (video_num_lines (f (region c))) with (video_num_lines c) by congruence. done.
  - split; [unfold g_scalars; simpl; congruence|]. simpl. intros r k Hr' Hk. by apply Hc.
Qed.
Lemma region_ok c : con_ok c → con_ok (region c).
Proof. intros []. by constructor. Qed.
Lemma insert_line_becomes c : con_ok c → becomes c (insert_line c) (g_down (c_y c) (video_num_lines c) (grid_of c)).
Proof.
  intros Hok. pose proof (region_ok c Hok) as Hok1.
  apply (with_region_becomes c scrdown (g_down (c_y c) (video_num_lines c) (grid_of (region c))) Hok);
    [apply scrdown_vars|done|].
  apply (shows_becomes _ _ _ _ (scrdown_cells _ Hok1)); [apply scrdown_vars|done|]. simpl. intros r k Hr Hk.
  unfold down_cells. simpl. pose proof (line_le (video_num_columns c) (c_y c) r k Hk).
  pose proof (line_lt (video_num_columns c) (video_num_lines c) r k Hk).
  pose proof (line_le (video_num_columns c) (c_y c) (r - 1) k Hk).
  repeat case_decide; try lia; try done. f_equal. lia.
Qed.
Lemma delete_line_becomes c : con_ok c → becomes c (delete_line c) (g_up (c_y c) (video_num_lines c) (grid_of c)).
Proof.
  intros Hok. pose proof (region_ok c Hok) as Hok1.
  apply (with_region_becomes c scrup (g_up (c_y c) (video_num_lines c) (grid_of (region c))) Hok);
    [apply scrup_vars|done|].
  apply (shows_becomes _ _ _ _ (scrup_cells _ Hok1)); [apply scrup_vars|done|]. simpl. intros r k Hr Hk.
  unfold up_cells. simpl. pose proof (line_le (video_num_columns c) (c_y c) r k Hk).
  pose proof (line_lt (video_num_columns c) (video_num_lines c) r k Hk).
  pose proof (line_lt (video_num_columns c) (video_num_lines c) (r + 1) k Hk).
  repeat case_decide; try lia; try done. f_equal. lia.
Qed.

(** ** Every operation *)

Lemma run_becomes o c :
  con_ok c → (∀ x y, o = Goto x y → 0 ≤ x ∧ 0 ≤ y) → becomes c (run o c) (g_run o (grid_of c)).
Proof.
  intros Hok Ho. destruct o; simpl.
  - by apply put_becomes.
  - by apply lf_becomes.
  - by apply ri_becomes.
  - by apply cr_becomes.
  - unfold plain_char. simpl. unfold truth. pose proof (ok_x c Hok).
    destruct (Z.eqb_spec (c_x c) 0); simpl; [rewrite decide_True by done; by split|].
    rewrite decide_False by done. apply back_becomes; [done|lia].
  - by apply del_becomes.
  - by apply tab_becomes.
  - destruct (Ho x y eq_refl). by apply gotoxy_becomes.
  - by apply csi_J_becomes.
  - by apply csi_K_becomes.
  - by apply insert_char_becomes.
  - by apply delete_char_becomes.
  - by apply insert_line_becomes.
  - by apply delete_line_becomes.
Qed.
End Refine.

(** C36: console.c implements a grid of cells.  From every well-formed state
    each operation of the terminal (printing a character, line feed, reverse
    line feed, carriage return, backspace, erase, tab, positioning, erasing
    the display or the line, inserting and deleting characters and lines)
    leaves a well-formed state that shows what the grid operation shows,
    whatever the card and wherever in video memory the window is, and writes
    nothing outside video memory. *)
Theorem screen_refines (o : op) (c : console)
    (Hok : con_ok c) (Ho : ∀ x y, o = Goto x y → 0 ≤ x ∧ 0 ≤ y) :
  con_ok (run o c) ∧ grid_of (run o c) ≡ g_run o (grid_of c) ∧ card (run o c) = card c ∧
  ∀ a, a < video_mem_start c ∨ video_mem_end c ≤ a → cell_at (vram (run o c)) a = cell_at (vram c) a.
Proof. destruct (run_becomes o c Hok Ho) as (H1 & [H2 H3] & H4). done. Qed.
