(* ===== verification/ConsoleFacts.v ===== *)
(** * The automaton of con_write()

    Every character keeps the invariant of the screen; con_init() establishes
    it; the sequence that positions the cursor does so. *)

From stdpp Require Import base option list gmap.
From Stdlib Require Import ZArith Lia Ascii.
From S2P Require Import Prelude Memory Screen ScreenProofs ScreenSpec ScreenRefine Vsprintf VsprintfProofs.
Local Open Scope Z_scope.

(** ** Safety *)

Definition safe (c c' : console) : Prop := con_ok c' ∧ keeps c c'.

Section Safe.
Implicit Types c : console.

Lemma becomes_safe c c' g : becomes c c' g → safe c c'.
Proof. intros (H1 & H2 & _). by split. Qed.
Lemma safe_refl c : con_ok c → safe c c.
Proof. by split. Qed.
Lemma safe_trans c1 c2 c3 : safe c1 c2 → safe c2 c3 → safe c1 c3.
Proof. intros [H1 H2] [H3 H4]. split; [done|]. by etrans. Qed.
Lemma run_safe o c : con_ok c → (∀ x y, o = Goto x y → 0 ≤ x ∧ 0 ≤ y) → safe c (run o c).
Proof. intros. eapply becomes_safe, run_becomes; done. Qed.
Lemma goto_safe c x y : con_ok c → 0 ≤ x → 0 ≤ y → safe c (gotoxy x y c).
Proof. intros. apply (run_safe (Goto x y)); [done|]. by intros ? ? [= <- <-]. Qed.

(** Only the automaton's own variables change. *)
Definition same_screen c c' : Prop :=
  card c' = card c ∧ (video_size_row c', video_mem_start c', origin c', scr_end c', c_pos c', c_x c', c_y c', c_top c', c_bottom c', vram c') =
  (video_size_row c, video_mem_start c, origin c, scr_end c, c_pos c, c_x c, c_y c, c_top c, c_bottom c, vram c) ∧
  0 ≤ npar c' < Z.of_nat NPAR ∧ length (par c') = NPAR ∧ Forall (λ p, 0 ≤ p < 4294967296) (par c').
Lemma same_screen_safe c c' : con_ok c → same_screen c c' → safe c c'.
Proof.
  intros Hok (H1 & H2 & H3 & H4 & H5). split.
  - unfold card in H1. destruct Hok, c, c'. simpl in *. simplify_eq. by constructor.
  - split; [done|]. intros a Ha. simplify_eq. congruence.
Qed.
Ltac same Hok := apply same_screen_safe; [exact Hok|]; split; [done|]; split; [done|]; pose proof (ok_npar _ Hok); pose proof (ok_par _ Hok); try done.

Lemma par_at_bound c k : con_ok c → 0 ≤ par_at c k < 4294967296.
Proof.
  intros Hok. destruct (ok_par c Hok) as [Hl Hp]. unfold par_at. destruct (par c !! k) as [v|] eqn:Hk; [|simpl; lia].
  by apply (Forall_lookup_1 _ _ _ _ Hp Hk).
Qed.
Lemma set_par_safe c k v : con_ok c → 0 ≤ v < 4294967296 → safe c (set_par k v c).
Proof.
  intros Hok Hv. same Hok. simpl. rewrite length_insert. split; [done|]. split; [tauto|].
  apply Forall_insert; tauto.
Qed.
Lemma dec_par_safe c k : con_ok c → safe c (dec_par k c).
Proof. intros Hok. unfold dec_par. case_match; [|by apply safe_refl]. apply set_par_safe; [done|apply u32_bound]. Qed.
Lemma inc_par_safe c k : con_ok c → safe c (inc_par k c).
Proof. intros Hok. unfold inc_par. case_match; [|by apply safe_refl]. apply set_par_safe; [done|apply u32_bound]. Qed.
Lemma state_safe c v : con_ok c → safe c (c <| c_state := v |>).
Proof. intros Hok. same Hok. Qed.
Lemma save_cur_safe c : con_ok c → safe c (save_cur c).
Proof. intros Hok. same Hok. Qed.
Lemma restore_cur_safe c : con_ok c → safe c (restore_cur c).
Proof. intros Hok. apply goto_safe; [done|apply u32_bound..]. Qed.
Lemma csi_m_safe c : con_ok c → safe c (csi_m c).
Proof.
  intros Hok. unfold csi_m. generalize (seq 0 (Z.to_nat (npar c) + 1)) as l. intros l. revert c Hok.
  induction l as [|i l IH]; intros c1 Hok; [by apply safe_refl|]. simpl.
  assert (Ha : safe c1 (set_attr (par_at c1 i) c1)).
  { unfold set_attr. repeat case_match; try (by apply safe_refl); same Hok. }
  apply (safe_trans _ _ _ Ha), IH, Ha.
Qed.
Lemma iter_safe (f : console → console) n c :
  (∀ c, con_ok c → safe c (f c)) → con_ok c → safe c (Nat.iter n f c).
Proof.
  intros Hf Hok. induction n as [|n IH]; [by apply safe_refl|]. apply (safe_trans _ _ _ IH), Hf, IH.
Qed.
Lemma set_region_safe c t b :
  con_ok c → 0 ≤ t < b → b ≤ video_num_lines c → safe c (c <| c_top := t |> <| c_bottom := b |>).
Proof. intros [] Ht Hb. split; [by constructor|by split]. Qed.
End Safe.

(** One parameter is changed, then the cursor moves. *)
Ltac goto_after H := apply (safe_trans _ _ _ H), goto_safe; [apply H| |];
  first [apply u32_bound | apply par_at_bound, H | apply (ok_x _ (proj1 H)) | apply (ok_y _ (proj1 H)) | lia].

Lemma csi_r_safe c : con_ok c → safe c (csi_r c).
Proof.
  intros Hok. unfold csi_r. pose proof (dec_par_safe c 0 Hok) as Hd. set (c1 := dec_par 0 c) in *. cbv zeta.
  set (c2 := if negb _ then _ else c1). assert (Hs2 : safe c c2).
  { apply (safe_trans _ _ _ Hd). unfold c2. destruct Hd as [Hok1 _].
    destruct (negb _); [|by apply safe_refl]. apply set_par_safe; [done|]. pose proof (ok_cells c1 Hok1).
    pose proof (ok_lines c1 Hok1). pose proof (ok_cols c1 Hok1). pose proof (ok_start c1 Hok1).
    assert (video_num_lines c1 ≤ cells c1) by (unfold cells; nia). lia. }
  destruct (Z.ltb_spec (par_at c2 0) (par_at c2 1)); [|done].
  destruct (Z.leb_spec (par_at c2 1) (video_num_lines c2)); [|done].
  apply (safe_trans _ _ _ Hs2), set_region_safe; [apply Hs2| |done].
  pose proof (par_at_bound c2 0 (proj1 Hs2)). lia.
Qed.

Lemma csi_char_safe c ch : con_ok c → safe c (csi_char ch c).
Proof.
  intros Hok. pose proof (state_safe c 0 Hok) as Hs. apply (safe_trans _ _ _ Hs). unfold csi_char.
  set (c0 := c <| c_state := 0 |>) in *. destruct Hs as [Hok0 _]. clearbody c0. cbv zeta.
  pose proof (dec_par_safe c0 0 Hok0) as Hd. pose proof (inc_par_safe c0 0 Hok0) as Hi.
  repeat match goal with |- safe _ (if ?b then _ else _) => destruct b end.
  - goto_after Hd.
  - goto_after Hi.
  - goto_after Hi.
  - goto_after Hi.
  - goto_after Hi.
  - goto_after Hi.
  - goto_after Hi.
  - goto_after Hd.
  - pose proof (safe_trans _ _ _ Hd (dec_par_safe _ 1 (proj1 Hd))) as Hdd. goto_after Hdd.
  - by apply (run_safe (EraseDisplay _)).
  - by apply (run_safe (EraseLine _)).
  - apply iter_safe; [|done]. intros c1 H1. by apply (run_safe InsertLine).
  - apply iter_safe; [|done]. intros c1 H1. by apply (run_safe DeleteLine).
  - apply iter_safe; [|done]. intros c1 H1. by apply (run_safe DeleteChar).
  - apply iter_safe; [|done]. intros c1 H1. by apply (run_safe InsertChar).
  - by apply csi_m_safe.
  - by apply csi_r_safe.
  - by apply save_cur_safe.
  - by apply restore_cur_safe.
  - by apply safe_refl.
Qed.

Lemma param_char_safe c ch : con_ok c → safe c (param_char ch c).
Proof.
  intros Hok. unfold param_char. pose proof (ok_npar c Hok). pose proof (ok_par c Hok).
  destruct (_ && (npar c <? _)) eqn:Hb.
  - apply andb_true_iff in Hb as [_ Hb%Z.ltb_lt]. apply same_screen_safe; [done|]. split; [done|]. split; [done|].
    split; [|done]. simpl. change (Z.of_nat NPAR) with 16 in *. rewrite u32_small; lia.
  - destruct ((chr "0" <=? ch) && (ch <=? chr "9")); [apply set_par_safe; [done|apply u32_bound]|].
    pose proof (state_safe c 4 Hok) as Hs. apply (safe_trans _ _ _ Hs), csi_char_safe, Hs.
Qed.
Lemma first_char_safe c ch : con_ok c → safe c (first_char ch c).
Proof.
  intros Hok. unfold first_char. cbv zeta. set (c1 := c <| par := _ |> <| npar := _ |> <| c_state := _ |> <| ques := _ |>).
  assert (Hs : safe c c1).
  { apply same_screen_safe; [done|]. split; [done|]. split; [done|]. split; [by vm_compute|]. split; [done|].
    apply Forall_replicate. lia. }
  destruct (ques c1); [done|]. apply (safe_trans _ _ _ Hs), param_char_safe, Hs.
Qed.
Lemma escape_char_safe c ch : con_ok c → safe c (escape_char ch c).1.
Proof.
  intros Hok. unfold escape_char. pose proof (state_safe c 0 Hok) as Hs. cbv zeta. 
  set (c0 := c <| c_state := 0 |>) in *.
  repeat match goal with |- safe _ (if ?b then _ else _).1 => destruct b end; simpl; [| | | | | | |done].
  - apply (safe_trans _ _ _ Hs), state_safe, Hs.
  - apply (safe_trans _ _ _ Hs), goto_safe; [apply Hs|lia|apply u32_bound].
  - apply (safe_trans _ _ _ Hs), (run_safe ReverseIndex); [apply Hs|done].
  - apply (safe_trans _ _ _ Hs), (run_safe LineFeed); [apply Hs|done].
  - done.
  - apply (safe_trans _ _ _ Hs), save_cur_safe, Hs.
  - apply (safe_trans _ _ _ Hs), restore_cur_safe, Hs.
Qed.
Lemma plain_char_safe e ch c : con_ok c → safe c (plain_char e ch c).1.
Proof.
  intros Hok. destruct (Z.eqb_spec ch 8) as [->|H8].
  { destruct (Z.eqb_spec e 8) as [->|He]; [by apply (run_safe Rubout)|].
    pose proof (run_safe Backspace c Hok ltac:(done)) as Hs. unfold run, plain_char in *.
    destruct (Z.eqb_spec 8 e); [done|]. exact Hs. }
  unfold plain_char. destruct (Z.eqb_spec ch 8); [done|].
  repeat match goal with |- safe _ (if ?b then _ else _).1 => destruct b end; simpl.
  - by apply (run_safe (Put ch)).
  - by apply state_safe.
  - by apply (run_safe LineFeed).
  - by apply (run_safe Return).
  - by apply (run_safe Rubout).
  - by apply (run_safe Tab).
  - by apply safe_refl.
  - by apply safe_refl.
Qed.
Lemma con_char_ok e ch c : con_ok c → safe c (con_char e ch c).1.
Proof.
  intros Hok. unfold con_char.
  repeat match goal with |- safe _ (if ?b then _ else _).1 => destruct b end; simpl.
  - by apply plain_char_safe.
  - by apply escape_char_safe.
  - by apply first_char_safe.
  - by apply param_char_safe.
  - by apply csi_char_safe.
  - by apply safe_refl.
Qed.

(** The characters of a string in turn; [e] is the erase character. *)
Definition con_run (e : Z) (l : list Z) (c : console) : console := foldl (λ c ch, (con_char e ch c).1) c l.
Lemma con_run_safe e l c : con_ok c → safe c (con_run e l c).
Proof.
  revert c. induction l as [|ch l IH]; intros c Hok; [by apply safe_refl|]. simpl.
  pose proof (con_char_ok e ch c Hok) as Hs. apply (safe_trans _ _ _ Hs), IH, Hs.
Qed.

(** ** con_init() *)

(** What setup.s must have found: a display of an even number of columns that
    fits into the memory of a CGA, with the cursor on it. *)
Definition setup_ok (s : mm) : Prop :=
  8 ≤ ORIG_VIDEO_COLS s ≤ 162 ∧ (∃ h, ORIG_VIDEO_COLS s = 2 * h) ∧
  ORIG_X s ≤ ORIG_VIDEO_COLS s ∧ ORIG_Y s < ORIG_VIDEO_LINES.
Lemma setup_byte_bound s a : 0 ≤ setup_byte s a < 256.
Proof. apply u8_bound. Qed.
Lemma init_vars_ok s type start mem_end reg val desc :
  setup_ok s → 4096 ≤ start → start + 8192 ≤ mem_end ≤ 0x100000 →
  con_ok (init_vars s type start mem_end reg val desc boot_console).
Proof.
  intros (Hc & [h Hh] & Hx & Hy) Hs He. unfold init_vars, ORIG_X, ORIG_Y, ORIG_VIDEO_LINES in *.
  pose proof (setup_byte_bound s 0x90000). pose proof (setup_byte_bound s 0x90001).
  set (x := setup_byte s 0x90000) in *. set (y := setup_byte s 0x90001) in *. set (cols := ORIG_VIDEO_COLS s) in *.
  cbv zeta. generalize (u8 (ORIG_VIDEO_PAGE s)) as page. intros page. clearbody x y cols.
  cbn [video_size_row]. generalize (show_desc desc) as dsc. intros dsc.
  unfold gotoxy. simpl. destruct (Z.ltb_spec cols x); [lia|]. destruct (Z.leb_spec 25 y); [lia|]. simpl.
  rewrite Z.shiftl_mul_pow2, (u32_small (start + y * (cols * 2) + x * 2 ^ 1)) by nia.
  constructor; simpl; try lia; try done; [by exists h|exists 0; lia|].
  split; [done|]. repeat (apply Forall_cons; split; [lia|]). by apply Forall_nil.
Qed.
Lemma init_screen_ok s : setup_ok s → con_ok (init_screen s boot_console).
Proof.
  intros Hs. unfold init_screen, display.
  destruct (ORIG_VIDEO_MODE s =? 7), (negb _); apply init_vars_ok; lia || done.
Qed.

(** ** Control sequences *)

Lemma con_run_app e l k c : con_run e (l ++ k) c = con_run e k (con_run e l c).
Proof. apply foldl_app. Qed.
Lemma set_par_id c k v : par c !! k = Some v → set_par k v c = c.
Proof. intros H. destruct c. unfold set_par, set; simpl in *. by rewrite list_insert_id. Qed.
Lemma set_par_twice c k v w : set_par k v (set_par k w c) = set_par k v c.
Proof. destruct c. unfold set_par, set; simpl. by rewrite list_insert_insert_eq. Qed.

(** A parameter in decimal is read as its value. *)
Lemma digits_run e ds c k v :
  c_state c = 3 → npar c = Z.of_nat k → (k < length (par c))%nat → par c !! k = Some v → 0 ≤ v →
  Forall (λ d, is_digit d = true) ds → value_from 10 v ds < 4294967296 →
  con_run e ds c = set_par k (value_from 10 v ds) c.
Proof.
  intros Hs Hn Hk Hv H0 Hds. revert c v Hs Hn Hk Hv H0. induction Hds as [|d ds Hd Hds IH]; intros c v Hs Hn Hk Hv H0 Hb.
  { symmetry. by apply set_par_id. }
  destruct (is_digit_value d Hd) as [Hdv Hdb].
  change (value_from 10 v (d :: ds)) with (value_from 10 (v * 10 + digit_value d) ds) in *. rewrite Hdv in *.
  set (v' := v * 10 + (d - chr "0")) in *. pose proof (value_from_ge v' ds ltac:(lia) Hds).
  change (con_run e (d :: ds) c) with (con_run e ds (con_char e d c).1).
  assert (Hstep : (con_char e d c).1 = set_par k v' c).
  { unfold con_char. rewrite Hs. simpl. unfold param_char.
    change (chr "0" ≤ d) with (48 ≤ d) in *. unfold is_digit in Hd. rewrite Hd.
    replace (d =? chr ";") with false by (symmetry; apply Z.eqb_neq; change (chr ";") with 59; change (chr "0") with 48 in *; lia).
    rewrite Hn, Nat2Z.id. simpl. unfold par_at. rewrite Hv. simpl. f_equal. rewrite u32_small; unfold v'; lia. }
  rewrite Hstep, (IH _ v'); [by rewrite set_par_twice| | | | |lia|done]; simpl; [done|done|by rewrite length_insert|].
  by apply list_lookup_insert_eq.
Qed.

(** The text "\033[y;xH". *)
Definition goto_text (y x : Z) : list Z := [27; chr "["] ++ decimal y ++ [chr ";"] ++ decimal x ++ [chr "H"].

(** The automaton after ESC [ and before the first digit is read. *)
Definition csi_start (c : console) : console :=
  c <| par := replicate NPAR 0 |> <| npar := 0 |> <| c_state := 3 |> <| ques := false |>.
Lemma csi_start_run e d ds c :
  c_state c = 0 → is_digit d = true → con_run e ([27; chr "["] ++ d :: ds) c = con_run e (d :: ds) (csi_start c).
Proof.
  intros Hs Hd. destruct (is_digit_value d Hd) as [_ Hb]. change (chr "0") with 48 in Hb.
  change (con_run e ([27; chr "["] ++ d :: ds) c)
    with (con_run e (d :: ds) (con_char e (chr "[") (con_char e 27 c).1).1).
  assert ((con_char e 27 c).1 = c <| c_state := 1 |>) as ->.
  { unfold con_char. rewrite Hs. reflexivity. }
  assert ((con_char e (chr "[") (c <| c_state := 1 |>)).1 = c <| c_state := 2 |>) as ->.
  { by destruct c. }
  change (con_run e ds (con_char e d (c <| c_state := 2 |>)).1 = con_run e ds (con_char e d (csi_start c)).1).
  f_equal. unfold con_char. simpl. unfold first_char. simpl. change (chr "?") with 63.
  destruct (Z.eqb_spec d 63); [lia|]. by destruct c.
Qed.
(** The final H, with parameters [y] and [x]. *)
Lemma csi_H_run e c y x l :
  c_state c = 3 → par c = y :: x :: l → 1 ≤ y < 4294967296 → 1 ≤ x < 4294967296 →
  (con_char e (chr "H") c).1 = gotoxy (x - 1) (y - 1) (c <| c_state := 0 |> <| par := y - 1 :: x - 1 :: l |>).
Proof.
  intros Hs Hp Hy Hx. unfold con_char. rewrite Hs. simpl. unfold param_char. simpl.
  assert (Ht : ∀ v, 1 ≤ v → truth v = true) by (intros v Hv; apply truth_true; lia).
  destruct c. simpl in *. subst. unfold csi_char. simpl. unfold dec_par, par_at. simpl. rewrite (Ht y) by lia. simpl.
  rewrite (Ht x) by lia. simpl. by rewrite !u32_small by lia.
Qed.

(** One number from the start of a sequence, the next after a semicolon. *)
Lemma first_par_run e y c :
  c_state c = 0 → 1 ≤ y < 2147483648 →
  con_run e ([27; chr "["] ++ decimal y) c = csi_start c <| par := y :: replicate 15 0 |>.
Proof.
  intros Hs Hy. destruct (decimal_spec y ltac:(lia)) as (_ & (Hvy & Hly & _) & Hdy). unfold value in Hvy.
  destruct Hdy as [|d ds Hd Hds]; [simpl in Hly; lia|]. rewrite csi_start_run by done.
  rewrite (digits_run e (d :: ds) (csi_start c) 0 0);
    [rewrite Hvy; by destruct c|done|done|simpl; lia|done|lia|by apply Forall_cons|lia].
Qed.
Lemma next_par_run e x p c :
  c_state c = 3 → npar c = 0 → par c = p :: replicate 15 0 → 1 ≤ x < 2147483648 →
  con_run e ([chr ";"] ++ decimal x) c = c <| par := p :: x :: replicate 14 0 |> <| npar := 1 |>.
Proof.
  intros Hs Hn Hp Hx. destruct (decimal_spec x ltac:(lia)) as (_ & (Hvx & Hlx & _) & Hdx). unfold value in Hvx.
  rewrite con_run_app. assert (con_run e [chr ";"] c = c <| npar := 1 |>) as ->.
  { destruct c. simpl in *. subst. reflexivity. }
  rewrite (digits_run e (decimal x) (c <| npar := 1 |>) 1 0);
    [|done|done|simpl; rewrite Hp; simpl; lia|simpl; by rewrite Hp|lia|done|lia].
  rewrite Hvx. generalize (decimal x). intros _. destruct c. simpl in *. by subst.
Qed.
Lemma goto_run e y x c :
  c_state c = 0 → 1 ≤ y < 2147483648 → 1 ≤ x < 2147483648 →
  con_run e (goto_text y x) c =
    gotoxy (x - 1) (y - 1) (c <| par := y - 1 :: x - 1 :: replicate 14 0 |> <| npar := 1 |> <| c_state := 0 |> <| ques := false |>).
Proof.
  intros Hs Hy Hx. unfold goto_text.
  rewrite (app_assoc [27; _] (decimal y)), con_run_app, first_par_run by done.
  rewrite (app_assoc [chr ";"] (decimal x)), con_run_app.
  set (c1 := csi_start c <| par := y :: replicate 15 0 |>).
  rewrite (next_par_run e x y c1) by done. set (c2 := c1 <| par := _ |> <| npar := _ |>).
  change (con_run e [chr "H"] c2) with (con_char e (chr "H") c2).1.
  rewrite (csi_H_run e c2 y x (replicate 14 0)) by (done || lia). unfold c2, c1. by destruct c.
Qed.

(** Cursor addressing.  The text that printk("\033[%d;%dH", y, x) prints
    puts the cursor of a well-formed console that is between two sequences on
    line [y] and column [x], counted from 1, and changes nothing the screen
    shows. *)
Theorem goto_text_correct (e y x : Z) (c : console)
    (Hok : con_ok c) (Hs : c_state c = 0) (Hy : 1 ≤ y ≤ video_num_lines c) (Hx : 1 ≤ x ≤ video_num_columns c) :
  let c' := con_run e (goto_text y x) c in
  con_ok c' ∧ c_state c' = 0 ∧ grid_of c' ≡ grid_of c <| g_x := x - 1 |> <| g_y := y - 1 |>.
Proof.
  pose proof (ok_cells c Hok). pose proof (ok_cols c Hok). pose proof (ok_start c Hok).
  assert (video_num_lines c ≤ cells c) by (unfold cells; nia).
  cbv zeta. split; [by apply con_run_safe|]. rewrite goto_run by (done || lia).
  set (c1 := c <| par := _ |> <| npar := _ |> <| c_state := _ |> <| ques := _ |>).
  assert (Hs1 : safe c c1).
  { apply same_screen_safe; [done|]. split; [done|]. split; [done|]. split; [done|]. split; [done|].
    repeat (apply Forall_cons; split; [lia|]). by apply Forall_nil. }
  assert (Hgo : gotoxy (x - 1) (y - 1) c1 = c1 <| c_x := x - 1 |> <| c_y := y - 1 |> <| c_pos := c_pos (gotoxy (x - 1) (y - 1) c1) |>).
  { unfold gotoxy. simpl. destruct (Z.ltb_spec (video_num_columns c) (x - 1)); [lia|].
    by destruct (Z.leb_spec (video_num_lines c) (y - 1)) as [|_]; [lia|]. }
  rewrite Hgo. by split.
Qed.
