(* ===== verification/Sched.v ===== *)
(** * kernel/sched.c

    The scheduler, the timer list and the floppy motor timers.  Tasks live in
    a heap indexed by the address of their page; [task] is the table of 64
    pointers.  [schedule] is the code up to [switch_to], which changes
    [current]; what runs between a switch and the resumption of the caller is
    in [Kernel]. *)

From stdpp Require Import base option list gmap strings.
From Stdlib Require Import ZArith.
From S2P Require Import Prelude Types.
Local Open Scope Z_scope.

Record timer := mk_timer { t_jiffies : Z; t_fn : Z; t_next : option nat }.
#[export] Instance eta_timer : Eta timer := fun t => mk_timer (t_jiffies t) (t_fn t) (t_next t).
Definition TIME_REQUESTS : nat := 64.

Record sched_state := mk_sched {
  init_task : Z;                          (* &(init_task.task) *)
  tasks : gmap Z task_struct;
  task : list Z;                          (* struct task_struct *task[NR_TASKS] *)
  current : Z;
  last_task_used_math : Z;
  jiffies : Z;
  startup_time : Z;
  wait_motor : list Z; mon_timer : list Z; moff_timer : list Z;   (* [4] each *)
  current_DOR : Z;
  selected : Z;                           (* of floppy.c *)
  dor_writes : list Z;                    (* what outb() sent to FD_DOR, latest first *)
  timer_list : list timer;                (* [TIME_REQUESTS] *)
  next_timer : option nat;
  beepcount : Z;                          (* of console.c *)
  last_pid : Z;                           (* of fork.c *)
  gdt : gmap Z desc_struct;
  idt : list desc_struct;                 (* [256] *)
  fpu : i387_struct;                      (* the registers of the coprocessor *)
  cr0_ts : bool                           (* the task-switched flag: the next use of the 387 traps *)
}.
#[export] Instance eta_sched : Eta sched_state := fun s =>
  mk_sched (init_task s) (tasks s) (task s) (current s) (last_task_used_math s) (jiffies s)
    (startup_time s) (wait_motor s) (mon_timer s) (moff_timer s) (current_DOR s) (selected s)
    (dor_writes s) (timer_list s) (next_timer s) (beepcount s) (last_pid s) (gdt s)
    (idt s) (fpu s) (cr0_ts s).

(** [*p], [p->f = v] and [task[i]]. *)
Definition task_at (p : Z) : M sched_state task_struct := s ← get; deref (tasks s !! p).
Definition upd_task (p : Z) (f : task_struct → task_struct) : M sched_state unit :=
  t ← task_at p; modify (λ s, s <| tasks ::= <[p := f t]> |>).
Definition task_slot (i : nat) : M sched_state Z := s ← get; deref (task s !! i).
Definition cur : M sched_state Z := gets current.
Definition cur_task : M sched_state task_struct := c ← cur; task_at c.
Definition upd_cur (f : task_struct → task_struct) : M sched_state unit := c ← cur; upd_task c f.

Definition _S (nr : Z) : Z := Z.shiftl 1 (nr - 1).
Definition _BLOCKABLE : Z := Z.lnot (Z.lor (_S SIGKILL) (_S SIGSTOP)).

(** [for(p = &LAST_TASK ; p > &FIRST_TASK ; --p)] *)
Definition for_tasks (f : Z → M sched_state unit) : M sched_state unit :=
  for_each (reverse (seq 1 (NR_TASKS - 1))) (λ i, p ← task_slot i; if p =? 0 then mret tt else f p).

(** The body of schedule()'s first loop. *)
Definition check_alarm (p : Z) : M sched_state unit :=
  s ← get;
  t ← task_at p;
  when (truth (alarm t) && (alarm t <? jiffies s))
    (upd_task p (λ t, t <| signal ::= λ x, Z.lor x (_S SIGALRM) |> <| alarm := 0 |>)) ;;
  t ← task_at p;
  when (truth (Z.land (signal t) (Z.lnot (Z.land _BLOCKABLE (blocked t))))
        && (state t =? TASK_INTERRUPTIBLE))
    (upd_task p (λ t, t <| state := TASK_RUNNING |>)).

(** [while (--i)]: the runnable task with the greatest counter. *)
Fixpoint pick_next (i : nat) (c : Z) (next : nat) : M sched_state (Z * nat) :=
  match i with
  | O => mret (c, next)
  | S i' =>
      p ← task_slot i;
      if p =? 0 then pick_next i' c next else
      t ← task_at p;
      if (state t =? TASK_RUNNING) && (c <? counter t)
      then pick_next i' (counter t) i
      else pick_next i' c next
  end.

Definition recharge (t : task_struct) : task_struct :=
  t <| counter := s32 (Z.shiftr (counter t) 1 + priority t) |>.

(** What a task finds when it runs again: the switch sets the task-switched
    flag, and the end of switch_to() clears it if the 387 holds its registers. *)
Definition switched_to (p : Z) (s : sched_state) : sched_state :=
  s <| current := p |> <| cr0_ts := negb (last_task_used_math s =? p) |>.

(** switch_to(n): nothing when task n is the current one. *)
Definition switch_to (n : nat) : M sched_state unit :=
  p ← task_slot n;
  c ← cur;
  when (negb (p =? c)) (modify (switched_to p)).

(** The scheduler proper, the [while (1)] loop. *)
Fixpoint sched_loop (fuel : nat) : M sched_state nat :=
  match fuel with
  | O => no_fuel
  | S fuel =>
      '(c, next) ← pick_next (NR_TASKS - 1) (-1) 0;
      if truth c then mret next else
      for_tasks (λ p, upd_task p recharge) ;;
      sched_loop fuel
  end.

(** Two rounds are enough: [SchedProofs.schedule_correct]. *)
Definition schedule : M sched_state unit :=
  for_tasks check_alarm ;;
  next ← sched_loop 2;
  switch_to next.

(** sleep_on() and interruptible_sleep_on() up to and after their call of
    schedule(); the queue [*p] is passed as a value. *)
Definition sleep_prepare (st : Z) : M sched_state Z :=
  s ← get;
  (if current s =? init_task s then panic "task[0] trying to sleep" else mret tt) ;;
  upd_cur (λ t, t <| state := st |>) ;;
  mret (current s).
Definition make_runnable (p : Z) : M sched_state unit :=
  when (truth p) (upd_task p (λ t, t <| state := 0 |>)).

Definition HZ_half : Z := HZ / 2.

(** Accesses to the arrays of the floppy timers. *)
Definition arr_get (f : sched_state → list Z) (i : Z) : M sched_state Z :=
  s ← get; deref (zlookup (f s) i).

(** ** The timer list *)

Definition timer_at (i : nat) : M sched_state timer := s ← get; deref (timer_list s !! i).
Definition upd_timer (i : nat) (f : timer → timer) : M sched_state unit :=
  t ← timer_at i; modify (λ s, s <| timer_list ::= <[i := f t]> |>).

(** [for (p = timer_list ; ... ) if (!p->fn) break;] *)
Fixpoint free_timer (l : list timer) (i : nat) : option nat :=
  match l with
  | [] => None
  | t :: l => if t_fn t =? 0 then Some i else free_timer l (S i)
  end.

(** The insertion loop of add_timer: exchange the new request with the next
    one while that one expires earlier. *)
Fixpoint sink_timer (fuel : nat) (p : nat) : M sched_state unit :=
  match fuel with
  | O => no_fuel
  | S fuel =>
      t ← timer_at p;
      match t_next t with
      | None => mret tt
      | Some n =>
          nx ← timer_at n;
          if t_jiffies nx <? t_jiffies t then
            upd_timer p (λ t, t <| t_jiffies := t_jiffies nx |> <| t_fn := t_fn nx |>) ;;
            upd_timer n (λ x, x <| t_jiffies := t_jiffies t - t_jiffies nx |> <| t_fn := t_fn t |>) ;;
            sink_timer fuel n
          else mret tt
      end
  end.

(** A timer without delay calls its function at once.  do_timer(), which calls
    the functions of the drivers, is in Syscall. *)
Section Timers.
Variable call_fn : Z → M sched_state unit.

Definition add_timer (jif : Z) (fn : Z) : M sched_state unit :=
  if fn =? 0 then mret tt else
  if jif <=? 0 then call_fn fn else
  s ← get;
  match free_timer (timer_list s) 0 with
  | None => panic "No more time requests free"
  | Some p =>
      upd_timer p (λ _, mk_timer jif fn (next_timer s)) ;;
      modify (λ s, s <| next_timer := Some p |>) ;;
      sink_timer (TIME_REQUESTS + 1) p
  end.

(** wake_up() on one of the motor queues *)
Definition wake_up_motor (i : Z) : M sched_state unit :=
  w ← arr_get wait_motor i;
  when (truth w) (make_runnable w ;; modify (λ s, s <| wait_motor ::= zinsert i 0 |>)).

Definition outb_dor (v : Z) : M sched_state unit := modify (λ s, s <| dor_writes ::= cons v |>).

Definition ticks_to_floppy_on (nr : Z) : M sched_state Z :=
  let mask := u8 (Z.shiftl 0x10 nr) in
  (if 3 <? nr then panic "floppy_on: nr>3" else mret tt) ;;
  modify (λ s, s <| moff_timer ::= zinsert nr 10000 |>) ;;
  s ← get;
  let mask := Z.lor mask (current_DOR s) in
  let mask := if negb (truth (selected s)) then Z.lor (Z.land mask 0xFC) nr else mask in
  when (negb (mask =? current_DOR s)) (
    outb_dor mask ;;
    mon ← arr_get mon_timer nr;
    (if has (Z.lxor mask (current_DOR s)) 0xf0
     then modify (λ s, s <| mon_timer ::= zinsert nr HZ_half |>)
     else when (mon <? 2) (modify (λ s, s <| mon_timer ::= zinsert nr 2 |>))) ;;
    modify (λ s, s <| current_DOR := mask |>)) ;;
  arr_get mon_timer nr.

Definition floppy_off (nr : Z) : M sched_state unit :=
  modify (λ s, s <| moff_timer ::= zinsert nr (3 * HZ) |>).

Definition do_floppy_timer : M sched_state unit :=
  for_each (seq 0 4) (λ k,
    let i := Z.of_nat k in
    let mask := u8 (Z.shiftl 0x10 i) in
    s ← get;
    if negb (has mask (current_DOR s)) then mret tt else
    mon ← arr_get mon_timer i;
    moff ← arr_get moff_timer i;
    if truth mon then
      modify (λ s, s <| mon_timer ::= zinsert i (mon - 1) |>) ;;
      when (mon - 1 =? 0) (wake_up_motor i)
    else if moff =? 0 then
      modify (λ s, s <| current_DOR ::= λ d, Z.land d (Z.lnot mask) |>) ;;
      s ← get;
      outb_dor (current_DOR s)
    else modify (λ s, s <| moff_timer ::= zinsert i (moff - 1) |>)).

End Timers.

(** ** Small system calls *)

Definition sys_alarm (seconds : Z) : M sched_state Z :=
  t ← cur_task;
  s ← get;
  let old := alarm t in
  let old := if truth old then Z.quot (s32 (old - jiffies s)) HZ else old in
  upd_cur (λ t, t <| alarm := if 0 <? seconds then s32 (jiffies s + HZ * seconds) else 0 |>) ;;
  mret old.

Definition sys_getpid : M sched_state Z := t ← cur_task; mret (pid t).
Definition sys_getppid : M sched_state Z := t ← cur_task; mret (father t).
Definition sys_getuid : M sched_state Z := t ← cur_task; mret (uid t).
Definition sys_geteuid : M sched_state Z := t ← cur_task; mret (euid t).
Definition sys_getgid : M sched_state Z := t ← cur_task; mret (gid t).
Definition sys_getegid : M sched_state Z := t ← cur_task; mret (egid t).

Definition sys_nice (increment : Z) : M sched_state Z :=
  t ← cur_task;
  when (0 <? s32 (priority t - increment))
    (upd_cur (λ t, t <| priority ::= λ p, s32 (p - increment) |>)) ;;
  mret 0.

(** set_tss_desc and set_ldt_desc: a 104-byte system segment. *)
Definition tssldt_desc (addr type : Z) : desc_struct :=
  mk_desc (Z.lor 104 (Z.shiftl (Z.land addr 0xffff) 16))
    (Z.lor (Z.land (Z.shiftr addr 16) 0xff)
       (Z.lor (Z.shiftl type 8) (Z.shiftl (Z.land (Z.shiftr addr 24) 0xff) 24))).
Definition set_tss_desc (n addr : Z) : M sched_state unit :=
  modify (λ s, s <| gdt ::= <[n := tssldt_desc addr 0x89]> |>).
Definition set_ldt_desc (n addr : Z) : M sched_state unit :=
  modify (λ s, s <| gdt ::= <[n := tssldt_desc addr 0x82]> |>).

(** Offsets of [tss] and [ldt] in struct task_struct, as laid out by gcc. *)
Definition TSS_OFFSET : Z := 744.
Definition LDT_OFFSET : Z := 720.

(** The body of sched_init()'s loop. *)
Definition clear_entry (i : nat) : M sched_state unit :=
  modify (λ s, s <| task ::= <[i := 0]> |>) ;;
  let p := 2 + FIRST_TSS_ENTRY + 2 * (Z.of_nat i - 1) in
  modify (λ s, s <| gdt ::= <[p := mk_desc 0 0]> |>) ;;
  modify (λ s, s <| gdt ::= <[p + 1 := mk_desc 0 0]> |>).

(** The task table and the descriptors in sched_init(); the rest of it is in
    Main. *)
Definition sched_tables : M sched_state unit :=
  s ← get;
  set_tss_desc FIRST_TSS_ENTRY (init_task s + TSS_OFFSET) ;;
  set_ldt_desc FIRST_LDT_ENTRY (init_task s + LDT_OFFSET) ;;
  for_each (seq 1 (NR_TASKS - 1)) clear_entry.

(** ** system.h: the gates of the interrupt descriptor table *)

(** The assembly routines a gate can lead to, and where the linker put them. *)
Inductive entry :=
  | ignore_int | divide_error | debug | nmi | int3 | overflow | bounds | invalid_op | device_not_available
  | double_fault | coprocessor_segment_overrun | invalid_TSS | segment_not_present | stack_segment
  | general_protection | page_fault | reserved | coprocessor_error | irq13 | parallel_interrupt
  | timer_interrupt | keyboard_interrupt | rs1_interrupt | rs2_interrupt | hd_interrupt_ | floppy_interrupt_
  | system_call_.
Class Linked := { entry_addr : entry → Z }.

(** The two words that _set_gate() stores. *)
Definition gate_desc (type dpl addr : Z) : desc_struct :=
  mk_desc (Z.lor (Z.land 0x00080000 0xffff0000) (Z.land addr 0xffff))
    (Z.lor (Z.land addr 0xffff0000) (Z.land (0x8000 + Z.shiftl dpl 13 + Z.shiftl type 8) 0xffff)).
Section Gates.
Context {L : Linked}.
Definition _set_gate (n : nat) (type dpl : Z) (e : entry) : M sched_state unit :=
  modify (λ s, s <| idt ::= <[n := gate_desc type dpl (entry_addr e)]> |>).
Definition set_intr_gate (n : nat) (e : entry) : M sched_state unit := _set_gate n 14 0 e.
Definition set_trap_gate (n : nat) (e : entry) : M sched_state unit := _set_gate n 15 0 e.
Definition set_system_gate (n : nat) (e : entry) : M sched_state unit := _set_gate n 15 3 e.
End Gates.

(** ** The coprocessor *)

(** What the instructions clts, fninit, fnsave and frstor do; fnsave
    initialises the 387 after it has stored its state. *)
Definition clts : M sched_state unit := modify (λ s, s <| cr0_ts := false |>).
Definition initial_387 (r : i387_struct) : i387_struct := mk_i387 0x037f 0 0xffff 0 0 0 0 (st_space r).
Definition fninit : M sched_state unit := modify (λ s, s <| fpu ::= initial_387 |>).
Definition fnsave (p : Z) : M sched_state unit :=
  s ← get;
  upd_task p (λ t, t <| tss ::= λ x, x <| i387 := fpu s |> |>) ;;
  fninit.
Definition frstor (p : Z) : M sched_state unit :=
  t ← task_at p; modify (λ s, s <| fpu := i387 (tss t) |>).

Definition math_state_restore : M sched_state unit :=
  s ← get;
  if last_task_used_math s =? current s then mret tt else
  when (truth (last_task_used_math s)) (fnsave (last_task_used_math s)) ;;
  modify (λ s, s <| last_task_used_math := current s |>) ;;
  t ← cur_task;
  if truth (used_math t) then frstor (current s)
  else fninit ;; upd_cur (λ t, t <| used_math := 1 |>).

(** INIT_TASK: [self] is [&init_task] and [pg_dir] the address of the page
    directory; base 0, limit 0x9ffff. *)
Definition INIT_TASK (self pg_dir : Z) : task_struct := {|
  state := 0; counter := 15; priority := 15; signal := 0;
  sigaction := replicate 32 (mk_sigaction 0 0 0 0);
  blocked := 0; exit_code := 0;
  start_code := 0; end_code := 0; end_data := 0; brk := 0; start_stack := 0;
  pid := 0; father := -1; pgrp := 0; session := 0; leader := 0;
  uid := 0; euid := 0; suid := 0; gid := 0; egid := 0; sgid := 0;
  alarm := 0; utime := 0; stime := 0; cutime := 0; cstime := 0; start_time := 0;
  used_math := 0; tty := -1; umask := 18 (* 0022 *);
  pwd := None; root := None; executable := None; close_on_exec := 0;
  filp := replicate NR_OPEN None;
  ldt := [mk_desc 0 0; mk_desc 0x9f 0xc0fa00; mk_desc 0x9f 0xc0f200];
  tss := {|
    back_link := 0; esp0 := 4096 + self; ss0 := 0x10; esp1 := 0; ss1 := 0; esp2 := 0; ss2 := 0;
    cr3 := pg_dir; eip := 0; eflags := 0; eax := 0; ecx := 0; edx := 0; ebx := 0;
    esp := 0; ebp := 0; esi := 0; edi := 0;
    es := 0x17; cs := 0x17; ss := 0x17; ds := 0x17; fs := 0x17; gs := 0x17;
    tss_ldt := LDT_SEL 0; trace_bitmap := 0x80000000;
    i387 := mk_i387 0 0 0 0 0 0 0 (replicate 20 0) |}
|}.

(** ** Running the accessors on a known table *)

Lemma upd_task_run p f s t :
  tasks s !! p = Some t → upd_task p f s = Ok tt (s <| tasks ::= <[p := f t]> |>).
Proof. intros Ht. unfold upd_task, task_at, get. mred. by rewrite Ht. Qed.
Lemma task_at_run p s t : tasks s !! p = Some t → task_at p s = Ok t s.
Proof. intros Ht. unfold task_at, get. mred. by rewrite Ht. Qed.
Lemma task_slot_run i s p : task s !! i = Some p → task_slot i s = Ok p s.
Proof. intros Hp. unfold task_slot, get. mred. by rewrite Hp. Qed.
Lemma cur_task_run s t : tasks s !! current s = Some t → cur_task s = Ok t s.
Proof. intros H. unfold cur_task, cur, gets. mred. by apply task_at_run. Qed.
