(* ===== verification/SchedProofs.v ===== *)
(** * Correctness of the scheduler and of the timer list *)

From stdpp Require Import base option list gmap strings.
From Stdlib Require Import ZArith Lia.
From S2P Require Import Prelude Types Sched.
Local Open Scope Z_scope.

(** ** The task table *)

(** Task table slots 1..63 point to distinct tasks, whose priorities and
    counters are in the range fork and the clock keep them in. *)
Definition slot_holds (s : sched_state) (i : nat) (p : Z) (t : task_struct) : Prop :=
  (1 ≤ i < NR_TASKS)%nat ∧ task s !! i = Some p ∧ p ≠ 0 ∧ tasks s !! p = Some t.

Record sched_wf (s : sched_state) : Prop := {
  wf_len : length (task s) = NR_TASKS;
  wf_distinct i j p : task s !! i = Some p → task s !! j = Some p → p ≠ 0 → i = j;
  wf_heap i p : task s !! i = Some p → p ≠ 0 → is_Some (tasks s !! p);
  wf_counter i p t : slot_holds s i p t →
    0 ≤ counter t ≤ 2 * priority t ∧ 0 < priority t < 2^29
}.

(** Applying [g] to the tasks at the pointers [ps]. *)
Definition map_tasks (g : task_struct → task_struct) (ps : list Z) (s : sched_state) : sched_state :=
  s <| tasks := map_imap (λ p t, Some (if decide (p ∈ ps) then g t else t)) (tasks s) |>.

Lemma map_tasks_lookup g ps s p :
  tasks (map_tasks g ps s) !! p = (λ t, if decide (p ∈ ps) then g t else t) <$> tasks s !! p.
Proof. unfold map_tasks; simpl. rewrite map_lookup_imap. by destruct (tasks s !! p). Qed.
Lemma map_tasks_nil g s : map_tasks g [] s = s.
Proof.
  destruct s. unfold map_tasks, set; simpl. f_equal. apply map_eq. intros p.
  rewrite map_lookup_imap. by destruct (_ !! p).
Qed.
Lemma map_tasks_snoc g ps p s t :
  p ∉ ps → tasks s !! p = Some t →
  map_tasks g ps s <| tasks ::= <[p := g t]> |> = map_tasks g (ps ++ [p]) s.
Proof.
  intros Hp Ht. unfold map_tasks, set; simpl. f_equal. apply map_eq. intros q.
  rewrite map_lookup_imap, lookup_insert, map_lookup_imap. case_decide as Hq; [subst q|].
  - rewrite Ht; simpl. rewrite decide_True; [done|]. apply elem_of_app. right. by apply list_elem_of_singleton.
  - destruct (tasks s !! q); simpl; [|done]. f_equal.
    destruct (decide (q ∈ ps)); [rewrite decide_True; [done|]|rewrite decide_False; [done|]].
    + apply elem_of_app. by left.
    + rewrite elem_of_app, list_elem_of_singleton. naive_solver.
Qed.

(** The live tasks, in the order of the loops: the last slot first. *)
Definition live (s : sched_state) (sl : list nat) : list Z :=
  filter (λ p, p ≠ 0) (omap (λ i, task s !! i) sl).

Lemma live_app s l k : live s (l ++ k) = live s l ++ live s k.
Proof. unfold live. by rewrite omap_app, filter_app. Qed.
Lemma elem_of_live s sl p : p ∈ live s sl ↔ p ≠ 0 ∧ ∃ i, i ∈ sl ∧ task s !! i = Some p.
Proof. unfold live. by rewrite list_elem_of_filter, list_elem_of_omap. Qed.

(** A loop over the table that updates each task it meets. *)
Lemma for_tasks_map (f : Z → M sched_state unit) (g : task_struct → task_struct) s :
  sched_wf s →
  (∀ p s' t, jiffies s' = jiffies s → tasks s' !! p = Some t →
     f p s' = Ok tt (s' <| tasks ::= <[p := g t]> |>)) →
  for_tasks f s = Ok tt (map_tasks g (live s (reverse (seq 1 (NR_TASKS - 1)))) s).
Proof.
  intros Hwf Hf. unfold for_tasks.
  cut (wp (for_each (reverse (seq 1 (NR_TASKS - 1)))
             (λ i, p ← task_slot i; if p =? 0 then mret tt else f p))
        (λ _ s', s' = map_tasks g (live s (reverse (seq 1 (NR_TASKS - 1)))) s) s).
  { rewrite wp_Ok. intros ([] & s' & -> & ->). done. }
  apply (wp_for_each _ _ (λ pre s', s' = map_tasks g (live s pre) s)).
  { by rewrite map_tasks_nil. }
  intros pre i rest s' Hl ->.
  assert (Hnd : NoDup (reverse (seq 1 (NR_TASKS - 1)))) by (rewrite reverse_Permutation; apply NoDup_seq).
  assert (Hi : i ∉ pre).
  { rewrite Hl in Hnd. apply NoDup_app in Hnd as (_ & Hnd & _). intros Hin.
    apply (Hnd i Hin). left. }
  assert (Hr : (i < NR_TASKS)%nat).
  { assert (i ∈ reverse (seq 1 (NR_TASKS - 1))) as Hin by (rewrite Hl, elem_of_app; right; left).
    rewrite elem_of_reverse, elem_of_seq in Hin. unfold NR_TASKS in *. lia. }
  destruct (lookup_lt_is_Some_2 (task s) i) as [p Hp]; [by rewrite (wf_len s Hwf)|].
  rewrite live_app. apply wp_bind. unfold wp at 1. rewrite (task_slot_run i _ p) by done.
  unfold live at 2. simpl. rewrite Hp; simpl.
  destruct (Z.eqb_spec p 0) as [->|Hnz].
  - apply wp_ret. by rewrite app_nil_r.
  - destruct (wf_heap s Hwf i p Hp Hnz) as [t Ht].
    assert (Hnot : p ∉ live s pre).
    { rewrite elem_of_live. intros (_ & j & Hj & Hjp). apply Hi.
      by rewrite (wf_distinct s Hwf i j p Hp Hjp Hnz). }
    unfold wp. rewrite (Hf p _ t).
    + rewrite filter_cons_True, filter_nil by done. by apply map_tasks_snoc.
    + done.
    + rewrite map_tasks_lookup, Ht; simpl. by rewrite decide_False.
Qed.

(** All live tasks. *)
Definition all_slots : list nat := reverse (seq 1 (NR_TASKS - 1)).
Definition map_live (g : task_struct → task_struct) (s : sched_state) : sched_state :=
  map_tasks g (live s all_slots) s.

Lemma slot_holds_live s i p t : slot_holds s i p t → p ∈ live s all_slots.
Proof.
  intros (Hi & Hp & Hnz & _). apply elem_of_live. split; [done|]. exists i. split; [|done].
  apply elem_of_reverse, elem_of_seq. unfold NR_TASKS in *. lia.
Qed.
Lemma slot_holds_map g s i p t :
  slot_holds (map_live g s) i p t ↔ ∃ t0, slot_holds s i p t0 ∧ t = g t0.
Proof.
  unfold slot_holds at 1. unfold map_live. rewrite map_tasks_lookup.
  change (task (map_tasks g (live s all_slots) s)) with (task s). split.
  - intros (Hi & Hp & Hnz & (t0 & Ht & ->)%fmap_Some). exists t0.
    assert (Hs : slot_holds s i p t0) by done. split; [done|].
    rewrite decide_True; [done|]. by apply slot_holds_live in Hs.
  - intros (t0 & Hs & ->). pose proof (slot_holds_live _ _ _ _ Hs) as Hl.
    destruct Hs as (Hi & Hp & Hnz & Ht). do 3 (split; [done|]). rewrite Ht; simpl. by rewrite decide_True.
Qed.

(** The effect of the first loop of schedule() on one task. *)
Definition alarm_step (j : Z) (t : task_struct) : task_struct :=
  let t1 := if truth (alarm t) && (alarm t <? j)
            then t <| signal ::= λ x, Z.lor x (_S SIGALRM) |> <| alarm := 0 |> else t in
  if truth (Z.land (signal t1) (Z.lnot (Z.land _BLOCKABLE (blocked t1))))
     && (state t1 =? TASK_INTERRUPTIBLE)
  then t1 <| state := TASK_RUNNING |> else t1.

Lemma set_tasks_id s p t : tasks s !! p = Some t → s <| tasks ::= <[p := t]> |> = s.
Proof. intros Ht. destruct s. unfold set; simpl in *. f_equal. by apply insert_id. Qed.
Lemma set_tasks_twice s p t t' :
  s <| tasks ::= <[p := t]> |> <| tasks ::= <[p := t']> |> = s <| tasks ::= <[p := t']> |>.
Proof. destruct s. unfold set; simpl. f_equal. apply insert_insert_eq. Qed.

Lemma check_alarm_run p s t :
  tasks s !! p = Some t →
  check_alarm p s = Ok tt (s <| tasks ::= <[p := alarm_step (jiffies s) t]> |>).
Proof.
  intros Ht. unfold check_alarm, alarm_step, get. mred.
  rewrite (task_at_run p s t Ht). cbn beta iota.
  destruct (truth (alarm t) && (alarm t <? jiffies s)); cbn beta iota.
  - rewrite (upd_task_run p _ s t Ht). cbn beta iota.
    set (t1 := t <| signal ::= λ x, Z.lor x (_S SIGALRM) |> <| alarm := 0 |>).
    assert (Ht1 : tasks (s <| tasks ::= <[p := t1]> |>) !! p = Some t1) by apply lookup_insert_eq.
    rewrite (task_at_run p _ t1 Ht1). cbn beta iota.
    destruct (_ && _); cbn beta iota; [|done].
    rewrite (upd_task_run p _ _ t1 Ht1). by rewrite set_tasks_twice.
  - rewrite (task_at_run p s t Ht). cbn beta iota.
    destruct (_ && _); cbn beta iota; [by rewrite (upd_task_run p _ s t Ht)|].
    by rewrite set_tasks_id.
Qed.

(** ** Picking the next task *)

Definition runnable (s : sched_state) (i : nat) (t : task_struct) : Prop :=
  ∃ p, slot_holds s i p t ∧ state t = TASK_RUNNING.

(** [(c', n)] is the greatest counter above [c] among slots 1..i and the last
    slot that has it. *)
Definition picked (s : sched_state) (i : nat) (c : Z) (next : nat) (c' : Z) (n : nat) : Prop :=
  (∀ j t, (j ≤ i)%nat → runnable s j t → counter t ≤ c') ∧ c ≤ c' ∧
  ((c' = c ∧ n = next) ∨
   (c < c' ∧ ∃ t, (n ≤ i)%nat ∧ runnable s n t ∧ counter t = c' ∧
      ∀ j t', (n < j ≤ i)%nat → runnable s j t' → counter t' < c')).

Lemma runnable_fun s i t t' : runnable s i t → runnable s i t' → t = t'.
Proof. intros (p & (_ & Hp & _ & Ht) & _) (p' & (_ & Hp' & _ & Ht') & _). naive_solver. Qed.

Lemma picked_skip s i c next c' n :
  (∀ t, runnable s (S i) t → counter t ≤ c) →
  picked s i c next c' n → picked s (S i) c next c' n.
Proof.
  intros Hi (Hmax & Hle & Hcase). split; [|split; [done|]].
  - intros j t Hj Hr. destruct (decide (j = S i)) as [->|]; [|apply (Hmax j); [lia|done]].
    specialize (Hi t Hr). lia.
  - destruct Hcase as [|(Hlt & t & Hn & Hr & Hc & Hlast)]; [by left|right].
    split; [done|]. exists t. split; [lia|]. do 2 (split; [done|]).
    intros j t' Hj Hr'. destruct (decide (j = S i)) as [->|]; [|apply (Hlast j); [lia|done]].
    specialize (Hi t' Hr'). lia.
Qed.
Lemma picked_take s i c next t c' n :
  runnable s (S i) t → c < counter t →
  picked s i (counter t) (S i) c' n → picked s (S i) c next c' n.
Proof.
  intros Ht Hc (Hmax & Hle & Hcase). split; [|split; [lia|]].
  - intros j t' Hj Hr. destruct (decide (j = S i)) as [->|]; [|apply (Hmax j); [lia|done]].
    by rewrite (runnable_fun s (S i) t' t).
  - right. split; [lia|]. destruct Hcase as [[-> ->]|(Hlt & t' & Hn & Hr & Hc' & Hlast)].
    + exists t. do 3 (split; [done|]). lia.
    + exists t'. split; [lia|]. do 2 (split; [done|]).
      intros j t'' Hj Hr''. destruct (decide (j = S i)) as [->|]; [|apply (Hlast j); [lia|done]].
      by rewrite (runnable_fun s (S i) t'' t).
Qed.

Lemma pick_next_spec s i c next :
  sched_wf s → (i < NR_TASKS)%nat →
  ∃ c' n, pick_next i c next s = Ok (c', n) s ∧ picked s i c next c' n.
Proof.
  intros Hwf. revert c next. induction i as [|i IH]; intros c next Hi.
  { exists c, next. split; [done|]. split; [|split; [lia|by left]].
    intros j t Hj (p & ((Hge & _) & _) & _). lia. }
  destruct (lookup_lt_is_Some_2 (task s) (S i)) as [p Hp]; [by rewrite (wf_len s Hwf)|].
  cbn [pick_next]. rewrite (bind_Ok _ _ _ _ _ (task_slot_run _ _ _ Hp)).
  assert (Hskip : (∀ t, runnable s (S i) t → counter t ≤ c) →
    ∃ c' n, pick_next i c next s = Ok (c', n) s ∧ picked s (S i) c next c' n).
  { intros H. destruct (IH c next ltac:(lia)) as (c' & n & Hrun & Hpk).
    exists c', n. split; [done|]. by apply picked_skip. }
  destruct (Z.eqb_spec p 0) as [->|Hnz].
  { apply Hskip. intros t (q & (_ & Hq & Hq0 & _) & _). naive_solver. }
  destruct (wf_heap s Hwf _ p Hp Hnz) as [t Ht].
  rewrite (bind_Ok _ _ _ _ _ (task_at_run _ _ _ Ht)).
  assert (Hslot : slot_holds s (S i) p t) by (split; [lia|done]).
  destruct (Z.eqb_spec (state t) TASK_RUNNING) as [Hst|Hst]; simpl.
  - assert (Hr : runnable s (S i) t) by (by exists p).
    destruct (Z.ltb_spec c (counter t)) as [Hc|Hc].
    + destruct (IH (counter t) (S i) ltac:(lia)) as (c' & n & Hrun & Hpk).
      exists c', n. split; [done|]. by eapply picked_take.
    + apply Hskip. intros t' Hr'. by rewrite (runnable_fun s (S i) t' t).
  - apply Hskip. intros t' (q & (_ & Hq & _ & Hq') & Hst'). naive_solver.
Qed.

(** ** Recharging *)
Lemma recharge_counter t :
  0 ≤ counter t ≤ 2 * priority t → 0 < priority t < 2^29 →
  0 < counter (recharge t) ≤ 2 * priority t ∧ counter (recharge t) = counter t / 2 + priority t.
Proof.
  intros Hc Hp. unfold recharge. cbn [counter]. 
  change (counter (t <| counter := s32 (Z.shiftr (counter t) 1 + priority t) |>))
    with (s32 (Z.shiftr (counter t) 1 + priority t)).
  rewrite Z.shiftr_div_pow2 by lia. change (2^1) with 2.
  pose proof (Z.div_mod (counter t) 2 ltac:(lia)). pose proof (Z.mod_pos_bound (counter t) 2 ltac:(lia)).
  rewrite s32_small by lia. lia.
Qed.

Lemma sched_wf_map g s :
  (∀ t, 0 ≤ counter t ≤ 2 * priority t → 0 < priority t < 2^29 →
     0 ≤ counter (g t) ≤ 2 * priority t ∧ priority (g t) = priority t) →
  sched_wf s → sched_wf (map_live g s).
Proof.
  intros Hg [Hlen Hdist Hheap Hcnt]. split; try done.
  - intros i p Hp Hnz. unfold map_live. rewrite map_tasks_lookup.
    destruct (Hheap i p Hp Hnz) as [t ->]. by eexists.
  - intros i p t (t0 & Hs & ->)%slot_holds_map. destruct (Hcnt i p t0 Hs) as [Hc Hp].
    destruct (Hg t0 Hc Hp) as [Hc' ->]. done.
Qed.

Lemma alarm_step_counter j t : counter (alarm_step j t) = counter t ∧ priority (alarm_step j t) = priority t.
Proof. unfold alarm_step. destruct (_ && _); destruct (_ && _); done. Qed.

Lemma sched_wf_alarm j s : sched_wf s → sched_wf (map_live (alarm_step j) s).
Proof. apply sched_wf_map. intros t Hc Hp. by destruct (alarm_step_counter j t) as [-> ->]. Qed.
Lemma sched_wf_recharge s : sched_wf s → sched_wf (map_live recharge s).
Proof.
  apply sched_wf_map. intros t Hc Hp. destruct (recharge_counter t Hc Hp) as [H _]. split; [lia|done].
Qed.

(** The task that is to run: the runnable one with the greatest counter (the
    last slot among equals), which is positive, or task 0 when none is. *)
Definition chosen (s : sched_state) (n : nat) : Prop :=
  (n = 0%nat ∧ ∀ j t, ¬ runnable s j t) ∨
  (∃ t, runnable s n t ∧ 0 < counter t ∧
     ∀ j t', runnable s j t' → counter t' ≤ counter t ∧ ((n < j)%nat → counter t' < counter t)).

Lemma picked_chosen s c n :
  sched_wf s → picked s (NR_TASKS - 1) (-1) 0 c n → c ≠ 0 → chosen s n.
Proof.
  intros Hwf (Hmax & Hle & Hcase) Hc.
  assert (Hb : ∀ j t, runnable s j t → (j ≤ NR_TASKS - 1)%nat).
  { intros j t (p & ((_ & Hj) & _) & _). lia. }
  destruct Hcase as [[-> ->]|(Hlt & t & Hn & Hr & Ht & Hlast)].
  - left. split; [done|]. intros j t Hr. specialize (Hmax j t (Hb j t Hr) Hr).
    destruct Hr as (p & Hs & _). pose proof (wf_counter s Hwf j p t Hs). lia.
  - right. exists t. split; [done|]. rewrite Ht. split; [lia|]. intros j t' Hr'. split.
    + apply (Hmax j); [by eapply Hb|done].
    + intros Hj. apply (Hlast j); [|done]. split; [done|by eapply Hb].
Qed.

(** The state after the scheduler loop. *)
Inductive recharged (s : sched_state) : sched_state → Prop :=
| rc_no : recharged s s
| rc_yes i t : runnable s i t → (∀ j t', runnable s j t' → counter t' = 0) →
    recharged s (map_live recharge s).

Lemma sched_loop_spec s :
  sched_wf s → ∃ n s', sched_loop 2 s = Ok n s' ∧ recharged s s' ∧ sched_wf s' ∧ chosen s' n ∧ (n < NR_TASKS)%nat.
Proof.
  intros Hwf. cbn [sched_loop].
  assert (Hlt : ∀ s c n, picked s (NR_TASKS - 1) (-1) 0 c n → (n < NR_TASKS)%nat).
  { intros s0 c n (_ & _ & [[_ ->]|(_ & t & Hn & _)]); unfold NR_TASKS in *; lia. }
  destruct (pick_next_spec s (NR_TASKS - 1) (-1) 0 Hwf) as (c & n & Hrun & Hpk); [unfold NR_TASKS; lia|].
  rewrite (bind_Ok _ _ _ _ _ Hrun). cbn beta iota.
  destruct (truth c) eqn:Hc.
  { exists n, s. split; [done|]. split; [apply rc_no|]. split; [done|]. split; [|by eapply Hlt].
    eapply picked_chosen; [done|done|]. by apply truth_true. }
  apply truth_false in Hc. subst c.
  rewrite (bind_Ok _ _ _ _ _ (for_tasks_map _ recharge s Hwf (λ p s' t _ H, upd_task_run p recharge s' t H))).
  fold all_slots. fold (map_live recharge s).
  pose proof (sched_wf_recharge s Hwf) as Hwf'.
  destruct (pick_next_spec (map_live recharge s) (NR_TASKS - 1) (-1) 0 Hwf') as (c' & n' & Hrun' & Hpk');
    [unfold NR_TASKS; lia|].
  rewrite (bind_Ok _ _ _ _ _ Hrun'). cbn beta iota.
  destruct Hpk as (Hmax & _ & [[? _]|(_ & t & Hn & Hr & Ht & _)]); [done|].
  assert (Hc' : 0 < c').
  { destruct Hpk' as (Hmax' & _ & _). pose proof Hr as (p & Hs & Hst).
    destruct (wf_counter s Hwf _ p t Hs) as [Hcb Hpb].
    destruct (recharge_counter t Hcb Hpb) as [Hpos _].
    assert (Hr' : runnable (map_live recharge s) n (recharge t)).
    { exists p. split; [|done]. apply slot_holds_map. by exists t. }
    specialize (Hmax' n _ Hn Hr'). lia. }
  destruct (truth c') eqn:Ht'; [|apply truth_false in Ht'; lia].
  exists n', (map_live recharge s). split; [done|]. split; [|split; [done|split; [|by eapply Hlt]]].
  - eapply rc_yes; [done|]. intros j t' Hr'.
    assert (Hj : counter t' ≤ 0).
    { apply (Hmax j); [|done]. destruct Hr' as (p & ((_ & Hj) & _) & _). lia. }
    destruct Hr' as (p & Hs & _). pose proof (wf_counter s Hwf j p t' Hs). lia.
  - eapply picked_chosen; [done|done|lia].
Qed.

