(* ===== verification/TimerProofs.v ===== *)
(** * The timer list of kernel/sched.c

    The list holds, in the order of expiry, the time of each request relative
    to the one before it. *)

From stdpp Require Import base option list gmap strings.
From Stdlib Require Import ZArith Lia.
From S2P Require Import Prelude Types Sched SchedProofs.
Local Open Scope Z_scope.

(** The slots from [o] on, following [t_next]. *)
Inductive chain (tl : list timer) : option nat → list nat → Prop :=
| chain_nil : chain tl None []
| chain_cons i t l : tl !! i = Some t → chain tl (t_next t) l → chain tl (Some i) (i :: l).

Definition entry (tl : list timer) (i : nat) : Z * Z :=
  match tl !! i with Some t => (t_jiffies t, t_fn t) | None => (0, 0) end.

(** [l] are the slots in use: exactly those with a function. *)
Record timers_wf (s : sched_state) (l : list nat) : Prop := {
  tw_len : length (timer_list s) = TIME_REQUESTS;
  tw_chain : chain (timer_list s) (next_timer s) l;
  tw_nodup : NoDup l;
  tw_used i t : timer_list s !! i = Some t → (t_fn t ≠ 0 ↔ i ∈ l)
}.
Definition timers (s : sched_state) (l : list nat) : list (Z * Z) := entry (timer_list s) <$> l.

(** Expiry times from relative ones. *)
Fixpoint expiry (now : Z) (l : list (Z * Z)) : list (Z * Z) :=
  match l with
  | [] => []
  | (d, fn) :: l => (now + d, fn) :: expiry (now + d) l
  end.
Definition span (l : list (Z * Z)) : Z := foldr (λ e z, e.1 + z) 0 l.

(** What the exchanges of add_timer amount to. *)
Fixpoint insert_delta (j fn : Z) (l : list (Z * Z)) : list (Z * Z) :=
  match l with
  | [] => [(j, fn)]
  | (d, g) :: l' => if d <? j then (d, g) :: insert_delta (j - d) fn l' else (j, fn) :: l
  end.

Lemma insert_delta_split j fn l :
  0 < j → ∃ pre post d, l = pre ++ post ∧ insert_delta j fn l = pre ++ (d, fn) :: post ∧
    span pre + d = j ∧ 0 < d ∧
    (∀ e, head post = Some e → d ≤ e.1).
Proof.
  revert j. induction l as [|[d g] l IH]; intros j Hj; simpl.
  - exists [], [], j. by repeat split.
  - destruct (Z.ltb_spec d j) as [Hd|Hd].
    + destruct (IH (j - d) ltac:(lia)) as (pre & post & e & -> & -> & Hs & He & Hh).
      exists ((d, g) :: pre), post, e. simpl. repeat split; try done. lia.
    + exists [], ((d, g) :: l), j. repeat split; try done. by intros e [= <-].
Qed.

Lemma expiry_app now l k : expiry now (l ++ k) = expiry now l ++ expiry (now + span l) k.
Proof.
  revert now. induction l as [|[d g] l IH]; intros now; simpl; [by rewrite Z.add_0_r|].
  rewrite IH. by rewrite Z.add_assoc.
Qed.
Lemma expiry_shift now d l : expiry (now + d) l = (λ e, (e.1 + d, e.2)) <$> expiry now l.
Proof.
  revert now. induction l as [|[e g] l IH]; intros now; simpl; [done|].
  f_equal; [f_equal; lia|]. rewrite <-IH. f_equal. lia.
Qed.

Lemma entry_insert_ne tl i j t : i ≠ j → entry (<[i := t]> tl) j = entry tl j.
Proof. intros Hne. unfold entry. by rewrite list_lookup_insert_ne. Qed.
Lemma entries_insert tl i t (l : list nat) : i ∉ l → entry (<[i := t]> tl) <$> l = entry tl <$> l.
Proof.
  intros Hi. apply list_fmap_ext. intros k j Hj. apply entry_insert_ne.
  intros ->. apply Hi. by eapply list_elem_of_lookup_2.
Qed.

(** Changing the entries of slots keeps the chain. *)
Definition same_links (tl tl' : list timer) : Prop :=
  ∀ i, t_next <$> tl' !! i = t_next <$> tl !! i.
Lemma chain_same_links tl tl' o l : same_links tl tl' → chain tl o l → chain tl' o l.
Proof.
  intros Hs. induction 1 as [|i t l Ht Hc IH]; [constructor|].
  pose proof (Hs i) as Hi. rewrite Ht in Hi; simpl in Hi.
  destruct (tl' !! i) as [t'|] eqn:Ht'; [|done]. injection Hi as Hi. econstructor; [done|]. by rewrite Hi.
Qed.
Lemma chain_insert_notin tl i t o l : i ∉ l → chain tl o l → chain (<[i := t]> tl) o l.
Proof.
  intros Hi Hc. induction Hc as [|j u l Hu Hc IH]; [constructor|].
  apply not_elem_of_cons in Hi as [Hne Hi]. econstructor; [by rewrite list_lookup_insert_ne|by apply IH].
Qed.

Lemma upd_timer_run i f s t :
  timer_list s !! i = Some t →
  upd_timer i f s = Ok tt (s <| timer_list ::= <[i := f t]> |>).
Proof. intros Ht. unfold upd_timer, timer_at, get. mred. by rewrite Ht. Qed.

(** The insertion loop. *)
Lemma sink_timer_spec l :
  ∀ fuel p s t, timer_list s !! p = Some t → chain (timer_list s) (t_next t) l → NoDup (p :: l) →
  (length l < fuel)%nat →
  ∃ tl', sink_timer fuel p s = Ok tt (s <| timer_list := tl' |>) ∧
    length tl' = length (timer_list s) ∧ same_links (timer_list s) tl' ∧
    entry tl' <$> p :: l = insert_delta (t_jiffies t) (t_fn t) (entry (timer_list s) <$> l) ∧
    (∀ i, i ∉ p :: l → tl' !! i = timer_list s !! i).
Proof.
  induction l as [|n l IH]; intros fuel p s t Ht Hc Hnd Hf; (destruct fuel as [|fuel]; [simpl in Hf; lia|]);
    inversion Hc as [Hn|n' u l' Hu Hc' Hn]; subst; cbn [sink_timer];
    rewrite (bind_Ok _ _ _ t s) by (unfold timer_at, get; mred; by rewrite Ht).
  - rewrite <-Hn. exists (timer_list s). split; [by destruct s|]. do 2 (split; [done|]). split; [|done].
    simpl. unfold entry. by rewrite Ht.
  - rewrite <-Hn. rewrite (bind_Ok _ _ _ u s) by (unfold timer_at, get; mred; by rewrite Hu).
    apply NoDup_cons in Hnd as [Hpn Hnd]. apply not_elem_of_cons in Hpn as [Hne Hpl].
    assert (Hent : entry (timer_list s) n = (t_jiffies u, t_fn u)) by (unfold entry; by rewrite Hu).
    cbn [fmap list_fmap insert_delta]. rewrite Hent. cbn beta iota.
    destruct (Z.ltb_spec (t_jiffies u) (t_jiffies t)) as [Hlt|Hge].
    2:{ exists (timer_list s). split; [by destruct s|]. do 2 (split; [done|]). split; [|done].
        unfold entry at 1. rewrite Ht. f_equal. by rewrite Hent. }
    rewrite (bind_Ok _ _ _ _ _ (upd_timer_run p _ s t Ht)).
    set (t1 := t <| t_jiffies := t_jiffies u |> <| t_fn := t_fn u |>).
    set (s1 := s <| timer_list ::= <[p := t1]> |>).
    assert (Hu1 : timer_list s1 !! n = Some u) by (unfold s1, set; simpl; by rewrite list_lookup_insert_ne).
    rewrite (bind_Ok _ _ _ _ _ (upd_timer_run n _ s1 u Hu1)).
    set (u1 := u <| t_jiffies := t_jiffies t - t_jiffies u |> <| t_fn := t_fn t |>).
    set (s2 := s1 <| timer_list ::= <[n := u1]> |>).
    assert (Hl2 : timer_list s2 = <[n := u1]> (<[p := t1]> (timer_list s))) by done.
    pose proof (lookup_lt_Some _ _ _ Hu) as Hln. pose proof (lookup_lt_Some _ _ _ Ht) as Hlp.
    pose proof Hnd as [Hnl _]%NoDup_cons.
    destruct (IH fuel n s2 u1) as (tl' & Hrun & Hlen & Hlink & Hents & Hrest).
    + rewrite Hl2. apply list_lookup_insert_eq. by rewrite length_insert.
    + rewrite Hl2. by do 2 (apply chain_insert_notin; [done|]).
    + done.
    + simpl in Hf. lia.
    + exists tl'. split; [|split; [|split; [|split]]].
      * rewrite Hrun. by destruct s.
      * by rewrite Hlen, Hl2, !length_insert.
      * intros i. rewrite (Hlink i), Hl2.
        destruct (decide (i = n)) as [->|]; [by rewrite list_lookup_insert_eq, Hu by (by rewrite length_insert)|].
        rewrite list_lookup_insert_ne by done.
        destruct (decide (i = p)) as [->|]; [by rewrite list_lookup_insert_eq, Ht|].
        by rewrite list_lookup_insert_ne.
      * cbn [fmap list_fmap] in Hents |- *. rewrite Hents. f_equal.
        -- unfold entry. rewrite (Hrest p) by (by apply not_elem_of_cons).
           rewrite Hl2, list_lookup_insert_ne, list_lookup_insert_eq by done. done.
        -- f_equal. rewrite Hl2. by rewrite !entries_insert.
      * intros i Hi. apply not_elem_of_cons in Hi as [Hip Hi]. rewrite Hrest by done.
        apply not_elem_of_cons in Hi as [Hin _]. rewrite Hl2. by rewrite !list_lookup_insert_ne.
Qed.

Lemma free_timer_spec tl k :
  match free_timer tl k with
  | Some i => (k ≤ i)%nat ∧ ∃ t, tl !! (i - k)%nat = Some t ∧ t_fn t = 0
  | None => ∀ i t, tl !! i = Some t → t_fn t ≠ 0
  end.
Proof.
  revert k. induction tl as [|t tl IH]; intros k; simpl; [done|].
  destruct (Z.eqb_spec (t_fn t) 0) as [H0|H0].
  - split; [done|]. exists t. by rewrite Nat.sub_diag.
  - specialize (IH (S k)). destruct (free_timer tl (S k)) as [i|].
    + destruct IH as (Hi & u & Hu & Hz). split; [lia|]. exists u. split; [|done].
      replace (i - k)%nat with (S (i - S k)) by lia. done.
    + intros [|i] u Hu; simplify_eq/=; [done|by eapply IH].
Qed.

Lemma insert_delta_fns j fn l :
  fn ≠ 0 → Forall (λ e, e.2 ≠ 0) l → Forall (λ e, e.2 ≠ 0) (insert_delta j fn l).
Proof.
  intros Hfn. revert j. induction l as [|[d g] l IH]; intros j Hl; simpl; [by repeat constructor|].
  apply Forall_cons in Hl as [Hg Hl]. destruct (d <? j); [constructor; [done|by apply IH]|].
  by repeat constructor.
Qed.
Lemma chain_bound tl o l : chain tl o l → ∀ i, i ∈ l → (i < length tl)%nat.
Proof.
  induction 1 as [|i t l Ht Hc IH]; intros j Hj; [by apply elem_of_nil in Hj|].
  apply elem_of_cons in Hj as [->|Hj]; [by eapply lookup_lt_Some|by apply IH].
Qed.

Lemma timers_length s l : timers_wf s l → (length l ≤ TIME_REQUESTS)%nat.
Proof.
  intros [Hlen Hch Hnd _]. rewrite <-(length_seq TIME_REQUESTS 0). apply submseteq_length, NoDup_submseteq; [done|].
  intros i Hi. apply elem_of_seq. pose proof (chain_bound _ _ _ Hch i Hi). lia.
Qed.
(** The request is inserted, or the table is full. *)
Lemma add_timer_spec call_fn s l j fn :
  timers_wf s l → fn ≠ 0 → 0 < j →
  match free_timer (timer_list s) 0 with
  | None => (TIME_REQUESTS ≤ length l)%nat ∧ add_timer call_fn j fn s = Panic "No more time requests free" s
  | Some p => ∃ s', add_timer call_fn j fn s = Ok tt s' ∧ timers_wf s' (p :: l) ∧
      timers s' (p :: l) = insert_delta j fn (timers s l)
  end.
Proof.
  intros Hwf Hfn Hj. pose proof (timers_length _ _ Hwf) as Hl. destruct Hwf as [Hlen Hch Hnd Hused]. unfold add_timer.
  destruct (Z.eqb_spec fn 0); [done|]. destruct (Z.leb_spec j 0); [lia|].
  unfold get. mred. pose proof (free_timer_spec (timer_list s) 0) as Hfree.
  destruct (free_timer (timer_list s) 0) as [p|].
  2:{ split; [|done].
      assert (Hsub : seq 0 TIME_REQUESTS ⊆+ l); [|apply submseteq_length in Hsub; by rewrite length_seq in Hsub].
      apply NoDup_submseteq; [apply NoDup_seq|]. intros i Hi%elem_of_seq.
      destruct (lookup_lt_is_Some_2 (timer_list s) i) as [t Ht]; [lia|].
      apply (Hused i t Ht). by eapply Hfree. }
  destruct Hfree as (_ & t & Ht & Ht0). rewrite Nat.sub_0_r in Ht.
  rewrite (upd_timer_run p _ s t Ht). unfold modify. cbn beta iota.
  set (t1 := mk_timer j fn (next_timer s)).
  set (s1 := s <| timer_list ::= <[p := t1]> |> <| next_timer := Some p |>).
  assert (Hpl : p ∉ l) by (intros Hin; by apply (Hused p t Ht) in Hin).
  pose proof (lookup_lt_Some _ _ _ Ht) as Hlp.
  assert (Ht1 : timer_list s1 !! p = Some t1) by (apply list_lookup_insert_eq; done).
  assert (Hch1 : chain (timer_list s1) (t_next t1) l) by (by apply chain_insert_notin).
  destruct (sink_timer_spec l (TIME_REQUESTS + 1) p s1 t1 Ht1 Hch1) as (tl' & Hrun & Hlen' & Hlink & Hents & Hrest);
    [by apply NoDup_cons|lia|].
  cbn [t_jiffies t_fn t1] in Hents.
  replace (entry (timer_list s1) <$> l) with (timers s l) in Hents
    by (symmetry; by apply entries_insert).
  exists (s1 <| timer_list := tl' |>). split; [done|]. split; [|exact Hents].
  split.
  + cbn [timer_list set]. change (length tl' = TIME_REQUESTS). rewrite Hlen'.
    change (length (<[p := t1]> (timer_list s)) = TIME_REQUESTS). by rewrite length_insert.
  + apply (chain_same_links _ _ _ _ Hlink). by econstructor.
  + by apply NoDup_cons.
  + intros i u Hu. change (tl' !! i = Some u) in Hu. destruct (decide (i ∈ p :: l)) as [Hin|Hnin].
    * split; [done|]. intros _.
      assert (Hall : Forall (λ e, e.2 ≠ 0) (entry tl' <$> p :: l)).
      { rewrite Hents. apply insert_delta_fns; [done|]. apply Forall_fmap, Forall_forall.
        intros k Hk. simpl. unfold entry. pose proof (chain_bound _ _ _ Hch k Hk) as Hkl.
        destruct (lookup_lt_is_Some_2 (timer_list s) k Hkl) as [v Hv]. rewrite Hv. simpl.
        by apply (Hused k v Hv). }
      rewrite Forall_fmap, Forall_forall in Hall. specialize (Hall i Hin). simpl in Hall.
      unfold entry in Hall. by rewrite Hu in Hall.
    * split; [|done]. intros Hu0. exfalso. rewrite Hrest in Hu by done.
      apply not_elem_of_cons in Hnin as [Hip Hnin].
      change (<[p := t1]> (timer_list s) !! i = Some u) in Hu.
      rewrite list_lookup_insert_ne in Hu by done. by apply Hnin, (Hused i u Hu).
Qed.

(** C39: [add_timer] with a free slot inserts the request so that it expires
    after exactly [j] ticks, after every request that expires earlier and
    before the others; the earlier requests keep their time, but every later
    one is put off by the distance [d] of the new request to its predecessor,
    which the code does not take out of its successor. *)
Theorem add_timer_correct call_fn s l j fn :
  timers_wf s l → fn ≠ 0 → 0 < j → (length l < TIME_REQUESTS)%nat →
  ∃ s' l' pre post d,
    add_timer call_fn j fn s = Ok tt s' ∧ timers_wf s' l' ∧
    timers s l = pre ++ post ∧
    expiry 0 (timers s l) = expiry 0 pre ++ expiry (span pre) post ∧
    expiry 0 (timers s' l') =
      expiry 0 pre ++ (j, fn) :: ((λ e, (e.1 + d, e.2)) <$> expiry (span pre) post) ∧
    0 < d ∧ span pre + d = j ∧ (∀ e, head (expiry (span pre) post) = Some e → j ≤ e.1).
Proof.
  intros Hwf Hfn Hj Hl. pose proof (add_timer_spec call_fn s l j fn Hwf Hfn Hj) as Hadd.
  destruct (free_timer (timer_list s) 0) as [p|]; [|lia]. destruct Hadd as (s' & Hrun & Hwf' & Hents).
  destruct (insert_delta_split j fn (timers s l) Hj) as (pre & post & d & Hsplit & Hins & Hspan & Hd & Hhead).
  exists s', (p :: l), pre, post, d. do 3 (split; [done|]). split; [|split; [|split; [done|split; [done|]]]].
  - by rewrite Hsplit, expiry_app, Z.add_0_l.
  - rewrite Hents, Hins, expiry_app, Z.add_0_l. f_equal. simpl. rewrite Hspan. f_equal.
    by rewrite <-Hspan, expiry_shift.
  - intros e He. destruct post as [|[d' g] post]; [discriminate He|]. cbn in He. injection He as <-.
    specialize (Hhead (d', g) eq_refl). simpl in Hhead. cbn [fst]. lia.
Qed.

(** ** The ticks

    do_timer() counts the first request down and takes those that are due off
    the list ([Syscall]); the functions it calls can add requests. *)

Lemma timers_wf_fields s s' l :
  timer_list s' = timer_list s → next_timer s' = next_timer s → timers_wf s l →
  timers_wf s' l ∧ timers s' l = timers s l.
Proof. intros Ht Hn [? ? ? ?]. unfold timers. rewrite Ht. split; [|done]. split; rewrite ?Ht, ?Hn; done. Qed.

(** Taking the first request off. *)
Lemma timers_wf_pop s i l t :
  timers_wf s (i :: l) → timer_list s !! i = Some t →
  let s1 := s <| timer_list ::= <[i := t <| t_fn := 0 |>]> |> <| next_timer := t_next t |> in
  timers_wf s1 l ∧ timers s1 l = timers s l.
Proof.
  intros [Hlen Hch Hnd Hu] Ht s1. apply NoDup_cons in Hnd as [Hi Hnd].
  assert (Htl : timer_list s1 = <[i := t <| t_fn := 0 |>]> (timer_list s)) by done.
  pose proof (lookup_lt_Some _ _ _ Ht) as Hlt.
  split; [|unfold timers; rewrite Htl; by apply entries_insert].
  split.
  - by rewrite Htl, length_insert.
  - rewrite Htl. apply chain_insert_notin; [done|]. change (next_timer s1) with (t_next t).
    inversion Hch as [|? t' ? Ht' Hc]; subst. by simplify_eq.
  - done.
  - intros j u Hj. rewrite Htl in Hj. destruct (decide (j = i)) as [->|Hne].
    + rewrite list_lookup_insert_eq in Hj by done. injection Hj as <-. simpl. naive_solver.
    + rewrite list_lookup_insert_ne in Hj by done. rewrite (Hu j u Hj), elem_of_cons. naive_solver.
Qed.

Lemma expiry_zeros l k : Forall (λ e, e.1 = 0) l → expiry 0 (l ++ k) = l ++ expiry 0 k.
Proof. induction 1 as [|[d f] l Hd _ IH]; [done|]. simpl in Hd. subst d. cbn [app expiry]. rewrite Z.add_0_l. by rewrite IH. Qed.
Lemma expiry_late now l :
  0 ≤ now → Forall (λ e, 0 ≤ e.1) l → (∀ e, head l = Some e → 0 < now + e.1) → Forall (λ e, 0 < e.1) (expiry now l).
Proof.
  revert now. induction l as [|[d f] l IH]; intros now Hn Hpos Hh; simpl; [constructor|].
  specialize (Hh _ eq_refl) as Hd. simpl in Hd. apply Forall_cons in Hpos as [H0 Hpos]. simpl in H0.
  constructor; [done|]. apply IH; [lia|done|]. intros e He. destruct l as [|e' l]; [done|].
  injection He as ->. apply Forall_cons in Hpos as [? _]. lia.
Qed.
Lemma expiry_fn_map now k l : (λ e, (e.1 + k, e.2)) <$> expiry now l = expiry (now + k) l.
Proof. by rewrite expiry_shift. Qed.

(** What the list looks like between ticks. *)
Definition pending (l : list (Z * Z)) : Prop :=
  Forall (λ e, 0 ≤ e.1) l ∧ (∀ e, head l = Some e → 0 < e.1).


(** [next_timer->jiffies--] *)
Definition count_down : M sched_state unit :=
  d ← get;
  match next_timer d with None => mret tt | Some n => upd_timer n (λ t, t <| t_jiffies ::= λ j, j - 1 |>) end.
(** The first request comes off the list. *)
Definition drop_timer : M sched_state unit :=
  d ← get;
  match next_timer d with
  | None => mret tt
  | Some n => t ← timer_at n; upd_timer n (λ t, t <| t_fn := 0 |>) ;; modify (λ d, d <| next_timer := t_next t |>)
  end.

Lemma timers_nil s l : timers_wf s l → timers s l = [] → next_timer s = None.
Proof.
  intros [_ Hch _ _] Hl. destruct Hch; [done|]. discriminate Hl.
Qed.
Lemma timers_cons s l e r :
  timers_wf s l → timers s l = e :: r →
  ∃ i l' t, l = i :: l' ∧ next_timer s = Some i ∧ timer_list s !! i = Some t ∧ e = (t_jiffies t, t_fn t) ∧ timers s l' = r.
Proof.
  intros [_ Hch _ _] Hl. destruct Hch as [|i t l' Ht Hch]; [done|].
  unfold timers in Hl. cbn [fmap list_fmap] in Hl. injection Hl as He Hr. exists i, l', t.
  split_and!; try done. unfold entry in He. by rewrite Ht in He.
Qed.

Lemma count_down_run s i l t :
  timers_wf s (i :: l) → timer_list s !! i = Some t → ∃ s1,
  count_down s = Ok tt s1 ∧ timers_wf s1 (i :: l) ∧ timers s1 (i :: l) = (t_jiffies t - 1, t_fn t) :: timers s l.
Proof.
  intros [Hlen Hch Hnd Hu] Ht. pose proof (lookup_lt_Some _ _ _ Ht) as Hlt.
  set (t1 := t <| t_jiffies ::= λ j, j - 1 |>). set (s1 := s <| timer_list ::= <[i := t1]> |>). exists s1.
  assert (Htl : timer_list s1 = <[i := t1]> (timer_list s)) by done.
  split; [|split].
  - unfold count_down, get. mred. inversion Hch as [|? t' ? Ht' Hc]; subst. by rewrite (upd_timer_run i _ s t Ht).
  - split; [by rewrite Htl, length_insert| |done|].
    + apply (chain_same_links (timer_list s)); [|done]. intros j. rewrite Htl.
      destruct (decide (j = i)) as [->|]; [by rewrite Ht, list_lookup_insert_eq|by rewrite list_lookup_insert_ne].
    + intros j u Hj. rewrite Htl in Hj. destruct (decide (j = i)) as [->|Hne].
      * rewrite list_lookup_insert_eq in Hj by done. injection Hj as <-. exact (Hu i t Ht).
      * rewrite list_lookup_insert_ne in Hj by done. by apply Hu.
  - unfold timers. cbn [fmap list_fmap]. rewrite Htl. apply NoDup_cons in Hnd as [Hi _].
    rewrite entries_insert by done. f_equal. unfold entry. by rewrite list_lookup_insert_eq.
Qed.

(** ** Requests that are added meanwhile *)

(** The requests [new] inserted one after the other. *)
Definition insert_all (l new : list (Z * Z)) : list (Z * Z) := foldl (λ l a, insert_delta a.1 a.2 l) l new.
Definition delayed (new : list (Z * Z)) : Prop := Forall (λ a, 0 < a.1) new.

Lemma insert_zeros j fn z l :
  0 < j → Forall (λ e, e.1 = 0) z → insert_delta j fn (z ++ l) = z ++ insert_delta j fn l.
Proof.
  intros Hj Hz. revert j Hj. induction Hz as [|[d g] z Hd _ IH]; intros j Hj; [done|]. simpl in Hd. subst d.
  simpl. destruct (Z.ltb_spec 0 j); [|lia]. by rewrite Z.sub_0_r, IH.
Qed.
Lemma insert_all_zeros z l new :
  delayed new → Forall (λ e, e.1 = 0) z → insert_all (z ++ l) new = z ++ insert_all l new.
Proof.
  intros Hn Hz. revert l. induction Hn as [|[j fn] new Hj _ IH]; intros l; [done|]. simpl in *.
  unfold insert_all in *. simpl. by rewrite insert_zeros, IH.
Qed.
Lemma insert_pending j fn l : 0 < j → pending l → pending (insert_delta j fn l).
Proof.
  intros Hj [Hpos Hh]. split.
  - clear Hh. revert j Hj. induction Hpos as [|[d g] l Hd Hl IH]; intros j Hj; simpl; [by repeat constructor; simpl; lia|].
    simpl in Hd. destruct (Z.ltb_spec d j); constructor; try done; try (simpl; lia); [apply IH; lia|by constructor].
  - destruct l as [|[d g] l]; simpl; [by intros e [= <-]|]. specialize (Hh _ eq_refl). simpl in Hh.
    destruct (d <? j); by intros e [= <-].
Qed.
Lemma insert_all_pending l new : delayed new → pending l → pending (insert_all l new).
Proof.
  intros Hn. revert l. induction Hn as [|[j fn] new Hj _ IH]; intros l Hl; [done|]. by apply IH, insert_pending.
Qed.

(** From [s] to [s'] requests with a delay may have been added, and nothing
    else has happened to the list. *)
Definition adds (s s' : sched_state) : Prop := ∀ l, timers_wf s l →
  ∃ l' new, timers_wf s' l' ∧ delayed new ∧ timers s' l' = insert_all (timers s l) new.
Lemma adds_same s s' : timer_list s' = timer_list s → next_timer s' = next_timer s → adds s s'.
Proof.
  intros Ht Hn l Hwf. destruct (timers_wf_fields s s' l Ht Hn Hwf) as [? Heq]. exists l, [].
  split; [done|]. split; [by constructor|done].
Qed.
#[export] Instance adds_preorder : PreOrder adds.
Proof.
  split; [intros s; by apply adds_same|]. intros s1 s2 s3 H1 H2 l Hwf.
  destruct (H1 l Hwf) as (l2 & new & Hwf2 & Hn & He). destruct (H2 l2 Hwf2) as (l3 & new' & Hwf3 & Hn' & He').
  exists l3, (new ++ new'). split; [done|]. split; [by apply Forall_app|]. rewrite He', He. unfold insert_all. by rewrite foldl_app.
Qed.
