(* ===== verification/Kernel.v ===== *)
(** * The whole kernel's state

    One record per component, the switch to other tasks, the sleep and wake-up
    primitives, and the user memory the fs segment gives access to. *)

From stdpp Require Import base option list gmap strings.
From Stdlib Require Import ZArith.
From S2P Require Import Prelude Types Memory Sched Screen.
Local Open Scope Z_scope.

Record buffer_state := mk_bufs {
  start_buffer : Z;                 (* &end *)
  buffers : list buffer_head;       (* start_buffer[NR_BUFFERS] *)
  hash_table : list (option nat);   (* [NR_HASH] *)
  free_list : option nat;
  buffer_wait : Z
}.
#[export] Instance eta_bufs : Eta buffer_state := fun s =>
  mk_bufs (start_buffer s) (buffers s) (hash_table s) (free_list s) (buffer_wait s).

Record fs_state := mk_fs {
  inode_table : list m_inode;       (* [NR_INODE] *)
  last_inode : nat;                 (* static in get_empty_inode() *)
  file_table : list file;           (* [NR_FILE] *)
  super_block : list super_block_struct;   (* [NR_SUPER] *)
  ROOT_DEV : Z
}.
#[export] Instance eta_fs : Eta fs_state := fun s =>
  mk_fs (inode_table s) (last_inode s) (file_table s) (super_block s) (ROOT_DEV s).

Record blk_state := mk_blk {
  request : list request_struct;    (* [NR_REQUEST] *)
  wait_for_request : Z;
  blk_dev : list blk_dev_struct;    (* [NR_BLK_DEV] *)
  rd_start : Z;
  rd_data : list Z;                 (* the bytes at rd_start, rd_length of them *)
  rd_length : Z;
  wait_on_floppy_select : Z
}.
#[export] Instance eta_blk : Eta blk_state := fun s =>
  mk_blk (request s) (wait_for_request s) (blk_dev s) (rd_start s) (rd_data s) (rd_length s) (wait_on_floppy_select s).

Record tty_state := mk_ttys {
  tty_table : list tty_struct;
  cr_flag : Z                       (* static in tty_write() *)
}.
#[export] Instance eta_ttys : Eta tty_state := fun s => mk_ttys (tty_table s) (cr_flag s).

Record kernel := mk_kernel {
  k_mm : mm;
  k_sched : sched_state;
  k_buf : buffer_state;
  k_blk : blk_state;
  k_fs : fs_state;
  k_tty : tty_state;
  k_con : console;                  (* console.c *)
  k_user : gmap Z Z;                (* the bytes of the current data segment *)
  switches : nat                    (* how often the caller was switched out *)
}.
#[export] Instance eta_kernel : Eta kernel := fun s =>
  mk_kernel (k_mm s) (k_sched s) (k_buf s) (k_blk s) (k_fs s) (k_tty s) (k_con s) (k_user s) (switches s).

(** What the models take as given: [others n] is the effect, between the
    [n]-th switch away from the caller and its resumption, of the other tasks
    and of the interrupts; [start_io] is the request function of a device,
    called when a first request is queued (the drivers are in Hd and Floppy);
    [patience] bounds how often a loop that waits for a lock or a free slot is
    woken in vain; [floppy_change] is the test of the disk-change line;
    [tty_out w n] is con_write() or rs_write() on terminal [n]; [inb] and
    [outb] are the i/o ports; [depth] bounds the nesting getblk -> sync_dev ->
    write_inode -> bread -> getblk. *)
Class Env := {
  others : nat → kernel → kernel;
  start_io : request_fn_ptr → kernel → kernel;
  floppy_change : Z → kernel → bool * kernel;
  tty_out : tty_write_ptr → nat → kernel → kernel;
  inb : Z → kernel → Z;
  outb : Z → Z → kernel → kernel;
  patience : nat;
  depth : nat
}.

(** A word of memory used as a wait queue. *)
Record cell := mk_cell { rd : kernel → Z; wr : Z → kernel → kernel }.

Section Kernel.
Context {E : Env}.

(** schedule() seen by the task that calls it. *)
Definition reschedule : M kernel unit :=
  s0 ← get;
  let me := current (k_sched s0) in
  zoom k_sched schedule ;;
  s ← get;
  if current (k_sched s) =? me then mret tt else
  modify (λ s, others (switches s) s <| switches := S (switches s) |>
                 <| k_sched ::= switched_to me |>).

Definition sleep_on (p : cell) : M kernel unit :=
  tmp ← gets (rd p);
  me ← zoom k_sched (sleep_prepare TASK_UNINTERRUPTIBLE);
  modify (wr p me) ;;
  reschedule ;;
  zoom k_sched (make_runnable tmp).

(** [repeat:] in interruptible_sleep_on() *)
Fixpoint interruptible_loop (fuel : nat) (p : cell) : M kernel unit :=
  match fuel with
  | O => no_fuel
  | S fuel =>
      zoom k_sched (upd_cur (λ t, t <| state := TASK_INTERRUPTIBLE |>)) ;;
      reschedule ;;
      q ← gets (rd p);
      s ← get;
      if truth q && negb (q =? current (k_sched s)) then
        zoom k_sched (make_runnable q) ;; interruptible_loop fuel p
      else mret tt
  end.
Definition interruptible_sleep_on (p : cell) : M kernel unit :=
  tmp ← gets (rd p);
  me ← zoom k_sched (sleep_prepare TASK_INTERRUPTIBLE);
  modify (wr p me) ;;
  interruptible_loop patience p ;;
  modify (wr p 0) ;;
  zoom k_sched (make_runnable tmp).

Definition wake_up (p : cell) : M kernel unit :=
  q ← gets (rd p);
  when (truth q) (zoom k_sched (make_runnable q) ;; modify (wr p 0)).

Definition sys_pause : M kernel Z :=
  zoom k_sched (upd_cur (λ t, t <| state := TASK_INTERRUPTIBLE |>)) ;;
  reschedule ;;
  mret 0.
End Kernel.

(** ** The current task *)
Definition me : M kernel task_struct := zoom k_sched cur_task.
Definition upd_me (f : task_struct → task_struct) : M kernel unit := zoom k_sched (upd_cur f).
Definition suser : M kernel bool := t ← me; mret (euid t =? 0).
Definition CURRENT_TIME : M kernel Z :=
  s ← get; mret (s32 (startup_time (k_sched s) + Z.quot (jiffies (k_sched s)) HZ)).

(** ** asm/segment.h: the user's data segment *)
Definition get_fs_byte (addr : Z) : M kernel Z := s ← get; mret (u8 (default 0 (k_user s !! addr))).
Definition put_fs_byte (val addr : Z) : M kernel unit :=
  modify (λ s, s <| k_user ::= <[addr := u8 val]> |>).
Definition get_fs_word (addr : Z) : M kernel Z :=
  lo ← get_fs_byte addr; hi ← get_fs_byte (addr + 1); mret (lo + 256 * hi).
Definition put_fs_word (val addr : Z) : M kernel unit :=
  put_fs_byte val addr ;; put_fs_byte (Z.shiftr val 8) (addr + 1).
Definition get_fs_long (addr : Z) : M kernel Z :=
  lo ← get_fs_word addr; hi ← get_fs_word (addr + 2); mret (lo + 65536 * hi).
Definition put_fs_long (val addr : Z) : M kernel unit :=
  put_fs_word val addr ;; put_fs_word (Z.shiftr val 16) (addr + 2).

(** verify_area: fork.c *)
Fixpoint verify_pages (n : nat) (start : Z) : M kernel unit :=
  match n with
  | O => mret tt
  | S n => zoom k_mm (write_verify start) ;; verify_pages n (u32 (start + 4096))
  end.
Definition verify_area (addr size : Z) : M kernel unit :=
  let start := u32 addr in
  let size := s32 (size + Z.land start 0xfff) in
  t ← me;
  d ← deref (ldt t !! 2%nat);
  let start := u32 (Z.land start 0xfffff000 + get_base d) in
  (* while (size>0) { size -= 4096; ... } *)
  verify_pages (Z.to_nat (Z.shiftr (size + 4095) 12)) start.

(** ** The static tables *)
Definition inode_at (i : nat) : M kernel m_inode := s ← get; deref (inode_table (k_fs s) !! i).
Definition upd_inode (i : nat) (f : m_inode → m_inode) : M kernel unit :=
  x ← inode_at i; modify (λ s, s <| k_fs ::= λ d, d <| inode_table ::= <[i := f x]> |> |>).
Definition file_at (i : nat) : M kernel file := s ← get; deref (file_table (k_fs s) !! i).
Definition upd_file (i : nat) (f : file → file) : M kernel unit :=
  x ← file_at i; modify (λ s, s <| k_fs ::= λ d, d <| file_table ::= <[i := f x]> |> |>).
Definition super_at (i : nat) : M kernel super_block_struct := s ← get; deref (super_block (k_fs s) !! i).
Definition upd_super (i : nat) (f : super_block_struct → super_block_struct) : M kernel unit :=
  x ← super_at i; modify (λ s, s <| k_fs ::= λ d, d <| super_block ::= <[i := f x]> |> |>).
Definition request_at (i : nat) : M kernel request_struct := s ← get; deref (request (k_blk s) !! i).
Definition upd_request (i : nat) (f : request_struct → request_struct) : M kernel unit :=
  x ← request_at i; modify (λ s, s <| k_blk ::= λ d, d <| request ::= <[i := f x]> |> |>).
Definition blk_dev_at (i : Z) : M kernel blk_dev_struct := s ← get; deref (zlookup (blk_dev (k_blk s)) i).
Definition upd_blk_dev (i : Z) (f : blk_dev_struct → blk_dev_struct) : M kernel unit :=
  x ← blk_dev_at i; modify (λ s, s <| k_blk ::= λ d, d <| blk_dev ::= zinsert i (f x) |> |>).
Definition tty_at (i : nat) : M kernel tty_struct := s ← get; deref (tty_table (k_tty s) !! i).
Definition upd_tty (i : nat) (f : tty_struct → tty_struct) : M kernel unit :=
  x ← tty_at i; modify (λ s, s <| k_tty ::= λ d, d <| tty_table ::= <[i := f x]> |> |>).

Definition bh_at (i : nat) : M buffer_state buffer_head := s ← get; deref (buffers s !! i).
Definition upd_bh (i : nat) (f : buffer_head → buffer_head) : M buffer_state unit :=
  x ← bh_at i; modify (λ s, s <| buffers ::= <[i := f x]> |>).
Definition bh (i : nat) : M kernel buffer_head := zoom k_buf (bh_at i).
Definition set_bh (i : nat) (f : buffer_head → buffer_head) : M kernel unit := zoom k_buf (upd_bh i f).

(** The wait queues of the tables. *)
Definition b_wait_of (i : nat) : cell := {|
  rd s := default 0 (b_wait <$> buffers (k_buf s) !! i);
  wr v s := s <| k_buf ::= λ d, d <| buffers ::= alter (λ b, b <| b_wait := v |>) i |> |>
|}.
Definition buffer_wait_q : cell := {|
  rd s := buffer_wait (k_buf s); wr v s := s <| k_buf ::= λ d, d <| buffer_wait := v |> |>
|}.
Definition i_wait_of (i : nat) : cell := {|
  rd s := default 0 (i_wait <$> inode_table (k_fs s) !! i);
  wr v s := s <| k_fs ::= λ d, d <| inode_table ::= alter (λ b, b <| i_wait := v |>) i |> |>
|}.
Definition s_wait_of (i : nat) : cell := {|
  rd s := default 0 (s_wait <$> super_block (k_fs s) !! i);
  wr v s := s <| k_fs ::= λ d, d <| super_block ::= alter (λ b, b <| s_wait := v |>) i |> |>
|}.
Definition wait_for_request_q : cell := {|
  rd s := wait_for_request (k_blk s); wr v s := s <| k_blk ::= λ d, d <| wait_for_request := v |> |>
|}.
Definition wait_on_floppy_select_q : cell := {|
  rd s := wait_on_floppy_select (k_blk s); wr v s := s <| k_blk ::= λ d, d <| wait_on_floppy_select := v |> |>
|}.
Definition wait_motor_of (i : Z) : cell := {|
  rd s := default 0 (zlookup (wait_motor (k_sched s)) i);
  wr v s := s <| k_sched ::= λ d, d <| wait_motor ::= zinsert i v |> |>
|}.
Definition waiting_of (i : nat) : cell := {|
  rd s := default 0 (r_waiting <$> request (k_blk s) !! i);
  wr v s := s <| k_blk ::= λ d, d <| request ::= alter (λ b, b <| r_waiting := v |>) i |> |>
|}.

(** [while (locked) sleep_on(q)] *)
Section Wait.
Context {E : Env}.
Fixpoint wait_loop (fuel : nat) (locked : M kernel bool) (q : cell) : M kernel unit :=
  match fuel with
  | O => no_fuel
  | S fuel => b ← locked; if b : bool then sleep_on q ;; wait_loop fuel locked q else mret tt
  end.
Definition wait_while (locked : M kernel bool) (q : cell) : M kernel unit :=
  wait_loop patience locked q.
End Wait.
