(* ===== verification/KernelFacts.v ===== *)
(** * Running the kernel's accessors

    Equations that evaluate the accessors of Kernel on a state of which the
    current task, or an entry of a table, is known. *)

From stdpp Require Import base option list gmap.
From Stdlib Require Import ZArith Lia.
From S2P Require Import Prelude Types Memory Sched Kernel.
Local Open Scope Z_scope.

(** [t] is the current task's structure. *)
Definition cur_is (s : kernel) (t : task_struct) : Prop :=
  tasks (k_sched s) !! current (k_sched s) = Some t.

(** The state after [*current = t]. *)
Definition set_me (t : task_struct) (s : kernel) : kernel :=
  s <| k_sched ::= λ d, d <| tasks ::= <[current d := t]> |> |>.

Lemma cur_is_set_me t s : cur_is (set_me t s) t.
Proof. unfold cur_is. simpl. apply lookup_insert_eq. Qed.
Lemma set_me_set_me t t' s : set_me t (set_me t' s) = set_me t s.
Proof.
  unfold set_me, set. destruct s as [? d ? ? ? ? ? ?]. simpl. f_equal.
  destruct d. simpl. f_equal. apply insert_insert_eq.
Qed.
Lemma set_me_id t s : cur_is s t → set_me t s = s.
Proof.
  unfold cur_is, set_me, set. destruct s as [? d ? ? ? ? ? ?]. simpl. destruct d. simpl.
  intros H. do 2 f_equal. by apply insert_id.
Qed.
#[export] Hint Resolve cur_is_set_me : kernel.
Hint Rewrite set_me_set_me : kernel.

Lemma kernel_sched_id s : s <| k_sched := k_sched s |> = s.
Proof. by destruct s. Qed.
Lemma kernel_mm_id s : s <| k_mm := k_mm s |> = s.
Proof. by destruct s. Qed.
Lemma kernel_buf_id s : s <| k_buf := k_buf s |> = s.
Proof. by destruct s. Qed.

Lemma me_run s t : cur_is s t → me s = Ok t s.
Proof.
  intros H. unfold me, zoom. rewrite (cur_task_run _ _ H). by rewrite kernel_sched_id.
Qed.
Lemma upd_me_run s f t : cur_is s t → upd_me f s = Ok tt (set_me (f t) s).
Proof.
  intros H. unfold upd_me, zoom, upd_cur, cur, gets. mred. by rewrite (upd_task_run _ _ _ _ H).
Qed.
Lemma suser_run s t : cur_is s t → suser s = Ok (euid t =? 0) s.
Proof. intros H. unfold suser. by rewrite (bind_Ok _ _ _ _ _ (me_run _ _ H)). Qed.

(** [run_me]: evaluate the next accessor of the current task. *)
Ltac cur_is_tac := first [eassumption | apply cur_is_set_me].
Ltac run_me :=
  lazymatch goal with
  | |- context [(me ≫= _) ?s] =>
      erewrite (bind_Ok me _ s _ _) by (apply me_run; cur_is_tac)
  | |- context [(upd_me _ ≫= _) ?s] =>
      erewrite (bind_Ok (upd_me _) _ s _ _) by (apply upd_me_run; cur_is_tac)
  | |- context [(suser ≫= _) ?s] =>
      erewrite (bind_Ok suser _ s _ _) by (apply suser_run; cur_is_tac)
  | |- context [(mret _ ≫= _) ?s] => rewrite bind_ret_l
  end; cbv beta.

Lemma inode_at_run s i x : inode_table (k_fs s) !! i = Some x → inode_at i s = Ok x s.
Proof. intros H. unfold inode_at, deref. mred. unfold get. by rewrite H. Qed.
Lemma file_at_run s i x : file_table (k_fs s) !! i = Some x → file_at i s = Ok x s.
Proof. intros H. unfold file_at, deref. mred. unfold get. by rewrite H. Qed.
Lemma upd_file_run s i f x :
  file_table (k_fs s) !! i = Some x →
  upd_file i f s = Ok tt (s <| k_fs ::= λ d, d <| file_table ::= <[i := f x]> |> |>).
Proof. intros H. unfold upd_file. by rewrite (bind_Ok _ _ _ _ _ (file_at_run _ _ _ H)). Qed.
Lemma upd_inode_run s i f x :
  inode_table (k_fs s) !! i = Some x →
  upd_inode i f s = Ok tt (s <| k_fs ::= λ d, d <| inode_table ::= <[i := f x]> |> |>).
Proof. intros H. unfold upd_inode. by rewrite (bind_Ok _ _ _ _ _ (inode_at_run _ _ _ H)). Qed.
