(* ===== verification/LinkFacts.v ===== *)
(** * Doubly linked lists

    The lists that the kernel threads through its structures, as relations
    between the successor and predecessor fields of the nodes and the list of
    nodes: null-terminated chains and circular rings. *)

From stdpp Require Import base option list fin_maps.
From Stdlib Require Import Lia.

Section Links.
Context {N : Type} `{EqDecision N}.
Implicit Types (nx pv : N → option N) (l k : list N) (a b c : N).

(** Consecutive nodes point at each other. *)
Fixpoint linked nx pv l : Prop :=
  match l with
  | a :: ((c :: _) as l') => nx a = Some c ∧ pv c = Some a ∧ linked nx pv l'
  | _ => True
  end.
(** A chain from its first node to its last. *)
Definition chain nx pv l : Prop :=
  linked nx pv l ∧ (∀ a, head l = Some a → pv a = None) ∧ (∀ a, last l = Some a → nx a = None).
(** A ring, from any of its nodes round to it again. *)
Definition ring nx pv l : Prop :=
  match l with [] => True | a :: _ => linked nx pv (l ++ [a]) end.

Lemma linked_app nx pv l k :
  linked nx pv (l ++ k) ↔
    linked nx pv l ∧ linked nx pv k ∧
    (∀ a c, last l = Some a → head k = Some c → nx a = Some c ∧ pv c = Some a).
Proof.
  induction l as [|a [|b l] IH]; simpl.
  - naive_solver.
  - destruct k as [|c k]; simpl; naive_solver.
  - simpl in IH. rewrite IH. change (last (a :: b :: l)) with (last (b :: l)). tauto.
Qed.
Lemma linked_ext nx pv nx' pv' l :
  (∀ a, a ∈ l → nx' a = nx a) → (∀ a, a ∈ l → pv' a = pv a) → linked nx pv l → linked nx' pv' l.
Proof.
  intros Hn Hp. induction l as [|a [|c l] IH]; simpl; [done..|]. intros (H1 & H2 & H3).
  split; [|split]; [rewrite Hn by set_solver; done|rewrite Hp by set_solver; done|].
  apply IH; [intros; apply Hn; by right|intros; apply Hp; by right|done].
Qed.
(** The last node's successor and the first one's predecessor do not count. *)
Lemma linked_ext_inner nx pv nx' pv' l :
  (∀ i a, l !! i = Some a → S i < length l → nx' a = nx a) →
  (∀ i a, l !! S i = Some a → pv' a = pv a) → linked nx pv l → linked nx' pv' l.
Proof.
  induction l as [|a [|c l] IH]; simpl; [done..|]. intros Hn Hp (H1 & H2 & H3).
  split; [|split]; [rewrite (Hn 0 a); [done..|lia]|by rewrite (Hp 0 c)|].
  apply IH; [|intros i b Hb; by apply (Hp (S i))|done].
  intros i b Hb Hi. apply (Hn (S i)); [done|simpl in *; lia].
Qed.

Lemma linked_intro nx pv l :
  (∀ i a c, l !! i = Some a → l !! S i = Some c → nx a = Some c ∧ pv c = Some a) → linked nx pv l.
Proof.
  induction l as [|a [|c l] IH]; simpl; [done..|]. intros H.
  destruct (H 0 a c) as [? ?]; [done..|]. split; [done|]. split; [done|].
  apply IH. intros i x y. apply (H (S i)).
Qed.

Lemma ring_rotate nx pv l k : ring nx pv (l ++ k) → ring nx pv (k ++ l).
Proof.
  destruct l as [|a l]; [by rewrite app_nil_r|]. destruct k as [|c k]; [by rewrite app_nil_r|].
  change (linked nx pv (((a :: l) ++ (c :: k)) ++ [a]) → linked nx pv (((c :: k) ++ (a :: l)) ++ [c])).
  rewrite <-!app_assoc, !linked_app. intros (H1 & (H2 & _ & H3) & H4).
  split; [done|]. split.
  - split; [done|]. split; [done|]. intros x y Hx Hy. apply H4; [done|]. by simplify_eq/=.
  - intros x y Hx Hy. apply H3; [done|]. by destruct l.
Qed.

Lemma linked_last_head nx pv l k a c :
  linked nx pv (l ++ k) → last l = Some a → head k = Some c → nx a = Some c ∧ pv c = Some a.
Proof. intros (_ & _ & H)%linked_app. apply H. Qed.

(** ** Chains *)

Lemma chain_nil nx pv : chain nx pv [].
Proof. by split. Qed.
Lemma chain_ext nx pv nx' pv' l :
  (∀ a, a ∈ l → nx' a = nx a) → (∀ a, a ∈ l → pv' a = pv a) → chain nx pv l → chain nx' pv' l.
Proof.
  intros Hn Hp (Hl & Hh & Ht). split; [by eapply linked_ext|]. split; intros a Ha.
  - rewrite Hp; [by apply Hh|]. by apply head_Some_elem_of.
  - rewrite Hn; [by apply Ht|]. by apply last_Some_elem_of.
Qed.
Lemma chain_cut nx pv l a k :
  chain nx pv (l ++ a :: k) →
  linked nx pv (l ++ [a]) ∧ linked nx pv (a :: k) ∧ pv a = last l ∧ nx a = head k.
Proof.
  intros (Hl & Hh & Ht). rewrite linked_app in Hl. destruct Hl as (H1 & H2 & H3).
  split; [|split; [done|]].
  { rewrite linked_app. split; [done|]. split; [done|]. intros x y Hx [= <-]. by apply H3. }
  split.
  - destruct (last l) as [x|] eqn:Hx; [by apply (H3 x a)|]. apply last_None in Hx as ->. by apply Hh.
  - destruct k as [|c k]; [|by destruct H2]. apply Ht. by rewrite last_snoc.
Qed.

(** Following the successors. *)
Lemma chain_next nx pv l i a : chain nx pv l → l !! i = Some a → nx a = l !! S i.
Proof.
  intros Hc Hi. rewrite <-(take_drop_middle _ _ _ Hi) in Hc.
  apply chain_cut in Hc as (_ & _ & _ & ->). by rewrite head_lookup, lookup_drop, Nat.add_0_r.
Qed.

Lemma chain_remove nx pv nx' pv' l a k :
  NoDup (l ++ a :: k) → chain nx pv (l ++ a :: k) →
  (∀ b, b ∈ l ++ k → nx' b = if decide (last l = Some b) then nx a else nx b) →
  (∀ b, b ∈ l ++ k → pv' b = if decide (head k = Some b) then pv a else pv b) →
  chain nx' pv' (l ++ k).
Proof.
  intros Hd Hc Hn Hp. pose proof Hc as (Hl & Hh & Ht).
  destruct (chain_cut _ _ _ _ _ Hc) as (H1 & H2 & Hpa & Hna).
  rewrite linked_app in H1. destruct H1 as (H1 & _). assert (H2' : linked nx pv k) by by destruct k; [|apply H2].
  apply NoDup_app in Hd as (Hdl & Hlk & Hdk). apply NoDup_cons in Hdk as [Hak Hdk].
  split; [apply linked_app; split; [|split]|].
  - eapply linked_ext_inner, H1; intros i b Hb; [intros Hi; rewrite Hn|rewrite Hp];
      try (apply elem_of_app; left; by eapply list_elem_of_lookup_2).
    + rewrite decide_False; [done|]. rewrite last_lookup. intros Hb'.
      pose proof (NoDup_lookup _ _ _ _ Hdl Hb Hb'). lia.
    + rewrite decide_False; [done|]. intros Hb'%head_Some_elem_of.
      apply (Hlk b); [by eapply list_elem_of_lookup_2|by right].
  - eapply linked_ext_inner, H2'; intros i b Hb; [intros Hi; rewrite Hn|rewrite Hp];
      try (apply elem_of_app; right; by eapply list_elem_of_lookup_2).
    + rewrite decide_False; [done|]. intros Hb'%last_Some_elem_of.
      apply (Hlk b); [done|right; by eapply list_elem_of_lookup_2].
    + rewrite decide_False; [done|]. rewrite head_lookup. intros Hb'.
      by pose proof (NoDup_lookup _ _ _ _ Hdk Hb Hb').
  - intros b c Hb Hcc. rewrite Hn, Hp by (apply elem_of_app; [left; by apply last_Some_elem_of|right; by apply head_Some_elem_of] || apply elem_of_app; auto using last_Some_elem_of, head_Some_elem_of).
    rewrite !decide_True by done. by rewrite Hna, Hpa.
  - split; intros b Hb.
    + rewrite Hp by by apply head_Some_elem_of. destruct l as [|x l]; simpl in *.
      * by rewrite decide_True by done.
      * injection Hb as ->. rewrite decide_False; [by apply Hh|]. intros Hb'%head_Some_elem_of.
        apply (Hlk b); [left|by right].
    + rewrite Hn by by apply last_Some_elem_of. destruct (last k) as [y|] eqn:Hy.
      * rewrite last_app, Hy in Hb. simplify_eq. rewrite decide_False.
        { apply Ht. rewrite last_app, last_cons, Hy. done. }
        intros Hb'%last_Some_elem_of. apply (Hlk b); [done|right; by apply last_Some_elem_of].
      * apply last_None in Hy as ->. rewrite app_nil_r in Hb. by rewrite decide_True by done.
Qed.
Lemma chain_push nx pv nx' pv' a l :
  a ∉ l → chain nx pv l → nx' a = head l → pv' a = None →
  (∀ b, b ∈ l → nx' b = nx b) →
  (∀ b, b ∈ l → pv' b = if decide (head l = Some b) then Some a else pv b) →
  NoDup l → chain nx' pv' (a :: l).
Proof.
  intros Ha (Hl & Hh & Ht) Hna Hpa Hn Hp Hd. split; [|split].
  - destruct l as [|c l]; [done|]. split; [done|]. split; [rewrite Hp by left; by rewrite decide_True|].
    eapply linked_ext_inner, Hl; intros i b Hb; [intros _; apply Hn; by eapply list_elem_of_lookup_2|].
    rewrite Hp by by eapply list_elem_of_lookup_2. rewrite decide_False; [done|]. intros Hb'.
    by pose proof (NoDup_lookup _ _ 0 _ Hd Hb Hb').
  - by intros b [= <-].
  - intros b. rewrite last_cons. destruct (last l) as [y|] eqn:Hy; intros [= <-].
    + rewrite Hn by by apply last_Some_elem_of. by apply Ht.
    + rewrite Hna. by apply last_None in Hy as ->.
Qed.

(** ** Rings *)

Lemma ring_ext nx pv nx' pv' l :
  (∀ a, a ∈ l → nx' a = nx a) → (∀ a, a ∈ l → pv' a = pv a) → ring nx pv l → ring nx' pv' l.
Proof.
  destruct l as [|a l]; [done|]. intros Hn Hp. apply linked_ext.
  - intros b Hb. apply Hn. rewrite elem_of_app, list_elem_of_singleton in Hb. destruct Hb as [?| ->]; [done|left].
  - intros b Hb. apply Hp. rewrite elem_of_app, list_elem_of_singleton in Hb. destruct Hb as [?| ->]; [done|left].
Qed.
(** In a ring of at least two, the neighbours of the last node. *)
Lemma ring_snoc nx pv c l p a :
  head l = Some c → last l = Some p → ring nx pv (l ++ [a]) →
  linked nx pv l ∧ nx p = Some a ∧ pv a = Some p ∧ nx a = Some c ∧ pv c = Some a.
Proof.
  intros Hc Hp. destruct l as [|x l]; simplify_eq/=.
  change (linked nx pv (((c :: l) ++ [a]) ++ [c]) → linked nx pv (c :: l) ∧
    nx p = Some a ∧ pv a = Some p ∧ nx a = Some c ∧ pv c = Some a).
  rewrite linked_app, (linked_app _ _ (c :: l)). intros ((H1 & _ & H2) & _ & H3).
  destruct (H2 p a Hp eq_refl), (H3 a c) as [? ?]; [apply last_snoc|done|]. done.
Qed.
Lemma ring_snoc_intro nx pv c l p a :
  head l = Some c → last l = Some p → linked nx pv l →
  nx p = Some a → pv a = Some p → nx a = Some c → pv c = Some a → ring nx pv (l ++ [a]).
Proof.
  intros Hc Hp Hl H1 H2 H3 H4. destruct l as [|x l]; simplify_eq/=.
  change (linked nx pv (((c :: l) ++ [a]) ++ [c])). rewrite linked_app, (linked_app _ _ (c :: l)). split_and!; try done.
  - by intros ? ? ? [= <-]; simplify_eq.
  - intros b d. rewrite last_snoc. by intros [= <-] [= <-].
Qed.
Lemma ring_linked nx pv c l p :
  head l = Some c → last l = Some p → ring nx pv l ↔ linked nx pv l ∧ nx p = Some c ∧ pv c = Some p.
Proof.
  intros Hc Hp. destruct l as [|x l]; simplify_eq/=. change (linked nx pv ((c :: l) ++ [c]) ↔
    linked nx pv (c :: l) ∧ nx p = Some c ∧ pv c = Some p). rewrite linked_app. split.
  - intros (H1 & _ & H2). split; [done|]. by apply H2.
  - intros (H1 & H2 & H3). split; [done|]. split; [done|]. by intros ? ? ? [= <-]; simplify_eq.
Qed.

Lemma ring_next nx pv l a c k : ring nx pv (l ++ a :: c :: k) → nx a = Some c.
Proof.
  intros Hr. destruct l as [|x l].
  - by destruct Hr.
  - change (linked nx pv (((x :: l) ++ a :: c :: k) ++ [x])) in Hr.
    rewrite linked_app in Hr. destruct Hr as (Hr & _). rewrite linked_app in Hr. by destruct Hr as (_ & [Hr _] & _).
Qed.

(** Inserting before the first node, which is at the end of the ring. *)
Lemma ring_insert nx pv nx' pv' c l p a :
  NoDup l → a ∉ l → head l = Some c → last l = Some p → ring nx pv l →
  nx' a = Some c → pv' a = Some p →
  (∀ b, b ∈ l → nx' b = if decide (b = p) then Some a else nx b) →
  (∀ b, b ∈ l → pv' b = if decide (b = c) then Some a else pv b) →
  pv c = Some p ∧ ring nx' pv' (l ++ [a]).
Proof.
  intros Hd Ha Hc Hp Hr Hna Hpa Hn Hv. apply (ring_linked _ _ c l p Hc Hp) in Hr as (Hl & _ & Hpc).
  split; [done|]. apply (ring_snoc_intro _ _ c l p a); try done.
  - eapply linked_ext_inner, Hl; intros i b Hb; [intros Hi; rewrite Hn|rewrite Hv];
      try (by eapply list_elem_of_lookup_2); rewrite decide_False; try done; intros ->.
    + rewrite last_lookup in Hp. pose proof (NoDup_lookup _ _ _ _ Hd Hb Hp). lia.
    + rewrite head_lookup in Hc. by pose proof (NoDup_lookup _ _ _ _ Hd Hb Hc).
  - rewrite Hn by by apply last_Some_elem_of. by rewrite decide_True.
  - rewrite Hv by by apply head_Some_elem_of. by rewrite decide_True.
Qed.

(** Removing a node from a ring of at least two. *)
Lemma ring_remove nx pv l a k :
  NoDup (l ++ a :: k) → l ++ k ≠ [] → ring nx pv (l ++ a :: k) →
  ∃ p c, pv a = Some p ∧ nx a = Some c ∧ p ∈ l ++ k ∧ c ∈ l ++ k ∧ head (k ++ l) = Some c ∧
    ∀ nx' pv',
      (∀ b, b ∈ l ++ k → nx' b = if decide (b = p) then Some c else nx b) →
      (∀ b, b ∈ l ++ k → pv' b = if decide (b = c) then Some p else pv b) →
      ring nx' pv' (l ++ k).
Proof.
  intros Hd Hne Hr. assert (Hperm : k ++ l ≡ₚ l ++ k) by apply Permutation_app_comm.
  assert (Hd' : NoDup (k ++ l)).
  { rewrite Hperm. rewrite <-Permutation_middle in Hd. by apply NoDup_cons in Hd as [_ ?]. }
  change (l ++ a :: k) with (l ++ [a] ++ k) in Hr. rewrite app_assoc in Hr.
  apply ring_rotate in Hr. rewrite app_assoc in Hr.
  destruct (head (k ++ l)) as [c|] eqn:Hc; [|apply head_None in Hc; rewrite Hc in Hperm; by apply Permutation_nil in Hperm].
  destruct (last (k ++ l)) as [p|] eqn:Hp; [|apply last_None in Hp; rewrite Hp in Hperm; by apply Permutation_nil in Hperm].
  destruct (ring_snoc _ _ c _ p a Hc Hp Hr) as (Hl & H1 & H2 & H3 & H4).
  exists p, c. split; [done|]. split; [done|].
  split; [rewrite <-Hperm; by apply last_Some_elem_of|]. split; [rewrite <-Hperm; by apply head_Some_elem_of|].
  split; [done|]. intros nx' pv' Hn Hv. apply ring_rotate. apply (ring_linked _ _ c _ p Hc Hp).
  split.
  - eapply linked_ext_inner, Hl; intros i b Hb; [intros Hi; rewrite Hn|rewrite Hv];
      try (rewrite <-Hperm; by eapply list_elem_of_lookup_2); rewrite decide_False; try done; intros ->.
    + rewrite last_lookup in Hp. pose proof (NoDup_lookup _ _ _ _ Hd' Hb Hp). lia.
    + rewrite head_lookup in Hc. by pose proof (NoDup_lookup _ _ _ _ Hd' Hb Hc).
  - rewrite Hn, Hv by (rewrite <-Hperm; auto using last_Some_elem_of, head_Some_elem_of).
    by rewrite !decide_True.
Qed.
End Links.
