(* ===== verification/Blk.v ===== *)
(** * kernel/blk_drv: ll_rw_blk.c, blk.h and ramdisk.c

    The request queue of the block devices.  The ram disk (major 1) serves a
    request as soon as it is queued; the hard disk and the floppy are started
    with [start_io] and finish later, while the requester sleeps. *)

From stdpp Require Import base option list gmap strings.
From Stdlib Require Import ZArith.
From S2P Require Import Prelude Types Memory Sched Kernel.
Local Open Scope Z_scope.

(** The wake-up half of the buffer lock (blk.h and ll_rw_blk.c). *)
Definition unlock_buffer (b : nat) : M kernel unit :=
  x ← bh b;
  when (b_lock x =? 0) (printk "free buffer being unlocked\n") ;;
  set_bh b (λ x, x <| b_lock := 0 |>) ;;
  wake_up (b_wait_of b).

(** [CURRENT] of device [major], which the macros dereference. *)
Definition CURRENT (major : Z) : M kernel nat := d ← blk_dev_at major; deref (current_request d).

Definition end_request (major uptodate : Z) : M kernel unit :=
  c ← CURRENT major;
  r ← request_at c;
  (* DEVICE_OFF: only the floppy has one *)
  when (major =? 2) (zoom k_sched (floppy_off (Z.land (r_dev r) 3))) ;;
  match r_bh r with
  | Some b => set_bh b (λ x, x <| b_uptodate := u8 uptodate |>) ;; unlock_buffer b
  | None => mret tt
  end ;;
  (if uptodate =? 0 then _ ← deref (r_bh r); printk " I/O error\n\r" else mret tt) ;;
  wake_up (waiting_of c) ;;
  wake_up wait_for_request_q ;;
  upd_request c (λ r, r <| r_dev := -1 |>) ;;
  r ← request_at c;
  upd_blk_dev major (λ d, d <| current_request := r_next r |>).

(** INIT_REQUEST: [None] is its [return]. *)
Definition init_request (major : Z) : M kernel (option request_struct) :=
  d ← blk_dev_at major;
  match current_request d with
  | None => mret None
  | Some c =>
      r ← request_at c;
      (if negb (MAJOR (r_dev r) =? major) then panic "request list destroyed" else mret tt) ;;
      match r_bh r with
      | Some b => x ← bh b; if b_lock x =? 0 then panic "block not locked" else mret tt
      | None => mret tt
      end ;;
      mret (Some r)
  end.

(** ** ramdisk.c *)

(** [memcpy(dst + at, src, len)] *)
Definition splice (at_ : nat) (src dst : list Z) : list Z :=
  take at_ dst ++ src ++ drop (at_ + length src) dst.
Definition slice (at_ len : nat) (l : list Z) : list Z := take len (drop at_ l).

Fixpoint do_rd_request_loop (fuel : nat) : M kernel unit :=
  match fuel with
  | O => no_fuel
  | S fuel =>
      req ← init_request 1;
      match req with
      | None => mret tt
      | Some r =>
          s ← get;
          let start := rd_start (k_blk s) in
          let addr := u32 (start + u32 (Z.shiftl (r_sector r) 9)) in
          let len := s32 (Z.shiftl (r_nr_sectors r) 9) in
          if negb (MINOR (r_dev r) =? 1) || (u32 (start + rd_length (k_blk s)) <? u32 (addr + len)) then
            end_request 1 0 ;; do_rd_request_loop fuel
          else
            b ← deref (r_bh r);
            (if addr <? start then fault else mret tt) ;;
            let at_ := Z.to_nat (addr - start) in
            (if r_cmd r =? WRITE then
               x ← bh b;
               modify (λ s, s <| k_blk ::= λ d,
                 d <| rd_data ::= splice at_ (take (Z.to_nat len) (b_data x)) |> |>)
             else if r_cmd r =? READ then
               set_bh b (λ x, x <| b_data ::=
                 splice 0 (slice at_ (Z.to_nat len) (rd_data (k_blk s))) |>)
             else panic "unknown ramdisk-command") ;;
            end_request 1 1 ;;
            do_rd_request_loop fuel
      end
  end.
(** Every round takes one of the NR_REQUEST requests off the queue. *)
Definition do_rd_request : M kernel unit := do_rd_request_loop (S NR_REQUEST).

Definition rd_init (mem_start length : Z) : M kernel Z :=
  upd_blk_dev 1 (λ d, d <| request_fn := Some do_rd_request_fn |>) ;;
  modify (λ s, s <| k_blk ::= λ d, d <| rd_start := mem_start |> <| rd_length := length |>
                    <| rd_data := replicate (Z.to_nat length) 0 |> |>) ;;
  mret length.

(** ** ll_rw_blk.c *)
Section LlRw.
Context {E : Env}.

Definition is_locked (b : nat) : M kernel bool := x ← bh b; mret (truth (b_lock x)).

Definition lock_buffer (b : nat) : M kernel unit :=
  wait_while (is_locked b) (b_wait_of b) ;;
  set_bh b (λ x, x <| b_lock := 1 |>).

(** [(dev->request_fn)()] *)
Definition call_request_fn (fn : option request_fn_ptr) : M kernel unit :=
  fn ← deref fn;
  match fn with
  | do_rd_request_fn => do_rd_request
  | fn => modify (start_io fn)
  end.

(** The place in the queue: the last request that goes before [req]. *)
Fixpoint find_place (fuel : nat) (tmp : nat) (req : request_struct) : M kernel nat :=
  match fuel with
  | O => no_fuel
  | S fuel =>
      t ← request_at tmp;
      match r_next t with
      | None => mret tmp
      | Some n =>
          nx ← request_at n;
          if (IN_ORDER t req || negb (IN_ORDER t nx)) && IN_ORDER req nx then mret tmp
          else find_place fuel n req
      end
  end.

Definition add_request (major : Z) (req : nat) : M kernel unit :=
  upd_request req (λ r, r <| r_next := None |>) ;;
  r ← request_at req;
  match r_bh r with
  | Some b => set_bh b (λ x, x <| b_dirt := 0 |>)
  | None => mret tt
  end ;;
  d ← blk_dev_at major;
  match current_request d with
  | None =>
      upd_blk_dev major (λ d, d <| current_request := Some req |>) ;;
      call_request_fn (request_fn d)
  | Some tmp =>
      tmp ← find_place NR_REQUEST tmp r;
      t ← request_at tmp;
      upd_request req (λ r, r <| r_next := r_next t |>) ;;
      upd_request tmp (λ t, t <| r_next := Some req |>)
  end.

(** [while (--req >= request) if (req->dev<0) break;] *)
Fixpoint free_request (l : list request_struct) (n : nat) : option nat :=
  match n with
  | O => None
  | S n => match l !! n with
           | Some r => if r_dev r <? 0 then Some n else free_request l n
           | None => free_request l n
           end
  end.

(** [repeat:] look for a free request, sleeping when there is none. *)
Fixpoint get_request (fuel : nat) (rw : Z) (rw_ahead : bool) : M kernel (option nat) :=
  match fuel with
  | O => no_fuel
  | S fuel =>
      let n := if rw =? READ then NR_REQUEST else (NR_REQUEST * 2 / 3)%nat in
      s ← get;
      match free_request (request (k_blk s)) n with
      | Some req => mret (Some req)
      | None =>
          if rw_ahead then mret None else
          sleep_on wait_for_request_q ;;
          get_request fuel rw rw_ahead
      end
  end.

Definition make_request (major rw : Z) (b : nat) : M kernel unit :=
  let rw_ahead := (rw =? READA) || (rw =? WRITEA) in
  x ← bh b;
  if rw_ahead && truth (b_lock x) then mret tt else
  let rw := if rw_ahead then (if rw =? READA then READ else WRITE) else rw in
  (if negb (rw =? READ) && negb (rw =? WRITE)
   then panic "Bad block dev command, must be R/W/RA/WA" else mret tt) ;;
  lock_buffer b ;;
  x ← bh b;
  if (rw =? WRITE) && (b_dirt x =? 0) || (rw =? READ) && truth (b_uptodate x) then
    unlock_buffer b
  else
  req ← get_request patience rw rw_ahead;
  match req with
  | None => unlock_buffer b
  | Some req =>
      x ← bh b;
      upd_request req (λ _, {|
        r_dev := b_dev x; r_cmd := rw; r_errors := 0;
        r_sector := u32 (Z.shiftl (b_blocknr x) 1); r_nr_sectors := 2;
        r_buffer := 0; r_waiting := 0; r_bh := Some b; r_next := None |}) ;;
      add_request major req
  end.

Definition ll_rw_block (rw : Z) (b : nat) : M kernel unit :=
  x ← bh b;
  let major := MAJOR (b_dev x) in
  if NR_BLK_DEV <=? major then printk "Trying to read nonexistent block-device\n\r" else
  d ← blk_dev_at major;
  match request_fn d with
  | None => printk "Trying to read nonexistent block-device\n\r"
  | Some _ => make_request major rw b
  end.
End LlRw.

Definition blk_dev_init : M kernel unit :=
  for_each (seq 0 NR_REQUEST) (λ i, upd_request i (λ r, r <| r_dev := -1 |> <| r_next := None |>)).
