(* ===== verification/Ports.v ===== *)
(** * A driver and the device behind its i/o ports

    The kernel, the static variables of a driver and a device.  What the driver
    reads from a port and what its writes do is the device's: class
    [Controller]. *)

From stdpp Require Import base option list gmap strings.
From Stdlib Require Import ZArith.
From S2P Require Import Prelude Types Memory Sched Kernel Blk.
Local Open Scope Z_scope.

(** The ports of a device whose states are of type [D]: [inb]/[inb_p],
    [outb]/[outb_p] (the port and the byte), and the string moves of [nr] words,
    two bytes each. *)
Class Controller (D : Type) := {
  port_in : Z → D → Z * D;
  port_out : Z → Z → D → D;
  port_read : Z → nat → D → list Z * D;
  port_write : Z → list Z → D → D
}.

(** The kernel, the driver's variables and the device. *)
Record io_system (X D : Type) := mk_system { sys_k : kernel; sys_drv : X; sys_dev : D }.
Arguments mk_system {X D} _ _ _.
Arguments sys_k {X D} _.
Arguments sys_drv {X D} _.
Arguments sys_dev {X D} _.
#[export] Instance eta_system {X D} : Eta (io_system X D) := fun s => mk_system (sys_k s) (sys_drv s) (sys_dev s).

Section Ports.
Context {X D : Type} {Ctl : Controller D}.

Definition inp (port : Z) : M (io_system X D) Z :=
  s ← get; let r := port_in port (sys_dev s) in
  modify (λ s, s <| sys_dev := r.2 |>) ;; mret r.1.
Definition outp (v port : Z) : M (io_system X D) unit := modify (λ s, s <| sys_dev ::= port_out port (u8 v) |>).
(** [outb(inb_p(port)&mask,port)] *)
Definition mask_port (mask port : Z) : M (io_system X D) unit := m ← inp port; outp (Z.land m mask) port.
(** The same macro in hd.c and main.c. *)
Definition CMOS_READ (addr : Z) : M (io_system X D) Z := outp (Z.lor 0x80 addr) 0x70 ;; inp 0x71.
Definition drv : M (io_system X D) X := s ← get; mret (sys_drv s).
Definition set_drv (f : X → X) : M (io_system X D) unit := modify (λ s, s <| sys_drv ::= f |>).

(** [CURRENT] of device [major], and updates of it. *)
Definition current_req (major : Z) : M (io_system X D) request_struct :=
  zoom sys_k (c ← CURRENT major; request_at c).
Definition upd_current (major : Z) (f : request_struct → request_struct) : M (io_system X D) unit :=
  zoom sys_k (c ← CURRENT major; upd_request c f).
(** [CURRENT->errors]; through NULL it is the long at address 8. *)
Definition current_errors (major : Z) : M (io_system X D) Z :=
  d ← zoom sys_k (blk_dev_at major);
  match current_request d with
  | Some c => r ← zoom sys_k (request_at c); mret (r_errors r)
  | None => w ← zoom sys_k (zoom k_mm (ld 8)); mret (s32 w)
  end.
End Ports.

(** A routine of one driver, in a system with several. *)
Definition on_drv {X Y D A} (part : X → Y) `{!Setter part} (m : M (io_system Y D) A) : M (io_system X D) A := λ s,
  let back t := mk_system (sys_k t) (sys_drv s <| part := sys_drv t |>) (sys_dev t) in
  match m (mk_system (sys_k s) (part (sys_drv s)) (sys_dev s)) with
  | Ok a t => Ok a (back t)
  | Panic e t => Panic e (back t)
  | Exit c t => Exit c (back t)
  | Fault t => Fault (back t)
  | NoFuel => NoFuel
  end.
