(* ===== verification/BlkProofs.v ===== *)
(** * The elevator of kernel/blk_drv/ll_rw_blk.c

    Inserting a request keeps the queue a single sweep over the device: it
    goes up, jumps back at most once, and goes up again. *)

From stdpp Require Import base option list gmap strings.
From Stdlib Require Import ZArith Lia.
From S2P Require Import Prelude Types Memory Sched Kernel Blk.
Local Open Scope Z_scope.

(** [IN_ORDER] is a strict total order on (cmd, dev, sector). *)
Definition key (r : request_struct) : Z * Z * Z := (r_cmd r, r_dev r, r_sector r).

Lemma IN_ORDER_true r s : IN_ORDER r s = true ↔
  r_cmd r < r_cmd s ∨ r_cmd r = r_cmd s ∧ (r_dev r < r_dev s ∨ r_dev r = r_dev s ∧ r_sector r < r_sector s).
Proof. unfold IN_ORDER. lia. Qed.
Lemma IN_ORDER_trans r s t : IN_ORDER r s = true → IN_ORDER s t = true → IN_ORDER r t = true.
Proof. rewrite !IN_ORDER_true. lia. Qed.
Lemma IN_ORDER_total r s : key r ≠ key s → IN_ORDER r s = negb (IN_ORDER s r).
Proof.
  unfold key. intros Hne. destruct (IN_ORDER r s) eqn:H1, (IN_ORDER s r) eqn:H2; try done.
  - apply IN_ORDER_true in H1. apply IN_ORDER_true in H2. lia.
  - exfalso. apply Hne.
    assert (¬ IN_ORDER r s = true) as H1' by congruence. assert (¬ IN_ORDER s r = true) as H2' by congruence.
    rewrite IN_ORDER_true in H1', H2'.
    assert (r_cmd r = r_cmd s ∧ r_dev r = r_dev s ∧ r_sector r = r_sector s) as (-> & -> & ->) by lia. done.
Qed.

(** The number of places where the queue does not go up. *)
Fixpoint descents (l : list request_struct) : nat :=
  match l with
  | x :: (y :: _) as l' => (if IN_ORDER x y then 0 else 1) + descents l'
  | _ => 0
  end.

Section Elevator.
Context (R : nat → request_struct) (req : nat).

(** The loop of add_request on the queue as a list of indices. *)
Fixpoint elevate (tmp : nat) (l : list nat) : list nat :=
  match l with
  | [] => [tmp; req]
  | n :: l' =>
      if (IN_ORDER (R tmp) (R req) || negb (IN_ORDER (R tmp) (R n))) && IN_ORDER (R req) (R n)
      then tmp :: req :: l else tmp :: elevate n l'
  end.

Lemma elevate_head tmp l : ∃ l', elevate tmp l = tmp :: l' .
Proof. destruct l; simpl; [by eexists|]. destruct (_ && _); by eexists. Qed.
Lemma elevate_split tmp l :
  ∃ pre x post, tmp :: l = pre ++ x :: post ∧ elevate tmp l = pre ++ x :: req :: post.
Proof.
  revert tmp. induction l as [|n l IH]; intros tmp; simpl; [by exists [], tmp, []|].
  destruct (_ && _); [by exists [], tmp, (n :: l)|].
  destruct (IH n) as (pre & x & post & Hl & ->). exists (tmp :: pre), x, post. by rewrite Hl.
Qed.

(** No request of the queue is for the place of [req]. *)
Definition apart (l : list nat) : Prop := ∀ i, i ∈ l → key (R i) ≠ key (R req).

Lemma apart_cons i l : apart (i :: l) → IN_ORDER (R i) (R req) = negb (IN_ORDER (R req) (R i)) ∧ apart l.
Proof.
  intros H. split; [apply IN_ORDER_total, H; left|]. intros j Hj. apply H. by right.
Qed.

(** From an element below [req] on, a rising tail stays rising. *)
Lemma elevate_rising tmp l :
  apart (tmp :: l) → IN_ORDER (R tmp) (R req) = true → descents (R <$> tmp :: l) = 0%nat →
  descents (R <$> elevate tmp l) = 0%nat.
Proof.
  revert tmp. induction l as [|n l IH]; intros tmp Hreq Hlt Hd; cbn [elevate fmap list_fmap].
  { simpl. by rewrite Hlt. }
  apply apart_cons in Hreq as [_ Hreq].
  pose proof (proj1 (apart_cons _ _ Hreq)) as Hn.
  cbn [descents fmap list_fmap] in Hd. rewrite Hlt. cbn [orb andb].
  destruct (IN_ORDER (R req) (R n)) eqn:Hrn.
  - cbn [descents fmap list_fmap]. rewrite Hlt, Hrn. destruct (IN_ORDER (R tmp) (R n)); [done|lia].
  - assert (Hnr : IN_ORDER (R n) (R req) = true) by (by rewrite Hn, ?Hrn).
    destruct (IN_ORDER (R tmp) (R n)) eqn:Htn; [|lia].
    pose proof (IH n Hreq Hnr) as H0. destruct (elevate_head n l) as [l' Hl']. rewrite Hl' in H0 |- *.
    cbn [descents fmap list_fmap] in H0 |- *. rewrite Htn. apply H0. simpl in Hd. exact Hd.
Qed.

Lemma elevate_descents tmp l :
  apart (tmp :: l) → (descents (R <$> tmp :: l) ≤ 1)%nat → (descents (R <$> elevate tmp l) ≤ 1)%nat.
Proof.
  revert tmp. induction l as [|n l IH]; intros tmp Hreq Hd; cbn [elevate fmap list_fmap].
  { simpl. destruct (IN_ORDER _ _); lia. }
  apply apart_cons in Hreq as [_ Hreq].
  pose proof (proj1 (apart_cons _ _ Hreq)) as Hn.
  cbn [descents fmap list_fmap] in Hd.
  destruct ((IN_ORDER (R tmp) (R req) || negb (IN_ORDER (R tmp) (R n))) && IN_ORDER (R req) (R n)) eqn:Hc.
  - apply andb_prop in Hc as [Hc Hrn]. cbn [descents fmap list_fmap]. rewrite Hrn.
    destruct (IN_ORDER (R tmp) (R req)) eqn:Htr.
    + rewrite (IN_ORDER_trans _ _ _ Htr Hrn) in Hd. simpl in Hd |- *. exact Hd.
    + destruct (IN_ORDER (R tmp) (R n)) eqn:Htn; [done|]. simpl in Hd |- *. exact Hd.
  - destruct (elevate_head n l) as [l' Hl'].
    assert (Hcons : descents (R <$> tmp :: elevate n l) =
      ((if IN_ORDER (R tmp) (R n) then 0 else 1) + descents (R <$> elevate n l))%nat) by (by rewrite Hl').
    rewrite Hcons. destruct (IN_ORDER (R tmp) (R n)) eqn:Htn.
    + simpl. by apply IH.
    + rewrite orb_true_r in Hc. simpl in Hc.
      rewrite elevate_rising; [done|done| |].
      * by rewrite Hn, ?Hc.
      * cbn [descents fmap list_fmap]. simpl in Hd |- *. lia.
Qed.
End Elevator.

(** ** The queue in memory *)

(** The requests from [o] on, following [next]. *)
Inductive queue (rs : list request_struct) : option nat → list nat → Prop :=
| queue_nil : queue rs None []
| queue_cons i r l : rs !! i = Some r → queue rs (r_next r) l → queue rs (Some i) (i :: l).

Lemma queue_insert_notin rs i r o l : i ∉ l → queue rs o l → queue (<[i := r]> rs) o l.
Proof.
  intros Hi Hq. induction Hq as [|j u l Hu Hq IH]; [constructor|].
  apply not_elem_of_cons in Hi as [Hne Hi]. econstructor; [by rewrite list_lookup_insert_ne|by apply IH].
Qed.
Lemma request_at_run i s r : request (k_blk s) !! i = Some r → request_at i s = Ok r s.
Proof. intros Hr. unfold request_at, get. mred. by rewrite Hr. Qed.
Lemma upd_request_run i f s r :
  request (k_blk s) !! i = Some r →
  upd_request i f s = Ok tt (s <| k_blk ::= λ d, d <| request ::= <[i := f r]> |> |>).
Proof. intros Hr. unfold upd_request. by rewrite (bind_Ok _ _ _ _ _ (request_at_run i s r Hr)). Qed.

Definition R_of (rs : list request_struct) (i : nat) : request_struct :=
  default (mk_request 0 0 0 0 0 0 0 None None) (rs !! i).

(** find_place stops where [elevate] inserts. *)
Lemma find_place_spec req s l :
  ∀ fuel tmp t, request (k_blk s) !! tmp = Some t → queue (request (k_blk s)) (r_next t) l →
  (length l < fuel)%nat →
  ∃ pre x post, find_place fuel tmp (R_of (request (k_blk s)) req) s = Ok x s ∧
    tmp :: l = pre ++ x :: post ∧
    elevate (R_of (request (k_blk s))) req tmp l = pre ++ x :: req :: post.
Proof.
  induction l as [|n l IH]; intros fuel tmp t Ht Hq Hf; (destruct fuel as [|fuel]; [simpl in Hf; lia|]);
    inversion Hq as [Hn|n' u l' Hu Hq' Hn]; subst; cbn [find_place];
    rewrite (bind_Ok _ _ _ _ _ (request_at_run tmp s t Ht)).
  - rewrite <-Hn. by exists [], tmp, [].
  - rewrite <-Hn. rewrite (bind_Ok _ _ _ _ _ (request_at_run n s u Hu)). cbn [elevate].
    assert (HRt : R_of (request (k_blk s)) tmp = t) by (unfold R_of; by rewrite Ht).
    assert (HRu : R_of (request (k_blk s)) n = u) by (unfold R_of; by rewrite Hu).
    rewrite HRt, HRu. destruct (_ && _); [by exists [], tmp, (n :: l)|].
    destruct (IH fuel n u Hu Hq') as (pre & x & post & Hrun & Hl & Hel); [simpl in Hf; lia|].
    exists (tmp :: pre), x, post. split; [exact Hrun|]. by rewrite Hl, Hel.
Qed.

(** Linking [req] behind [x]. *)
Lemma queue_link rs o pre x post req rx rr :
  queue rs o (pre ++ x :: post) → NoDup (pre ++ x :: post) → req ∉ pre ++ x :: post →
  rs !! x = Some rx → (req < length rs)%nat → r_next rr = r_next rx →
  queue (<[x := rx <| r_next := Some req |>]> (<[req := rr]> rs)) o (pre ++ x :: req :: post).
Proof.
  intros Hq Hnd Hreq Hx Hlen Hnext. revert o Hq. induction pre as [|i pre IH]; intros o Hq; simpl in *.
  - inversion Hq as [|j u l Hu Hq']; subst. assert (u = rx) as -> by congruence.
    apply NoDup_cons in Hnd as [Hxp Hnd]. apply not_elem_of_cons in Hreq as [Hrx Hreq].
    pose proof (lookup_lt_Some _ _ _ Hx) as Hxl.
    econstructor; [apply list_lookup_insert_eq; by rewrite length_insert|]. simpl.
    econstructor; [rewrite list_lookup_insert_ne by done; by apply list_lookup_insert_eq|].
    rewrite Hnext. by do 2 (apply queue_insert_notin; [done|]).
  - inversion Hq as [|j u l Hu Hq']; subst.
    apply NoDup_cons in Hnd as [Hip Hnd]. apply not_elem_of_cons in Hreq as [Hri Hreq].
    assert (x ≠ i) by (intros ->; apply Hip, elem_of_app; right; left).
    econstructor; [by rewrite !list_lookup_insert_ne|]. by apply IH.
Qed.

Definition blk_queue (s : kernel) (major : Z) (l : list nat) : Prop :=
  ∃ d, zlookup (blk_dev (k_blk s)) major = Some d ∧ queue (request (k_blk s)) (current_request d) l.

(** Linking changes no key. *)
Lemma descents_keys rs rs' l :
  (∀ i, key (R_of rs i) = key (R_of rs' i)) → descents (R_of rs <$> l) = descents (R_of rs' <$> l).
Proof.
  intros Hk. induction l as [|a [|b l] IH]; [done..|]. cbn [fmap list_fmap descents] in IH |- *. rewrite IH.
  pose proof (Hk a) as Ha. pose proof (Hk b) as Hb. unfold key in Ha, Hb. unfold IN_ORDER.
  injection Ha as -> -> ->. by injection Hb as -> -> ->.
Qed.
Lemma keys_insert rs j r r' i : rs !! j = Some r → key r' = key r → key (R_of (<[j := r']> rs) i) = key (R_of rs i).
Proof.
  intros Hj Hk. unfold R_of. destruct (decide (i = j)) as [->|]; [|by rewrite list_lookup_insert_ne].
  rewrite list_lookup_insert_eq by (by eapply lookup_lt_Some). by rewrite Hj.
Qed.
Lemma queue_at rs o pre x post : queue rs o (pre ++ x :: post) → ∃ rx, rs !! x = Some rx.
Proof. revert o. induction pre as [|i pre IH]; intros o Hq; inversion Hq; subst; eauto. Qed.
(** Behind some element is behind the first one. *)
Lemma behind_first {A} (h x r : A) l pre post :
  h :: l = pre ++ x :: post → ∃ p q, l = p ++ q ∧ pre ++ x :: r :: post = h :: p ++ r :: q.
Proof.
  intros Hl. destruct pre as [|h' pre]; simplify_eq/=; [by exists [], post|].
  exists (pre ++ [x]), post. by rewrite <-!app_assoc.
Qed.

(** add_request() up to the search for the place. *)
Lemma add_request_start {E : Env} s major req r d :
  request (k_blk s) !! req = Some r → (∀ b, r_bh r = Some b → is_Some (buffers (k_buf s) !! b)) →
  zlookup (blk_dev (k_blk s)) major = Some d → is_Some (current_request d) →
  let r0 := r <| r_next := None |> in
  ∃ s1, k_blk s1 = k_blk s <| request ::= <[req := r0]> |> ∧
    add_request major req s = (
      h ← deref (current_request d);
      x ← find_place NR_REQUEST h r0;
      rx ← request_at x;
      upd_request req (λ r, r <| r_next := r_next rx |>) ;;
      upd_request x (λ r, r <| r_next := Some req |>)) s1.
Proof.
  intros Hr Hbh Hd [h Hcur] r0. unfold add_request. rewrite (bind_Ok _ _ _ _ _ (upd_request_run req _ s r Hr)).
  set (s0 := s <| k_blk ::= λ d, d <| request ::= <[req := r0]> |> |>).
  assert (Hr0 : request (k_blk s0) !! req = Some r0) by (apply list_lookup_insert_eq; by eapply lookup_lt_Some).
  rewrite (bind_Ok _ _ _ _ _ (request_at_run req s0 r0 Hr0)).
  assert (Hdirt : ∃ s1, match r_bh r0 with
      | Some b => set_bh b (λ x, x <| b_dirt := 0 |>) | None => mret tt end s0 = Ok tt s1 ∧
      k_blk s1 = k_blk s0).
  { change (r_bh r0) with (r_bh r). destruct (r_bh r) as [b|]; [|by eexists].
    destruct (Hbh b eq_refl) as [x Hx]. unfold set_bh, zoom, upd_bh, bh_at, get. mred.
    change (buffers (k_buf s0)) with (buffers (k_buf s)). rewrite Hx. by eexists. }
  destruct Hdirt as (s1 & Hrun1 & Hs1). exists s1. split; [by rewrite Hs1|].
  rewrite (bind_Ok _ _ _ _ _ Hrun1).
  assert (Hd1 : blk_dev_at major s1 = Ok d s1).
  { unfold blk_dev_at, get. mred. rewrite Hs1. change (blk_dev (k_blk s0)) with (blk_dev (k_blk s)). by rewrite Hd. }
  rewrite (bind_Ok _ _ _ _ _ Hd1), Hcur. done.
Qed.

(** C12: the elevator.  On a device that is busy with request [h], add_request
    puts the new request [req], whose (command, device, sector) is that of no
    queued request, somewhere behind [h] without reordering the others, and
    when the queue was one sweep (at most one descent) it still is. *)
Theorem add_request_elevator {E : Env} s major req r h l :
  blk_queue s major (h :: l) → NoDup (h :: l) → (length l < NR_REQUEST)%nat →
  request (k_blk s) !! req = Some r →
  (∀ b, r_bh r = Some b → is_Some (buffers (k_buf s) !! b)) →
  (∀ i, i ∈ h :: l → key (R_of (request (k_blk s)) i) ≠ key r) →
  (descents (R_of (request (k_blk s)) <$> h :: l) ≤ 1)%nat →
  ∃ s' pre post, add_request major req s = Ok tt s' ∧ l = pre ++ post ∧
    blk_queue s' major (h :: pre ++ req :: post) ∧
    (descents (R_of (request (k_blk s')) <$> h :: pre ++ req :: post) ≤ 1)%nat.
Proof.
  intros (d & Hd & Hq) Hnd Hlen Hr Hbh Hkeys Hdesc. set (rs := request (k_blk s)) in *.
  assert (Hreq : req ∉ h :: l) by (intros Hin; apply (Hkeys req Hin); unfold R_of; by rewrite Hr).
  inversion Hq as [|h' rh l' Hh Hq' Hcur]; subst h' l'.
  destruct (add_request_start s major req r d Hr Hbh Hd ltac:(rewrite <-Hcur; by eexists)) as (s1 & Hs1 & Hrun0).
  rewrite Hrun0, <-Hcur. set (r0 := r <| r_next := None |>) in *.
  set (rs1 := request (k_blk s1)). assert (Hrs1 : rs1 = <[req := r0]> rs) by (unfold rs1; by rewrite Hs1).
  assert (Hr1 : rs1 !! req = Some r0) by (rewrite Hrs1; apply list_lookup_insert_eq; by eapply lookup_lt_Some).
  assert (Hq1 : queue rs1 (Some h) (h :: l)) by (rewrite Hrs1, Hcur; by apply queue_insert_notin).
  assert (Hh1 : rs1 !! h = Some rh) by (rewrite Hrs1, list_lookup_insert_ne; [done|]; intros ->; apply Hreq; left).
  assert (Hql : queue rs1 (r_next rh) l) by (inversion Hq1; by simplify_eq).
  destruct (find_place_spec req s1 l NR_REQUEST h rh Hh1 Hql Hlen) as (pre & x & post & Hrun & Hsplit & Hel).
  fold rs1 in Hrun, Hel. replace (R_of rs1 req) with r0 in Hrun by (unfold R_of; by rewrite Hr1).
  rewrite Hsplit in Hq1, Hnd, Hreq. destruct (queue_at _ _ _ _ _ Hq1) as [rx Hx].
  assert (Hxr : x ≠ req) by (intros ->; apply Hreq, elem_of_app; right; left).
  set (r2 := r0 <| r_next := r_next rx |>). set (s2 := s1 <| k_blk ::= λ d, d <| request ::= <[req := r2]> |> |>).
  assert (Hx2 : request (k_blk s2) !! x = Some rx)
    by (change (request (k_blk s2)) with (<[req := r2]> rs1); by rewrite list_lookup_insert_ne).
  destruct (behind_first h x req l pre post Hsplit) as (p & q & Hpq & Hlist).
  eexists _, p, q. split; [|split; [exact Hpq|rewrite <-Hlist; split]].
  - cbn [deref]. rewrite bind_ret_l, (bind_Ok _ _ _ _ _ Hrun), (bind_Ok _ _ _ _ _ (request_at_run x s1 rx Hx)).
    rewrite (bind_Ok _ _ _ _ _ (upd_request_run req _ s1 r0 Hr1)). apply (upd_request_run x _ s2 rx Hx2).
  - exists d. split; [change (zlookup (blk_dev (k_blk s1)) major = Some d); by rewrite Hs1|]. rewrite <-Hcur.
    by apply (queue_link rs1 (Some h) pre x post req rx r2); [| | | |eapply lookup_lt_Some|].
  - rewrite (descents_keys _ rs1), <-Hel.
    + apply elevate_descents.
      * intros i Hi. rewrite Hsplit in Hi. unfold R_of at 2. rewrite Hr1. simpl.
        rewrite Hrs1, (keys_insert rs req r r0); [|done|done]. apply Hkeys. by rewrite Hsplit.
      * rewrite Hrs1, (descents_keys _ rs); [done|]. intros i. by apply (keys_insert rs req r r0).
    + intros i. change (request (k_blk (s2 <| k_blk ::= λ d, d <| request ::= ?g |> |>))) with (g (<[req := r2]> rs1)).
      rewrite (keys_insert _ x rx) by done. by apply (keys_insert rs1 req r0 r2).
Qed.
