(* ===== verification/RequestLive.v ===== *)
(** * Requests on their way through a driver

    [ends m Q s]: [m] does not run out of fuel from [s], and if it returns
    normally its result satisfies [Q].  With it: what a driver does to the
    queue of its device, which its port accesses leave alone, and how many
    errors the queue may still count. *)

From stdpp Require Import base option list gmap strings.
From Stdlib Require Import ZArith Lia.
From S2P Require Import Prelude Types Memory Sched Kernel Blk BlkProofs Ports.
Local Open Scope Z_scope.

Definition ends {S A} (m : M S A) (Q : A → S → Prop) (s : S) : Prop :=
  match m s with Ok a s' => Q a s' | NoFuel => False | _ => True end.

Section Ends.
Context {S : Type}.
Implicit Types s : S.

Lemma ends_ret {A} (a : A) (Q : A → S → Prop) s : Q a s → ends (mret a) Q s.
Proof. done. Qed.
Lemma ends_bind {A B} (m : M S A) (f : A → M S B) (Q : B → S → Prop) s :
  ends m (λ a, ends (f a) Q) s → ends (m ≫= f) Q s.
Proof. unfold ends, mbind, M_bind. by destruct (m s). Qed.
Lemma ends_mono {A} (m : M S A) (P Q : A → S → Prop) s :
  ends m P s → (∀ a s', P a s' → Q a s') → ends m Q s.
Proof. unfold ends. destruct (m s); eauto. Qed.
Lemma ends_get (Q : S → S → Prop) s : Q s s → ends get Q s.
Proof. done. Qed.
Lemma ends_modify (f : S → S) (Q : unit → S → Prop) s : Q tt (f s) → ends (modify f) Q s.
Proof. done. Qed.
Lemma ends_deref {A} (o : option A) (Q : A → S → Prop) s : (∀ a, o = Some a → Q a s) → ends (deref o) Q s.
Proof. destruct o as [a|]; [intros H; by apply H|done]. Qed.
Lemma ends_panic {A} msg (Q : A → S → Prop) s : ends (panic msg) Q s.
Proof. done. Qed.
Lemma ends_fault {A} (Q : A → S → Prop) s : ends fault Q s.
Proof. done. Qed.
Lemma ends_when b (m : M S unit) (Q : unit → S → Prop) s :
  (b = true → ends m Q s) → (b = false → Q tt s) → ends (when b m) Q s.
Proof. destruct b; intros H1 H2; [by apply H1|]. apply ends_ret. by apply H2. Qed.
End Ends.

Lemma ends_zoom {S T A} (proj : S → T) `{!Setter proj} (m : M T A) (Q : A → S → Prop) s :
  ends m (λ a t, Q a (s <| proj := t |>)) (proj s) → ends (zoom proj m) Q s.
Proof. unfold ends, zoom. by destruct (m (proj s)). Qed.

Lemma ends_gets {S A} (f : S → A) (Q : A → S → Prop) s : Q (f s) s → ends (gets f) Q s.
Proof. done. Qed.
Lemma ends_Ok {S A} (m : M S A) (Q : A → S → Prop) s a s' : m s = Ok a s' → Q a s' → ends m Q s.
Proof. unfold ends. by intros ->. Qed.
Lemma ends_outcome {S A} (m : M S A) (Q : A → S → Prop) s o :
  m s = o → match o with Ok _ _ | NoFuel => False | _ => True end → ends m Q s.
Proof. unfold ends. intros ->. by destruct o. Qed.
Lemma ends_result {S A} (m : M S A) (Q : A → S → Prop) s a s' : ends m Q s → m s = Ok a s' → Q a s'.
Proof. unfold ends. intros H Hs. by rewrite Hs in H. Qed.
#[global] Opaque ends.

(** ** Wake-ups *)
Definition same_timers (t t' : sched_state) : Prop := timer_list t' = timer_list t ∧ next_timer t' = next_timer t.

Lemma ends_wake_up p (Q : unit → kernel → Prop) s :
  (∀ ks, same_timers (k_sched s) ks → Q tt (s <| k_sched := ks |>)) →
  (∀ ks, same_timers (k_sched s) ks → Q tt (wr p 0 (s <| k_sched := ks |>))) →
  ends (wake_up p) Q s.
Proof.
  intros H1 H2. unfold wake_up. apply ends_bind, ends_gets, ends_when; intros Hq.
  - apply ends_bind, ends_zoom. unfold make_runnable, upd_task, task_at.
    apply ends_when; [intros _|by rewrite Hq].
    apply ends_bind, ends_bind, ends_get, ends_deref. intros t Ht. by apply ends_modify, ends_modify, H2.
  - specialize (H1 (k_sched s) (conj eq_refl eq_refl)). by destruct s.
Qed.

Lemma ends_set_bh b f (Q : unit → kernel → Prop) s :
  (∀ bs, Q tt (s <| k_buf := bs |>)) → ends (set_bh b f) Q s.
Proof.
  intros H. unfold set_bh, upd_bh, bh_at. apply ends_zoom, ends_bind, ends_bind, ends_get, ends_deref.
  intros x _. apply ends_modify, H.
Qed.
Lemma ends_bh b (Q : buffer_head → kernel → Prop) s : (∀ x, buffers (k_buf s) !! b = Some x → Q x s) → ends (bh b) Q s.
Proof.
  intros H. unfold bh, bh_at. apply ends_zoom, ends_bind, ends_get, ends_deref. intros x Hx. destruct s. by apply H.
Qed.

(** ** The end of a request *)
Lemma list_alter_insert {A} (f : A → A) i x (l : list A) : alter f i (<[i := x]> l) = <[i := f x]> l.
Proof. revert i. induction l as [|y l IH]; intros [|i]; simpl; [done..|]. f_equal. apply IH. Qed.

(** The requests and the queues of the devices are the same. *)
Definition same_reqs (K K' : kernel) : Prop :=
  request (k_blk K') = request (k_blk K) ∧ blk_dev (k_blk K') = blk_dev (k_blk K).
(** The queues are those of [s], up to the fields of request [c], which is
    [r], that are not its link. *)
Definition same_queue (c : nat) (r : request_struct) (s s' : kernel) : Prop :=
  blk_dev (k_blk s') = blk_dev (k_blk s) ∧ same_timers (k_sched s) (k_sched s') ∧
  ∃ r', request (k_blk s') = <[c := r']> (request (k_blk s)) ∧ r_next r' = r_next r.

Lemma same_queue_refl c r s : request (k_blk s) !! c = Some r → same_queue c r s s.
Proof. intros Hr. do 2 (split; [done|]). exists r. by rewrite list_insert_id. Qed.
Lemma same_queue_blk c r s s1 s2 :
  same_reqs s1 s2 → same_timers (k_sched s1) (k_sched s2) → same_queue c r s s1 → same_queue c r s s2.
Proof. unfold same_queue, same_timers, same_reqs. intros [-> ->] [-> ->]. done. Qed.
Lemma same_queue_alter c r s s1 f : (∀ x, r_next (f x) = r_next x) →
  same_queue c r s s1 → same_queue c r s (s1 <| k_blk ::= λ d, d <| request ::= alter f c |> |>).
Proof.
  intros Hf (Hd & Ht & r' & Hr & Hn). do 2 (split; [done|]). simpl. rewrite Hr, list_alter_insert.
  exists (f r'). by rewrite Hf.
Qed.

Lemma ends_unlock_buffer c r s b s1 :
  same_queue c r s s1 → ends (unlock_buffer b) (λ _, same_queue c r s) s1.
Proof.
  intros H. unfold unlock_buffer. apply ends_bind, ends_bh. intros x _.
  apply ends_bind, ends_when; intros _; [apply ends_ret|];
    apply ends_bind, ends_set_bh; intros bs; apply ends_wake_up; intros ks Hks;
    by eapply same_queue_blk; [| |exact H].
Qed.

(** The first request leaves the queue. *)
Lemma ends_end_request major up s d c r :
  zlookup (blk_dev (k_blk s)) major = Some d → current_request d = Some c → request (k_blk s) !! c = Some r →
  ends (end_request major up) (λ _ s', same_timers (k_sched s) (k_sched s') ∧ ∃ r',
    blk_dev (k_blk s') = zinsert major (d <| current_request := r_next r |>) (blk_dev (k_blk s)) ∧
    request (k_blk s') = <[c := r']> (request (k_blk s))) s.
Proof.
  intros Hd Hc Hr. unfold end_request, CURRENT, blk_dev_at.
  apply ends_bind, ends_bind, ends_bind, ends_get, ends_deref. intros d' Hd'.
  assert (d' = d) as -> by congruence. apply ends_deref. intros c' Hc'. assert (c' = c) as -> by congruence.
  unfold request_at. apply ends_bind, ends_bind, ends_get, ends_deref. intros r1 Hr1.
  apply ends_bind, (ends_mono _ (λ _, same_queue c r s)).
  { pose proof (same_queue_refl c r s Hr) as H. apply ends_when; intros _; [|done].
    apply ends_zoom, ends_modify. by eapply same_queue_blk; [| |exact H]. }
  intros [] s0 H. apply ends_bind, (ends_mono _ (λ _, same_queue c r s)).
  { destruct (r_bh r1) as [b|]; [|by apply ends_ret]. apply ends_bind, ends_set_bh. intros bs.
    by apply ends_unlock_buffer. }
  intros [] s1 H1. apply ends_bind, (ends_mono _ (λ _, same_queue c r s)).
  { destruct (up =? 0); [|by apply ends_ret]. apply ends_bind, ends_deref. intros ? _. by apply ends_ret. }
  clear s1 H1. intros [] s1 H1. apply ends_bind, (ends_mono _ (λ _, same_queue c r s)).
  { apply ends_wake_up; intros ks Hks; [|apply same_queue_alter; [done|]];
      by eapply same_queue_blk; [| |exact H1]. }
  clear s1 H1. intros [] s1 H1. apply ends_bind, (ends_mono _ (λ _, same_queue c r s)).
  { apply ends_wake_up; intros ks Hks; by eapply same_queue_blk; [| |exact H1]. }
  clear s1 H1. intros [] s1 (Hd1 & Ht1 & r' & Hrs & Hn).
  assert (Hr' : ∀ x, request (k_blk s1) !! c = Some x → x = r').
  { intros x. rewrite Hrs. rewrite list_lookup_insert_eq by by eapply lookup_lt_Some. congruence. }
  unfold upd_request, request_at. apply ends_bind, ends_bind, ends_bind, ends_get, ends_deref. intros x Hx%Hr'. subst x.
  apply ends_modify. apply ends_bind, ends_bind, ends_get, ends_deref. simpl. intros x.
  rewrite Hrs, list_insert_insert_eq, list_lookup_insert_eq by by eapply lookup_lt_Some. intros [= <-].
  unfold upd_blk_dev, blk_dev_at. apply ends_bind, ends_bind, ends_get, ends_deref. simpl. rewrite Hd1. intros x Hx.
  apply ends_modify. simpl. assert (x = d) as -> by congruence.
  split; [done|]. exists (r' <| r_dev := -1 |>). rewrite Hn, Hrs, list_insert_insert_eq. by rewrite Hd1.
Qed.

Create HintDb io discriminated.

(** ** Port accesses leave the kernel and the driver as they are *)
Section Io.
Context {X D : Type} {Ctl : Controller D}.
Implicit Types s : io_system X D.

Definition io {A} (m : M (io_system X D) A) : Prop :=
  ∀ (Q : A → io_system X D → Prop) s,
    (∀ a s', sys_k s' = sys_k s → sys_drv s' = sys_drv s → Q a s') → ends m Q s.

Lemma io_ret {A} (a : A) : io (mret a). Proof. intros Q s H. by apply ends_ret, H. Qed.
Lemma io_panic {A} msg : io (panic msg : M (io_system X D) A). Proof. intros Q s H. apply ends_panic. Qed.
Lemma io_fault {A} : io (fault : M (io_system X D) A). Proof. intros Q s H. apply ends_fault. Qed.
Lemma io_deref {A} (o : option A) : io (deref o). Proof. intros Q s H. apply ends_deref. intros a _. by apply H. Qed.
Lemma io_bind {A B} (m : M (io_system X D) A) (f : A → M (io_system X D) B) :
  io m → (∀ a, io (f a)) → io (m ≫= f).
Proof.
  intros Hm Hf Q s H. apply ends_bind, Hm. intros a s1 Hk1 Hh1. apply Hf. intros b s2 Hk2 Hh2.
  apply H; congruence.
Qed.
Lemma io_if {A} (b : bool) (m n : M (io_system X D) A) : io m → io n → io (if b then m else n).
Proof. by destruct b. Qed.
Lemma io_printk msg : io (printk msg). Proof. apply io_ret. Qed.
Lemma io_inp p : io (inp p).
Proof. intros Q s H. apply ends_bind, ends_get, ends_bind, ends_modify, ends_ret. by apply H. Qed.
Lemma io_outp v p : io (outp v p).
Proof. intros Q s H. apply ends_modify. by apply H. Qed.
Lemma io_drv : io drv.
Proof. intros Q s H. apply ends_bind, ends_get, ends_ret. by apply H. Qed.
End Io.
#[export] Hint Resolve io_ret io_panic io_fault io_deref io_printk io_inp io_outp io_drv : io.
(** Straight-line port code. *)
Ltac io := repeat first [match goal with |- ∀ _, _ => intro end | solve [auto with io] | apply io_bind | apply io_if].

(** ** The queue *)
Section Queue.
Context {X D : Type} {Ctl : Controller D} {major bound : Z}.
Implicit Types s : io_system X D.

(** The requests [l] of the device, in order. *)
Record links (l : list nat) (K : kernel) : Prop := {
  hl_queue : blk_queue K major l;
  hl_nodup : NoDup l;
  hl_length : length (request (k_blk K)) = NR_REQUEST
}.
(** None of them has [bound] errors. *)
Record req_queue (l : list nat) (K : kernel) : Prop := {
  hq_links : links l K;
  hq_errors : ∀ i r, i ∈ l → request (k_blk K) !! i = Some r → 0 ≤ r_errors r < bound
}.
Lemma links_head l K d c :
  links l K → zlookup (blk_dev (k_blk K)) major = Some d → current_request d = Some c →
  ∃ r l', request (k_blk K) !! c = Some r ∧ l = c :: l' ∧ c ∉ l' ∧ queue (request (k_blk K)) (r_next r) l'.
Proof.
  intros [(d' & Hd' & Hq) Hnd _] Hd Hc. assert (d' = d) as -> by congruence. rewrite Hc in Hq.
  inversion Hq as [|i r l' Hr Hq']; subst. exists r, l'. by apply NoDup_cons in Hnd as [Hn _].
Qed.

(** An update of the first request that is not of its link. *)
Lemma links_upd c l K r r' :
  links (c :: l) K → request (k_blk K) !! c = Some r → r_next r' = r_next r →
  links (c :: l) (K <| k_blk ::= λ d, d <| request ::= <[c := r']> |> |>).
Proof.
  intros [(d & Hd & Hq) Hnd Hlen] Hr Hn. pose proof (lookup_lt_Some _ _ _ Hr) as Hlt. split; [|done|].
  - exists d. split; [done|]. simpl. inversion Hq as [Ho|i x l' Hx Hq' Ho]; subst.
    assert (x = r) as -> by congruence. apply NoDup_cons in Hnd as [Hc Hnd].
    apply (queue_cons _ _ r'); [by apply list_lookup_insert_eq|]. rewrite Hn. by apply queue_insert_notin.
  - simpl. by rewrite length_insert.
Qed.
Lemma req_queue_upd c l K r r' :
  req_queue (c :: l) K → request (k_blk K) !! c = Some r → r_next r' = r_next r → 0 ≤ r_errors r' < bound →
  req_queue (c :: l) (K <| k_blk ::= λ d, d <| request ::= <[c := r']> |> |>).
Proof.
  intros [Hl He] Hr Hn Hr'. split; [by eapply links_upd|]. simpl. intros i x Hi. destruct (decide (i = c)) as [->|Hne].
  - rewrite list_lookup_insert_eq by by eapply lookup_lt_Some. by intros [= <-].
  - rewrite list_lookup_insert_ne by done. by apply He.
Qed.

(** The end of the first request. *)
Lemma ends_end_request_queue up c l K :
  links (c :: l) K → ends (end_request major up) (λ _ K', links l K' ∧
    (∀ i, i ∈ l → request (k_blk K') !! i = request (k_blk K) !! i) ∧ same_timers (k_sched K) (k_sched K')) K.
Proof.
  intros H. destruct (hl_queue _ _ H) as (d & Hd & Hq).
  assert (Hc : current_request d = Some c) by (by inversion Hq).
  destruct (links_head _ _ _ _ H Hd Hc) as (r & l' & Hr & [= <-] & Hnc & Hq').
  destruct H as [_ Hnd Hlen]. apply NoDup_cons in Hnd as [_ Hnd].
  eapply ends_mono; [by apply (ends_end_request major up K d c r)|].
  intros _ K' (Ht & r' & Hd' & Hr'). split; [split; [|done|by rewrite Hr', length_insert]|split; [|done]].
  - exists (d <| current_request := r_next r |>). rewrite Hd', Hr'. split.
    + apply zlookup_zinsert_eq. by eapply zlookup_Some.
    + by apply queue_insert_notin.
  - intros i Hi. rewrite Hr'. apply list_lookup_insert_ne. by intros ->.
Qed.
Lemma req_queue_ext l K K' :
  links l K' → (∀ i, i ∈ l → request (k_blk K') !! i = request (k_blk K) !! i) →
  (∀ i r, i ∈ l → request (k_blk K) !! i = Some r → 0 ≤ r_errors r < bound) → req_queue l K'.
Proof. intros Hl Hi He. split; [done|]. intros i r Hin. rewrite Hi by done. by apply He. Qed.

Lemma req_queue_same l K K' : same_reqs K K' → req_queue l K → req_queue l K'.
Proof.
  intros [E1 E2] [[Hq Hnd Hlen] He]. unfold blk_queue in Hq. split; [split|]; unfold blk_queue; by rewrite ?E1, ?E2.
Qed.
Lemma req_queue_blk l K K' : k_blk K' = k_blk K → req_queue l K → req_queue l K'.
Proof. intros E. apply req_queue_same. unfold same_reqs. by rewrite E. Qed.

Lemma links_length l K : links l K → (length l ≤ NR_REQUEST)%nat.
Proof.
  intros [(d & Hd & Hq) Hnd Hlen]. rewrite <-(length_seq NR_REQUEST 0). apply submseteq_length, NoDup_submseteq; [done|].
  rewrite <-Hlen. clear Hd Hnd Hlen. intros i Hi. apply elem_of_seq. revert i Hi.
  induction Hq as [|j r l Hr Hq IH]; intros i; [by intros ?%not_elem_of_nil|].
  intros [->|Hi]%elem_of_cons; [apply lookup_lt_Some in Hr; lia|by apply IH].
Qed.

(** How many errors the queue may still count. *)
Definition patience_of (K : kernel) (i : nat) : nat :=
  match request (k_blk K) !! i with Some r => Z.to_nat (bound - r_errors r) | None => 0%nat end.
Definition budget (K : kernel) (l : list nat) : nat := sum_list_with (patience_of K) l.

Lemma budget_ext K K' l :
  (∀ i, i ∈ l → request (k_blk K') !! i = request (k_blk K) !! i) → budget K' l = budget K l.
Proof.
  intros H. unfold budget. induction l as [|i l IH]; [done|]. simpl. unfold patience_of at 1 3.
  rewrite (H i) by left. rewrite IH; [done|]. intros j Hj. apply H. by right.
Qed.
Lemma budget_cons K c l r :
  request (k_blk K) !! c = Some r → budget K (c :: l) = (Z.to_nat (bound - r_errors r) + budget K l)%nat.
Proof. intros Hr. unfold budget. cbn [sum_list_with]. unfold patience_of at 1. by rewrite Hr. Qed.
Lemma budget_bound K l : req_queue l K → (budget K l ≤ NR_REQUEST * Z.to_nat bound)%nat.
Proof.
  intros [Hlinks He]. pose proof (links_length _ _ Hlinks) as Hl.
  transitivity (length l * Z.to_nat bound)%nat; [|by apply Nat.mul_le_mono_r].
  clear Hl Hlinks. unfold budget. induction l as [|i l IH]; [done|]. cbn [length sum_list_with].
  rewrite Nat.mul_succ_l. assert (patience_of K i ≤ Z.to_nat bound)%nat.
  { unfold patience_of. destruct (request (k_blk K) !! i) as [r|] eqn:Hr; [|lia].
    specialize (He i r ltac:(left) Hr). lia. }
  specialize (IH (λ j r Hj, He j r ltac:(by right))). lia.
Qed.

(** ** The routines on the first request *)
Definition k_upd (c : nat) (r : request_struct) (K : kernel) : kernel :=
  K <| k_blk ::= λ d, d <| request ::= <[c := r]> |> |>.

Lemma ends_CURRENT K l (Q : nat → kernel → Prop) :
  links l K → (∀ c l' r, l = c :: l' → request (k_blk K) !! c = Some r → Q c K) → ends (CURRENT major) Q K.
Proof.
  intros H HQ. unfold CURRENT, blk_dev_at. apply ends_bind, ends_bind, ends_get, ends_deref. intros d Hd.
  apply ends_deref. intros c Hc. destruct (links_head _ _ _ _ H Hd Hc) as (r & l' & Hr & -> & _). by eapply HQ.
Qed.
Lemma ends_current_req l (Q : request_struct → io_system X D → Prop) s :
  links l (sys_k s) →
  (∀ c l' r, l = c :: l' → request (k_blk (sys_k s)) !! c = Some r → Q r s) → ends (current_req major) Q s.
Proof.
  intros H HQ. unfold current_req. apply ends_zoom, ends_bind. eapply ends_CURRENT; [exact H|]. intros c l' r -> Hr.
  unfold request_at. apply ends_bind, ends_get, ends_deref. intros r' Hr'.
  assert (r' = r) as -> by congruence. destruct s. by eapply HQ.
Qed.
Lemma ends_upd_current l f (Q : unit → io_system X D → Prop) s :
  links l (sys_k s) →
  (∀ c l' r, l = c :: l' → request (k_blk (sys_k s)) !! c = Some r → Q tt (s <| sys_k ::= k_upd c (f r) |>)) →
  ends (upd_current major f) Q s.
Proof.
  intros H HQ. unfold upd_current. apply ends_zoom, ends_bind. eapply ends_CURRENT; [exact H|]. intros c l' r -> Hr.
  unfold upd_request, request_at. apply ends_bind, ends_bind, ends_get, ends_deref. intros r' Hr'.
  assert (r' = r) as -> by congruence. apply ends_modify. by eapply HQ.
Qed.
Lemma ends_current_errors (Q : Z → io_system X D → Prop) s : (∀ e, Q e s) → ends (current_errors major) Q s.
Proof.
  intros HQ. unfold current_errors. apply ends_bind, ends_zoom. unfold blk_dev_at.
  apply ends_bind, ends_get, ends_deref. intros d _.
  replace (s <| sys_k := sys_k s |>) with s by by destruct s.
  destruct (current_request d) as [c|].
  - apply ends_bind, ends_zoom. unfold request_at. apply ends_bind, ends_get, ends_deref. intros r _.
    apply ends_ret. destruct s. apply HQ.
  - apply ends_bind, ends_zoom, ends_zoom. eapply ends_Ok; [done|]. apply ends_ret. destruct s as [[] ? ?]. apply HQ.
Qed.

Lemma ends_init_request K l (Q : option request_struct → kernel → Prop) :
  links l K → (l = [] → Q None K) →
  (∀ c l' r, l = c :: l' → request (k_blk K) !! c = Some r → Q (Some r) K) → ends (init_request major) Q K.
Proof.
  intros H HN HS. unfold init_request, blk_dev_at. apply ends_bind, ends_bind, ends_get, ends_deref. intros d Hd.
  destruct (current_request d) as [c|] eqn:Hc.
  - destruct (links_head _ _ _ _ H Hd Hc) as (r & l' & Hr & -> & _). unfold request_at.
    apply ends_bind, ends_bind, ends_get, ends_deref. intros r' Hr'. assert (r' = r) as -> by congruence.
    apply ends_bind, (ends_mono _ (λ _ K', K' = K)).
    { destruct (negb _); [apply ends_panic|by apply ends_ret]. }
    intros [] ? ->. apply ends_bind, (ends_mono _ (λ _ K', K' = K)).
    { destruct (r_bh r) as [b|]; [|by apply ends_ret]. apply ends_bind, ends_bh. intros x _.
      destruct (b_lock x =? 0); [apply ends_panic|by apply ends_ret]. }
    intros [] ? ->. apply ends_ret. by eapply HS.
  - destruct (hl_queue _ _ H) as (d' & Hd' & Hq). assert (d' = d) as -> by congruence. rewrite Hc in Hq.
    apply ends_ret, HN. by inversion Hq.
Qed.
End Queue.
Arguments links : clear implicits.
Arguments req_queue : clear implicits.
Arguments budget : clear implicits.
Arguments patience_of : clear implicits.
