(* ===== verification/Buffer.v ===== *)
(** * fs/buffer.c, with what it needs of fs/inode.c and fs/super.c

    The buffer cache: every buffer is on the circular free list, and those
    that hold a block on the chain of its hash slot.  getblk() writes out
    dirty buffers, which writes inodes, which reads blocks again; that
    recursion is tied by [getblk] below, [depth] deep. *)

From stdpp Require Import base option list gmap strings.
From Stdlib Require Import ZArith.
From S2P Require Import Prelude Types Memory Sched Kernel Blk.
Local Open Scope Z_scope.

(** ** The queues *)

Definition _hashfn (dev block : Z) : Z := u32 (Z.lxor dev block) mod NR_HASH.
Definition hash_get (dev block : Z) : M buffer_state (option nat) :=
  s ← get; deref (zlookup (hash_table s) (_hashfn dev block)).
Definition hash_set (dev block : Z) (v : option nat) : M buffer_state unit :=
  modify (λ s, s <| hash_table ::= zinsert (_hashfn dev block) v |>).

Definition remove_from_queues (b : nat) : M buffer_state unit :=
  x ← bh_at b;
  (* remove from hash-queue *)
  match b_next x with
  | Some n => upd_bh n (λ y, y <| b_prev := b_prev x |>)
  | None => mret tt
  end ;;
  match b_prev x with
  | Some p => upd_bh p (λ y, y <| b_next := b_next x |>)
  | None => mret tt
  end ;;
  h ← hash_get (b_dev x) (b_blocknr x);
  when (bool_decide (h = Some b)) (hash_set (b_dev x) (b_blocknr x) (b_next x)) ;;
  (* remove from free list *)
  match b_prev_free x, b_next_free x with
  | Some p, Some n =>
      upd_bh p (λ y, y <| b_next_free := Some n |>) ;;
      upd_bh n (λ y, y <| b_prev_free := Some p |>) ;;
      s ← get;
      when (bool_decide (free_list s = Some b)) (
        x ← bh_at b;
        modify (λ s, s <| free_list := b_next_free x |>))
  | _, _ => panic "Free block list corrupted"
  end.

(** The result is [bh->b_next] when the buffer has a device: the code then
    stores [bh] in its [b_prev], also when it is NULL. *)
Definition link_into_queues (b : nat) : M buffer_state (option (option nat)) :=
  s ← get;
  fl ← deref (free_list s);
  (* put at end of free list *)
  f ← bh_at fl;
  upd_bh b (λ x, x <| b_next_free := Some fl |> <| b_prev_free := b_prev_free f |>) ;;
  last ← deref (b_prev_free f);
  upd_bh last (λ x, x <| b_next_free := Some b |>) ;;
  upd_bh fl (λ x, x <| b_prev_free := Some b |>) ;;
  (* put the buffer in new hash-queue if it has a device *)
  upd_bh b (λ x, x <| b_prev := None |> <| b_next := None |>) ;;
  x ← bh_at b;
  if b_dev x =? 0 then mret None else
  h ← hash_get (b_dev x) (b_blocknr x);
  upd_bh b (λ x, x <| b_next := h |>) ;;
  hash_set (b_dev x) (b_blocknr x) (Some b) ;;
  mret (Some h).

(** sizeof(struct buffer_head) and the offset of b_prev in it *)
Definition BUFFER_HEAD_SIZE : Z := 36.
Definition B_PREV_OFFSET : Z := 20.

(** [bh->b_next->b_prev = bh;] on an empty chain stores to address 20, a word
    of the page directory. *)
Definition insert_into_queues (b : nat) : M kernel unit :=
  r ← zoom k_buf (link_into_queues b);
  match r with
  | None => mret tt
  | Some (Some n) => set_bh n (λ y, y <| b_prev := Some b |>)
  | Some None =>
      s ← get;
      zoom k_mm (st B_PREV_OFFSET (start_buffer (k_buf s) + BUFFER_HEAD_SIZE * Z.of_nat b))
  end.

(** The end of getblk: buffer [b] is made the buffer of a block. *)
Definition take_over (b : nat) (dev block : Z) : M kernel unit :=
  set_bh b (λ x, x <| b_count := 1 |> <| b_dirt := 0 |> <| b_uptodate := 0 |>) ;;
  zoom k_buf (remove_from_queues b) ;;
  set_bh b (λ x, x <| b_dev := u16 dev |> <| b_blocknr := u32 block |>) ;;
  insert_into_queues b.

(** [for (tmp = hash(dev,block) ; tmp != NULL ; tmp = tmp->b_next)] *)
Fixpoint find_in_chain (fuel : nat) (dev block : Z) (tmp : option nat) : M buffer_state (option nat) :=
  match tmp with
  | None => mret None
  | Some t =>
      match fuel with
      | O => no_fuel
      | S fuel =>
          x ← bh_at t;
          if (b_dev x =? dev) && (b_blocknr x =? u32 block) then mret (Some t)
          else find_in_chain fuel dev block (b_next x)
      end
  end.
Definition find_buffer (dev block : Z) : M buffer_state (option nat) :=
  h ← hash_get dev block;
  s ← get;
  find_in_chain (length (buffers s)) dev block h.

Definition BADNESS (x : buffer_head) : Z := 2 * b_dirt x + b_lock x.

(** The do-while loop of getblk over the free list. *)
Fixpoint scan_free (fuel : nat) (tmp : nat) (bh : option nat) : M buffer_state (option nat) :=
  match fuel with
  | O => no_fuel
  | S fuel =>
      t ← bh_at tmp;
      better ← (if truth (b_count t) then mret false else
                match bh with
                | None => mret true
                | Some b => y ← bh_at b; mret (BADNESS t <? BADNESS y)
                end);
      let bh := if better : bool then Some tmp else bh in
      if better && (BADNESS t =? 0) then mret bh else
      next ← deref (b_next_free t);
      s ← get;
      if bool_decide (Some next = free_list s) then mret bh else scan_free fuel next bh
  end.

(** ** Little-endian fields in blocks *)
Definition byte_at (l : list Z) (off : nat) : Z := default 0 (l !! off).
Definition get16 (l : list Z) (off : nat) : Z := byte_at l off + 256 * byte_at l (off + 1).
Definition get32 (l : list Z) (off : nat) : Z := get16 l off + 65536 * get16 l (off + 2).
Definition put16 (v : Z) : list Z := [u8 v; u8 (Z.shiftr v 8)].
Definition put32 (v : Z) : list Z := put16 v ++ put16 (Z.shiftr v 16).

(** struct d_inode: 32 bytes *)
Definition d_inode_bytes (i : m_inode) : list Z :=
  put16 (i_mode i) ++ put16 (i_uid i) ++ put32 (i_size i) ++ put32 (i_mtime i) ++
  [u8 (i_gid i); u8 (i_nlinks i)] ++ mjoin (put16 <$> take 9 (i_zone i)).
(** The assignment to an inode as a struct d_inode: the memory-only fields are kept. *)
Definition set_d_inode (l : list Z) (i : m_inode) : m_inode :=
  i <| i_mode := get16 l 0 |> <| i_uid := get16 l 2 |> <| i_size := get32 l 4 |>
    <| i_mtime := get32 l 8 |> <| i_gid := byte_at l 12 |> <| i_nlinks := byte_at l 13 |>
    <| i_zone := (λ k, get16 l (14 + 2 * k)) <$> seq 0 9 |>.
Definition D_INODE_SIZE : nat := 32.

(** ** Waiting for buffers, inodes and super blocks *)
Section Buffer.
Context {E : Env}.

Definition wait_on_buffer (b : nat) : M kernel unit := wait_while (is_locked b) (b_wait_of b).

Definition inode_locked (i : nat) : M kernel bool := x ← inode_at i; mret (truth (i_lock x)).
Definition wait_on_inode (i : nat) : M kernel unit := wait_while (inode_locked i) (i_wait_of i).
Definition lock_inode (i : nat) : M kernel unit :=
  wait_while (inode_locked i) (i_wait_of i) ;; upd_inode i (λ x, x <| i_lock := 1 |>).
Definition unlock_inode (i : nat) : M kernel unit :=
  upd_inode i (λ x, x <| i_lock := 0 |>) ;; wake_up (i_wait_of i).

Definition super_locked (i : nat) : M kernel bool := x ← super_at i; mret (truth (s_lock x)).
Definition wait_on_super (i : nat) : M kernel unit := wait_while (super_locked i) (s_wait_of i).
Definition lock_super (i : nat) : M kernel unit :=
  wait_while (super_locked i) (s_wait_of i) ;; upd_super i (λ x, x <| s_lock := 1 |>).
Definition free_super (i : nat) : M kernel unit :=
  upd_super i (λ x, x <| s_lock := 0 |>) ;; wake_up (s_wait_of i).

(** get_super()'s scan; it starts again when the entry changed during a wait. *)
Fixpoint get_super_from (fuel : nat) (dev : Z) (i : nat) : M kernel (option nat) :=
  match fuel with
  | O => no_fuel
  | S fuel =>
      if bool_decide (NR_SUPER ≤ i)%nat then mret None else
      x ← super_at i;
      if s_dev x =? dev then
        wait_on_super i ;;
        x ← super_at i;
        if s_dev x =? dev then mret (Some i) else get_super_from fuel dev 0
      else get_super_from fuel dev (S i)
  end.
Definition get_super (dev : Z) : M kernel (option nat) :=
  if dev =? 0 then mret None else get_super_from (S patience * S NR_SUPER) dev 0.

Definition brelse (buf : option nat) : M kernel unit :=
  match buf with
  | None => mret tt
  | Some b =>
      wait_on_buffer b ;;
      x ← bh b;
      set_bh b (λ x, x <| b_count ::= λ c, u8 (c - 1) |>) ;;
      (if b_count x =? 0 then panic "Trying to free free buffer" else mret tt) ;;
      wake_up buffer_wait_q
  end.

Definition get_hash_table (dev block : Z) : M kernel (option nat) :=
  retry patience (
    b ← zoom k_buf (find_buffer dev block);
    match b with
    | None => mret (Some None)
    | Some b =>
        set_bh b (λ x, x <| b_count ::= λ c, u8 (c + 1) |>) ;;
        wait_on_buffer b ;;
        x ← bh b;
        if (b_dev x =? dev) && (b_blocknr x =? u32 block) then mret (Some (Some b))
        else set_bh b (λ x, x <| b_count ::= λ c, u8 (c - 1) |>) ;; mret None
    end).

Definition NR_BUFFERS : M kernel nat := s ← get; mret (length (buffers (k_buf s))).
Definition for_buffers (f : nat → M kernel unit) : M kernel unit :=
  n ← NR_BUFFERS; for_each (seq 0 n) f.

(** ** What getblk's own calls of getblk are *)
Section Knot.
Variable getblk : Z → Z → M kernel nat.

Definition bread_with (dev block : Z) : M kernel (option nat) :=
  b ← getblk dev block;
  x ← bh b;
  if truth (b_uptodate x) then mret (Some b) else
  ll_rw_block READ b ;;
  wait_on_buffer b ;;
  x ← bh b;
  if truth (b_uptodate x) then mret (Some b) else
  brelse (Some b) ;;
  mret None.

(** The block that holds inode [i_num], and the index of the inode in it;
    INODES_PER_BLOCK is unsigned. *)
Definition inode_block (sb : super_block_struct) (num : Z) : Z * Z :=
  (s32 (2 + s_imap_blocks sb + s_zmap_blocks sb + u32 (num - 1) / INODES_PER_BLOCK),
   u32 (num - 1) mod INODES_PER_BLOCK).
Definition inode_offset (k : Z) : nat := (D_INODE_SIZE * Z.to_nat k)%nat.

Definition write_inode_with (inode : nat) : M kernel unit :=
  lock_inode inode ;;
  x ← inode_at inode;
  if negb (truth (i_dirt x)) || negb (truth (i_dev x)) then unlock_inode inode else
  sb ← get_super (i_dev x);
  sb ← (match sb with
        | None => panic "trying to write inode without device"
        | Some sb => super_at sb
        end);
  let '(block, k) := inode_block sb (i_num x) in
  b ← bread_with (i_dev x) block;
  match b with
  | None => panic "unable to read i-node block"
  | Some b =>
      x ← inode_at inode;
      set_bh b (λ y, y <| b_data ::= splice (inode_offset k) (d_inode_bytes x) |>) ;;
      set_bh b (λ y, y <| b_dirt := 1 |>) ;;
      upd_inode inode (λ x, x <| i_dirt := 0 |>) ;;
      brelse (Some b) ;;
      unlock_inode inode
  end.

Definition sync_inodes_with : M kernel unit :=
  for_each (seq 0 NR_INODE) (λ i,
    wait_on_inode i ;;
    x ← inode_at i;
    when (truth (i_dirt x) && negb (truth (i_pipe x))) (write_inode_with i)).

Definition sync_buffers (dev : Z) : M kernel unit :=
  for_buffers (λ b,
    x ← bh b;
    if negb (b_dev x =? dev) then mret tt else
    wait_on_buffer b ;;
    x ← bh b;
    when ((b_dev x =? dev) && truth (b_dirt x)) (ll_rw_block WRITE b)).

Definition sync_dev_with (dev : Z) : M kernel Z :=
  sync_buffers dev ;; sync_inodes_with ;; sync_buffers dev ;; mret 0.
End Knot.

(** [while (bh->b_dirt) { ... }]; [false] is its [goto repeat]. *)
Fixpoint clean_buffer (fuel : nat) (sync_dev : Z → M kernel Z) (b : nat) : M kernel bool :=
  match fuel with
  | O => no_fuel
  | S fuel =>
      x ← bh b;
      if negb (truth (b_dirt x)) then mret true else
      sync_dev (b_dev x) ;;
      wait_on_buffer b ;;
      x ← bh b;
      if truth (b_count x) then mret false else clean_buffer fuel sync_dev b
  end.

(** One pass of getblk from [repeat:]. *)
Definition getblk_once (sync_dev : Z → M kernel Z) (dev block : Z) : M kernel (option nat) :=
  b ← get_hash_table dev block;
  match b with
  | Some b => mret (Some b)
  | None =>
      s ← get;
      tmp ← deref (free_list (k_buf s));
      b ← zoom k_buf (scan_free (length (buffers (k_buf s))) tmp None);
      match b with
      | None => sleep_on buffer_wait_q ;; mret None
      | Some b =>
          wait_on_buffer b ;;
          x ← bh b;
          if truth (b_count x) then mret None else
          clean ← clean_buffer patience sync_dev b;
          if negb clean then mret None else
          again ← zoom k_buf (find_buffer dev block);
          match again with
          | Some _ => mret None
          | None =>
              take_over b dev block ;;
              mret (Some b)
          end
      end
  end.

Fixpoint getblk_at (n : nat) (dev block : Z) : M kernel nat :=
  retry patience (getblk_once
    (match n with O => λ _, no_fuel | S n => sync_dev_with (getblk_at n) end) dev block).

Definition getblk : Z → Z → M kernel nat := getblk_at depth.
Definition bread : Z → Z → M kernel (option nat) := bread_with getblk.
Definition write_inode : nat → M kernel unit := write_inode_with getblk.
Definition sync_inodes : M kernel unit := sync_inodes_with getblk.
Definition sync_dev : Z → M kernel Z := sync_dev_with getblk.

Definition sys_sync : M kernel Z :=
  sync_inodes ;;
  for_buffers (λ b,
    wait_on_buffer b ;;
    x ← bh b;
    when (truth (b_dirt x)) (ll_rw_block WRITE b)) ;;
  mret 0.

Definition invalidate_buffers (dev : Z) : M kernel unit :=
  for_buffers (λ b,
    x ← bh b;
    if negb (b_dev x =? dev) then mret tt else
    wait_on_buffer b ;;
    x ← bh b;
    when (b_dev x =? dev) (set_bh b (λ x, x <| b_dirt := 0 |> <| b_uptodate := 0 |>))).

Definition invalidate_inodes (dev : Z) : M kernel unit :=
  for_each (seq 0 NR_INODE) (λ i,
    wait_on_inode i ;;
    x ← inode_at i;
    when (i_dev x =? dev) (
      when (truth (i_count x)) (printk "inode in use on removed disk\n\r") ;;
      upd_inode i (λ x, x <| i_dirt := 0 |> <| i_dev := 0 |>))).

Definition put_super (dev : Z) : M kernel unit :=
  s ← get;
  if dev =? ROOT_DEV (k_fs s) then printk "root diskette changed: prepare for armageddon\n\r" else
  sb ← get_super dev;
  match sb with
  | None => mret tt
  | Some sb =>
      x ← super_at sb;
      match s_imount x with
      | Some _ => printk "Mounted disk changed - tssk, tssk\n\r"
      | None =>
          lock_super sb ;;
          upd_super sb (λ x, x <| s_dev := 0 |>) ;;
          for_each (seq 0 I_MAP_SLOTS) (λ i, x ← super_at sb; m ← deref (s_imap x !! i); brelse m) ;;
          for_each (seq 0 Z_MAP_SLOTS) (λ i, x ← super_at sb; m ← deref (s_zmap x !! i); brelse m) ;;
          free_super sb
      end
  end.

Definition check_disk_change (dev : Z) : M kernel unit :=
  if negb (MAJOR dev =? 2) then mret tt else
  s ← get;
  let '(changed, s) := floppy_change (Z.land dev 0x03) s in
  modify (λ _, s) ;;
  if negb changed then mret tt else
  for_each (seq 0 NR_SUPER) (λ i,
    x ← super_at i;
    when (s_dev x =? dev) (put_super (s_dev x))) ;;
  invalidate_inodes dev ;;
  invalidate_buffers dev.

(** COPYBLK into physical memory: 1024 bytes at [address]. *)
Definition COPYBLK (from : list Z) (address : Z) : M kernel unit :=
  for_each (seq 0 1024) (λ k, zoom k_mm (st8 (address + Z.of_nat k) (byte_at from k))).

Definition bread_page (address dev : Z) (nr : list Z) : M kernel unit :=
  bhs ← (let fix start (l : list Z) : M kernel (list (option nat)) :=
           match l with
           | [] => mret []
           | b :: l =>
               x ← (if truth b then
                      b ← getblk dev b;
                      y ← bh b;
                      when (negb (truth (b_uptodate y))) (ll_rw_block READ b) ;;
                      mret (Some b)
                    else mret None);
               r ← start l;
               mret (x :: r)
           end in start (take 4 nr));
  for_each (imap (λ i b, (i, b)) bhs) (λ ib,
    match ib.2 with
    | None => mret tt
    | Some b =>
        wait_on_buffer b ;;
        x ← bh b;
        when (truth (b_uptodate x)) (COPYBLK (b_data x) (address + BLOCK_SIZE * Z.of_nat ib.1)) ;;
        brelse (Some b)
    end).

(** breada: the code passes [bh], not the read-ahead buffer [tmp], to the
    read-ahead request. *)
Definition breada (dev first : Z) (rest : list Z) : M kernel (option nat) :=
  b ← getblk dev first;
  x ← bh b;
  when (negb (truth (b_uptodate x))) (ll_rw_block READ b) ;;
  for_each rest (λ blk,
    tmp ← getblk dev blk;
    y ← bh tmp;
    when (negb (truth (b_uptodate y))) (ll_rw_block READA b) ;;
    set_bh tmp (λ y, y <| b_count ::= λ c, u8 (c - 1) |>)) ;;
  wait_on_buffer b ;;
  x ← bh b;
  if truth (b_uptodate x) then mret (Some b) else
  brelse (Some b) ;;
  mret None.
End Buffer.

(** buffer_init: [n] buffer heads fit below the buffer memory; they form the
    free list in order. *)
Fixpoint count_buffers (fuel : nat) (b h : Z) : nat :=
  match fuel with
  | O => O
  | S fuel =>
      let b := b - BLOCK_SIZE in
      if h + BUFFER_HEAD_SIZE <=? b then
        S (count_buffers fuel (if b =? 0x100000 then 0xA0000 else b) (h + BUFFER_HEAD_SIZE))
      else O
  end.
Definition buffer_init (buffer_end : Z) : M buffer_state unit :=
  s ← get;
  let b := if buffer_end =? Z.shiftl 1 20 then 640 * 1024 else buffer_end in
  let n := count_buffers (Z.to_nat (b / BLOCK_SIZE)) b (start_buffer s) in
  (if bool_decide (n = O) then fault else mret tt) ;;
  modify (λ s, s <| buffers := (λ i, mk_buffer (replicate 1024 0) 0 0 0 0 0 0 0 None None
                      (Some (match i with O => n - 1 | S j => j end)%nat)
                      (Some (if bool_decide (S i = n) then O else S i))) <$> seq 0 n |>
                 <| free_list := Some O |>
                 <| hash_table := replicate (Z.to_nat NR_HASH) None |>).
