(* ===== verification/BlockFacts.v ===== *)
(** * Parts of blocks: splice, slice and the little-endian fields *)

From stdpp Require Import base option list gmap.
From Stdlib Require Import ZArith Lia.
From S2P Require Import Prelude Types Memory Sched Kernel KernelFacts Blk Buffer.
Local Open Scope Z_scope.

Lemma length_splice k src dst : (k + length src ≤ length dst)%nat → length (splice k src dst) = length dst.
Proof. intros H. unfold splice. rewrite !length_app, length_take, length_drop. lia. Qed.
Lemma length_slice k n l : (k + n ≤ length l)%nat → length (slice k n l) = n.
Proof. intros H. unfold slice. rewrite length_take, length_drop. lia. Qed.

Lemma lookup_splice k src dst i :
  (k + length src ≤ length dst)%nat →
  splice k src dst !! i = if decide (k ≤ i < k + length src)%nat then src !! (i - k)%nat else dst !! i.
Proof.
  intros H. unfold splice. case_decide as Hi.
  - rewrite lookup_app_r by (rewrite length_take; lia). rewrite length_take, Nat.min_l by lia.
    rewrite lookup_app_l by lia. done.
  - destruct (decide (i < k)%nat).
    + rewrite lookup_app_l by (rewrite length_take; lia). by apply lookup_take_lt.
    + rewrite lookup_app_r by (rewrite length_take; lia). rewrite length_take, Nat.min_l by lia.
      rewrite lookup_app_r by lia. rewrite lookup_drop. f_equal. lia.
Qed.
Lemma lookup_slice k n l i : slice k n l !! i = if decide (i < n)%nat then l !! (k + i)%nat else None.
Proof.
  unfold slice. case_decide.
  - rewrite lookup_take_lt by done. apply lookup_drop.
  - apply lookup_take_ge. lia.
Qed.
Lemma slice_splice_same k src dst :
  (k + length src ≤ length dst)%nat → slice k (length src) (splice k src dst) = src.
Proof.
  intros H. apply list_eq. intros i. rewrite lookup_slice, lookup_splice by done.
  case_decide.
  - rewrite decide_True by lia. f_equal. lia.
  - symmetry. apply lookup_ge_None_2. lia.
Qed.
Lemma slice_splice_other k src dst k' n :
  (k + length src ≤ length dst)%nat → (k' + n ≤ k ∨ k + length src ≤ k')%nat →
  slice k' n (splice k src dst) = slice k' n dst.
Proof.
  intros H Hd. apply list_eq. intros i. rewrite !lookup_slice. case_decide; [|done].
  rewrite lookup_splice by done. rewrite decide_False by lia. done.
Qed.
Lemma splice_app k a b l :
  (k + length a + length b ≤ length l)%nat →
  splice (k + length a) b (splice k a l) = splice k (a ++ b) l.
Proof.
  intros H. apply list_eq. intros i.
  rewrite !lookup_splice by (rewrite ?length_splice, ?length_app; lia).
  rewrite length_app. repeat case_decide; try lia; try done.
  - rewrite lookup_app_r by lia. f_equal. lia.
  - rewrite lookup_app_l by lia. done.
Qed.

(** ** Little-endian numbers *)

Lemma u8_shift16 v : 0 ≤ v < 65536 → u8 v + 256 * u8 (Z.shiftr v 8) = v.
Proof.
  intros Hv. unfold u8. rewrite Z.shiftr_div_pow2 by lia. change (2 ^ 8) with 256.
  rewrite (Z.mod_small (v / 256)).
  - pose proof (Z.div_mod v 256). lia.
  - split; [apply Z.div_pos; lia|apply Z.div_lt_upper_bound; lia].
Qed.
Lemma get16_put16 v : 0 ≤ v < 65536 → get16 (put16 v) 0 = v.
Proof. apply u8_shift16. Qed.
Lemma u8_shift32 v :
  0 ≤ v < 4294967296 →
  u8 v + 256 * u8 (Z.shiftr v 8) +
  65536 * (u8 (Z.shiftr v 16) + 256 * u8 (Z.shiftr (Z.shiftr v 16) 8)) = v.
Proof.
  intros Hv. assert (H16 : 0 ≤ Z.shiftr v 16 < 65536).
  { rewrite Z.shiftr_div_pow2 by lia. change (2 ^ 16) with 65536.
    split; [apply Z.div_pos; lia|apply Z.div_lt_upper_bound; lia]. }
  rewrite (u8_shift16 (Z.shiftr v 16)) by done.
  assert (Hlo : u8 v + 256 * u8 (Z.shiftr v 8) = v mod 65536).
  { unfold u8. rewrite Z.shiftr_div_pow2 by lia. change (2 ^ 8) with 256.
    change 65536 with (256 * 256). rewrite Z.rem_mul_r by lia. done. }
  rewrite Hlo, Z.shiftr_div_pow2 by lia. change (2 ^ 16) with 65536.
  pose proof (Z.div_mod v 65536). lia.
Qed.
Lemma get32_put32 v : 0 ≤ v < 4294967296 → get32 (put32 v) 0 = v.
Proof. apply u8_shift32. Qed.

(** ** Buffers *)

(** Buffer [b] holds [y]. *)
Definition buf_is (s : kernel) (b : nat) (y : buffer_head) : Prop := buffers (k_buf s) !! b = Some y.
Definition set_buf (b : nat) (y : buffer_head) (s : kernel) : kernel :=
  s <| k_buf ::= λ d, d <| buffers ::= <[b := y]> |> |>.

Lemma bh_run s b y : buf_is s b y → bh b s = Ok y s.
Proof.
  intros H. unfold bh, zoom, bh_at, deref. mred. unfold get. rewrite H. mred. by rewrite kernel_buf_id.
Qed.
Lemma set_bh_run s b f y : buf_is s b y → set_bh b f s = Ok tt (set_buf b (f y) s).
Proof. intros H. unfold set_bh, zoom, upd_bh, bh_at, deref. mred. unfold get. by rewrite H. Qed.
Lemma buf_is_set s b y z : buf_is s b y → buf_is (set_buf b z s) b z.
Proof. intros H. apply list_lookup_insert_eq. by eapply lookup_lt_Some. Qed.
Lemma set_buf_set_buf b y z s : set_buf b y (set_buf b z s) = set_buf b y s.
Proof.
  unfold set_buf, set. destruct s as [? ? d ? ? ? ? ?]. simpl. f_equal.
  destruct d. simpl. f_equal. apply list_insert_insert_eq.
Qed.

