(* ===== verification/BufferProofs.v ===== *)
(** * The queues of the buffer cache *)

From stdpp Require Import base option list gmap.
From Stdlib Require Import ZArith Lia.
From S2P Require Import Prelude Types Memory Sched Kernel LinkFacts Blk Buffer.
Local Open Scope Z_scope.

(** ** The link fields as functions *)

Definition nx (s : buffer_state) (b : nat) : option nat := buffers s !! b ≫= b_next.
Definition pv (s : buffer_state) (b : nat) : option nat := buffers s !! b ≫= b_prev.
Definition nf (s : buffer_state) (b : nat) : option nat := buffers s !! b ≫= b_next_free.
Definition pf (s : buffer_state) (b : nat) : option nat := buffers s !! b ≫= b_prev_free.
Definition valid (s : buffer_state) (b : nat) : Prop := (b < length (buffers s))%nat.
Definition key_of (x : buffer_head) : Z * Z := (b_dev x, b_blocknr x).
Definition keys (s : buffer_state) (b : nat) : option (Z * Z) := key_of <$> buffers s !! b.

(** A buffer without its links. *)
Definition body (x : buffer_head) : buffer_head :=
  x <| b_prev := None |> <| b_next := None |> <| b_prev_free := None |> <| b_next_free := None |>.
Definition bodies (s : buffer_state) (b : nat) : option buffer_head := body <$> buffers s !! b.
Lemma keys_bodies s s' b : bodies s' b = bodies s b → keys s' b = keys s b.
Proof.
  unfold bodies, keys. intros H.
  assert (Hk : ∀ o : option buffer_head, key_of <$> o = key_of <$> (body <$> o)) by by intros [].
  by rewrite (Hk (buffers s' !! b)), (Hk (buffers s !! b)), H.
Qed.

(** A store to a field of buffer [b]. *)
Definition bupd (b : nat) (f : buffer_head → buffer_head) (s : buffer_state) : buffer_state :=
  s <| buffers ::= alter f b |>.

Lemma lookup_bupd b f s j :
  buffers (bupd b f s) !! j = if decide (j = b) then f <$> buffers s !! j else buffers s !! j.
Proof.
  unfold bupd. simpl. case_decide as Hj; [subst; apply list_lookup_alter_eq|].
  by apply list_lookup_alter_ne.
Qed.
Lemma upd_bh_run b f s : valid s b → upd_bh b f s = Ok tt (bupd b f s).
Proof.
  intros [x Hx]%lookup_lt_is_Some. unfold upd_bh, bh_at, deref, get, modify. mred. rewrite Hx.
  do 2 f_equal. unfold bupd, set. destruct s as [? l ? ? ?]. simpl in *. f_equal.
  apply list_eq. intros j. destruct (decide (j = b)) as [->|].
  - rewrite list_lookup_alter_eq, Hx, list_lookup_insert_eq; [done|by eapply lookup_lt_Some].
  - by rewrite list_lookup_alter_ne, list_lookup_insert_ne.
Qed.
Lemma bh_at_run b s x : buffers s !! b = Some x → bh_at b s = Ok x s.
Proof. intros Hx. unfold bh_at, deref, get. mred. by rewrite Hx. Qed.
Lemma valid_bupd b f s j : valid (bupd b f s) j ↔ valid s j.
Proof. unfold valid, bupd. simpl. by rewrite length_alter. Qed.

(** A field that the store does not touch, and one that it sets. *)
Lemma field_bupd_other {A} (p : buffer_head → option A) b f s j :
  (∀ x, p (f x) = p x) → buffers (bupd b f s) !! j ≫= p = buffers s !! j ≫= p.
Proof. intros Hf. rewrite lookup_bupd. case_decide; [|done]. destruct (buffers s !! j); simpl; [apply Hf|done]. Qed.
Lemma field_bupd_set {A} (p : buffer_head → option A) b f v s j :
  (∀ x, p (f x) = v) → valid s b →
  buffers (bupd b f s) !! j ≫= p = if decide (j = b) then v else buffers s !! j ≫= p.
Proof.
  intros Hf [x Hx]%lookup_lt_is_Some. rewrite lookup_bupd. case_decide as Hj; [|done]. subst j.
  rewrite Hx. simpl. apply Hf.
Qed.
Lemma bodies_bupd b f s j : (∀ x, body (f x) = body x) → bodies (bupd b f s) j = bodies s j.
Proof.
  intros Hf. unfold bodies. rewrite lookup_bupd. case_decide; [|done].
  destruct (buffers s !! j); simpl; [by rewrite Hf|done].
Qed.

(** ** The invariant *)

Definition slot (k : Z * Z) : Z := _hashfn k.1 k.2.
Lemma slot_bound k : 0 ≤ slot k < NR_HASH.
Proof. apply Z.mod_pos_bound. done. Qed.

(** [ch h] lists the chain of hash slot [h], [fr] the free list. *)
Record queues (s : buffer_state) (ch : Z → list nat) (fr : list nat) : Prop := {
  q_hash : Z.of_nat (length (hash_table s)) = NR_HASH;
  q_head : ∀ h, 0 ≤ h < NR_HASH → zlookup (hash_table s) h = Some (head (ch h));
  q_chain : ∀ h, 0 ≤ h < NR_HASH → chain (nx s) (pv s) (ch h);
  q_nodup : ∀ h, NoDup (ch h);
  q_slot : ∀ h b, b ∈ ch h → ∃ k, keys s b = Some k ∧ k.1 ≠ 0 ∧ slot k = h;
  q_ring : ring (nf s) (pf s) fr;
  q_free_nodup : NoDup fr;
  q_free : free_list s = head fr;
  q_free_valid : ∀ b, b ∈ fr → valid s b
}.
(** The cache, of which the buffer [out] has been taken off the queues: every
    other buffer is on the free list; one that holds a block is on the chain of
    its slot, the others are on none; no block is held twice. *)
Record cache_on (out : option nat) (s : buffer_state) (ch : Z → list nat) (fr : list nat) : Prop := {
  c_queues : queues s ch fr;
  c_out : ∀ b, out = Some b → b ∉ fr ∧ ∀ h, b ∉ ch h;
  c_free : ∀ b, valid s b → out ≠ Some b → b ∈ fr;
  c_hashed : ∀ b k, keys s b = Some k → k.1 ≠ 0 → out ≠ Some b → b ∈ ch (slot k);
  c_unhashed : ∀ b k, keys s b = Some k → k.1 = 0 → out ≠ Some b → nx s b = None ∧ pv s b = None;
  c_unique : ∀ b b' k, keys s b = Some k → keys s b' = Some k → k.1 ≠ 0 →
    out ≠ Some b → out ≠ Some b' → b = b'
}.
Notation cache_ok := (cache_on None).

Lemma keys_valid s b k : keys s b = Some k → valid s b.
Proof. unfold keys. intros (x & Hx & _)%fmap_Some. by eapply lookup_lt_Some. Qed.
Lemma chain_valid s ch fr h b : queues s ch fr → b ∈ ch h → valid s b.
Proof. intros Hq Hb. destruct (q_slot _ _ _ Hq h b Hb) as (k & Hk & _). by eapply keys_valid. Qed.

(** ** find_buffer *)

Lemma find_in_chain_run s dev block l fuel :
  (∀ i b, l !! i = Some b → valid s b ∧ nx s b = l !! S i) → (length l ≤ fuel)%nat →
  find_in_chain fuel dev block (head l) s =
    Ok (head (filter (λ b, keys s b = Some (dev, u32 block)) l)) s.
Proof.
  revert fuel. induction l as [|b l IH]; intros [|fuel] Hl Hf; simpl in Hf; try lia; [done..|].
  destruct (Hl 0%nat b eq_refl) as [[x Hx]%lookup_lt_is_Some Hn]. simpl.
  rewrite (bind_Ok _ _ _ _ _ (bh_at_run _ _ _ Hx)), filter_cons.
  assert (Hk : keys s b = Some (key_of x)) by (unfold keys; by rewrite Hx). rewrite Hk.
  destruct ((b_dev x =? dev) && (b_blocknr x =? u32 block)) eqn:He.
  - apply andb_true_iff in He as [H1%Z.eqb_eq H2%Z.eqb_eq]. rewrite decide_True; [done|].
    unfold key_of. by rewrite H1, H2.
  - rewrite decide_False.
    2: { intros [= H1 H2]. by rewrite H1, H2, !Z.eqb_refl in He. }
    assert (b_next x = head l) as ->.
    { unfold nx in Hn. rewrite Hx in Hn. simpl in Hn. rewrite Hn. by destruct l. }
    apply IH; [|lia]. intros i c Hi. apply (Hl (S i) c Hi).
Qed.

(** Looking a key up in the cache. *)
Definition holds (s : buffer_state) (dev block : Z) (r : option nat) : Prop :=
  match r with
  | Some b => keys s b = Some (dev, block)
  | None => ∀ b, keys s b ≠ Some (dev, block)
  end.

(** find_buffer.  In a well-formed cache the search through one hash chain
    always ends, changes nothing, and finds the buffer of the block if there
    is one anywhere in the cache, and NULL if there is none. *)
Theorem find_buffer_correct (s : buffer_state) (ch : Z → list nat) (fr : list nat) (dev block : Z)
    (Hok : cache_ok s ch fr) (Hdev : dev ≠ 0) (Hblock : 0 ≤ block < 4294967296) :
  ∃ r, find_buffer dev block s = Ok r s ∧ holds s dev block r.
Proof.
  pose proof (c_queues _ _ _ _ Hok) as Hq. set (h := _hashfn dev block).
  assert (Hh : 0 ≤ h < NR_HASH) by (apply Z.mod_pos_bound; done).
  unfold find_buffer, hash_get, deref. mred. unfold get. fold h. rewrite (q_head _ _ _ Hq h Hh).
  assert (Hv : ∀ b, b ∈ ch h → valid s b) by (intros b; by eapply chain_valid).
  rewrite (find_in_chain_run s dev block (ch h)).
  - rewrite u32_small by done. eexists. split; [done|].
    destruct (head _) as [b|] eqn:Hr; simpl.
    + apply head_Some_elem_of, list_elem_of_filter in Hr as [? _]. done.
    + apply head_None in Hr. intros b Hb.
      assert (Hin : b ∈ filter (λ b, keys s b = Some (dev, block)) (ch h)); [|by rewrite Hr in Hin; apply elem_of_nil in Hin].
      apply list_elem_of_filter. split; [done|]. by apply (c_hashed _ _ _ _ Hok b (dev, block)).
  - intros i b Hi. split; [apply Hv; by eapply list_elem_of_lookup_2|].
    by eapply chain_next; [apply (q_chain _ _ _ Hq)|].
  - rewrite <-(length_seq (length (buffers s)) 0). apply submseteq_length, NoDup_submseteq; [apply (q_nodup _ _ _ Hq)|].
    intros b Hb%Hv. apply elem_of_seq. unfold valid in Hb. lia.
Qed.

(** ** remove_from_queues *)

Definition bupd_opt (o : option nat) (f : buffer_head → buffer_head) (s : buffer_state) : buffer_state :=
  match o with Some b => bupd b f s | None => s end.
Definition unchain (on op : option nat) (s : buffer_state) : buffer_state :=
  bupd_opt op (λ y, y <| b_next := on |>) (bupd_opt on (λ y, y <| b_prev := op |>) s).
Definition unhash (b : nat) (k : Z * Z) (on : option nat) (s : buffer_state) : buffer_state :=
  if bool_decide (zlookup (hash_table s) (slot k) = Some (Some b))
  then s <| hash_table ::= zinsert (slot k) on |> else s.
Definition unring (p n : nat) (s : buffer_state) : buffer_state :=
  bupd n (λ y, y <| b_prev_free := Some p |>) (bupd p (λ y, y <| b_next_free := Some n |>) s).
Definition unfree (b : nat) (s : buffer_state) : buffer_state :=
  if bool_decide (free_list s = Some b) then s <| free_list := nf s b |> else s.
Definition removed (b : nat) (k : Z * Z) (on op : option nat) (p n : nat) (s : buffer_state) : buffer_state :=
  unfree b (unring p n (unhash b k on (unchain on op s))).

Lemma valid_bupd_opt o f s j : valid (bupd_opt o f s) j ↔ valid s j.
Proof. destruct o; [apply valid_bupd|done]. Qed.
Lemma valid_unchain on op s j : valid (unchain on op s) j ↔ valid s j.
Proof. unfold unchain. by rewrite !valid_bupd_opt. Qed.
Lemma valid_unhash b k on s j : valid (unhash b k on s) j ↔ valid s j.
Proof. unfold unhash. by case_match. Qed.

Lemma upd_opt_run o f s :
  (∀ b, o = Some b → valid s b) →
  match o with Some b => upd_bh b f | None => mret tt end s = Ok tt (bupd_opt o f s).
Proof. destruct o; intros H; [apply upd_bh_run; by apply H|done]. Qed.
Lemma hash_table_bupd_opt o f s : hash_table (bupd_opt o f s) = hash_table s.
Proof. by destruct o. Qed.

Lemma remove_from_queues_run b s x p n :
  buffers s !! b = Some x → Z.of_nat (length (hash_table s)) = NR_HASH →
  (∀ j, b_next x = Some j → valid s j) → (∀ j, b_prev x = Some j → valid s j) →
  b_prev_free x = Some p → b_next_free x = Some n → valid s p → valid s n →
  remove_from_queues b s = Ok tt (removed b (key_of x) (b_next x) (b_prev x) p n s).
Proof.
  intros Hx Hh Hon Hop Hp Hn Hvp Hvn. unfold remove_from_queues.
  rewrite (bind_Ok _ _ _ _ _ (bh_at_run _ _ _ Hx)).
  erewrite (bind_Ok (match b_next x with _ => _ end)) by by apply upd_opt_run.
  erewrite (bind_Ok (match b_prev x with _ => _ end))
    by (apply upd_opt_run; intros j Hj; rewrite valid_bupd_opt; by apply Hop).
  fold (unchain (b_next x) (b_prev x) s). set (s2 := unchain _ _ s).
  assert (Hs2 : hash_table s2 = hash_table s) by (unfold s2, unchain; by rewrite !hash_table_bupd_opt).
  destruct (zlookup_is_Some (hash_table s2) (slot (key_of x))) as [h Hslot];
    [rewrite Hs2, Hh; apply slot_bound|].
  erewrite (bind_Ok (hash_get _ _) _ s2 h s2).
  2: { unfold hash_get, deref, get. mred. change (_hashfn _ _) with (slot (key_of x)). by rewrite Hslot. }
  erewrite (bind_Ok (when _ _) _ s2 tt (unhash b (key_of x) (b_next x) s2)).
  2: { unfold unhash, when, hash_set, modify. rewrite Hslot.
       by destruct (decide (h = Some b)) as [->|Hne];
         [rewrite !bool_decide_true by done | rewrite !bool_decide_false by congruence]. }
  set (s3 := unhash _ _ _ s2). rewrite Hp, Hn.
  assert (Hv3 : ∀ j, valid s3 j ↔ valid s j) by (intros j; unfold s3, s2; by rewrite valid_unhash, valid_unchain).
  rewrite (bind_Ok _ _ _ _ _ (upd_bh_run p _ s3 ltac:(by apply Hv3))).
  rewrite (bind_Ok _ _ _ _ _ (upd_bh_run n _ _ ltac:(by apply valid_bupd, Hv3))).
  fold (unring p n s3). set (s4 := unring p n s3).
  assert (Hv4 : valid s4 b).
  { unfold s4, unring. rewrite !valid_bupd, Hv3. by eapply lookup_lt_Some. }
  destruct (lookup_lt_is_Some_2 _ _ Hv4) as [y Hy].
  unfold removed. fold s2. fold s3. fold s4. unfold unfree, when. unfold nf. rewrite Hy. simpl.
  change (free_list s3) with (free_list s4). mred. unfold get. case_match; [|done]. by rewrite (bh_at_run _ _ _ Hy).
Qed.

(** What has been removed, field by field. *)
Section Removed.
Variables (b : nat) (x : buffer_head) (p n : nat) (s : buffer_state).
Let s' := removed b (key_of x) (b_next x) (b_prev x) p n s.
Hypothesis (Hon : ∀ j, b_next x = Some j → valid s j) (Hop : ∀ j, b_prev x = Some j → valid s j)
  (Hp : valid s p) (Hn : valid s n).

Lemma removed_field {A} (q : buffer_head → option A) j :
  buffers s' !! j ≫= q = buffers (unring p n (unchain (b_next x) (b_prev x) s)) !! j ≫= q.
Proof. unfold s', removed, unfree, unhash. by repeat case_match. Qed.
Lemma nx_removed j : nx s' j = if decide (b_prev x = Some j) then b_next x else nx s j.
Proof.
  unfold nx. rewrite removed_field. unfold unring. rewrite !field_bupd_other by done.
  unfold unchain. destruct (b_prev x) as [o|] eqn:Ho; cbn [bupd_opt].
  - rewrite (field_bupd_set b_next o _ (b_next x)); [|done|rewrite valid_bupd_opt; by apply Hop].
    repeat case_decide; simplify_eq; try done. by destruct (b_next x); [apply field_bupd_other|].
  - by destruct (b_next x); [apply field_bupd_other|].
Qed.
Lemma pv_removed j : pv s' j = if decide (b_next x = Some j) then b_prev x else pv s j.
Proof.
  unfold pv. rewrite removed_field. unfold unring. rewrite !field_bupd_other by done.
  unfold unchain. assert (H : ∀ s, buffers (bupd_opt (b_prev x) (λ y, y <| b_next := b_next x |>) s) !! j ≫= b_prev
    = buffers s !! j ≫= b_prev) by (intros; by destruct (b_prev x); [apply field_bupd_other|]).
  rewrite H. destruct (b_next x) as [o|] eqn:Ho; cbn [bupd_opt]; [|done].
  rewrite (field_bupd_set b_prev o _ (b_prev x)); [|done|by apply Hon]. repeat case_decide; by simplify_eq.
Qed.
Lemma free_unchain {A} (q : buffer_head → option A) on op j :
  (∀ y v, q (y <| b_prev := v |>) = q y) → (∀ y v, q (y <| b_next := v |>) = q y) →
  buffers (unchain on op s) !! j ≫= q = buffers s !! j ≫= q.
Proof. intros H1 H2. unfold unchain. destruct on, op; cbn [bupd_opt]; by rewrite ?field_bupd_other. Qed.
Lemma nf_removed j : nf s' j = if decide (j = p) then Some n else nf s j.
Proof.
  unfold nf. rewrite removed_field. unfold unring. rewrite field_bupd_other by done.
  rewrite (field_bupd_set b_next_free p _ (Some n)); [|done|by apply valid_unchain]. by rewrite free_unchain.
Qed.
Lemma pf_removed j : pf s' j = if decide (j = n) then Some p else pf s j.
Proof.
  unfold pf. rewrite removed_field. unfold unring.
  rewrite (field_bupd_set b_prev_free n _ (Some p)); [|done|by apply valid_bupd, valid_unchain].
  by rewrite field_bupd_other, free_unchain.
Qed.
Lemma bodies_removed j : bodies s' j = bodies s j.
Proof.
  assert (H : ∀ t, bodies t j = buffers t !! j ≫= λ y, Some (body y)).
  { intros t. unfold bodies. by destruct (buffers t !! j). }
  rewrite !H, removed_field. unfold unring. rewrite !field_bupd_other, free_unchain by done. done.
Qed.
Lemma valid_removed j : valid s' j ↔ valid s j.
Proof.
  assert (H : valid s' j ↔ valid (unring p n (unchain (b_next x) (b_prev x) s)) j)
    by (unfold s', removed, unfree, unhash; by repeat case_match).
  rewrite H. unfold unring. by rewrite !valid_bupd, valid_unchain.
Qed.
Lemma hash_removed :
  hash_table s' = if bool_decide (zlookup (hash_table s) (slot (key_of x)) = Some (Some b))
                  then zinsert (slot (key_of x)) (b_next x) (hash_table s) else hash_table s.
Proof.
  assert (Hu : hash_table (unchain (b_next x) (b_prev x) s) = hash_table s)
    by (unfold unchain; by rewrite !hash_table_bupd_opt).
  unfold s', removed, unfree, unhash. rewrite Hu.
  do 2 case_bool_decide; cbn -[unchain]; by rewrite ?Hu.
Qed.
Lemma free_removed :
  nf s b = Some n → free_list s' = if decide (free_list s = Some b) then Some n else free_list s.
Proof.
  intros Hb.
  set (t := unring p n (unhash b (key_of x) (b_next x) (unchain (b_next x) (b_prev x) s))).
  assert (Hf : free_list t = free_list s).
  { unfold t, unring, unhash, unchain. by destruct (b_next x), (b_prev x); case_match. }
  change s' with (unfree b t). unfold unfree. rewrite Hf.
  case_bool_decide as Hc; [rewrite decide_True by done|by rewrite decide_False].
  simpl. assert (Hnf : nf t b = if decide (b = p) then Some n else nf s b).
  { unfold nf, t, unring. rewrite field_bupd_other by done.
    rewrite (field_bupd_set b_next_free p _ (Some n)); [|done|by apply valid_unhash, valid_unchain].
    assert (Hbu : ∀ t, buffers (unhash b (key_of x) (b_next x) t) = buffers t) by (intros; unfold unhash; by case_match).
    by rewrite Hbu, free_unchain. }
  rewrite Hnf. by case_decide.
Qed.
End Removed.

Definition without (b : nat) (l : list nat) : list nat := filter (λ c, c ≠ b) l.
Lemma elem_of_without b c l : c ∈ without b l ↔ c ≠ b ∧ c ∈ l.
Proof. unfold without. by rewrite list_elem_of_filter. Qed.
Lemma without_id b l : b ∉ l → without b l = l.
Proof.
  unfold without. induction l as [|c l IH]; [done|]. intros [Hc Hb]%not_elem_of_cons.
  by rewrite filter_cons_True, IH by congruence.
Qed.
Lemma without_split b l k : NoDup (l ++ b :: k) → without b (l ++ b :: k) = l ++ k.
Proof.
  intros (_ & H1 & [Hb _]%NoDup_cons)%NoDup_app. unfold without. rewrite filter_app, filter_cons_False by naive_solver.
  f_equal; apply without_id; [|done]. intros Hin. apply (H1 b Hin). left.
Qed.
Lemma NoDup_without b l : NoDup l → NoDup (without b l).
Proof. apply NoDup_filter. Qed.

(** The neighbours of a buffer on its chain. *)
Lemma chain_neighbours s ch fr b x k :
  cache_ok s ch fr → buffers s !! b = Some x → key_of x = k →
  (k.1 = 0 ∧ b_next x = None ∧ b_prev x = None ∧ ∀ h, b ∉ ch h) ∨
  ∃ l r, ch (slot k) = l ++ b :: r ∧ b_prev x = last l ∧ b_next x = head r ∧ ∀ h, h ≠ slot k → b ∉ ch h.
Proof.
  intros Hok Hx Hk. pose proof (c_queues _ _ _ _ Hok) as Hq.
  assert (Hkey : keys s b = Some k) by (unfold keys; by rewrite Hx, <-Hk).
  assert (Hnx : nx s b = b_next x ∧ pv s b = b_prev x) by (unfold nx, pv; by rewrite Hx).
  destruct Hnx as [Hnx Hpv]. destruct (decide (k.1 = 0)) as [H0|H0].
  - left. split; [done|]. destruct (c_unhashed _ _ _ _ Hok b k Hkey H0) as [H1 H2]; [done|].
    split; [congruence|]. split; [congruence|]. intros h Hb.
    destruct (q_slot _ _ _ Hq h b Hb) as (k' & Hk' & Hn & _). congruence.
  - right. pose proof (c_hashed _ _ _ _ Hok b k Hkey H0 ltac:(done)) as Hin.
    apply list_elem_of_split in Hin as (l & r & Hlr). exists l, r. split; [done|].
    pose proof (q_chain _ _ _ Hq (slot k) (slot_bound k)) as Hc. rewrite Hlr in Hc.
    destruct (chain_cut _ _ _ _ _ Hc) as (_ & _ & H1 & H2). split; [congruence|]. split; [congruence|].
    intros h Hh Hb. destruct (q_slot _ _ _ Hq h b Hb) as (k' & Hk' & _ & Hs). congruence.
Qed.

Lemma zlookup_zinsert {A} i j (v : A) l :
  0 ≤ i < Z.of_nat (length l) → zlookup (zinsert i v l) j = if decide (i = j) then Some v else zlookup l j.
Proof. intros Hi. case_decide; [subst; by apply zlookup_zinsert_eq|by apply zlookup_zinsert_ne]. Qed.

Section Remove.
Variables (s : buffer_state) (ch : Z → list nat) (fr : list nat) (b : nat) (x : buffer_head) (p n : nat).
Hypothesis (Hok : cache_ok s ch fr) (Hx : buffers s !! b = Some x).
Let s' := removed b (key_of x) (b_next x) (b_prev x) p n s.

Lemma neighbours_valid :
  (∀ j, b_next x = Some j → valid s j) ∧ (∀ j, b_prev x = Some j → valid s j).
Proof.
  destruct (chain_neighbours s ch fr b x _ Hok Hx eq_refl) as [(_ & H1 & H2 & _)|(l & r & Hc & H1 & H2 & _)].
  - split; intros j Hj; congruence.
  - rewrite H1, H2. split; intros j Hj; (eapply chain_valid; [apply (c_queues _ _ _ _ Hok)|rewrite Hc; apply elem_of_app]).
    + right. right. by apply head_Some_elem_of.
    + left. by apply last_Some_elem_of.
Qed.

Lemma removed_chain h :
  0 ≤ h < NR_HASH →
  zlookup (hash_table s') h = Some (head (without b (ch h))) ∧ chain (nx s') (pv s') (without b (ch h)).
Proof.
  intros Hh. pose proof (c_queues _ _ _ _ Hok) as Hq. destruct neighbours_valid as [Hvn Hvp].
  pose proof (q_head _ _ _ Hq) as Hhead. pose proof (q_chain _ _ _ Hq h Hh) as Hc.
  set (k := slot (key_of x)). pose proof (slot_bound (key_of x)) as Hk. fold k in Hk.
  assert (Hht : hash_table s' = if bool_decide (zlookup (hash_table s) k = Some (Some b))
                  then zinsert k (b_next x) (hash_table s) else hash_table s) by apply hash_removed.
  assert (Hnx : ∀ j, nx s' j = if decide (b_prev x = Some j) then b_next x else nx s j) by (intros; by apply nx_removed).
  assert (Hpv : ∀ j, pv s' j = if decide (b_next x = Some j) then b_prev x else pv s j) by (intros; by apply pv_removed).
  rewrite Hht, (Hhead k Hk).
  destruct (chain_neighbours s ch fr b x _ Hok Hx eq_refl) as [(_ & H1 & H2 & Hb)|(l & r & Hlr & H1 & H2 & Hb)].
  - rewrite bool_decide_false.
    2: { intros [= He]. apply head_Some_elem_of in He. by apply (Hb k). }
    rewrite without_id by done. split; [by apply Hhead|]. eapply chain_ext, Hc; intros a _.
    + rewrite Hnx, H2. by rewrite decide_False.
    + rewrite Hpv, H1. by rewrite decide_False.
  - fold k in Hlr, Hb. destruct (decide (h = k)) as [->|Hne].
    + pose proof (q_nodup _ _ _ Hq k) as Hd. rewrite Hlr in Hd, Hc |- *. rewrite without_split by done. split.
      * destruct l as [|a l]; simpl.
        { rewrite bool_decide_true by done. rewrite zlookup_zinsert_eq; [by rewrite H2|]. by rewrite (q_hash _ _ _ Hq). }
        rewrite bool_decide_false; [rewrite Hhead by done; by rewrite Hlr|].
        intros [= ->]. apply NoDup_cons in Hd as [Hd _]. apply Hd, elem_of_app. right. left.
      * destruct (chain_cut _ _ _ _ _ Hc) as (_ & _ & Hpb & Hnb).
        eapply chain_remove; [done|apply Hc|intros a _..]; rewrite ?Hnx, ?Hpv, ?H1, ?H2, ?Hpb, ?Hnb; done.
    + rewrite without_id by by apply Hb. split.
      * destruct (bool_decide (Some _ = _)); [|by apply Hhead]. rewrite zlookup_zinsert_ne by done. by apply Hhead.
      * assert (Hother : ∀ a, a ∈ ch h → a ∉ ch k).
        { intros a Ha Hak. destruct (q_slot _ _ _ Hq _ _ Ha) as (k1 & ? & _ & ?).
          destruct (q_slot _ _ _ Hq _ _ Hak) as (k2 & ? & _ & ?). congruence. }
        eapply chain_ext, Hc; intros a Ha.
        { rewrite Hnx, H1. rewrite decide_False; [done|]. intros Hl%last_Some_elem_of.
          apply (Hother a Ha). rewrite Hlr. apply elem_of_app. by left. }
        { rewrite Hpv, H2. rewrite decide_False; [done|]. intros Hl%head_Some_elem_of.
          apply (Hother a Ha). rewrite Hlr. apply elem_of_app. right. by right. }
Qed.

(** A buffer that is on no chain is not touched. *)
Lemma removed_unhashed j k :
  valid s p → valid s n → keys s j = Some k → k.1 = 0 → nx s' j = None ∧ pv s' j = None.
Proof.
  intros Hp Hn Hk H0. pose proof (c_queues _ _ _ _ Hok) as Hq. destruct neighbours_valid as [Hvn Hvp].
  destruct (c_unhashed _ _ _ _ Hok j k Hk H0) as [Ha Hb]; [done|].
  assert (Hj : ∀ h, j ∉ ch h).
  { intros h Hj. destruct (q_slot _ _ _ Hq h j Hj) as (k' & Hk' & Hne & _). congruence. }
  unfold s'. rewrite nx_removed, pv_removed by done.
  destruct (chain_neighbours s ch fr b x _ Hok Hx eq_refl) as [(_ & -> & -> & _)|(l & r & Hc & -> & -> & _)]; [done|].
  specialize (Hj (slot (key_of x))). rewrite Hc in Hj.
  rewrite !decide_False; [done|intros Hl%head_Some_elem_of|intros Hl%last_Some_elem_of]; set_solver.
Qed.
End Remove.

(** Taking a buffer off its queues. *)
Lemma remove_queues s ch fr b x :
  cache_ok s ch fr → buffers s !! b = Some x → (2 ≤ length (buffers s))%nat →
  ∃ s', remove_from_queues b s = Ok tt s' ∧
    cache_on (Some b) s' (λ h, without b (ch h)) (without b fr) ∧
    (∀ j, bodies s' j = bodies s j) ∧ length (buffers s') = length (buffers s).
Proof.
  intros Hok Hx H2. pose proof (c_queues _ _ _ _ Hok) as Hq.
  assert (Hb : b ∈ fr) by (apply (c_free _ _ _ _ Hok); [by eapply lookup_lt_Some|done]).
  apply list_elem_of_split in Hb as (l & r & Hlr). pose proof (q_free_nodup _ _ _ Hq) as Hd.
  pose proof (q_ring _ _ _ Hq) as Hr. rewrite Hlr in Hd, Hr.
  assert (Hne : l ++ r ≠ []).
  { assert (∃ j, j ≠ b ∧ valid s j) as (j & Hj & Hv).
    { unfold valid. destruct (decide (b = 0%nat)); [exists 1%nat|exists 0%nat]; lia. }
    apply (c_free _ _ _ _ Hok) in Hv; [|done]. rewrite Hlr in Hv. destruct l, r; simpl in *; try done. set_solver. }
  destruct (ring_remove _ _ _ _ _ Hd Hne Hr) as (p & n & Hp & Hn & Hpin & Hnin & Hnh & Hring).
  assert (Hv : ∀ j, j ∈ l ++ r → valid s j).
  { intros j Hj. apply (q_free_valid _ _ _ Hq). rewrite Hlr. set_solver. }
  destruct (neighbours_valid s ch fr b x Hok Hx) as [Hon Hop].
  assert (Hfx : b_prev_free x = Some p ∧ b_next_free x = Some n) by (unfold nf, pf in *; rewrite Hx in *; done).
  eexists. split.
  { apply (remove_from_queues_run b s x p n Hx (q_hash _ _ _ Hq) Hon Hop); [apply Hfx..|by apply Hv|by apply Hv]. }
  set (s' := removed _ _ _ _ _ _ _).
  assert (Hbody : ∀ j, bodies s' j = bodies s j) by (intros j; by apply bodies_removed).
  assert (Hkey : ∀ j, keys s' j = keys s j) by (intros j; by apply keys_bodies).
  assert (Hval : ∀ j, valid s' j ↔ valid s j) by (intros j; by apply valid_removed).
  split; [|split; [done|]].
  2: { destruct (Hval (length (buffers s))) as [Ha _], (Hval (length (buffers s'))) as [_ Hb'].
       unfold valid in *. lia. }
  rewrite Hlr, without_split by done. split; [split|..].
  - unfold s'. rewrite hash_removed. case_match; rewrite ?length_zinsert; apply (q_hash _ _ _ Hq).
  - intros h Hh. by apply (removed_chain s ch fr b x p n Hok Hx h Hh).
  - intros h Hh. by apply (removed_chain s ch fr b x p n Hok Hx h Hh).
  - intros h. apply NoDup_without, (q_nodup _ _ _ Hq).
  - intros h j [_ Hj]%elem_of_without. rewrite Hkey. by apply (q_slot _ _ _ Hq).
  - apply Hring; intros j _; unfold s'; [apply nf_removed|apply pf_removed]; done || by apply Hv.
  - rewrite <-Permutation_middle in Hd. by apply NoDup_cons in Hd as [_ Hd].
  - unfold s'. rewrite (free_removed b x p n s) by (done || by apply Hv). rewrite (q_free _ _ _ Hq), Hlr.
    destruct l as [|a l]; simpl; [rewrite decide_True by done; rewrite <-Hnh; by rewrite app_nil_r|].
    rewrite decide_False; [done|]. intros [= ->]. apply NoDup_cons in Hd as [Hd _]. set_solver.
  - intros j Hj. by apply Hval, Hv.
  - intros j [= <-]. split; [rewrite <-Permutation_middle in Hd; by apply NoDup_cons in Hd as [? _]|].
    intros h. rewrite elem_of_without. tauto.
  - intros j Hj%Hval Hne'. apply (c_free _ _ _ _ Hok) in Hj; [|done]. rewrite Hlr in Hj. set_solver.
  - intros j k Hk H0 Hj. rewrite elem_of_without. split; [congruence|]. rewrite Hkey in Hk.
    by apply (c_hashed _ _ _ _ Hok).
  - intros j k Hk H0 _. rewrite Hkey in Hk. apply (removed_unhashed s ch fr b x p n Hok Hx j k); [by apply Hv..|done|done].
  - intros j j' k Hj Hj' H0 _ _. rewrite Hkey in Hj, Hj'. by apply (c_unique _ _ _ _ Hok j j' k).
Qed.

(** ** insert_into_queues *)

Definition enring (b h la : nat) (s : buffer_state) : buffer_state :=
  bupd h (λ y, y <| b_prev_free := Some b |>)
    (bupd la (λ y, y <| b_next_free := Some b |>)
      (bupd b (λ y, y <| b_next_free := Some h |> <| b_prev_free := Some la |>) s)).
Definition prechain (b : nat) (o : option nat) (s : buffer_state) : buffer_state :=
  bupd b (λ y, y <| b_next := o |>) (bupd b (λ y, y <| b_prev := None |> <| b_next := None |>) s).
Definition enchain (b : nat) (k : Z * Z) (o : option nat) (s : buffer_state) : buffer_state :=
  prechain b o s <| hash_table ::= zinsert (slot k) (Some b) |>.
(** The state after the queues have been linked, and after the store to the
    [b_prev] of the old head of the chain. *)
Definition linked_in (b : nat) (k : Z * Z) (h la : nat) (o : option nat) (s : buffer_state) : buffer_state :=
  enchain b k o (enring b h la s).
Definition inserted (b : nat) (k : Z * Z) (h la : nat) (o : option nat) (s : buffer_state) : buffer_state :=
  bupd_opt o (λ y, y <| b_prev := Some b |>) (linked_in b k h la o s).

Lemma bodies_lookup s b x : bodies s b = Some x → ∃ y, buffers s !! b = Some y ∧ body y = x.
Proof. unfold bodies. intros (y & Hy & ->)%fmap_Some. eauto. Qed.
Lemma keys_lookup s b k : keys s b = Some k → ∃ y, buffers s !! b = Some y ∧ key_of y = k.
Proof. unfold keys. intros (y & Hy & ->)%fmap_Some. eauto. Qed.

Lemma keys_enring b h la s j : keys (enring b h la s) j = keys s j.
Proof. apply keys_bodies. unfold enring. by rewrite !bodies_bupd. Qed.

(** [run_upd]: do the next store to a valid buffer. *)
Ltac run_upd :=
  lazymatch goal with
  | |- context [(upd_bh ?b ?f ≫= _) ?s] =>
      rewrite (bind_Ok (upd_bh b f) _ s tt (bupd b f s)) by (apply upd_bh_run; rewrite ?valid_bupd; assumption)
  end.

Lemma link_into_queues_run s ch fr b k h la :
  cache_on (Some b) s ch fr → keys s b = Some k → k.1 ≠ 0 → head fr = Some h → last fr = Some la →
  link_into_queues b s = Ok (Some (head (ch (slot k)))) (linked_in b k h la (head (ch (slot k))) s).
Proof.
  intros Hok Hk Hdev Hh Hla. pose proof (c_queues _ _ _ _ Hok) as Hq.
  destruct (c_out _ _ _ _ Hok b eq_refl) as [Hbf Hbc].
  assert (Hvh : valid s h) by (apply (q_free_valid _ _ _ Hq); by apply head_Some_elem_of).
  assert (Hvl : valid s la) by (apply (q_free_valid _ _ _ Hq); by apply last_Some_elem_of).
  assert (Hvb : valid s b) by by eapply keys_valid.
  pose proof (q_ring _ _ _ Hq) as Hr. apply (ring_linked _ _ h fr la Hh Hla) in Hr as (_ & _ & Hpf).
  destruct (lookup_lt_is_Some_2 _ _ Hvh) as [f Hf].
  assert (b_prev_free f = Some la) as Hfl by (unfold pf in Hpf; by rewrite Hf in Hpf).
  unfold link_into_queues. rewrite (bind_Ok get _ s s s eq_refl). erewrite (bind_Ok (deref _)) by (unfold deref; by rewrite (q_free _ _ _ Hq), Hh).
  rewrite (bind_Ok _ _ _ _ _ (bh_at_run _ _ _ Hf)), Hfl.
  run_upd. erewrite (bind_Ok (deref _)) by reflexivity. do 2 run_upd.
  fold (enring b h la s). set (s1 := enring b h la s).
  assert (Hv1 : valid s1 b) by (unfold s1, enring; by rewrite !valid_bupd).
  run_upd. set (s2 := bupd b _ s1).
  assert (Hk2 : keys s2 b = Some k).
  { rewrite <-Hk. transitivity (keys s1 b); [apply keys_bodies; unfold s2; by rewrite bodies_bupd|apply keys_enring]. }
  destruct (keys_lookup _ _ _ Hk2) as (x & Hx & Hkx).
  rewrite (bind_Ok _ _ _ _ _ (bh_at_run _ _ _ Hx)).
  destruct (Z.eqb_spec (b_dev x) 0) as [H0|_]; [by rewrite <-Hkx in Hdev|].
  erewrite (bind_Ok (hash_get _ _) _ s2 (head (ch (slot k))) s2).
  2: { unfold hash_get, deref, get. mred. change (_hashfn _ _) with (slot (key_of x)). rewrite Hkx.
       change (hash_table s2) with (hash_table s). by rewrite (q_head _ _ _ Hq _ (slot_bound k)). }
  assert (Hv2 : valid s2 b) by by apply valid_bupd. run_upd.
  unfold hash_set, modify. mred. change (_hashfn _ _) with (slot (key_of x)). by rewrite Hkx.
Qed.

Lemma valid_enring b h la s j : valid (enring b h la s) j ↔ valid s j.
Proof. unfold enring. by rewrite !valid_bupd. Qed.

Section Insert.
Variables (s : buffer_state) (ch : Z → list nat) (fr : list nat) (b : nat) (k : Z * Z) (h la : nat).
Hypothesis (Hok : cache_on (Some b) s ch fr) (Hk : keys s b = Some k) (Hdev : k.1 ≠ 0)
  (Hh : head fr = Some h) (Hla : last fr = Some la).
Let o := head (ch (slot k)).
Let s' := inserted b k h la o s.

Let Hq : queues s ch fr := c_queues _ _ _ _ Hok.
Lemma insert_valid : valid s b ∧ valid s h ∧ valid s la ∧ ∀ n, o = Some n → valid s n.
Proof.
  split; [by eapply keys_valid|]. split; [apply (q_free_valid _ _ _ Hq); by apply head_Some_elem_of|].
  split; [apply (q_free_valid _ _ _ Hq); by apply last_Some_elem_of|].
  intros n Hn%head_Some_elem_of. by eapply chain_valid.
Qed.
Lemma inserted_field {A} (q : buffer_head → option A) j :
  (∀ y v, q (y <| b_prev := v |>) = q y) →
  buffers s' !! j ≫= q = buffers (prechain b o (enring b h la s)) !! j ≫= q.
Proof.
  intros Hp. unfold s', inserted. destruct o; cbn [bupd_opt]; [rewrite field_bupd_other by (intros; apply Hp)|]; done.
Qed.
Lemma nx_inserted j : nx s' j = if decide (j = b) then o else nx s j.
Proof.
  destruct insert_valid as (Hb & _). unfold nx. rewrite inserted_field by done. unfold prechain.
  rewrite (field_bupd_set b_next b _ o) by (first [done|rewrite ?valid_bupd, ?valid_enring; done]).
  case_decide; [done|]. rewrite (field_bupd_set b_next b _ None) by (first [done|rewrite ?valid_bupd, ?valid_enring; done]).
  rewrite decide_False by done. unfold enring. by rewrite !field_bupd_other.
Qed.
Lemma pv_inserted j :
  pv s' j = if decide (o = Some j) then Some b else if decide (j = b) then None else pv s j.
Proof.
  destruct insert_valid as (Hb & _ & _ & Hn).
  assert (Hbase : buffers (linked_in b k h la o s) !! j ≫= b_prev = if decide (j = b) then None else pv s j).
  { change (buffers (linked_in b k h la o s)) with (buffers (prechain b o (enring b h la s))).
    unfold prechain. rewrite field_bupd_other by done.
    rewrite (field_bupd_set b_prev b _ None) by (first [done|rewrite ?valid_bupd, ?valid_enring; done]).
    unfold enring. by rewrite !field_bupd_other. }
  unfold pv, s', inserted. destruct o as [n|]; cbn [bupd_opt]; [|by rewrite Hbase].
  rewrite (field_bupd_set b_prev n _ (Some b)), Hbase; [|done|].
  - repeat case_decide; simplify_eq; done.
  - unfold linked_in, enchain, prechain, enring, valid. cbn. rewrite !length_alter. by apply Hn.
Qed.
Lemma free_inserted {A} (q : buffer_head → option A) j :
  (∀ y v, q (y <| b_prev := v |>) = q y) → (∀ y v, q (y <| b_next := v |>) = q y) →
  buffers s' !! j ≫= q = buffers (enring b h la s) !! j ≫= q.
Proof. intros H1 H2. rewrite inserted_field by done. unfold prechain. by rewrite !field_bupd_other by (intros; by rewrite ?H2, ?H1). Qed.
Lemma nf_inserted j :
  nf s' j = if decide (j = la) then Some b else if decide (j = b) then Some h else nf s j.
Proof.
  destruct insert_valid as (Hb & Hvh & Hvl & _). unfold nf. rewrite free_inserted by done. unfold enring.
  rewrite field_bupd_other, (field_bupd_set b_next_free la _ (Some b)) by (done || (rewrite ?valid_bupd; done)).
  by rewrite (field_bupd_set b_next_free b _ (Some h)).
Qed.
Lemma pf_inserted j :
  pf s' j = if decide (j = h) then Some b else if decide (j = b) then Some la else pf s j.
Proof.
  destruct insert_valid as (Hb & Hvh & Hvl & _). unfold pf. rewrite free_inserted by done. unfold enring.
  rewrite (field_bupd_set b_prev_free h _ (Some b)) by (done || (rewrite ?valid_bupd; done)).
  by rewrite field_bupd_other, (field_bupd_set b_prev_free b _ (Some la)).
Qed.
Lemma bodies_inserted j : bodies s' j = bodies s j.
Proof.
  unfold s', inserted. transitivity (bodies (linked_in b k h la o s) j).
  - destruct o; cbn [bupd_opt]; [by apply bodies_bupd|done].
  - change (bodies (prechain b o (enring b h la s)) j = bodies s j).
    unfold prechain, enring. by rewrite !bodies_bupd.
Qed.
Lemma length_inserted : length (buffers s') = length (buffers s).
Proof.
  unfold s', inserted, linked_in, enchain, prechain, enring. destruct o; simpl; by rewrite !length_alter.
Qed.
End Insert.

(** A chain with [b] pushed on the one of its slot. *)
Definition pushed (b : nat) (k : Z * Z) (ch : Z → list nat) (h : Z) : list nat :=
  if decide (h = slot k) then b :: ch h else ch h.

Lemma inserted_chain s ch fr b k h la i :
  cache_on (Some b) s ch fr → keys s b = Some k → head fr = Some h → last fr = Some la →
  0 ≤ i < NR_HASH → let s' := inserted b k h la (head (ch (slot k))) s in
  zlookup (hash_table s') i = Some (head (pushed b k ch i)) ∧ chain (nx s') (pv s') (pushed b k ch i).
Proof.
  intros Hok Hk Hh Hla Hi s'. pose proof (c_queues _ _ _ _ Hok) as Hq.
  destruct (c_out _ _ _ _ Hok b eq_refl) as [_ Hbc].
  pose proof (nx_inserted s ch fr b k h la Hok Hk Hh Hla) as Hnx.
  pose proof (pv_inserted s ch fr b k h la Hok Hk Hh Hla) as Hpv. fold s' in Hnx, Hpv.
  assert (Hht : hash_table s' = zinsert (slot k) (Some b) (hash_table s)).
  { unfold s', inserted. rewrite hash_table_bupd_opt. reflexivity. }
  pose proof (q_chain _ _ _ Hq i Hi) as Hc. unfold pushed. rewrite Hht.
  rewrite zlookup_zinsert by (rewrite (q_hash _ _ _ Hq); apply slot_bound).
  destruct (decide (i = slot k)) as [->|Hne].
  - rewrite decide_True by done. split; [done|]. eapply (chain_push _ _ _ _ b _ (Hbc _) Hc).
    + by rewrite Hnx, decide_True.
    + rewrite Hpv, decide_False, decide_True by first [done|intros Hb%head_Some_elem_of; by apply (Hbc (slot k))]. done.
    + intros a Ha. rewrite Hnx, decide_False; [done|]. intros ->. by apply (Hbc (slot k)).
    + intros a Ha. rewrite Hpv. case_decide; [done|]. rewrite decide_False; [done|]. intros ->. by apply (Hbc (slot k)).
    + apply (q_nodup _ _ _ Hq).
  - rewrite decide_False by done. split; [by apply (q_head _ _ _ Hq)|].
    eapply chain_ext, Hc; intros a Ha; assert (a ≠ b) by (intros ->; by apply (Hbc i)).
    + by rewrite Hnx, decide_False.
    + rewrite Hpv, decide_False, decide_False; [done|done|]. intros Hb%head_Some_elem_of.
      destruct (q_slot _ _ _ Hq _ _ Ha) as (k1 & ? & _ & ?), (q_slot _ _ _ Hq _ _ Hb) as (k2 & ? & _ & ?). congruence.
Qed.

(** Linking a buffer into its queues. *)
Lemma insert_queues s ch fr b k h la :
  cache_on (Some b) s ch fr → keys s b = Some k → k.1 ≠ 0 → (∀ j, j ≠ b → keys s j ≠ Some k) →
  head fr = Some h → last fr = Some la →
  cache_ok (inserted b k h la (head (ch (slot k))) s) (pushed b k ch) (fr ++ [b]).
Proof.
  intros Hok Hk Hdev Hfresh Hh Hla. set (s' := inserted _ _ _ _ _ _). pose proof (c_queues _ _ _ _ Hok) as Hq.
  destruct (c_out _ _ _ _ Hok b eq_refl) as [Hbf Hbc].
  assert (Hbody : ∀ j, bodies s' j = bodies s j) by (intros; apply bodies_inserted).
  assert (Hkey : ∀ j, keys s' j = keys s j) by (intros j; by apply keys_bodies).
  assert (Hval : ∀ j, valid s' j ↔ valid s j) by (intros j; unfold valid, s'; by rewrite length_inserted).
  pose proof (inserted_chain s ch fr b k h la) as Hch. fold s' in Hch.
  assert (Hin : ∀ i j, j ∈ pushed b k ch i ↔ (i = slot k ∧ j = b) ∨ j ∈ ch i).
  { intros i j. unfold pushed. case_decide; [rewrite elem_of_cons|]; naive_solver. }
  split; [split|..].
  - unfold s', inserted, linked_in, enchain. destruct (head (ch (slot k))); cbn; rewrite length_zinsert; apply (q_hash _ _ _ Hq).
  - intros i Hi. by apply Hch.
  - intros i Hi. by apply Hch.
  - intros i. unfold pushed. case_decide; [apply NoDup_cons; split; [apply Hbc|]|]; apply (q_nodup _ _ _ Hq).
  - intros i j. rewrite Hin, Hkey. intros [[-> ->]|Hj]; [by exists k|by apply (q_slot _ _ _ Hq)].
  - pose proof (nf_inserted s ch fr b k h la Hok Hk Hh Hla) as Hnf.
    pose proof (pf_inserted s ch fr b k h la Hok Hk Hh Hla) as Hpf. fold s' in Hnf, Hpf.
    assert (Hla' : la ≠ b) by (intros ->; by apply Hbf, last_Some_elem_of).
    assert (Hh' : h ≠ b) by (intros ->; by apply Hbf, head_Some_elem_of).
    apply (ring_insert (nf s) (pf s) (nf s') (pf s') h fr la b (q_free_nodup _ _ _ Hq) Hbf Hh Hla (q_ring _ _ _ Hq)).
    + by rewrite Hnf, decide_False, decide_True by done.
    + by rewrite Hpf, decide_False, decide_True by done.
    + intros a Ha. rewrite Hnf. case_decide; [done|]. rewrite decide_False; [done|]. by intros ->.
    + intros a Ha. rewrite Hpf. case_decide; [done|]. rewrite decide_False; [done|]. by intros ->.
  - apply NoDup_app. split; [apply (q_free_nodup _ _ _ Hq)|]. split; [|apply NoDup_singleton]. set_solver.
  - assert (Hf : free_list s' = free_list s) by (unfold s', inserted; destruct (head (ch (slot k))); reflexivity).
    rewrite Hf, (q_free _ _ _ Hq). by destruct fr.
  - intros j [Hj| ->%list_elem_of_singleton]%elem_of_app; apply Hval; [by apply (q_free_valid _ _ _ Hq)|by eapply keys_valid].
  - done.
  - intros j Hj%Hval _. rewrite elem_of_app, list_elem_of_singleton.
    destruct (decide (j = b)); [by right|left]. apply (c_free _ _ _ _ Hok); congruence.
  - intros j k' Hj H0 _. rewrite Hkey in Hj. rewrite Hin. destruct (decide (j = b)) as [->|]; [left; split; congruence|].
    right. apply (c_hashed _ _ _ _ Hok); congruence.
  - intros j k' Hj H0 _. rewrite Hkey in Hj. assert (Hjb : j ≠ b) by congruence.
    destruct (c_unhashed _ _ _ _ Hok j k' Hj H0) as [H1 H2]; [congruence|].
    unfold s'. rewrite (nx_inserted s ch fr), (pv_inserted s ch fr), decide_False by done.
    split; [done|]. rewrite decide_False, decide_False; [done|done|]. intros Hd%head_Some_elem_of.
    destruct (q_slot _ _ _ Hq _ _ Hd) as (k1 & ? & ? & _). congruence.
  - intros j j' k' Hj Hj' H0 _ _. rewrite Hkey in Hj, Hj'.
    destruct (decide (j = b)) as [->|Hjb], (decide (j' = b)) as [->|Hjb']; [done|..].
    + exfalso. apply (Hfresh j' Hjb'). congruence.
    + exfalso. apply (Hfresh j Hjb). congruence.
    + apply (c_unique _ _ _ _ Hok j j' k'); congruence.
Qed.
