(* ===== verification/GetblkProofs.v ===== *)
(** * getblk on a well-formed cache *)

From stdpp Require Import base option list gmap.
From Stdlib Require Import ZArith Lia.
From S2P Require Import Prelude Types Memory Sched Kernel KernelFacts LinkFacts Blk Buffer BlockFacts BufferProofs.
Local Open Scope Z_scope.
Notation cache_ok := (cache_on None).

Definition set_k_buf (s : buffer_state) (K : kernel) : kernel := K <| k_buf := s |>.

Lemma zoom_buf_run {A} (m : M buffer_state A) K a s :
  m (k_buf K) = Ok a s → zoom k_buf m K = Ok a (set_k_buf s K).
Proof. intros H. unfold zoom. by rewrite H. Qed.
Lemma set_bh_bupd b f K : valid (k_buf K) b → set_bh b f K = Ok tt (set_k_buf (bupd b f (k_buf K)) K).
Proof. intros H. by apply zoom_buf_run, upd_bh_run. Qed.
Lemma set_k_buf_set s s' K : set_k_buf s (set_k_buf s' K) = set_k_buf s K.
Proof. done. Qed.
Lemma set_k_buf_id K : set_k_buf (k_buf K) K = K.
Proof. apply kernel_buf_id. Qed.

(** The invariant does not depend on the contents of the buffers, nor on the
    key of the one that is off the queues. *)
Lemma cache_on_ext out s s' ch fr :
  hash_table s' = hash_table s → free_list s' = free_list s → length (buffers s') = length (buffers s) →
  (∀ j, nx s' j = nx s j) → (∀ j, pv s' j = pv s j) → (∀ j, nf s' j = nf s j) → (∀ j, pf s' j = pf s j) →
  (∀ j, out ≠ Some j → keys s' j = keys s j) →
  cache_on out s ch fr → cache_on out s' ch fr.
Proof.
  intros Hht Hfl Hlen Hnx Hpv Hnf Hpf Hk Hok. pose proof (c_queues _ _ _ _ Hok) as Hq.
  assert (Hv : ∀ j, valid s' j ↔ valid s j) by (intros j; unfold valid; by rewrite Hlen).
  assert (Hch : ∀ h j, j ∈ ch h → out ≠ Some j) by (intros h j Hj ->; by apply (c_out _ _ _ _ Hok j eq_refl) in Hj).
  split; [split|..].
  - rewrite Hht. apply (q_hash _ _ _ Hq).
  - intros h Hh. rewrite Hht. by apply (q_head _ _ _ Hq).
  - intros h Hh. apply (chain_ext (nx s) (pv s)); [by intros..|by apply (q_chain _ _ _ Hq)].
  - apply (q_nodup _ _ _ Hq).
  - intros h b Hb. rewrite Hk by by eapply Hch. by apply (q_slot _ _ _ Hq).
  - apply (ring_ext (nf s) (pf s)); [by intros..|apply (q_ring _ _ _ Hq)].
  - apply (q_free_nodup _ _ _ Hq).
  - rewrite Hfl. apply (q_free _ _ _ Hq).
  - intros b Hb. by apply Hv, (q_free_valid _ _ _ Hq).
  - apply (c_out _ _ _ _ Hok).
  - intros b Hb%Hv. by apply (c_free _ _ _ _ Hok).
  - intros b k Hb H0 Ho. rewrite Hk in Hb by done. by apply (c_hashed _ _ _ _ Hok).
  - intros b k Hb H0 Ho. rewrite Hk in Hb by done. rewrite Hnx, Hpv. by apply (c_unhashed _ _ _ _ Hok b k).
  - intros b b' k Hb Hb' H0 Ho Ho'. rewrite Hk in Hb, Hb' by done. by apply (c_unique _ _ _ _ Hok b b' k).
Qed.
(** A store to a field that is no link. *)
Lemma cache_on_bupd out s ch fr b f :
  (∀ x, b_next (f x) = b_next x ∧ b_prev (f x) = b_prev x ∧
        b_next_free (f x) = b_next_free x ∧ b_prev_free (f x) = b_prev_free x) →
  (out = Some b ∨ ∀ x, key_of (f x) = key_of x) →
  cache_on out s ch fr → cache_on out (bupd b f s) ch fr.
Proof.
  intros Hf Hk. apply cache_on_ext; [done|done|unfold bupd; simpl; by rewrite length_alter|..];
    intros j; try (unfold nx, pv, nf, pf; apply field_bupd_other; apply Hf).
  intros Ho. unfold keys. rewrite lookup_bupd. case_decide as Hj; [subst j|done].
  destruct Hk as [->|Hk]; [done|]. destruct (buffers s !! b); simpl; [by rewrite Hk|done].
Qed.

(** What one call may change outside the buffer cache: the store through the
    null pointer when the chain of the slot was empty. *)
Definition same_rest (K K' : kernel) : Prop :=
  k_sched K' = k_sched K ∧ k_blk K' = k_blk K ∧ k_fs K' = k_fs K ∧ k_tty K' = k_tty K ∧
  k_user K' = k_user K ∧ switches K' = switches K ∧ mem_map (k_mm K') = mem_map (k_mm K) ∧
  ∀ a, a ≠ B_PREV_OFFSET → word (k_mm K') a = word (k_mm K) a.

Lemma insert_into_queues_run K ch fr b k h la :
  let s := k_buf K in
  cache_on (Some b) s ch fr → keys s b = Some k → k.1 ≠ 0 → head fr = Some h → last fr = Some la →
  ∃ K', insert_into_queues b K = Ok tt K' ∧ k_buf K' = inserted b k h la (head (ch (slot k))) s ∧ same_rest K K'.
Proof.
  intros s Hok Hk Hdev Hh Hla. unfold insert_into_queues.
  pose proof (link_into_queues_run s ch fr b k h la Hok Hk Hdev Hh Hla) as Hrun.
  rewrite (bind_Ok _ _ _ _ _ (zoom_buf_run _ _ _ _ Hrun)). unfold inserted.
  assert (Hv : ∀ n, head (ch (slot k)) = Some n → valid (linked_in b k h la (head (ch (slot k))) s) n).
  { intros n Hn%head_Some_elem_of.
    assert (valid s n) by by eapply chain_valid; [apply (c_queues _ _ _ _ Hok)|].
    unfold linked_in, enchain, prechain, enring, valid. cbn. by rewrite !length_alter. }
  destruct (head (ch (slot k))) as [n|]; cbn [bupd_opt].
  - rewrite set_bh_bupd by by apply Hv. eexists. split; [done|]. split; [done|]. by split_and!.
  - eexists. split; [done|]. split; [done|]. split_and!; try done. intros a Ha.
    unfold word. simpl. by rewrite lookup_insert_ne.
Qed.

(** The buffer [x] after it has been made the buffer of a block. *)
Definition rekeyed (dev block : Z) (x : buffer_head) : buffer_head :=
  body x <| b_dev := dev |> <| b_blocknr := block |> <| b_count := 1 |> <| b_dirt := 0 |> <| b_uptodate := 0 |>.
(** [b] of [s'] holds the block, and nothing else differs from [s]. *)
Definition rekeys (s s' : buffer_state) (b : nat) (x : buffer_head) (dev block : Z) : Prop :=
  bodies s' b = Some (rekeyed dev block x) ∧ (∀ j, j ≠ b → bodies s' j = bodies s j) ∧
  length (buffers s') = length (buffers s).

Lemma length_bupd b f s : length (buffers (bupd b f s)) = length (buffers s).
Proof. unfold bupd. simpl. apply length_alter. Qed.
Lemma bodies_bupd_ne b f s j : j ≠ b → bodies (bupd b f s) j = bodies s j.
Proof. intros Hj. unfold bodies. by rewrite lookup_bupd, decide_False. Qed.
Lemma rekeyed_key s b x dev block : bodies s b = Some (rekeyed dev block x) → keys s b = Some (dev, block).
Proof.
  intros (y & Hy & Hby)%bodies_lookup. unfold keys. rewrite Hy. simpl. f_equal.
  change (key_of y) with (key_of (body y)). by rewrite Hby.
Qed.

(** The steps of getblk that take the buffer off its queues and give it its
    new key. *)
Lemma detach_run K ch fr b x dev block (rest : M kernel unit) :
  let s := k_buf K in
  cache_ok s ch fr → buffers s !! b = Some x → (2 ≤ length (buffers s))%nat →
  0 < dev < 65536 → 0 ≤ block < 4294967296 →
  ∃ s', (set_bh b (λ x, x <| b_count := 1 |> <| b_dirt := 0 |> <| b_uptodate := 0 |>) ;;
         zoom k_buf (remove_from_queues b) ;;
         set_bh b (λ x, x <| b_dev := u16 dev |> <| b_blocknr := u32 block |>) ;;
         rest) K = rest (set_k_buf s' K) ∧
    cache_on (Some b) s' (λ h, without b (ch h)) (without b fr) ∧ rekeys s s' b x dev block.
Proof.
  intros s Hok Hx H2 Hdev Hblock. assert (Hvb : valid s b) by by eapply lookup_lt_Some.
  rewrite (bind_Ok _ _ _ _ _ (set_bh_bupd b _ K Hvb)). set (s1 := bupd b _ (k_buf K)).
  set (x1 := x <| b_count := 1 |> <| b_dirt := 0 |> <| b_uptodate := 0 |>).
  assert (Hx1 : buffers s1 !! b = Some x1).
  { unfold s1. rewrite lookup_bupd, decide_True by done. fold s. by rewrite Hx. }
  destruct (remove_queues s1 ch fr b x1) as (s2 & Hrun & Hok2 & Hb2 & Hl2);
    [apply cache_on_bupd; [done|by right|done]|done|unfold s1; by rewrite length_bupd|].
  rewrite (bind_Ok _ _ _ _ _ (zoom_buf_run _ (set_k_buf s1 K) _ _ Hrun)), set_k_buf_set.
  assert (Hv2 : valid s2 b) by (unfold valid; rewrite Hl2; unfold s1; by rewrite length_bupd).
  rewrite (bind_Ok _ _ _ _ _ (set_bh_bupd b _ (set_k_buf s2 K) Hv2)), set_k_buf_set.
  change (k_buf (set_k_buf s2 K)) with s2. eexists. split; [reflexivity|].
  split; [apply cache_on_bupd; [done|by left|done]|]. split_and!.
  - specialize (Hb2 b). unfold bodies in Hb2 |- *. rewrite Hx1 in Hb2.
    apply fmap_Some in Hb2 as (y & Hy & Hby). rewrite lookup_bupd, decide_True, Hy by done. simpl.
    rewrite u16_small, u32_small by lia. f_equal. unfold rekeyed.
    transitivity (body y <| b_dev := dev |> <| b_blocknr := block |>); [done|]. by rewrite <-Hby.
  - intros j Hj. rewrite bodies_bupd_ne by done. rewrite Hb2. by apply bodies_bupd_ne.
  - rewrite length_bupd, Hl2. apply length_bupd.
Qed.

Lemma keys_other s s' b x dev block j :
  rekeys s s' b x dev block → j ≠ b → keys s' j = keys s j.
Proof. intros (_ & H & _) Hj. by apply keys_bodies, H. Qed.
Lemma without_nonempty s ch fr b :
  cache_ok s ch fr → (2 ≤ length (buffers s))%nat → without b fr ≠ [].
Proof.
  intros Hok H2 Hn. assert (∃ j, j ≠ b ∧ valid s j) as (j & Hj & Hv).
  { unfold valid. destruct (decide (b = 0%nat)); [exists 1%nat|exists 0%nat]; lia. }
  apply (c_free _ _ _ _ Hok) in Hv; [|done].
  assert (Hin : j ∈ without b fr) by by apply elem_of_without. rewrite Hn in Hin. by apply elem_of_nil in Hin.
Qed.

Lemma take_over_run K ch fr b x dev block :
  let s := k_buf K in
  cache_ok s ch fr → buffers s !! b = Some x → (2 ≤ length (buffers s))%nat →
  0 < dev < 65536 → 0 ≤ block < 4294967296 → (∀ j, keys s j ≠ Some (dev, block)) →
  ∃ K' ch', take_over b dev block K = Ok tt K' ∧
    cache_ok (k_buf K') ch' (without b fr ++ [b]) ∧ rekeys s (k_buf K') b x dev block ∧ same_rest K K'.
Proof.
  intros s Hok Hx H2 Hdev Hblock Hfresh. unfold take_over.
  destruct (detach_run K ch fr b x dev block (insert_into_queues b) Hok Hx H2 Hdev Hblock) as (s3 & -> & Hok3 & Hre).
  pose proof Hre as (Hb3 & Hoth & Hlen). pose proof (rekeyed_key _ _ _ _ _ Hb3) as Hk3.
  destruct (head (without b fr)) as [h|] eqn:Hh; [|apply head_None in Hh; by apply (without_nonempty _ _ _ b Hok H2) in Hh].
  destruct (last (without b fr)) as [la|] eqn:Hla; [|apply last_None in Hla; by apply (without_nonempty _ _ _ b Hok H2) in Hla].
  destruct (insert_into_queues_run (set_k_buf s3 K) _ _ b (dev, block) h la Hok3 Hk3 ltac:(simpl; lia) Hh Hla) as (K' & Hrun & Hbuf & Hrest).
  exists K', (pushed b (dev, block) (λ h, without b (ch h))). split; [done|]. rewrite Hbuf.
  change (k_buf (set_k_buf s3 K)) with s3. split; [|split].
  - apply (insert_queues s3 (λ h, without b (ch h)) (without b fr) b (dev, block) h la); [done|done|simpl; lia| |done|done].
    intros j Hj. rewrite (keys_other _ _ _ _ _ _ _ Hre Hj). apply Hfresh.
  - pose proof (bodies_inserted s3 (λ h, without b (ch h)) b (dev, block) h la) as Hbi.
    split; [by rewrite Hbi|]. split; [|by rewrite (length_inserted s3 (λ h, without b (ch h)))].
    intros j Hj. rewrite Hbi. by apply Hoth.
  - done.
Qed.

(** ** The search for an unused buffer *)

(** What getblk looks for: an unused buffer that is clean and unlocked. *)
Definition spare (s : buffer_state) (b : nat) : Prop :=
  ∃ x, buffers s !! b = Some x ∧ b_count x = 0 ∧ BADNESS x = 0.
Definition badness_ok (s : buffer_state) : Prop := ∀ b x, buffers s !! b = Some x → 0 ≤ b_dirt x ∧ 0 ≤ b_lock x.
(** The candidate that the loop of getblk carries along. *)
Definition candidate_ok (s : buffer_state) (c : option nat) : Prop :=
  ∀ b, c = Some b → ∃ y, buffers s !! b = Some y ∧ 0 < BADNESS y.

Lemma scan_free_run s ch fr pre suf b0 fuel c :
  cache_ok s ch fr → badness_ok s → fr = pre ++ suf → head suf = Some b0 → candidate_ok s c →
  (∃ b, b ∈ suf ∧ spare s b) → (length suf ≤ fuel)%nat →
  ∃ b, scan_free fuel b0 c s = Ok (Some b) s ∧ spare s b.
Proof.
  intros Hok Hbad. revert pre b0 fuel c.
  induction suf as [|t suf IH]; intros pre b0 [|fuel] c Hfr Hb0 Hc Hsp Hf; simplify_eq/=; try lia.
  pose proof (c_queues _ _ _ _ Hok) as Hq.
  assert (Hvt : valid s b0) by (apply (q_free_valid _ _ _ Hq); set_solver).
  destruct (lookup_lt_is_Some_2 _ _ Hvt) as [x Hx].
  rewrite (bind_Ok _ _ _ _ _ (bh_at_run _ _ _ Hx)).
  set (better := if truth (b_count x) then false else
    match c with None => true | Some b => BADNESS x <? default 0 (BADNESS <$> buffers s !! b) end).
  erewrite (bind_Ok _ _ s better s).
  2: { unfold better. destruct (truth (b_count x)); [done|]. destruct c as [d|]; [|done].
       destruct (Hc d eq_refl) as (y & Hy & _). by rewrite (bind_Ok _ _ _ _ _ (bh_at_run _ _ _ Hy)), Hy. }
  destruct (Hbad b0 x Hx) as [Hd Hl]. cbv beta.
  destruct (better && (BADNESS x =? 0)) eqn:Hfound.
  { apply andb_true_iff in Hfound as [Hb H0%Z.eqb_eq]. rewrite Hb. exists b0. split; [done|]. exists x.
    split; [done|]. split; [|done]. unfold better in Hb. destruct (truth (b_count x)) eqn:Ht; [done|]. by apply truth_false in Ht. }
  assert (Hns : ¬ spare s b0).
  { intros (x' & Hx' & H1 & H2). simplify_eq. rewrite H2, andb_true_r in Hfound. unfold better in Hfound.
    rewrite (proj2 (truth_false _) H1) in Hfound. destruct c as [d|]; [|done].
    destruct (Hc d eq_refl) as (y & Hy & Hpos). rewrite Hy in Hfound. simpl in Hfound. lia. }
  destruct suf as [|n suf]; [destruct Hsp as (b & ->%list_elem_of_singleton & Hs); done|].
  pose proof (q_ring _ _ _ Hq) as Hr. apply ring_next in Hr.
  assert (b_next_free x = Some n) as -> by (unfold nf in Hr; by rewrite Hx in Hr).
  erewrite (bind_Ok (deref _)) by done. rewrite (bind_Ok get _ s s s eq_refl).
  assert (Hne : Some n ≠ free_list s).
  { rewrite (q_free _ _ _ Hq). pose proof (q_free_nodup _ _ _ Hq) as Hd'. destruct pre as [|p pre]; simpl.
    - intros [= ->]. apply NoDup_cons in Hd' as [Hd' _]. apply Hd'. left.
    - intros [= ->]. apply NoDup_cons in Hd' as [Hd' _]. set_solver. }
  rewrite bool_decide_false by done. apply (IH (pre ++ [b0])); [by rewrite <-app_assoc|done| |set_solver|simpl in *; lia].
  intros b Hb. destruct better eqn:Hbt; [|by apply Hc]. simplify_eq. exists x. split; [done|].
  simpl in Hfound. apply Z.eqb_neq in Hfound. unfold BADNESS in *. lia.
Qed.

(** ** getblk *)

Section Getblk.
Context {E : Env} (Hpat : (0 < patience)%nat).

Lemma wait_on_buffer_run K b x : buffers (k_buf K) !! b = Some x → b_lock x = 0 → wait_on_buffer b K = Ok tt K.
Proof.
  intros Hx Hl. unfold wait_on_buffer, wait_while. destruct patience as [|p]; [lia|]. simpl.
  erewrite (bind_Ok (is_locked b) _ K false K); [done|].
  unfold is_locked. rewrite (bind_Ok _ _ _ _ _ (bh_run K b x Hx)). by rewrite Hl.
Qed.
Lemma retry_run {A} (m : M kernel (option A)) K a K' : m K = Ok (Some a) K' → retry patience m K = Ok a K'.
Proof. intros H. destruct patience as [|p]; [lia|]. simpl. by rewrite (bind_Ok _ _ _ _ _ H). Qed.
Lemma find_buffer_k_run K dev block r :
  find_buffer dev block (k_buf K) = Ok r (k_buf K) → zoom k_buf (find_buffer dev block) K = Ok r K.
Proof. intros H. rewrite (zoom_buf_run _ _ _ _ H). by rewrite set_k_buf_id. Qed.

(** One more user of a buffer. *)
Definition get_again (x : buffer_head) : buffer_head := x <| b_count ::= λ c, u8 (c + 1) |>.

Lemma get_hash_table_hit K ch fr dev block b x :
  cache_ok (k_buf K) ch fr → dev ≠ 0 → 0 ≤ block < 4294967296 →
  buffers (k_buf K) !! b = Some x → key_of x = (dev, block) → b_lock x = 0 →
  get_hash_table dev block K = Ok (Some b) (set_k_buf (bupd b get_again (k_buf K)) K).
Proof.
  intros Hok Hdev Hblock Hx Hk Hlock.
  destruct (find_buffer_correct (k_buf K) ch fr dev block Hok Hdev Hblock) as (r & Hrun & Hr).
  assert (Hkb : keys (k_buf K) b = Some (dev, block)) by (unfold keys; by rewrite Hx, <-Hk).
  destruct r as [b'|]; simpl in Hr; [|by apply Hr in Hkb].
  assert (b' = b) as -> by by apply (c_unique _ _ _ _ Hok b' b (dev, block)).
  unfold get_hash_table. apply retry_run.
  rewrite (bind_Ok _ _ _ _ _ (find_buffer_k_run K dev block _ Hrun)). cbv beta iota.
  assert (Hv : valid (k_buf K) b) by by eapply lookup_lt_Some.
  rewrite (bind_Ok _ _ _ _ _ (set_bh_bupd b _ K Hv)). fold get_again.
  set (K1 := set_k_buf _ K). assert (Hx1 : buffers (k_buf K1) !! b = Some (get_again x)).
  { change (k_buf K1) with (bupd b get_again (k_buf K)). by rewrite lookup_bupd, decide_True, Hx. }
  rewrite (bind_Ok _ _ _ _ _ (wait_on_buffer_run K1 b _ Hx1 Hlock)).
  rewrite (bind_Ok _ _ _ _ _ (bh_run K1 b _ Hx1)). injection Hk as H1 H2. simpl.
  by rewrite H1, H2, u32_small, !Z.eqb_refl.
Qed.
Lemma get_hash_table_miss K ch fr dev block :
  cache_ok (k_buf K) ch fr → dev ≠ 0 → 0 ≤ block < 4294967296 →
  (∀ j, keys (k_buf K) j ≠ Some (dev, block)) → get_hash_table dev block K = Ok None K.
Proof.
  intros Hok Hdev Hblock Hno.
  destruct (find_buffer_correct (k_buf K) ch fr dev block Hok Hdev Hblock) as (r & Hrun & Hr).
  destruct r as [b|]; simpl in Hr; [by apply Hno in Hr|]. unfold get_hash_table. apply retry_run.
  by rewrite (bind_Ok _ _ _ _ _ (find_buffer_k_run K dev block _ Hrun)).
Qed.

Lemma scan_free_spare s ch fr :
  cache_ok s ch fr → badness_ok s → (∃ j, spare s j) →
  ∃ b0 b, free_list s = Some b0 ∧ scan_free (length (buffers s)) b0 None s = Ok (Some b) s ∧ spare s b.
Proof.
  intros Hok Hbad (j & Hj). pose proof (c_queues _ _ _ _ Hok) as Hq.
  assert (Hjf : j ∈ fr) by (destruct Hj as (x & Hx & _); apply (c_free _ _ _ _ Hok); [by eapply lookup_lt_Some|done]).
  destruct (head fr) as [b0|] eqn:Hb0; [|apply head_None in Hb0; rewrite Hb0 in Hjf; by apply elem_of_nil in Hjf].
  exists b0. destruct (scan_free_run s ch fr [] fr b0 (length (buffers s)) None Hok Hbad eq_refl Hb0) as (b & Hscan & Hsp);
    [by intros ? ?|by exists j|..].
  - rewrite <-(length_seq (length (buffers s)) 0). apply submseteq_length, NoDup_submseteq; [apply (q_free_nodup _ _ _ Hq)|].
    intros i Hi%(q_free_valid _ _ _ Hq). apply elem_of_seq. unfold valid in Hi. lia.
  - exists b. by rewrite (q_free _ _ _ Hq).
Qed.

Lemma getblk_once_miss K ch fr dev block :
  let s := k_buf K in
  cache_ok s ch fr → badness_ok s → (2 ≤ length (buffers s))%nat → 0 < dev < 65536 → 0 ≤ block < 4294967296 →
  (∀ j, keys s j ≠ Some (dev, block)) → (∃ j, spare s j) →
  ∃ b x K' ch' fr', (∀ sync, getblk_once sync dev block K = Ok (Some b) K') ∧
    buffers s !! b = Some x ∧ spare s b ∧
    cache_ok (k_buf K') ch' fr' ∧ rekeys s (k_buf K') b x dev block ∧ same_rest K K'.
Proof.
  intros s Hok Hbad H2 Hdev Hblock Hno Hj.
  destruct (scan_free_spare s ch fr Hok Hbad Hj) as (b0 & b & Hb0 & Hscan & Hsp).
  pose proof Hsp as (x & Hx & Hcount & Hbn). destruct (Hbad b x Hx). unfold BADNESS in Hbn.
  destruct (take_over_run K ch fr b x dev block Hok Hx H2 Hdev Hblock Hno) as (K' & ch' & Hto & Hok' & Hre & Hrest).
  exists b, x, K', ch', (without b fr ++ [b]). split; [|done]. intros sync. unfold getblk_once.
  rewrite (bind_Ok _ _ _ _ _ (get_hash_table_miss K ch fr dev block Hok ltac:(lia) Hblock Hno)). cbv beta iota.
  rewrite (bind_Ok get _ K K K eq_refl). fold s. rewrite Hb0.
  erewrite (bind_Ok (deref _)) by reflexivity.
  rewrite (bind_Ok _ _ _ _ _ (zoom_buf_run _ K _ _ Hscan)). unfold s. rewrite set_k_buf_id. cbv beta iota.
  rewrite (bind_Ok _ _ _ _ _ (wait_on_buffer_run K b x Hx ltac:(lia))).
  rewrite (bind_Ok _ _ _ _ _ (bh_run K b x Hx)). rewrite (proj2 (truth_false _) Hcount).
  erewrite (bind_Ok (clean_buffer _ _ _) _ K true K).
  2: { destruct patience as [|p]; [lia|]. simpl. rewrite (bind_Ok _ _ _ _ _ (bh_run K b x Hx)).
       by rewrite (proj2 (truth_false (b_dirt x))) by lia. }
  cbn [negb].
  destruct (find_buffer_correct s ch fr dev block Hok ltac:(lia) Hblock) as (r & Hrun & Hr).
  destruct r as [b'|]; simpl in Hr; [by apply Hno in Hr|].
  rewrite (bind_Ok _ _ _ _ _ (find_buffer_k_run K dev block _ Hrun)). cbv beta iota.
  by rewrite (bind_Ok _ _ _ _ _ Hto).
Qed.
End Getblk.

(** What getblk promises: the buffer of the block if the cache has one, with
    one more user and nothing else changed; otherwise a spare buffer that now
    is the block's, not up to date and used once, the other buffers being as
    before. *)
Definition getblk_post (K K' : kernel) (dev block : Z) (b : nat) : Prop :=
  keys (k_buf K') b = Some (dev, block) ∧
  ((keys (k_buf K) b = Some (dev, block) ∧ K' = set_k_buf (bupd b get_again (k_buf K)) K) ∨
   ((∀ j, keys (k_buf K) j ≠ Some (dev, block)) ∧ spare (k_buf K) b ∧
    ∃ x, buffers (k_buf K) !! b = Some x ∧ rekeys (k_buf K) (k_buf K') b x dev block ∧ same_rest K K')).

(** C2: getblk in a well-formed cache, when no buffer of the block is locked
    and some buffer is spare.  The call returns without sleeping, the cache is
    well-formed again, and the result is the one buffer of the block. *)
Theorem getblk_correct {E : Env} (K : kernel) (ch : Z → list nat) (fr : list nat) (dev block : Z)
    (Hpat : (0 < patience)%nat) (Hok : cache_ok (k_buf K) ch fr) (Hbad : badness_ok (k_buf K))
    (H2 : (2 ≤ length (buffers (k_buf K)))%nat) (Hdev : 0 < dev < 65536) (Hblock : 0 ≤ block < 4294967296)
    (Hunlocked : ∀ b x, buffers (k_buf K) !! b = Some x → key_of x = (dev, block) → b_lock x = 0)
    (Hspare : ∃ b, spare (k_buf K) b) :
  ∃ b K' ch' fr', getblk dev block K = Ok b K' ∧ cache_ok (k_buf K') ch' fr' ∧ getblk_post K K' dev block b.
Proof.
  assert (Hrun : ∀ b K', (∀ sync, getblk_once sync dev block K = Ok (Some b) K') → getblk dev block K = Ok b K').
  { intros b K' H. unfold getblk. destruct depth; apply (retry_run Hpat), H. }
  destruct (find_buffer_correct (k_buf K) ch fr dev block Hok ltac:(lia) Hblock) as ([b|] & _ & Hr); simpl in Hr.
  - destruct (keys_lookup _ _ _ Hr) as (x & Hx & Hk). exists b. eexists. exists ch, fr.
    split; [apply Hrun; intros sync; unfold getblk_once;
      by rewrite (bind_Ok _ _ _ _ _ (get_hash_table_hit Hpat K ch fr dev block b x Hok ltac:(lia) Hblock Hx Hk (Hunlocked b x Hx Hk)))|].
    split; [apply cache_on_bupd; [done|by right|done]|]. split; [|left; done].
    unfold keys. change (k_buf (set_k_buf ?s K)) with s. by rewrite lookup_bupd, decide_True, Hx, <-Hk.
  - destruct (getblk_once_miss Hpat K ch fr dev block Hok Hbad H2 Hdev Hblock Hr Hspare)
      as (b & x & K' & ch' & fr' & Hb & Hx & Hsp & Hok' & Hre & Hrest).
    exists b, K', ch', fr'. split; [by apply Hrun|]. split; [done|].
    split; [eapply rekeyed_key, Hre|]. right. split; [done|]. split; [done|]. by exists x.
Qed.

(** ** buffer_init *)

(** The [n] buffers as buffer_init leaves them. *)
Definition init_head (n i : nat) : buffer_head :=
  mk_buffer (replicate 1024 0) 0 0 0 0 0 0 0 None None
    (Some (match i with O => n - 1 | S j => j end)%nat) (Some (if bool_decide (S i = n) then O else S i)).
Definition init_cache (n : nat) (s : buffer_state) : buffer_state :=
  s <| buffers := init_head n <$> seq 0 n |> <| free_list := Some O |>
    <| hash_table := replicate (Z.to_nat NR_HASH) None |>.

Lemma length_init_cache n s : length (buffers (init_cache n s)) = n.
Proof. simpl. by rewrite length_fmap, length_seq. Qed.
Lemma lookup_init_cache n s b : (b < n)%nat → buffers (init_cache n s) !! b = Some (init_head n b).
Proof. intros Hb. simpl. rewrite list_lookup_fmap, lookup_seq_lt by done. done. Qed.
Lemma lookup_init_cache_inv n s b x : buffers (init_cache n s) !! b = Some x → (b < n)%nat ∧ x = init_head n b.
Proof.
  intros Hx. pose proof (lookup_lt_Some _ _ _ Hx) as Hb. rewrite length_init_cache in Hb.
  rewrite lookup_init_cache in Hx by done. by simplify_eq.
Qed.
Lemma init_cache_keys n s b k : keys (init_cache n s) b = Some k → k = (0, 0).
Proof. intros (x & Hx & <-)%keys_lookup. by apply lookup_init_cache_inv in Hx as [_ ->]. Qed.

Lemma init_cache_ring n s : n ≠ 0%nat → ring (nf (init_cache n s)) (pf (init_cache n s)) (seq 0 n).
Proof.
  intros Hn. apply (ring_linked _ _ 0%nat _ (n - 1)%nat);
    [by destruct n|by rewrite last_lookup, length_seq, lookup_seq_lt by lia; f_equal; lia|].
  split; [|unfold nf, pf; rewrite !lookup_init_cache by lia; simpl; rewrite bool_decide_true by lia; done].
  apply linked_intro. intros i a c [-> Ha]%lookup_seq [-> Hc]%lookup_seq. unfold nf, pf.
  rewrite !lookup_init_cache by lia. simpl. rewrite bool_decide_false by lia. done.
Qed.
Lemma init_cache_ok n s : n ≠ 0%nat → cache_ok (init_cache n s) (λ _, []) (seq 0 n).
Proof.
  intros Hn. split; [split|..].
  - done.
  - intros h Hh. unfold zlookup. destruct (Z.ltb_spec h 0); [lia|]. apply lookup_replicate_2.
    unfold NR_HASH in *. lia.
  - intros h Hh. apply chain_nil.
  - intros h. constructor.
  - intros h b Hb. by apply elem_of_nil in Hb.
  - by apply init_cache_ring.
  - apply NoDup_seq.
  - by destruct n.
  - intros b [_ Hb]%elem_of_seq. unfold valid. rewrite length_init_cache. lia.
  - done.
  - intros b Hb _. apply elem_of_seq. unfold valid in Hb. rewrite length_init_cache in Hb. lia.
  - intros b k Hb H0. by apply init_cache_keys in Hb as ->.
  - intros b k (x & Hx & _)%keys_lookup _ _. unfold nx, pv. rewrite Hx. by apply lookup_init_cache_inv in Hx as [_ ->].
  - intros b b' k Hb _ H0. by apply init_cache_keys in Hb as ->.
Qed.
Lemma init_cache_spare n s b : (b < n)%nat → spare (init_cache n s) b.
Proof. intros Hb. exists (init_head n b). split; [by apply lookup_init_cache|done]. Qed.
Lemma init_cache_badness n s : badness_ok (init_cache n s).
Proof. intros b x Hx. apply lookup_init_cache_inv in Hx as [_ ->]. simpl. lia. Qed.

(** buffer_init, when at least one buffer fits, leaves a well-formed cache:
    all buffers are on the free list in order, none holds a block, every hash
    chain is empty, and every buffer is spare. *)
Theorem buffer_init_correct (s : buffer_state) (buffer_end : Z)
    (Hn : let b := if buffer_end =? Z.shiftl 1 20 then 640 * 1024 else buffer_end in
          count_buffers (Z.to_nat (b / BLOCK_SIZE)) b (start_buffer s) ≠ 0%nat) :
  ∃ s', buffer_init buffer_end s = Ok tt s' ∧
    cache_ok s' (λ _, []) (seq 0 (length (buffers s'))) ∧ badness_ok s' ∧
    ∀ b, valid s' b → spare s' b.
Proof.
  unfold buffer_init. rewrite (bind_Ok get _ s s s eq_refl). cbv zeta in *.
  set (n := count_buffers _ _ _) in *. rewrite bool_decide_false by done. rewrite bind_ret_l.
  exists (init_cache n s). split; [done|]. rewrite length_init_cache.
  split; [by apply init_cache_ok|]. split; [apply init_cache_badness|].
  intros b Hb. apply init_cache_spare. unfold valid in Hb. by rewrite length_init_cache in Hb.
Qed.
