(* ===== verification/Inode.v ===== *)
(** * fs/bitmap.c, fs/truncate.c, fs/inode.c and the reading half of fs/super.c

    Allocation of blocks and inodes, the map from file blocks to disk blocks,
    and the table of inodes in memory. *)

From stdpp Require Import base option list gmap strings.
From Stdlib Require Import ZArith.
From S2P Require Import Prelude Types Memory Sched Kernel Blk Buffer.
Local Open Scope Z_scope.

(** ** bitmap.c: bit operations on the 1024 bytes of a block *)

Definition test_bit (nr : Z) (l : list Z) : bool :=
  Z.testbit (byte_at l (Z.to_nat (nr / 8))) (nr mod 8).
Definition write_bit (nr : Z) (v : bool) (l : list Z) : list Z :=
  let k := Z.to_nat (nr / 8) in
  let m := Z.shiftl 1 (nr mod 8) in
  <[k := if v then Z.lor (byte_at l k) m else Z.land (byte_at l k) (Z.lnot m)]> l.

(** The values of set_bit() (was the bit set?) and of clear_bit() (was it
    clear?), with the new contents. *)
Definition set_bit (nr : Z) (l : list Z) : bool * list Z := (test_bit nr l, write_bit nr true l).
Definition clear_bit (nr : Z) (l : list Z) : bool * list Z := (negb (test_bit nr l), write_bit nr false l).

(** bsfl: the lowest set bit *)
Fixpoint bsf (n : nat) (k : Z) (x : Z) : option Z :=
  match n with
  | O => None
  | S n => if Z.testbit x k then Some k else bsf n (k + 1) x
  end.

(** The loop of find_first_zero, a long at a time; 8192 when all bits are 1. *)
Fixpoint find_first_zero_from (n : nat) (ecx : Z) (l : list Z) : Z :=
  match n with
  | O => ecx
  | S n =>
      let eax := Z.lxor 0xffffffff (get32 l (Z.to_nat (ecx / 8))) in
      match bsf 32 0 eax with
      | Some edx => ecx + edx
      | None => find_first_zero_from n (ecx + 32) l
      end
  end.
Definition find_first_zero (l : list Z) : Z := find_first_zero_from 256 0 l.

(** [for (i=0 ; i<8 ; i++) if (bh=map[i]) if ((j=find_first_zero(..))<8192) break;]
    as (i, bh, j) after the loop *)
Fixpoint scan_maps (maps : list (option nat)) (i : Z) (last : option nat) (j : Z)
    : M kernel (Z * option nat * Z) :=
  match maps with
  | [] => mret (i, last, j)
  | m :: maps =>
      match m with
      | None => scan_maps maps (i + 1) None j
      | Some b =>
          x ← bh b;
          let j := find_first_zero (b_data x) in
          if j <? 8192 then mret (i, m, j) else scan_maps maps (i + 1) m j
      end
  end.

Section Inode.
Context {E : Env}.

Definition free_block (dev block : Z) : M kernel unit :=
  sb ← get_super dev;
  sb ← (match sb with None => panic "trying to free block on nonexistent device" | Some i => mret i end);
  x ← super_at sb;
  (if (block <? s_firstdatazone x) || (s_nzones x <=? block)
   then panic "trying to free block not in datazone" else mret tt) ;;
  b ← get_hash_table dev block;
  busy ← (match b with
    | None => mret false
    | Some b =>
        y ← bh b;
        if negb (b_count y =? 1) then printk "trying to free block (%04x:%d), count=%d\n" ;; mret true
        else
          set_bh b (λ y, y <| b_dirt := 0 |> <| b_uptodate := 0 |>) ;;
          brelse (Some b) ;;
          mret false
    end);
  if busy : bool then mret tt else
  x ← super_at sb;
  let block := block - (s_firstdatazone x - 1) in
  z ← deref (zlookup (s_zmap x) (Z.quot block 8192));
  z ← deref z;
  y ← bh z;
  let '(was_clear, l) := clear_bit (Z.land block 8191) (b_data y) in
  set_bh z (λ y, y <| b_data := l |>) ;;
  (if was_clear then panic "free_block: bit already cleared" else mret tt) ;;
  set_bh z (λ y, y <| b_dirt := 1 |>).

Definition new_block (dev : Z) : M kernel Z :=
  sb ← get_super dev;
  sb ← (match sb with None => panic "trying to get new block from nonexistant device" | Some i => mret i end);
  x ← super_at sb;
  '(i, b, j) ← scan_maps (s_zmap x) 0 None 8192;
  match b with
  | None => mret 0
  | Some b =>
      if (8 <=? i) || (8192 <=? j) then mret 0 else
      y ← bh b;
      let '(was_set, l) := set_bit j (b_data y) in
      set_bh b (λ y, y <| b_data := l |>) ;;
      (if was_set then panic "new_block: bit already set" else mret tt) ;;
      set_bh b (λ y, y <| b_dirt := 1 |>) ;;
      let j := j + i * 8192 + s_firstdatazone x - 1 in
      if s_nzones x <=? j then mret 0 else
      b ← getblk dev j;
      y ← bh b;
      (if negb (b_count y =? 1) then panic "new block: count is != 1" else mret tt) ;;
      set_bh b (λ y, y <| b_data := replicate 1024 0 |> <| b_uptodate := 1 |> <| b_dirt := 1 |>) ;;
      brelse (Some b) ;;
      mret j
  end.

(** [memset(inode,0,sizeof( *inode))] *)
Definition zero_inode : m_inode :=
  mk_inode 0 0 0 0 0 0 (replicate 9 0) 0 0 0 0 0 0 0 0 0 0 0 0.

Definition free_inode (inode : option nat) : M kernel unit :=
  match inode with
  | None => mret tt
  | Some i =>
      x ← inode_at i;
      if i_dev x =? 0 then upd_inode i (λ _, zero_inode) else
      (if 1 <? i_count x then panic "free_inode" else mret tt) ;;
      (if truth (i_nlinks x) then panic "trying to free inode with links" else mret tt) ;;
      sb ← get_super (i_dev x);
      sb ← (match sb with None => panic "trying to free inode on nonexistent device" | Some i => super_at i end);
      x ← inode_at i;
      (if (i_num x <? 1) || (s_ninodes sb <? i_num x)
       then panic "trying to free inode 0 or nonexistant inode" else mret tt) ;;
      b ← deref (zlookup (s_imap sb) (Z.shiftr (i_num x) 13));
      match b with
      | None => panic "nonexistent imap in superblock"
      | Some b =>
          y ← bh b;
          let '(was_clear, l) := clear_bit (Z.land (i_num x) 8191) (b_data y) in
          set_bh b (λ y, y <| b_data := l |>) ;;
          when was_clear (printk "free_inode: bit already cleared.\n\r") ;;
          set_bh b (λ y, y <| b_dirt := 1 |>) ;;
          upd_inode i (λ _, zero_inode)
      end
  end.

(** ** truncate.c *)

Definition for_zones (b : nat) (f : Z → M kernel unit) : M kernel unit :=
  for_each (seq 0 512) (λ k,
    x ← bh b;
    let p := get16 (b_data x) (2 * k) in
    when (truth p) (f p)).

Definition free_ind (dev block : Z) : M kernel unit :=
  if block =? 0 then mret tt else
  b ← bread dev block;
  match b with
  | Some b => for_zones b (free_block dev) ;; brelse (Some b)
  | None => mret tt
  end ;;
  free_block dev block.

Definition free_dind (dev block : Z) : M kernel unit :=
  if block =? 0 then mret tt else
  b ← bread dev block;
  match b with
  | Some b => for_zones b (free_ind dev) ;; brelse (Some b)
  | None => mret tt
  end ;;
  free_block dev block.

Definition set_zone (k : nat) (v : Z) (i : m_inode) : m_inode := i <| i_zone ::= <[k := u16 v]> |>.

Definition truncate (inode : nat) : M kernel unit :=
  x ← inode_at inode;
  if negb (S_ISREG (i_mode x) || S_ISDIR (i_mode x)) then mret tt else
  for_each (seq 0 7) (λ k,
    x ← inode_at inode;
    when (truth (zone x k)) (
      free_block (i_dev x) (zone x k) ;;
      upd_inode inode (set_zone k 0))) ;;
  x ← inode_at inode;
  free_ind (i_dev x) (zone x 7) ;;
  x ← inode_at inode;
  free_dind (i_dev x) (zone x 8) ;;
  t ← CURRENT_TIME;
  upd_inode inode (λ x, set_zone 7 0 (set_zone 8 0 x) <| i_size := 0 |> <| i_dirt := 1 |>
                          <| i_ctime := u32 t |> <| i_mtime := u32 t |>).

(** ** inode.c *)

(** [if (create && !zone) if (zone=new_block(dev)) { ctime, dirt }] *)
Definition ensure_zone (inode k : nat) (create : bool) : M kernel Z :=
  x ← inode_at inode;
  when (create && negb (truth (zone x k))) (
    z ← new_block (i_dev x);
    upd_inode inode (set_zone k z) ;;
    when (truth (u16 z)) (
      t ← CURRENT_TIME;
      upd_inode inode (λ x, x <| i_ctime := u32 t |> <| i_dirt := 1 |>))) ;;
  x ← inode_at inode;
  mret (zone x k).

(** Entry [k] of an indirect block, allocated when [create]. *)
Definition ind_entry (inode b k : nat) (create : bool) : M kernel Z :=
  y ← bh b;
  let i := get16 (b_data y) (2 * k) in
  i ← (if create && negb (truth i) then
         x ← inode_at inode;
         i ← new_block (i_dev x);
         when (truth i)
           (set_bh b (λ y, y <| b_data ::= splice (2 * k) (put16 i) |> <| b_dirt := 1 |>)) ;;
         mret i
       else mret i);
  brelse (Some b) ;;
  mret i.

Definition _bmap (inode : nat) (block : Z) (create : bool) : M kernel Z :=
  (if block <? 0 then panic "_bmap: block<0" else mret tt) ;;
  (if 7 + 512 + 512 * 512 <=? block then panic "_bmap: block>big" else mret tt) ;;
  if block <? 7 then ensure_zone inode (Z.to_nat block) create else
  let block := block - 7 in
  if block <? 512 then
    z ← ensure_zone inode 7 create;
    if z =? 0 then mret 0 else
    x ← inode_at inode;
    b ← bread (i_dev x) (zone x 7);
    match b with
    | None => mret 0
    | Some b => ind_entry inode b (Z.to_nat block) create
    end
  else
  let block := block - 512 in
  z ← ensure_zone inode 8 create;
  if z =? 0 then mret 0 else
  x ← inode_at inode;
  b ← bread (i_dev x) (zone x 8);
  match b with
  | None => mret 0
  | Some b =>
      i ← ind_entry inode b (Z.to_nat (Z.shiftr block 9)) create;
      if i =? 0 then mret 0 else
      x ← inode_at inode;
      b ← bread (i_dev x) i;
      match b with
      | None => mret 0
      | Some b => ind_entry inode b (Z.to_nat (Z.land block 511)) create
      end
  end.
Definition bmap (inode : nat) (block : Z) : M kernel Z := _bmap inode block false.
Definition create_block (inode : nat) (block : Z) : M kernel Z := _bmap inode block true.

(** [repeat:] in iput() *)
Fixpoint iput_loop (fuel : nat) (i : nat) : M kernel unit :=
  match fuel with
  | O => no_fuel
  | S fuel =>
      x ← inode_at i;
      if 1 <? i_count x then upd_inode i (λ x, x <| i_count ::= λ c, u16 (c - 1) |>) else
      if i_nlinks x =? 0 then truncate i ;; free_inode (Some i) else
      if truth (i_dirt x) then write_inode i ;; wait_on_inode i ;; iput_loop fuel i else
      upd_inode i (λ x, x <| i_count ::= λ c, u16 (c - 1) |>)
  end.

Definition iput (inode : option nat) : M kernel unit :=
  match inode with
  | None => mret tt
  | Some i =>
      wait_on_inode i ;;
      x ← inode_at i;
      (if i_count x =? 0 then panic "iput: trying to free a freed inode" else mret tt) ;;
      if truth (i_pipe x) then
        wake_up (i_wait_of i) ;;
        upd_inode i (λ x, x <| i_count ::= λ c, u16 (c - 1) |>) ;;
        x ← inode_at i;
        if truth (i_count x) then mret tt else
        zoom k_mm (free_page (i_size x)) ;;
        upd_inode i (λ x, x <| i_count := 0 |> <| i_dirt := 0 |> <| i_pipe := 0 |>)
      else
      if i_dev x =? 0 then upd_inode i (λ x, x <| i_count ::= λ c, u16 (c - 1) |>) else
      when (S_ISBLK (i_mode x)) (_ ← sync_dev (zone x 0); wait_on_inode i) ;;
      iput_loop patience i
  end.

(** The for loop of get_empty_inode: at most NR_INODE steps of [last_inode]. *)
Fixpoint find_empty (n : nat) (inode : option nat) : M kernel (option nat) :=
  match n with
  | O => mret inode
  | S n =>
      modify (λ s, s <| k_fs ::= λ d, d <| last_inode ::= λ l,
        if bool_decide (NR_INODE ≤ S l)%nat then O else S l |> |>) ;;
      s ← get;
      let l := last_inode (k_fs s) in
      x ← inode_at l;
      if truth (i_count x) then find_empty n inode else
      if negb (truth (i_dirt x)) && negb (truth (i_lock x)) then mret (Some l)
      else find_empty n (Some l)
  end.
Fixpoint clean_inode (fuel : nat) (i : nat) : M kernel unit :=
  match fuel with
  | O => no_fuel
  | S fuel =>
      x ← inode_at i;
      if truth (i_dirt x) then write_inode i ;; wait_on_inode i ;; clean_inode fuel i else mret tt
  end.
Definition get_empty_inode : M kernel nat :=
  i ← retry patience (
    i ← find_empty NR_INODE None;
    match i with
    | None => panic "No free inodes in mem"
    | Some i =>
        wait_on_inode i ;;
        clean_inode patience i ;;
        x ← inode_at i;
        mret (if truth (i_count x) then None else Some i)
    end);
  upd_inode i (λ _, zero_inode <| i_count := 1 |>) ;;
  mret i.

Definition get_pipe_inode : M kernel (option nat) :=
  i ← get_empty_inode;
  p ← zoom k_mm get_free_page;
  upd_inode i (λ x, x <| i_size := p |>) ;;
  if p =? 0 then upd_inode i (λ x, x <| i_count := 0 |>) ;; mret None else
  upd_inode i (λ x, set_zone 0 0 (set_zone 1 0 x) <| i_count := 2 (* sum of readers/writers *) |>
                      <| i_pipe := 1 |>) ;;
  mret (Some i).

Definition read_inode (inode : nat) : M kernel unit :=
  lock_inode inode ;;
  x ← inode_at inode;
  sb ← get_super (i_dev x);
  sb ← (match sb with None => panic "trying to read inode without dev" | Some i => super_at i end);
  let '(block, k) := inode_block sb (i_num x) in
  b ← bread (i_dev x) block;
  match b with
  | None => panic "unable to read i-node block"
  | Some b =>
      y ← bh b;
      upd_inode inode (set_d_inode (slice (inode_offset k) D_INODE_SIZE (b_data y))) ;;
      brelse (Some b) ;;
      unlock_inode inode
  end.

(** The super block whose s_imount is [inode]. *)
Fixpoint mounted_on (l : list super_block_struct) (inode i : nat) : option nat :=
  match l with
  | [] => None
  | x :: l => if bool_decide (s_imount x = Some inode) then Some i else mounted_on l inode (S i)
  end.

(** The while loop of iget(); [i] is the inode looked at. *)
Fixpoint iget_loop (fuel : nat) (dev nr : Z) (empty i : nat) : M kernel nat :=
  match fuel with
  | O => no_fuel
  | S fuel =>
      if bool_decide (NR_INODE ≤ i)%nat then
        upd_inode empty (λ x, x <| i_dev := u16 dev |> <| i_num := u16 nr |>) ;;
        read_inode empty ;;
        mret empty
      else
      x ← inode_at i;
      if negb (i_dev x =? dev) || negb (i_num x =? nr) then iget_loop fuel dev nr empty (S i) else
      wait_on_inode i ;;
      x ← inode_at i;
      if negb (i_dev x =? dev) || negb (i_num x =? nr) then iget_loop fuel dev nr empty O else
      upd_inode i (λ x, x <| i_count ::= λ c, u16 (c + 1) |>) ;;
      x ← inode_at i;
      if truth (i_mount x) then
        s ← get;
        match mounted_on (super_block (k_fs s)) i 0 with
        | None =>
            printk "Mounted inode hasn't got sb\n" ;;
            iput (Some empty) ;;
            mret i
        | Some sb =>
            iput (Some i) ;;
            sb ← super_at sb;
            iget_loop fuel (s_dev sb) ROOT_INO empty O
        end
      else iput (Some empty) ;; mret i
  end.
Definition iget (dev nr : Z) : M kernel nat :=
  (if dev =? 0 then panic "iget with dev==0" else mret tt) ;;
  empty ← get_empty_inode;
  iget_loop (patience * S NR_INODE)%nat dev nr empty O.

Definition new_inode (dev : Z) : M kernel (option nat) :=
  inode ← get_empty_inode;
  sb ← get_super dev;
  sb ← (match sb with None => panic "new_inode with unknown device" | Some i => super_at i end);
  '(i, b, j) ← scan_maps (s_imap sb) 0 None 8192;
  match b with
  | None => iput (Some inode) ;; mret None
  | Some b =>
      if (8192 <=? j) || (s_ninodes sb <? j + i * 8192) then iput (Some inode) ;; mret None else
      y ← bh b;
      let '(was_set, l) := set_bit j (b_data y) in
      set_bh b (λ y, y <| b_data := l |>) ;;
      (if was_set then panic "new_inode: bit already set" else mret tt) ;;
      set_bh b (λ y, y <| b_dirt := 1 |>) ;;
      t ← me;
      now ← CURRENT_TIME;
      upd_inode inode (λ x, x <| i_count := 1 |> <| i_nlinks := 1 |> <| i_dev := u16 dev |>
        <| i_uid := euid t |> <| i_gid := u8 (egid t) |> <| i_dirt := 1 |>
        <| i_num := u16 (j + i * 8192) |>
        <| i_mtime := u32 now |> <| i_atime := u32 now |> <| i_ctime := u32 now |>) ;;
      mret (Some inode)
  end.

(** ** super.c: read_super and mount_root *)

(** struct d_super_block: 18 bytes of fields *)
Definition set_d_super (l : list Z) (s : super_block_struct) : super_block_struct :=
  s <| s_ninodes := get16 l 0 |> <| s_nzones := get16 l 2 |> <| s_imap_blocks := get16 l 4 |>
    <| s_zmap_blocks := get16 l 6 |> <| s_firstdatazone := get16 l 8 |>
    <| s_log_zone_size := get16 l 10 |> <| s_max_size := get32 l 12 |> <| s_magic := get16 l 16 |>.

Definition zmap_lens (f : list (option nat) → list (option nat)) : super_block_struct → super_block_struct :=
  λ x, x <| s_zmap ::= f |>.
Definition imap_lens (f : list (option nat) → list (option nat)) : super_block_struct → super_block_struct :=
  λ x, x <| s_imap ::= f |>.

(** [for (i=0 ; i < n ; i++) if (map[i]=bread(dev,block)) block++; else break;]
    A map of more than 8 blocks is stored outside the array. *)
Fixpoint read_maps (dev : Z) (s : nat) (put : (list (option nat) → list (option nat)) → super_block_struct → super_block_struct)
    (n i : nat) (block : Z) : M kernel Z :=
  match n with
  | O => mret block
  | S n =>
      b ← bread dev block;
      (if bool_decide (8 ≤ i)%nat then fault else mret tt) ;;
      upd_super s (put (<[i := b]>)) ;;
      match b with
      | Some _ => read_maps dev s put n (S i) (block + 1)
      | None => mret block
      end
  end.

Fixpoint free_super_slot (l : list super_block_struct) (i : nat) : option nat :=
  match l with
  | [] => None
  | x :: l => if s_dev x =? 0 then Some i else free_super_slot l (S i)
  end.

Definition release_maps (s : nat) : M kernel unit :=
  for_each (seq 0 I_MAP_SLOTS) (λ i, x ← super_at s; b ← deref (s_imap x !! i); brelse b) ;;
  for_each (seq 0 Z_MAP_SLOTS) (λ i, x ← super_at s; b ← deref (s_zmap x !! i); brelse b).

Definition drop_super (s : nat) : M kernel (option nat) :=
  upd_super s (λ x, x <| s_dev := 0 |>) ;; free_super s ;; mret None.

Definition or_first_byte (b : option nat) : M kernel unit :=
  b ← deref b; set_bh b (λ y, y <| b_data ::= λ l, <[O := Z.lor (byte_at l 0) 1]> l |>).

Definition read_super (dev : Z) : M kernel (option nat) :=
  if dev =? 0 then mret None else
  check_disk_change dev ;;
  s ← get_super dev;
  match s with
  | Some s => mret (Some s)
  | None =>
      st ← get;
      match free_super_slot (super_block (k_fs st)) 0 with
      | None => mret None
      | Some s =>
          upd_super s (λ x, x <| s_dev := u16 dev |> <| s_isup := None |> <| s_imount := None |>
                              <| s_time := 0 |> <| s_rd_only := 0 |> <| s_dirt := 0 |>) ;;
          lock_super s ;;
          b ← bread dev 1;
          match b with
          | None => drop_super s
          | Some b =>
              y ← bh b;
              upd_super s (set_d_super (b_data y)) ;;
              brelse (Some b) ;;
              x ← super_at s;
              if negb (s_magic x =? SUPER_MAGIC) then drop_super s else
              upd_super s (λ x, x <| s_imap := replicate I_MAP_SLOTS None |>
                                  <| s_zmap := replicate Z_MAP_SLOTS None |>) ;;
              block ← read_maps dev s imap_lens (Z.to_nat (s_imap_blocks x)) 0 2;
              block ← read_maps dev s zmap_lens (Z.to_nat (s_zmap_blocks x)) 0 block;
              if negb (block =? 2 + s_imap_blocks x + s_zmap_blocks x) then
                release_maps s ;; drop_super s
              else
              x ← super_at s;
              m ← deref (s_imap x !! O); or_first_byte m ;;
              m ← deref (s_zmap x !! O); or_first_byte m ;;
              free_super s ;;
              mret (Some s)
          end
      end
  end.

(** mount_root: the counts of free blocks and inodes are only printed; the
    wait for a key before a floppy root is part of the console. *)
Definition count_free (maps : list (option nat)) (n : nat) : M kernel Z :=
  (fix go (n : nat) (free : Z) : M kernel Z :=
     match n with
     | O => mret free
     | S n =>
         let i := Z.of_nat n in
         b ← deref (zlookup maps (Z.shiftr i 13)); b ← deref b;
         y ← bh b;
         go n (if test_bit (Z.land i 8191) (b_data y) then free else free + 1)
     end) n 0.
Definition mount_root : M kernel unit :=
  for_each (seq 0 NR_FILE) (λ i, upd_file i (λ f, f <| f_count := 0 |>)) ;;
  for_each (seq 0 NR_SUPER) (λ i,
    upd_super i (λ x, x <| s_dev := 0 |> <| s_lock := 0 |> <| s_wait := 0 |>)) ;;
  s ← get;
  let dev := ROOT_DEV (k_fs s) in
  p ← read_super dev;
  match p with
  | None => panic "Unable to mount root"
  | Some p =>
      mi ← iget dev ROOT_INO;
      upd_inode mi (λ x, x <| i_count ::= λ c, u16 (c + 3) |>) ;;
      upd_super p (λ x, x <| s_imount := Some mi |> <| s_isup := Some mi |>) ;;
      upd_me (λ t, t <| pwd := Some mi |> <| root := Some mi |>) ;;
      x ← super_at p;
      free ← count_free (s_zmap x) (Z.to_nat (s_nzones x));
      printk "%d/%d free blocks\n\r" ;;
      free ← count_free (s_imap x) (Z.to_nat (s_ninodes x + 1));
      printk "%d/%d free inodes\n\r"
  end.
End Inode.
