(* ===== verification/InodeProofs.v ===== *)
(** * fs/inode.c and fs/bitmap.c: the inodes on disk and the bitmaps *)

From stdpp Require Import base option list gmap.
From Stdlib Require Import ZArith Lia.
From S2P Require Import Prelude Types Memory Sched Kernel KernelFacts Blk Buffer BlockFacts Inode.
Local Open Scope Z_scope.

(** ** The inodes on disk *)

(** The disk fields have the widths of struct d_inode. *)
Definition d_fields_ok (i : m_inode) : Prop :=
  0 ≤ i_mode i < 65536 ∧ 0 ≤ i_uid i < 65536 ∧ 0 ≤ i_size i < 4294967296 ∧
  0 ≤ i_mtime i < 4294967296 ∧ 0 ≤ i_gid i < 256 ∧ 0 ≤ i_nlinks i < 256 ∧
  length (i_zone i) = 9%nat ∧ Forall (λ z, 0 ≤ z < 65536) (i_zone i).

(** [j] with the disk fields of [i]. *)
Definition with_disk_fields (i j : m_inode) : m_inode :=
  j <| i_mode := i_mode i |> <| i_uid := i_uid i |> <| i_size := i_size i |> <| i_mtime := i_mtime i |>
    <| i_gid := i_gid i |> <| i_nlinks := i_nlinks i |> <| i_zone := i_zone i |>.

Lemma set_d_inode_list j b0 b1 b2 b3 b4 b5 b6 b7 b8 b9 b10 b11 b12 b13 b14 b15 b16 b17 b18 b19 b20 b21 b22 b23 b24 b25 b26 b27 b28 b29 b30 b31 :
  set_d_inode [b0; b1; b2; b3; b4; b5; b6; b7; b8; b9; b10; b11; b12; b13; b14; b15; b16; b17; b18; b19; b20; b21; b22; b23; b24; b25; b26; b27; b28; b29; b30; b31] j =
  j <| i_mode := b0 + 256 * b1 |> <| i_uid := b2 + 256 * b3 |> <| i_size := (b4 + 256 * b5) + 65536 * (b6 + 256 * b7) |>
    <| i_mtime := (b8 + 256 * b9) + 65536 * (b10 + 256 * b11) |> <| i_gid := b12 |> <| i_nlinks := b13 |>
    <| i_zone := [b14 + 256 * b15; b16 + 256 * b17; b18 + 256 * b19; b20 + 256 * b21; b22 + 256 * b23; b24 + 256 * b25; b26 + 256 * b27; b28 + 256 * b29; b30 + 256 * b31] |>.
Proof. reflexivity. Qed.

Lemma nine_zones (zs : list Z) : length zs = 9%nat →
  ∃ z0 z1 z2 z3 z4 z5 z6 z7 z8, zs = [z0; z1; z2; z3; z4; z5; z6; z7; z8].
Proof.
  intros H. do 9 (destruct zs as [|? zs]; [done|]). destruct zs; [|done]. by repeat eexists.
Qed.
Lemma length_d_inode_bytes i : length (i_zone i) = 9%nat → length (d_inode_bytes i) = D_INODE_SIZE.
Proof.
  intros (z0 & z1 & z2 & z3 & z4 & z5 & z6 & z7 & z8 & Hz)%nine_zones.
  unfold d_inode_bytes. rewrite Hz. reflexivity.
Qed.
Lemma set_d_inode_bytes i j : d_fields_ok i → set_d_inode (d_inode_bytes i) j = with_disk_fields i j.
Proof.
  intros (Hm & Hu & Hs & Ht & Hg & Hn & Hz & Hzs).
  destruct (nine_zones _ Hz) as (z0 & z1 & z2 & z3 & z4 & z5 & z6 & z7 & z8 & Hzz).
  unfold d_inode_bytes, with_disk_fields. rewrite Hzz in Hzs |- *.
  rewrite !Forall_cons in Hzs. destruct Hzs as (?&?&?&?&?&?&?&?&?&_).
  cbn [take fmap list_fmap mjoin list_join app put32 put16]. unfold put32, put16. cbn [app].
  rewrite set_d_inode_list. by rewrite !u8_shift32, !u8_shift16, !u8_small by done.
Qed.

(** the inode table on disk.  A number from 1 on names a slot that lies in
    one block, different numbers different slots.  Writing an inode into its
    slot, as write_inode does, keeps the size of the block and every other
    slot of it; reading the slot back, as read_inode does, gives an in-memory
    inode exactly the written disk fields and leaves its other fields alone. *)
Theorem inode_slot_roundtrip (sb : super_block_struct) (num : Z) (i j : m_inode) (l : list Z)
    (Hnum : 1 ≤ num < 65536) (Hl : length l = 1024%nat) (Hi : d_fields_ok i) :
  let '(block, k) := inode_block sb num in
  let l' := splice (inode_offset k) (d_inode_bytes i) l in
  length l' = 1024%nat ∧
  set_d_inode (slice (inode_offset k) D_INODE_SIZE l') j = with_disk_fields i j ∧
  ∀ num', 1 ≤ num' < 65536 → num' ≠ num → 
    s_imap_blocks sb + s_zmap_blocks sb < 100000 → 0 ≤ s_imap_blocks sb → 0 ≤ s_zmap_blocks sb →
    let '(block', k') := inode_block sb num' in
    (block', k') ≠ (block, k) ∧
    (block' = block → slice (inode_offset k') D_INODE_SIZE l' = slice (inode_offset k') D_INODE_SIZE l).
Proof.
  unfold inode_block, inode_offset, INODES_PER_BLOCK. cbv zeta.
  assert (Hbytes : length (d_inode_bytes i) = 32%nat) by (apply length_d_inode_bytes, Hi).
  rewrite !(u32_small (num - 1)) by lia.
  pose proof (Z.mod_pos_bound (num - 1) 32 ltac:(lia)) as Hk.
  pose proof (Z.div_mod (num - 1) 32 ltac:(lia)) as Hdm.
  assert (Hfit : (D_INODE_SIZE * Z.to_nat ((num - 1) mod 32) + length (d_inode_bytes i) ≤ length l)%nat).
  { rewrite Hl, Hbytes. unfold D_INODE_SIZE. lia. }
  split; [by rewrite length_splice|]. split.
  { rewrite <-Hbytes at 2. rewrite slice_splice_same by done. by apply set_d_inode_bytes. }
  intros num' Hnum' Hne Hsum Him Hzm. rewrite !(u32_small (num' - 1)) by lia.
  pose proof (Z.mod_pos_bound (num' - 1) 32 ltac:(lia)) as Hk'.
  pose proof (Z.div_mod (num' - 1) 32 ltac:(lia)) as Hdm'.
  assert (Hd : 0 ≤ (num - 1) / 32 < 2048 ∧ 0 ≤ (num' - 1) / 32 < 2048) by lia.
  rewrite !s32_small by lia.
  split; [intros [= H1 H2]; lia|]. intros Hb.
  apply slice_splice_other; [done|]. rewrite Hbytes. unfold D_INODE_SIZE. lia.
Qed.

(** ** fs/bitmap.c: the bitmaps *)

(** The contents of a block: 1024 bytes. *)
Definition block_ok (l : list Z) : Prop := length l = 1024%nat ∧ Forall (λ c, 0 ≤ c < 256) l.

Lemma byte_at_bound l k : Forall (λ c, 0 ≤ c < 256) l → 0 ≤ byte_at l k < 256.
Proof.
  intros Hl. unfold byte_at. destruct (l !! k) as [c|] eqn:Hc; simpl; [|lia].
  by apply (Forall_lookup_1 _ _ _ _ Hl Hc).
Qed.
Lemma testbit_high w x n : 0 ≤ x < 2 ^ w → 0 ≤ w ≤ n → Z.testbit x n = false.
Proof.
  intros Hx Hn. destruct (decide (x = 0)) as [->|]; [apply Z.bits_0|].
  apply Z.bits_above_log2; [lia|]. apply Z.log2_lt_pow2; [lia|].
  pose proof (Z.pow_le_mono_r 2 w n). lia.
Qed.
Lemma byte_bit_high l k n :
  Forall (λ c, 0 ≤ c < 256) l → 8 ≤ n → Z.testbit (byte_at l k) n = false.
Proof. intros Hl Hn. apply (testbit_high 8); [|lia]. by apply byte_at_bound. Qed.

(** ** Reading and writing one bit *)

Lemma bit_in_byte nr : 0 ≤ nr → 0 ≤ nr mod 8 < 8 ∧ 0 ≤ nr / 8 ∧ nr = 8 * (nr / 8) + nr mod 8.
Proof. intros. pose proof (Z.mod_pos_bound nr 8). pose proof (Z.div_pos nr 8). pose proof (Z.div_mod nr 8). lia. Qed.

Lemma byte_at_insert l i j c :
  (i < length l)%nat → byte_at (<[i := c]> l) j = if decide (i = j) then c else byte_at l j.
Proof.
  intros Hi. unfold byte_at. case_decide; subst.
  - by rewrite list_lookup_insert_eq.
  - by rewrite list_lookup_insert_ne.
Qed.
Lemma write_bit_byte x (k : Z) (v : bool) n :
  0 ≤ k → 0 ≤ n →
  Z.testbit (if v then Z.lor x (Z.shiftl 1 k) else Z.land x (Z.lnot (Z.shiftl 1 k))) n =
  if decide (n = k) then v else Z.testbit x n.
Proof.
  intros Hk Hn.
  assert (Hb : Z.testbit (Z.shiftl 1 k) n = bool_decide (n = k)).
  { rewrite Z.shiftl_spec by done. case_bool_decide.
    - subst. by rewrite Z.sub_diag.
    - destruct (Z.ltb_spec n k); [apply Z.testbit_neg_r; lia|].
      apply (testbit_high 1); lia. }
  destruct v;
    [rewrite Z.lor_spec, Hb|rewrite Z.land_spec, Z.lnot_spec, Hb by done];
    case_decide; case_bool_decide; try done; by rewrite ?orb_true_r, ?orb_false_r, ?andb_false_r, ?andb_true_r.
Qed.
Lemma test_write_bit l nr m v :
  block_ok l → 0 ≤ nr < 8192 → 0 ≤ m →
  test_bit m (write_bit nr v l) = if decide (m = nr) then v else test_bit m l.
Proof.
  intros [Hlen Hl] Hnr Hm. unfold test_bit, write_bit.
  destruct (bit_in_byte nr) as (H1 & H2 & H3); [lia|]. destruct (bit_in_byte m) as (H4 & H5 & H6); [done|].
  rewrite byte_at_insert by lia. case_decide as Hk.
  - assert (nr / 8 = m / 8) as -> by lia. rewrite write_bit_byte by lia.
    case_decide; case_decide; try done; lia.
  - case_decide; [subst; done|done].
Qed.
Lemma write_bit_ok l nr v : block_ok l → 0 ≤ nr < 8192 → block_ok (write_bit nr v l).
Proof.
  intros [Hlen Hl] Hnr. unfold write_bit. split; [by rewrite length_insert|].
  apply Forall_insert; [done|]. destruct (bit_in_byte nr) as (H1 & _ & _); [lia|].
  pose proof (byte_at_bound l (Z.to_nat (nr / 8)) Hl) as Hb.
  set (b := byte_at l (Z.to_nat (nr / 8))) in *.
  set (x := if v then Z.lor b (Z.shiftl 1 (nr mod 8)) else Z.land b (Z.lnot (Z.shiftl 1 (nr mod 8)))).
  assert (Hx : x = x mod 2 ^ 8).
  { apply Z.bits_inj'. intros n Hn. destruct (Z.ltb_spec n 8).
    - by rewrite Z.mod_pow2_bits_low by lia.
    - rewrite Z.mod_pow2_bits_high by lia. subst x. rewrite write_bit_byte by lia.
      case_decide; [lia|]. by apply byte_bit_high. }
  rewrite Hx. apply Z.mod_pos_bound. done.
Qed.
(** A block is its bits. *)
Lemma block_ext l k :
  block_ok l → block_ok k → (∀ m, 0 ≤ m < 8192 → test_bit m l = test_bit m k) → l = k.
Proof.
  intros [Hl Hbl] [Hk Hbk] H. apply list_eq_same_length with 1024%nat; [done..|].
  intros i x y Hi Hx Hy. assert (Hxb : byte_at l i = x) by (unfold byte_at; by rewrite Hx).
  assert (Hyb : byte_at k i = y) by (unfold byte_at; by rewrite Hy).
  rewrite <-Hxb, <-Hyb. apply Z.bits_inj'. intros n Hn. destruct (Z.ltb_spec n 8).
  - specialize (H (8 * Z.of_nat i + n) ltac:(lia)). unfold test_bit in H.
    rewrite (Z.mul_comm 8), Z.div_add_l, Z.div_small, Z.add_0_r, Nat2Z.id in H by lia.
    rewrite Z.add_comm, Z.mod_add, Z.mod_small in H by lia. done.
  - by rewrite !byte_bit_high.
Qed.

(** ** The search *)

Lemma bsf_Some n k x i :
  bsf n k x = Some i → k ≤ i < k + Z.of_nat n ∧ Z.testbit x i = true ∧ ∀ j, k ≤ j < i → Z.testbit x j = false.
Proof.
  revert k. induction n as [|n IH]; intros k; simpl; [done|].
  destruct (Z.testbit x k) eqn:Hk.
  - intros [= <-]. split; [lia|]. split; [done|]. lia.
  - intros (H1 & H2 & H3)%IH. split; [lia|]. split; [done|]. intros j Hj.
    destruct (decide (j = k)) as [->|]; [done|]. apply H3. lia.
Qed.
Lemma bsf_None n k x : bsf n k x = None → ∀ j, k ≤ j < k + Z.of_nat n → Z.testbit x j = false.
Proof.
  revert k. induction n as [|n IH]; intros k; simpl; [lia|].
  destruct (Z.testbit x k) eqn:Hk; [done|]. intros H j Hj.
  destruct (decide (j = k)) as [->|]; [done|]. apply (IH (k + 1)); [done|lia].
Qed.

(** A little-endian field is its bytes. *)
Lemma add_shift_bits a b w n :
  0 ≤ w → 0 ≤ a < 2 ^ w → 0 ≤ n →
  Z.testbit (a + 2 ^ w * b) n = if n <? w then Z.testbit a n else Z.testbit b (n - w).
Proof.
  intros Hw Ha Hn.
  destruct (Z.ltb_spec n w).
  - rewrite <-(Z.mod_pow2_bits_low _ w n) by lia. rewrite Z.mul_comm, Z.mod_add, Z.mod_small by lia. done.
  - replace n with (n - w + w) at 1 by lia. rewrite <-Z.div_pow2_bits by lia.
    rewrite Z.mul_comm, Z.div_add, Z.div_small by lia. by rewrite Z.add_0_l.
Qed.
Lemma get16_bits l off n :
  Forall (λ c, 0 ≤ c < 256) l → 0 ≤ n →
  Z.testbit (get16 l off) n = if n <? 8 then Z.testbit (byte_at l off) n else Z.testbit (byte_at l (off + 1)) (n - 8).
Proof. intros Hl Hn. apply (add_shift_bits _ _ 8); [lia|by apply byte_at_bound|done]. Qed.
Lemma get16_bound l off : Forall (λ c, 0 ≤ c < 256) l → 0 ≤ get16 l off < 65536.
Proof.
  intros Hl. unfold get16. pose proof (byte_at_bound l off Hl). pose proof (byte_at_bound l (off + 1) Hl). lia.
Qed.
Lemma get32_bits l off n :
  Forall (λ c, 0 ≤ c < 256) l → 0 ≤ n < 32 →
  Z.testbit (get32 l off) n = Z.testbit (byte_at l (off + Z.to_nat (n / 8))) (n mod 8).
Proof.
  intros Hl Hn. unfold get32. rewrite (add_shift_bits _ _ 16) by (try apply get16_bound; done || lia).
  assert (n / 8 = 0 ∧ n mod 8 = n ∧ n < 8 ∨ n / 8 = 1 ∧ n mod 8 = n - 8 ∧ 8 ≤ n < 16 ∨
          n / 8 = 2 ∧ n mod 8 = n - 16 ∧ 16 ≤ n < 24 ∨ n / 8 = 3 ∧ n mod 8 = n - 24 ∧ 24 ≤ n) as Hc.
  { pose proof (Z.div_mod n 8). pose proof (Z.mod_pos_bound n 8). lia. }
  destruct Hc as [(-> & -> & ?)|[(-> & -> & ?)|[(-> & -> & ?)|(-> & -> & ?)]]];
    destruct (Z.ltb_spec n 16); try lia; rewrite get16_bits by (done || lia);
    destruct (Z.ltb_spec n 8), (Z.ltb_spec (n - 16) 8); try lia;
    (apply f_equal2; [apply f_equal|]; lia).
Qed.
Lemma long_bits l ecx n :
  Forall (λ c, 0 ≤ c < 256) l → 0 ≤ ecx → ecx mod 32 = 0 → 0 ≤ n < 32 →
  Z.testbit (Z.lxor 0xffffffff (get32 l (Z.to_nat (ecx / 8)))) n = negb (test_bit (ecx + n) l).
Proof.
  intros Hl He H32 Hn. rewrite Z.lxor_spec, get32_bits by done.
  change 0xffffffff with (Z.ones 32). rewrite Z.ones_spec_low by lia. rewrite xorb_true_l.
  unfold test_bit. apply Z.mod_divide in H32 as [q ->]; [|lia].
  replace (q * 32) with (4 * q * 8) by lia. rewrite Z.div_mul by lia.
  replace (4 * q * 8 + n) with (n + 4 * q * 8) by lia. rewrite Z.mod_add, Z.div_add by lia.
  do 3 f_equal. pose proof (Z.div_pos n 8). lia.
Qed.

Lemma find_first_zero_from_spec n ecx l :
  Forall (λ c, 0 ≤ c < 256) l → 0 ≤ ecx → ecx mod 32 = 0 →
  let r := find_first_zero_from n ecx l in
  ecx ≤ r ≤ ecx + 32 * Z.of_nat n ∧ (∀ j, ecx ≤ j < r → test_bit j l = true) ∧
  (r < ecx + 32 * Z.of_nat n → test_bit r l = false).
Proof.
  intros Hl. revert ecx. induction n as [|n IH]; intros ecx He H32; cbv zeta.
  { cbn [find_first_zero_from]. split; [lia|]. split; lia. }
  cbn [find_first_zero_from]. cbv zeta.
  set (eax := Z.lxor _ _).
  assert (Hbits : ∀ k, 0 ≤ k < 32 → Z.testbit eax k = negb (test_bit (ecx + k) l))
    by (intros k Hk; by apply long_bits).
  destruct (bsf 32 0 eax) as [edx|] eqn:Hb.
  - apply bsf_Some in Hb as (H1 & H2 & H3). change (Z.of_nat 32) with 32 in H1. split; [lia|]. split.
    + intros j Hj. specialize (H3 (j - ecx) ltac:(lia)). rewrite Hbits in H3 by lia.
      apply negb_false_iff in H3. by replace (ecx + (j - ecx)) with j in H3 by lia.
    + intros _. rewrite Hbits in H2 by lia. by apply negb_true_iff in H2.
  - pose proof (bsf_None _ _ _ Hb) as H0. change (Z.of_nat 32) with 32 in H0.
    destruct (IH (ecx + 32)) as (H1 & H2 & H3); [lia| |].
    { replace (ecx + 32) with (ecx + 1 * 32) by lia. by rewrite Z.mod_add. }
    split; [lia|]. split; [|intros; apply H3; lia].
    intros j Hj. destruct (Z.ltb_spec j (ecx + 32)); [|apply H2; lia].
    specialize (H0 (j - ecx) ltac:(lia)). rewrite Hbits in H0 by lia.
    apply negb_false_iff in H0. by replace (ecx + (j - ecx)) with j in H0 by lia.
Qed.

Lemma find_first_zero_spec l :
  block_ok l →
  let r := find_first_zero l in
  0 ≤ r ≤ 8192 ∧ (∀ j, 0 ≤ j < r → test_bit j l = true) ∧ (r < 8192 → test_bit r l = false).
Proof. intros [_ Hl]. apply (find_first_zero_from_spec 256 0 l Hl); done. Qed.

(** ** Where the search over the maps of a device ends *)

Definition map_data (s : kernel) (b : nat) : list Z := default [] (b_data <$> buffers (k_buf s) !! b).


Lemma scan_maps_spec s (maps : list (option nat)) (k : nat) last j0 :
  (∀ b, Some b ∈ maps → ∃ x, buffers (k_buf s) !! b = Some x ∧ block_ok (b_data x)) →
  8192 ≤ j0 →
  ∃ i b j, scan_maps maps (Z.of_nat k) last j0 s = Ok (Z.of_nat i, b, j) s ∧
    (k ≤ i ≤ k + length maps)%nat ∧
    (∀ i' b' n, (k ≤ i' < i)%nat → maps !! (i' - k)%nat = Some (Some b') → 0 ≤ n < 8192 →
       test_bit n (map_data s b') = true) ∧
    ((i < k + length maps)%nat →
       ∃ b', b = Some b' ∧ maps !! (i - k)%nat = Some (Some b') ∧ 0 ≤ j < 8192 ∧
         test_bit j (map_data s b') = false ∧ (∀ n, 0 ≤ n < j → test_bit n (map_data s b') = true)).
Proof.
  revert k last j0. induction maps as [|m maps IH]; intros k last j0 Hb Hj0; cbn [scan_maps].
  { exists k, last, j0. split; [done|]. simpl length. split; [lia|]. split; intros; lia. }
  assert (Hrest : ∀ last j, 8192 ≤ j → (∀ b' n, m = Some b' → 0 ≤ n < 8192 → test_bit n (map_data s b') = true) →
    ∃ i b j', scan_maps maps (Z.of_nat k + 1) last j s = Ok (Z.of_nat i, b, j') s ∧
    (k ≤ i ≤ k + S (length maps))%nat ∧
    (∀ i' b' n, (k ≤ i' < i)%nat → (m :: maps) !! (i' - k)%nat = Some (Some b') → 0 ≤ n < 8192 →
       test_bit n (map_data s b') = true) ∧
    ((i < k + S (length maps))%nat →
       ∃ b', b = Some b' ∧ (m :: maps) !! (i - k)%nat = Some (Some b') ∧ 0 ≤ j' < 8192 ∧
         test_bit j' (map_data s b') = false ∧ (∀ n, 0 ≤ n < j' → test_bit n (map_data s b') = true))).
  { intros last' j' Hj' Hm. destruct (IH (S k) last' j') as (i & b & j & Hrun & Hi & Hfull & Hfree).
    { intros b Hin. apply Hb. by right. } { done. }
    rewrite Nat2Z.inj_succ, <-Z.add_1_r in Hrun.
    exists i, b, j. split; [exact Hrun|]. split; [lia|]. split.
    - intros i' b' n Hi' Hmap Hn. destruct (decide (i' = k)) as [->|].
      + rewrite Nat.sub_diag in Hmap. injection Hmap as ->. by apply Hm.
      + replace (i' - k)%nat with (S (i' - S k)) in Hmap by lia. by apply (Hfull i'); [lia|..].
    - intros Hlt. destruct (Hfree ltac:(lia)) as (b' & ? & Hmap & ?). exists b'.
      replace (i - k)%nat with (S (i - S k)) by lia. by split. }
  destruct m as [b|]; [|apply Hrest; done].
  destruct (Hb b ltac:(left)) as (x & Hx & Hok).
  rewrite (bind_Ok _ _ _ _ _ (bh_run _ _ _ Hx)). cbv zeta.
  destruct (find_first_zero_spec (b_data x) Hok) as (Hr & Hones & Hzero).
  assert (Hdata : map_data s b = b_data x) by (unfold map_data; by rewrite Hx).
  destruct (Z.ltb_spec (find_first_zero (b_data x)) 8192) as [Hlt|Hge].
  - exists k, (Some b), (find_first_zero (b_data x)). split; [done|]. simpl length. split; [lia|].
    split; [intros; lia|]. intros _. exists b. rewrite Nat.sub_diag, Hdata.
    split; [done|]. split; [done|]. split; [lia|]. auto.
  - apply Hrest; [done|]. intros b' n [= <-] Hn. rewrite Hdata. apply Hones. lia.
Qed.

(** new_block and new_inode take the lowest-numbered free bit of the
    device's bitmaps: the search changes nothing; every bit it passed over, in
    earlier maps and below the result in the chosen one, is in use; if it ends
    before the last slot, the bit it returns is free. *)
Theorem scan_maps_correct (s : kernel) (maps : list (option nat))
    (Hmaps : ∀ b, Some b ∈ maps → ∃ x, buffers (k_buf s) !! b = Some x ∧ block_ok (b_data x)) :
  ∃ i b j, scan_maps maps 0 None 8192 s = Ok (Z.of_nat i, b, j) s ∧ (i ≤ length maps)%nat ∧
    (∀ i' b' n, (i' < i)%nat → maps !! i' = Some (Some b') → 0 ≤ n < 8192 →
       test_bit n (map_data s b') = true) ∧
    ((i < length maps)%nat →
       ∃ b', b = Some b' ∧ maps !! i = Some (Some b') ∧ 0 ≤ j < 8192 ∧
         test_bit j (map_data s b') = false ∧ (∀ n, 0 ≤ n < j → test_bit n (map_data s b') = true)).
Proof.
  destruct (scan_maps_spec s maps 0 None 8192 Hmaps) as (i & b & j & Hrun & Hi & Hfull & Hfree); [lia|].
  setoid_rewrite Nat.sub_0_r in Hfull. rewrite Nat.sub_0_r in Hfree.
  exists i, b, j. split; [exact Hrun|]. split; [lia|]. split; [|exact Hfree].
  intros i' b' n Hi' Hmap Hn. by apply (Hfull i'); [lia|..].
Qed.

(** Setting a bit that set_bit() found clear and clearing it again gives
    back the same block; in between only that bit differs, the block stays a
    block of bytes, and the two routines report the old value of the bit. *)
Theorem bit_roundtrip (l : list Z) (nr : Z) (Hl : block_ok l) (Hnr : 0 ≤ nr < 8192)
    (Hfree : test_bit nr l = false) :
  (set_bit nr l).1 = false ∧
  let l' := (set_bit nr l).2 in
  block_ok l' ∧ (∀ m, 0 ≤ m < 8192 → test_bit m l' = bool_decide (m = nr) || test_bit m l) ∧
  clear_bit nr l' = (false, l) ∧ (set_bit nr l').1 = true.
Proof.
  unfold set_bit, clear_bit. cbn [fst snd]. split; [done|].
  split; [by apply write_bit_ok|]. split; [|split].
  - intros m Hm. rewrite test_write_bit by (done || lia). case_decide; by case_bool_decide.
  - rewrite test_write_bit by (done || lia). rewrite decide_True by done. f_equal.
    apply block_ext; [apply write_bit_ok; [by apply write_bit_ok|done]|done|].
    intros m Hm. rewrite !test_write_bit by (done || lia || by apply write_bit_ok).
    case_decide; [by subst|done].
  - rewrite test_write_bit by (done || lia). by rewrite decide_True.
Qed.
