(* ===== verification/FileDev.v ===== *)
(** * fs/file_dev.c, fs/block_dev.c and fs/pipe.c

    Reading and writing regular files, block devices and pipes. *)

From stdpp Require Import base option list gmap strings.
From Stdlib Require Import ZArith.
From S2P Require Import Prelude Types Memory Sched Kernel Blk Buffer Inode.
Local Open Scope Z_scope.

Definition O_APPEND : Z := 0x400.     (* 02000 *)

(** [while (chars-->0) put_fs_byte( *(p++),buf++);] and its converse *)
Fixpoint put_fs_bytes (l : list Z) (buf : Z) : M kernel unit :=
  match l with
  | [] => mret tt
  | x :: l => put_fs_byte x buf ;; put_fs_bytes l (buf + 1)
  end.
Fixpoint get_fs_bytes (n : nat) (buf : Z) : M kernel (list Z) :=
  match n with
  | O => mret []
  | S n => x ← get_fs_byte buf; l ← get_fs_bytes n (buf + 1); mret (x :: l)
  end.
(** A position inside a block; the code indexes [b_data] with it unchecked. *)
Definition block_index (nr : Z) : M kernel nat := if nr <? 0 then fault else mret (Z.to_nat nr).

Section FileDev.
Context {E : Env}.

(** The loop of file_read; the result is [left]. *)
Fixpoint file_read_loop (fuel : nat) (inode filp : nat) (buf left : Z) : M kernel Z :=
  if left =? 0 then mret 0 else
  match fuel with
  | O => no_fuel
  | S fuel =>
      f ← file_at filp;
      nr ← bmap inode (Z.quot (f_pos f) BLOCK_SIZE);
      b ← (if truth nr then
             x ← inode_at inode;
             b ← bread (i_dev x) nr;
             mret (match b with Some b => Some (Some b) | None => None end)
           else mret (Some None));
      match b with
      | None => mret left
      | Some b =>
          f ← file_at filp;
          let nr := Z.rem (f_pos f) BLOCK_SIZE in
          let chars := Z.min (BLOCK_SIZE - nr) left in
          upd_file filp (λ f, f <| f_pos ::= λ p, s32 (p + chars) |>) ;;
          match b with
          | Some b =>
              off ← block_index nr;
              y ← bh b;
              put_fs_bytes (slice off (Z.to_nat chars) (b_data y)) buf ;;
              brelse (Some b)
          | None => put_fs_bytes (replicate (Z.to_nat chars) 0) buf
          end ;;
          file_read_loop fuel inode filp (buf + chars) (left - chars)
      end
  end.

Definition file_read (inode filp : nat) (buf count : Z) : M kernel Z :=
  if count <=? 0 then mret 0 else
  left ← file_read_loop (Z.to_nat count) inode filp buf count;
  t ← CURRENT_TIME;
  upd_inode inode (λ x, x <| i_atime := u32 t |>) ;;
  mret (if truth (count - left) then count - left else - ERROR).

(** The loop of file_write; the result is (i, pos). *)
Fixpoint file_write_loop (fuel : nat) (inode : nat) (pos buf i count : Z) : M kernel (Z * Z) :=
  if count <=? i then mret (i, pos) else
  match fuel with
  | O => no_fuel
  | S fuel =>
      block ← create_block inode (Z.quot pos BLOCK_SIZE);
      if block =? 0 then mret (i, pos) else
      x ← inode_at inode;
      b ← bread (i_dev x) block;
      match b with
      | None => mret (i, pos)
      | Some b =>
          let at_ := Z.rem pos BLOCK_SIZE in
          set_bh b (λ y, y <| b_dirt := 1 |>) ;;
          let c := BLOCK_SIZE - at_ in
          let c := if count - i <? c then count - i else c in
          let pos := s32 (pos + c) in
          x ← inode_at inode;
          when (i_size x <? u32 pos)
            (upd_inode inode (λ x, x <| i_size := u32 pos |> <| i_dirt := 1 |>)) ;;
          off ← block_index at_;
          l ← get_fs_bytes (Z.to_nat c) buf;
          set_bh b (λ y, y <| b_data ::= splice off l |>) ;;
          brelse (Some b) ;;
          file_write_loop fuel inode pos (buf + c) (i + c) count
      end
  end.

Definition file_write (inode filp : nat) (buf count : Z) : M kernel Z :=
  f ← file_at filp;
  x ← inode_at inode;
  let pos := if has (f_flags f) O_APPEND then s32 (i_size x) else f_pos f in
  '(i, pos) ← file_write_loop (Z.to_nat count) inode pos buf 0 count;
  t ← CURRENT_TIME;
  upd_inode inode (λ x, x <| i_mtime := u32 t |>) ;;
  f ← file_at filp;
  when (negb (has (f_flags f) O_APPEND)) (
    upd_file filp (λ f, f <| f_pos := pos |>) ;;
    upd_inode inode (λ x, x <| i_ctime := u32 t |>)) ;;
  mret (if truth i then i else -1).

(** ** block_dev.c; [pos] is the word [*pos] *)
Definition f_pos_of (f : nat) : cell := {|
  rd s := default 0 (f_pos <$> file_table (k_fs s) !! f);
  wr v s := s <| k_fs ::= λ d, d <| file_table ::= alter (λ x, x <| f_pos := v |>) f |> |>
|}.
Definition advance (pos : cell) (chars : Z) : M kernel unit :=
  p ← gets (rd pos); modify (wr pos (s32 (p + chars))).

Fixpoint block_write_loop (fuel : nat) (dev : Z) (pos : cell) (block offset buf count written : Z) : M kernel Z :=
  if count <=? 0 then mret written else
  match fuel with
  | O => no_fuel
  | S fuel =>
      let chars := BLOCK_SIZE - offset in
      let chars := if count <? chars then count else chars in
      b ← (if chars =? BLOCK_SIZE then b ← getblk dev block; mret (Some b)
           else breada dev block [block + 1; block + 2]);
      match b with
      | None => mret (if truth written then written else - EIO)
      | Some b =>
          off ← block_index offset;
          advance pos chars ;;
          l ← get_fs_bytes (Z.to_nat chars) buf;
          set_bh b (λ y, y <| b_data ::= splice off l |> <| b_dirt := 1 |>) ;;
          brelse (Some b) ;;
          block_write_loop fuel dev pos (block + 1) 0 (buf + chars) (count - chars) (written + chars)
      end
  end.
Definition block_write (dev : Z) (pos : cell) (buf count : Z) : M kernel Z :=
  p ← gets (rd pos);
  block_write_loop (Z.to_nat count) dev pos (Z.shiftr p 10) (Z.land p 1023) buf count 0.

Fixpoint block_read_loop (fuel : nat) (dev : Z) (pos : cell) (block offset buf count read : Z) : M kernel Z :=
  if count <=? 0 then mret read else
  match fuel with
  | O => no_fuel
  | S fuel =>
      let chars := BLOCK_SIZE - offset in
      let chars := if count <? chars then count else chars in
      b ← breada dev block [block + 1; block + 2];
      match b with
      | None => mret (if truth read then read else - EIO)
      | Some b =>
          off ← block_index offset;
          advance pos chars ;;
          y ← bh b;
          put_fs_bytes (slice off (Z.to_nat chars) (b_data y)) buf ;;
          brelse (Some b) ;;
          block_read_loop fuel dev pos (block + 1) 0 (buf + chars) (count - chars) (read + chars)
      end
  end.
(** Here [*pos] is read as an unsigned long. *)
Definition block_read (dev : Z) (pos : cell) (buf count : Z) : M kernel Z :=
  p ← gets (rd pos);
  block_read_loop (Z.to_nat count) dev pos (Z.shiftr (u32 p) 10) (Z.land p 1023) buf count 0.

(** ** pipe.c *)

(** Byte [a] of physical memory, [((char * )inode->i_size)[k]]. *)
Definition ld8 (a : Z) : M mm Z :=
  w ← ld (a - a mod 4); mret (u8 (Z.shiftr w (8 * (a mod 4)))).

(** [while (chars-->0) put_fs_byte(page[size++],buf++)] and its converse *)
Fixpoint pipe_to_user (n : nat) (page size buf : Z) : M kernel unit :=
  match n with
  | O => mret tt
  | S n =>
      c ← zoom k_mm (ld8 (page + size));
      put_fs_byte c buf ;;
      pipe_to_user n page (size + 1) (buf + 1)
  end.
Fixpoint user_to_pipe (n : nat) (page size buf : Z) : M kernel unit :=
  match n with
  | O => mret tt
  | S n =>
      c ← get_fs_byte buf;
      zoom k_mm (st8 (page + size) c) ;;
      user_to_pipe n page (size + 1) (buf + 1)
  end.

(** [while (!(size=...)) { wake_up; if (i_count != 2) return; sleep_on; }]:
    [None] when the other side is closed. *)
Fixpoint pipe_wait (fuel : nat) (inode : nat) (size : m_inode → Z) : M kernel (option Z) :=
  match fuel with
  | O => no_fuel
  | S fuel =>
      x ← inode_at inode;
      if truth (size x) then mret (Some (size x)) else
      wake_up (i_wait_of inode) ;;
      x ← inode_at inode;
      if negb (i_count x =? 2) then mret None else
      sleep_on (i_wait_of inode) ;;
      pipe_wait fuel inode size
  end.

Definition min3 (a b c : Z) : Z := Z.min (Z.min a b) c.

Fixpoint read_pipe_loop (fuel : nat) (inode : nat) (buf count read : Z) : M kernel Z :=
  if count <=? 0 then wake_up (i_wait_of inode) ;; mret read else
  match fuel with
  | O => no_fuel
  | S fuel =>
      size ← pipe_wait patience inode PIPE_SIZE;
      match size with
      | None => mret read
      | Some size =>
          x ← inode_at inode;
          let chars := min3 (PAGE_SIZE - PIPE_TAIL x) count size in
          let size := PIPE_TAIL x in
          upd_inode inode (set_zone 1 (Z.land (PIPE_TAIL x + chars) 4095)) ;;
          pipe_to_user (Z.to_nat chars) (i_size x) size buf ;;
          read_pipe_loop fuel inode (buf + chars) (count - chars) (read + chars)
      end
  end.
Definition read_pipe (inode : nat) (buf count : Z) : M kernel Z :=
  read_pipe_loop (Z.to_nat count) inode buf count 0.

Fixpoint write_pipe_loop (fuel : nat) (inode : nat) (buf count written : Z) : M kernel Z :=
  if count <=? 0 then wake_up (i_wait_of inode) ;; mret written else
  match fuel with
  | O => no_fuel
  | S fuel =>
      size ← pipe_wait patience inode (λ x, PAGE_SIZE - 1 - PIPE_SIZE x);
      match size with
      | None =>
          upd_me (λ t, t <| signal ::= λ g, Z.lor g (_S SIGPIPE) |>) ;;
          mret (if truth written then written else -1)
      | Some size =>
          x ← inode_at inode;
          let chars := min3 (PAGE_SIZE - PIPE_HEAD x) count size in
          let size := PIPE_HEAD x in
          upd_inode inode (set_zone 0 (Z.land (PIPE_HEAD x + chars) 4095)) ;;
          user_to_pipe (Z.to_nat chars) (i_size x) size buf ;;
          write_pipe_loop fuel inode (buf + chars) (count - chars) (written + chars)
      end
  end.
Definition write_pipe (inode : nat) (buf count : Z) : M kernel Z :=
  write_pipe_loop (Z.to_nat count) inode buf count 0.
End FileDev.

(** The first free slots of the file table and of the descriptors. *)
Fixpoint free_file (l : list file) (i : nat) : option nat :=
  match l with
  | [] => None
  | f :: l => if f_count f =? 0 then Some i else free_file l (S i)
  end.
Definition set_filp (fd : nat) (f : option nat) (t : task_struct) : task_struct := t <| filp ::= <[fd := f]> |>.
Definition free_fd_from (l : list (option nat)) (i : nat) : option nat :=
  list_find (λ f, f = None) (drop i l) ≫= λ r, Some (i + r.1)%nat.

(** [if (!file_table[i].f_count) (f[j++]=i+file_table)->f_count++], twice *)
Definition take_file : M kernel (option nat) :=
  s ← get;
  match free_file (file_table (k_fs s)) 0 with
  | None => mret None
  | Some i => upd_file i (λ f, f <| f_count ::= λ c, u16 (c + 1) |>) ;; mret (Some i)
  end.
Definition take_fd (f : nat) : M kernel (option nat) :=
  t ← me;
  match free_fd_from (filp t) 0 with
  | None => mret None
  | Some fd => upd_me (set_filp fd (Some f)) ;; mret (Some fd)
  end.
Definition drop_file (f : nat) : M kernel unit := upd_file f (λ f, f <| f_count := 0 |>).

Section Pipe.
Context {E : Env}.
Definition sys_pipe (fildes : Z) : M kernel Z :=
  f0 ← take_file;
  match f0 with None => mret (-1) | Some f0 =>
  f1 ← take_file;
  match f1 with None => drop_file f0 ;; mret (-1) | Some f1 =>
  fd0 ← take_fd f0;
  match fd0 with None => drop_file f0 ;; drop_file f1 ;; mret (-1) | Some fd0 =>
  fd1 ← take_fd f1;
  match fd1 with
  | None => upd_me (set_filp fd0 None) ;; drop_file f0 ;; drop_file f1 ;; mret (-1)
  | Some fd1 =>
  inode ← get_pipe_inode;
  match inode with
  | None =>
      upd_me (set_filp fd0 None) ;; upd_me (set_filp fd1 None) ;;
      drop_file f0 ;; drop_file f1 ;; mret (-1)
  | Some inode =>
      upd_file f0 (λ f, f <| f_inode := Some inode |> <| f_pos := 0 |> <| f_mode := 1 |>) ;;
      upd_file f1 (λ f, f <| f_inode := Some inode |> <| f_pos := 0 |> <| f_mode := 2 |>) ;;
      put_fs_long (Z.of_nat fd0) fildes ;;
      put_fs_long (Z.of_nat fd1) (fildes + 4) ;;
      mret 0
  end end end end end.
End Pipe.
