(* ===== verification/UserFacts.v ===== *)
(** * The user's data segment: strings of bytes in memory *)

From stdpp Require Import base option list gmap.
From Stdlib Require Import ZArith Lia.
From S2P Require Import Prelude Types Memory Sched Kernel FileDev.
Local Open Scope Z_scope.

(** The bytes at [p] are [l]. *)
Definition user_has (s : kernel) (p : Z) (l : list Z) : Prop :=
  ∀ k x, l !! k = Some x → k_user s !! (p + Z.of_nat k) = Some x ∧ 0 ≤ x < 256.

Lemma user_has_cons s p x l :
  user_has s p (x :: l) ↔ (k_user s !! p = Some x ∧ 0 ≤ x < 256) ∧ user_has s (p + 1) l.
Proof.
  split.
  - intros H. split; [specialize (H 0%nat x eq_refl); by rewrite Z.add_0_r in H|].
    intros k y Hk. specialize (H (S k) y Hk). by replace (p + 1 + Z.of_nat k) with (p + Z.of_nat (S k)) by lia.
  - intros [H0 H] [|k] y Hk; simplify_eq/=; [by rewrite Z.add_0_r|].
    specialize (H k y Hk). by replace (p + Z.of_nat (S k)) with (p + 1 + Z.of_nat k) by lia.
Qed.
Lemma user_has_app s p l k :
  user_has s p (l ++ k) ↔ user_has s p l ∧ user_has s (p + Z.of_nat (length l)) k.
Proof.
  revert p. induction l as [|x l IH]; intros p; simpl.
  - rewrite Z.add_0_r. split; [|tauto]. split; [by intros ? ? ?|done].
  - rewrite !user_has_cons, IH.
    replace (p + 1 + Z.of_nat (length l)) with (p + Z.of_nat (S (length l))) by lia. tauto.
Qed.

Lemma get_fs_byte_run s p x l : user_has s p (x :: l) → get_fs_byte p s = Ok x s.
Proof.
  intros [[Hx Hb] _]%user_has_cons. unfold get_fs_byte. mred. unfold get. rewrite Hx. simpl.
  by rewrite u8_small.
Qed.
Lemma get_fs_bytes_run s p l k : user_has s p (l ++ k) → get_fs_bytes (length l) p s = Ok l s.
Proof.
  revert p. induction l as [|x l IH]; intros p Hl; simpl in *; [done|].
  rewrite (bind_Ok _ _ _ _ _ (get_fs_byte_run _ _ _ _ Hl)).
  apply user_has_cons in Hl as [_ Hl]. by rewrite (bind_Ok _ _ _ _ _ (IH _ Hl)).
Qed.

(** The memory after [l] has been stored at [p]. *)
Fixpoint user_write (l : list Z) (p : Z) (m : gmap Z Z) : gmap Z Z :=
  match l with
  | [] => m
  | x :: l => user_write l (p + 1) (<[p := u8 x]> m)
  end.
Definition set_user (m : gmap Z Z) (s : kernel) : kernel := s <| k_user := m |>.

Lemma put_fs_bytes_run l p s : put_fs_bytes l p s = Ok tt (set_user (user_write l p (k_user s)) s).
Proof.
  revert p s. induction l as [|x l IH]; intros p s; simpl.
  - unfold set_user. by destruct s.
  - unfold put_fs_byte. mred. unfold modify. by rewrite IH.
Qed.
Lemma lookup_user_write_lt l p m q : q < p → user_write l p m !! q = m !! q.
Proof.
  revert p m. induction l as [|x l IH]; intros p m Hq; simpl; [done|].
  rewrite IH by lia. apply lookup_insert_ne. lia.
Qed.
Lemma lookup_user_write l p m q :
  user_write l p m !! q =
    if decide (p ≤ q < p + Z.of_nat (length l)) then u8 <$> l !! Z.to_nat (q - p) else m !! q.
Proof.
  revert p m. induction l as [|x l IH]; intros p m; simpl.
  - rewrite decide_False by lia. done.
  - rewrite IH. destruct (decide (p = q)) as [->|Hne].
    + rewrite decide_False, decide_True by lia. rewrite Z.sub_diag, lookup_insert_eq. done.
    + rewrite lookup_insert_ne by done. repeat case_decide; try lia; [|done].
      by replace (Z.to_nat (q - p)) with (S (Z.to_nat (q - (p + 1)))) by lia.
Qed.
Lemma user_has_write l p m s :
  Forall (λ x, 0 ≤ x < 256) l → user_has (set_user (user_write l p m) s) p l.
Proof.
  intros Hl k x Hk. pose proof (Forall_lookup_1 _ _ _ _ Hl Hk) as Hb. split; [|done]. simpl.
  rewrite lookup_user_write. pose proof (lookup_lt_Some _ _ _ Hk).
  rewrite decide_True by lia. replace (Z.to_nat (p + Z.of_nat k - p)) with k by lia.
  rewrite Hk. simpl. by rewrite u8_small.
Qed.
