(* ===== verification/PipeProofs.v ===== *)
(** * Pipes are bounded queues of bytes *)

From stdpp Require Import base option list gmap.
From Stdlib Require Import ZArith Lia.
From S2P Require Import Prelude Types Memory Sched Kernel KernelFacts Inode FileDev UserFacts.
Local Open Scope Z_scope.

(** ** Bytes of physical memory *)

Definition byte_of (m : mm) (a : Z) : Z := u8 (Z.shiftr (word m (a - a mod 4)) (8 * (a mod 4))).
Definition set_byte (a b : Z) (m : mm) : mm :=
  let base := a - a mod 4 in let sh := 8 * (a mod 4) in
  m <| phys ::= <[base := Z.lor (Z.land (word m base) (Z.lnot (Z.shiftl 255 sh))) (Z.shiftl (u8 b) sh)]> |>.

Lemma ld8_run a m : ld8 a m = Ok (byte_of m a) m.
Proof. done. Qed.
Lemma st8_run a b m : st8 a b m = Ok tt (set_byte a b m).
Proof. by destruct m. Qed.
Lemma byte_of_bound m a : 0 ≤ byte_of m a < 256.
Proof. apply u8_bound. Qed.

Lemma u8_bits x n : 0 ≤ n → Z.testbit (u8 x) n = (n <? 8) && Z.testbit x n.
Proof.
  intros Hn. unfold u8. change 256 with (2 ^ 8). destruct (Z.ltb_spec n 8).
  - by rewrite Z.mod_pow2_bits_low.
  - by rewrite Z.mod_pow2_bits_high by lia.
Qed.
Lemma u32_bits x n : 0 ≤ n → Z.testbit (u32 x) n = (n <? 32) && Z.testbit x n.
Proof.
  intros Hn. unfold u32. change 4294967296 with (2 ^ 32). destruct (Z.ltb_spec n 32).
  - by rewrite Z.mod_pow2_bits_low.
  - by rewrite Z.mod_pow2_bits_high by lia.
Qed.
Lemma bits_255 k n : 0 ≤ k → 0 ≤ n → Z.testbit (Z.shiftl 255 k) n = (k <=? n) && (n <? k + 8).
Proof.
  intros Hk Hn. rewrite Z.shiftl_spec by lia. change 255 with (Z.ones 8).
  destruct (Z.leb_spec k n), (Z.ltb_spec n (k + 8)); simpl;
    first [apply Z.ones_spec_low; lia | apply Z.ones_spec_high; lia | apply Z.testbit_neg_r; lia].
Qed.

Lemma byte_of_set a b m a' :
  byte_of (set_byte a b m) a' = if decide (a' = a) then u8 b else byte_of m a'.
Proof.
  pose proof (Z.mod_pos_bound a 4 ltac:(lia)) as Ha. pose proof (Z.mod_pos_bound a' 4 ltac:(lia)) as Ha'.
  unfold byte_of, set_byte, word. simpl.
  destruct (decide (a' - a' mod 4 = a - a mod 4)) as [Hb|Hb].
  2: { rewrite lookup_insert_ne by done. rewrite decide_False by by intros ->. done. }
  rewrite Hb, lookup_insert_eq. simpl.
  set (w := default 0 _). apply Z.bits_inj'. intros n Hn.
  assert (Hsplit : Z.testbit (if decide (a' = a) then u8 b else u8 (Z.shiftr (u32 w) (8 * (a' mod 4)))) n =
    (n <? 8) && if decide (a' = a) then Z.testbit b n else Z.testbit (u32 w) (n + 8 * (a' mod 4))).
  { case_decide; rewrite u8_bits, ?Z.shiftr_spec by lia; done. }
  rewrite Hsplit, u8_bits by lia. destruct (Z.ltb_spec n 8); [|done]. simpl.
  rewrite Z.shiftr_spec, !u32_bits, Z.lor_spec, Z.land_spec, Z.lnot_spec, bits_255 by lia.
  replace (n + 8 * (a' mod 4) <? 32) with true by lia. simpl.
  rewrite Z.shiftl_spec by lia. case_decide as Heq.
  - subst a'. replace (8 * (a mod 4) <=? n + 8 * (a mod 4)) with true by lia.
    replace (n + 8 * (a mod 4) <? 8 * (a mod 4) + 8) with true by lia.
    rewrite andb_false_r. simpl. rewrite u8_bits by lia.
    replace (n + 8 * (a mod 4) - 8 * (a mod 4)) with n by lia.
    by replace (n <? 8) with true by lia.
  - assert (Hne : a' mod 4 ≠ a mod 4) by lia.
    replace ((8 * (a mod 4) <=? n + 8 * (a' mod 4)) && (n + 8 * (a' mod 4) <? 8 * (a mod 4) + 8)) with false by lia.
    rewrite andb_true_r.
    destruct (Z.ltb_spec (n + 8 * (a' mod 4) - 8 * (a mod 4)) 0).
    + rewrite (Z.testbit_neg_r _ (_ - _)) by done. by rewrite orb_false_r, u32_bits by lia; replace (n + 8 * (a' mod 4) <? 32) with true by lia.
    + rewrite u8_bits by lia. replace (_ <? 8) with false by lia. rewrite orb_false_r.
      rewrite u32_bits by lia. by replace (n + 8 * (a' mod 4) <? 32) with true by lia.
Qed.

Lemma ld8_k_run a s : zoom k_mm (ld8 a) s = Ok (byte_of (k_mm s) a) s.
Proof. unfold zoom. rewrite ld8_run. by rewrite kernel_mm_id. Qed.
Lemma put_fs_byte_run v a s : put_fs_byte v a s = Ok tt (set_user (<[a := u8 v]> (k_user s)) s).
Proof. done. Qed.
Lemma pipe_to_user_run n page size buf s :
  pipe_to_user n page size buf s =
    Ok tt (set_user (user_write ((λ k, byte_of (k_mm s) (page + size + Z.of_nat k)) <$> seq 0 n) buf (k_user s)) s).
Proof.
  revert size buf s. induction n as [|n IH]; intros size buf s; simpl.
  - unfold set_user. by destruct s.
  - rewrite (bind_Ok _ _ _ _ _ (ld8_k_run _ s)), (bind_Ok _ _ _ _ _ (put_fs_byte_run _ _ s)), IH.
    rewrite Z.add_0_r, <-fmap_S_seq, <-list_fmap_compose. unfold compose, set_user. simpl.
    erewrite list_fmap_ext; [reflexivity|]. intros j x _. simpl. f_equal. lia.
Qed.
Fixpoint mem_write (l : list Z) (a : Z) (m : mm) : mm :=
  match l with
  | [] => m
  | x :: l => mem_write l (a + 1) (set_byte a x m)
  end.
Lemma byte_of_mem_write l a m a' :
  byte_of (mem_write l a m) a' =
    if decide (a ≤ a' < a + Z.of_nat (length l)) then u8 (default 0 (l !! Z.to_nat (a' - a))) else byte_of m a'.
Proof.
  revert a m. induction l as [|x l IH]; intros a m; simpl.
  - rewrite decide_False by lia. done.
  - rewrite IH, byte_of_set. destruct (decide (a' = a)) as [->|Hne].
    + rewrite decide_False, (decide_True (P := a ≤ a < _)) by lia. by rewrite Z.sub_diag.
    + repeat case_decide; first [lia|done|idtac].
      by replace (Z.to_nat (a' - a)) with (S (Z.to_nat (a' - (a + 1)))) by lia.
Qed.
Definition set_mm (m : mm) (s : kernel) : kernel := s <| k_mm := m |>.
Lemma st8_k_run a b s : zoom k_mm (st8 a b) s = Ok tt (set_mm (set_byte a b (k_mm s)) s).
Proof. done. Qed.
Lemma user_to_pipe_run l page size buf s rest :
  user_has s buf (l ++ rest) →
  user_to_pipe (length l) page size buf s = Ok tt (set_mm (mem_write l (page + size) (k_mm s)) s).
Proof.
  revert size buf s. induction l as [|x l IH]; intros size buf s Hu; simpl in *.
  - unfold set_mm. by destruct s.
  - rewrite (bind_Ok _ _ _ _ _ (get_fs_byte_run _ _ _ _ Hu)). apply user_has_cons in Hu as [_ Hu].
    rewrite (bind_Ok _ _ _ _ _ (st8_k_run _ _ s)), IH by done.
    unfold set_mm. simpl. by replace (page + (size + 1)) with (page + size + 1) by lia.
Qed.

(** ** The contents of a pipe *)

Record pipe_ok (x : m_inode) : Prop := {
  pipe_zones : (2 ≤ length (i_zone x))%nat;
  pipe_head : 0 ≤ PIPE_HEAD x < PAGE_SIZE;
  pipe_tail : 0 ≤ PIPE_TAIL x < PAGE_SIZE
}.
(** The bytes in the ring, from the tail to the head. *)
Definition pipe_bytes (m : mm) (x : m_inode) : list Z :=
  (λ k, byte_of m (i_size x + (PIPE_TAIL x + Z.of_nat k) mod 4096)) <$> seq 0 (Z.to_nat (PIPE_SIZE x)).
(** The pipe of inode [i] holds the bytes [q]. *)
Definition pipe_holds (s : kernel) (i : nat) (x : m_inode) (q : list Z) : Prop :=
  inode_table (k_fs s) !! i = Some x ∧ pipe_ok x ∧ pipe_bytes (k_mm s) x = q.

Lemma land_4095 a : Z.land a 4095 = a mod 4096.
Proof. change 4095 with (Z.ones 12). by rewrite Z.land_ones. Qed.
Lemma PIPE_SIZE_mod x : PIPE_SIZE x = (PIPE_HEAD x - PIPE_TAIL x) mod 4096.
Proof. apply land_4095. Qed.
Lemma PIPE_SIZE_bound x : 0 ≤ PIPE_SIZE x < 4096.
Proof. rewrite PIPE_SIZE_mod. apply Z.mod_pos_bound. lia. Qed.
Lemma length_pipe_bytes m x : Z.of_nat (length (pipe_bytes m x)) = PIPE_SIZE x.
Proof. unfold pipe_bytes. rewrite length_fmap, length_seq. pose proof (PIPE_SIZE_bound x). lia. Qed.

Lemma zone_set_eq k v x :
  (k < length (i_zone x))%nat → 0 ≤ v < 65536 → zone (set_zone k v x) k = v.
Proof. intros Hk Hv. unfold zone, set_zone. simpl. rewrite list_lookup_insert_eq, u16_small by done. done. Qed.
Lemma zone_set_ne k j v x : k ≠ j → zone (set_zone k v x) j = zone x j.
Proof. intros Hk. unfold zone, set_zone. simpl. by rewrite list_lookup_insert_ne. Qed.
Lemma mod_4096_cases a : 0 ≤ a ≤ 4096 → a mod 4096 = if a =? 4096 then 0 else a.
Proof.
  intros Ha. destruct (Z.eqb_spec a 4096) as [->|]; [done|]. apply Z.mod_small. lia.
Qed.

(** Taking [c] bytes at the tail. *)
Definition pipe_take (c : Z) (x : m_inode) : m_inode := set_zone 1 (Z.land (PIPE_TAIL x + c) 4095) x.
Lemma pipe_take_tail c x :
  pipe_ok x → 0 ≤ c → PIPE_TAIL x + c ≤ 4096 →
  PIPE_TAIL (pipe_take c x) = (PIPE_TAIL x + c) mod 4096 ∧ PIPE_HEAD (pipe_take c x) = PIPE_HEAD x.
Proof.
  intros Hx Hc Ht. unfold pipe_take, PIPE_TAIL, PIPE_HEAD. rewrite land_4095.
  pose proof (Z.mod_pos_bound (zone x 1 + c) 4096 ltac:(lia)).
  rewrite zone_set_eq, zone_set_ne; [done|done|apply (pipe_zones _ Hx)|lia].
Qed.
Lemma pipe_take_correct m c x :
  pipe_ok x → 0 ≤ c ≤ PIPE_SIZE x → PIPE_TAIL x + c ≤ 4096 →
  pipe_ok (pipe_take c x) ∧ pipe_bytes m (pipe_take c x) = drop (Z.to_nat c) (pipe_bytes m x) ∧
  (λ k, byte_of m (i_size x + PIPE_TAIL x + Z.of_nat k)) <$> seq 0 (Z.to_nat c) = take (Z.to_nat c) (pipe_bytes m x).
Proof.
  intros Hx Hc Ht. destruct (pipe_take_tail c x Hx ltac:(lia) Ht) as [Htail Hhead].
  pose proof (pipe_head _ Hx) as Hh. pose proof (pipe_tail _ Hx) as Htl. unfold PAGE_SIZE in Hh, Htl.
  pose proof (PIPE_SIZE_bound x) as Hb.
  assert (Hsize : PIPE_SIZE (pipe_take c x) = PIPE_SIZE x - c).
  { rewrite PIPE_SIZE_mod, Hhead, Htail, Zminus_mod_idemp_r.
    replace (PIPE_HEAD x - (PIPE_TAIL x + c)) with (PIPE_HEAD x - PIPE_TAIL x - c) by lia.
    rewrite <-Zminus_mod_idemp_l, <-PIPE_SIZE_mod. apply Z.mod_small. lia. }
  split; [|split].
  - split; [unfold pipe_take, set_zone; simpl; rewrite length_insert; apply (pipe_zones _ Hx)| |].
    + rewrite Hhead. done.
    + rewrite Htail. apply Z.mod_pos_bound. done.
  - unfold pipe_bytes. rewrite Hsize, Htail, <-fmap_drop, drop_seq, Z2Nat.inj_sub by lia.
    replace (0 + Z.to_nat c)%nat with (Z.to_nat c + 0)%nat by lia.
    rewrite <-fmap_add_seq, <-list_fmap_compose. apply list_fmap_ext. intros j y _. simpl.
    do 2 f_equal. rewrite Zplus_mod_idemp_l. f_equal. lia.
  - unfold pipe_bytes. rewrite <-fmap_take, take_seq, Nat.min_l by lia.
    apply list_fmap_ext. intros j k Hk. apply lookup_seq in Hk as [-> Hk]. simpl.
    rewrite Z.mod_small by lia. f_equal. lia.
Qed.

(** Adding [c] bytes at the head. *)
Definition pipe_put (c : Z) (x : m_inode) : m_inode := set_zone 0 (Z.land (PIPE_HEAD x + c) 4095) x.
Lemma pipe_put_head c x :
  pipe_ok x → 0 ≤ c → PIPE_HEAD x + c ≤ 4096 →
  PIPE_HEAD (pipe_put c x) = (PIPE_HEAD x + c) mod 4096 ∧ PIPE_TAIL (pipe_put c x) = PIPE_TAIL x.
Proof.
  intros Hx Hc Ht. unfold pipe_put, PIPE_TAIL, PIPE_HEAD. rewrite land_4095.
  pose proof (Z.mod_pos_bound (zone x 0 + c) 4096 ltac:(lia)). pose proof (pipe_zones _ Hx).
  rewrite zone_set_eq, zone_set_ne; [done|done|lia|lia].
Qed.
(** The index of the [k]-th byte behind the tail. *)
Lemma pipe_head_index x : pipe_ok x → (PIPE_TAIL x + PIPE_SIZE x) mod 4096 = PIPE_HEAD x.
Proof.
  intros [_ Hh Ht]. unfold PAGE_SIZE in *. rewrite PIPE_SIZE_mod, Zplus_mod_idemp_r.
  replace (PIPE_TAIL x + (PIPE_HEAD x - PIPE_TAIL x)) with (PIPE_HEAD x) by lia. by apply Z.mod_small.
Qed.
Lemma ring_index_head x j :
  pipe_ok x → 0 ≤ j → PIPE_HEAD x + j < 4096 → (PIPE_TAIL x + (PIPE_SIZE x + j)) mod 4096 = PIPE_HEAD x + j.
Proof.
  intros Hx Hj Hl. rewrite Z.add_assoc, <-Zplus_mod_idemp_l, pipe_head_index by done.
  pose proof (pipe_head _ Hx). apply Z.mod_small. lia.
Qed.
Lemma ring_index_inj x j k :
  0 ≤ j < 4096 → 0 ≤ k < 4096 → (PIPE_TAIL x + j) mod 4096 = (PIPE_TAIL x + k) mod 4096 → j = k.
Proof.
  intros Hj Hk He. assert (Hz : (j - k) mod 4096 = 0).
  { replace (j - k) with (PIPE_TAIL x + j - (PIPE_TAIL x + k)) by lia. rewrite Zminus_mod, He, Z.sub_diag. done. }
  apply Z.mod_divide in Hz as [d Hd]; lia.
Qed.
Lemma pipe_put_correct m c l x :
  pipe_ok x → Z.of_nat (length l) = c → PIPE_SIZE x + c ≤ 4095 → PIPE_HEAD x + c ≤ 4096 →
  Forall (λ b, 0 ≤ b < 256) l →
  pipe_ok (pipe_put c x) ∧
  pipe_bytes (mem_write l (i_size x + PIPE_HEAD x) m) (pipe_put c x) = pipe_bytes m x ++ l.
Proof.
  intros Hx Hc Hs Hh Hl. destruct (pipe_put_head c x Hx ltac:(lia) Hh) as [Hhead Htail].
  pose proof (PIPE_SIZE_bound x) as Hb. pose proof (pipe_head _ Hx) as Hhb. unfold PAGE_SIZE in Hhb.
  assert (Hsize : PIPE_SIZE (pipe_put c x) = PIPE_SIZE x + c).
  { rewrite PIPE_SIZE_mod, Hhead, Htail, Zminus_mod_idemp_l.
    replace (PIPE_HEAD x + c - PIPE_TAIL x) with (PIPE_HEAD x - PIPE_TAIL x + c) by lia.
    rewrite <-Zplus_mod_idemp_l, <-PIPE_SIZE_mod. apply Z.mod_small. lia. }
  split.
  - split; [unfold pipe_put, set_zone; simpl; rewrite length_insert; apply (pipe_zones _ Hx)| |].
    + rewrite Hhead. apply Z.mod_pos_bound. done.
    + rewrite Htail. apply (pipe_tail _ Hx).
  - apply list_eq. intros k. unfold pipe_bytes. rewrite Hsize, Htail.
    set (f := λ k, _). set (g := λ k, byte_of m _).
    assert (Hg : length (g <$> seq 0 (Z.to_nat (PIPE_SIZE x))) = Z.to_nat (PIPE_SIZE x)) by by rewrite length_fmap, length_seq.
    destruct (decide (k < Z.to_nat (PIPE_SIZE x + c))%nat) as [Hk|Hk].
    2: { rewrite !lookup_ge_None_2; [done|rewrite length_app; lia|rewrite length_fmap, length_seq; lia]. }
    rewrite list_lookup_fmap, lookup_seq_lt by lia. simpl. unfold f. rewrite byte_of_mem_write.
    change (i_size (pipe_put c x)) with (i_size x).
    destruct (decide (k < Z.to_nat (PIPE_SIZE x))%nat) as [Hold|Hnew].
    + rewrite lookup_app_l, list_lookup_fmap, lookup_seq_lt by lia. simpl. unfold g.
      rewrite decide_False; [done|]. intros Hin.
      set (r := (PIPE_TAIL x + Z.of_nat k) mod 4096) in *.
      assert (Hr : r = (PIPE_TAIL x + (PIPE_SIZE x + (r - PIPE_HEAD x))) mod 4096) by (rewrite ring_index_head; lia || done).
      apply ring_index_inj in Hr; lia.
    + rewrite lookup_app_r, Hg by lia.
      replace (Z.of_nat k) with (PIPE_SIZE x + (Z.of_nat k - PIPE_SIZE x)) by lia.
      rewrite ring_index_head by (done || lia). rewrite decide_True by lia.
      replace (Z.to_nat (_ - _)) with (k - Z.to_nat (PIPE_SIZE x))%nat by lia.
      destruct (lookup_lt_is_Some_2 l (k - Z.to_nat (PIPE_SIZE x))) as [b Hbk]; [lia|].
      rewrite Hbk. simpl. f_equal. apply u8_small. by apply (Forall_lookup_1 _ _ _ _ Hl Hbk).
Qed.

(** ** Reading and writing *)

(** Nobody waits for the pipe, or a task that exists. *)
Definition waiter_ok (s : kernel) (x : m_inode) : Prop :=
  i_wait x = 0 ∨ is_Some (tasks (k_sched s) !! i_wait x).

Lemma user_has_bytes s p l rest : user_has s p (l ++ rest) → Forall (λ b, 0 ≤ b < 256) l.
Proof.
  intros [Hl _]%user_has_app. apply Forall_lookup. intros k b Hk. by apply (Hl k b).
Qed.

(** The task that waits for the pipe is runnable. *)
Definition awake (x : m_inode) (s : kernel) : Prop :=
  i_wait x ≠ 0 → ∃ t, tasks (k_sched s) !! i_wait x = Some t ∧ state t = TASK_RUNNING.

(** What wake_up of the pipe does and leaves alone. *)
Definition same_but_awake (i : nat) (x : m_inode) (s s' : kernel) : Prop :=
  k_mm s' = k_mm s ∧ k_user s' = k_user s ∧
  inode_table (k_fs s') !! i = Some (x <| i_wait := 0 |>) ∧
  current (k_sched s') = current (k_sched s) ∧ awake x s' ∧
  ∀ t, cur_is s t → ∃ t', cur_is s' t' ∧ signal t' = signal t.

Lemma wake_up_pipe s i x :
  inode_table (k_fs s) !! i = Some x → waiter_ok s x →
  ∃ s', wake_up (i_wait_of i) s = Ok tt s' ∧ same_but_awake i x s s'.
Proof.
  intros Hx Hw. unfold wake_up, gets. mred. simpl. rewrite Hx. simpl.
  destruct (truth (i_wait x)) eqn:Hz.
  - destruct Hw as [H0|[t Ht]]; [by rewrite H0 in Hz|]. unfold zoom, make_runnable. rewrite Hz.
    unfold when. rewrite (upd_task_run _ _ _ _ Ht). unfold modify.
    eexists. split; [done|]. unfold same_but_awake. simpl.
    split; [done|]. split; [done|]. split.
    { rewrite list_lookup_alter_eq, Hx. done. }
    split; [done|]. split.
    { intros _. simpl. rewrite lookup_insert_eq. by eexists. }
    intros t0 Ht0. unfold cur_is in *. simpl.
    destruct (decide (current (k_sched s) = i_wait x)) as [Hc|].
    + rewrite Hc, lookup_insert_eq. eexists. split; [done|]. simpl. congruence.
    + rewrite lookup_insert_ne by done. by eexists.
  - apply truth_false in Hz. exists s. split; [done|]. unfold same_but_awake.
    split; [done|]. split; [done|].
    split; [rewrite Hx; f_equal; destruct x; simpl in *; by subst|].
    split; [done|]. split; [by intros Hn|]. intros t Ht. by exists t.
Qed.

Definition set_inode (i : nat) (x : m_inode) (s : kernel) : kernel :=
  s <| k_fs ::= λ d, d <| inode_table ::= <[i := x]> |> |>.
Lemma lookup_set_inode i x y s :
  inode_table (k_fs s) !! i = Some y → inode_table (k_fs (set_inode i x s)) !! i = Some x.
Proof. intros H. apply list_lookup_insert_eq. by eapply lookup_lt_Some. Qed.

Lemma pipe_wait_ready {E : Env} s i x (size : m_inode → Z) :
  inode_table (k_fs s) !! i = Some x → (0 < patience)%nat → size x ≠ 0 →
  pipe_wait patience i size s = Ok (Some (size x)) s.
Proof.
  intros Hx Hp Hs. destruct patience as [|n]; [lia|]. simpl.
  rewrite (bind_Ok _ _ _ _ _ (inode_at_run s i x Hx)). by rewrite (proj2 (truth_true _)).
Qed.
Lemma pipe_wait_closed {E : Env} s i x (size : m_inode → Z) :
  inode_table (k_fs s) !! i = Some x → (0 < patience)%nat → size x = 0 → waiter_ok s x → i_count x ≠ 2 →
  ∃ s', pipe_wait patience i size s = Ok None s' ∧ same_but_awake i x s s'.
Proof.
  intros Hx Hp Hs Hw Hc. destruct patience as [|n]; [lia|]. simpl.
  rewrite (bind_Ok _ _ _ _ _ (inode_at_run s i x Hx)), Hs.
  destruct (wake_up_pipe s i x Hx Hw) as (s1 & Hrun & Hsame).
  simpl. rewrite (bind_Ok _ _ _ _ _ Hrun).
  rewrite (bind_Ok _ _ _ _ _ (inode_at_run s1 i _ (proj1 (proj2 (proj2 Hsame))))). simpl.
  destruct (Z.eqb_spec (i_count x) 2); [done|]. by exists s1.
Qed.

Lemma user_write_app l k p m : user_write (l ++ k) p m = user_write k (p + Z.of_nat (length l)) (user_write l p m).
Proof.
  revert p m. induction l as [|x l IH]; intros p m; simpl; [by rewrite Z.add_0_r|].
  rewrite IH. f_equal. lia.
Qed.
Lemma pipe_bytes_wait m x v : pipe_bytes m (x <| i_wait := v |>) = pipe_bytes m x.
Proof. done. Qed.
Lemma pipe_ok_wait x v : pipe_ok x → pipe_ok (x <| i_wait := v |>).
Proof. by intros [? ? ?]. Qed.

(** The wake-up at the end of a transfer of nothing. *)
Lemma pipe_done s i x q (r : Z) :
  pipe_holds s i x q → waiter_ok s x →
  ∃ s', (wake_up (i_wait_of i) ;; mret r : M kernel Z) s = Ok r s' ∧ same_but_awake i x s s' ∧
    pipe_holds s' i (x <| i_wait := 0 |>) q.
Proof.
  intros (Hx & Hok & Hq) Hw. destruct (wake_up_pipe s i x Hx Hw) as (s' & Hrun & Hs).
  exists s'. rewrite (bind_Ok _ _ _ _ _ Hrun). split; [done|]. split; [done|].
  destruct Hs as (Hmm & _ & Hx' & _). split; [done|]. split; [by apply pipe_ok_wait|].
  by rewrite Hmm, pipe_bytes_wait.
Qed.

Section Loops.
Context {E : Env} (Hpat : (0 < patience)%nat).

(** One round of read_pipe: a run of bytes up to the end of the page. *)
Lemma read_pipe_round fuel i x q buf count read s :
  pipe_holds s i x q → q ≠ [] → 0 < count →
  ∃ c s1, 0 < c ≤ count ∧ c ≤ Z.of_nat (length q) ∧
    read_pipe_loop (S fuel) i buf count read s = read_pipe_loop fuel i (buf + c) (count - c) (read + c) s1 ∧
    pipe_holds s1 i (pipe_take c x) (drop (Z.to_nat c) q) ∧ k_sched s1 = k_sched s ∧ k_mm s1 = k_mm s ∧
    k_user s1 = user_write (take (Z.to_nat c) q) buf (k_user s).
Proof.
  intros (Hx & Hok & Hq) Hne Hpos.
  pose proof (length_pipe_bytes (k_mm s) x) as Hlen. rewrite Hq in Hlen.
  assert (Hq0 : (0 < length q)%nat) by (destruct q; [done|simpl; lia]).
  simpl. destruct (Z.leb_spec count 0); [lia|].
  rewrite (bind_Ok _ _ _ _ _ (pipe_wait_ready s i x PIPE_SIZE Hx Hpat ltac:(lia))). cbv beta iota.
  rewrite (bind_Ok _ _ _ _ _ (inode_at_run s i x Hx)).
  set (c := min3 (PAGE_SIZE - PIPE_TAIL x) count (PIPE_SIZE x)).
  pose proof (pipe_tail _ Hok) as Ht. unfold PAGE_SIZE in Ht.
  assert (Hcb : 0 < c ∧ c ≤ count ∧ c ≤ PIPE_SIZE x ∧ PIPE_TAIL x + c ≤ 4096) by (unfold c, min3, PAGE_SIZE; lia).
  destruct (pipe_take_correct (k_mm s) c x Hok ltac:(lia) ltac:(lia)) as (Hok' & Hq' & Hchunk).
  rewrite (bind_Ok _ _ _ _ _ (upd_inode_run s i (set_zone 1 (Z.land (PIPE_TAIL x + c) 4095)) x Hx)).
  rewrite (bind_Ok _ _ _ _ _ (pipe_to_user_run _ _ _ _ _)).
  change (k_mm (s <| k_fs ::= _ |>)) with (k_mm s). rewrite Hchunk, Hq.
  eexists c, _. split; [lia|]. split; [lia|]. split; [reflexivity|]. split; [|done].
  split; [by apply (lookup_set_inode i (pipe_take c x) x s)|]. split; [done|].
  change (pipe_bytes (k_mm s) (pipe_take c x) = drop (Z.to_nat c) q). by rewrite Hq', Hq.
Qed.

Lemma read_pipe_loop_run fuel i x q buf count read s :
  pipe_holds s i x q → waiter_ok s x → 0 ≤ count ≤ Z.of_nat fuel →
  (count ≤ Z.of_nat (length q) ∨ i_count x ≠ 2) →
  ∃ s' x', let n := Z.min count (Z.of_nat (length q)) in
    read_pipe_loop fuel i buf count read s = Ok (read + n) s' ∧
    pipe_holds s' i x' (drop (Z.to_nat n) q) ∧ k_mm s' = k_mm s ∧
    k_user s' = user_write (take (Z.to_nat n) q) buf (k_user s) ∧ i_count x' = i_count x ∧
    i_wait x' = 0 ∧ awake x s'.
Proof.
  revert x q buf count read s.
  induction fuel as [|fuel IH]; intros x q buf count read s Hh Hw Hc Hend;
    (assert (Hz : count = 0 ∨ 0 < count) by lia; destruct Hz as [->|Hpos]; [|try lia]).
  1,2: destruct (pipe_done s i x q read Hh Hw) as (s' & Hrun & Hsame & Hh');
    exists s', (x <| i_wait := 0 |>); simpl; rewrite Hrun, Z.min_l, Z.add_0_r by lia;
    destruct Hsame as (Hmm & Hu & _ & _ & Ha & _); by rewrite drop_0.
  destruct (decide (q = [])) as [->|Hne].
  - destruct Hh as (Hx & Hok & Hq). pose proof (length_pipe_bytes (k_mm s) x) as Hlen. rewrite Hq in Hlen.
    simpl in *. destruct (Z.leb_spec count 0); [lia|].
    destruct (pipe_wait_closed s i x PIPE_SIZE Hx Hpat) as (s' & Hrun & Hmm & Hu & Hx' & _ & Ha & _); [done|done|lia|].
    exists s', (x <| i_wait := 0 |>). rewrite (bind_Ok _ _ _ _ _ Hrun), Z.min_r, Z.add_0_r by lia.
    split; [done|]. split; [|by split_and!]. split; [done|]. split; [by apply pipe_ok_wait|].
    by rewrite Hmm, pipe_bytes_wait.
  - destruct (read_pipe_round fuel i x q buf count read s Hh Hne Hpos) as (c & s1 & Hc1 & Hc2 & -> & Hh1 & Hsc & Hmm1 & Hu1).
    destruct (IH (pipe_take c x) (drop (Z.to_nat c) q) (buf + c) (count - c) (read + c) s1) as (s' & x' & Hrun & Hh' & Hmm & Hu & Hi & Ha);
      [done|by unfold waiter_ok in *; rewrite Hsc|lia|rewrite length_drop; destruct Hend; [left; lia|by right]|].
    exists s', x'. rewrite length_drop in *.
    set (n := Z.min (count - c) _) in *. replace (Z.min count (Z.of_nat (length q))) with (c + n) by lia.
    rewrite Hrun. split; [f_equal; lia|]. split.
    { by rewrite drop_drop, Z2Nat.inj_add in * by lia. }
    split; [congruence|]. split; [|done]. rewrite Hu, Hu1, Z2Nat.inj_add, <-take_take_drop, user_write_app, length_take by lia.
    f_equal. lia.
Qed.

(** The result of a write that moved [n] of [count] bytes: short writes are
    those to a pipe nobody reads. *)
Definition write_result (count written n : Z) : Z :=
  if count =? n then written + n else if written + n =? 0 then -1 else written + n.
Definition write_signal (count n : Z) (g : Z) : Z := if count =? n then g else Z.lor g (_S SIGPIPE).

Lemma write_pipe_closed s i x q count written t fuel buf :
  pipe_holds s i x q → waiter_ok s x → 0 < count → PIPE_SIZE x = 4095 → i_count x ≠ 2 → cur_is s t →
  ∃ s' t', write_pipe_loop (S fuel) i buf count written s = Ok (write_result count written 0) s' ∧
    pipe_holds s' i (x <| i_wait := 0 |>) q ∧ k_user s' = k_user s ∧
    cur_is s' t' ∧ signal t' = write_signal count 0 (signal t) ∧ awake x s'.
Proof.
  intros (Hx & Hok & Hq) Hw Hc Hs Hcl Ht. simpl. destruct (Z.leb_spec count 0); [lia|].
  destruct (pipe_wait_closed s i x (λ x, PAGE_SIZE - 1 - PIPE_SIZE x) Hx Hpat) as (s1 & Hrun & Hsame);
    [unfold PAGE_SIZE; lia|done|done|].
  destruct Hsame as (Hmm & Hu & Hx' & _ & Ha & Hcur). destruct (Hcur t Ht) as (t1 & Ht1 & Hsig).
  rewrite (bind_Ok _ _ _ _ _ Hrun). run_me.
  eexists _, _. split.
  { unfold mret, M_ret, write_result. rewrite Z.add_0_r. destruct (Z.eqb_spec count 0); [lia|].
    unfold truth. by destruct (written =? 0). }
  split.
  { split; [done|]. split; [by apply pipe_ok_wait|]. simpl. by rewrite Hmm, pipe_bytes_wait. }
  split; [done|]. split; [apply cur_is_set_me|]. split.
  { simpl. rewrite Hsig. unfold write_signal. destruct (Z.eqb_spec count 0); [lia|done]. }
  intros Hn. destruct (Ha Hn) as (w & Hw1 & Hw2). unfold set_me. simpl.
  destruct (decide (i_wait x = current (k_sched s1))) as [Heq|Hne].
  - rewrite Heq, lookup_insert_eq. eexists. split; [done|]. simpl. unfold cur_is in Ht1. congruence.
  - rewrite lookup_insert_ne by done. by exists w.
Qed.

(** One round of write_pipe. *)
Lemma write_pipe_round fuel i x q buf l rest written s :
  pipe_holds s i x q → PIPE_SIZE x ≠ 4095 → user_has s buf (l ++ rest) → let count := Z.of_nat (length l) in 0 < count →
  ∃ c s1, 0 < c ≤ count ∧ c ≤ 4095 - Z.of_nat (length q) ∧
    write_pipe_loop (S fuel) i buf count written s = write_pipe_loop fuel i (buf + c) (count - c) (written + c) s1 ∧
    pipe_holds s1 i (pipe_put c x) (q ++ take (Z.to_nat c) l) ∧ k_sched s1 = k_sched s ∧ k_user s1 = k_user s.
Proof.
  intros (Hx & Hok & Hq) Hroom Hul count Hpos. pose proof (PIPE_SIZE_bound x) as Hb.
  pose proof (length_pipe_bytes (k_mm s) x) as Hlen. rewrite Hq in Hlen.
  simpl. destruct (Z.leb_spec count 0); [lia|].
  rewrite (bind_Ok _ _ _ _ _ (pipe_wait_ready s i x (λ x, PAGE_SIZE - 1 - PIPE_SIZE x) Hx Hpat ltac:(unfold PAGE_SIZE; lia))).
  cbv beta iota. rewrite (bind_Ok _ _ _ _ _ (inode_at_run s i x Hx)).
  set (c := min3 (PAGE_SIZE - PIPE_HEAD x) count (PAGE_SIZE - 1 - PIPE_SIZE x)).
  pose proof (pipe_head _ Hok) as Hhb. unfold PAGE_SIZE in Hhb.
  assert (Hcb : 0 < c ∧ c ≤ count ∧ PIPE_SIZE x + c ≤ 4095 ∧ PIPE_HEAD x + c ≤ 4096) by (unfold c, min3, PAGE_SIZE; lia).
  rewrite <-(take_drop (Z.to_nat c) l), <-app_assoc in Hul. set (l1 := take (Z.to_nat c) l) in *.
  assert (Hl1 : Z.of_nat (length l1) = c) by (unfold l1; rewrite length_take; lia).
  destruct (pipe_put_correct (k_mm s) c l1 x Hok Hl1 ltac:(lia) ltac:(lia) (user_has_bytes _ _ _ _ Hul)) as [Hok' Hq'].
  rewrite (bind_Ok _ _ _ _ _ (upd_inode_run s i (set_zone 0 (Z.land (PIPE_HEAD x + c) 4095)) x Hx)).
  fold (pipe_put c x). fold (set_inode i (pipe_put c x) s). replace (Z.to_nat c) with (length l1) by lia.
  rewrite (bind_Ok _ _ _ _ _ (user_to_pipe_run l1 _ _ buf (set_inode i (pipe_put c x) s) _ Hul)).
  eexists c, _. split; [lia|]. split; [lia|]. split; [reflexivity|]. split; [|done].
  split; [by eapply lookup_set_inode|]. split; [done|]. by rewrite <-Hq.
Qed.

Lemma write_result_round count written c n :
  write_result (count - c) (written + c) n = write_result count written (c + n).
Proof.
  unfold write_result. replace (written + c + n) with (written + (c + n)) by lia.
  by destruct (Z.eqb_spec (count - c) n), (Z.eqb_spec count (c + n)); try lia.
Qed.
Lemma write_signal_round count c n g : write_signal (count - c) n g = write_signal count (c + n) g.
Proof. unfold write_signal. by destruct (Z.eqb_spec (count - c) n), (Z.eqb_spec count (c + n)); try lia. Qed.

Lemma write_pipe_loop_run fuel i x q buf l rest written s t :
  pipe_holds s i x q → waiter_ok s x → user_has s buf (l ++ rest) → cur_is s t →
  (length l ≤ fuel)%nat → 0 ≤ written → let count := Z.of_nat (length l) in
  (count ≤ 4095 - Z.of_nat (length q) ∨ i_count x ≠ 2) →
  ∃ s' x' t', let n := Z.min count (4095 - Z.of_nat (length q)) in
    write_pipe_loop fuel i buf count written s = Ok (write_result count written n) s' ∧
    pipe_holds s' i x' (q ++ take (Z.to_nat n) l) ∧
    k_user s' = k_user s ∧ i_count x' = i_count x ∧
    cur_is s' t' ∧ signal t' = write_signal count n (signal t) ∧ i_wait x' = 0 ∧ awake x s'.
Proof.
  revert x q buf l written s t.
  induction fuel as [|fuel IH]; intros x q buf l written s t Hh Hw Hul Ht Hf Hwr count Hend;
    (assert (Hz : count = 0 ∨ 0 < count) by lia; destruct Hz as [Hz|Hpos]; [|try lia]).
  all: pose proof Hh as (_ & _ & Hq); pose proof (length_pipe_bytes (k_mm s) x) as Hlen; rewrite Hq in Hlen;
    pose proof (PIPE_SIZE_bound x) as Hb.
  1,2: destruct (pipe_done s i x q written Hh Hw) as (s' & Hrun & Hsame & Hh');
    destruct Hsame as (Hmm & Hu & _ & _ & Ha & Hcur); destruct (Hcur t Ht) as (t' & Ht' & Hs');
    exists s', (x <| i_wait := 0 |>), t'; simpl; rewrite Hz; simpl; rewrite Hrun, Z.min_l by lia;
    unfold write_result, write_signal; simpl; rewrite ?Z.add_0_r, ?take_0, ?app_nil_r; by split_and!.
  destruct (decide (PIPE_SIZE x = 4095)) as [Hfull|Hroom].
  - destruct (write_pipe_closed s i x q count written t fuel buf) as (s' & t' & Hrun & Hh' & Hu & Ht' & Hs' & Ha);
      [done..|destruct Hend; [lia|done]|done|].
    exists s', (x <| i_wait := 0 |>), t'. cbv zeta. rewrite Z.min_r by lia.
    replace (4095 - Z.of_nat (length q)) with 0 by lia. change (Z.to_nat 0) with 0%nat. rewrite take_0, app_nil_r. by split_and!.
  - destruct (write_pipe_round fuel i x q buf l rest written s Hh Hroom Hul Hpos) as (c & s1 & Hc1 & Hc2 & Hstep & Hh1 & Hsc & Hu1).
    fold count in Hstep, Hc1. rewrite Hstep. rewrite <-(take_drop (Z.to_nat c) l), <-app_assoc in Hul. apply user_has_app in Hul as [_ Hul].
    set (l2 := drop (Z.to_nat c) l) in *. assert (Hl1 : Z.of_nat (length (take (Z.to_nat c) l)) = c) by (rewrite length_take; lia).
    assert (Hl2 : Z.of_nat (length l2) = count - c) by (unfold l2; rewrite length_drop; lia). rewrite Hl1 in Hul.
    destruct (IH (pipe_put c x) (q ++ take (Z.to_nat c) l) (buf + c) l2 (written + c) s1 t) as (s' & x' & t' & Hrun & Hh' & Hu & Hi & Ht' & Hsg & Hi0 & Ha);
      [done|by unfold waiter_ok in *; rewrite Hsc|by unfold user_has in *; rewrite Hu1|by unfold cur_is in *; rewrite Hsc|lia|lia|
       rewrite length_app; destruct Hend; [left; lia|by right]|].
    exists s', x', t'. rewrite length_app in *. rewrite Hl2 in *.
    set (n := Z.min (count - c) _) in *. replace (Z.min count (4095 - Z.of_nat (length q))) with (c + n) by lia.
    cbv zeta. rewrite Hrun, write_result_round, <-write_signal_round. split; [done|].
    split; [|split_and!; [congruence|done..]]. rewrite <-app_assoc in Hh'. unfold l2 in Hh'.
    by rewrite take_take_drop, <-Z2Nat.inj_add in Hh' by lia.
Qed.
End Loops.

(** ** The pipe as a queue *)

(** C7: read_pipe takes bytes from the front of the queue.  When the queue
    holds [count] bytes or nobody can write any more, the call returns without
    waiting; it has copied min(count, length) bytes, in order, to the user's
    buffer and removed exactly those from the queue.  The kernel's memory (the
    page of the pipe) and the inode's count are unchanged; the task that was
    waiting for the pipe is runnable and no longer in its wait queue. *)
Theorem read_pipe_correct {E : Env} (s : kernel) (i : nat) (x : m_inode) (q : list Z) (buf count : Z)
    (Hpat : (0 < patience)%nat) (Hq : pipe_holds s i x q) (Hw : waiter_ok s x) (Hc : 0 ≤ count)
    (Hend : count ≤ Z.of_nat (length q) ∨ i_count x ≠ 2) :
  ∃ s' x', let n := Z.min count (Z.of_nat (length q)) in
    read_pipe i buf count s = Ok n s' ∧
    pipe_holds s' i x' (drop (Z.to_nat n) q) ∧ k_mm s' = k_mm s ∧
    k_user s' = user_write (take (Z.to_nat n) q) buf (k_user s) ∧ i_count x' = i_count x ∧
    i_wait x' = 0 ∧ awake x s'.
Proof. apply (read_pipe_loop_run Hpat (Z.to_nat count) i x q buf count 0 s Hq Hw); [lia|done]. Qed.

(** C8: write_pipe appends to the queue, whose capacity is 4095 bytes.  When
    there is room for all bytes, or nobody reads any more, the call returns
    without waiting; it has appended the first min(count, room) bytes of the
    user's buffer.  Bytes that fit are all accepted without a signal, even if
    nobody reads.  A short write, to a pipe that is full and not read, posts
    SIGPIPE to the caller and, if no byte was written, returns -1.  The task
    that was waiting for the pipe is runnable and no longer in its wait queue. *)
Theorem write_pipe_correct {E : Env} (s : kernel) (i : nat) (x : m_inode) (q : list Z) (buf : Z)
    (l rest : list Z) (t : task_struct)
    (Hpat : (0 < patience)%nat) (Hq : pipe_holds s i x q) (Hw : waiter_ok s x)
    (Hl : user_has s buf (l ++ rest)) (Ht : cur_is s t)
    (Hend : Z.of_nat (length l) ≤ 4095 - Z.of_nat (length q) ∨ i_count x ≠ 2) :
  ∃ s' x' t', let count := Z.of_nat (length l) in
    let n := Z.min count (4095 - Z.of_nat (length q)) in
    write_pipe i buf count s = Ok (if count =? n then n else if n =? 0 then -1 else n) s' ∧
    pipe_holds s' i x' (q ++ take (Z.to_nat n) l) ∧
    k_user s' = k_user s ∧ i_count x' = i_count x ∧
    cur_is s' t' ∧ signal t' = (if count =? n then signal t else Z.lor (signal t) (_S SIGPIPE)) ∧
    i_wait x' = 0 ∧ awake x s'.
Proof.
  unfold write_pipe. rewrite Nat2Z.id.
  apply (write_pipe_loop_run Hpat (length l) i x q buf l rest 0 s t Hq Hw Hl Ht); [lia|lia|done].
Qed.
