(* ===== verification/Tty.v ===== *)
(** * kernel/chr_drv: tty_io.c and tty_ioctl.c, and fs/char_dev.c

    The terminals' queues, the line discipline that turns raw input into
    cooked lines, reading and writing, and the character-device switch. *)

From stdpp Require Import base option list gmap strings.
From Stdlib Require Import ZArith.
From S2P Require Import Prelude Types Memory Sched Kernel FileDev.
Local Open Scope Z_scope.

(** ** termios.h: the flags the code tests *)
Definition ICRNL : Z := 0x100.
Definition INLCR : Z := 0x40.
Definition IGNCR : Z := 0x80.
Definition IUCLC : Z := 0x200.
Definition OPOST : Z := 1.
Definition OLCUC : Z := 2.
Definition ONLCR : Z := 4.
Definition OCRNL : Z := 8.
Definition ONLRET : Z := 0x20.
Definition ISIG : Z := 1.
Definition ICANON : Z := 2.
Definition ECHO : Z := 8.
Definition ECHOCTL : Z := 0x200.
Definition ECHOKE : Z := 0x800.
Definition CBAUD : Z := 15.
Definition B2400 : Z := 11.
Definition CS8 : Z := 0x30.
Definition VINTR : nat := 0.
Definition VQUIT : nat := 1.
Definition VERASE : nat := 2.
Definition VKILL : nat := 3.
Definition VEOF : nat := 4.
Definition VTIME : nat := 5.
Definition VMIN : nat := 6.
Definition VSTART : nat := 8.
Definition VSTOP : nat := 9.
Definition NCC : nat := 8.
Definition NCCS : nat := 17.

(** ** tty.h: the queues *)
Definition INC (a : Z) : Z := Z.land (a + 1) (TTY_BUF_SIZE - 1).
Definition DEC (a : Z) : Z := Z.land (a - 1) (TTY_BUF_SIZE - 1).
Definition EMPTY (q : tty_queue) : bool := q_head q =? q_tail q.
Definition LEFT (q : tty_queue) : Z := Z.land (q_tail q - q_head q - 1) (TTY_BUF_SIZE - 1).
Definition FULL (q : tty_queue) : bool := negb (truth (LEFT q)).
Definition CHARS (q : tty_queue) : Z := Z.land (q_head q - q_tail q) (TTY_BUF_SIZE - 1).
Definition q_char (q : tty_queue) (i : Z) : Z := default 0 (zlookup (q_buf q) i).
Definition LAST (q : tty_queue) : Z := q_char q (Z.land (TTY_BUF_SIZE - 1) (q_head q - 1)).
Definition GETCH (q : tty_queue) : Z * tty_queue := (q_char q (q_tail q), q <| q_tail ::= INC |>).
Definition PUTCH (c : Z) (q : tty_queue) : tty_queue :=
  q <| q_buf ::= zinsert (q_head q) (s8 c) |> <| q_head ::= INC |>.
Definition UNPUT (q : tty_queue) : tty_queue := q <| q_head ::= DEC |>.

Definition c_cc_at (t : tty_struct) (k : nat) : Z := default 0 (c_cc (termios t) !! k).
Definition INTR_CHAR (t : tty_struct) : Z := c_cc_at t VINTR.
Definition QUIT_CHAR (t : tty_struct) : Z := c_cc_at t VQUIT.
Definition ERASE_CHAR (t : tty_struct) : Z := c_cc_at t VERASE.
Definition KILL_CHAR (t : tty_struct) : Z := c_cc_at t VKILL.
Definition EOF_CHAR (t : tty_struct) : Z := c_cc_at t VEOF.
Definition START_CHAR (t : tty_struct) : Z := c_cc_at t VSTART.
Definition STOP_CHAR (t : tty_struct) : Z := c_cc_at t VSTOP.

Definition _L_FLAG (t : tty_struct) (f : Z) : bool := has (c_lflag (termios t)) f.
Definition _I_FLAG (t : tty_struct) (f : Z) : bool := has (c_iflag (termios t)) f.
Definition _O_FLAG (t : tty_struct) (f : Z) : bool := has (c_oflag (termios t)) f.

Definition INIT_C_CC : list Z := [3; 28; 127; 21; 4; 0; 1; 0; 17; 19; 26; 0; 18; 15; 23; 22; 0].
Definition empty_queue (data : Z) : tty_queue :=
  mk_tty_queue data 0 0 0 (replicate (Z.to_nat TTY_BUF_SIZE) 0).
Definition rs_tty (port : Z) : tty_struct := {|
  termios := mk_termios 0 0 (Z.lor B2400 CS8) 0 0 INIT_C_CC;
  t_pgrp := 0; t_stopped := 0; t_write := rs_write_fn;
  read_q := empty_queue port; write_q := empty_queue port; secondary := empty_queue 0
|}.
Definition init_tty_table : list tty_struct := [
  {| termios := mk_termios ICRNL (Z.lor OPOST ONLCR) 0
       (Z.lor ISIG (Z.lor ICANON (Z.lor ECHO (Z.lor ECHOCTL ECHOKE)))) 0 INIT_C_CC;
     t_pgrp := 0; t_stopped := 0; t_write := con_write_fn;
     read_q := empty_queue 0; write_q := empty_queue 0; secondary := empty_queue 0 |};
  rs_tty 0x3f8; rs_tty 0x2f8 ].

(** ctype.h on [char]: only letters change. *)
Definition isupper (c : Z) : bool := (65 <=? c) && (c <=? 90).
Definition islower (c : Z) : bool := (97 <=? c) && (c <=? 122).
Definition tolower (c : Z) : Z := if isupper c then c + 32 else c.
Definition toupper (c : Z) : Z := if islower c then c - 32 else c.

Definition putch_w (c : Z) (t : tty_struct) : tty_struct := t <| write_q ::= PUTCH c |>.

Definition secondary_wait (n : nat) : cell := {|
  rd s := default 0 ((q_proc_list ∘ secondary) <$> tty_table (k_tty s) !! n);
  wr v s := s <| k_tty ::= λ d, d <| tty_table ::=
    alter (λ t, t <| secondary ::= λ q, q <| q_proc_list := v |> |>) n |> |>
|}.
Definition write_wait (n : nat) : cell := {|
  rd s := default 0 ((q_proc_list ∘ write_q) <$> tty_table (k_tty s) !! n);
  wr v s := s <| k_tty ::= λ d, d <| tty_table ::=
    alter (λ t, t <| write_q ::= λ q, q <| q_proc_list := v |> |>) n |> |>
|}.

Section Tty.
Context {E : Env}.

(** [tty->write(tty)] *)
Definition tty_start (n : nat) : M kernel unit := t ← tty_at n; modify (tty_out (t_write t) n).

Definition tty_intr (n : nat) (mask : Z) : M kernel unit :=
  t ← tty_at n;
  if t_pgrp t <=? 0 then mret tt else
  zoom k_sched (for_each (seq 0 NR_TASKS) (λ i,
    p ← task_slot i;
    if p =? 0 then mret tt else
    x ← task_at p;
    when (pgrp x =? t_pgrp t) (upd_task p (λ x, x <| signal ::= λ g, Z.lor g mask |>)))).

(** [while (!current->signal && cond) interruptible_sleep_on(queue)] *)
Fixpoint sleep_while (fuel : nat) (cond : M kernel bool) (q : cell) : M kernel unit :=
  match fuel with
  | O => no_fuel
  | S fuel =>
      t ← me;
      b ← cond;
      if negb (truth (signal t)) && b then interruptible_sleep_on q ;; sleep_while fuel cond q
      else mret tt
  end.
Definition sleep_if_empty (n : nat) : M kernel unit :=
  sleep_while patience (t ← tty_at n; mret (EMPTY (secondary t))) (secondary_wait n).
Definition sleep_if_full (n : nat) : M kernel unit :=
  t ← tty_at n;
  if negb (FULL (write_q t)) then mret tt else
  sleep_while patience (t ← tty_at n; mret (LEFT (write_q t) <? 128)) (write_wait n).
Definition wait_for_keypress : M kernel unit := sleep_if_empty 0.

(** Echoing the erasure of [c]. *)
Definition echo_erase (n : nat) (c : Z) : M kernel unit :=
  t ← tty_at n;
  when (_L_FLAG t ECHO) (
    when (c <? 32) (upd_tty n (putch_w 127)) ;;
    upd_tty n (putch_w 127) ;;
    tty_start n).

(** Is there a character of the current line to erase, and which? *)
Definition erasable (t : tty_struct) : option Z :=
  if EMPTY (secondary t) then None else
  let c := LAST (secondary t) in
  if (c =? 10) || (c =? EOF_CHAR t) then None else Some c.

(** Killing the input line. *)
Fixpoint kill_line (fuel : nat) (n : nat) : M kernel unit :=
  match fuel with
  | O => no_fuel
  | S fuel =>
      t ← tty_at n;
      match erasable t with
      | None => mret tt
      | Some c =>
          echo_erase n c ;;
          upd_tty n (λ t, t <| secondary ::= UNPUT |>) ;;
          kill_line fuel n
      end
  end.

(** The translation of an input character; [None] drops it. *)
Definition input_char (t : tty_struct) (c : Z) : option Z :=
  let c := if c =? 13 then
             (if _I_FLAG t ICRNL then Some 10 else if _I_FLAG t IGNCR then None else Some c)
           else if (c =? 10) && _I_FLAG t INLCR then Some 13 else Some c in
  (λ c, if _I_FLAG t IUCLC then tolower c else c) <$> c.

(** The echo of an accepted character. *)
Definition echo (n : nat) (c : Z) : M kernel unit :=
  t ← tty_at n;
  when (_L_FLAG t ECHO) (
    (if c =? 10 then upd_tty n (putch_w 10) ;; upd_tty n (putch_w 13)
     else if c <? 32 then
       when (_L_FLAG t ECHOCTL) (upd_tty n (putch_w 94) ;; upd_tty n (putch_w (c + 64)))
     else upd_tty n (putch_w c)) ;;
    tty_start n).

(** One character of raw input. *)
Definition cook_char (n : nat) (c : Z) : M kernel unit :=
  t ← tty_at n;
  match input_char t c with
  | None => mret tt
  | Some c =>
      let canon := _L_FLAG t ICANON in
      if canon && (c =? KILL_CHAR t) then kill_line (Z.to_nat TTY_BUF_SIZE) n else
      if canon && (c =? ERASE_CHAR t) then
        match erasable t with
        | None => mret tt
        | Some c => echo_erase n c ;; upd_tty n (λ t, t <| secondary ::= UNPUT |>)
        end else
      if canon && (c =? STOP_CHAR t) then upd_tty n (λ t, t <| t_stopped := 1 |>) else
      if canon && (c =? START_CHAR t) then upd_tty n (λ t, t <| t_stopped := 0 |>) else
      if _L_FLAG t ISIG && (c =? INTR_CHAR t) then tty_intr n (_S SIGINT) else
      if _L_FLAG t ISIG && (c =? QUIT_CHAR t) then tty_intr n (_S SIGQUIT) else
      when ((c =? 10) || (c =? EOF_CHAR t))
        (upd_tty n (λ t, t <| secondary ::= λ q, q <| q_data ::= λ d, u32 (d + 1) |> |>)) ;;
      echo n c ;;
      upd_tty n (λ t, t <| secondary ::= PUTCH c |>)
  end.

Fixpoint copy_to_cooked_loop (fuel : nat) (n : nat) : M kernel unit :=
  match fuel with
  | O => no_fuel
  | S fuel =>
      t ← tty_at n;
      if EMPTY (read_q t) || FULL (secondary t) then mret tt else
      let '(c, q) := GETCH (read_q t) in
      upd_tty n (λ t, t <| read_q := q |>) ;;
      cook_char n c ;;
      copy_to_cooked_loop fuel n
  end.
(** The raw queue holds at most TTY_BUF_SIZE-1 characters. *)
Definition copy_to_cooked (n : nat) : M kernel unit :=
  copy_to_cooked_loop (Z.to_nat TTY_BUF_SIZE) n ;;
  wake_up (secondary_wait n).
Definition do_tty_interrupt (tty : nat) : M kernel unit := copy_to_cooked tty.

(** The do-while loop of tty_read: (b, nr, returned at end of file). *)
Fixpoint read_chars (fuel : nat) (n : nat) (b nr : Z) : M kernel (Z * Z * bool) :=
  match fuel with
  | O => no_fuel
  | S fuel =>
      t ← tty_at n;
      let '(c, q) := GETCH (secondary t) in
      upd_tty n (λ t, t <| secondary := q |>) ;;
      when ((c =? EOF_CHAR t) || (c =? 10))
        (upd_tty n (λ t, t <| secondary ::= λ q, q <| q_data ::= λ d, u32 (d - 1) |> |>)) ;;
      if (c =? EOF_CHAR t) && _L_FLAG t ICANON then mret (b, nr, true) else
      put_fs_byte c b ;;
      let b := b + 1 in
      let nr := nr - 1 in
      if nr =? 0 then mret (b, nr, false) else
      t ← tty_at n;
      if (0 <? nr) && negb (EMPTY (secondary t)) then read_chars fuel n b nr else mret (b, nr, false)
  end.

Definition alarm_due (oldalarm time : Z) : M kernel bool :=
  s ← get; mret ((oldalarm =? 0) || (time + jiffies (k_sched s) <? oldalarm)).
Definition set_alarm (time : Z) : M kernel unit :=
  s ← get; upd_me (λ t, t <| alarm := time + jiffies (k_sched s) |>).

(** The while loop of tty_read: (b, returned at end of file). *)
Fixpoint tty_read_loop (fuel : nat) (n : nat) (buf b nr time minimum oldalarm : Z) (flag : bool)
    : M kernel (Z * bool) :=
  if nr <=? 0 then mret (b, false) else
  match fuel with
  | O => no_fuel
  | S fuel =>
      x ← me;
      if flag && has (signal x) (_S SIGALRM) then
        upd_me (λ x, x <| signal ::= λ g, Z.land g (Z.lnot (_S SIGALRM)) |>) ;;
        mret (b, false)
      else if truth (signal x) then mret (b, false) else
      t ← tty_at n;
      if EMPTY (secondary t) ||
         (_L_FLAG t ICANON && negb (truth (q_data (secondary t))) && (20 <? LEFT (secondary t))) then
        sleep_if_empty n ;;
        tty_read_loop fuel n buf b nr time minimum oldalarm flag
      else
      '(b, nr, eof) ← read_chars (Z.to_nat TTY_BUF_SIZE) n b nr;
      if eof : bool then mret (b, true) else
      t ← tty_at n;
      flag ← (if truth time && negb (_L_FLAG t ICANON) then
                due ← alarm_due oldalarm time;
                (if due : bool then set_alarm time else upd_me (λ x, x <| alarm := oldalarm |>)) ;;
                mret due
              else mret flag);
      t ← tty_at n;
      if (if _L_FLAG t ICANON then truth (b - buf) else minimum <=? b - buf) then mret (b, false)
      else tty_read_loop fuel n buf b nr time minimum oldalarm flag
  end.

Definition tty_read (channel buf nr : Z) : M kernel Z :=
  if (2 <? u32 channel) || (nr <? 0) then mret (-1) else
  let n := Z.to_nat (u32 channel) in
  t ← tty_at n;
  x ← me;
  let oldalarm := alarm x in
  let time := 10 * c_cc_at t VTIME in
  let minimum := c_cc_at t VMIN in
  flag ← (if truth time && negb (truth minimum) then
            due ← alarm_due oldalarm time;
            when due (set_alarm time) ;;
            mret due
          else mret false);
  let minimum := if truth time && negb (truth minimum) then 1 else minimum in
  let minimum := if nr <? minimum then nr else minimum in
  '(b, eof) ← tty_read_loop (patience + Z.to_nat nr) n buf buf nr time minimum oldalarm flag;
  if eof : bool then mret (b - buf) else
  upd_me (λ x, x <| alarm := oldalarm |>) ;;
  x ← me;
  mret (if truth (signal x) && negb (truth (b - buf)) then - EINTR else b - buf).

(** [while (nr>0 && !FULL(tty->write_q))]: (b, nr). *)
Fixpoint write_chars (fuel : nat) (n : nat) (b nr : Z) : M kernel (Z * Z) :=
  t ← tty_at n;
  if (nr <=? 0) || FULL (write_q t) then mret (b, nr) else
  match fuel with
  | O => no_fuel
  | S fuel =>
      c ← get_fs_byte b;
      let c := s8 c in
      s ← get;
      let post := _O_FLAG t OPOST in
      let c := if negb post then c else
               if (c =? 13) && _O_FLAG t OCRNL then 10
               else if (c =? 10) && _O_FLAG t ONLRET then 13 else c in
      if post && (c =? 10) && negb (truth (cr_flag (k_tty s))) && _O_FLAG t ONLCR then
        modify (λ s, s <| k_tty ::= λ d, d <| cr_flag := 1 |> |>) ;;
        upd_tty n (putch_w 13) ;;
        write_chars fuel n b nr
      else
      let c := if post && _O_FLAG t OLCUC then toupper c else c in
      modify (λ s, s <| k_tty ::= λ d, d <| cr_flag := 0 |> |>) ;;
      upd_tty n (putch_w c) ;;
      write_chars fuel n (b + 1) (nr - 1)
  end.

Fixpoint tty_write_loop (fuel : nat) (n : nat) (b nr : Z) : M kernel Z :=
  if nr <=? 0 then mret b else
  match fuel with
  | O => no_fuel
  | S fuel =>
      sleep_if_full n ;;
      x ← me;
      if truth (signal x) then mret b else
      '(b, nr) ← write_chars (Z.to_nat (2 * TTY_BUF_SIZE)) n b nr;
      tty_start n ;;
      when (0 <? nr) reschedule ;;
      tty_write_loop fuel n b nr
  end.
Definition tty_write (channel buf nr : Z) : M kernel Z :=
  if (2 <? u32 channel) || (nr <? 0) then mret (-1) else
  b ← tty_write_loop (patience + Z.to_nat nr) (Z.to_nat (u32 channel)) buf nr;
  mret (b - buf).

(** ** tty_ioctl.c *)

Definition quotient : list Z :=
  [0; 2304; 1536; 1047; 857; 768; 576; 384; 192; 96; 64; 48; 24; 12; 6; 3].

Definition out (v port : Z) : M kernel unit := modify (outb v port).
Definition change_speed (n : nat) : M kernel unit :=
  t ← tty_at n;
  let port := u16 (q_data (read_q t)) in
  if port =? 0 then mret tt else
  quot ← deref (zlookup quotient (Z.land (c_cflag (termios t)) CBAUD));
  out 0x80 (port + 3) ;;
  out (Z.land quot 0xff) port ;;
  out (Z.shiftr quot 8) (port + 1) ;;
  out 0x03 (port + 3).

Definition flush (q : tty_queue) : tty_queue := q <| q_head := q_tail q |>.

(** The bytes of a struct termios (two of padding) and of a struct termio. *)
Definition termios_bytes (t : termios_struct) : list Z :=
  let long v := (λ k, u8 (Z.shiftr v k)) <$> [0; 8; 16; 24] in
  long (c_iflag t) ++ long (c_oflag t) ++ long (c_cflag t) ++ long (c_lflag t) ++
  u8 (c_line t) :: take NCCS (c_cc t) ++ [0; 0].
Definition long_at (l : list Z) (k : nat) : Z :=
  let b i := default 0 (l !! (k + i)%nat) in b 0%nat + 256 * b 1%nat + 65536 * b 2%nat + 16777216 * b 3%nat.
Definition short_at (l : list Z) (k : nat) : Z :=
  let b i := default 0 (l !! (k + i)%nat) in b 0%nat + 256 * b 1%nat.
Definition termios_of (l : list Z) : termios_struct :=
  mk_termios (long_at l 0) (long_at l 4) (long_at l 8) (long_at l 12) (default 0 (l !! 16%nat))
    (take NCCS (drop 17 l)).
Definition SIZEOF_TERMIOS : Z := 36.
Definition SIZEOF_TERMIO : Z := 18.

Definition get_termios (n : nat) (arg : Z) : M kernel Z :=
  t ← tty_at n;
  verify_area arg SIZEOF_TERMIOS ;;
  t ← tty_at n;
  put_fs_bytes (termios_bytes (termios t)) arg ;;
  mret 0.
Definition set_termios (n : nat) (arg : Z) : M kernel Z :=
  l ← get_fs_bytes (Z.to_nat SIZEOF_TERMIOS) arg;
  upd_tty n (λ t, t <| termios := termios_of l |>) ;;
  change_speed n ;;
  mret 0.
Definition termio_bytes (t : termios_struct) : list Z :=
  let short v := (λ k, u8 (Z.shiftr v k)) <$> [0; 8] in
  short (c_iflag t) ++ short (c_oflag t) ++ short (c_cflag t) ++ short (c_lflag t) ++
  u8 (c_line t) :: take NCC (c_cc t) ++ [0].
Definition get_termio (n : nat) (arg : Z) : M kernel Z :=
  verify_area arg SIZEOF_TERMIO ;;
  t ← tty_at n;
  put_fs_bytes (termio_bytes (termios t)) arg ;;
  mret 0.
(** The low halves of the flags are replaced. *)
Definition set_low (old new : Z) : Z := Z.lor (Z.land old 0xffff0000) new.
Definition set_termio (n : nat) (arg : Z) : M kernel Z :=
  l ← get_fs_bytes (Z.to_nat SIZEOF_TERMIO) arg;
  upd_tty n (λ t, t <| termios ::= λ x,
    mk_termios (set_low (c_iflag x) (short_at l 0)) (set_low (c_oflag x) (short_at l 2))
      (set_low (c_cflag x) (short_at l 4)) (set_low (c_lflag x) (short_at l 6))
      (default 0 (l !! 8%nat)) (take NCC (drop 9 l) ++ drop NCC (c_cc x)) |>) ;;
  change_speed n ;;
  mret 0.

Definition flush_read (n : nat) : M kernel unit := upd_tty n (λ t, t <| read_q ::= flush |>).
Definition flush_write (n : nat) : M kernel unit := upd_tty n (λ t, t <| write_q ::= flush |>).

Definition tty_ioctl (dev cmd arg : Z) : M kernel Z :=
  x ← me;
  (if (MAJOR dev =? 5) && (tty x <? 0) then panic "tty_ioctl: dev<0" else mret tt) ;;
  let n := Z.to_nat (if MAJOR dev =? 5 then tty x else MINOR dev) in
  if cmd =? 0x5401 (* TCGETS *) then get_termios n arg else
  if cmd =? 0x5404 (* TCSETSF *) then flush_read n ;; set_termios n arg else
  if cmd =? 0x5403 (* TCSETSW *) then set_termios n arg else
  if cmd =? 0x5402 (* TCSETS *) then set_termios n arg else
  if cmd =? 0x5405 (* TCGETA *) then get_termio n arg else
  if cmd =? 0x5408 (* TCSETAF *) then flush_read n ;; set_termio n arg else
  if cmd =? 0x5407 (* TCSETAW *) then set_termio n arg else
  if cmd =? 0x5406 (* TCSETA *) then set_termio n arg else
  if cmd =? 0x5409 (* TCSBRK *) then mret 0 else
  if cmd =? 0x540B (* TCFLSH *) then
    if arg =? 0 then flush_read n ;; mret 0
    else if arg =? 1 then flush_write n ;; mret 0
    else if arg =? 2 then flush_read n ;; flush_write n ;; mret 0
    else mret (- EINVAL)
  else
  if cmd =? 0x540F (* TIOCGPGRP *) then
    verify_area arg 4 ;; t ← tty_at n; put_fs_long (t_pgrp t) arg ;; mret 0 else
  if cmd =? 0x5410 (* TIOCSPGRP *) then
    v ← get_fs_long arg; upd_tty n (λ t, t <| t_pgrp := s32 v |>) ;; mret 0 else
  if cmd =? 0x5411 (* TIOCOUTQ *) then
    verify_area arg 4 ;; t ← tty_at n; put_fs_long (CHARS (write_q t)) arg ;; mret 0 else
  if cmd =? 0x541B (* TIOCINQ *) then
    verify_area arg 4 ;; t ← tty_at n; put_fs_long (CHARS (secondary t)) arg ;; mret 0 else
  (* TCXONC, TIOCEXCL .. TIOCSSOFTCAR: not implemented *)
  mret (- EINVAL).

(** ** fs/char_dev.c; [pos] is the word [*pos] *)

Definition rw_ttyx (rw minor buf count : Z) : M kernel Z :=
  if rw =? READ then tty_read minor buf count else tty_write minor buf count.
Definition rw_tty (rw buf count : Z) : M kernel Z :=
  x ← me;
  if tty x <? 0 then mret (- EPERM) else rw_ttyx rw (tty x) buf count.

Fixpoint rw_port_loop (fuel : nat) (rw buf count i : Z) : M kernel Z :=
  match fuel with
  | O => mret i
  | S fuel =>
      if (0 <? count) && (i <? 65536) then
        (if rw =? READ then s ← get; put_fs_byte (inb i s) buf
         else c ← get_fs_byte buf; out c i) ;;
        rw_port_loop fuel rw (buf + 1) (count - 1) (i + 1)
      else mret i
  end.
Definition rw_port (rw buf count : Z) (pos : cell) : M kernel Z :=
  p ← gets (rd pos);
  i ← rw_port_loop (Z.to_nat count) rw buf count p;
  p ← gets (rd pos);
  advance pos (i - p) ;;
  mret (i - p).

Definition rw_memory (rw minor buf count : Z) (pos : cell) : M kernel Z :=
  if minor =? 0 then mret (- EIO)          (* rw_ram *)
  else if minor =? 1 then mret (- EIO)     (* rw_mem *)
  else if minor =? 2 then mret (- EIO)     (* rw_kmem *)
  else if minor =? 3 then mret (if rw =? READ then 0 else count)   (* rw_null *)
  else if minor =? 4 then rw_port rw buf count pos
  else mret (- EIO).

(** crw_table: majors 1, 4 and 5 of 8 *)
Definition rw_char (rw dev buf count : Z) (pos : cell) : M kernel Z :=
  let major := MAJOR dev in
  if major =? 1 then rw_memory rw (MINOR dev) buf count pos
  else if major =? 4 then rw_ttyx rw (MINOR dev) buf count
  else if major =? 5 then rw_tty rw buf count
  else mret (- ENODEV).
End Tty.
