(* ===== verification/Namei.v ===== *)
(** * fs/namei.c

    Permissions, directory entries, path names, and the system calls that
    create and remove names.  A directory entry [de] is a pair of the buffer
    that holds it and its index in the block. *)

From stdpp Require Import base option list gmap strings.
From Stdlib Require Import ZArith.
From S2P Require Import Prelude Types Memory Sched Kernel Blk Buffer Inode FileDev.
Local Open Scope Z_scope.

Definition O_ACCMODE : Z := 3.
Definition O_WRONLY : Z := 1.
Definition O_CREAT : Z := 0x40.       (* 00100 *)
Definition O_EXCL : Z := 0x80.        (* 00200 *)
Definition O_TRUNC : Z := 0x200.      (* 01000 *)
Definition MAY_EXEC : Z := 1.
Definition MAY_WRITE : Z := 2.
Definition MAY_READ : Z := 4.
Definition I_DIRECTORY : Z := 0x4000.
Definition I_REGULAR : Z := 0x8000.

(** The string "\004\002\006\377" of [char]s *)
Definition ACC_MODE (x : Z) : Z :=
  let k := Z.land x O_ACCMODE in
  if k =? 0 then 4 else if k =? 1 then 2 else if k =? 2 then 6 else -1.

(** The decision of permission() for a user and group. *)
Definition permitted (x : m_inode) (uid gid mask : Z) : bool :=
  let mode := i_mode x in
  if truth (i_dev x) && negb (truth (i_nlinks x)) then false else
  let mode := if uid =? i_uid x then Z.shiftr mode 6
              else if gid =? i_gid x then Z.shiftr mode 3 else mode in
  (Z.land (Z.land mode mask) 7 =? mask) || (uid =? 0).

Definition permission (inode : nat) (mask : Z) : M kernel bool :=
  x ← inode_at inode;
  t ← me;
  mret (permitted x (euid t) (egid t) mask).

(** ** Directory entries *)

Definition DIR_ENTRY_SIZE : nat := 16.
Definition dir_entry : Type := nat * nat.
Definition de_inode (l : list Z) (k : nat) : Z := get16 l (16 * k).
Definition de_name (l : list Z) (k : nat) : list Z := slice (16 * k + 2) NAME_LEN l.

(** match() once the name has been read from user space. *)
Definition name_matches (len : Z) (name : list Z) (inode : Z) (de : list Z) : bool :=
  if (inode =? 0) || (Z.of_nat NAME_LEN <? len) then false else
  if (len <? Z.of_nat NAME_LEN) && truth (byte_at de (Z.to_nat len)) then false else
  bool_decide (take (Z.to_nat len) de = take (Z.to_nat len) name).

Definition match_ (len : Z) (name : Z) (de : dir_entry) : M kernel bool :=
  y ← bh de.1;
  n ← get_fs_bytes (Z.to_nat len) name;
  mret (name_matches len n (de_inode (b_data y) de.2) (de_name (b_data y) de.2)).

Definition get_de_inode (de : dir_entry) : M kernel Z := y ← bh de.1; mret (de_inode (b_data y) de.2).
Definition set_de_inode (de : dir_entry) (v : Z) : M kernel unit :=
  set_bh de.1 (λ y, y <| b_data ::= splice (16 * de.2) (put16 v) |> <| b_dirt := 1 |>).

(** [strcpy(de->name, s)]: the string with its final 0. *)
Definition set_de_name (de : dir_entry) (s : list Z) : M kernel unit :=
  set_bh de.1 (λ y, y <| b_data ::= splice (16 * de.2 + 2) (s ++ [0]) |>).

(** [de->name[i]=(i<namelen)?get_fs_byte(name+i):0] for all [i<NAME_LEN], and
    the buffer is dirty. *)
Definition fill_name (de : dir_entry) (name : Z) (namelen : nat) : M kernel unit :=
  l ← get_fs_bytes namelen name;
  set_bh de.1 (λ y, y <| b_data ::= splice (16 * de.2 + 2) (l ++ replicate (NAME_LEN - namelen) 0) |>
                      <| b_dirt := 1 |>).

Definition path_fuel : nat := Z.to_nat 65536.

Section Namei.
Context {E : Env}.

(** The loop of find_entry over the entries; [b] is NULL after a hole. *)
Fixpoint find_entry_loop (fuel : nat) (dir : nat) (name namelen entries i : Z)
    (b : option nat) (k : nat) : M kernel (option dir_entry) :=
  if entries <=? i then brelse b ;; mret None else
  match fuel with
  | O => no_fuel
  | S fuel =>
      let check b k :=
        m ← match_ namelen name (b, k);
        if m : bool then mret (Some (b, k))
        else find_entry_loop fuel dir name namelen entries (i + 1) (Some b) (S k) in
      match b with
      | Some b' =>
          if bool_decide (k < 64)%nat then check b' k else
          brelse b ;;
          block ← bmap dir (i / DIR_ENTRIES_PER_BLOCK);
          x ← inode_at dir;
          nb ← (if block =? 0 then mret None else bread (i_dev x) block);
          match nb with
          | None => find_entry_loop fuel dir name namelen entries (i + DIR_ENTRIES_PER_BLOCK) None 0
          | Some nb => check nb O
          end
      | None =>
          block ← bmap dir (i / DIR_ENTRIES_PER_BLOCK);
          x ← inode_at dir;
          nb ← (if block =? 0 then mret None else bread (i_dev x) block);
          match nb with
          | None => find_entry_loop fuel dir name namelen entries (i + DIR_ENTRIES_PER_BLOCK) None 0
          | Some nb => check nb O
          end
      end
  end.

(** find_entry: the directory, possibly exchanged for a mount point, and the entry. *)
Definition find_entry (dir : nat) (name namelen : Z) : M kernel (nat * option dir_entry) :=
  let namelen := if Z.of_nat NAME_LEN <? namelen then Z.of_nat NAME_LEN else namelen in
  x ← inode_at dir;
  let entries := i_size x / 16 in
  if namelen =? 0 then mret (dir, None) else
  c0 ← get_fs_byte name;
  c1 ← get_fs_byte (name + 1);
  t ← me;
  '(dir, namelen) ← (if (namelen =? 2) && (c0 =? 46) && (c1 =? 46) then
      if bool_decide (root t = Some dir) then mret (dir, 1) else
      if i_num x =? ROOT_INO then
        sb ← get_super (i_dev x);
        sb ← deref sb;
        y ← super_at sb;
        match s_imount y with
        | Some _ =>
            iput (Some dir) ;;
            y ← super_at sb;
            m ← deref (s_imount y);
            upd_inode m (λ x, x <| i_count ::= λ c, u16 (c + 1) |>) ;;
            mret (m, namelen)
        | None => mret (dir, namelen)
        end
      else mret (dir, namelen)
    else mret (dir, namelen));
  x ← inode_at dir;
  if zone x 0 =? 0 then mret (dir, None) else
  b ← bread (i_dev x) (zone x 0);
  match b with
  | None => mret (dir, None)
  | Some b =>
      r ← find_entry_loop (Z.to_nat entries) dir name namelen entries 0 (Some b) 0;
      mret (dir, r)
  end.

(** The next block found, a hole ([Some None]) or no block ([None]). *)
Definition first_entry (r : option (option nat)) : option (option (nat * nat)) :=
  match r with
  | None => None
  | Some None => Some None
  | Some (Some nb) => Some (Some (nb, O))
  end.
Fixpoint add_entry_loop (fuel : nat) (dir : nat) (name namelen i : Z) (b : option nat) (k : nat)
    : M kernel (option dir_entry) :=
  match fuel with
  | O => no_fuel
  | S fuel =>
      let next_block :=
        brelse b ;;
        block ← create_block dir (i / DIR_ENTRIES_PER_BLOCK);
        if block =? 0 then mret None else
        x ← inode_at dir;
        nb ← bread (i_dev x) block;
        mret (Some nb) in
      here ← (match b with
              | Some b' => if bool_decide (k < 64)%nat then mret (Some (Some (b', k)))
                           else r ← next_block; mret (first_entry r)
              | None => r ← next_block; mret (first_entry r)
              end);
      match here with
      | None => mret None
      | Some None => add_entry_loop fuel dir name namelen (i + DIR_ENTRIES_PER_BLOCK) None 0
      | Some (Some (b, k)) =>
          x ← inode_at dir;
          t ← CURRENT_TIME;
          when (i_size x <=? i * 16) (
            set_bh b (λ y, y <| b_data ::= splice (16 * k) (put16 0) |>) ;;
            upd_inode dir (λ x, x <| i_size := u32 ((i + 1) * 16) |> <| i_dirt := 1 |>
                                  <| i_ctime := u32 t |>)) ;;
          n ← get_de_inode (b, k);
          if truth n then add_entry_loop fuel dir name namelen (i + 1) (Some b) (S k) else
          upd_inode dir (λ x, x <| i_mtime := u32 t |>) ;;
          fill_name (b, k) name (Z.to_nat namelen) ;;
          mret (Some (b, k))
      end
  end.
Definition add_entry (dir : nat) (name namelen : Z) : M kernel (option dir_entry) :=
  let namelen := if Z.of_nat NAME_LEN <? namelen then Z.of_nat NAME_LEN else namelen in
  if namelen =? 0 then mret None else
  x ← inode_at dir;
  if zone x 0 =? 0 then mret None else
  b ← bread (i_dev x) (zone x 0);
  match b with
  | None => mret None
  | Some b => add_entry_loop path_fuel dir name namelen 0 (Some b) 0
  end.

(** ** Path names *)

(** [for(namelen=0;(c=get_fs_byte(pathname++))&&(c!='/');namelen++)]: the
    final character, the pointer behind it and the length. *)
Fixpoint scan_name (fuel : nat) (p namelen : Z) : M kernel (Z * Z * Z) :=
  match fuel with
  | O => no_fuel
  | S fuel =>
      c ← get_fs_byte p;
      if truth c && negb (c =? 47) then scan_name fuel (p + 1) (namelen + 1)
      else mret (c, p + 1, namelen)
  end.

Fixpoint get_dir_loop (fuel : nat) (inode : nat) (pathname : Z) : M kernel (option nat) :=
  match fuel with
  | O => no_fuel
  | S fuel =>
      let thisname := pathname in
      x ← inode_at inode;
      ok ← permission inode MAY_EXEC;
      if negb (S_ISDIR (i_mode x)) || negb ok then iput (Some inode) ;; mret None else
      '(c, pathname, namelen) ← scan_name path_fuel pathname 0;
      if c =? 0 then mret (Some inode) else
      '(inode, de) ← find_entry inode thisname namelen;
      match de with
      | None => iput (Some inode) ;; mret None
      | Some de =>
          inr ← get_de_inode de;
          x ← inode_at inode;
          let idev := i_dev x in
          brelse (Some de.1) ;;
          iput (Some inode) ;;
          inode ← iget idev inr;
          get_dir_loop fuel inode pathname
      end
  end.

(** An inode pointer of the task that must be there and be in use. *)
Definition live_inode (i : option nat) (msg : string) : M kernel nat :=
  match i with
  | None => panic msg
  | Some n => x ← inode_at n; if i_count x =? 0 then panic msg else mret n
  end.

Definition get_dir (pathname : Z) : M kernel (option nat) :=
  t ← me;
  r ← live_inode (root t) "No root inode";
  w ← live_inode (pwd t) "No cwd inode";
  c ← get_fs_byte pathname;
  if c =? 0 then mret None (* empty name is bad *) else
  let '(inode, pathname) := if c =? 47 then (r, pathname + 1) else (w, pathname) in
  upd_inode inode (λ x, x <| i_count ::= λ c, u16 (c + 1) |>) ;;
  get_dir_loop path_fuel inode pathname.

(** [while (c=get_fs_byte(pathname++)) if (c=='/') basename=pathname;] *)
Fixpoint scan_base (fuel : nat) (p basename : Z) : M kernel (Z * Z) :=
  match fuel with
  | O => no_fuel
  | S fuel =>
      c ← get_fs_byte p;
      if c =? 0 then mret (p + 1, basename)
      else scan_base fuel (p + 1) (if c =? 47 then p + 1 else basename)
  end.

(** dir_namei: the directory, the length and the address of the last name. *)
Definition dir_namei (pathname : Z) : M kernel (option (nat * Z * Z)) :=
  dir ← get_dir pathname;
  match dir with
  | None => mret None
  | Some dir =>
      '(p, basename) ← scan_base path_fuel pathname pathname;
      mret (Some (dir, p - basename - 1, basename))
  end.

Definition namei (pathname : Z) : M kernel (option nat) :=
  r ← dir_namei pathname;
  match r with
  | None => mret None
  | Some (dir, namelen, basename) =>
      if namelen =? 0 then mret (Some dir) (* special case: '/usr/' etc *) else
      '(dir, de) ← find_entry dir basename namelen;
      match de with
      | None => iput (Some dir) ;; mret None
      | Some de =>
          inr ← get_de_inode de;
          x ← inode_at dir;
          let dev := i_dev x in
          brelse (Some de.1) ;;
          iput (Some dir) ;;
          inode ← iget dev inr;
          t ← CURRENT_TIME;
          upd_inode inode (λ x, x <| i_atime := u32 t |> <| i_dirt := 1 |>) ;;
          mret (Some inode)
      end
  end.

(** open_namei: the result and [*res_inode]. *)
Definition open_namei (pathname flag mode : Z) : M kernel (Z * option nat) :=
  let flag := if has flag O_TRUNC && negb (has flag O_ACCMODE) then Z.lor flag O_WRONLY else flag in
  t ← me;
  let mode := Z.lor (Z.land mode (Z.land 511 (Z.lnot (umask t)))) I_REGULAR in
  r ← dir_namei pathname;
  match r with
  | None => mret (- ENOENT, None)
  | Some (dir, namelen, basename) =>
      if namelen =? 0 then
        if negb (has flag (Z.lor O_ACCMODE (Z.lor O_CREAT O_TRUNC))) then mret (0, Some dir)
        else iput (Some dir) ;; mret (- EISDIR, None)
      else
      '(dir, de) ← find_entry dir basename namelen;
      match de with
      | None =>
          if negb (has flag O_CREAT) then iput (Some dir) ;; mret (- ENOENT, None) else
          ok ← permission dir MAY_WRITE;
          if negb ok then iput (Some dir) ;; mret (- EACCES, None) else
          x ← inode_at dir;
          inode ← new_inode (i_dev x);
          match inode with
          | None => iput (Some dir) ;; mret (- ENOSPC, None)
          | Some inode =>
              t ← me;
              upd_inode inode (λ x, x <| i_uid := euid t |> <| i_mode := u16 mode |> <| i_dirt := 1 |>) ;;
              de ← add_entry dir basename namelen;
              match de with
              | None =>
                  upd_inode inode (λ x, x <| i_nlinks ::= λ n, u8 (n - 1) |>) ;;
                  iput (Some inode) ;;
                  iput (Some dir) ;;
                  mret (- ENOSPC, None)
              | Some de =>
                  x ← inode_at inode;
                  set_de_inode de (i_num x) ;;
                  brelse (Some de.1) ;;
                  iput (Some dir) ;;
                  mret (0, Some inode)
              end
          end
      | Some de =>
          inr ← get_de_inode de;
          x ← inode_at dir;
          let dev := i_dev x in
          brelse (Some de.1) ;;
          iput (Some dir) ;;
          if has flag O_EXCL then mret (- EEXIST, None) else
          inode ← iget dev inr;
          x ← inode_at inode;
          ok ← permission inode (ACC_MODE flag);
          if S_ISDIR (i_mode x) && has flag O_ACCMODE || negb ok then
            iput (Some inode) ;; mret (- EPERM, None)
          else
          t ← CURRENT_TIME;
          upd_inode inode (λ x, x <| i_atime := u32 t |>) ;;
          when (has flag O_TRUNC) (truncate inode) ;;
          mret (0, Some inode)
      end
  end.

(** ** Creating and removing names *)

(** What mknod, mkdir, rmdir and unlink do first: [inl] is an error return,
    [inr] the directory, the name and the entry if there is one. *)
Definition lookup_for_write (name enoent eperm : Z) : M kernel (Z + nat * Z * Z * option dir_entry) :=
  r ← dir_namei name;
  match r with
  | None => mret (inl (- ENOENT))
  | Some (dir, namelen, basename) =>
      if namelen =? 0 then iput (Some dir) ;; mret (inl (- enoent)) else
      ok ← permission dir MAY_WRITE;
      if negb ok then iput (Some dir) ;; mret (inl (- eperm)) else
      '(dir, de) ← find_entry dir basename namelen;
      mret (inr (dir, namelen, basename, de))
  end.

Definition sys_mknod (filename mode dev : Z) : M kernel Z :=
  su ← suser;
  if negb su then mret (- EPERM) else
  r ← lookup_for_write filename ENOENT EPERM;
  match r with
  | inl err => mret err
  | inr (dir, namelen, basename, Some de) => brelse (Some de.1) ;; iput (Some dir) ;; mret (- EEXIST)
  | inr (dir, namelen, basename, None) =>
      x ← inode_at dir;
      inode ← new_inode (i_dev x);
      match inode with
      | None => iput (Some dir) ;; mret (- ENOSPC)
      | Some inode =>
          upd_inode inode (λ x, x <| i_mode := u16 mode |>) ;;
          when (S_ISBLK mode || S_ISCHR mode) (upd_inode inode (set_zone 0 dev)) ;;
          t ← CURRENT_TIME;
          upd_inode inode (λ x, x <| i_atime := u32 t |> <| i_mtime := u32 t |> <| i_dirt := 1 |>) ;;
          de ← add_entry dir basename namelen;
          match de with
          | None =>
              iput (Some dir) ;;
              upd_inode inode (λ x, x <| i_nlinks := 0 |>) ;;
              iput (Some inode) ;;
              mret (- ENOSPC)
          | Some de =>
              x ← inode_at inode;
              set_de_inode de (i_num x) ;;
              iput (Some dir) ;;
              iput (Some inode) ;;
              brelse (Some de.1) ;;
              mret 0
          end
      end
  end.

Definition sys_mkdir (pathname mode : Z) : M kernel Z :=
  su ← suser;
  if negb su then mret (- EPERM) else
  r ← lookup_for_write pathname ENOENT EPERM;
  match r with
  | inl err => mret err
  | inr (dir, namelen, basename, Some de) => brelse (Some de.1) ;; iput (Some dir) ;; mret (- EEXIST)
  | inr (dir, namelen, basename, None) =>
      x ← inode_at dir;
      inode ← new_inode (i_dev x);
      match inode with
      | None => iput (Some dir) ;; mret (- ENOSPC)
      | Some inode =>
          t ← CURRENT_TIME;
          upd_inode inode (λ x, x <| i_size := 32 |> <| i_dirt := 1 |>
                                  <| i_atime := u32 t |> <| i_mtime := u32 t |>) ;;
          x ← inode_at inode;
          z ← new_block (i_dev x);
          upd_inode inode (set_zone 0 z) ;;
          if u16 z =? 0 then
            iput (Some dir) ;;
            upd_inode inode (λ x, x <| i_nlinks ::= λ n, u8 (n - 1) |>) ;;
            iput (Some inode) ;;
            mret (- ENOSPC)
          else
          upd_inode inode (λ x, x <| i_dirt := 1 |>) ;;
          x ← inode_at inode;
          db ← bread (i_dev x) (zone x 0);
          match db with
          | None =>
              iput (Some dir) ;;
              x ← inode_at inode;
              free_block (i_dev x) (zone x 0) ;;
              upd_inode inode (λ x, x <| i_nlinks ::= λ n, u8 (n - 1) |>) ;;
              iput (Some inode) ;;
              mret (- ERROR)
          | Some db =>
              x ← inode_at inode;
              d ← inode_at dir;
              set_de_inode (db, 0%nat) (i_num x) ;; set_de_name (db, 0%nat) [46] ;;
              set_de_inode (db, 1%nat) (i_num d) ;; set_de_name (db, 1%nat) [46; 46] ;;
              upd_inode inode (λ x, x <| i_nlinks := 2 |>) ;;
              brelse (Some db) ;;
              tk ← me;
              upd_inode inode (λ x, x <| i_mode :=
                  u16 (Z.lor I_DIRECTORY (Z.land mode (Z.land 511 (Z.lnot (umask tk))))) |>
                <| i_dirt := 1 |>) ;;
              de ← add_entry dir basename namelen;
              match de with
              | None =>
                  iput (Some dir) ;;
                  x ← inode_at inode;
                  free_block (i_dev x) (zone x 0) ;;
                  upd_inode inode (λ x, x <| i_nlinks := 0 |>) ;;
                  iput (Some inode) ;;
                  mret (- ENOSPC)
              | Some de =>
                  x ← inode_at inode;
                  set_de_inode de (i_num x) ;;
                  upd_inode dir (λ x, x <| i_nlinks ::= (λ n, u8 (n + 1)) |> <| i_dirt := 1 |>) ;;
                  iput (Some dir) ;;
                  iput (Some inode) ;;
                  brelse (Some de.1) ;;
                  mret 0
              end
          end
      end
  end.

(** The loop of empty_dir; a missing block is skipped without forgetting the
    buffer that was released. *)
Fixpoint empty_dir_loop (fuel : nat) (inode : nat) (nr len : Z) (b : nat) (k : nat) : M kernel bool :=
  if len <=? nr then brelse (Some b) ;; mret true else
  match fuel with
  | O => no_fuel
  | S fuel =>
      let check b k :=
        n ← get_de_inode (b, k);
        if truth n then brelse (Some b) ;; mret false
        else empty_dir_loop fuel inode (nr + 1) len b (S k) in
      if bool_decide (k < 64)%nat then check b k else
      brelse (Some b) ;;
      block ← bmap inode (nr / DIR_ENTRIES_PER_BLOCK);
      if block =? 0 then empty_dir_loop fuel inode (nr + DIR_ENTRIES_PER_BLOCK) len b k else
      x ← inode_at inode;
      nb ← bread (i_dev x) block;
      match nb with
      | None => mret false
      | Some nb => check nb O
      end
  end.

(** [strcmp(s, de->name)] is 0 for the string [s] of [n] characters. *)
Definition is_name (s : list Z) (de : list Z) : bool := bool_decide (take (S (length s)) de = s ++ [0]).

Definition empty_dir (inode : nat) : M kernel bool :=
  x ← inode_at inode;
  let len := i_size x / 16 in
  if (len <? 2) || (zone x 0 =? 0) then printk "warning - bad directory on dev %04x\n" ;; mret false else
  b ← bread (i_dev x) (zone x 0);
  match b with
  | None => printk "warning - bad directory on dev %04x\n" ;; mret false
  | Some b =>
      y ← bh b;
      x ← inode_at inode;
      let l := b_data y in
      if negb (de_inode l 0 =? i_num x) || (de_inode l 1 =? 0)
         || negb (is_name [46] (de_name l 0)) || negb (is_name [46; 46] (de_name l 1)) then
        printk "warning - bad directory on dev %04x\n" ;; mret false
      else empty_dir_loop (Z.to_nat len) inode 2 len b 2
  end.

Definition sys_rmdir (name : Z) : M kernel Z :=
  su ← suser;
  if negb su then mret (- EPERM) else
  r ← lookup_for_write name ENOENT EPERM;
  match r with
  | inl err => mret err
  | inr (dir, _, _, None) => iput (Some dir) ;; mret (- ENOENT)
  | inr (dir, _, _, Some de) =>
      d ← inode_at dir;
      inr ← get_de_inode de;
      inode ← iget (i_dev d) inr;
      d ← inode_at dir;
      x ← inode_at inode;
      t ← me;
      if has (i_mode d) S_ISVTX && truth (euid t) && negb (i_uid x =? euid t) then
        iput (Some dir) ;; iput (Some inode) ;; brelse (Some de.1) ;; mret (- EPERM)
      else if negb (i_dev x =? i_dev d) || (1 <? i_count x) then
        iput (Some dir) ;; iput (Some inode) ;; brelse (Some de.1) ;; mret (- EPERM)
      else if bool_decide (inode = dir) then
        iput (Some inode) ;; iput (Some dir) ;; brelse (Some de.1) ;; mret (- EPERM)
      else if negb (S_ISDIR (i_mode x)) then
        iput (Some inode) ;; iput (Some dir) ;; brelse (Some de.1) ;; mret (- ENOTDIR)
      else
      empty ← empty_dir inode;
      if negb empty then
        iput (Some inode) ;; iput (Some dir) ;; brelse (Some de.1) ;; mret (- ENOTEMPTY)
      else
      x ← inode_at inode;
      when (negb (i_nlinks x =? 2)) (printk "empty directory has nlink!=2 (%d)") ;;
      set_de_inode de 0 ;;
      brelse (Some de.1) ;;
      upd_inode inode (λ x, x <| i_nlinks := 0 |> <| i_dirt := 1 |>) ;;
      now ← CURRENT_TIME;
      upd_inode dir (λ x, x <| i_nlinks ::= (λ n, u8 (n - 1)) |> <| i_mtime := u32 now |>
                            <| i_ctime := u32 now |> <| i_dirt := 1 |>) ;;
      iput (Some dir) ;;
      iput (Some inode) ;;
      mret 0
  end.

Definition sys_unlink (name : Z) : M kernel Z :=
  r ← lookup_for_write name ENOENT EPERM;
  match r with
  | inl err => mret err
  | inr (dir, _, _, None) => iput (Some dir) ;; mret (- ENOENT)
  | inr (dir, _, _, Some de) =>
      d ← inode_at dir;
      inr ← get_de_inode de;
      inode ← iget (i_dev d) inr;
      d ← inode_at dir;
      x ← inode_at inode;
      t ← me;
      if has (i_mode d) S_ISVTX && negb (euid t =? 0) && negb (euid t =? i_uid x)
         && negb (euid t =? i_uid d) then
        iput (Some dir) ;; iput (Some inode) ;; brelse (Some de.1) ;; mret (- EPERM)
      else if S_ISDIR (i_mode x) then
        iput (Some inode) ;; iput (Some dir) ;; brelse (Some de.1) ;; mret (- EPERM)
      else
      when (i_nlinks x =? 0) (
        printk "Deleting nonexistent file (%04x:%d), %d\n" ;;
        upd_inode inode (λ x, x <| i_nlinks := 1 |>)) ;;
      set_de_inode de 0 ;;
      brelse (Some de.1) ;;
      now ← CURRENT_TIME;
      upd_inode inode (λ x, x <| i_nlinks ::= (λ n, u8 (n - 1)) |> <| i_dirt := 1 |> <| i_ctime := u32 now |>) ;;
      iput (Some inode) ;;
      iput (Some dir) ;;
      mret 0
  end.

Definition sys_link (oldname newname : Z) : M kernel Z :=
  oldinode ← namei oldname;
  match oldinode with
  | None => mret (- ENOENT)
  | Some oldinode =>
      x ← inode_at oldinode;
      if S_ISDIR (i_mode x) then iput (Some oldinode) ;; mret (- EPERM) else
      r ← dir_namei newname;
      match r with
      | None => iput (Some oldinode) ;; mret (- EACCES)
      | Some (dir, namelen, basename) =>
          if namelen =? 0 then iput (Some oldinode) ;; iput (Some dir) ;; mret (- EPERM) else
          d ← inode_at dir;
          x ← inode_at oldinode;
          if negb (i_dev d =? i_dev x) then iput (Some dir) ;; iput (Some oldinode) ;; mret (- EXDEV) else
          ok ← permission dir MAY_WRITE;
          if negb ok then iput (Some dir) ;; iput (Some oldinode) ;; mret (- EACCES) else
          '(dir, de) ← find_entry dir basename namelen;
          match de with
          | Some de => brelse (Some de.1) ;; iput (Some dir) ;; iput (Some oldinode) ;; mret (- EEXIST)
          | None =>
              de ← add_entry dir basename namelen;
              match de with
              | None => iput (Some dir) ;; iput (Some oldinode) ;; mret (- ENOSPC)
              | Some de =>
                  x ← inode_at oldinode;
                  set_de_inode de (i_num x) ;;
                  brelse (Some de.1) ;;
                  iput (Some dir) ;;
                  now ← CURRENT_TIME;
                  upd_inode oldinode (λ x, x <| i_nlinks ::= (λ n, u8 (n + 1)) |> <| i_ctime := u32 now |>
                                             <| i_dirt := 1 |>) ;;
                  iput (Some oldinode) ;;
                  mret 0
              end
          end
      end
  end.

(** ** super.c: mount and umount *)

Definition sys_umount (dev_name : Z) : M kernel Z :=
  inode ← namei dev_name;
  match inode with
  | None => mret (- ENOENT)
  | Some inode =>
      x ← inode_at inode;
      let dev := zone x 0 in
      if negb (S_ISBLK (i_mode x)) then iput (Some inode) ;; mret (- ENOTBLK) else
      iput (Some inode) ;;
      s ← get;
      if dev =? ROOT_DEV (k_fs s) then mret (- EBUSY) else
      sb ← get_super dev;
      match sb with
      | None => mret (- ENOENT)
      | Some sb =>
          y ← super_at sb;
          match s_imount y with
          | None => mret (- ENOENT)
          | Some im =>
              m ← inode_at im;
              when (i_mount m =? 0) (printk "Mounted inode has i_mount=0\n") ;;
              s ← get;
              if existsb (λ x, (i_dev x =? dev) && truth (i_count x)) (inode_table (k_fs s))
              then mret (- EBUSY) else
              upd_inode im (λ x, x <| i_mount := 0 |>) ;;
              iput (Some im) ;;
              upd_super sb (λ y, y <| s_imount := None |>) ;;
              y ← super_at sb;
              iput (s_isup y) ;;
              upd_super sb (λ y, y <| s_isup := None |>) ;;
              put_super dev ;;
              sync_dev dev ;;
              mret 0
          end
      end
  end.

Definition sys_mount (dev_name dir_name rw_flag : Z) : M kernel Z :=
  dev_i ← namei dev_name;
  match dev_i with
  | None => mret (- ENOENT)
  | Some dev_i =>
      x ← inode_at dev_i;
      let dev := zone x 0 in
      if negb (S_ISBLK (i_mode x)) then iput (Some dev_i) ;; mret (- EPERM) else
      iput (Some dev_i) ;;
      dir_i ← namei dir_name;
      match dir_i with
      | None => mret (- ENOENT)
      | Some dir_i =>
          d ← inode_at dir_i;
          if negb (i_count d =? 1) || (i_num d =? ROOT_INO) then iput (Some dir_i) ;; mret (- EBUSY) else
          if negb (S_ISDIR (i_mode d)) then iput (Some dir_i) ;; mret (- EPERM) else
          sb ← read_super dev;
          match sb with
          | None => iput (Some dir_i) ;; mret (- EBUSY)
          | Some sb =>
              y ← super_at sb;
              d ← inode_at dir_i;
              match s_imount y with
              | Some _ => iput (Some dir_i) ;; mret (- EBUSY)
              | None =>
                  if truth (i_mount d) then iput (Some dir_i) ;; mret (- EPERM) else
                  upd_super sb (λ y, y <| s_imount := Some dir_i |>) ;;
                  upd_inode dir_i (λ x, x <| i_mount := 1 |> <| i_dirt := 1 |>) ;;
                  mret 0
              end
          end
      end
  end.
End Namei.
