(* ===== verification/NameiProofs.v ===== *)
(** * Permissions, directory entries and path names *)

From stdpp Require Import base option list gmap.
From Stdlib Require Import ZArith Lia.
From S2P Require Import Prelude Types Memory Sched Kernel KernelFacts Blk Buffer BlockFacts Inode FileDev UserFacts Namei.
Local Open Scope Z_scope.

(** ** permission *)

(** Which of the three groups of mode bits applies: owner, group, others. *)
Definition class_shift (x : m_inode) (t : task_struct) : Z :=
  if euid t =? i_uid x then 6 else if egid t =? i_gid x then 3 else 0.
(** Every right asked for is granted by the class. *)
Definition grants (x : m_inode) (t : task_struct) (mask : Z) : Prop :=
  ∀ b, 0 ≤ b < 3 → Z.testbit mask b = true → Z.testbit (i_mode x) (class_shift x t + b) = true.

Lemma land_mask_eq m mask :
  0 ≤ mask < 8 → (Z.land (Z.land m mask) 7 = mask ↔ ∀ b, 0 ≤ b < 3 → Z.testbit mask b = true → Z.testbit m b = true).
Proof.
  intros Hm. split.
  - intros H b Hb Ht. rewrite <-H, !Z.land_spec in Ht.
    by apply andb_true_iff in Ht as [[? _]%andb_true_iff _].
  - intros H. apply Z.bits_inj'. intros n Hn. rewrite !Z.land_spec.
    destruct (decide (n < 3)) as [Hlt|Hge].
    + replace (Z.testbit 7 n) with true; [|by assert (n = 0 ∨ n = 1 ∨ n = 2) as [->|[->| ->]] by lia].
      rewrite andb_true_r. destruct (Z.testbit mask n) eqn:Ht; [|by rewrite andb_false_r].
      by rewrite H.
    + assert (Hz : ∀ v, 0 ≤ v < 8 → Z.testbit v n = false).
      { intros v Hv. destruct (decide (v = 0)) as [->|]; [apply Z.testbit_0_l|].
        apply Z.bits_above_log2; [lia|]. apply Z.log2_lt_pow2; [lia|].
        pose proof (Z.pow_le_mono_r 2 3 n). lia. }
      rewrite (Z.bits_above_log2 7) by (simpl; lia). rewrite andb_false_r. symmetry. by apply Hz.
Qed.

(** C32: permission() on the current task.  A deleted file of a real device is
    refused to everybody, the super-user included; otherwise the super-user
    has every right, and anybody else exactly when each right asked for is in
    the owner's bits for the owner, in the group's bits for a member of the
    group who is not the owner, and in the others' bits for the rest.
    Nothing is changed. *)
Theorem permission_correct (s : kernel) (t : task_struct) (i : nat) (x : m_inode) (mask : Z)
    (Ht : cur_is s t) (Hx : inode_table (k_fs s) !! i = Some x) (Hmask : 0 ≤ mask < 8) :
  ∃ ok, permission i mask s = Ok ok s ∧
    (ok = true ↔ ¬ (i_dev x ≠ 0 ∧ i_nlinks x = 0) ∧ (euid t = 0 ∨ grants x t mask)).
Proof.
  unfold permission. rewrite (bind_Ok _ _ _ _ _ (inode_at_run s i x Hx)). run_me.
  eexists. split; [done|]. unfold permitted.
  destruct (truth (i_dev x) && negb (truth (i_nlinks x))) eqn:Hdel.
  { apply andb_true_iff in Hdel as [H1%truth_true H2%negb_true_iff%truth_false]. naive_solver. }
  assert (Hdel' : ¬ (i_dev x ≠ 0 ∧ i_nlinks x = 0)).
  { intros [H1%truth_true H2%truth_false]. by rewrite H1, H2 in Hdel. }
  set (mode := if _ =? _ then _ else _).
  assert (Hmode : ∀ b, 0 ≤ b → Z.testbit mode b = Z.testbit (i_mode x) (class_shift x t + b)).
  { intros b Hb. unfold mode, class_shift. repeat case_match; rewrite ?Z.shiftr_spec by done; f_equal; lia. }
  rewrite orb_true_iff, !Z.eqb_eq, land_mask_eq by done. unfold grants.
  split; [|intros [_ [?|H]]]; [|by right|left].
  - intros [H|H]; (split; [done|]); [right|by left]. intros b Hb Hm. rewrite <-Hmode by lia. by apply H.
  - intros b Hb Hm. rewrite Hmode by lia. by apply H.
Qed.

(** ** Directory entries *)

(** The name in an entry: up to its first zero. *)
Fixpoint c_string (l : list Z) : list Z :=
  match l with
  | [] => []
  | x :: l => if x =? 0 then [] else x :: c_string l
  end.

Lemma c_string_eq (l n : list Z) :
  Forall (λ x, x ≠ 0) n → (length n ≤ length l)%nat →
  (c_string l = n ↔ take (length n) l = n ∧ (length n = length l ∨ l !! length n = Some 0)).
Proof.
  intros Hn. revert l. induction Hn as [|x n Hx Hn IH]; intros [|y l] Hl; simpl in *; try lia.
  - naive_solver.
  - split; [case_match eqn:E; [|done]; apply Z.eqb_eq in E as ->; by split; [|right]|].
    intros [_ [?|[= ->]]]; done.
  - destruct (Z.eqb_spec y 0) as [->|Hy]; [split; [done|intros [[= <-] _]; done]|].
    specialize (IH l ltac:(lia)). split.
    + intros [= -> Hc]. apply IH in Hc as [H1 H2]. split; [by f_equal|]. destruct H2; [left; lia|by right].
    + intros [[= -> H1] H2]. f_equal. apply IH. split; [done|]. destruct H2; [left; lia|by right].
Qed.

Lemma name_matches_spec (n de : list Z) (ino : Z) :
  Forall (λ x, x ≠ 0) n → length de = NAME_LEN →
  (name_matches (Z.of_nat (length n)) n ino de = true ↔ ino ≠ 0 ∧ (length n ≤ NAME_LEN)%nat ∧ c_string de = n).
Proof.
  intros Hn Hde. unfold name_matches.
  destruct (Z.eqb_spec ino 0); simpl; [naive_solver|].
  destruct (Z.ltb_spec (Z.of_nat NAME_LEN) (Z.of_nat (length n))); [split; [done|lia]|].
  rewrite Nat2Z.id, (take_ge n) by done.
  rewrite (c_string_eq de n Hn) by lia. rewrite Hde. unfold byte_at.
  destruct (Z.ltb_spec (Z.of_nat (length n)) (Z.of_nat NAME_LEN)).
  - destruct (lookup_lt_is_Some_2 de (length n)) as [y Hy]; [lia|]. rewrite Hy. simpl.
    destruct (truth y) eqn:Ey.
    + apply truth_true in Ey. split; [done|]. intros (_ & _ & _ & [?|[= ?]]); [lia|done].
    + apply truth_false in Ey as ->. rewrite bool_decide_eq_true. split; [|naive_solver].
      intros ?. split_and!; [done|lia|done|by right].
  - simpl. rewrite bool_decide_eq_true. split; [|naive_solver].
    intros ?. split_and!; [done|lia|done|left; lia].
Qed.

Lemma length_de_name l k : length l = 1024%nat → (k < 64)%nat → length (de_name l k) = NAME_LEN.
Proof. intros Hl Hk. apply length_slice. unfold NAME_LEN. lia. Qed.

(** match() compares a name of user memory with a directory entry.  It is
    true exactly when the entry is in use, the name is not longer than
    NAME_LEN, and the name stored in the entry (up to its first zero, or all
    NAME_LEN bytes) is that name; in particular a proper prefix does not
    match. *)
Theorem match_correct (s : kernel) (b k : nat) (y : buffer_head) (p : Z) (n rest : list Z)
    (Hb : buf_is s b y) (Hlen : length (b_data y) = 1024%nat) (Hk : (k < 64)%nat)
    (Hn : user_has s p (n ++ rest)) (Hnz : Forall (λ x, x ≠ 0) n) :
  ∃ m, match_ (Z.of_nat (length n)) p (b, k) s = Ok m s ∧
    (m = true ↔ de_inode (b_data y) k ≠ 0 ∧ (length n ≤ NAME_LEN)%nat ∧ c_string (de_name (b_data y) k) = n).
Proof.
  unfold match_. simpl. rewrite (bind_Ok _ _ _ _ _ (bh_run s b y Hb)).
  rewrite Nat2Z.id, (bind_Ok _ _ _ _ _ (get_fs_bytes_run s p n rest Hn)).
  eexists. split; [done|]. apply name_matches_spec; [done|]. by apply length_de_name.
Qed.

Lemma get16_slice l k : get16 l k = get16 (slice k 2 l) 0.
Proof. unfold get16, byte_at. rewrite !lookup_slice, !decide_True by lia. repeat f_equal; lia. Qed.
Lemma de_name_other l k k' src off :
  (off + length src ≤ 16)%nat → k ≠ k' → (16 * k + 16 ≤ length l)%nat →
  de_name (splice (16 * k + off) src l) k' = de_name l k'.
Proof. intros Hs Hk Hl. apply slice_splice_other; unfold NAME_LEN; lia. Qed.
Lemma de_inode_other l k k' src off :
  (off + length src ≤ 16)%nat → k ≠ k' → (16 * k + 16 ≤ length l)%nat →
  de_inode (splice (16 * k + off) src l) k' = de_inode l k'.
Proof.
  intros Hs Hk Hl. unfold de_inode. rewrite get16_slice, slice_splice_other by lia. symmetry. apply get16_slice.
Qed.
Lemma length_put16 v : length (put16 v) = 2%nat. Proof. done. Qed.

(** The entry that add_entry and its caller write is the one match() looks
    for.  After the name of the entry has been filled in from user memory and
    its inode number stored, the entry carries that number, the same name
    matches it, the buffer is dirty, and every other entry of the block is as
    before. *)
Theorem new_entry_found (s : kernel) (b k : nat) (y : buffer_head) (p num : Z) (n rest : list Z)
    (Hb : buf_is s b y) (Hlen : length (b_data y) = 1024%nat) (Hk : (k < 64)%nat)
    (Hn : user_has s p (n ++ rest)) (Hnz : Forall (λ x, x ≠ 0) n) (Hshort : (length n ≤ NAME_LEN)%nat)
    (Hnum : 0 < num < 65536) :
  ∃ s' y', (fill_name (b, k) p (length n) ;; set_de_inode (b, k) num) s = Ok tt s' ∧
    buf_is s' b y' ∧ b_dirt y' = 1 ∧ length (b_data y') = 1024%nat ∧
    de_inode (b_data y') k = num ∧
    match_ (Z.of_nat (length n)) p (b, k) s' = Ok true s' ∧
    ∀ k', (k' < 64)%nat → k' ≠ k →
      de_inode (b_data y') k' = de_inode (b_data y) k' ∧ de_name (b_data y') k' = de_name (b_data y) k'.
Proof.
  set (pad := n ++ replicate (NAME_LEN - length n) 0).
  assert (Hpad : length pad = NAME_LEN) by (unfold pad; rewrite length_app, length_replicate; lia).
  set (d1 := splice (16 * k + 2) pad (b_data y)). set (d2 := splice (16 * k) (put16 num) d1).
  assert (Hd1 : length d1 = 1024%nat) by (unfold d1; rewrite length_splice; rewrite ?Hpad; unfold NAME_LEN; lia).
  assert (Hd2 : length d2 = 1024%nat) by (unfold d2; rewrite length_splice; rewrite ?length_put16; lia).
  set (y1 := y <| b_data := d1 |> <| b_dirt := 1 |>). set (y2 := y1 <| b_data := d2 |>).
  assert (Hname : de_name d2 k = pad).
  { unfold d2. unfold de_name. rewrite slice_splice_other by (rewrite ?length_put16; unfold NAME_LEN; lia).
    rewrite <-Hpad at 1. apply slice_splice_same. rewrite Hpad. unfold NAME_LEN. lia. }
  assert (Hino : de_inode d2 k = num).
  { unfold de_inode. rewrite get16_slice. unfold d2.
    change 2%nat with (length (put16 num)).
    rewrite slice_splice_same by (rewrite length_put16; lia). apply get16_put16. lia. }
  exists (set_buf b y2 s), y2. split.
  { unfold fill_name, set_de_inode. simpl fst. simpl snd.
    erewrite (bind_Ok _ _ s tt (set_buf b y1 s)).
    2: { rewrite (bind_Ok _ _ _ _ _ (get_fs_bytes_run s p n rest Hn)).
         by rewrite (set_bh_run _ _ _ _ Hb). }
    rewrite (set_bh_run _ _ _ _ (buf_is_set s b y y1 Hb)). by rewrite set_buf_set_buf. }
  pose proof (buf_is_set s b y y2 Hb) as Hb2.
  split; [done|]. split; [done|]. split; [done|]. split; [done|]. split.
  - destruct (match_correct (set_buf b y2 s) b k y2 p n rest Hb2 Hd2 Hk Hn Hnz) as (m & Hm & Hiff).
    rewrite Hm. f_equal. apply Hiff. change (b_data y2) with d2. rewrite Hino, Hname.
    split; [lia|]. split; [done|]. apply c_string_eq; [done|rewrite Hpad; done|].
    unfold pad. rewrite take_app_length. split; [done|].
    rewrite length_app, length_replicate. destruct (decide (length n = NAME_LEN)); [left; lia|right].
    rewrite lookup_app_r, Nat.sub_diag by done. apply lookup_replicate_2. lia.
  - intros k' Hk' Hne. change (b_data y2) with d2. unfold d2.
    replace (16 * k)%nat with (16 * k + 0)%nat at 1 2 by lia.
    rewrite de_inode_other, de_name_other by (rewrite ?length_put16; lia). unfold d1.
    rewrite de_inode_other, de_name_other by (rewrite ?Hpad; unfold NAME_LEN; lia). done.
Qed.

(** ** Path names *)

(** The last component of a path name: what is behind its last slash. *)
Definition last_component (l : list Z) (d : nat) : Prop :=
  (d ≤ length l)%nat ∧ Forall (λ x, x ≠ 47) (drop d l) ∧ (d = 0%nat ∨ l !! (d - 1)%nat = Some 47).

Lemma scan_base_run fuel s p base l rest :
  user_has s p (l ++ 0 :: rest) → Forall (λ x, x ≠ 0) l → (length l < fuel)%nat →
  ∃ base', scan_base fuel p base s = Ok (p + Z.of_nat (length l) + 1, base') s ∧
    ((base' = base ∧ Forall (λ x, x ≠ 47) l) ∨
     ∃ d, base' = p + Z.of_nat d ∧ (0 < d)%nat ∧ last_component l d).
Proof.
  intros Hu Hnz. revert p base fuel Hu. induction Hnz as [|c l Hc Hnz IH]; intros p base [|fuel] Hu Hf;
    simpl in *; try lia; rewrite (bind_Ok _ _ _ _ _ (get_fs_byte_run _ _ _ _ Hu)).
  - simpl. exists base. rewrite Z.add_0_r. split; [done|]. left. by split.
  - destruct (Z.eqb_spec c 0); [done|]. apply user_has_cons in Hu as [_ Hu].
    destruct (IH (p + 1) (if c =? 47 then p + 1 else base) fuel Hu ltac:(lia)) as (base' & Hrun & Hb).
    exists base'. rewrite Hrun. split; [do 2 f_equal; lia|].
    destruct Hb as [[-> Hl]|(d & -> & Hd & Hdl & Hdr & Hslash)].
    + destruct (Z.eqb_spec c 47) as [->|]; [right|left; split; [done|by constructor]].
      exists 1%nat. split; [lia|]. split; [lia|]. split; [simpl; lia|]. split; [done|by right].
    + right. exists (S d). split; [lia|]. split; [lia|]. split; [simpl; lia|]. split; [done|].
      right. simpl. rewrite Nat.sub_0_r. destruct Hslash as [->|Hs]; [lia|].
      by replace d with (S (d - 1)) at 1 by lia.
Qed.

(** C35: dir_namei returns the directory that get_dir found with the last
    component of the path name: its address and length, where the component
    holds no slash and begins the name or follows a slash.  In particular the
    name "usr/" has the empty last component. *)
Theorem dir_namei_correct {E : Env} (s s' : kernel) (p : Z) (dir : nat) (l rest : list Z)
    (Hdir : get_dir p s = Ok (Some dir) s')
    (Hu : user_has s' p (l ++ 0 :: rest)) (Hnz : Forall (λ x, x ≠ 0) l)
    (Hlen : (length l < path_fuel)%nat) :
  ∃ d, dir_namei p s = Ok (Some (dir, Z.of_nat (length (drop d l)), p + Z.of_nat d)) s' ∧ last_component l d.
Proof.
  unfold dir_namei. rewrite (bind_Ok _ _ _ _ _ Hdir).
  destruct (scan_base_run path_fuel s' p p l rest Hu Hnz Hlen) as (base & Hrun & Hb).
  rewrite (bind_Ok _ _ _ _ _ Hrun).
  assert (∃ d, base = p + Z.of_nat d ∧ last_component l d) as (d & -> & Hd).
  { destruct Hb as [[-> Hl]|(d & -> & _ & Hd)]; [|by exists d].
    exists 0%nat. split; [lia|]. split; [lia|]. split; [done|by left]. }
  exists d. split; [|done]. destruct Hd as [Hd _]. rewrite length_drop.
  change ((mret (Some (dir, p + Z.of_nat (length l) + 1 - (p + Z.of_nat d) - 1, p + Z.of_nat d)) : M kernel _) s' = Ok (Some (dir, Z.of_nat (length l - d), p + Z.of_nat d)) s').
  unfold mret, M_ret. do 4 f_equal. lia.
Qed.

(** the scan of get_dir over one component of a path name stops at the
    first slash or at the end: it returns that character, the address behind
    it and the length of the component. *)
Theorem scan_name_correct (s : kernel) (p : Z) (l rest : list Z) (c : Z)
    (Hu : user_has s p (l ++ c :: rest)) (Hl : Forall (λ x, x ≠ 0 ∧ x ≠ 47) l)
    (Hc : c = 0 ∨ c = 47) (Hlen : (length l < path_fuel)%nat) :
  scan_name path_fuel p 0 s = Ok (c, p + Z.of_nat (length l) + 1, Z.of_nat (length l)) s.
Proof.
  cut (∀ fuel n p, user_has s p (l ++ c :: rest) → (length l < fuel)%nat →
    scan_name fuel p n s = Ok (c, p + Z.of_nat (length l) + 1, n + Z.of_nat (length l)) s).
  { intros H. by rewrite (H path_fuel 0 p). }
  clear p Hu Hlen. induction Hl as [|x l [Hx0 Hx] _ IH]; intros [|fuel] n p Hu Hf; simpl in *; try lia;
    rewrite (bind_Ok _ _ _ _ _ (get_fs_byte_run _ _ _ _ Hu)).
  - assert (truth c && negb (c =? 47) = false) as -> by by destruct Hc as [->| ->].
    rewrite !Z.add_0_r. done.
  - assert (truth x && negb (x =? 47) = true) as ->.
    { apply andb_true_iff. split; [by apply truth_true|]. by apply negb_true_iff, Z.eqb_neq. }
    apply user_has_cons in Hu as [_ Hu]. rewrite (IH fuel (n + 1) (p + 1) Hu) by lia.
    do 2 f_equal; [f_equal|]; lia.
Qed.
