(* ===== verification/Open.v ===== *)
(** * fs/open.c, fs/read_write.c, fs/fcntl.c, fs/stat.c and fs/ioctl.c

    The system calls on file names and descriptors. *)

From stdpp Require Import base option list gmap strings.
From Stdlib Require Import ZArith.
From S2P Require Import Prelude Types Memory Sched Kernel Blk Buffer Inode FileDev Tty Namei.
Local Open Scope Z_scope.

Definition O_NONBLOCK : Z := 0x800.   (* 04000 *)
Definition F_DUPFD : Z := 0.
Definition F_GETFD : Z := 1.
Definition F_SETFD : Z := 2.
Definition F_GETFL : Z := 3.
Definition F_SETFL : Z := 4.

(** [!(file = current->filp[fd])] with [fd] unsigned: the bound and the table. *)
Definition fd_file (fd : Z) : M kernel (option nat) :=
  t ← me;
  if Z.of_nat NR_OPEN <=? u32 fd then mret None else mret (mjoin (filp t !! Z.to_nat (u32 fd))).
Definition clear_cloexec (fd : Z) : M kernel unit :=
  upd_me (λ t, t <| close_on_exec ::= λ c, Z.land c (Z.lnot (Z.shiftl 1 fd)) |>).

(** sys_access once the inode is known. *)
Definition access_allowed (x : m_inode) (uid gid mode : Z) : bool :=
  let i_mode := Z.land (i_mode x) 0x1ff in
  let res := if uid =? i_uid x then Z.shiftr i_mode 6
             else if gid =? i_gid x then Z.shiftr i_mode 6 else i_mode in
  (Z.land (Z.land res 7) mode =? mode) ||
  (uid =? 0) && (negb (has mode 1) || has i_mode 0x49).

Section Open.
Context {E : Env}.

(** *** open.c *)

Definition sys_ustat (dev ubuf : Z) : M kernel Z := mret (- ENOSYS).

(** The common start: the inode of a path name, or an error. *)
Definition with_inode (filename err : Z) (f : nat → M kernel Z) : M kernel Z :=
  i ← namei filename;
  match i with None => mret (- err) | Some i => f i end.

Definition sys_utime (filename times : Z) : M kernel Z :=
  with_inode filename ENOENT (λ inode,
    '(actime, modtime) ← (if truth times then
        a ← get_fs_long times; b ← get_fs_long (times + 4); mret (a, b)
      else t ← CURRENT_TIME; mret (t, t));
    upd_inode inode (λ x, x <| i_atime := u32 actime |> <| i_mtime := u32 modtime |> <| i_dirt := 1 |>) ;;
    iput (Some inode) ;;
    mret 0).

(** Between [iput] and the tests only the inode's slot is read again. *)
Definition sys_access (filename mode : Z) : M kernel Z :=
  let mode := Z.land mode 7 in
  with_inode filename EACCES (λ inode,
    x ← inode_at inode;
    let mode_bits := i_mode x in
    iput (Some inode) ;;
    x ← inode_at inode;
    t ← me;
    mret (if access_allowed (x <| i_mode := mode_bits |>) (uid t) (gid t) mode then 0 else - EACCES)).

Definition change_dir (get : task_struct → option nat) (put : option nat → task_struct → task_struct)
    (filename : Z) : M kernel Z :=
  with_inode filename ENOENT (λ inode,
    x ← inode_at inode;
    if negb (S_ISDIR (i_mode x)) then iput (Some inode) ;; mret (- ENOTDIR) else
    t ← me;
    iput (get t) ;;
    upd_me (put (Some inode)) ;;
    mret 0).
Definition sys_chdir : Z → M kernel Z := change_dir pwd (λ i t, t <| pwd := i |>).
Definition sys_chroot : Z → M kernel Z := change_dir root (λ i t, t <| root := i |>).

Definition sys_chmod (filename mode : Z) : M kernel Z :=
  with_inode filename ENOENT (λ inode,
    x ← inode_at inode;
    t ← me;
    su ← suser;
    if negb (euid t =? i_uid x) && negb su then iput (Some inode) ;; mret (- EACCES) else
    upd_inode inode (λ x, x <| i_mode ::= λ m, u16 (Z.lor (Z.land mode 0xfff) (Z.land m (Z.lnot 0xfff))) |>
                            <| i_dirt := 1 |>) ;;
    iput (Some inode) ;;
    mret 0).

Definition sys_chown (filename uid gid : Z) : M kernel Z :=
  with_inode filename ENOENT (λ inode,
    su ← suser;
    if negb su then iput (Some inode) ;; mret (- EACCES) else
    upd_inode inode (λ x, x <| i_uid := u16 uid |> <| i_gid := u8 gid |> <| i_dirt := 1 |>) ;;
    iput (Some inode) ;;
    mret 0).

(** The special treatment of terminals: false when the open is refused. *)
Definition open_chr (x : m_inode) : M kernel bool :=
  t ← me;
  if MAJOR (zone x 0) =? 4 then
    when (truth (leader t) && (tty t <? 0)) (
      upd_me (λ t, t <| tty := MINOR (zone x 0) |>) ;;
      upd_tty (Z.to_nat (MINOR (zone x 0))) (λ y, y <| t_pgrp := pgrp t |>)) ;;
    mret true
  else mret (negb ((MAJOR (zone x 0) =? 5) && (tty t <? 0))).

Definition sys_open (filename flag mode : Z) : M kernel Z :=
  t ← me;
  let mode := Z.land mode (Z.land 0x1ff (Z.lnot (umask t))) in
  match free_fd_from (filp t) 0 with
  | None => mret (- EINVAL)
  | Some fd =>
  clear_cloexec (Z.of_nat fd) ;;
  s ← get;
  match free_file (file_table (k_fs s)) 0 with
  | None => mret (- EINVAL)
  | Some f =>
  upd_me (set_filp fd (Some f)) ;;
  upd_file f (λ x, x <| f_count ::= λ c, u16 (c + 1) |>) ;;
  '(i, inode) ← open_namei filename flag mode;
  if i <? 0 then upd_me (set_filp fd None) ;; drop_file f ;; mret i else
  inode ← deref inode;
  x ← inode_at inode;
  ok ← (if S_ISCHR (i_mode x) then open_chr x else mret true);
  if negb ok then iput (Some inode) ;; upd_me (set_filp fd None) ;; drop_file f ;; mret (- EPERM) else
  x ← inode_at inode;
  when (S_ISBLK (i_mode x)) (check_disk_change (zone x 0)) ;;
  x ← inode_at inode;
  upd_file f (λ y, y <| f_mode := i_mode x |> <| f_flags := u16 flag |> <| f_count := 1 |>
                     <| f_inode := Some inode |> <| f_pos := 0 |>) ;;
  mret (Z.of_nat fd)
  end end.

Definition sys_creat (pathname mode : Z) : M kernel Z := sys_open pathname (Z.lor O_CREAT O_TRUNC) mode.

Definition sys_close (fd : Z) : M kernel Z :=
  if Z.of_nat NR_OPEN <=? u32 fd then mret (- EINVAL) else
  clear_cloexec (u32 fd) ;;
  f ← fd_file fd;
  match f with
  | None => mret (- EINVAL)
  | Some f =>
      upd_me (set_filp (Z.to_nat (u32 fd)) None) ;;
      x ← file_at f;
      (if f_count x =? 0 then panic "Close: file count is 0" else mret tt) ;;
      upd_file f (λ x, x <| f_count ::= λ c, u16 (c - 1) |>) ;;
      x ← file_at f;
      if truth (f_count x) then mret 0 else
      iput (f_inode x) ;;
      mret 0
  end.

(** *** fcntl.c *)

Definition dupfd (fd arg : Z) : M kernel Z :=
  f ← fd_file fd;
  match f with
  | None => mret (- EBADF)
  | Some f =>
      if Z.of_nat NR_OPEN <=? u32 arg then mret (- EINVAL) else
      t ← me;
      match free_fd_from (filp t) (Z.to_nat (u32 arg)) with
      | None => mret (- EMFILE)
      | Some k =>
          clear_cloexec (Z.of_nat k) ;;
          upd_me (set_filp k (Some f)) ;;
          upd_file f (λ x, x <| f_count ::= λ c, u16 (c + 1) |>) ;;
          mret (Z.of_nat k)
      end
  end.
Definition sys_dup2 (oldfd newfd : Z) : M kernel Z := sys_close newfd ;; dupfd oldfd newfd.
Definition sys_dup (fildes : Z) : M kernel Z := dupfd fildes 0.

Definition sys_fcntl (fd cmd arg : Z) : M kernel Z :=
  f ← fd_file fd;
  match f with
  | None => mret (- EBADF)
  | Some f =>
      if cmd =? F_DUPFD then dupfd fd arg else
      if cmd =? F_GETFD then t ← me; mret (Z.land (Z.shiftr (close_on_exec t) (u32 fd)) 1) else
      if cmd =? F_SETFD then
        (if has arg 1 then upd_me (λ t, t <| close_on_exec ::= λ c, Z.lor c (Z.shiftl 1 (u32 fd)) |>)
         else clear_cloexec (u32 fd)) ;;
        mret 0 else
      if cmd =? F_GETFL then x ← file_at f; mret (f_flags x) else
      if cmd =? F_SETFL then
        let m := Z.lor O_APPEND O_NONBLOCK in
        upd_file f (λ x, x <| f_flags ::= λ c, u16 (Z.lor (Z.land c (Z.lnot m)) (Z.land arg m)) |>) ;;
        mret 0 else
      mret (-1)
  end.

(** *** read_write.c *)

Definition inode_of (f : nat) : M kernel (option nat) := x ← file_at f; mret (f_inode x).
Definition set_pos (f : nat) (v : Z) : M kernel Z := upd_file f (λ x, x <| f_pos := v |>) ;; mret v.

Definition sys_lseek (fd offset origin : Z) : M kernel Z :=
  f ← fd_file fd;
  match f with None => mret (- EBADF) | Some f =>
  y ← file_at f;
  match f_inode y with None => mret (- EBADF) | Some inode =>
  x ← inode_at inode;
  if negb (IS_SEEKABLE (MAJOR (i_dev x))) then mret (- EBADF) else
  if truth (i_pipe x) then mret (- ESPIPE) else
  if origin =? 0 then if offset <? 0 then mret (- EINVAL) else set_pos f offset else
  if origin =? 1 then
    let v := s32 (f_pos y + offset) in if v <? 0 then mret (- EINVAL) else set_pos f v else
  if origin =? 2 then
    let v := s32 (i_size x + offset) in if v <? 0 then mret (- EINVAL) else set_pos f v else
  mret (- EINVAL)
  end end.

Definition sys_read (fd buf count : Z) : M kernel Z :=
  f ← fd_file fd;
  if count <? 0 then mret (- EINVAL) else
  match f with None => mret (- EINVAL) | Some f =>
  if count =? 0 then mret 0 else
  verify_area buf count ;;
  y ← file_at f;
  inode ← deref (f_inode y);
  x ← inode_at inode;
  if truth (i_pipe x) then
    if has (f_mode y) 1 then read_pipe inode buf count else mret (- EIO) else
  if S_ISCHR (i_mode x) then rw_char READ (zone x 0) buf count (f_pos_of f) else
  if S_ISBLK (i_mode x) then block_read (zone x 0) (f_pos_of f) buf count else
  if S_ISDIR (i_mode x) || S_ISREG (i_mode x) then
    let count := if i_size x <? u32 (count + f_pos y) then s32 (i_size x - f_pos y) else count in
    if count <=? 0 then mret 0 else file_read inode f buf count else
  printk "(Read)inode->i_mode=%06o" ;;
  mret (- EINVAL)
  end.

Definition sys_write (fd buf count : Z) : M kernel Z :=
  f ← fd_file fd;
  if count <? 0 then mret (- EINVAL) else
  match f with None => mret (- EINVAL) | Some f =>
  if count =? 0 then mret 0 else
  y ← file_at f;
  inode ← deref (f_inode y);
  x ← inode_at inode;
  if truth (i_pipe x) then
    if has (f_mode y) 2 then write_pipe inode buf count else mret (- EIO) else
  if S_ISCHR (i_mode x) then rw_char WRITE (zone x 0) buf count (f_pos_of f) else
  if S_ISBLK (i_mode x) then block_write (zone x 0) (f_pos_of f) buf count else
  if S_ISREG (i_mode x) then file_write inode f buf count else
  printk "(Write)inode->i_mode=%06o" ;;
  mret (- EINVAL)
  end.

(** *** stat.c *)

(** The bytes of a [struct stat]: the shorts are followed by the padding that
    aligns the next long, of which the C code copies what is on its stack;
    [junk] are those bytes. *)
Definition SIZEOF_STAT : Z := 32.
Definition stat_bytes (junk : list Z) (x : m_inode) : list Z :=
  put16 (i_dev x) ++ put16 (i_num x) ++ put16 (i_mode x) ++ [u8 (i_nlinks x); byte_at junk 0] ++
  put16 (i_uid x) ++ [u8 (i_gid x); byte_at junk 1] ++
  put16 (zone x 0) ++ [byte_at junk 2; byte_at junk 3] ++
  put32 (i_size x) ++ put32 (i_atime x) ++ put32 (i_mtime x) ++ put32 (i_ctime x).

Definition cp_stat (junk : list Z) (inode : nat) (statbuf : Z) : M kernel unit :=
  verify_area statbuf SIZEOF_STAT ;;
  x ← inode_at inode;
  put_fs_bytes (stat_bytes junk x) statbuf.

Definition sys_stat (junk : list Z) (filename statbuf : Z) : M kernel Z :=
  with_inode filename ENOENT (λ inode,
    cp_stat junk inode statbuf ;;
    iput (Some inode) ;;
    mret 0).

Definition sys_fstat (junk : list Z) (fd statbuf : Z) : M kernel Z :=
  f ← fd_file fd;
  match f with None => mret (- EBADF) | Some f =>
  i ← inode_of f;
  match i with None => mret (- EBADF) | Some inode =>
  cp_stat junk inode statbuf ;; mret 0
  end end.

(** *** ioctl.c: ioctl_table has tty_ioctl at 4 and 5, NULL elsewhere, 8 entries *)
Definition sys_ioctl (fd cmd arg : Z) : M kernel Z :=
  f ← fd_file fd;
  match f with None => mret (- EBADF) | Some f =>
  i ← inode_of f;
  inode ← deref i;
  x ← inode_at inode;
  if negb (S_ISCHR (i_mode x)) && negb (S_ISBLK (i_mode x)) then mret (- EINVAL) else
  let dev := zone x 0 in
  if 8 <=? MAJOR dev then mret (- ENODEV) else
  if (MAJOR dev =? 4) || (MAJOR dev =? 5) then tty_ioctl dev cmd arg else mret (- ENOTTY)
  end.
End Open.
