(* ===== verification/OpenProofs.v ===== *)
(** * Descriptors and the reference counts of open files *)

From stdpp Require Import base option list gmap.
From Stdlib Require Import ZArith Lia.
From S2P Require Import Prelude Types Memory Sched Kernel KernelFacts Buffer Inode FileDev Open.
Local Open Scope Z_scope.

(** How many descriptors of a task refer to file [f], and of all tasks. *)
Definition refs_in (f : nat) (l : list (option nat)) : nat := length (filter (λ x, x = Some f) l).
Definition file_refs (f : nat) (m : gmap Z task_struct) : nat :=
  map_fold (λ _ t n, refs_in f (filp t) + n)%nat 0%nat m.

(** f_count is exact: it is the number of descriptors that refer to the file. *)
Definition counts_exact (s : kernel) : Prop :=
  ∀ f x, file_table (k_fs s) !! f = Some x → f_count x = Z.of_nat (file_refs f (tasks (k_sched s))).
(** Every descriptor of the task refers to an entry of file_table. *)
Definition filp_ok (s : kernel) (t : task_struct) : Prop :=
  length (filp t) = NR_OPEN ∧
  ∀ fd f, filp t !! fd = Some (Some f) → is_Some (file_table (k_fs s) !! f).

Lemma refs_in_insert f fd x y l :
  l !! fd = Some x →
  (refs_in f (<[fd := y]> l) + (if decide (x = Some f) then 1 else 0) =
   refs_in f l + (if decide (y = Some f) then 1 else 0))%nat.
Proof.
  unfold refs_in. revert fd. induction l as [|z l IH]; intros [|fd] Hx; simplify_eq/=.
  - rewrite !filter_cons. repeat case_decide; simpl; lia.
  - specialize (IH fd Hx). rewrite !filter_cons. repeat case_decide; simpl in *; lia.
Qed.
Lemma file_refs_insert f p t t' m :
  m !! p = Some t →
  (file_refs f (<[p := t']> m) + refs_in f (filp t) = file_refs f m + refs_in f (filp t'))%nat.
Proof.
  intros Hp. unfold file_refs.
  rewrite <-(insert_delete_id m p t) at 2 by done. rewrite <-insert_delete_eq.
  rewrite !map_fold_insert_L by (try (intros; lia); apply lookup_delete_eq). lia.
Qed.

(** ** Running the accessors *)

Lemma fd_file_run s t fd :
  cur_is s t → 0 ≤ fd < 4294967296 →
  fd_file fd s = Ok (if Z.of_nat NR_OPEN <=? fd then None else mjoin (filp t !! Z.to_nat fd)) s.
Proof.
  intros Ht Hfd. unfold fd_file. run_me. rewrite u32_small by done. by case_match.
Qed.
Lemma free_fd_from_Some l i k :
  free_fd_from l i = Some k →
  (i ≤ k)%nat ∧ l !! k = Some None ∧ ∀ j, (i ≤ j < k)%nat → ∃ f, l !! j = Some (Some f).
Proof.
  unfold free_fd_from. intros ([n x] & Hn & [= <-])%bind_Some. simpl.
  apply list_find_Some in Hn as (Hn & -> & Hmin). rewrite lookup_drop in Hn.
  split; [lia|]. split; [done|]. intros j Hj.
  destruct (lookup_lt_is_Some_2 l j) as [[f|] Hx]; [apply lookup_lt_Some in Hn; lia|by eexists|].
  exfalso. apply (Hmin (j - i)%nat None); [|lia|done].
  rewrite lookup_drop. by replace (i + (j - i))%nat with j by lia.
Qed.
Lemma free_fd_from_None l i :
  free_fd_from l i = None → ∀ j, (i ≤ j < length l)%nat → ∃ f, l !! j = Some (Some f).
Proof.
  unfold free_fd_from. intros Hn j Hj.
  destruct (list_find _ (drop i l)) as [r|] eqn:Hr; [done|]. apply list_find_None in Hr.
  destruct (lookup_lt_is_Some_2 l j) as [[f|] Hx]; [lia|by eexists|].
  exfalso. rewrite Forall_lookup in Hr. apply (Hr (j - i)%nat None); [|done].
  rewrite lookup_drop. by replace (i + (j - i))%nat with j by lia.
Qed.

(** The state after a descriptor and the count of its file have been set. *)
Definition set_file (f : nat) (x : file) (s : kernel) : kernel :=
  s <| k_fs ::= λ d, d <| file_table ::= <[f := x]> |> |>.
Lemma cur_is_set_file f x s t : cur_is (set_file f x s) t ↔ cur_is s t.
Proof. done. Qed.

(** Descriptor [fd] goes from [x] to [y], and the counts follow. *)
Definition refs_step (x y : option nat) (f : nat) (c : Z) : Z :=
  c + (if decide (y = Some f) then 1 else 0) - (if decide (x = Some f) then 1 else 0).

Lemma counts_exact_step s t fd x y f c0 t' :
  cur_is s t → filp t !! fd = Some x → filp t' = <[fd := y]> (filp t) →
  file_table (k_fs s) !! f = Some c0 →
  (x = Some f ∧ y = None ∨ x = None ∧ y = Some f) → 
  counts_exact s →
  counts_exact (set_file f (c0 <| f_count := refs_step x y f (f_count c0) |>) (set_me t' s)).
Proof.
  intros Ht Hx Hy Hf Hxy Hc g z Hg. unfold set_file, set_me in Hg |- *. simpl in Hg |- *.
  pose proof (file_refs_insert g _ _ t' _ Ht) as Hr. rewrite Hy in Hr.
  pose proof (refs_in_insert g fd x y _ Hx) as Hi.
  destruct (decide (g = f)) as [->|Hne].
  - rewrite list_lookup_insert_eq in Hg by (by eapply lookup_lt_Some). injection Hg as <-.
    unfold refs_step. simpl. rewrite (Hc f c0 Hf).
    destruct Hxy as [[-> ->]|[-> ->]]; repeat case_decide; simplify_eq; lia.
  - rewrite list_lookup_insert_ne in Hg by done. rewrite (Hc g z Hg).
    destruct Hxy as [[-> ->]|[-> ->]]; repeat case_decide; simplify_eq; lia.
Qed.

(** ** dup *)

(** dupfd (dup, dup2 and fcntl(F_DUPFD)).  A closed descriptor gives
    -EBADF, a bad start -EINVAL, no free descriptor from [arg] on -EMFILE, each
    without any effect.  Otherwise the result is the lowest free descriptor
    from [arg] on; it now refers to the same open file, its close-on-exec bit
    is clear, and the reference counts of all files are exact again if they
    were exact before. *)
Theorem dupfd_correct (s : kernel) (t : task_struct) (fd arg : Z)
    (Ht : cur_is s t) (Hok : filp_ok s t)
    (Hfd : 0 ≤ fd < 4294967296) (Harg : 0 ≤ arg < 4294967296)
    (Hmax : ∀ f x, file_table (k_fs s) !! f = Some x → 0 ≤ f_count x < 65535) :
  ∃ r s', dupfd fd arg s = Ok r s' ∧
    match (if Z.of_nat NR_OPEN <=? fd then None else mjoin (filp t !! Z.to_nat fd)) with
    | None => r = - EBADF ∧ s' = s
    | Some f =>
        (Z.of_nat NR_OPEN ≤ arg ∧ r = - EINVAL ∧ s' = s) ∨
        (arg < Z.of_nat NR_OPEN ∧ r = - EMFILE ∧ s' = s ∧
         ∀ j, (Z.to_nat arg ≤ j < NR_OPEN)%nat → ∃ g, filp t !! j = Some (Some g)) ∨
        (∃ k t', r = Z.of_nat k ∧ arg ≤ r < Z.of_nat NR_OPEN ∧ filp t !! k = Some None ∧
         (∀ j, (Z.to_nat arg ≤ j < k)%nat → ∃ g, filp t !! j = Some (Some g)) ∧
         cur_is s' t' ∧ filp t' = <[k := Some f]> (filp t) ∧
         close_on_exec t' = Z.clearbit (close_on_exec t) (Z.of_nat k) ∧
         (counts_exact s → counts_exact s'))
    end.
Proof.
  destruct Hok as [Hlen Hfiles].
  unfold dupfd. rewrite (bind_Ok _ _ _ _ _ (fd_file_run s t fd Ht Hfd)).
  destruct (if _ <=? fd then _ else _) as [f|] eqn:Hf; [|by eexists _, _].
  rewrite u32_small by done. destruct (Z.leb_spec (Z.of_nat NR_OPEN) arg).
  { eexists _, _. split; [done|]. left. done. }
  run_me. destruct (free_fd_from (filp t) (Z.to_nat arg)) as [k|] eqn:Hk.
  2: { eexists _, _. split; [done|]. right; left. repeat split; try done.
       intros j Hj. apply (free_fd_from_None _ _ Hk). lia. }
  apply free_fd_from_Some in Hk as (Hge & Hnone & Hmin).
  pose proof (lookup_lt_Some _ _ _ Hnone) as Hkl.
  assert (Hff : ∃ fd', filp t !! fd' = Some (Some f)).
  { case_match; [done|]. destruct (filp t !! Z.to_nat fd) as [y|] eqn:Hy; simplify_eq/=. by eexists. }
  destruct Hff as [fd' Hff]. destruct (Hfiles _ _ Hff) as [c0 Hc0].
  unfold clear_cloexec. do 2 run_me. rewrite set_me_set_me.
  set (t' := set_filp k (Some f) _).
  erewrite (bind_Ok _ _ _ _ _ (upd_file_run (set_me t' s) f _ c0 Hc0)).
  eexists _, _. split; [done|]. right; right. exists k, t'.
  split; [done|]. split; [lia|]. split; [done|]. split; [done|].
  split; [apply cur_is_set_me|]. split; [done|]. split.
  { unfold t'. simpl. by rewrite Z.clearbit_spec', Z.ldiff_land, Z.shiftl_1_l. }
  intros Hex. pose proof (Hmax f c0 Hc0) as Hb.
  pose proof (counts_exact_step s t k None (Some f) f c0 t' Ht Hnone eq_refl Hc0 ltac:(auto) Hex) as Hstep.
  unfold refs_step in Hstep. rewrite decide_True, decide_False in Hstep by done.
  unfold set_file in Hstep. unfold set in Hstep |- *. rewrite u16_small by lia.
  rewrite Z.sub_0_r in Hstep. exact Hstep.
Qed.

(** Closing a descriptor whose file has other references.  sys_close
    returns 0, the descriptor is free, its close-on-exec bit is clear, the open
    file stays, and the reference counts are exact again. *)
Theorem sys_close_shared (s : kernel) (t : task_struct) (fd : Z) (f : nat) (c0 : file) {E : Env}
    (Ht : cur_is s t) (Hfd : 0 ≤ fd < Z.of_nat NR_OPEN)
    (Hf : filp t !! Z.to_nat fd = Some (Some f)) (Hc0 : file_table (k_fs s) !! f = Some c0)
    (Hshared : 2 ≤ f_count c0 < 65536) :
  ∃ s' t', sys_close fd s = Ok 0 s' ∧ cur_is s' t' ∧ filp t' = <[Z.to_nat fd := None]> (filp t) ∧
    close_on_exec t' = Z.clearbit (close_on_exec t) fd ∧
    file_table (k_fs s') !! f = Some (c0 <| f_count := f_count c0 - 1 |>) ∧
    (counts_exact s → counts_exact s').
Proof.
  unfold sys_close. rewrite u32_small by (unfold NR_OPEN in Hfd; lia).
  destruct (Z.leb_spec (Z.of_nat NR_OPEN) fd); [lia|].
  unfold clear_cloexec. run_me. set (t1 := t <| close_on_exec ::= _ |>).
  rewrite (bind_Ok _ _ _ _ _ (fd_file_run (set_me t1 s) t1 fd (cur_is_set_me _ _) ltac:(unfold NR_OPEN in Hfd; lia))).
  destruct (Z.leb_spec (Z.of_nat NR_OPEN) fd); [lia|].
  change (filp t1) with (filp t). rewrite Hf. cbn [mjoin option_join]. cbv beta iota.
  run_me. rewrite set_me_set_me. set (t' := set_filp (Z.to_nat fd) None t1). set (s1 := set_me t' s).
  assert (Hc1 : file_table (k_fs s1) !! f = Some c0) by done.
  rewrite (bind_Ok _ _ _ _ _ (file_at_run s1 f c0 Hc1)).
  destruct (Z.eqb_spec (f_count c0) 0); [lia|]. rewrite bind_ret_l.
  erewrite (bind_Ok _ _ _ _ _ (upd_file_run s1 f _ c0 Hc1)).
  set (c1 := c0 <| f_count ::= _ |>). set (s2 := s1 <| k_fs ::= _ |>).
  assert (Hc2 : file_table (k_fs s2) !! f = Some c1)
    by (apply list_lookup_insert_eq; by eapply lookup_lt_Some).
  rewrite (bind_Ok _ _ _ _ _ (file_at_run s2 f c1 Hc2)).
  assert (Hc1v : c1 = c0 <| f_count := f_count c0 - 1 |>).
  { unfold c1, set. rewrite u16_small by lia. done. }
  rewrite (proj2 (truth_true (f_count c1))) by (rewrite Hc1v; simpl; lia).
  exists s2, t'. split; [done|]. split; [apply cur_is_set_me|]. split; [done|]. split.
  { unfold t'. simpl. by rewrite Z.clearbit_spec', Z.ldiff_land, Z.shiftl_1_l. }
  split; [by rewrite Hc2, Hc1v|]. intros Hex.
  pose proof (counts_exact_step s t (Z.to_nat fd) (Some f) None f c0 t' Ht Hf eq_refl Hc0 ltac:(auto) Hex) as Hstep.
  unfold refs_step in Hstep. rewrite decide_False, decide_True in Hstep by done.
  unfold s2. fold c1. rewrite Hc1v. rewrite Z.add_0_r in Hstep. exact Hstep.
Qed.

(** ** lseek *)

(** sys_lseek on an open descriptor of a seekable device returns the new
    position, counted from the start, the old position or the end of the file,
    and stores it; a negative position or an unknown origin gives -EINVAL and
    changes nothing.  All positions are 32-bit. *)
Theorem sys_lseek_correct (s : kernel) (t : task_struct) (fd : Z) (f : nat) (y : file)
    (i : nat) (x : m_inode) (offset origin : Z)
    (Ht : cur_is s t) (Hfd : 0 ≤ fd < Z.of_nat NR_OPEN)
    (Hf : filp t !! Z.to_nat fd = Some (Some f)) (Hy : file_table (k_fs s) !! f = Some y)
    (Hi : f_inode y = Some i) (Hx : inode_table (k_fs s) !! i = Some x)
    (Hdev : 1 ≤ MAJOR (i_dev x) ≤ 3) (Hpipe : i_pipe x = 0)
    (Hpos : 0 ≤ f_pos y < 2147483648) (Hsize : 0 ≤ i_size x < 2147483648)
    (Hoff : -2147483648 ≤ offset < 2147483648) :
  let base := if origin =? 0 then 0 else if origin =? 1 then f_pos y else i_size x in
  let new := base + offset in
  sys_lseek fd offset origin s =
    if negb ((0 <=? origin) && (origin <=? 2)) then Ok (- EINVAL) s
    else if (new <? 0) || (2147483648 <=? new) then Ok (- EINVAL) s
    else Ok new (set_file f (y <| f_pos := new |>) s).
Proof.
  unfold sys_lseek. rewrite (bind_Ok _ _ _ _ _ (fd_file_run s t fd Ht ltac:(unfold NR_OPEN in Hfd; lia))).
  destruct (Z.leb_spec (Z.of_nat NR_OPEN) fd); [lia|]. rewrite Hf. cbn [mjoin option_join]. cbv beta iota.
  rewrite (bind_Ok _ _ _ _ _ (file_at_run s f y Hy)), Hi, (bind_Ok _ _ _ _ _ (inode_at_run s i x Hx)).
  assert (IS_SEEKABLE (MAJOR (i_dev x)) = true) as -> by (unfold IS_SEEKABLE; lia).
  rewrite Hpipe. cbn [negb truth Z.eqb]. cbv zeta. change (truth 0) with false. cbv iota.
  assert (Hset : ∀ v, set_pos f v s = Ok v (set_file f (y <| f_pos := v |>) s)).
  { intros v. unfold set_pos. by rewrite (bind_Ok _ _ _ _ _ (upd_file_run s f _ y Hy)). }
  assert (Hwrap : ∀ b, 0 ≤ b < 2147483648 →
    (if s32 (b + offset) <? 0 then mret (- EINVAL) else set_pos f (s32 (b + offset))) s =
    if (b + offset <? 0) || (2147483648 <=? b + offset) then Ok (- EINVAL) s
    else Ok (b + offset) (set_file f (y <| f_pos := b + offset |>) s)).
  { intros b Hb. destruct (Z.leb_spec 2147483648 (b + offset)).
    - rewrite orb_true_r. unfold s32.
      replace (b + offset + 2147483648) with (b + offset - 2147483648 + 1 * 4294967296) by lia.
      rewrite Z.mod_add, Z.mod_small by lia. destruct (Z.ltb_spec (b + offset - 2147483648 - 2147483648) 0); [done|lia].
    - rewrite orb_false_r, s32_small by lia. destruct (b + offset <? 0); [done|]. apply Hset. }
  destruct (Z.eqb_spec origin 0) as [->|].
  { rewrite Z.add_0_l. destruct (Z.leb_spec 2147483648 offset); [lia|]. rewrite orb_false_r.
    cbn [Z.leb Z.compare andb negb]. destruct (offset <? 0); [done|]. apply Hset. }
  destruct (Z.eqb_spec origin 1) as [->|]; [by apply Hwrap|].
  destruct (Z.eqb_spec origin 2) as [->|]; [by apply Hwrap|].
  by destruct (Z.leb_spec 0 origin), (Z.leb_spec origin 2); try lia.
Qed.
