(* ===== verification/Fork.v ===== *)
(** * kernel/fork.c

    [verify_area] is in Kernel.  The registers of the parent, which the
    assembly entry passes on the stack, are the record [regs]. *)

From stdpp Require Import base option list gmap strings.
From Stdlib Require Import ZArith.
From S2P Require Import Prelude Types Memory Sched Kernel Blk Buffer Inode FileDev.
Local Open Scope Z_scope.

Record regs := mk_regs {
  r_ebp : Z; r_edi : Z; r_esi : Z; r_gs : Z; r_ebx : Z; r_ecx : Z; r_edx : Z;
  r_fs : Z; r_es : Z; r_ds : Z; r_eip : Z; r_cs : Z; r_eflags : Z; r_esp : Z; r_ss : Z
}.
#[export] Instance eta_regs : Eta regs := fun r =>
  mk_regs (r_ebp r) (r_edi r) (r_esi r) (r_gs r) (r_ebx r) (r_ecx r) (r_edx r) (r_fs r) (r_es r) (r_ds r)
    (r_eip r) (r_cs r) (r_eflags r) (r_esp r) (r_ss r).

Definition set_ldt (k : nat) (base : Z) (t : task_struct) : task_struct :=
  t <| ldt ::= alter (λ d, set_base d base) k |>.

Definition copy_mem (nr : Z) (p : Z) : M kernel Z :=
  t ← me;
  code ← deref (ldt t !! 1%nat);
  data ← deref (ldt t !! 2%nat);
  let code_limit := get_limit code in
  let data_limit := get_limit data in
  let old_code_base := get_base code in
  let old_data_base := get_base data in
  (if negb (old_data_base =? old_code_base) then panic "We don't support separate I&D" else mret tt) ;;
  (if data_limit <? code_limit then panic "Bad data_limit" else mret tt) ;;
  let new_base := u32 (nr * 0x4000000) in
  zoom k_sched (upd_task p (λ t, set_ldt 2 new_base (set_ldt 1 new_base (t <| start_code := new_base |>)))) ;;
  r ← zoom k_mm (copy_page_tables old_data_base new_base data_limit);
  if truth r then
    zoom k_mm (free_page_tables new_base data_limit) ;;
    mret (- ENOMEM)
  else mret 0.

(** [*p = *current] and the assignments up to the copy of the memory. *)
Definition child_tss (nr p : Z) (r : regs) (t : tss_struct) : tss_struct := {|
  back_link := 0; esp0 := u32 (PAGE_SIZE + p); ss0 := 0x10;
  esp1 := esp1 t; ss1 := ss1 t; esp2 := esp2 t; ss2 := ss2 t; cr3 := cr3 t;
  eip := r_eip r; eflags := r_eflags r; eax := 0; ecx := r_ecx r; edx := r_edx r; ebx := r_ebx r;
  esp := r_esp r; ebp := r_ebp r; esi := r_esi r; edi := r_edi r;
  es := Z.land (r_es r) 0xffff; cs := Z.land (r_cs r) 0xffff; ss := Z.land (r_ss r) 0xffff;
  ds := Z.land (r_ds r) 0xffff; fs := Z.land (r_fs r) 0xffff; gs := Z.land (r_gs r) 0xffff;
  tss_ldt := LDT_SEL nr; trace_bitmap := 0x80000000; i387 := i387 t
|}.
Definition child_task (nr p : Z) (r : regs) (last_pid jiffies : Z) (t : task_struct) : task_struct :=
  t <| state := TASK_UNINTERRUPTIBLE |> <| Types.pid := last_pid |> <| father := Types.pid t |>
    <| counter := priority t |> <| signal := 0 |> <| alarm := 0 |> <| leader := 0 |>
    <| utime := 0 |> <| stime := 0 |> <| cutime := 0 |> <| cstime := 0 |>
    <| start_time := jiffies |> <| tss ::= child_tss nr p r |>.

(** [if (f) f->f_count++] and [if (inode) inode->i_count++] *)
Definition count_file (f : option nat) : M kernel unit :=
  match f with None => mret tt | Some f => upd_file f (λ x, x <| f_count ::= λ c, u16 (c + 1) |>) end.
Definition count_inode (i : option nat) : M kernel unit :=
  match i with None => mret tt | Some i => upd_inode i (λ x, x <| i_count ::= λ c, u16 (c + 1) |>) end.

Definition set_slot (nr : nat) (p : Z) : M kernel unit :=
  modify (λ s, s <| k_sched ::= λ d, d <| Sched.task ::= <[nr := p]> |> |>).

(** [if (last_task_used_math == current) clts ; fnsave p->tss.i387] *)
Definition save_math (p : Z) : M sched_state unit :=
  s ← get;
  when (last_task_used_math s =? current s) (clts ;; fnsave p).

Definition copy_process (nr : nat) (r : regs) : M kernel Z :=
  p ← zoom k_mm get_free_page;
  if negb (truth p) then mret (- EAGAIN) else
  set_slot nr p ;;
  t ← me;
  s ← get;
  let d := k_sched s in
  modify (λ s, s <| k_sched ::= λ d, d <| tasks ::=
    <[p := child_task (Z.of_nat nr) p r (last_pid d) (jiffies d) t]> |> |>) ;;
  zoom k_sched (save_math p) ;;
  e ← copy_mem (Z.of_nat nr) p;
  if truth e then
    set_slot nr 0 ;;
    zoom k_mm (free_page p) ;;
    mret (- EAGAIN)
  else
  c ← zoom k_sched (task_at p);
  for_each (filp c) count_file ;;
  t ← me;
  count_inode (pwd t) ;;
  count_inode (root t) ;;
  count_inode (executable t) ;;
  zoom k_sched (set_tss_desc (2 * Z.of_nat nr + FIRST_TSS_ENTRY) (p + TSS_OFFSET)) ;;
  zoom k_sched (set_ldt_desc (2 * Z.of_nat nr + FIRST_LDT_ENTRY) (p + LDT_OFFSET)) ;;
  zoom k_sched (upd_task p (λ t, t <| state := TASK_RUNNING |>)) ;;
  s ← get;
  mret (last_pid (k_sched s)).

(** [if ((++last_pid)<0) last_pid=1;] *)
Definition next_pid (x : Z) : Z := let x := s32 (x + 1) in if x <? 0 then 1 else x.
Definition pid_taken (s : sched_state) (x : Z) : bool :=
  existsb (λ p, negb (p =? 0) && bool_decide (Types.pid <$> tasks s !! p = Some x)) (Sched.task s).

Fixpoint fresh_pid (fuel : nat) : M sched_state unit :=
  match fuel with
  | O => no_fuel
  | S fuel =>
      modify (λ s, s <| last_pid ::= next_pid |>) ;;
      s ← get;
      if pid_taken s (last_pid s) then fresh_pid fuel else mret tt
  end.
Definition free_slot (l : list Z) : option nat :=
  list_find (λ p, p = 0) (drop 1 l) ≫= λ r, Some (S r.1).

(** One round more than there are tasks is enough. *)
Definition find_empty_process : M sched_state Z :=
  fresh_pid (S NR_TASKS) ;;
  s ← get;
  mret (match free_slot (Sched.task s) with Some i => Z.of_nat i | None => - EAGAIN end).

(** _sys_fork of system_call.s: the slot, then the copy. *)
Definition sys_fork (r : regs) : M kernel Z :=
  nr ← zoom k_sched find_empty_process;
  if nr <? 0 then mret nr else copy_process (Z.to_nat nr) r.
