(* ===== verification/ForkProofs.v ===== *)
(** * kernel/fork.c: a fresh pid and a free slot *)

From stdpp Require Import base option list gmap.
From Stdlib Require Import ZArith Lia.
From S2P Require Import Prelude Types Memory Sched Kernel KernelFacts Fork.
Local Open Scope Z_scope.

(** The pids in use. *)
Definition pids (s : sched_state) : list Z :=
  omap (λ p, if p =? 0 then None else pid <$> tasks s !! p) (task s).

Lemma pid_taken_spec s x : pid_taken s x = true ↔ x ∈ pids s.
Proof.
  unfold pid_taken, pids. rewrite existsb_exists, list_elem_of_omap. split.
  - intros (p & Hp & Hb). apply andb_prop in Hb as [Hnz Hx%bool_decide_eq_true].
    exists p. split; [by apply list_elem_of_In|].
    apply negb_true_iff in Hnz as ->. done.
  - intros (p & Hp & Hx). exists p. split; [by apply list_elem_of_In|].
    destruct (p =? 0); [done|]. rewrite Hx. by apply bool_decide_eq_true.
Qed.
Lemma length_pids s : (length (pids s) ≤ length (task s))%nat.
Proof.
  unfold pids. induction (task s) as [|p l IH]; [done|].
  cbn [omap list_omap length]. case_match; cbn [length]; lia.
Qed.

(** The [k]-th pid tried from [x]. *)
Definition MAX_PID : Z := 2147483647.
Definition candidate (x : Z) (k : nat) : Z := (x - 1 + Z.of_nat k) mod MAX_PID + 1.

Lemma candidate_bound x k : 1 ≤ candidate x k ≤ MAX_PID.
Proof. unfold candidate, MAX_PID. pose proof (Z.mod_pos_bound (x - 1 + Z.of_nat k) 2147483647). lia. Qed.
Lemma next_pid_candidate x : 0 ≤ x ≤ MAX_PID → next_pid x = candidate x 1.
Proof.
  unfold next_pid, candidate, MAX_PID. intros Hx. destruct (decide (x = 2147483647)) as [->|].
  - reflexivity.
  - rewrite s32_small by lia. destruct (Z.ltb_spec (x + 1) 0); [lia|].
    rewrite Z.mod_small; lia.
Qed.
Lemma candidate_succ x k : candidate (candidate x 1) k = candidate x (S k).
Proof.
  unfold candidate. f_equal.
  replace ((x - 1 + Z.of_nat 1) mod MAX_PID + 1 - 1 + Z.of_nat k)
    with ((x - 1 + Z.of_nat 1) mod MAX_PID + Z.of_nat k) by lia.
  rewrite Zplus_mod_idemp_l. f_equal. lia.
Qed.
Lemma candidate_inj x j k :
  Z.abs (Z.of_nat j - Z.of_nat k) < MAX_PID → candidate x j = candidate x k → j = k.
Proof.
  unfold candidate. intros Hd H.
  assert (Hm : (Z.of_nat j - Z.of_nat k) mod MAX_PID = 0).
  { replace (Z.of_nat j - Z.of_nat k) with ((x - 1 + Z.of_nat j) - (x - 1 + Z.of_nat k)) by lia.
    rewrite Zminus_mod. replace ((x - 1 + Z.of_nat j) mod MAX_PID) with ((x - 1 + Z.of_nat k) mod MAX_PID) by lia.
    rewrite Z.sub_diag. done. }
  apply Z.mod_divide in Hm as [q Hq]; [|done].
  assert (q = 0) by (unfold MAX_PID in *; nia). lia.
Qed.

(** The search stops at the first candidate that is free, if there is one
    among those it may try. *)
Lemma fresh_pid_run n s :
  0 ≤ last_pid s ≤ MAX_PID →
  (∃ k, fresh_pid n s = Ok tt (s <| last_pid := candidate (last_pid s) k |>) ∧
        candidate (last_pid s) k ∉ pids s) ∨
  (∀ k, (k < n)%nat → candidate (last_pid s) (S k) ∈ pids s).
Proof.
  revert s. induction n as [|n IH]; intros s Hs; [right; lia|].
  simpl. unfold modify. mred. unfold get. simpl.
  rewrite next_pid_candidate by done. set (s1 := s <| last_pid ::= next_pid |>).
  assert (Hp : pids s1 = pids s) by done.
  assert (Hl : last_pid s1 = candidate (last_pid s) 1) by (simpl; by apply next_pid_candidate).
  destruct (pid_taken s1 (candidate (last_pid s) 1)) eqn:Ht.
  - apply pid_taken_spec in Ht. rewrite Hp in Ht.
    destruct (IH s1) as [(k & Hk & Hf)|Hall].
    { rewrite Hl. pose proof (candidate_bound (last_pid s) 1). lia. }
    + left. exists (S k). rewrite <-candidate_succ, <-Hl, <-Hp. split; [|done].
      rewrite Hk. done.
    + right. intros [|k] Hk; [done|]. rewrite <-candidate_succ, <-Hl, <-Hp. apply Hall. lia.
  - left. exists 1%nat. split; [by rewrite <-Hl|].
    rewrite <-Hp, <-pid_taken_spec, Ht. done.
Qed.

(** One round more than there are tasks is enough. *)
Lemma fresh_pid_enough s n :
  0 ≤ last_pid s ≤ MAX_PID → (length (task s) < n)%nat → Z.of_nat n < MAX_PID →
  ∃ k, fresh_pid n s = Ok tt (s <| last_pid := candidate (last_pid s) k |>) ∧
       candidate (last_pid s) k ∉ pids s.
Proof.
  intros Hs Hn Hmax. destruct (fresh_pid_run n s Hs) as [|Hall]; [done|]. exfalso.
  set (cs := (λ k, candidate (last_pid s) (S k)) <$> seq 0 n).
  assert (Hsub : cs ⊆+ pids s).
  { apply NoDup_submseteq.
    - apply NoDup_fmap_2_strong; [|apply NoDup_seq].
      intros j k Hj%elem_of_seq Hk%elem_of_seq H.
      apply candidate_inj in H; lia.
    - intros c. subst cs. rewrite list_elem_of_fmap. intros (k & -> & Hk%elem_of_seq). apply Hall. lia. }
  apply submseteq_length in Hsub. subst cs. rewrite length_fmap, length_seq in Hsub.
  pose proof (length_pids s). lia.
Qed.

Lemma free_slot_Some l i :
  free_slot l = Some i → (1 ≤ i)%nat ∧ l !! i = Some 0 ∧ ∀ j, (1 ≤ j < i)%nat → l !! j ≠ Some 0.
Proof.
  unfold free_slot. intros (r & Hr & [= <-])%bind_Some. destruct r as [k x]. simpl.
  apply list_find_Some in Hr as (Hk & -> & Hmin). rewrite lookup_drop in Hk.
  split; [lia|]. split; [done|]. intros j Hj Hl.
  apply (Hmin (j - 1)%nat 0); [|lia|done].
  rewrite lookup_drop. by replace (1 + (j - 1))%nat with j by lia.
Qed.
Lemma free_slot_None l : free_slot l = None → ∀ j, (1 ≤ j)%nat → l !! j ≠ Some 0.
Proof.
  unfold free_slot. intros Hn j Hj Hl.
  destruct (list_find _ (drop 1 l)) as [r|] eqn:Hr; [done|].
  apply list_find_None in Hr. rewrite Forall_lookup in Hr.
  apply (Hr (j - 1)%nat 0); [|done]. rewrite lookup_drop. by replace (1 + (j - 1))%nat with j by lia.
Qed.

(** C33: find_empty_process always returns: at most one pid more than there are
    tasks is tried.  Afterwards last_pid is a positive int that no task has;
    nothing else has changed; the result is the lowest free slot above 0, or
    -EAGAIN when there is none. *)
Theorem find_empty_process_correct (s : sched_state)
    (Hlen : length (task s) = NR_TASKS) (Hlast : 0 ≤ last_pid s ≤ 2147483647) :
  ∃ r new, find_empty_process s = Ok r (s <| last_pid := new |>) ∧
    1 ≤ new ≤ 2147483647 ∧
    (∀ i p t, task s !! i = Some p → p ≠ 0 → tasks s !! p = Some t → pid t ≠ new) ∧
    ((∃ i, r = Z.of_nat i ∧ (1 ≤ i < NR_TASKS)%nat ∧ task s !! i = Some 0 ∧
           ∀ j, (1 ≤ j < i)%nat → task s !! j ≠ Some 0) ∨
     r = - EAGAIN ∧ ∀ j, (1 ≤ j)%nat → task s !! j ≠ Some 0).
Proof.
  destruct (fresh_pid_enough s (S NR_TASKS)) as (k & Hk & Hf); [done|rewrite Hlen; lia|done|].
  unfold find_empty_process. rewrite (bind_Ok _ _ _ _ _ Hk). mred. unfold get.
  eexists _, _. split; [reflexivity|]. split; [apply candidate_bound|]. split.
  - intros i p t Hp Hnz Ht Heq. apply Hf. unfold pids. apply list_elem_of_omap.
    exists p. split; [by eapply list_elem_of_lookup_2|].
    destruct (Z.eqb_spec p 0); [done|]. by rewrite Ht, <-Heq.
  - simpl. destruct (free_slot (task s)) as [i|] eqn:Hi.
    + apply free_slot_Some in Hi as (H1 & H2 & H3). left. exists i.
      pose proof (lookup_lt_Some _ _ _ H2). repeat split; try done; lia.
    + right. split; [done|]. by apply free_slot_None.
Qed.
