(* ===== verification/Exit.v ===== *)
(** * kernel/exit.c and kernel/signal.c *)

From stdpp Require Import base option list gmap strings.
From Stdlib Require Import ZArith.
From S2P Require Import Prelude Types Memory Sched Kernel Blk Buffer Inode FileDev Tty Namei Open.
Local Open Scope Z_scope.

(** [1<<(sig-1)] as an int *)
Definition sig_bit (sig : Z) : Z := s32 (Z.shiftl 1 (sig - 1)).

(** [for (i=1 ; i<NR_TASKS ; i++) if (task[i]==p)] *)
Definition slot_of (p : Z) (l : list Z) : option nat :=
  list_find (λ q, q = p) (drop 1 l) ≫= λ r, Some (S r.1).

Definition clear_slot (i : nat) : M kernel unit :=
  modify (λ s, s <| k_sched ::= λ d, d <| Sched.task ::= <[i := 0]> |> |>).

(** release() up to schedule(). *)
Definition release_page (p : Z) : M kernel unit :=
  s ← get;
  match slot_of p (Sched.task (k_sched s)) with
  | None => panic "trying to release non-existent task"
  | Some i => clear_slot i ;; zoom k_mm (free_page p)
  end.

Definition send_sig (sig p : Z) (priv : bool) : M sched_state Z :=
  if (p =? 0) || (sig <? 1) || (32 <? sig) then mret (- EINVAL) else
  c ← cur_task;
  t ← task_at p;
  if priv || (euid c =? euid t) || (euid c =? 0)
  then upd_task p (λ t, t <| signal ::= λ g, Z.lor g (sig_bit sig) |>) ;; mret 0
  else mret (- EPERM).

Definition kill_session : M sched_state unit :=
  for_tasks (λ p,
    c ← cur_task;
    t ← task_at p;
    when (session t =? session c)
      (upd_task p (λ t, t <| signal ::= λ g, Z.lor g (sig_bit SIGHUP) |>))).

(** The slots from the last to the second one: [while (--p > &FIRST_TASK)]. *)
Definition slots_down : list nat := reverse (seq 1 (NR_TASKS - 1)).

(** [if (sel) { err = send_sig(...); if (err) retval = err; }] over the slots *)
Fixpoint kill_loop (sel : task_struct → task_struct → bool) (null : bool) (sig : Z) (priv : bool)
    (slots : list nat) (retval : Z) : M sched_state Z :=
  match slots with
  | [] => mret retval
  | i :: slots =>
      p ← task_slot i;
      chosen ← (if p =? 0 then mret null else c ← cur_task; t ← task_at p; mret (sel c t));
      if chosen : bool then
        err ← send_sig sig p priv;
        kill_loop sel null sig priv slots (if truth err then err else retval)
      else kill_loop sel null sig priv slots retval
  end.

Definition sys_kill (pid sig : Z) : M sched_state Z :=
  if pid =? 0 then
    kill_loop (λ c t, pgrp t =? Types.pid c) false sig true slots_down 0
  else if 0 <? pid then
    kill_loop (λ c t, Types.pid t =? pid) false sig false slots_down 0
  else if pid =? -1 then
    kill_loop (λ c t, true) true sig false slots_down 0
  else
    kill_loop (λ c t, pgrp t =? s32 (- pid)) false sig false slots_down 0.

(** The first task with this pid. *)
Fixpoint task_with_pid (pid : Z) (l : list Z) : M sched_state (option Z) :=
  match l with
  | [] => mret None
  | p :: l =>
      if p =? 0 then task_with_pid pid l else
      t ← task_at p;
      if Types.pid t =? pid then mret (Some p) else task_with_pid pid l
  end.

Section Exit.
Context {E : Env}.

Definition release (p : Z) : M kernel unit :=
  if p =? 0 then mret tt else release_page p ;; reschedule.

(** A last call of schedule(), by a task that is not runnable: true if another
    task runs now, in the state this leaves, and the call does not come back. *)
Definition schedule_away : M kernel bool :=
  c ← zoom k_sched cur;
  zoom k_sched schedule ;;
  c' ← zoom k_sched cur;
  mret (negb (c' =? c)).

(** tell_father: true when it has released the current task and schedule() did
    not come back. *)
Definition tell_father (pid : Z) : M kernel bool :=
  s ← get;
  f ← zoom k_sched (if truth pid then task_with_pid pid (Sched.task (k_sched s)) else mret None);
  match f with
  | Some p =>
      zoom k_sched (upd_task p (λ t, t <| signal ::= λ g, Z.lor g (sig_bit SIGCHLD) |>)) ;;
      mret false
  | None =>
      printk "BAD BAD - no father found\n\r" ;;
      c ← zoom k_sched cur;
      release_page c ;;
      schedule_away
  end.

(** Children are given to init. *)
Definition forget_children : M sched_state unit :=
  for_each (seq 0 NR_TASKS) (λ i,
    p ← task_slot i;
    if p =? 0 then mret tt else
    c ← cur_task;
    t ← task_at p;
    when (father t =? pid c) (
      upd_task p (λ t, t <| father := 1 |>) ;;
      when (state t =? TASK_ZOMBIE) (
        init ← task_slot 1;
        send_sig SIGCHLD init true ;; mret tt))).

Definition free_segment (k : nat) : M kernel unit :=
  t ← me;
  d ← deref (ldt t !! k);
  zoom k_mm (free_page_tables (get_base d) (get_limit d)) ;;
  mret tt.

(** [None] when the final schedule() has switched away, for ever; the resulting
    state is the one in which the next task starts to run.  It comes back, and
    -1 is returned, only to task 0. *)
Definition do_exit (code : Z) : M kernel (option Z) :=
  free_segment 1 ;;
  free_segment 2 ;;
  zoom k_sched forget_children ;;
  for_each (seq 0 NR_OPEN) (λ i,
    f ← fd_file (Z.of_nat i);
    match f with None => mret tt | Some _ => sys_close (Z.of_nat i) ;; mret tt end) ;;
  t ← me; iput (pwd t) ;; upd_me (λ t, t <| pwd := None |>) ;;
  t ← me; iput (root t) ;; upd_me (λ t, t <| root := None |>) ;;
  t ← me; iput (executable t) ;; upd_me (λ t, t <| executable := None |>) ;;
  t ← me;
  when (truth (leader t) && (0 <=? tty t)) (upd_tty (Z.to_nat (tty t)) (λ y, y <| t_pgrp := 0 |>)) ;;
  modify (λ s, s <| k_sched ::= λ d,
    if last_task_used_math d =? current d then d <| last_task_used_math := 0 |> else d |>) ;;
  when (truth (leader t)) (zoom k_sched kill_session) ;;
  upd_me (λ t, t <| state := TASK_ZOMBIE |> <| exit_code := code |>) ;;
  gone ← tell_father (father t);
  if gone : bool then mret None else
  gone ← schedule_away;
  mret (if gone : bool then None else Some (-1)).

Definition sys_exit (error_code : Z) : M kernel (option Z) := do_exit (Z.shiftl (Z.land error_code 0xff) 8).

(** Does the wait select the child [t] of [c]? *)
Definition waits_for (pid : Z) (c t : task_struct) : bool :=
  (father t =? Types.pid c) &&
  (if 0 <? pid then Types.pid t =? pid
   else if pid =? 0 then pgrp t =? pgrp c
   else (pid =? -1) || (pgrp t =? s32 (- pid))).

(** The scan of sys_waitpid: a result, or the flag. *)
Fixpoint wait_scan (pid stat_addr options : Z) (slots : list nat) (flag : Z) : M kernel (Z + Z) :=
  match slots with
  | [] => mret (inr flag)
  | i :: slots =>
      p ← zoom k_sched (task_slot i);
      c ← zoom k_sched cur;
      if (p =? 0) || (p =? c) then wait_scan pid stat_addr options slots flag else
      ct ← me;
      t ← zoom k_sched (task_at p);
      if negb (waits_for pid ct t) then wait_scan pid stat_addr options slots flag else
      if state t =? TASK_STOPPED then
        if negb (has options WUNTRACED) then wait_scan pid stat_addr options slots flag else
        put_fs_long 0x7f stat_addr ;; mret (inl (Types.pid t))
      else if state t =? TASK_ZOMBIE then
        upd_me (λ c, c <| cutime ::= λ x, s32 (x + utime t) |> <| cstime ::= λ x, s32 (x + stime t) |>) ;;
        release p ;;
        put_fs_long (exit_code t) stat_addr ;;
        mret (inl (Types.pid t))
      else wait_scan pid stat_addr options slots 1
  end.

Fixpoint waitpid_loop (fuel : nat) (pid stat_addr options : Z) : M kernel Z :=
  match fuel with
  | O => no_fuel
  | S fuel =>
      r ← wait_scan pid stat_addr options slots_down 0;
      match r with
      | inl pid => mret pid
      | inr flag =>
          if truth flag then
            if has options WNOHANG then mret 0 else
            upd_me (λ t, t <| state := TASK_INTERRUPTIBLE |>) ;;
            reschedule ;;
            upd_me (λ t, t <| signal ::= λ g, Z.land g (Z.lnot (sig_bit SIGCHLD)) |>) ;;
            t ← me;
            if truth (signal t) then mret (- EINTR) else waitpid_loop fuel pid stat_addr options
          else mret (- ECHILD)
      end
  end.
Definition sys_waitpid (pid stat_addr options : Z) : M kernel Z :=
  verify_area stat_addr 4 ;;
  waitpid_loop patience pid stat_addr options.

(** A routine stopped by do_exit(): [Exit code] then runs it.  What the routine
    would do after a do_exit() that came back is not followed. *)
Definition or_exit (m : M kernel Z) : M kernel (option Z) := λ s,
  match m s with
  | Ok a s => Ok (Some a) s
  | Exit code s => (r ← do_exit code; match r with None => mret None | Some _ => fault end) s
  | Panic e s => Panic e s
  | Fault s => Fault s
  | NoFuel => NoFuel
  end.
End Exit.

(** ** signal.c *)

Definition sys_sgetmask : M kernel Z := t ← me; mret (blocked t).
Definition sys_ssetmask (newmask : Z) : M kernel Z :=
  t ← me;
  upd_me (λ t, t <| blocked := Z.land newmask (Z.lnot (sig_bit SIGKILL)) |>) ;;
  mret (blocked t).

Definition SIZEOF_SIGACTION : nat := 16.
Definition sigaction_bytes (a : sigaction_struct) : list Z :=
  put32 (sa_handler a) ++ put32 (sa_mask a) ++ put32 (sa_flags a) ++ put32 (sa_restorer a).
Definition sigaction_of (l : list Z) : sigaction_struct :=
  mk_sigaction (get32 l 0) (get32 l 4) (get32 l 8) (get32 l 12).

Definition save_old (from : sigaction_struct) (to : Z) : M kernel unit :=
  verify_area to (Z.of_nat SIZEOF_SIGACTION) ;;
  put_fs_bytes (sigaction_bytes from) to.
Definition get_new (from : Z) : M kernel sigaction_struct :=
  l ← get_fs_bytes SIZEOF_SIGACTION from; mret (sigaction_of l).

Definition action_slot (signum : Z) : nat := Z.to_nat (signum - 1).
Definition cur_action (signum : Z) : M kernel sigaction_struct :=
  t ← me; deref (sigaction t !! action_slot signum).
Definition upd_action (signum : Z) (f : sigaction_struct → sigaction_struct) : M kernel unit :=
  upd_me (λ t, t <| sigaction ::= alter f (action_slot signum) |>).
Definition catchable (signum : Z) : bool := negb ((signum <? 1) || (32 <? signum) || (signum =? SIGKILL)).

Definition sys_signal (signum handler restorer : Z) : M kernel Z :=
  if negb (catchable signum) then mret (-1) else
  old ← cur_action signum;
  upd_action signum (λ _, mk_sigaction handler 0 (Z.lor SA_ONESHOT SA_NOMASK) restorer) ;;
  mret (sa_handler old).

Definition sys_sigaction (signum action oldaction : Z) : M kernel Z :=
  if negb (catchable signum) then mret (-1) else
  tmp ← cur_action signum;
  new ← get_new action;
  upd_action signum (λ _, new) ;;
  when (truth oldaction) (save_old tmp oldaction) ;;
  upd_action signum (λ a, a <| sa_mask ::= λ m,
    if has (sa_flags a) SA_NOMASK then 0 else u32 (Z.lor m (sig_bit signum)) |>) ;;
  mret 0.

(** do_signal: the new eip and esp of the interrupted program. *)
Definition do_signal (signr eax ecx edx eip eflags esp : Z) : M kernel (Z * Z) :=
  sa ← cur_action signr;
  if sa_handler sa =? 1 then mret (eip, esp) else
  if (sa_handler sa =? 0) && (signr =? SIGCHLD) then mret (eip, esp) else
  (if sa_handler sa =? 0 then exit_with (sig_bit signr) else mret tt) ;;
  when (has (sa_flags sa) SA_ONESHOT) (upd_action signr (λ a, a <| sa_handler := 0 |>)) ;;
  let nomask := has (sa_flags sa) SA_NOMASK in
  let longs := if nomask then 7 else 8 in
  let esp := u32 (esp - 4 * longs) in
  verify_area esp (longs * 4) ;;
  t ← me;
  for_each (imap (λ k v, (Z.of_nat k, v))
      ([sa_restorer sa; signr] ++ (if nomask then [] else [blocked t]) ++ [eax; ecx; edx; eflags; eip]))
    (λ kv, put_fs_long kv.2 (esp + 4 * kv.1)) ;;
  upd_me (λ t, t <| blocked ::= λ b, Z.lor b (sa_mask sa) |>) ;;
  mret (sa_handler sa, esp).

(** ret_from_sys_call of system_call.s: the lowest pending unblocked signal. *)
Definition next_signal (t : task_struct) : option Z :=
  let pending := u32 (Z.land (signal t) (Z.lnot (blocked t))) in
  bsf 32 0 pending.
Definition take_signal : M kernel (option Z) :=
  s ← get;
  t ← me;
  if bool_decide (Sched.task (k_sched s) !! 0%nat = Some (current (k_sched s))) then mret None else
  match next_signal t with
  | None => mret None
  | Some k =>
      upd_me (λ t, t <| signal ::= λ g, s32 (Z.clearbit g k) |>) ;;
      mret (Some (k + 1))
  end.
