(* ===== verification/SignalProofs.v ===== *)
(** * Signals: sys_kill, the masks, and the delivery to a handler *)

From stdpp Require Import base option list gmap.
From Stdlib Require Import ZArith Lia.
From S2P Require Import Prelude Types Memory Sched Kernel KernelFacts Inode Open Exit.
Local Open Scope Z_scope.

(** Every used slot of the table points to a task. *)
Definition table_ok (s : sched_state) : Prop :=
  length (task s) = NR_TASKS ∧ tasks s !! 0 = None ∧
  ∀ i p, task s !! i = Some p → p ≠ 0 → is_Some (tasks s !! p).

(** [raise f t]: [t] with other pending signals, nothing else. *)
Definition raised (f : Z → Z) (t : task_struct) : task_struct := t <| signal ::= f |>.
Definition post (sig : Z) (t : task_struct) : task_struct := raised (λ g, Z.lor g (sig_bit sig)) t.

Lemma post_post sig t : post sig (post sig t) = post sig t.
Proof.
  unfold post, raised, set. destruct t. simpl. f_equal. by rewrite <-Z.lor_assoc, Z.lor_diag.
Qed.

(** ** sys_kill *)

(** Whom a call of kill(pid, sig) by [c] is meant for, as the code decides it
    (for [pid] = 0 the group whose number is the caller's pid), and whether
    the caller may send to [t]. *)
Definition kill_target (pid : Z) (c t : task_struct) : bool :=
  if pid =? 0 then pgrp t =? Types.pid c
  else if 0 <? pid then Types.pid t =? pid
  else if pid =? -1 then true
  else pgrp t =? s32 (- pid).
Definition may_signal (priv : bool) (c t : task_struct) : bool :=
  priv || (euid c =? euid t) || (euid c =? 0).

(** The tasks at [ps] that are selected and allowed get the signal. *)
Definition signalled (sel : task_struct → task_struct → bool) (priv : bool) (sig : Z)
    (c : task_struct) (ps : list Z) (m : gmap Z task_struct) : gmap Z task_struct :=
  map_imap (λ p t, Some (if bool_decide (p ∈ ps) && sel c t && may_signal priv c t
                         then post sig t else t)) m.

Lemma signalled_lookup sel priv sig c ps m p :
  signalled sel priv sig c ps m !! p =
    (λ t, if bool_decide (p ∈ ps) && sel c t && may_signal priv c t then post sig t else t) <$> m !! p.
Proof. unfold signalled. rewrite map_lookup_imap. by destruct (m !! p). Qed.

(** The error a slot contributes. *)
Definition slot_error (sel : task_struct → task_struct → bool) (null priv : bool)
    (c : task_struct) (m : gmap Z task_struct) (p : Z) : Z :=
  if p =? 0 then if null then - EINVAL else 0 else
  match m !! p with
  | Some t => if sel c t && negb (may_signal priv c t) then - EPERM else 0
  | None => 0
  end.
Definition last_error (es : list Z) (r : Z) : Z := foldl (λ r e, if truth e then e else r) r es.

Lemma last_error_zero es r : last_error es r = 0 ↔ r = 0 ∧ ∀ e, e ∈ es → e = 0.
Proof.
  revert r. induction es as [|e es IH]; intros r; simpl.
  - split; [intros ->; split; [done|intros e He; by apply elem_of_nil in He]|tauto].
  - rewrite IH. destruct (truth e) eqn:He.
    + apply truth_true in He. split; [intros [? _]; done|].
      intros [_ H]. exfalso. apply He, H. left.
    + apply truth_false in He as ->. setoid_rewrite elem_of_cons. naive_solver.
Qed.
Lemma last_error_in es r : last_error es r = r ∨ last_error es r ∈ es.
Proof.
  revert r. induction es as [|e es IH]; intros r; simpl; [by left|].
  destruct (truth e).
  - destruct (IH e) as [->|H]; right; [left|by right].
  - destruct (IH r) as [H|H]; [by left|right; by right].
Qed.

Lemma elem_of_snoc_ne (p q : Z) (ps : list Z) : p ≠ q → q ∈ ps ↔ q ∈ ps ++ [p].
Proof. intros Hne. rewrite elem_of_app, list_elem_of_singleton. naive_solver. Qed.

Section KillLoop.
Context (sel : task_struct → task_struct → bool) (null priv : bool) (sig : Z).
Context (Hsel : ∀ f g c t, sel (raised f c) (raised g t) = sel c t).
Context (Hsig : 1 ≤ sig ≤ 32).

(** One call of send_sig in a table where some tasks have got the signal. *)
Lemma signalled_raised c ps m p t :
  m !! p = Some t → ∃ f, signalled sel priv sig c ps m !! p = Some (raised f t).
Proof.
  intros Ht. rewrite signalled_lookup, Ht. simpl. case_match.
  - by eexists.
  - exists id. unfold raised, set. by destruct t.
Qed.

(** The task's new value when the next slot is signalled, and when it is not. *)
Lemma signalled_hit c ps m p t t' :
  m !! p = Some t → sel c t = true → may_signal priv c t = true →
  signalled sel priv sig c ps m !! p = Some t' →
  <[p := post sig t']> (signalled sel priv sig c ps m) = signalled sel priv sig c (ps ++ [p]) m.
Proof.
  intros Ht Hs Hm Ht'. apply map_eq. intros q. rewrite signalled_lookup.
  destruct (decide (p = q)) as [<-|Hne].
  - rewrite signalled_lookup, Ht in Ht'. injection Ht' as <-.
    rewrite lookup_insert_eq, Ht. simpl. rewrite Hs, Hm.
    rewrite (bool_decide_eq_true_2 (p ∈ ps ++ [p])) by (apply elem_of_app; right; by left).
    simpl. case_match; [by rewrite post_post|done].
  - rewrite lookup_insert_ne, signalled_lookup by done. destruct (m !! q); [|done]. simpl.
    by rewrite (bool_decide_ext (q ∈ ps) (q ∈ ps ++ [p])) by (apply elem_of_snoc_ne; done).
Qed.
Lemma signalled_miss c ps m p :
  (∀ t, m !! p = Some t → sel c t && may_signal priv c t = false) →
  signalled sel priv sig c ps m = signalled sel priv sig c (ps ++ [p]) m.
Proof.
  intros H. apply map_eq. intros q. rewrite !signalled_lookup.
  destruct (m !! q) as [t|] eqn:Hq; [|done]. simpl.
  destruct (decide (p = q)) as [<-|Hne].
  - by rewrite <-!andb_assoc, (H t Hq), !andb_false_r.
  - by rewrite (bool_decide_ext (q ∈ ps) (q ∈ ps ++ [p])) by (apply elem_of_snoc_ne; done).
Qed.

Lemma send_sig_run d p c t :
  p ≠ 0 → tasks d !! current d = Some c → tasks d !! p = Some t →
  send_sig sig p priv d =
    if may_signal priv c t then Ok 0 (d <| tasks ::= <[p := post sig t]> |>) else Ok (- EPERM) d.
Proof.
  intros Hp Hc Ht. unfold send_sig.
  destruct (Z.eqb_spec p 0), (Z.ltb_spec sig 1), (Z.ltb_spec 32 sig); try lia. cbn [orb].
  rewrite (bind_Ok _ _ _ _ _ (cur_task_run _ _ Hc)), (bind_Ok _ _ _ _ _ (task_at_run _ _ _ Ht)).
  unfold may_signal. case_match; [|done].
  by rewrite (bind_Ok _ _ _ _ _ (upd_task_run _ _ _ _ Ht)).
Qed.
Lemma send_sig_null d : send_sig sig 0 priv d = Ok (- EINVAL) d.
Proof. done. Qed.

(** One slot of the loop. *)
Definition visited (s : sched_state) (c : task_struct) (ps : list Z) : sched_state :=
  s <| tasks := signalled sel priv sig c ps (tasks s) |>.

Lemma kill_slot_run s c i p sl ps r :
  table_ok s → tasks s !! current s = Some c → task s !! i = Some p →
  kill_loop sel null sig priv (i :: sl) r (visited s c ps) =
  kill_loop sel null sig priv sl
    (let e := slot_error sel null priv c (tasks s) p in if truth e then e else r) (visited s c (ps ++ [p])).
Proof.
  intros (Hlen & H0 & Hok) Hc Hp. cbn [kill_loop]. unfold task_slot, deref. mred. unfold get.
  change (task (visited s c ps)) with (task s). rewrite Hp. cbn beta iota.
  destruct (signalled_raised c ps (tasks s) _ _ Hc) as [f Hc1].
  unfold slot_error. destruct (Z.eqb_spec p 0) as [->|Hp0]; cbn beta iota zeta.
  - assert (visited s c ps = visited s c (ps ++ [0])) as <-.
    { unfold visited. by rewrite (signalled_miss c ps (tasks s) 0) by (intros t Ht; congruence). }
    destruct null; reflexivity.
  - destruct (Hok i p Hp Hp0) as [t Ht]. rewrite Ht.
    destruct (signalled_raised c ps (tasks s) _ _ Ht) as [g Ht1].
    unfold cur_task, cur, gets. mred.
    change (current (visited s c ps)) with (current s).
    rewrite (task_at_run _ (visited s c ps) _ Hc1), (task_at_run _ (visited s c ps) _ Ht1), Hsel.
    assert (Hmay : may_signal priv (raised f c) (raised g t) = may_signal priv c t) by done.
    destruct (sel c t) eqn:Hs; cbn [andb].
    + rewrite (send_sig_run (visited s c ps) p _ _ Hp0 Hc1 Ht1), Hmay.
      destruct (may_signal priv c t) eqn:Hm; cbn [negb].
      * change (truth 0) with false. cbn iota. f_equal. unfold visited, set. simpl. f_equal.
        apply (signalled_hit c ps (tasks s) p t); done.
      * change (truth (- EPERM)) with true. cbn iota. f_equal. unfold visited.
        by rewrite (signalled_miss c ps (tasks s) p) by (intros t' Ht'; simplify_eq; by rewrite Hs, Hm).
    + change (truth 0) with false. cbn iota. f_equal. unfold visited.
      by rewrite (signalled_miss c ps (tasks s) p) by (intros t' Ht'; simplify_eq; by rewrite Hs).
Qed.

Lemma kill_loop_run s c sl ps r :
  table_ok s → tasks s !! current s = Some c → (∀ i, i ∈ sl → (i < NR_TASKS)%nat) →
  let qs := (λ i, default 0 (task s !! i)) <$> sl in
  kill_loop sel null sig priv sl r (visited s c ps) =
    Ok (last_error (slot_error sel null priv c (tasks s) <$> qs) r) (visited s c (ps ++ qs)).
Proof.
  intros Hok Hc. revert ps r. induction sl as [|i sl IH]; intros ps r Hi.
  { simpl. by rewrite app_nil_r. }
  destruct (lookup_lt_is_Some_2 (task s) i) as [p Hp]; [rewrite (proj1 Hok); apply Hi; left|].
  rewrite (kill_slot_run s c i p) by done. cbv zeta in IH |- *.
  rewrite IH by (intros j Hj; apply Hi; by right).
  rewrite !fmap_cons, Hp. cbn [default id]. by rewrite <-app_assoc.
Qed.

Lemma visited_nil s c : visited s c [] = s.
Proof.
  unfold visited, set. destruct s. simpl. f_equal. apply map_eq. intros p.
  rewrite signalled_lookup. destruct (_ !! p); [|done]. done.
Qed.
End KillLoop.

(** The tasks in the slots 63 .. 1. *)
Definition user_tasks (s : sched_state) : list Z := (λ i, default 0 (task s !! i)) <$> slots_down.

Lemma elem_of_slots_down i : i ∈ slots_down ↔ (1 ≤ i < NR_TASKS)%nat.
Proof. unfold slots_down. rewrite elem_of_reverse, elem_of_seq. unfold NR_TASKS. lia. Qed.
Lemma elem_of_user_tasks s p :
  length (task s) = NR_TASKS → p ∈ user_tasks s ↔ ∃ i, (1 ≤ i)%nat ∧ task s !! i = Some p.
Proof.
  intros Hlen. unfold user_tasks. rewrite list_elem_of_fmap. split.
  - intros (i & -> & Hi%elem_of_slots_down).
    destruct (lookup_lt_is_Some_2 (task s) i) as [q Hq]; [lia|]. exists i. rewrite Hq. split; [lia|done].
  - intros (i & Hi & Hp). exists i. rewrite Hp. split; [done|]. apply elem_of_slots_down.
    pose proof (lookup_lt_Some _ _ _ Hp). lia.
Qed.

Lemma sys_kill_run s c pid sig :
  table_ok s → tasks s !! current s = Some c → 1 ≤ sig ≤ 32 →
  let sel := kill_target pid in let priv := pid =? 0 in let null := pid =? -1 in
  sys_kill pid sig s =
    Ok (last_error (slot_error sel null priv c (tasks s) <$> user_tasks s) 0)
       (s <| tasks := signalled sel priv sig c (user_tasks s) (tasks s) |>).
Proof.
  intros Hok Hc Hsig.
  assert (Hrun : ∀ sel null priv, (∀ f g c t, sel (raised f c) (raised g t) = sel c t) →
    kill_loop sel null sig priv slots_down 0 s =
    Ok (last_error (slot_error sel null priv c (tasks s) <$> user_tasks s) 0)
       (s <| tasks := signalled sel priv sig c (user_tasks s) (tasks s) |>)).
  { intros sel null priv Hsel. rewrite <-(visited_nil sel priv sig s c) at 1.
    rewrite (kill_loop_run sel null priv sig) by (done || (intros i Hi%elem_of_slots_down; lia)). done. }
  unfold sys_kill, kill_target. cbv zeta.
  destruct (Z.eqb_spec pid 0) as [->|H0]; [by apply Hrun|].
  destruct (Z.ltb_spec 0 pid); [destruct (Z.eqb_spec pid (-1)); [lia|]; by apply Hrun|].
  destruct (Z.eqb_spec pid (-1)); by apply Hrun.
Qed.

Lemma slot_error_cases sel null priv c m p e :
  slot_error sel null priv c m p = e → e = 0 ∨ e = - EPERM ∨ (e = - EINVAL ∧ null = true ∧ p = 0).
Proof. unfold slot_error. intros <-. repeat case_match; rewrite ?Z.eqb_eq in *; auto. Qed.
Lemma slot_error_zero sel null priv c m p :
  slot_error sel null priv c m p = 0 ↔
  (p = 0 → null = false) ∧
  (∀ t, p ≠ 0 → m !! p = Some t → sel c t = true → may_signal priv c t = true).
Proof.
  unfold slot_error. destruct (Z.eqb_spec p 0) as [->|Hp].
  - destruct null; split; [done|intros [H _]; by discriminate (H eq_refl)|done|done].
  - destruct (m !! p) as [t|]; [|naive_solver].
    destruct (sel c t) eqn:Hs, (may_signal priv c t) eqn:Hm; simpl; split; try done; try naive_solver.
    intros [_ H]. specialize (H t Hp eq_refl Hs). congruence.
Qed.

(** C9: kill() with a valid signal number never fails to return and changes
    nothing but pending signals.  A task in slots 1 to 63 that the call is
    meant for gets the signal added to its set if the caller may signal it
    (it is the superuser, has the same effective user, or pid is 0), and no
    other task is touched.  The result is 0 exactly when every target was
    permitted (and, for pid = -1, no slot is empty); otherwise it is -EPERM,
    or for pid = -1 possibly -EINVAL. *)
Theorem sys_kill_correct (s : sched_state) (c : task_struct) (pid sig : Z)
    (Hok : table_ok s) (Hc : tasks s !! current s = Some c) (Hsig : 1 ≤ sig ≤ 32) :
  ∃ r s', sys_kill pid sig s = Ok r s' ∧ s' = s <| tasks := tasks s' |> ∧
    (∀ p t, tasks s !! p = Some t →
       tasks s' !! p = Some (if bool_decide (p ∈ user_tasks s) && kill_target pid c t
                                && may_signal (pid =? 0) c t
                             then post sig t else t)) ∧
    (r = 0 ∨ r = - EPERM ∨ r = - EINVAL ∧ pid = -1) ∧
    (r = 0 ↔
       (∀ i p t, (1 ≤ i)%nat → task s !! i = Some p → p ≠ 0 → tasks s !! p = Some t →
          kill_target pid c t = true → may_signal (pid =? 0) c t = true) ∧
       (pid = -1 → ∀ i, (1 ≤ i)%nat → task s !! i ≠ Some 0)).
Proof.
  pose proof (sys_kill_run s c pid sig Hok Hc Hsig) as Hrun. cbv zeta in Hrun.
  destruct Hok as (Hlen & _). eexists _, _. split; [exact Hrun|].
  split; [done|]. split.
  { intros p t Ht. cbn [tasks set]. rewrite signalled_lookup, Ht. done. }
  set (es := slot_error _ _ _ _ _ <$> _). split.
  - destruct (last_error_in es 0) as [->|H]; [by left|].
    apply list_elem_of_fmap in H as (p & Heq & _). symmetry in Heq.
    apply slot_error_cases in Heq as [?|[?|(? & ?%Z.eqb_eq & _)]]; auto.
  - rewrite last_error_zero. unfold es. setoid_rewrite list_elem_of_fmap.
    transitivity (∀ p, p ∈ user_tasks s →
      slot_error (kill_target pid) (pid =? -1) (pid =? 0) c (tasks s) p = 0); [naive_solver|].
    setoid_rewrite (elem_of_user_tasks s _ Hlen). setoid_rewrite slot_error_zero.
    setoid_rewrite Z.eqb_neq. naive_solver.
Qed.

(** ** The last schedule() of a task

    A task that is no longer runnable is switched away from, unless it is task
    0, which schedule() falls back to. *)
Section Last.
Implicit Types (p : Z) (d : sched_state).

Definition zombie p d : Prop := ∃ t, tasks d !! p = Some t ∧ state t = TASK_ZOMBIE.
(** A routine that wakes no zombie, switches to no task and leaves the table. *)
Definition steady {A} (m : M sched_state A) : Prop := ∀ p d a d',
  zombie p d → m d = Ok a d' → zombie p d' ∧ current d' = current d ∧ Sched.task d' = Sched.task d.

Lemma steady_ret {A} (a : A) : steady (mret a).
Proof. by intros p d ? d' Hz [= <- <-]. Qed.
Lemma steady_bind {A B} (m : M sched_state A) (f : A → M sched_state B) :
  steady m → (∀ a, steady (f a)) → steady (m ≫= f).
Proof.
  intros Hm Hf p d b d' Hz H. apply bind_Ok_inv in H as (a & d1 & H1 & H2).
  destruct (Hm p d a d1 Hz H1) as (Hz1 & Hc1 & Ht1). destruct (Hf a p d1 b d' Hz1 H2) as (Hz2 & Hc2 & Ht2).
  split; [done|]. by split; congruence.
Qed.
Lemma steady_get : steady get. Proof. by intros p d ? d' Hz [= <- <-]. Qed.
Lemma steady_gets {A} (f : sched_state → A) : steady (gets f). Proof. by intros p d ? d' Hz [= <- <-]. Qed.
Lemma steady_deref {A} (o : option A) : steady (deref o).
Proof. intros p d a d' Hz. destruct o; by intros [= <- <-]. Qed.
Lemma steady_when (b : bool) (m : M sched_state unit) : steady m → steady (when b m).
Proof. destruct b; [done|]. intros _. apply steady_ret. Qed.
Lemma steady_for_each {X} (l : list X) (f : X → M sched_state unit) : (∀ x, steady (f x)) → steady (for_each l f).
Proof. intros Hf. induction l as [|x l IH]; [apply steady_ret|]. by apply steady_bind. Qed.
Lemma steady_task_at q : steady (task_at q).
Proof. apply steady_bind; [apply steady_get|]. intros d. apply steady_deref. Qed.
Lemma steady_upd_task q f : (∀ t, state t = TASK_ZOMBIE → state (f t) = TASK_ZOMBIE) → steady (upd_task q f).
Proof.
  intros Hf p d a d' (t & Ht & Hs) H. unfold upd_task in H. apply bind_Ok_inv in H as (x & d1 & H1 & H2).
  unfold task_at, get in H1. mred in H1. destruct (tasks d !! q) as [y|] eqn:Hq; [|done]. injection H1 as <- <-.
  injection H2 as _ <-. split; [|done]. unfold zombie. simpl. destruct (decide (q = p)) as [->|Hne].
  - rewrite lookup_insert_eq. exists (f y). split; [done|]. apply Hf. congruence.
  - rewrite lookup_insert_ne by done. by exists t.
Qed.
Lemma steady_check_alarm q : steady (check_alarm q).
Proof.
  apply steady_bind; [apply steady_get|]. intros d0. apply steady_bind; [apply steady_task_at|]. intros t0.
  apply steady_bind; [apply steady_when, steady_upd_task; by intros []|]. intros _.
  intros p d a d' Hz H. apply bind_Ok_inv in H as (t & d1 & H1 & H2).
  destruct (steady_task_at q p d t d1 Hz H1) as (Hz1 & Hc1 & Ht1).
  destruct (_ && (state t =? TASK_INTERRUPTIBLE)) eqn:Hb; [|by injection H2 as _ <-].
  apply andb_true_iff in Hb as [_ Hst%Z.eqb_eq].
  unfold task_at, get in H1. mred in H1. destruct (tasks d !! q) as [y|] eqn:Hq; [|done]. injection H1 as -> <-.
  unfold when in H2. rewrite (upd_task_run _ _ _ _ Hq) in H2. injection H2 as _ <-. split; [|done].
  destruct Hz as (u & Hu & Hzu). unfold zombie. simpl. destruct (decide (q = p)) as [->|Hne].
  - rewrite Hu in Hq. injection Hq as ->. rewrite Hst in Hzu. discriminate Hzu.
  - rewrite lookup_insert_ne by done. by exists u.
Qed.
Lemma steady_for_tasks f : (∀ q, steady (f q)) → steady (for_tasks f).
Proof.
  intros Hf. apply steady_for_each. intros i. apply steady_bind.
  - apply steady_bind; [apply steady_get|]. intros d. apply steady_deref.
  - intros q. destruct (q =? 0); [apply steady_ret|apply Hf].
Qed.

(** The choice: slot 0 or a runnable task. *)
Lemma pick_next_inv i c n d r d' :
  pick_next i c n d = Ok r d' → d' = d ∧ (r.2 = n ∨ ∃ q t, Sched.task d !! r.2 = Some q ∧ tasks d !! q = Some t ∧ state t = TASK_RUNNING).
Proof.
  revert c n. induction i as [|i IH]; intros c n; [intros [= <- <-]; by split; [|left]|].
  cbn [pick_next]. intros H. apply bind_Ok_inv in H as (q & d1 & H1 & H2).
  unfold task_slot, get in H1. mred in H1. destruct (Sched.task d !! S i) as [q'|] eqn:Hq; [|done]. injection H1 as -> <-.
  destruct (q =? 0); [by apply IH in H2|]. apply bind_Ok_inv in H2 as (t & d1 & H1 & H2).
  unfold task_at, get in H1. mred in H1. destruct (tasks d !! q) as [t'|] eqn:Ht; [|done]. injection H1 as -> <-.
  destruct (Z.eqb_spec (state t) TASK_RUNNING) as [Hs|]; cbn [andb] in H2; [|by apply IH in H2].
  destruct (c <? counter t); [|by apply IH in H2]. apply IH in H2 as [-> H2]. split; [done|]. right.
  destruct H2 as [->|H2]; [by exists q, t|done].
Qed.
Lemma sched_loop_inv fuel p d n d' :
  zombie p d → sched_loop fuel d = Ok n d' →
  zombie p d' ∧ current d' = current d ∧ Sched.task d' = Sched.task d ∧
  (n = 0%nat ∨ ∃ q t, Sched.task d' !! n = Some q ∧ tasks d' !! q = Some t ∧ state t = TASK_RUNNING).
Proof.
  revert d. induction fuel as [|fuel IH]; intros d Hz; cbn [sched_loop]; [done|]. intros H.
  apply bind_Ok_inv in H as ([c next] & d1 & H1 & H2). apply pick_next_inv in H1 as [-> H1]. cbn [snd] in H1.
  destruct (truth c); [by injection H2 as <- <-|]. apply bind_Ok_inv in H2 as (u & d2 & H2 & H3).
  assert (Hst : steady (for_tasks (λ p, upd_task p recharge))).
  { apply steady_for_tasks. intros q. apply steady_upd_task. by intros []. }
  destruct (Hst p d u d2 Hz H2) as (Hz2 & Hc2 & Ht2). destruct (IH d2 Hz2 H3) as (? & ? & ? & ?).
  split; [done|]. split; [congruence|]. by split; [congruence|].
Qed.
Lemma schedule_zombie p d a d' :
  zombie p d → schedule d = Ok a d' →
  zombie p d' ∧ Sched.task d' = Sched.task d ∧ (current d' = p → current d = p → Sched.task d !! 0%nat = Some p).
Proof.
  intros Hz H. unfold schedule in H. apply bind_Ok_inv in H as (u & d1 & H1 & H).
  destruct (steady_for_tasks check_alarm steady_check_alarm p d u d1 Hz H1) as (Hz1 & Hc1 & Ht1).
  apply bind_Ok_inv in H as (n & d2 & H2 & H3). destruct (sched_loop_inv 2 p d1 n d2 Hz1 H2) as (Hz2 & Hc2 & Ht2 & Hn).
  unfold switch_to, task_slot, get, cur, gets in H3. mred in H3.
  destruct (Sched.task d2 !! n) as [q|] eqn:Hq; [|done]. cbn beta iota in H3.
  assert (Hq0 : q = p → n = 0%nat).
  { intros Hqp. destruct Hn as [Hn|(q' & t & Hq' & Ht & Hs)]; [done|].
    destruct Hz2 as (t' & Ht' & Hs'). assert (t = t') as -> by congruence. rewrite Hs in Hs'. discriminate Hs'. }
  assert (Htask : Sched.task d !! 0%nat = Sched.task d2 !! 0%nat) by congruence.
  assert (Hd : d' = if q =? current d2 then d2 else switched_to q d2)
    by (unfold modify in H3; simpl in H3; destruct (q =? current d2); simpl in H3; congruence).
  clear H3. subst d'. destruct (Z.eqb_spec q (current d2)) as [He|Hne].
  - split; [done|]. split; [congruence|]. intros Hp _. rewrite Htask. assert (q = p) as <- by congruence.
    by rewrite <-(Hq0 eq_refl).
  - split; [done|]. split; [simpl; congruence|]. intros Hp. simpl in Hp. subst q. intros _.
    rewrite Htask. by rewrite <-(Hq0 eq_refl).
Qed.
End Last.

Section LastExit.
Context {E : Env}.
Local Notation zombie_task s := (zombie (current (k_sched s)) (k_sched s)).

Lemma sched_cur_run s : zoom k_sched cur s = Ok (current (k_sched s)) s.
Proof. by destruct s. Qed.
Lemma schedule_away_back s s' :
  zombie_task s → schedule_away s = Ok false s' →
  zombie_task s' ∧ Sched.task (k_sched s') !! 0%nat = Some (current (k_sched s')).
Proof.
  intros Hz H. unfold schedule_away in H. rewrite (bind_Ok _ _ _ _ _ (sched_cur_run s)) in H.
  apply bind_Ok_inv in H as (u & s2 & H2 & H). unfold zoom in H2.
  destruct (schedule (k_sched s)) as [a d| | | |] eqn:Hrun; try done. injection H2 as _ <-.
  rewrite (bind_Ok _ _ _ _ _ (sched_cur_run _)) in H. injection H as Hb <-. simpl in Hb. apply negb_false_iff, Z.eqb_eq in Hb.
  destruct (schedule_zombie _ _ _ _ Hz Hrun) as (Hz' & Ht & Hc). simpl. rewrite Hb. split; [done|]. rewrite Ht. by apply Hc.
Qed.

(** After the task has become a zombie do_exit() only tells the father. *)
Lemma tell_father_back pid s s' :
  zombie_task s → tell_father pid s = Ok false s' → zombie_task s'.
Proof.
  intros Hz H. unfold tell_father in H. rewrite (bind_Ok get _ s s s eq_refl) in H.
  apply bind_Ok_inv in H as (f & s1 & H1 & H).
  assert (zombie_task s1) as Hz1.
  { unfold zoom in H1. destruct (if truth pid then _ else _) as [a d| | | |] eqn:Hrun in H1; try done. injection H1 as <- <-.
    assert (d = k_sched s) as ->; [|by destruct s]. revert Hrun. destruct (truth pid); [|by intros [= _ <-]].
    clear. revert a. induction (Sched.task (k_sched s)) as [|q l IH]; intros a; simpl; [by intros [= _ <-]|].
    destruct (q =? 0); [apply IH|]. intros H. apply bind_Ok_inv in H as (t & d1 & H1 & H).
    unfold task_at, get in H1. mred in H1. destruct (tasks (k_sched s) !! q); [|done]. injection H1 as _ <-.
    destruct (Types.pid t =? pid); [by injection H as _ <-|by eapply IH]. }
  clear Hz H1. destruct f as [q|].
  - apply bind_Ok_inv in H as (u & s2 & H2 & H). injection H as <-. unfold zoom in H2.
    destruct (upd_task q _ (k_sched s1)) as [a d| | | |] eqn:Hrun; try done. injection H2 as _ <-.
    assert (Hst : steady (upd_task q (λ t, t <| signal ::= λ g, Z.lor g (sig_bit SIGCHLD) |>)))
      by (apply steady_upd_task; by intros []).
    destruct (Hst _ _ _ _ Hz1 Hrun) as (Hz & Hc & _). change (zombie (current d) d). by rewrite Hc.
  - unfold printk in H. rewrite bind_ret_l, (bind_Ok _ _ _ _ _ (sched_cur_run s1)) in H.
    apply bind_Ok_inv in H as (u & s2 & H2 & H). apply (schedule_away_back s2 s'); [|done]. clear H.
    unfold release_page in H2. rewrite (bind_Ok get _ s1 s1 s1 eq_refl) in H2.
    destruct (slot_of _ _) as [i|]; [|done]. apply bind_Ok_inv in H2 as (v & s3 & H3 & H4). injection H3 as _ <-.
    unfold zoom in H4. destruct (free_page _ _); try done. by injection H4 as _ <-.
Qed.

Lemma upd_me_zombie code s s' :
  upd_me (λ t, t <| state := TASK_ZOMBIE |> <| exit_code := code |>) s = Ok tt s' → zombie_task s'.
Proof.
  unfold upd_me, zoom, upd_cur, upd_task, task_at, cur, gets, get, modify. mred.
  destruct (tasks (k_sched s) !! current (k_sched s)) as [t|]; [|done]. cbn. intros [= <-].
  eexists. split; [apply lookup_insert_eq|done].
Qed.
Lemma do_exit_back code s v s' :
  do_exit code s = Ok (Some v) s' → v = -1 ∧ Sched.task (k_sched s') !! 0%nat = Some (current (k_sched s')).
Proof.
  intros H. unfold do_exit in H. do 17 apply bind_Ok_inv in H as (? & ? & _ & H).
  apply bind_Ok_inv in H as ([] & s1 & H1%upd_me_zombie & H). apply bind_Ok_inv in H as ([] & s2 & H2 & H); [done|].
  apply (tell_father_back _ _ _ H1) in H2. apply bind_Ok_inv in H as ([] & s3 & H3 & H); [done|].
  apply (schedule_away_back _ _ H2) in H3 as [_ Hc]. injection H as <- <-. done.
Qed.
End LastExit.
