(* ===== verification/TtyProofs.v ===== *)
(** * The terminal queues and the line discipline

    A queue refines the list of its characters; copy_to_cooked refines a line
    editor on lists. *)

From stdpp Require Import base option list gmap.
From Stdlib Require Import ZArith Lia.
From S2P Require Import Prelude Types Memory Screen Sched Kernel KernelFacts SignalProofs Inode FileDev Tty.
Local Open Scope Z_scope.

(** ** A queue is a list *)

Definition queue_ok (q : tty_queue) : Prop :=
  0 ≤ q_head q < 1024 ∧ 0 ≤ q_tail q < 1024 ∧ length (q_buf q) = 1024%nat.
Definition q_list (q : tty_queue) : list Z :=
  (λ k : nat, q_char q ((q_tail q + Z.of_nat k) mod 1024)) <$> seq 0 (Z.to_nat (CHARS q)).

Lemma land1023 x : Z.land x (TTY_BUF_SIZE - 1) = x mod 1024.
Proof. change (TTY_BUF_SIZE - 1) with (Z.ones 10). by rewrite Z.land_ones. Qed.

(** [x mod 1024] for an [x] one turn around at most. *)
Lemma mod1024 x : -1024 ≤ x < 2048 →
  x mod 1024 = if x <? 0 then x + 1024 else if x <? 1024 then x else x - 1024.
Proof.
  intros Hx. destruct (Z.ltb_spec x 0); [|destruct (Z.ltb_spec x 1024)].
  - rewrite <-(Z.mod_add x 1) by lia. rewrite Z.mod_small; lia.
  - apply Z.mod_small. lia.
  - rewrite <-(Z.mod_add x (-1)) by lia. rewrite Z.mod_small; lia.
Qed.
Ltac leb_cases :=
  repeat match goal with |- context [?a <=? ?b] => destruct (Z.leb_spec a b) end;
  repeat match goal with H : context [?a <=? ?b] |- _ => destruct (Z.leb_spec a b) end; lia.

Lemma CHARS_val q : queue_ok q →
  CHARS q = if q_tail q <=? q_head q then q_head q - q_tail q else q_head q - q_tail q + 1024.
Proof.
  intros (Hh & Ht & _). unfold CHARS. rewrite land1023, mod1024 by lia.
  destruct (Z.leb_spec (q_tail q) (q_head q)), (Z.ltb_spec (q_head q - q_tail q) 0),
    (Z.ltb_spec (q_head q - q_tail q) 1024); lia.
Qed.
Lemma CHARS_bound q : queue_ok q → 0 ≤ CHARS q < 1024.
Proof. intros H. rewrite CHARS_val by done. destruct H as (?&?&_). destruct (Z.leb_spec (q_tail q) (q_head q)); lia. Qed.
Lemma length_q_list q : queue_ok q → Z.of_nat (length (q_list q)) = CHARS q.
Proof. intros H. unfold q_list. rewrite length_fmap, length_seq. pose proof (CHARS_bound q H). lia. Qed.

Lemma EMPTY_spec q : queue_ok q → EMPTY q = bool_decide (q_list q = []).
Proof.
  intros Hq. pose proof (length_q_list q Hq) as Hl. rewrite CHARS_val in Hl by done.
  destruct Hq as (?&?&_). unfold EMPTY. case_bool_decide as Hn.
  - rewrite Hn in Hl. simpl in Hl. destruct (Z.leb_spec (q_tail q) (q_head q)); lia.
  - apply Z.eqb_neq. intros Heq. apply Hn, nil_length_inv.
    destruct (Z.leb_spec (q_tail q) (q_head q)); lia.
Qed.
Lemma FULL_spec q : queue_ok q → FULL q = bool_decide (length (q_list q) = 1023%nat).
Proof.
  intros Hq. pose proof (length_q_list q Hq) as Hl. rewrite CHARS_val in Hl by done.
  destruct Hq as (?&?&_). unfold FULL, LEFT, truth. rewrite land1023, negb_involutive.
  destruct (Z.eqb_spec ((q_tail q - q_head q - 1) mod 1024) 0) as [Hm|Hm];
    rewrite mod1024 in Hm by lia; case_bool_decide as Hn; try done; exfalso;
    destruct (Z.leb_spec (q_tail q) (q_head q)), (Z.ltb_spec (q_tail q - q_head q - 1) 0),
      (Z.ltb_spec (q_tail q - q_head q - 1) 1024); lia.
Qed.

Lemma q_list_lookup q k : (k < Z.to_nat (CHARS q))%nat →
  q_list q !! k = Some (q_char q ((q_tail q + Z.of_nat k) mod 1024)).
Proof. intros Hk. unfold q_list. by rewrite list_lookup_fmap, lookup_seq_lt. Qed.

(** What each macro does to the list. *)
Lemma PUTCH_spec c q :
  queue_ok q → (length (q_list q) < 1023)%nat →
  queue_ok (PUTCH c q) ∧ q_list (PUTCH c q) = q_list q ++ [s8 c].
Proof.
  intros Hq Hlt. pose proof (length_q_list q Hq) as Hl. pose proof Hq as (Hh & Ht & Hb).
  assert (Hq' : queue_ok (PUTCH c q)).
  { unfold PUTCH, INC, queue_ok. simpl. rewrite land1023, length_zinsert.
    pose proof (Z.mod_pos_bound (q_head q + 1) 1024). lia. }
  assert (Hc : CHARS (PUTCH c q) = CHARS q + 1).
  { rewrite (CHARS_val _ Hq'), (CHARS_val _ Hq). rewrite (CHARS_val _ Hq) in *. unfold PUTCH, INC. simpl. rewrite land1023, mod1024 by lia.
    destruct (Z.ltb_spec (q_head q + 1) 0), (Z.ltb_spec (q_head q + 1) 1024);
      leb_cases. }
  split; [done|]. apply list_eq_same_length with (S (length (q_list q))).
  { rewrite length_app. simpl. lia. }
  { pose proof (length_q_list _ Hq'). lia. }
  intros i x y Hi Hx Hy. rewrite q_list_lookup in Hx by lia. injection Hx as <-.
  unfold q_char, PUTCH at 1. simpl q_buf. change (q_tail (PUTCH c q)) with (q_tail q).
  destruct (decide (i = length (q_list q))) as [->|Hne].
  - rewrite lookup_app_r, Nat.sub_diag in Hy by lia. injection Hy as <-.
    rewrite Hl. replace ((q_tail q + CHARS q) mod 1024) with (q_head q).
    { by rewrite zlookup_zinsert_eq by lia. }
    rewrite CHARS_val by done. destruct (Z.leb_spec (q_tail q) (q_head q)).
    + replace (q_tail q + (q_head q - q_tail q)) with (q_head q) by lia. by rewrite Z.mod_small by lia.
    + replace (q_tail q + (q_head q - q_tail q + 1024)) with (q_head q + 1 * 1024) by lia.
      by rewrite Z.mod_add, Z.mod_small by lia.
  - rewrite lookup_app_l, q_list_lookup in Hy by lia. injection Hy as <-.
    rewrite zlookup_zinsert_ne; [done|].
    rewrite CHARS_val in Hl by done. rewrite mod1024 by lia.
    destruct (Z.leb_spec (q_tail q) (q_head q)), (Z.ltb_spec (q_tail q + Z.of_nat i) 0),
      (Z.ltb_spec (q_tail q + Z.of_nat i) 1024); lia.
Qed.

(** A character put into a full queue makes it look empty. *)
Lemma PUTCH_any c q :
  queue_ok q → queue_ok (PUTCH c q) ∧ ∀ x, x ∈ q_list (PUTCH c q) → x ∈ q_list q ∨ x = s8 c.
Proof.
  intros Hq. pose proof (length_q_list q Hq) as Hl. pose proof (CHARS_bound q Hq) as Hb.
  destruct (decide (length (q_list q) < 1023)%nat) as [Hlt|Hfull].
  { destruct (PUTCH_spec c q Hq Hlt) as [Hok Heq]. split; [done|]. intros x.
    rewrite Heq, elem_of_app, list_elem_of_singleton. done. }
  assert (Hok : queue_ok (PUTCH c q)).
  { destruct Hq as (? & ? & ?). unfold PUTCH, INC, queue_ok. simpl. rewrite land1023, length_zinsert.
    pose proof (Z.mod_pos_bound (q_head q + 1) 1024). lia. }
  split; [done|]. intros x Hx. exfalso.
  assert (q_list (PUTCH c q) = []) as Hnil; [|by rewrite Hnil in Hx; apply elem_of_nil in Hx].
  apply nil_length_inv. pose proof (length_q_list _ Hok) as Hl'.
  assert (CHARS (PUTCH c q) = 0); [|lia].
  assert (Hc : CHARS q = 1023) by lia. clear Hx Hl Hl' Hb Hfull.
  unfold CHARS in Hc |- *. rewrite land1023 in *. unfold PUTCH, INC. simpl. rewrite land1023.
  rewrite Zminus_mod_idemp_l. replace (q_head q + 1 - q_tail q) with (q_head q - q_tail q + 1) by lia.
  rewrite <-Zplus_mod_idemp_l, Hc. done.
Qed.

Lemma GETCH_spec q c l :
  queue_ok q → q_list q = c :: l →
  (GETCH q).1 = c ∧ queue_ok (GETCH q).2 ∧ q_list (GETCH q).2 = l.
Proof.
  intros Hq Heq. pose proof (length_q_list q Hq) as Hl. pose proof Hq as (Hh & Ht & Hb).
  rewrite Heq in Hl. simpl in Hl.
  assert (Hc0 : (GETCH q).1 = c).
  { pose proof (q_list_lookup q 0 ltac:(lia)) as H0. rewrite Heq in H0. injection H0 as ->.
    unfold GETCH. cbn [fst]. by rewrite Z.add_0_r, Z.mod_small by lia. }
  assert (Hq' : queue_ok (GETCH q).2).
  { unfold GETCH, INC, queue_ok. cbn [snd]. simpl. rewrite land1023.
    pose proof (Z.mod_pos_bound (q_tail q + 1) 1024). lia. }
  assert (Htail : q_tail (GETCH q).2 = (q_tail q + 1) mod 1024).
  { unfold GETCH, INC. cbn [snd]. simpl. by rewrite land1023. }
  assert (Hc : CHARS (GETCH q).2 = CHARS q - 1).
  { rewrite (CHARS_val _ Hq'), (CHARS_val _ Hq). rewrite (CHARS_val _ Hq) in *. rewrite Htail. change (q_head (GETCH q).2) with (q_head q).
    rewrite mod1024 by lia.
    destruct (Z.ltb_spec (q_tail q + 1) 0), (Z.ltb_spec (q_tail q + 1) 1024);
      leb_cases. }
  split; [done|]. split; [done|].
  pose proof (length_q_list _ Hq') as Hl'.
  apply list_eq_same_length with (length l); [done|lia|].
  intros i x y Hi Hx Hy. rewrite q_list_lookup in Hx by lia. injection Hx as <-.
  pose proof (q_list_lookup q (S i) ltac:(lia)) as H1. rewrite Heq in H1. simpl in H1.
  rewrite Hy in H1. injection H1 as ->.
  change (q_char (q <| q_tail ::= INC |>)) with (q_char q). unfold INC. rewrite land1023. f_equal.
  rewrite Zplus_mod_idemp_l. f_equal. lia.
Qed.

Lemma UNPUT_spec q c l :
  queue_ok q → q_list q = l ++ [c] →
  LAST q = c ∧ queue_ok (UNPUT q) ∧ q_list (UNPUT q) = l.
Proof.
  intros Hq Heq. pose proof (length_q_list q Hq) as Hl. pose proof Hq as (Hh & Ht & Hb).
  rewrite Heq, length_app in Hl. simpl in Hl. pose proof (CHARS_bound q Hq).
  assert (Hlast : LAST q = c).
  { pose proof (q_list_lookup q (length l) ltac:(lia)) as H0.
    rewrite Heq, list_lookup_middle in H0 by done. injection H0 as ->.
    unfold LAST. f_equal. rewrite Z.land_comm, land1023.
    rewrite CHARS_val in Hl by done.
    replace (Z.of_nat (length l)) with
      (if q_tail q <=? q_head q then q_head q - q_tail q - 1 else q_head q - q_tail q + 1024 - 1)
      by (destruct (Z.leb_spec (q_tail q) (q_head q)); lia).
    destruct (Z.leb_spec (q_tail q) (q_head q)); [f_equal; lia|].
    rewrite <-(Z.mod_add (q_head q - 1) 1) by lia. f_equal. lia. }
  assert (Hq' : queue_ok (UNPUT q)).
  { unfold UNPUT, DEC, queue_ok. simpl. rewrite land1023.
    pose proof (Z.mod_pos_bound (q_head q - 1) 1024). lia. }
  assert (Hc : CHARS (UNPUT q) = CHARS q - 1).
  { rewrite (CHARS_val _ Hq'), (CHARS_val _ Hq). rewrite (CHARS_val _ Hq) in *. unfold UNPUT, DEC. simpl. rewrite land1023, mod1024 by lia.
    destruct (Z.ltb_spec (q_head q - 1) 0), (Z.ltb_spec (q_head q - 1) 1024);
      leb_cases. }
  split; [done|]. split; [done|]. pose proof (length_q_list _ Hq') as Hl'.
  apply list_eq_same_length with (length l); [done|lia|].
  intros i x y Hi Hx Hy. rewrite q_list_lookup in Hx by lia. injection Hx as <-.
  pose proof (q_list_lookup q i ltac:(lia)) as H1. rewrite Heq, lookup_app_l in H1 by lia.
  rewrite Hy in H1. injection H1 as ->. done.
Qed.

(** ** The line editor *)

(** [c] ends a line: newline or the end-of-file character. *)
Definition ends_line (t : tty_struct) (c : Z) : bool := (c =? 10) || (c =? EOF_CHAR t).

(** The editing of what has been accepted, kept with the latest character
    first: erase takes one character of the unfinished line, kill all. *)
Definition erase_rev (t : tty_struct) (r : list Z) : list Z :=
  match r with [] => [] | c :: r' => if ends_line t c then r else r' end.
Fixpoint kill_rev (t : tty_struct) (r : list Z) : list Z :=
  match r with [] => [] | c :: r' => if ends_line t c then r else kill_rev t r' end.

(** What one raw character does to the accepted text [l]: it is translated or
    dropped; in canonical mode kill, erase, stop and start are obeyed; with
    ISIG the interrupt and quit characters only raise signals; every other
    character is appended. *)
Definition edit (t : tty_struct) (l : list Z) (raw : Z) : list Z :=
  match input_char t raw with
  | None => l
  | Some c =>
      if _L_FLAG t ICANON && (c =? KILL_CHAR t) then reverse (kill_rev t (reverse l))
      else if _L_FLAG t ICANON && (c =? ERASE_CHAR t) then reverse (erase_rev t (reverse l))
      else if _L_FLAG t ICANON && ((c =? STOP_CHAR t) || (c =? START_CHAR t)) then l
      else if _L_FLAG t ISIG && ((c =? INTR_CHAR t) || (c =? QUIT_CHAR t)) then l
      else l ++ [s8 c]
  end.

Lemma ends_line_termios t t' c : termios t = termios t' → ends_line t c = ends_line t' c.
Proof. unfold ends_line, EOF_CHAR, c_cc_at. by intros ->. Qed.
Lemma kill_rev_termios t t' r : termios t = termios t' → kill_rev t r = kill_rev t' r.
Proof. intros H. induction r as [|c r IH]; simpl; [done|]. by rewrite IH, (ends_line_termios t t'). Qed.
Lemma edit_termios t t' l c : termios t = termios t' → edit t l c = edit t' l c.
Proof.
  intros H. unfold edit, input_char, _L_FLAG, _I_FLAG, KILL_CHAR, ERASE_CHAR, STOP_CHAR, START_CHAR,
    INTR_CHAR, QUIT_CHAR, c_cc_at, erase_rev. rewrite H.
  case_match; [|done]. rewrite (kill_rev_termios t t') by done.
  destruct (reverse l); [done|]. by rewrite (ends_line_termios t t').
Qed.
Lemma length_kill_rev t r : (length (kill_rev t r) ≤ length r)%nat.
Proof. induction r as [|c r IH]; simpl; [lia|]. case_match; simpl; lia. Qed.

(** ** The terminal as copy_to_cooked sees it *)

(** The console has nothing to answer: it is the terminal's output, no escape
    character is waiting to be printed and the last one printed was none. *)
Definition calm (s : kernel) (t : tty_struct) : Prop :=
  t_write t = con_write_fn ∧ queue_ok (write_q t) ∧ 27 ∉ q_list (write_q t) ∧ c_state (k_con s) ≠ 1.

(** Terminal [n] has the settings of [t0], raw input [rd] and accepted text
    [sec]; the sleeper on the accepted text, if any, is a task; the console is
    calm. *)
Definition t_ok (s : kernel) (t0 : tty_struct) (rd sec : list Z) (t : tty_struct) : Prop :=
  termios t = termios t0 ∧ queue_ok (read_q t) ∧ queue_ok (secondary t) ∧
  q_list (read_q t) = rd ∧ q_list (secondary t) = sec ∧
  (q_proc_list (secondary t) = 0 ∨ is_Some (tasks (k_sched s) !! q_proc_list (secondary t))) ∧ calm s t.
Definition tview (s : kernel) (n : nat) (t0 : tty_struct) (rd sec : list Z) : Prop :=
  table_ok (k_sched s) ∧ ∃ t, tty_table (k_tty s) !! n = Some t ∧ t_ok s t0 rd sec t.

(** What echoing [c] prints is no escape character: [^] and the character 64
    after [c] stand for a control character, and 27 is 64 after -37 (0xDB). *)
Definition echo_ok (t : tty_struct) (c : Z) : Prop :=
  -128 ≤ c < 128 ∧ (c = -37 → _L_FLAG t ECHO && _L_FLAG t ECHOCTL = false).

(** [s] with another output queue of terminal [n], another screen and another
    count of the speaker. *)
Definition printed (s : kernel) (n : nat) (q : tty_queue) (c : console) (b : Z) : kernel :=
  s <| k_tty ::= λ d, d <| tty_table ::= alter (λ t, t <| write_q := q |>) n |> |>
    <| k_con := c |> <| k_sched ::= λ d, d <| beepcount := b |> |>.

(** What the line discipline asks of the console: in a calm state its output
    routine only takes characters from the output queue, and stays calm. *)
Class CalmOutput (E : Env) := calm_output : ∀ n s t, tty_table (k_tty s) !! n = Some t → calm s t →
  ∃ q c b, tty_out con_write_fn n s = printed s n q c b ∧ calm (printed s n q c b) (t <| write_q := q |>).

Section Cooked.
Context {E : Env} {HE : CalmOutput E}.
Implicit Types (s : kernel) (t : tty_struct) (rd sec : list Z).

Lemma tty_at_run s n t : tty_table (k_tty s) !! n = Some t → tty_at n s = Ok t s.
Proof. intros H. unfold tty_at, deref. mred. unfold get. by rewrite H. Qed.

Lemma wp_tty_at s n t0 rd sec Q :
  tview s n t0 rd sec →
  (∀ t, tty_table (k_tty s) !! n = Some t → t_ok s t0 rd sec t → Q t s) →
  wp (tty_at n) Q s.
Proof. intros (_ & t & Ht & Hok) HQ. unfold wp. rewrite (tty_at_run _ _ _ Ht). by apply HQ. Qed.

Lemma tview_upd s n t0 rd sec f rd' sec' :
  tview s n t0 rd sec → (∀ t, t_ok s t0 rd sec t → t_ok s t0 rd' sec' (f t)) →
  wp (upd_tty n f) (λ _ s', tview s' n t0 rd' sec') s.
Proof.
  intros (Htab & t & Ht & Hok) Hf. unfold upd_tty. apply wp_bind. unfold wp.
  rewrite (tty_at_run _ _ _ Ht). simpl. split; [done|]. exists (f t). split; [|by apply Hf].
  simpl. apply list_lookup_insert_eq. by eapply lookup_lt_Some.
Qed.

Lemma tview_putch_w s n t0 rd sec c :
  s8 c ≠ 27 → tview s n t0 rd sec → wp (upd_tty n (putch_w c)) (λ _ s', tview s' n t0 rd sec) s.
Proof.
  intros Hc H. eapply tview_upd; [done|]. intros t (H1 & H2 & H3 & H4 & H5 & H6 & Hw & Hq & Hn & Hs).
  destruct (PUTCH_any c _ Hq) as [Hq' Hin].
  refine (conj H1 (conj H2 (conj H3 (conj H4 (conj H5 (conj H6 (conj Hw (conj Hq' (conj _ Hs))))))))).
  intros [?|?]%Hin; congruence.
Qed.

Lemma tview_start s n t0 rd sec :
  tview s n t0 rd sec → wp (tty_start n) (λ _ s', tview s' n t0 rd sec) s.
Proof.
  intros Hv. unfold tty_start. apply wp_bind. eapply wp_tty_at; [done|]. intros t Ht Hok.
  destruct Hok as (H1 & H2 & H3 & H4 & H5 & H6 & H7). pose proof H7 as (Hw & _).
  unfold wp, modify. rewrite Hw. destruct (calm_output n s t Ht H7) as (wq & con & beep & -> & Hcalm).
  destruct Hv as [Htab _]. split; [done|]. exists (t <| write_q := wq |>).
  split; [simpl; by rewrite list_lookup_alter_eq, Ht|]. done.
Qed.

(** A sequence of steps that keep the view. *)
Lemma wp_keep {A} (m : M kernel A) (f : A → M kernel unit) s n t0 rd sec sec' :
  wp m (λ _ s', tview s' n t0 rd sec) s →
  (∀ a s', tview s' n t0 rd sec → wp (f a) (λ _ s', tview s' n t0 rd sec') s') →
  wp (m ≫= f) (λ _ s', tview s' n t0 rd sec') s.
Proof. intros Hm Hf. apply wp_bind. eapply wp_mono; [exact Hm|]. intros a s'. apply Hf. Qed.
Lemma wp_when_keep (b : bool) (m : M kernel unit) s n t0 rd sec :
  tview s n t0 rd sec → (b = true → wp m (λ _ s', tview s' n t0 rd sec) s) →
  wp (when b m) (λ _ s', tview s' n t0 rd sec) s.
Proof. intros ? H. destruct b; [by apply H|done]. Qed.
Ltac keep :=
  lazymatch goal with
  | |- wp (_ ≫= _) _ _ => eapply wp_keep; [keep|intros; keep]
  | |- wp (when _ _) _ _ => apply wp_when_keep; [eassumption|intros _; keep]
  | |- wp (if ?b then _ else _) _ _ => destruct b; keep
  | |- wp (upd_tty _ (putch_w _)) _ _ => apply tview_putch_w; [done|eassumption]
  | |- wp (tty_start _) _ _ => apply tview_start; eassumption
  | |- wp (mret _) _ _ => apply wp_ret; eassumption
  end.

Lemma s8_char c : -128 ≤ c < 128 → s8 c = c.
Proof. intros Hc. unfold s8. rewrite Z.mod_small; lia. Qed.
Lemma echo_ok_termios t t' c : termios t = termios t' → echo_ok t c → echo_ok t' c.
Proof. unfold echo_ok, _L_FLAG. by intros ->. Qed.
Lemma tview_echo s n t0 rd sec c :
  echo_ok t0 c → tview s n t0 rd sec → wp (echo n c) (λ _ s', tview s' n t0 rd sec) s.
Proof.
  intros Hc Hv. unfold echo. apply wp_bind. eapply wp_tty_at; [done|]. intros t _ Hok.
  apply (echo_ok_termios t0 t) in Hc; [|by destruct Hok]. destruct Hc as [Hc Hesc].
  apply wp_when_keep; [done|]. intros Hecho. eapply wp_keep; [|intros; keep].
  destruct (Z.eqb_spec c 10); [keep|]. destruct (Z.ltb_spec c 32).
  - apply wp_when_keep; [done|]. intros Hctl. eapply wp_keep; [keep|]. intros _ s1 Hv1. apply tview_putch_w; [|done].
    rewrite s8_char by lia. intros Heq. rewrite Hecho, Hctl in Hesc. by specialize (Hesc ltac:(lia)).
  - apply tview_putch_w; [|done]. rewrite s8_char by lia. lia.
Qed.
Lemma tview_echo_erase s n t0 rd sec c :
  tview s n t0 rd sec → wp (echo_erase n c) (λ _ s', tview s' n t0 rd sec) s.
Proof. intros Hv. unfold echo_erase. apply wp_bind. eapply wp_tty_at; [done|]. intros t _ _. keep. Qed.

Lemma tview_intr s n t0 rd sec mask :
  tview s n t0 rd sec → wp (tty_intr n mask) (λ _ s', tview s' n t0 rd sec) s.
Proof.
  intros Hv. unfold tty_intr. apply wp_bind. eapply wp_tty_at; [done|]. intros t _ _.
  case_match; [by apply wp_ret|].
  assert (Hloop : wp (for_each (seq 0 NR_TASKS) (λ i,
    p ← task_slot i;
    if p =? 0 then mret tt else
    x ← task_at p;
    when (pgrp x =? t_pgrp t) (upd_task p (λ x, x <| signal ::= λ g, Z.lor g mask |>))))
    (λ _ d, table_ok d ∧ ∀ p, is_Some (tasks (k_sched s) !! p) → is_Some (tasks d !! p)) (k_sched s)).
  { apply (wp_for_seq NR_TASKS _ (λ _ d, table_ok d ∧ ∀ p, is_Some (tasks (k_sched s) !! p) → is_Some (tasks d !! p))).
    - split; [apply Hv|done].
    - intros k d Hk [(Hlen & H0 & Hok) Hdom].
      destruct (lookup_lt_is_Some_2 (task d) k) as [p Hp]; [lia|].
      apply wp_bind. unfold task_slot, deref. unfold wp. mred. unfold get. rewrite Hp.
      destruct (Z.eqb_spec p 0) as [|Hnz]; [done|]. destruct (Hok k p Hp Hnz) as [x Hx].
      rewrite (task_at_run _ _ _ Hx). destruct (pgrp x =? t_pgrp t); [|done].
      rewrite (upd_task_run _ _ _ _ Hx). split.
      + split; [done|]. split; [simpl; by rewrite lookup_insert_ne by congruence|].
        intros i q Hq Hq0. simpl. rewrite lookup_insert_is_Some'. right. by eapply Hok.
      + intros q Hq. simpl. rewrite lookup_insert_is_Some'. right. by apply Hdom. }
  destruct (proj1 (wp_Ok _ _ _) Hloop) as ([] & d & Hd & Htab & Hdom).
  unfold wp, zoom. rewrite Hd. split; [done|].
  destruct Hv as (_ & t' & Ht' & H1 & H2 & H3 & H4 & H5 & H6 & H7). exists t'. split; [done|].
  refine (conj H1 (conj H2 (conj H3 (conj H4 (conj H5 (conj _ H7)))))). destruct H6; [by left|right; by apply Hdom].
Qed.

(** The last accepted character, if the line it is in is unfinished. *)
Lemma erasable_spec s t0 rd sec t :
  t_ok s t0 rd sec t →
  match reverse sec with
  | [] => erasable t = None
  | c :: r => erasable t = if ends_line t0 c then None else Some c
  end.
Proof.
  intros (Ht & _ & Hq & _ & Hsec & _). unfold erasable. rewrite EMPTY_spec, Hsec by done.
  destruct (reverse sec) as [|c r] eqn:Hr.
  - assert (sec = []) as -> by (rewrite <-(reverse_involutive sec), Hr; done). done.
  - assert (Hs : sec = reverse r ++ [c]) by (by rewrite <-(reverse_involutive sec), Hr, reverse_cons).
    rewrite bool_decide_eq_false_2 by (rewrite Hs; by destruct (reverse r)).
    rewrite <-Hsec in Hs. destruct (UNPUT_spec _ _ _ Hq Hs) as (-> & _).
    rewrite (ends_line_termios t0 t) by done. done.
Qed.

Lemma tview_unput s n t0 rd sec c r :
  tview s n t0 rd sec → reverse sec = c :: r →
  wp (upd_tty n (λ t, t <| secondary ::= UNPUT |>)) (λ _ s', tview s' n t0 rd (reverse r)) s.
Proof.
  intros Hv Hr. eapply tview_upd; [done|]. intros t (H1 & H2 & H3 & H4 & H5 & H6).
  assert (Hs : q_list (secondary t) = reverse r ++ [c])
    by (by rewrite H5, <-(reverse_involutive sec), Hr, reverse_cons).
  destruct (UNPUT_spec _ _ _ H3 Hs) as (_ & Hok & Hl).
  exact (conj H1 (conj H2 (conj Hok (conj H4 (conj Hl H6))))).
Qed.

Lemma wp_kill_line fuel s n t0 rd sec :
  tview s n t0 rd sec → (length sec < fuel)%nat →
  wp (kill_line fuel n) (λ _ s', tview s' n t0 rd (reverse (kill_rev t0 (reverse sec)))) s.
Proof.
  revert s sec. induction fuel as [|fuel IH]; intros s sec Hv Hlen; [lia|]. cbn [kill_line].
  apply wp_bind. eapply wp_tty_at; [done|]. intros t _ Hok.
  pose proof (erasable_spec _ _ _ _ _ Hok) as He.
  destruct (reverse sec) as [|c r] eqn:Hr.
  - rewrite He. apply wp_ret. cbn [kill_rev]. rewrite <-Hr, reverse_involutive. done.
  - rewrite He. cbn [kill_rev]. destruct (ends_line t0 c) eqn:Hend.
    { apply wp_ret. rewrite <-Hr, reverse_involutive. done. }
    eapply wp_keep; [by apply tview_echo_erase|]. intros _ s1 Hv1.
    apply wp_bind. eapply wp_mono; [exact (tview_unput _ _ _ _ _ c r Hv1 Hr)|].
    intros ? s2 Hv2. specialize (IH s2 (reverse r) Hv2). rewrite reverse_involutive in IH. apply IH.
    apply (f_equal length) in Hr. rewrite length_reverse in Hr. rewrite length_reverse. simpl in Hr. lia.
Qed.

Lemma tview_putch_secondary s n t0 rd sec c :
  tview s n t0 rd sec → (length sec < 1023)%nat →
  wp (upd_tty n (λ t, t <| secondary ::= PUTCH c |>)) (λ _ s', tview s' n t0 rd (sec ++ [s8 c])) s.
Proof.
  intros Hv Hlen. eapply tview_upd; [done|]. intros t (H1 & H2 & H3 & H4 & H5 & H6).
  destruct (PUTCH_spec c (secondary t)) as [Hok Hl]; [done|by rewrite H5|]. rewrite H5 in Hl.
  exact (conj H1 (conj H2 (conj Hok (conj H4 (conj Hl H6))))).
Qed.

(** Settings that do not change the view. *)
Lemma tview_same s n t0 rd sec f :
  tview s n t0 rd sec →
  (∀ t, termios (f t) = termios t ∧ read_q (f t) = read_q t ∧ q_buf (secondary (f t)) = q_buf (secondary t) ∧
        q_head (secondary (f t)) = q_head (secondary t) ∧ q_tail (secondary (f t)) = q_tail (secondary t) ∧
        q_proc_list (secondary (f t)) = q_proc_list (secondary t) ∧
        t_write (f t) = t_write t ∧ write_q (f t) = write_q t) →
  wp (upd_tty n f) (λ _ s', tview s' n t0 rd sec) s.
Proof.
  intros Hv Hf. eapply tview_upd; [done|]. intros t (H1 & H2 & H3 & H4 & H5 & H6).
  destruct (Hf t) as (E1 & E2 & E3 & E4 & E5 & E6 & E7 & E8).
  unfold t_ok, calm, queue_ok, q_list, CHARS, q_char. rewrite E1, E2, E3, E4, E5, E6, E7, E8.
  exact (conj H1 (conj H2 (conj H3 (conj H4 (conj H5 H6))))).
Qed.

Lemma wp_cook_rest s n t0 rd sec t c :
  echo_ok t0 c → tview s n t0 rd sec → t_ok s t0 rd sec t → (length sec < 1023)%nat →
  wp (if _L_FLAG t ISIG && (c =? INTR_CHAR t) then tty_intr n (_S SIGINT) else
      if _L_FLAG t ISIG && (c =? QUIT_CHAR t) then tty_intr n (_S SIGQUIT) else
      when ((c =? 10) || (c =? EOF_CHAR t))
        (upd_tty n (λ t, t <| secondary ::= λ q, q <| q_data ::= λ d, u32 (d + 1) |> |>)) ;;
      echo n c ;;
      upd_tty n (λ t, t <| secondary ::= PUTCH c |>))
   (λ _ s', tview s' n t0 rd
     (if _L_FLAG t ISIG && ((c =? INTR_CHAR t) || (c =? QUIT_CHAR t)) then sec else sec ++ [s8 c])) s.
Proof.
  intros Hc Hv Hok Hlen.
  assert (Hput : wp (when ((c =? 10) || (c =? EOF_CHAR t))
        (upd_tty n (λ t, t <| secondary ::= λ q, q <| q_data ::= λ d, u32 (d + 1) |> |>)) ;;
      echo n c ;; upd_tty n (λ t, t <| secondary ::= PUTCH c |>))
      (λ _ s', tview s' n t0 rd (sec ++ [s8 c])) s).
  { eapply wp_keep; [apply wp_when_keep; [done|intros _; by apply tview_same]|]. intros _ s1 Hv1.
    eapply wp_keep; [by apply tview_echo|]. intros _ s2 Hv2. by apply tview_putch_secondary. }
  destruct (_L_FLAG t ISIG); cbn [andb]; [|done].
  destruct (c =? INTR_CHAR t); cbn [orb]; [by apply tview_intr|].
  destruct (c =? QUIT_CHAR t); [by apply tview_intr|done].
Qed.

Lemma wp_cook_char s n t0 rd sec c :
  (∀ c', input_char t0 c = Some c' → echo_ok t0 c') → tview s n t0 rd sec → (length sec < 1023)%nat →
  wp (cook_char n c) (λ _ s', tview s' n t0 rd (edit t0 sec c)) s.
Proof.
  intros Hc Hv Hlen. unfold cook_char. apply wp_bind. eapply wp_tty_at; [done|]. intros t Ht Hok.
  rewrite <-(edit_termios t t0) by apply Hok. unfold edit.
  assert (Hin : input_char t c = input_char t0 c) by (unfold input_char, _I_FLAG; by replace (termios t) with (termios t0) by by destruct Hok).
  rewrite <-Hin in Hc. destruct (input_char t c) as [c'|]; [|by apply wp_ret]. specialize (Hc c' eq_refl). cbv zeta.
  assert (Hend : ∀ x, ends_line t x = ends_line t0 x) by (intros x; apply ends_line_termios, Hok).
  destruct (_L_FLAG t ICANON); cbn [andb].
  - destruct (c' =? KILL_CHAR t).
    { rewrite (kill_rev_termios t t0) by apply Hok.
      apply wp_kill_line; [done|]. change (Z.to_nat TTY_BUF_SIZE) with 1024%nat. lia. }
    destruct (c' =? ERASE_CHAR t).
    { pose proof (erasable_spec _ _ _ _ _ Hok) as He. unfold erase_rev.
      destruct (reverse sec) as [|x r] eqn:Hr; rewrite He.
      { apply wp_ret. by rewrite <-Hr, reverse_involutive. }
      rewrite <-Hend in *. destruct (ends_line t x) eqn:Hx.
      { apply wp_ret. by rewrite <-Hr, reverse_involutive. }
      eapply wp_keep; [by apply tview_echo_erase|]. intros _ s1 Hv1. by eapply tview_unput. }
    destruct (c' =? STOP_CHAR t); cbn [orb]; [by apply tview_same|].
    destruct (c' =? START_CHAR t); [by apply tview_same|].
    by eapply wp_cook_rest.
  - by eapply wp_cook_rest.
Qed.


Lemma tview_getch s n t0 rd sec t c rd' :
  tview s n t0 rd sec → tty_table (k_tty s) !! n = Some t → t_ok s t0 rd sec t → rd = c :: rd' →
  (GETCH (read_q t)).1 = c ∧
  wp (upd_tty n (λ x, x <| read_q := (GETCH (read_q t)).2 |>)) (λ _ s', tview s' n t0 rd' sec) s.
Proof.
  intros Hv Ht (H1 & H2 & H3 & H4 & H5 & H6) ->.
  destruct (GETCH_spec _ _ _ H2 H4) as (Hc & Hq & Hl). split; [done|].
  eapply tview_upd; [done|]. intros x (X1 & X2 & X3 & X4 & X5 & X6).
  change (termios x = termios t0 ∧ queue_ok (GETCH (read_q t)).2 ∧ queue_ok (secondary x) ∧
    q_list (GETCH (read_q t)).2 = rd' ∧ q_list (secondary x) = sec ∧
    (q_proc_list (secondary x) = 0 ∨ is_Some (tasks (k_sched s) !! q_proc_list (secondary x))) ∧ calm s x).
  exact (conj X1 (conj Hq (conj X3 (conj Hl (conj X5 X6))))).
Qed.

Lemma length_edit t0 sec c : (length sec ≤ 1023 → length (edit t0 sec c) ≤ S (length sec))%nat.
Proof.
  intros _. unfold edit. repeat case_match; rewrite ?length_app, ?length_reverse; simpl; try lia.
  - pose proof (length_kill_rev t0 (reverse sec)). rewrite length_reverse in *. lia.
  - unfold erase_rev. destruct (reverse sec) as [|x r] eqn:Hr; simpl; [lia|].
    apply (f_equal length) in Hr. rewrite length_reverse in Hr. simpl in Hr. case_match; simpl; lia.
Qed.

(** The translation of a character does not make it one that echoes ESC. *)
Lemma input_echo_ok t c c' : echo_ok t c → input_char t c = Some c' → echo_ok t c'.
Proof.
  intros [Hc He]. unfold input_char, tolower, isupper, echo_ok.
  destruct (Z.eqb_spec c 13); [destruct (_I_FLAG t ICRNL); [|destruct (_I_FLAG t IGNCR)]|
    destruct (Z.eqb_spec c 10); cbn [andb]; [destruct (_I_FLAG t INLCR)|]];
  cbn [fmap option_fmap option_map]; try done; intros [= <-]; destruct (_I_FLAG t IUCLC); subst; simpl; try (split; [lia|done]);
  destruct (Z.leb_spec 65 c), (Z.leb_spec c 90); simpl; split; (lia || done).
Qed.

(** The loop takes characters while there are any and the accepted text has room. *)
Lemma wp_cooked_loop fuel s n t0 rd sec :
  Forall (echo_ok t0) rd → tview s n t0 rd sec → (length rd < fuel)%nat → (length sec ≤ 1023)%nat →
  wp (copy_to_cooked_loop fuel n) (λ _ s', ∃ taken rest, rd = taken ++ rest ∧
    tview s' n t0 rest (foldl (edit t0) sec taken) ∧
    (rest = [] ∨ length (foldl (edit t0) sec taken) = 1023%nat)) s.
Proof.
  revert s rd sec. induction fuel as [|fuel IH]; intros s rd sec Hf Hv Hrd Hsec; [lia|].
  cbn [copy_to_cooked_loop]. apply wp_bind. eapply wp_tty_at; [done|]. intros t Ht Hok.
  pose proof Hok as (H1 & H2 & H3 & H4 & H5 & H6). rewrite EMPTY_spec, FULL_spec, H4, H5 by done.
  destruct rd as [|c rd].
  { rewrite bool_decide_eq_true_2 by done. apply wp_ret. exists [], []. split; [done|]. split; [done|]. by left. }
  apply Forall_cons in Hf as [Hc Hf]. rewrite bool_decide_eq_false_2 by done. cbn [orb].
  case_bool_decide as Hfull.
  { apply wp_ret. exists [], (c :: rd). split; [done|]. split; [done|]. by right. }
  destruct (tview_getch _ _ _ _ _ _ c rd Hv Ht Hok eq_refl) as [Hc0 Hget].
  destruct (GETCH (read_q t)) as [c0 q]. simpl in Hc0, Hget. subst c0.
  apply wp_bind. eapply wp_mono; [exact Hget|]. intros ? s1 Hv1.
  apply wp_bind. eapply wp_mono; [apply wp_cook_char; [intros c'; by apply input_echo_ok|exact Hv1|lia]|]. intros ? s2 Hv2.
  eapply wp_mono; [apply IH; [done|exact Hv2|simpl in Hrd; lia|]|].
  { pose proof (length_edit t0 sec c Hsec). lia. }
  intros ? s3 (taken & rest & -> & Hv3 & Hend). exists (c :: taken), rest. by split.
Qed.

Lemma tview_wake_up s n t0 rd sec :
  tview s n t0 rd sec → wp (wake_up (secondary_wait n)) (λ _ s', tview s' n t0 rd sec) s.
Proof.
  intros (Htab & t & Ht & H1 & H2 & H3 & H4 & H5 & H6 & H7). unfold wake_up.
  apply wp_bind. unfold wp at 1, gets. cbn [Kernel.rd secondary_wait]. rewrite Ht. cbn [fmap option_fmap option_map default id].
  unfold compose. set (p := q_proc_list (secondary t)) in *.
  unfold when. destruct (truth p) eqn:Hp.
  2: { split; [done|]. exists t. split; [done|].
       exact (conj H1 (conj H2 (conj H3 (conj H4 (conj H5 (conj H6 H7)))))). }
  apply truth_true in Hp. destruct H6 as [|[x Hx]]; [done|].
  apply wp_bind. unfold wp, zoom, make_runnable, when.
  rewrite (proj2 (truth_true p) Hp), (upd_task_run _ _ _ _ Hx). unfold modify. cbn [wr secondary_wait].
  split.
  - destruct Htab as (Hl & H0 & Hdom). split; [done|]. split.
    + simpl. by rewrite lookup_insert_ne by congruence.
    + intros i q Hq Hq0. simpl. rewrite lookup_insert_is_Some'. right. by eapply Hdom.
  - exists (t <| secondary ::= λ q, q <| q_proc_list := 0 |> |>).
    split; [simpl; by rewrite list_lookup_alter_eq, Ht|]. split; [done|]. split; [done|].
    split; [done|]. split; [done|]. split; [done|]. split; [by left|done].
Qed.

(** copy_to_cooked is the line editor [edit] run over the raw input. *)
Lemma copy_to_cooked_refines s n t0 rd sec :
  Forall (echo_ok t0) rd → tview s n t0 rd sec →
  ∃ s' taken rest, copy_to_cooked n s = Ok tt s' ∧ rd = taken ++ rest ∧
    tview s' n t0 rest (foldl (edit t0) sec taken) ∧
    (rest = [] ∨ length (foldl (edit t0) sec taken) = 1023%nat).
Proof using All.
  intros Hf Hv. assert (Hlen : (length rd < 1024)%nat ∧ (length sec ≤ 1023)%nat).
  { destruct Hv as (_ & t & _ & _ & H2 & H3 & <- & <- & _).
    pose proof (length_q_list _ H2). pose proof (CHARS_bound _ H2).
    pose proof (length_q_list _ H3). pose proof (CHARS_bound _ H3). lia. }
  assert (Hw : wp (copy_to_cooked n) (λ _ s', ∃ taken rest, rd = taken ++ rest ∧
    tview s' n t0 rest (foldl (edit t0) sec taken) ∧
    (rest = [] ∨ length (foldl (edit t0) sec taken) = 1023%nat)) s).
  { unfold copy_to_cooked. apply wp_bind. eapply wp_mono.
    - apply wp_cooked_loop; [done..| |lia]. change (Z.to_nat TTY_BUF_SIZE) with 1024%nat. lia.
    - intros ? s1 (taken & rest & -> & Hv1 & Hend).
      eapply wp_mono; [by eapply tview_wake_up|]. intros ? s2 Hv2. by exists taken, rest. }
  destruct (proj1 (wp_Ok _ _ _) Hw) as ([] & s' & Hrun & taken & rest & ?).
  by exists s', taken, rest.
Qed.
End Cooked.
