(* ===== verification/Console.v ===== *)
(** * kernel/chr_drv/console.c: con_write(), con_init() and the speaker *)

From stdpp Require Import base option list gmap.
From Stdlib Require Import ZArith Ascii.
From S2P Require Import Prelude Types Memory Sched Screen Kernel Ports Tty.
Local Open Scope Z_scope.

(** RESPONSE "\033[?1;2c" *)
Definition RESPONSE : list Z := 27 :: (chr <$> ["["; "?"; "1"; ";"; "2"; "c"]%char).

Section Console.
Context {E : Env}.

Definition con_out (v port : Z) : M kernel unit := modify (λ s, s <| k_con ::= outb_p v port |>).
Definition con_in (port : Z) : M kernel Z := gets (inb port).

(** Counter 2 drives the speaker; do_timer() counts [beepcount] down and calls
    sysbeepstop(). *)
Definition sysbeepstop : M kernel unit :=
  v ← con_in 0x61;
  con_out (Z.land v 0xFC) 0x61.
Definition sysbeep : M kernel unit :=
  v ← con_in 0x61;
  con_out (Z.lor v 3) 0x61 ;;
  con_out 0xB6 0x43 ;;
  con_out 0x37 0x42 ;;
  con_out 0x06 0x42 ;;
  modify (λ s, s <| k_sched ::= λ d, d <| beepcount := HZ / 8 |> |>).

Definition respond (n : nat) : M kernel unit :=
  for_each RESPONSE (λ ch, upd_tty n (λ t, t <| read_q ::= PUTCH ch |>)) ;;
  copy_to_cooked n.

(** One round of the loop: GETCH and the switch. *)
Definition con_write_char (n : nat) : M kernel unit :=
  t ← tty_at n;
  let '(ch, q) := GETCH (write_q t) in
  upd_tty n (λ t, t <| write_q := q |>) ;;
  s ← get;
  let '(c, r) := con_char (ERASE_CHAR t) ch (k_con s) in
  modify (λ s, s <| k_con := c |>) ;;
  match r with
  | Silent => mret tt
  | Beep => sysbeep
  | Respond => respond n
  end.
Definition con_write (n : nat) : M kernel unit :=
  t ← tty_at n;
  for_each (seq 0 (Z.to_nat (CHARS (write_q t)))) (λ _, con_write_char n) ;;
  modify (λ s, s <| k_con ::= set_cursor |>).

End Console.

(** The port writes enable the interrupt of the keyboard and reset it. *)
Definition con_init {L : Linked} {X D} {Ctl : Controller D} : M (io_system X D) unit :=
  zoom sys_k (modify (λ s, s <| k_con ::= init_screen (k_mm s) |>)) ;;
  zoom sys_k (zoom k_sched (set_trap_gate 0x21 keyboard_interrupt)) ;;
  mask_port 0xfd 0x21 ;;
  a ← inp 0x61;
  outp (Z.lor a 0x80) 0x61 ;;
  outp a 0x61.

(** ** The console as the terminals' output

    con_write() calls copy_to_cooked(), which calls con_write(): [console_env]
    is the environment in which this goes at most [k] calls deep. *)
Definition outcome_state {A} (s : kernel) (o : outcome kernel A) : kernel :=
  match o with Ok _ s' | Panic _ s' | Exit _ s' | Fault s' => s' | NoFuel => s end.
Fixpoint console_env (E : Env) (k : nat) : Env :=
  match k with
  | O => E
  | S k => {|
      others := @others E; start_io := @start_io E; floppy_change := @floppy_change E;
      tty_out := λ w n s, match w with
                          | con_write_fn => outcome_state s (@con_write (console_env E k) n s)
                          | rs_write_fn => @tty_out E w n s
                          end;
      inb := @inb E; outb := @outb E; patience := @patience E; depth := @depth E |}
  end.
