(* ===== verification/ConsoleProofs.v ===== *)
(** * con_write(): a terminal's output reaches the screen *)

From stdpp Require Import base option list gmap.
From Stdlib Require Import ZArith Lia.
From S2P Require Import Prelude Types Memory Sched Screen ScreenProofs ScreenSpec ScreenRefine ConsoleFacts.
From S2P Require Import Kernel KernelFacts Tty TtyProofs Console.
Local Open Scope Z_scope.

(** Nothing in the text asks for a beep or an answer. *)
Fixpoint silent (e : Z) (l : list Z) (c : console) : bool :=
  match l with
  | [] => true
  | ch :: l => match con_char e ch c with (c, Silent) => silent e l c | _ => false end
  end.

Section Write.
Context {E : Env}.
Implicit Types (s : kernel) (t : tty_struct).

(** [s] with another output queue of terminal [n] and another screen. *)
Definition shown s (n : nat) (q : tty_queue) (c : console) : kernel :=
  s <| k_tty ::= λ d, d <| tty_table ::= alter (λ t, t <| write_q := q |>) n |> |> <| k_con := c |>.
Lemma shown_lookup s n t q c :
  tty_table (k_tty s) !! n = Some t → tty_table (k_tty (shown s n q c)) !! n = Some (t <| write_q := q |>).
Proof. intros Ht. simpl. by rewrite list_lookup_alter_eq, Ht. Qed.
Lemma shown_twice s n q c q' c' : shown (shown s n q c) n q' c' = shown s n q' c'.
Proof.
  unfold shown, set. simpl. do 2 f_equal. apply list_eq. intros i. destruct (decide (i = n)) as [->|Hne].
  - rewrite !list_lookup_alter_eq. by destruct (tty_table (k_tty s) !! n).
  - by rewrite !list_lookup_alter_ne.
Qed.

Lemma con_write_char_run s n t ch l :
  tty_table (k_tty s) !! n = Some t → queue_ok (write_q t) → q_list (write_q t) = ch :: l →
  (con_char (ERASE_CHAR t) ch (k_con s)).2 = Silent →
  con_write_char n s = Ok tt (shown s n (GETCH (write_q t)).2 (con_char (ERASE_CHAR t) ch (k_con s)).1).
Proof.
  intros Ht Hq Hl Hs. destruct (GETCH_spec _ _ _ Hq Hl) as (Hc & _).
  unfold con_write_char. rewrite (bind_Ok _ _ _ _ _ (tty_at_run s n t Ht)).
  destruct (GETCH (write_q t)) as [ch' q] eqn:Hget. simpl in Hc. subst ch'.
  set (s1 := s <| k_tty ::= λ d, d <| tty_table ::= <[n := t <| write_q := q |>]> |> |>).
  assert (Hupd : upd_tty n (λ t, t <| write_q := q |>) s = Ok tt s1).
  { unfold upd_tty. by rewrite (bind_Ok _ _ _ _ _ (tty_at_run s n t Ht)). }
  rewrite (bind_Ok _ _ _ _ _ Hupd), (bind_Ok get _ s1 s1 s1 eq_refl).
  change (k_con s1) with (k_con s). destruct (con_char (ERASE_CHAR t) ch (k_con s)) as [c r]. simpl in Hs. subst r.
  unfold modify, mbind, M_bind, mret, M_ret. cbn [fst snd]. f_equal. unfold shown, s1, set. simpl. do 2 f_equal.
  apply list_eq. intros i. destruct (decide (i = n)) as [->|Hne].
  - rewrite list_lookup_alter_eq, Ht, list_lookup_insert_eq; [done|]. by eapply lookup_lt_Some.
  - by rewrite list_lookup_alter_ne, list_lookup_insert_ne.
Qed.

Lemma con_write_loop_run ks s n t :
  tty_table (k_tty s) !! n = Some t → queue_ok (write_q t) → length (q_list (write_q t)) = length ks →
  silent (ERASE_CHAR t) (q_list (write_q t)) (k_con s) = true →
  ∃ q, queue_ok q ∧ q_list q = [] ∧
    for_each ks (λ _ : nat, con_write_char n) s =
      Ok tt (shown s n q (con_run (ERASE_CHAR t) (q_list (write_q t)) (k_con s))).
Proof.
  revert s t. induction ks as [|k ks IH]; intros s t Ht Hq Hlen Hsil.
  - apply nil_length_inv in Hlen. exists (write_q t). split; [done|]. split; [done|]. rewrite Hlen. simpl.
    unfold mret, M_ret. f_equal. unfold shown. destruct s as [? ? ? ? ? [tb cr] ? ? ?]. unfold set. simpl in *. do 2 f_equal.
    apply list_eq. intros i. destruct (decide (i = n)) as [->|Hne].
    + rewrite list_lookup_alter_eq, Ht. simpl. by destruct t.
    + by rewrite list_lookup_alter_ne.
  - destruct (q_list (write_q t)) as [|ch l] eqn:Hl; [done|]. simpl in Hsil.
    destruct (GETCH_spec _ _ _ Hq Hl) as (_ & Hq1 & Hl1).
    destruct (con_char (ERASE_CHAR t) ch (k_con s)) as [c r] eqn:Hc.
    assert (r = Silent) as -> by (by destruct r).
    pose proof (con_write_char_run s n t ch l Ht Hq Hl) as Hrun. rewrite Hc in Hrun. specialize (Hrun eq_refl). simpl in Hrun.
    set (q1 := (GETCH (write_q t)).2) in *. pose proof (shown_lookup s n t q1 c Ht) as Ht1.
    destruct (IH _ _ Ht1) as (q & Hqok & Hqe & Hloop); [done|simpl; rewrite Hl1; by injection Hlen|simpl; by rewrite Hl1|].
    exists q. split; [done|]. split; [done|]. cbn [for_each]. rewrite (bind_Ok _ _ _ _ _ Hrun). etrans; [exact Hloop|]. rewrite shown_twice.
    f_equal. f_equal. simpl. by rewrite Hl1, Hc.
Qed.

Lemma con_write_run s n t :
  tty_table (k_tty s) !! n = Some t → queue_ok (write_q t) →
  silent (ERASE_CHAR t) (q_list (write_q t)) (k_con s) = true →
  ∃ q, queue_ok q ∧ q_list q = [] ∧
    con_write n s = Ok tt (shown s n q (set_cursor (con_run (ERASE_CHAR t) (q_list (write_q t)) (k_con s)))).
Proof.
  intros Ht Hq Hs. pose proof (length_q_list _ Hq) as Hlen.
  destruct (con_write_loop_run (seq 0 (Z.to_nat (CHARS (write_q t)))) s n t Ht Hq) as (q & Hqok & Hqe & Hloop);
    [rewrite length_seq; lia|done|].
  exists q. split; [done|]. split; [done|]. unfold con_write. rewrite (bind_Ok _ _ _ _ _ (tty_at_run s n t Ht)).
  by rewrite (bind_Ok _ _ _ _ _ Hloop).
Qed.

Lemma set_cursor_safe c : con_ok c → safe c (set_cursor c).
Proof. intros []. split; [by constructor|by split]. Qed.

(** The registers the cursor is told through: its offset into video memory. *)
Lemma set_cursor_ports c :
  con_ok c →
  let d := c_y c * video_num_columns c + c_x c + (origin c - video_mem_start c) / 2 in
  ports (set_cursor c) = ports c ++ [(14, video_port_reg c); (d / 256 mod 256, video_port_val c);
                                     (15, video_port_reg c); (d mod 256, video_port_val c)].
Proof.
  intros Hok d. unfold set_cursor. set (p := u32 (c_pos c - video_mem_start c)).
  pose proof (ok_pos c Hok) as Hpos. destruct (ok_aligned c Hok) as [k Hk]. pose proof (ok_start c Hok).
  pose proof (pos_bound c (c_x c) (c_y c) Hok (ok_x c Hok) (ok_y c Hok)).
  assert (0 ≤ c_y c * video_num_columns c) by (pose proof (ok_cols c Hok); pose proof (ok_y c Hok); nia).
  pose proof (ok_x c Hok).
  assert (Hp : p = 2 * d).
  { unfold p, d. rewrite Hk. replace (video_mem_start c + 2 * k - video_mem_start c) with (k * 2) by lia.
    rewrite Z.div_mul by lia. rewrite u32_small by lia. lia. }
  unfold outb_p. simpl. rewrite <-!app_assoc. cbn [app]. rewrite Hp.
  change 0xff with (Z.ones 8). rewrite !(Z.land_comm (Z.ones 8)), !Z.land_ones by lia.
  rewrite !Z.shiftr_div_pow2 by lia. change (2 ^ 8) with 256. change (2 ^ 1) with 2. change (2 ^ 9) with (2 * 256).
  rewrite <-Z.div_div by lia. rewrite (Z.mul_comm 2 d), Z.div_mul by lia. done.
Qed.
End Write.

(** C37: con_write().  When the text in a terminal's output queue asks for no
    beep and no answer, con_write() empties the queue, runs the text on the
    screen, which stays well-formed inside its video memory, sends the offset
    of the cursor to the card's registers, and changes nothing else. *)
Theorem con_write_correct {E : Env} (s : kernel) (n : nat) (t : tty_struct)
    (Ht : tty_table (k_tty s) !! n = Some t) (Hq : queue_ok (write_q t)) (Hok : con_ok (k_con s))
    (Hs : silent (ERASE_CHAR t) (q_list (write_q t)) (k_con s) = true) :
  let c := con_run (ERASE_CHAR t) (q_list (write_q t)) (k_con s) in
  let d := c_y c * video_num_columns c + c_x c + (origin c - video_mem_start c) / 2 in
  con_ok c ∧ keeps (k_con s) c ∧
  ∃ q, queue_ok q ∧ q_list q = [] ∧
    con_write n s = Ok tt (shown s n q (c <| ports := ports c ++
      [(14, video_port_reg c); (d / 256 mod 256, video_port_val c);
       (15, video_port_reg c); (d mod 256, video_port_val c)] |>)).
Proof.
  cbv zeta. set (c := con_run _ _ _). destruct (con_run_safe (ERASE_CHAR t) (q_list (write_q t)) (k_con s) Hok) as [Hok1 Hk].
  fold c in Hok1, Hk. split; [done|]. split; [done|].
  destruct (con_write_run s n t Ht Hq Hs) as (q & H1 & H2 & H3). exists q. split; [done|]. split; [done|].
  rewrite H3. fold c. rewrite <-set_cursor_ports by done. done.
Qed.

(** ** The console under the line discipline

    Unless it prints an escape character, con_write() only takes characters
    from the output queue, draws and beeps: the promise [CalmOutput]. *)

(** The drawing routines do not touch the state of the automaton. *)
Definition state_kept (f : console → console) : Prop := ∀ c, c_state (f c) = c_state c.
Lemma outb_p_state v p : state_kept (outb_p v p). Proof. done. Qed.
Lemma gotoxy_state x y : state_kept (gotoxy x y).
Proof. intros c. unfold gotoxy. by case_match. Qed.
Lemma scrup_state : state_kept scrup.
Proof.
  assert (Hup : state_kept copy_up) by (intros c; unfold copy_up; by case_match).
  intros c. unfold scrup, move_window, copy_back, clear_last_line. repeat case_match; try apply Hup; done.
Qed.
Lemma scrdown_state : state_kept scrdown.
Proof. intros c. unfold scrdown. by case_match. Qed.
Lemma lf_state : state_kept lf.
Proof. intros c. unfold lf. case_match; [done|apply scrup_state]. Qed.
Lemma wrap_state : state_kept wrap.
Proof. intros c. unfold wrap. by rewrite lf_state. Qed.
Lemma ri_state : state_kept ri.
Proof. intros c. unfold ri. case_match; [done|apply scrdown_state]. Qed.
Lemma put_char_state ch : state_kept (put_char ch).
Proof. intros c. unfold put_char. case_match; [|done]. simpl. apply wrap_state. Qed.
Lemma del_state : state_kept del.
Proof. intros c. unfold del. by case_match. Qed.
Lemma tab_state : state_kept tab.
Proof. intros c. unfold tab. simpl. case_match; [by rewrite wrap_state|done]. Qed.
Lemma dec_par_state k : state_kept (dec_par k).
Proof. intros c. unfold dec_par. by case_match. Qed.
Lemma inc_par_state k : state_kept (inc_par k).
Proof. intros c. unfold inc_par. by case_match. Qed.
Lemma iter_state n f : state_kept f → state_kept (Nat.iter n f).
Proof. intros Hf c. induction n as [|n IH]; [done|]. simpl. by rewrite Hf. Qed.
Lemma region_state f : state_kept f → state_kept (with_region f).
Proof. intros Hf c. unfold with_region. simpl. by rewrite Hf. Qed.
Lemma csi_m_state : state_kept csi_m.
Proof.
  intros c. unfold csi_m. generalize (seq 0 (Z.to_nat (npar c) + 1)) as l. intros l. revert c.
  induction l as [|i l IH]; intros c; [done|]. simpl. rewrite IH. unfold set_attr. by repeat case_match.
Qed.
Lemma csi_r_state : state_kept csi_r.
Proof.
  intros c. unfold csi_r. pose proof (dec_par_state 0 c) as H. cbv zeta. by repeat case_match.
Qed.
Lemma csi_erase_state p : state_kept (csi_J p) ∧ state_kept (csi_K p).
Proof. split; intros c; unfold csi_J, csi_K; by repeat case_match. Qed.

Lemma csi_char_state ch c : c_state (csi_char ch c) = 0.
Proof.
  unfold csi_char. set (c0 := c <| c_state := 0 |>). assert (c_state c0 = 0) as H0 by done. clearbody c0. cbv zeta.
  repeat match goal with |- c_state (if ?b then _ else _) = 0 => destruct b end;
    unfold restore_cur, csi_L, csi_M, csi_P, csi_at;
    rewrite ?gotoxy_state, ?dec_par_state, ?inc_par_state, ?(proj1 (csi_erase_state _)), ?(proj2 (csi_erase_state _)),
      ?csi_m_state, ?csi_r_state, ?iter_state; try done.
  - apply region_state, scrdown_state.
  - apply region_state, scrup_state.
  - intros c1. unfold delete_char. by repeat case_match.
Qed.
Lemma param_char_state ch c : c_state (param_char ch c) = c_state c ∨ c_state (param_char ch c) = 0.
Proof.
  unfold param_char. repeat case_match; [by left..|]. right. apply csi_char_state.
Qed.
(** Only an escape character starts a sequence that can ask for an answer. *)
Lemma con_char_calm e ch c :
  c_state c ≠ 1 → ch ≠ 27 → (con_char e ch c).2 ≠ Respond ∧ c_state (con_char e ch c).1 ≠ 1.
Proof.
  intros Hc Hch. unfold con_char.
  destruct (Z.eqb_spec (c_state c) 0) as [H0|]; [|destruct (Z.eqb_spec (c_state c) 1); [done|]].
  - unfold plain_char. rewrite (proj2 (Z.eqb_neq ch 27) Hch).
    repeat match goal with |- context [if ?b then _ else _] => destruct b end; cbn [fst snd]; (split; [done|]);
      rewrite ?put_char_state, ?lf_state, ?del_state, ?tab_state; cbn; congruence.
  - repeat case_match; cbn [fst snd]; (split; [done|]); [|pose proof (param_char_state ch c); lia..|by rewrite csi_char_state|done].
    unfold first_char. set (c1 := c <| par := _ |> <| npar := _ |> <| c_state := _ |> <| ques := _ |>).
    assert (c_state c1 = 3) by done. clearbody c1. cbv zeta. case_match; [lia|]. pose proof (param_char_state ch c1). lia.
Qed.

Section Calm.
Context {E : Env}.
Implicit Types (s : kernel) (t : tty_struct).

Lemma printed_twice s n q c b q' c' b' : printed (printed s n q c b) n q' c' b' = printed s n q' c' b'.
Proof.
  unfold printed, set. simpl. do 2 f_equal. apply list_eq. intros i. destruct (decide (i = n)) as [->|Hne].
  - rewrite !list_lookup_alter_eq. by destruct (tty_table (k_tty s) !! n).
  - by rewrite !list_lookup_alter_ne.
Qed.
Lemma printed_same s n t :
  tty_table (k_tty s) !! n = Some t → printed s n (write_q t) (k_con s) (beepcount (k_sched s)) = s.
Proof.
  intros Ht. unfold printed. destruct s as [? [] ? ? ? [tb cr] ? ? ?]. unfold set. simpl in *. do 2 f_equal.
  apply list_eq. intros i. destruct (decide (i = n)) as [->|Hne].
  - rewrite list_lookup_alter_eq, Ht. simpl. by destruct t.
  - by rewrite list_lookup_alter_ne.
Qed.
Lemma printed_lookup s n t q c b :
  tty_table (k_tty s) !! n = Some t → tty_table (k_tty (printed s n q c b)) !! n = Some (t <| write_q := q |>).
Proof. intros Ht. simpl. by rewrite list_lookup_alter_eq, Ht. Qed.

Lemma sysbeep_run s : ∃ p, sysbeep s = Ok tt (s <| k_con ::= λ c, c <| ports := p |> |>
  <| k_sched ::= λ d, d <| beepcount := HZ / 8 |> |>).
Proof.
  exists ((((ports (k_con s) ++ [(Z.lor (inb 0x61 s) 3, 0x61)]) ++ [(0xB6, 0x43)]) ++ [(0x37, 0x42)]) ++ [(0x06, 0x42)]).
  by destruct s as [? ? ? ? ? ? [] ? ?].
Qed.

(** One character that is not ESC, taken from the queue of a calm console. *)
Lemma con_write_char_calm s n t ch l :
  tty_table (k_tty s) !! n = Some t → calm s t → q_list (write_q t) = ch :: l →
  ∃ c b, con_write_char n s = Ok tt (printed s n (GETCH (write_q t)).2 c b) ∧ c_state c ≠ 1.
Proof.
  intros Ht (Hw & Hq & Hn & Hc) Hl. destruct (GETCH_spec _ _ _ Hq Hl) as (Hch & _).
  unfold con_write_char. rewrite (bind_Ok _ _ _ _ _ (tty_at_run s n t Ht)).
  destruct (GETCH (write_q t)) as [ch' q]. simpl in Hch. subst ch'.
  assert (Hupd : upd_tty n (λ t, t <| write_q := q |>) s = Ok tt (printed s n q (k_con s) (beepcount (k_sched s)))).
  { unfold upd_tty. rewrite (bind_Ok _ _ _ _ _ (tty_at_run s n t Ht)). unfold modify, printed. f_equal.
    destruct s as [? [] ? ? ? [tb cr] ? ? ?]. unfold set. simpl in *. do 2 f_equal.
    apply list_eq. intros i. destruct (decide (i = n)) as [->|Hne].
    - rewrite list_lookup_alter_eq, Ht, list_lookup_insert_eq; [done|]. by eapply lookup_lt_Some.
    - by rewrite list_lookup_alter_ne, list_lookup_insert_ne. }
  rewrite (bind_Ok _ _ _ _ _ Hupd), (bind_Ok get _ _ _ _ eq_refl).
  assert (ch ≠ 27) as Hesc by (intros ->; apply Hn; rewrite Hl; left).
  change (k_con (printed s n q (k_con s) (beepcount (k_sched s)))) with (k_con s).
  destruct (con_char_calm (ERASE_CHAR t) ch (k_con s) Hc Hesc) as [Hr Hs].
  destruct (con_char (ERASE_CHAR t) ch (k_con s)) as [c r]. cbn [fst snd] in Hr, Hs.
  assert (Hdraw : modify (λ s : kernel, s <| k_con := c |>) (printed s n q (k_con s) (beepcount (k_sched s))) =
    Ok tt (printed s n q c (beepcount (k_sched s)))) by done.
  rewrite (bind_Ok _ _ _ _ _ Hdraw).
  destruct r; [by exists c, (beepcount (k_sched s))| |done].
  destruct (sysbeep_run (printed s n q c (beepcount (k_sched s)))) as [p ->].
  by exists (c <| ports := p |>), (HZ / 8).
Qed.

Lemma con_write_loop_calm ks s n t :
  tty_table (k_tty s) !! n = Some t → calm s t → length (q_list (write_q t)) = length ks →
  ∃ q c b, for_each ks (λ _ : nat, con_write_char n) s = Ok tt (printed s n q c b) ∧
    queue_ok q ∧ q_list q = [] ∧ c_state c ≠ 1.
Proof.
  revert s t. induction ks as [|k ks IH]; intros s t Ht Hcalm Hlen; pose proof Hcalm as (Hw & Hq & Hn & Hc).
  - exists (write_q t), (k_con s), (beepcount (k_sched s)). rewrite (printed_same s n t Ht).
    split; [done|]. split; [done|]. split; [|done]. by apply nil_length_inv.
  - destruct (q_list (write_q t)) as [|ch l] eqn:Hl; [done|].
    destruct (con_write_char_calm s n t ch l Ht Hcalm Hl) as (c & b & Hrun & Hs).
    destruct (GETCH_spec _ _ _ Hq Hl) as (_ & Hq1 & Hl1). set (q1 := (GETCH (write_q t)).2) in *.
    destruct (IH (printed s n q1 c b) (t <| write_q := q1 |>)) as (q & c' & b' & Hloop & H1 & H2 & H3).
    + by apply printed_lookup.
    + split; [done|]. split; [done|]. split; [|done]. simpl. rewrite Hl1. intros Hin. apply Hn. by right.
    + simpl. rewrite Hl1. by injection Hlen.
    + exists q, c', b'. split; [|done]. cbn [for_each]. rewrite (bind_Ok _ _ _ _ _ Hrun).
      etrans; [exact Hloop|]. by rewrite printed_twice.
Qed.
End Calm.

#[export] Instance console_calm (E : Env) (k : nat) : CalmOutput (console_env E (S k)).
Proof.
  intros n s t Ht Hcalm. pose proof Hcalm as (Hw & Hq & Hn & Hc).
  pose proof (length_q_list _ Hq) as Hlen.
  destruct (con_write_loop_calm (E := console_env E k) (seq 0 (Z.to_nat (CHARS (write_q t)))) s n t Ht Hcalm)
    as (q & c & b & Hloop & H1 & H2 & H3); [rewrite length_seq; lia|].
  exists q, (set_cursor c), b. split.
  - cbn [tty_out console_env]. unfold con_write.
    rewrite (bind_Ok _ _ _ _ _ (tty_at_run s n t Ht)). by rewrite (bind_Ok _ _ _ _ _ Hloop).
  - split; [done|]. split; [done|]. split; [|done]. simpl. rewrite H2. apply not_elem_of_nil.
Qed.


(** ** Whatever is printed

    con_write() and copy_to_cooked() call each other; no output can break the
    screen, even through the answer to ESC Z. *)

Class ScreenSafe (E : Env) := screen_safe : ∀ w n s,
  con_ok (k_con s) → safe (k_con s) (k_con (@tty_out E w n s)).

Section Inv.
Context (c0 : console).

(** However a routine ends, the screen is a safe successor of [c0]. *)
Definition holds (s : kernel) : Prop := safe c0 (k_con s).
Definition inv {A} (m : M kernel A) : Prop := ∀ s, holds s →
  match m s with Ok _ s' | Panic _ s' | Exit _ s' | Fault s' => holds s' | NoFuel => True end.

Lemma inv_ret {A} (a : A) : inv (mret a). Proof. by intros s. Qed.
Lemma inv_bind {A B} (m : M kernel A) (f : A → M kernel B) : inv m → (∀ a, inv (f a)) → inv (m ≫= f).
Proof.
  intros Hm Hf s Hs. specialize (Hm s Hs). unfold mbind, M_bind.
  destruct (m s) as [a s'| | | |]; [by apply Hf|done..].
Qed.
Lemma inv_get : inv get. Proof. by intros s. Qed.
Lemma inv_gets {A} (f : kernel → A) : inv (gets f). Proof. by intros s. Qed.
Lemma inv_fault {A} : inv (@fault _ A). Proof. by intros s. Qed.
Lemma inv_no_fuel {A} : inv (@no_fuel _ A). Proof. by intros s. Qed.
Lemma inv_deref {A} (o : option A) : inv (deref o). Proof. destruct o; by intros s. Qed.
Lemma inv_modify (f : kernel → kernel) : (∀ s, holds s → holds (f s)) → inv (modify f).
Proof. intros Hf s Hs. by apply Hf. Qed.
(** An update of the other components. *)
Lemma inv_other (f : kernel → kernel) : (∀ s, k_con (f s) = k_con s) → inv (modify f).
Proof. intros Hf. apply inv_modify. intros s Hs. unfold holds. by rewrite Hf. Qed.
Lemma inv_zoom_sched {A} (m : M sched_state A) : inv (zoom k_sched m).
Proof. intros s Hs. unfold zoom. by destruct (m (k_sched s)). Qed.
Lemma inv_when (b : bool) (m : M kernel unit) : inv m → inv (when b m).
Proof. destruct b; [done|]. intros _. apply inv_ret. Qed.
Lemma inv_for_each {X} (l : list X) (f : X → M kernel unit) : (∀ x, inv (f x)) → inv (for_each l f).
Proof. intros Hf. induction l as [|x l IH]; [apply inv_ret|]. by apply inv_bind. Qed.
Lemma inv_tty_at n : inv (tty_at n).
Proof. apply inv_bind; [apply inv_get|]. intros s. apply inv_deref. Qed.
Lemma inv_upd_tty n f : inv (upd_tty n f).
Proof. apply inv_bind; [apply inv_tty_at|]. intros t. by apply inv_other. Qed.
End Inv.
(** Walk through a routine whose parts keep the screen. *)
Ltac inv_auto :=
  repeat first
    [ assumption | match goal with H : ∀ _, inv _ _ |- _ => apply H end | progress intros
    | match goal with |- inv _ (if ?b then _ else _) => destruct b end
    | match goal with |- inv _ (match ?x with _ => _ end) => destruct x end
    | apply inv_when | apply inv_for_each | apply inv_tty_at | apply inv_upd_tty | apply inv_zoom_sched
    | apply inv_deref | apply inv_bind | apply inv_ret | apply inv_get | apply inv_gets | apply inv_fault
    | apply inv_no_fuel | solve [apply inv_other; by intros []] ].

Section Nested.
Context {E : Env} {HE : ScreenSafe E} (c0 : console).

Lemma inv_tty_start n : inv c0 (tty_start n).
Proof.
  unfold tty_start. apply inv_bind; [apply inv_tty_at|]. intros t. apply inv_modify. intros s Hs.
  apply (safe_trans _ _ _ Hs), screen_safe, Hs.
Qed.
Lemma inv_kill_line fuel n : inv c0 (kill_line fuel n).
Proof.
  pose proof (inv_tty_start n). induction fuel as [|fuel IH]; simpl; [inv_auto|]. unfold echo_erase. inv_auto.
Qed.
Lemma inv_cook_char n ch : inv c0 (cook_char n ch).
Proof.
  pose proof (inv_tty_start n). pose proof (inv_kill_line (Z.to_nat TTY_BUF_SIZE) n).
  unfold cook_char, echo, echo_erase, tty_intr. inv_auto.
Qed.
Lemma inv_copy_to_cooked n : inv c0 (copy_to_cooked n).
Proof.
  assert (Hloop : ∀ fuel, inv c0 (copy_to_cooked_loop fuel n)).
  { pose proof (inv_cook_char n). induction fuel as [|fuel IH]; simpl; inv_auto. }
  unfold copy_to_cooked, wake_up. inv_auto.
Qed.
Lemma inv_con_write n : inv c0 (con_write n).
Proof.
  pose proof (inv_copy_to_cooked n). unfold con_write.
  assert (Hchar : inv c0 (con_write_char n)).
  { unfold con_write_char. apply inv_bind; [apply inv_tty_at|]. intros t. destruct (GETCH (write_q t)) as [ch q].
    apply inv_bind; [apply inv_upd_tty|]. intros _ s Hs. rewrite (bind_Ok get _ s s s eq_refl).
    pose proof (con_char_ok (ERASE_CHAR t) ch (k_con s) (proj1 Hs)) as Hc.
    destruct (con_char (ERASE_CHAR t) ch (k_con s)) as [c r]. simpl in Hc.
    set (s1 := s <| k_con := c |>). assert (Hs1 : holds c0 s1) by (apply (safe_trans _ _ _ Hs), Hc).
    rewrite (bind_Ok (modify (λ s : kernel, s <| k_con := c |>)) _ s tt s1 eq_refl).
    assert (Hout : ∀ v p, inv c0 (con_out v p)).
    { intros v p. apply inv_modify. intros s2 [[] H2]. split; [by constructor|done]. }
    assert (Hrest : inv c0 (match r with Silent => mret tt | Beep => sysbeep | Respond => respond n end)); [|by apply Hrest].
    destruct r; unfold sysbeep, respond, con_in; inv_auto; apply Hout. }
  apply inv_bind; [apply inv_tty_at|]. intros t. apply inv_bind; [by apply inv_for_each|]. intros _.
  apply inv_modify. intros s Hs. apply (safe_trans _ _ _ Hs), set_cursor_safe, Hs.
Qed.
End Nested.

(** C34: the screen is safe whatever is printed.  With con_write() as the
    output routine of the console, nested to any depth through respond() and
    copy_to_cooked(), every call of tty->write leaves the screen well-formed
    and writes to no address outside video memory. *)
Theorem console_safe (E : Env) (HE : ScreenSafe E) (k : nat) (w : tty_write_ptr) (n : nat) (s : kernel)
    (Hok : con_ok (k_con s)) :
  let s' := @tty_out (console_env E k) w n s in
  con_ok (k_con s') ∧ card (k_con s') = card (k_con s) ∧
  ∀ a, a < video_mem_start (k_con s) ∨ video_mem_end (k_con s) ≤ a →
    cell_at (vram (k_con s')) a = cell_at (vram (k_con s)) a.
Proof.
  assert (Hk : ScreenSafe (console_env E k)).
  { clear w n s Hok. induction k as [|k IH]; [exact HE|]. intros w n s Hok. simpl. destruct w; [|by apply screen_safe].
    unfold outcome_state. pose proof (inv_con_write (E := console_env E k) (k_con s) n s (safe_refl _ Hok)) as H.
    by destruct (con_write n s). }
  destruct (Hk w n s Hok) as (H1 & H2 & H3). done.
Qed.
