(* ===== verification/Exec.v ===== *)
(** * fs/exec.c

    The argument pages, the interpreter line and do_execve().  [page] is the
    array of 32 physical pages.  The program itself is loaded on demand
    (do_no_page): right after the call the user segment holds the argument
    pages and the tables made by create_tables(). *)

From stdpp Require Import base option list gmap strings.
From Stdlib Require Import ZArith.
From S2P Require Import Prelude Types Memory Sched Kernel Blk Buffer Inode FileDev Tty Namei Open Exit.
Local Open Scope Z_scope.

Definition MAX_ARG_PAGES : Z := 32.
Definition S_ISUID : Z := 0x800.
Definition S_ISGID : Z := 0x400.
Definition ZMAGIC : Z := 0x10b.       (* 0413 *)

Record exec := mk_exec {
  a_magic : Z; a_text : Z; a_data : Z; a_bss : Z; a_syms : Z; a_entry : Z; a_trsize : Z; a_drsize : Z
}.
Definition exec_of (l : list Z) : exec :=
  mk_exec (get32 l 0) (get32 l 4) (get32 l 8) (get32 l 12) (get32 l 16) (get32 l 20) (get32 l 24) (get32 l 28).
Definition SIZEOF_EXEC : Z := 32.
Definition N_TXTOFF (ex : exec) : Z :=
  if a_magic ex =? ZMAGIC then (1024 - SIZEOF_EXEC) + SIZEOF_EXEC else SIZEOF_EXEC.

(** [while (get_fs_byte(p++))]: the pointer behind the string. *)
Fixpoint skip_string (fuel : nat) (p : Z) : M kernel Z :=
  match fuel with
  | O => no_fuel
  | S fuel => c ← get_fs_byte p; if truth c then skip_string fuel (p + 1) else mret (p + 1)
  end.
Definition string_fuel : nat := Z.to_nat 0x20001.

(** [while (n-->0) { put_fs_long(p,v++); skip the string }]; then the final NULL *)
Fixpoint fill_table (n : nat) (p v : Z) : M kernel Z :=
  match n with
  | O => put_fs_long 0 v ;; mret p
  | S n => put_fs_long p v ;; p ← skip_string string_fuel p; fill_table n p (v + 4)
  end.

Definition create_tables (p argc envc : Z) : M kernel Z :=
  let sp := Z.land 0xfffffffc p in
  let envp := u32 (sp - 4 * (envc + 1)) in
  let argv := u32 (envp - 4 * (argc + 1)) in
  let sp := u32 (argv - 12) in
  put_fs_long envp (sp + 8) ;;
  put_fs_long argv (sp + 4) ;;
  put_fs_long argc sp ;;
  p ← fill_table (Z.to_nat argc) p argv;
  fill_table (Z.to_nat envc) p envp ;;
  mret sp.

Fixpoint count_from (fuel : nat) (tmp i : Z) : M kernel Z :=
  match fuel with
  | O => no_fuel
  | S fuel => v ← get_fs_long tmp; if truth v then count_from fuel (tmp + 4) (i + 1) else mret i
  end.
Definition count (argv : Z) : M kernel Z :=
  if truth argv then count_from string_fuel argv 0 else mret 0.

(** Where copy_strings finds its strings: an array in user space
    ([from_kmem] = 0), a kernel array of one user string (1), or a kernel
    array of one kernel string (2). *)
Inductive strings := user_strings (argv : Z) | user_string (s : Z) | kernel_string (s : list Z).

(** Byte [k] of a string and the pointers of the array. *)
Inductive str_ptr := in_user (a : Z) | in_kernel (s : list Z).
Definition string_ptr (v : strings) (k : Z) : M kernel (option str_ptr) :=
  match v with
  | user_strings argv => a ← get_fs_long (argv + 4 * k); mret (if truth a then Some (in_user a) else None)
  | user_string a => mret (if truth a then Some (in_user a) else None)
  | kernel_string s => mret (Some (in_kernel s))
  end.
Definition string_byte (t : str_ptr) (k : Z) : M kernel Z :=
  match t with
  | in_user a => get_fs_byte (a + k)
  | in_kernel s => mret (default 0 (zlookup s k))
  end.
(** [do len++; while (get_fs_byte(tmp++));] *)
Fixpoint string_len (fuel : nat) (t : str_ptr) (len : Z) : M kernel Z :=
  match fuel with
  | O => no_fuel
  | S fuel => c ← string_byte t len; if truth c then string_len fuel t (len + 1) else mret (len + 1)
  end.

(** [while (len) { ... }]: the bytes from the last one down; the result is
    (p, offset, page), [None] when no page is free. *)
Fixpoint copy_string (len : nat) (t : str_ptr) (page : list Z) (p offset : Z)
    : M kernel (option (Z * Z) * list Z) :=
  match len with
  | O => mret (Some (p, offset), page)
  | S len =>
      let p := u32 (p - 1) in
      let offset := offset - 1 in
      let offset' := if offset <? 0 then p mod PAGE_SIZE else offset in
      pag ← deref (zlookup page (p / PAGE_SIZE));
      pag ← (if (offset <? 0) && (pag =? 0) then zoom k_mm get_free_page else mret pag);
      let page := zinsert (p / PAGE_SIZE) pag page in
      if pag =? 0 then mret (None, page) else
      c ← string_byte t (Z.of_nat len);
      zoom k_mm (st8 (pag + offset') c) ;;
      copy_string len t page p offset'
  end.

Fixpoint copy_strings_loop (argc : nat) (v : strings) (page : list Z) (p offset : Z) : M kernel (Z * list Z) :=
  match argc with
  | O => mret (p, page)
  | S argc =>
      tmp ← string_ptr v (Z.of_nat argc);
      match tmp with
      | None => panic "argc is wrong"
      | Some tmp =>
          len ← string_len string_fuel tmp 0;
          (* p and len are added as unsigned longs: the test never succeeds *)
          if u32 (p - len) <? 0 then mret (0, page) else
          '(r, page) ← copy_string (Z.to_nat len) tmp page p offset;
          match r with
          | None => mret (0, page)
          | Some (p, offset) => copy_strings_loop argc v page p offset
          end
      end
  end.
Definition copy_strings (argc : Z) (v : strings) (page : list Z) (p : Z) : M kernel (Z * list Z) :=
  if p =? 0 then mret (0, page) else copy_strings_loop (Z.to_nat argc) v page p 0.

Definition set_limit_of (k : nat) (base limit : Z) : M kernel unit :=
  upd_me (λ t, t <| ldt ::= alter (λ d, set_limit (set_base d base) limit) k |>).

(** change_ldt: the argument pages end up below the top of the segment. *)
Definition change_ldt (text_size : Z) (page : list Z) : M kernel Z :=
  let code_limit := Z.land (u32 (text_size + PAGE_SIZE - 1)) 0xFFFFF000 in
  let data_limit := 0x4000000 in
  t ← me;
  d ← deref (ldt t !! 1%nat);
  let base := get_base d in
  set_limit_of 1 base code_limit ;;
  set_limit_of 2 base data_limit ;;
  for_each (reverse (seq 0 32)) (λ i,
    pg ← deref (page !! i);
    when (truth pg) (
      zoom k_mm (put_page pg (u32 (base + data_limit - PAGE_SIZE * (MAX_ARG_PAGES - Z.of_nat i)))) ;; mret tt)) ;;
  mret data_limit.

(** The new user segment: the argument pages. *)
Definition page_bytes (s : mm) (pg at_ : Z) : list (Z * Z) :=
  (λ k, (at_ + Z.of_nat k, u8 (Z.shiftr (word s (pg + 4 * (Z.of_nat k / 4))) (8 * (Z.of_nat k mod 4))))) <$> seq 0 4096.
Definition arg_segment (s : mm) (page : list Z) : gmap Z Z :=
  list_to_map (concat (imap (λ i pg,
    if pg =? 0 then [] else page_bytes s pg (0x4000000 - PAGE_SIZE * (MAX_ARG_PAGES - Z.of_nat i))) page)).

(** ** The #! line *)

Definition is_blank (c : Z) : bool := (c =? 32) || (c =? 9).
Fixpoint break (f : Z → bool) (l : list Z) : list Z * list Z :=
  match l with
  | [] => ([], [])
  | c :: l' => if f c then ([], l) else let (a, b) := break f l' in (c :: a, b)
  end.
Fixpoint skip_blanks (l : list Z) : list Z :=
  match l with [] => [] | c :: l' => if is_blank c then skip_blanks l' else l end.
(** What follows the last slash. *)
Fixpoint base_name (l acc : list Z) : list Z :=
  match l with [] => acc | c :: l => base_name l (if c =? 47 then l else acc) end.

(** (interp, i_name, i_arg) from the text behind [#!]. *)
Definition parse_interp (data : list Z) : option (list Z * list Z * option (list Z)) :=
  let buf := (break (λ c, c =? 0) (slice 2 1022 data)).1 in
  let '(line, nl) := break (λ c, c =? 10) buf in
  match nl with
  | [] => None
  | _ =>
      match skip_blanks line with
      | [] => None
      | cp =>
          let '(interp, rest) := break is_blank cp in
          Some (interp, base_name interp interp, match rest with [] => None | _ :: i_arg => Some i_arg end)
      end
  end.

(** set_fs(get_ds()) around a routine that reads only the string [str]. *)
Definition with_kernel_fs {A} (str : list Z) (m : M kernel A) : M kernel A :=
  u ← gets k_user;
  modify (λ s, s <| k_user := list_to_map (imap (λ k c, (Z.of_nat k, c)) str) |>) ;;
  a ← m;
  modify (λ s, s <| k_user := u |>) ;;
  mret a.

(** May the current task execute the file? *)
Definition may_exec (x : m_inode) (uid gid : Z) : bool :=
  let i := i_mode x in
  let i := if uid =? i_uid x then Z.shiftr i 6 else if gid =? i_gid x then Z.shiftr i 3 else i in
  has i 1 || (has (i_mode x) 0x49 && (uid =? 0)).

(** The header of an executable that can be loaded. *)
Definition good_header (x : m_inode) (ex : exec) : bool :=
  negb (negb (a_magic ex =? ZMAGIC) || truth (a_trsize ex) || truth (a_drsize ex)
        || (0x3000000 <? u32 (a_text ex + a_data ex + a_bss ex))
        || (i_size x <? u32 (a_text ex + a_data ex + a_syms ex + N_TXTOFF ex)))
  && (N_TXTOFF ex =? BLOCK_SIZE).

Section Exec.
Context {E : Env}.

Definition exec_error1 (page : list Z) (retval : Z) : M kernel (Z * option (Z * Z)) :=
  for_each page (λ pg, zoom k_mm (free_page pg)) ;; mret (retval, None).
Definition exec_error2 (inode : nat) (page : list Z) (retval : Z) : M kernel (Z * option (Z * Z)) :=
  iput (Some inode) ;; exec_error1 page retval.

(** From the point of no return: the result is 0 with the new eip and esp. *)
Definition exec_commit (inode : nat) (ex : exec) (e_uid e_gid : Z) (page : list Z) (p argc envc : Z)
    : M kernel (Z * option (Z * Z)) :=
  t ← me;
  (match executable t with None => mret tt | Some i => iput (Some i) end) ;;
  upd_me (λ t, t <| executable := Some inode |>
                 <| sigaction ::= fmap (λ a, a <| sa_handler := 0 |>) |>) ;;
  for_each (seq 0 NR_OPEN) (λ i,
    t ← me;
    when (Z.testbit (close_on_exec t) (Z.of_nat i)) (sys_close (Z.of_nat i) ;; mret tt)) ;;
  upd_me (λ t, t <| close_on_exec := 0 |>) ;;
  free_segment 1 ;;
  free_segment 2 ;;
  modify (λ s, s <| k_sched ::= λ d,
    if last_task_used_math d =? current d then d <| last_task_used_math := 0 |> else d |>) ;;
  upd_me (λ t, t <| used_math := 0 |>) ;;
  dl ← change_ldt (a_text ex) page;
  modify (λ s, s <| k_user := arg_segment (k_mm s) page |>) ;;
  let p := u32 (p + dl - MAX_ARG_PAGES * PAGE_SIZE) in
  p ← create_tables p argc envc;
  let text_data := u32 (a_data ex + a_text ex) in
  upd_me (λ t, t <| end_code := a_text ex |> <| end_data := text_data |> <| brk := u32 (a_bss ex + text_data) |>
                 <| start_stack := Z.land p 0xfffff000 |> <| euid := e_uid |> <| egid := e_gid |>) ;;
  let i := u32 (a_text ex + a_data ex) in
  for_each (seq 0 (Z.to_nat (- i mod 4096))) (λ k, put_fs_byte 0 (i + Z.of_nat k)) ;;
  mret (0, Some (a_entry ex, p)).

(** [restart_interp:]; [sh_bang] becomes true on the way, so two rounds are
    the most there can be. *)
Fixpoint exec_inode (fuel : nat) (sh_bang : bool) (filename argv envp : Z)
    (inode : nat) (page : list Z) (p argc envc : Z) : M kernel (Z * option (Z * Z)) :=
  match fuel with
  | O => no_fuel
  | S fuel =>
      x ← inode_at inode;
      if negb (S_ISREG (i_mode x)) then exec_error2 inode page (- EACCES) else
      t ← me;
      let e_uid := if has (i_mode x) S_ISUID then i_uid x else euid t in
      let e_gid := if has (i_mode x) S_ISGID then i_gid x else egid t in
      if negb (may_exec x (euid t) (egid t)) then exec_error2 inode page (- ENOEXEC) else
      b ← bread (i_dev x) (zone x 0);
      match b with
      | None => exec_error2 inode page (- EACCES)
      | Some b =>
      y ← bh b;
      let ex := exec_of (b_data y) in
      if (byte_at (b_data y) 0 =? 35) && (byte_at (b_data y) 1 =? 33) && negb sh_bang then
        brelse (Some b) ;;
        iput (Some inode) ;;
        match parse_interp (b_data y) with
        | None => exec_error1 page (- ENOEXEC)
        | Some (interp, i_name, i_arg) =>
            '(p, page) ← copy_strings envc (user_strings envp) page p;
            let argc := argc - 1 in
            '(p, page) ← copy_strings argc (user_strings (argv + 4)) page p;
            '(p, page) ← copy_strings 1 (user_string filename) page p;
            let argc := argc + 1 in
            '(p, page, argc) ← (match i_arg with
              | Some s => '(p, page) ← copy_strings 1 (kernel_string s) page p; mret (p, page, argc + 1)
              | None => mret (p, page, argc)
              end);
            '(p, page) ← copy_strings 1 (kernel_string i_name) page p;
            let argc := argc + 1 in
            if p =? 0 then exec_error1 page (- ENOMEM) else
            inode ← with_kernel_fs interp (namei 0);
            match inode with
            | None => exec_error1 page (- ENOENT)
            | Some inode => exec_inode fuel true filename argv envp inode page p argc envc
            end
        end
      else
      brelse (Some b) ;;
      x ← inode_at inode;
      if negb (good_header x ex) then exec_error2 inode page (- ENOEXEC) else
      '(p, page) ← (if sh_bang then mret (p, page) else
        '(p, page) ← copy_strings envc (user_strings envp) page p;
        copy_strings argc (user_strings argv) page p);
      if negb sh_bang && (p =? 0) then exec_error2 inode page (- ENOMEM) else
      exec_commit inode ex e_uid e_gid page p argc envc
      end
  end.

(** [cs] is [eip[1]]; the result is the return value and the new eip and esp. *)
Definition do_execve (cs filename argv envp : Z) : M kernel (Z * option (Z * Z)) :=
  (if negb (Z.land 0xffff cs =? 0x000f) then panic "execve called from supervisor mode" else mret tt) ;;
  inode ← namei filename;
  match inode with
  | None => mret (- ENOENT, None)
  | Some inode =>
      argc ← count argv;
      envc ← count envp;
      exec_inode 2 false filename argv envp inode (replicate 32 0)
        (PAGE_SIZE * MAX_ARG_PAGES - 4) argc envc
  end.
End Exec.
