(* ===== verification/Sys.v ===== *)
(** * kernel/sys.c, the rest of mm/memory.c, rd_load and the start of main()

    The small system calls; demand loading ([share_page], [do_no_page]); the
    ram disk image; the memory layout chosen at boot. *)

From stdpp Require Import base option list gmap strings.
From Stdlib Require Import ZArith.
From S2P Require Import Prelude Types Memory Sched Kernel Blk Buffer Inode FileDev.
Local Open Scope Z_scope.

(** ** sys.c *)

Definition sys_ftime : M kernel Z := mret (- ENOSYS).
Definition sys_break : M kernel Z := mret (- ENOSYS).
Definition sys_ptrace : M kernel Z := mret (- ENOSYS).
Definition sys_stty : M kernel Z := mret (- ENOSYS).
Definition sys_gtty : M kernel Z := mret (- ENOSYS).
Definition sys_rename : M kernel Z := mret (- ENOSYS).
Definition sys_prof : M kernel Z := mret (- ENOSYS).
Definition sys_acct : M kernel Z := mret (- ENOSYS).
Definition sys_phys : M kernel Z := mret (- ENOSYS).
Definition sys_lock : M kernel Z := mret (- ENOSYS).
Definition sys_mpx : M kernel Z := mret (- ENOSYS).
Definition sys_ulimit : M kernel Z := mret (- ENOSYS).

(** [if (cond) current->f = v; else return -EPERM;] as an option *)
Definition sys_setregid (rgid egid : Z) : M kernel Z :=
  t ← me;
  su ← suser;
  if (0 <? rgid) && negb ((gid t =? rgid) || su) then mret (- EPERM) else
  when (0 <? rgid) (upd_me (λ t, t <| gid := u16 rgid |>)) ;;
  t ← me;
  if (0 <? egid) && negb ((gid t =? egid) || (Types.egid t =? egid) || (sgid t =? egid) || su)
  then mret (- EPERM) else
  when (0 <? egid) (upd_me (λ t, t <| Types.egid := u16 egid |>)) ;;
  mret 0.
Definition sys_setgid (gid : Z) : M kernel Z := sys_setregid gid gid.

Definition sys_time (tloc : Z) : M kernel Z :=
  i ← CURRENT_TIME;
  when (truth tloc) (verify_area tloc 4 ;; put_fs_long i tloc) ;;
  mret i.

(** suser() tests [current->euid], which only the last assignment changes. *)
Definition sys_setreuid (ruid euid : Z) : M kernel Z :=
  t ← me;
  let old_ruid := uid t in
  su ← suser;
  if (0 <? ruid) && negb ((Types.euid t =? ruid) || (old_ruid =? ruid) || su) then mret (- EPERM) else
  when (0 <? ruid) (upd_me (λ t, t <| uid := u16 ruid |>)) ;;
  if (0 <? euid) && negb ((old_ruid =? euid) || (Types.euid t =? euid) || su) then
    upd_me (λ t, t <| uid := old_ruid |>) ;; mret (- EPERM)
  else
  when (0 <? euid) (upd_me (λ t, t <| Types.euid := u16 euid |>)) ;;
  mret 0.
Definition sys_setuid (uid : Z) : M kernel Z := sys_setreuid uid uid.

Definition sys_stime (tptr : Z) : M kernel Z :=
  su ← suser;
  if negb su then mret (- EPERM) else
  v ← get_fs_long tptr;
  modify (λ s, s <| k_sched ::= λ d, d <| startup_time := s32 (v - Z.quot (jiffies d) HZ) |> |>) ;;
  mret 0.

Definition SIZEOF_TMS : Z := 16.
Definition sys_times (tbuf : Z) : M kernel Z :=
  when (truth tbuf) (
    verify_area tbuf SIZEOF_TMS ;;
    t ← me;
    put_fs_long (utime t) tbuf ;;
    put_fs_long (stime t) (tbuf + 4) ;;
    put_fs_long (cutime t) (tbuf + 8) ;;
    put_fs_long (cstime t) (tbuf + 12)) ;;
  s ← get;
  mret (jiffies (k_sched s)).

Definition sys_brk (end_data_seg : Z) : M kernel Z :=
  t ← me;
  when ((end_code t <=? end_data_seg) && (end_data_seg <? u32 (start_stack t - 16384)))
    (upd_me (λ t, t <| brk := end_data_seg |>)) ;;
  t ← me;
  mret (s32 (brk t)).

(** The first task with this pid, over the 64 slots. *)
Fixpoint setpgid_scan (pid pgid : Z) (l : list Z) : M sched_state Z :=
  match l with
  | [] => mret (- ESRCH)
  | p :: l =>
      if p =? 0 then setpgid_scan pid pgid l else
      t ← task_at p;
      c ← cur_task;
      if negb (Types.pid t =? pid) then setpgid_scan pid pgid l else
      if truth (leader t) then mret (- EPERM) else
      if negb (session t =? session c) then mret (- EPERM) else
      upd_task p (λ t, t <| pgrp := pgid |>) ;; mret 0
  end.
Definition sys_setpgid (pid pgid : Z) : M sched_state Z :=
  c ← cur_task;
  s ← get;
  setpgid_scan (if pid =? 0 then Types.pid c else pid) (if pgid =? 0 then Types.pid c else pgid) (task s).

Definition sys_getpgrp : M kernel Z := t ← me; mret (pgrp t).

Definition sys_setsid : M kernel Z :=
  t ← me;
  su ← suser;
  if truth (leader t) && negb su then mret (- EPERM) else
  upd_me (λ t, t <| leader := 1 |> <| pgrp := pid t |> <| session := pid t |> <| tty := -1 |>) ;;
  t ← me;
  mret (pgrp t).

(** "linux .0", "nodename", "release ", "version ", "machine ", each with its 0 *)
Definition thisname : list Z :=
  [108; 105; 110; 117; 120; 32; 46; 48; 0] ++
  [110; 111; 100; 101; 110; 97; 109; 101; 0] ++
  [114; 101; 108; 101; 97; 115; 101; 32; 0] ++
  [118; 101; 114; 115; 105; 111; 110; 32; 0] ++
  [109; 97; 99; 104; 105; 110; 101; 32; 0].
Definition sys_uname (name : Z) : M kernel Z :=
  if negb (truth name) then mret (- ERROR) else
  verify_area name (Z.of_nat (length thisname)) ;;
  put_fs_bytes thisname name ;;
  mret 0.

Definition sys_umask (mask : Z) : M kernel Z :=
  t ← me;
  upd_me (λ t, t <| umask := Z.land mask 0x1ff |>) ;;
  mret (umask t).

Section Sys.
Context {E : Env}.

(** ** memory.c: demand loading *)

Fixpoint share_scan (address : Z) (slots : list nat) : M kernel Z :=
  match slots with
  | [] => mret 0
  | i :: slots =>
      p ← zoom k_sched (task_slot i);
      c ← zoom k_sched cur;
      if (p =? 0) || (c =? p) then share_scan address slots else
      t ← zoom k_sched (task_at p);
      ct ← me;
      if negb (bool_decide (executable t = executable ct)) then share_scan address slots else
      r ← zoom k_mm (try_to_share address (start_code t) (start_code ct));
      if truth r then mret 1 else share_scan address slots
  end.
Definition share_page (address : Z) : M kernel Z :=
  t ← me;
  match executable t with
  | None => mret 0
  | Some e =>
      x ← inode_at e;
      if i_count x <? 2 then mret 0 else share_scan address (reverse (seq 1 (NR_TASKS - 1)))
  end.

Definition do_no_page (error_code address : Z) : M kernel unit :=
  let address := Z.land address 0xfffff000 in
  t ← me;
  let tmp := u32 (address - start_code t) in
  match executable t with
  | None => zoom k_mm (get_empty_page address)
  | Some e =>
  if end_data t <=? tmp then zoom k_mm (get_empty_page address) else
  r ← share_page tmp;
  if truth r then mret tt else
  page ← zoom k_mm get_free_page;
  (if negb (truth page) then zoom k_mm oom else mret tt) ;;
  let block := 1 + tmp / BLOCK_SIZE in
  t ← me;
  e ← deref (executable t);
  n0 ← bmap e block;
  n1 ← bmap e (block + 1);
  n2 ← bmap e (block + 2);
  n3 ← bmap e (block + 3);
  x ← inode_at e;
  bread_page page (i_dev x) [n0; n1; n2; n3] ;;
  t ← me;
  for_each (seq 0 (Z.to_nat (s32 (tmp + 4096 - end_data t))))
    (λ k, zoom k_mm (st8 (page + 4096 - 1 - Z.of_nat k) 0)) ;;
  r ← zoom k_mm (put_page page address);
  if truth r then mret tt else
  zoom k_mm (free_page page) ;;
  zoom k_mm oom
  end.

(** ** ramdisk.c: rd_load *)

Fixpoint rd_copy (nblocks : nat) (root block cp : Z) : M kernel bool :=
  match nblocks with
  | O => mret true
  | S n =>
      b ← (if 2 <? Z.of_nat nblocks then breada root block [block + 1; block + 2] else bread root block);
      match b with
      | None => printk "I/O error on block %d, aborting load" ;; mret false
      | Some b =>
          y ← bh b;
          at_ ← block_index cp;
          modify (λ s, s <| k_blk ::= λ d, d <| rd_data ::= splice at_ (b_data y) |> |>) ;;
          brelse (Some b) ;;
          rd_copy n root (block + 1) (cp + BLOCK_SIZE)
      end
  end.

Definition rd_load : M kernel unit :=
  s ← get;
  let root := ROOT_DEV (k_fs s) in
  let rd_length := rd_length (k_blk s) in
  if rd_length =? 0 then mret tt else
  if negb (MAJOR root =? 2) then mret tt else
  let block := 256 in
  b ← breada root (block + 1) [block; block + 2];
  match b with
  | None => printk "Disk error while looking for ramdisk!"
  | Some b =>
      y ← bh b;
      let sb := b_data y in
      brelse (Some b) ;;
      if negb (get16 sb 16 =? SUPER_MAGIC) then mret tt else
      let nblocks := Z.shiftl (get16 sb 2) (get16 sb 10) in
      if Z.shiftr rd_length 10 <? nblocks then printk "Ram disk image too big!" else
      ok ← rd_copy (Z.to_nat nblocks) root block 0;
      when ok (modify (λ s, s <| k_fs ::= λ d, d <| ROOT_DEV := 0x0101 |> |>))
  end.
End Sys.

(** ** init/main.c: the memory layout (without a RAMDISK) *)
Definition memory_layout (EXT_MEM_K : Z) : Z * Z * Z :=
  let memory_end := Z.land (2 ^ 20 + Z.shiftl EXT_MEM_K 10) 0xfffff000 in
  let memory_end := if 16*1024*1024 <? memory_end then 16*1024*1024 else memory_end in
  let buffer_memory_end :=
    if 12*1024*1024 <? memory_end then 4*1024*1024
    else if 6*1024*1024 <? memory_end then 2*1024*1024
    else 1*1024*1024 in
  let main_memory_start := buffer_memory_end in
  (memory_end, buffer_memory_end, main_memory_start).
