(* ===== verification/Traps.v ===== *)
(** * kernel/traps.c, kernel/asm.s and kernel/math/math_emulate.c

    The exceptions: what their gates lead to, the assembly stubs, the handlers
    in C, and the way back to the interrupted program.  The registers a stub
    saves are the record [regs] of Fork and the value of eax. *)

From stdpp Require Import base option list gmap strings.
From Stdlib Require Import ZArith.
From S2P Require Import Prelude Types Memory Sched Kernel Blk Ports Buffer Inode FileDev Open Fork Exit Sys.
Local Open Scope Z_scope.

(** The emulation flag of cr0: head.s sets it when there is no 387. *)
Class Cpu := { cr0_em : bool }.

(** ** trap_init() *)
Section Init.
Context {L : Linked} {X D : Type} {Ctl : Controller D}.

Definition trap_init : M (io_system X D) unit :=
  let trap n e := zoom sys_k (zoom k_sched (set_trap_gate n e)) in
  let system n e := zoom sys_k (zoom k_sched (set_system_gate n e)) in
  trap 0%nat divide_error ;;
  trap 1%nat debug ;;
  trap 2%nat nmi ;;
  system 3%nat int3 ;;
  system 4%nat overflow ;;
  system 5%nat bounds ;;
  trap 6%nat invalid_op ;;
  trap 7%nat device_not_available ;;
  trap 8%nat double_fault ;;
  trap 9%nat coprocessor_segment_overrun ;;
  trap 10%nat invalid_TSS ;;
  trap 11%nat segment_not_present ;;
  trap 12%nat stack_segment ;;
  trap 13%nat general_protection ;;
  trap 14%nat page_fault ;;
  trap 15%nat reserved ;;
  trap 16%nat coprocessor_error ;;
  for_each (seq 17 (48 - 17)) (λ i, trap i reserved) ;;
  trap 45%nat irq13 ;;
  mask_port 0xfb 0x21 ;;
  mask_port 0xdf 0xA1 ;;
  trap 39%nat parallel_interrupt.
End Init.

(** ** The handlers *)
Section Handlers.
Context {E : Env}.

(** [esp] is where the stub left eip, cs, eflags, esp and ss. *)
Definition die (str : string) (esp : list Z) (nr : Z) : M kernel unit :=
  printk "%s: %04x\n\r" ;;
  printk "EIP:\t%04x:%p\nEFLAGS:\t%p\nESP:\t%04x:%p\n" ;;
  printk "fs: %04x\n" ;;
  printk "base: %p, limit: %p\n" ;;
  ss ← deref (esp !! 4%nat);
  when (ss =? 0x17) (
    printk "Stack: " ;;
    for_each (seq 0 4) (λ _, printk "%p ") ;;
    printk "\n") ;;
  printk "Pid: %d, process nr: %d\n\r" ;;
  for_each (seq 0 10) (λ _, printk "%02x ") ;;
  printk "\n\r" ;;
  do_exit 11 ;;
  mret tt.

Definition do_double_fault := die "double fault".
Definition do_general_protection := die "general protection".
Definition do_divide_error := die "divide error".
Definition do_int3 (esp : list Z) (error_code : Z) : M kernel unit :=
  printk "eax\t\tebx\t\tecx\t\tedx\n\r%8x\t%8x\t%8x\t%8x\n\r" ;;
  printk "esi\t\tedi\t\tebp\t\tesp\n\r%8x\t%8x\t%8x\t%8x\n\r" ;;
  printk "\n\rds\tes\tfs\ttr\n\r%4x\t%4x\t%4x\t%4x\n\r" ;;
  printk "EIP: %8x   CS: %4x  EFLAGS: %8x\n\r".
Definition do_nmi := die "nmi".
Definition do_debug := die "debug".
Definition do_overflow := die "overflow".
Definition do_bounds := die "bounds".
Definition do_invalid_op := die "invalid operand".
Definition do_device_not_available := die "device not available".
Definition do_coprocessor_segment_overrun := die "coprocessor segment overrun".
Definition do_invalid_TSS := die "invalid TSS".
Definition do_segment_not_present := die "segment not present".
Definition do_stack_segment := die "stack segment".
Definition do_coprocessor_error (esp : list Z) (error_code : Z) : M kernel unit :=
  s ← get;
  if negb (last_task_used_math (k_sched s) =? current (k_sched s)) then mret tt
  else die "coprocessor error" esp error_code.
Definition do_reserved := die "reserved (15,17-47) error".

(** ** math_emulate.c *)

(** The arguments are the saved registers: the two bytes read move eip on. *)
Definition math_emulate (r : regs) : M kernel regs :=
  (if negb (Z.land (r_cs r) 0xffff =? 0x000F) then
     printk "math_emulate: %04x:%08x\n\r" ;;
     panic "Math emulation needed in kernel"
   else mret tt) ;;
  first ← get_fs_byte (r_eip r);
  second ← get_fs_byte (u32 (r_eip r + 1));
  printk "%04x:%08x %02x %02x\n\r" ;;
  upd_me (λ t, t <| signal ::= λ g, Z.lor g (_S SIGFPE) |>) ;;
  mret (r <| r_eip ::= λ x, u32 (x + 2) |>).

(** fnclex clears the exception flags and the busy bit of the status word. *)
Definition math_error : M kernel unit :=
  modify (λ s, s <| k_sched ::= λ d, d <| fpu ::= λ f,
    mk_i387 (cwd f) (Z.land (swd f) 0x7f00) (twd f) (fip f) (fcs f) (foo f) (fos f) (st_space f) |> |>) ;;
  s ← get;
  let l := last_task_used_math (k_sched s) in
  when (truth l) (zoom k_sched (upd_task l (λ t, t <| signal ::= λ g, Z.lor g (_S SIGFPE) |>))).

(** ** system_call.s: back to the interrupted program *)

(** Signals are delivered to user programs only, and not to task 0. *)
Definition ret_from_sys_call (eax : Z) (r : regs) : M kernel regs :=
  if negb (Z.land (r_cs r) 0xffff =? 0x0f) || negb (Z.land (r_ss r) 0xffff =? 0x17) then mret r else
  signr ← take_signal;
  match signr with
  | None => mret r
  | Some signr =>
      '(eip, esp) ← do_signal signr eax (r_ecx r) (r_edx r) (r_eip r) (r_eflags r) (r_esp r);
      mret (r <| r_eip := eip |> <| r_esp := esp |>)
  end.

(** ** The stubs *)
Section Stubs.
Context {P : Cpu} {X D : Type} {Ctl : Controller D}.
Local Notation kern m := (zoom sys_k m).

(** clts and, when there is a 387, math_state_restore(). *)
Definition math_trap : M sched_state unit := clts ;; math_state_restore.
Definition device_not_available_ (eax : Z) (r : regs) : M kernel regs :=
  r ← (if cr0_em then zoom k_sched clts ;; math_emulate r else zoom k_sched math_trap ;; mret r);
  ret_from_sys_call eax r.
Definition coprocessor_error_ (eax : Z) (r : regs) : M kernel regs :=
  math_error ;;
  ret_from_sys_call eax r.
Definition irq13_ (eax : Z) (r : regs) : M (io_system X D) regs :=
  outp 0 0xF0 ;;
  outp 0x20 0x20 ;;
  outp 0x20 0xA0 ;;
  kern (coprocessor_error_ eax r).
Definition parallel_interrupt_ (r : regs) : M (io_system X D) regs := outp 0x20 0x20 ;; mret r.
(** page.s; [cr2] is the address that faulted. *)
Definition page_fault_ (error_code cr2 : Z) : M kernel unit :=
  if Z.testbit error_code 0 then zoom k_mm (do_wp_page error_code cr2) else do_no_page error_code cr2.

(** What the stubs leave for the handlers in C, from eip up. *)
Definition stack_of (r : regs) : list Z := [r_eip r; r_cs r; r_eflags r; r_esp r; r_ss r].

(** no_error_code and error_code of asm.s: the routine in C that a stub calls. *)
Definition c_handler (e : entry) : option (list Z → Z → M kernel unit) :=
  match e with
  | divide_error => Some do_divide_error
  | debug => Some do_int3
  | nmi => Some do_nmi
  | int3 => Some do_int3
  | overflow => Some do_overflow
  | bounds => Some do_bounds
  | invalid_op => Some do_invalid_op
  | coprocessor_segment_overrun => Some do_coprocessor_segment_overrun
  | reserved => Some do_reserved
  | double_fault => Some do_double_fault
  | invalid_TSS => Some do_invalid_TSS
  | segment_not_present => Some do_segment_not_present
  | stack_segment => Some do_stack_segment
  | general_protection => Some do_general_protection
  | _ => None
  end.
(** The stubs that push 0 for the error code the processor did not. *)
Definition has_error_code (e : entry) : bool :=
  match e with
  | double_fault | invalid_TSS | segment_not_present | stack_segment | general_protection => true
  | _ => false
  end.

(** One exception: the registers it returns to. *)
Definition exception (e : entry) (error_code cr2 eax : Z) (r : regs) : M (io_system X D) regs :=
  match c_handler e with
  | Some f => kern (f (stack_of r) (if has_error_code e then error_code else 0)) ;; mret r
  | None =>
      match e with
      | device_not_available => kern (device_not_available_ eax r)
      | coprocessor_error => kern (coprocessor_error_ eax r)
      | irq13 => irq13_ eax r
      | page_fault => kern (page_fault_ error_code cr2) ;; mret r
      | parallel_interrupt => parallel_interrupt_ r
      | _ => fault
      end
  end.

(** The processor's reading of a gate. *)
Definition gate_addr (d : desc_struct) : Z := Z.lor (Z.land (desc_b d) 0xffff0000) (Z.land (desc_a d) 0xffff).
Definition gate_selector (d : desc_struct) : Z := Z.land (Z.shiftr (desc_a d) 16) 0xffff.
Definition gate_type (d : desc_struct) : Z := Z.land (Z.shiftr (desc_b d) 8) 0x1f.
Definition gate_dpl (d : desc_struct) : Z := Z.land (Z.shiftr (desc_b d) 13) 3.
Definition gate_present (d : desc_struct) : bool := Z.testbit (desc_b d) 15.
End Stubs.
End Handlers.
