(* ===== verification/TrapsProofs.v ===== *)
(** * The exceptions: gates, handlers, and one coprocessor for many tasks *)

From stdpp Require Import base option list gmap strings.
From Stdlib Require Import ZArith Lia.
From S2P Require Import Prelude Types Memory Sched SchedProofs Kernel KernelFacts Ports Fork Exit Sys Traps.
Local Open Scope Z_scope.

(** ** The coprocessor

    The 387 is switched lazily: a task switch only arms a trap, and the first
    use of the 387 after it exchanges the registers.  [vfpu s p] are the
    registers task [p] believes it has; [None] until it first uses them. *)
Definition vfpu (s : sched_state) (p : Z) : option i387_struct :=
  t ← tasks s !! p;
  if last_task_used_math s =? p then Some (fpu s)
  else if truth (used_math t) then Some (i387 (tss t)) else None.

(** The 387 belongs to a task that has used it; when it does not trap, it is the
    current one. *)
Record math_wf (s : sched_state) : Prop := {
  math_null : tasks s !! 0 = None;
  math_cur : is_Some (tasks s !! current s);
  math_owner : last_task_used_math s ≠ 0 →
    ∃ t, tasks s !! last_task_used_math s = Some t ∧ truth (used_math t) = true
}.
Definition math_ok (s : sched_state) : Prop :=
  math_wf s ∧ (cr0_ts s = false → last_task_used_math s = current s).

(** Tasks that differ in their 387 only. *)
Definition without_math (t : task_struct) : task_struct :=
  t <| used_math := 0 |> <| tss ::= λ x, x <| i387 := initial_387 (mk_i387 0 0 0 0 0 0 0 []) |> |>.
Definition same_tasks (s s' : sched_state) : Prop :=
  task s' = task s ∧ current s' = current s ∧ without_math <$> tasks s' = without_math <$> tasks s.

Lemma same_tasks_trans s1 s2 s3 : same_tasks s1 s2 → same_tasks s2 s3 → same_tasks s1 s3.
Proof. intros (? & ? & ?) (? & ? & ?). repeat split; congruence. Qed.
Lemma same_tasks_insert (ts : gmap Z task_struct) p t t' :
  ts !! p = Some t → without_math t' = without_math t →
  without_math <$> <[p := t']> ts = without_math <$> ts.
Proof. intros Ht Heq. by rewrite fmap_insert, Heq, insert_id by (by rewrite lookup_fmap, Ht). Qed.

(** The registers a task starts with: those of fninit. *)
Definition fresh (f : i387_struct) : Prop := ∃ r, f = initial_387 r.
(** The registers [p] finds when it uses the 387 next. *)
Definition finds (s : sched_state) (p : Z) (f : i387_struct) : Prop :=
  match vfpu s p with Some f' => f = f' | None => fresh f end.

Lemma vfpu_owner s t : tasks s !! last_task_used_math s = Some t → vfpu s (last_task_used_math s) = Some (fpu s).
Proof. intros Ht. unfold vfpu. rewrite Ht. simpl. by rewrite Z.eqb_refl. Qed.

(** The registers of the owner are stored, those of the current task loaded. *)
Lemma math_unowned s :
  math_wf s → last_task_used_math s ≠ current s →
  ∃ s1, when (truth (last_task_used_math s)) (fnsave (last_task_used_math s)) s = Ok tt s1 ∧ same_tasks s s1 ∧
    cr0_ts s1 = cr0_ts s ∧ tasks s1 !! current s = tasks s !! current s ∧
    ∀ q, q ≠ current s → vfpu (s1 <| last_task_used_math := current s |>) q = vfpu s q.
Proof.
  intros [H0 [c Hc] Hown] Hne. unfold truth.
  destruct (Z.eqb_spec (last_task_used_math s) 0) as [He|Hl]; simpl.
  - exists s. repeat split; try done. intros q Hq. unfold vfpu. simpl.
    destruct (tasks s !! q) as [t|] eqn:Ht; [|done]. simpl.
    destruct (Z.eqb_spec (current s) q) as [|_]; [by subst q|].
    destruct (Z.eqb_spec (last_task_used_math s) q) as [<-|_]; [congruence|done].
  - destruct (Hown Hl) as (t & Ht & Hu). eexists. split.
    { unfold fnsave, get. mred. by rewrite (upd_task_run _ _ _ _ Ht). }
    split; [split; [done|split; [done|]]|]. { simpl. eapply same_tasks_insert; [done|]. done. }
    simpl.
    split; [done|]. split; [by rewrite lookup_insert_ne|]. intros q Hq. unfold vfpu. simpl.
    destruct (Z.eqb_spec (current s) q) as [|_]; [by subst q|].
    destruct (Z.eqb_spec (last_task_used_math s) q) as [<-|Hn].
    + by rewrite lookup_insert_eq, Ht; simpl; rewrite Hu.
    + by rewrite lookup_insert_ne.
Qed.

(** After the trap the current task owns the 387 and finds its own registers in
    it; every other task has the registers it had. *)
Lemma math_trap_run s :
  math_ok s →
  ∃ s', math_trap s = Ok tt s' ∧ same_tasks s s' ∧ math_ok s' ∧ cr0_ts s' = false ∧
    last_task_used_math s' = current s ∧ finds s (current s) (fpu s') ∧
    ∀ q, q ≠ current s → vfpu s' q = vfpu s q.
Proof.
  intros [Hwf _]. set (s0 := s <| cr0_ts := false |>). assert (Hwf0 : math_wf s0) by (destruct Hwf; by split).
  unfold math_trap. rewrite (bind_Ok _ _ _ tt s0) by done. unfold math_state_restore.
  rewrite (bind_Ok _ _ _ s0 s0) by done. destruct (Z.eqb_spec (last_task_used_math s0) (current s0)) as [He|Hne].
  { exists s0. do 2 (split; [done|]). split; [by split|]. do 2 (split; [done|]). split; [|done].
    destruct (math_cur s Hwf) as [c Hc]. unfold finds. simpl in He. rewrite <-He in Hc |- *.
    by rewrite (vfpu_owner s c Hc). }
  destruct (math_unowned s0 Hwf0 Hne) as (s1 & Hrun & Hsame & Hts & Hcur & Hv). rewrite (bind_Ok _ _ _ _ _ Hrun).
  destruct Hsame as (Htk & Hcs & Hsame). change (current s0) with (current s) in *.
  set (s2 := s1 <| last_task_used_math := current s |>).
  assert (Hset : modify (λ s, s <| last_task_used_math := current s |>) s1 = Ok tt s2) by (unfold modify, s2; by rewrite Hcs).
  rewrite (bind_Ok _ _ _ _ _ Hset). destruct (math_cur _ Hwf) as [c Hc].
  assert (Hc2 : tasks s2 !! current s2 = Some c) by (simpl; by rewrite Hcs, Hcur).
  rewrite (bind_Ok _ _ _ _ _ (cur_task_run _ _ Hc2)).
  assert (Hmine : vfpu s (current s) = if truth (used_math c) then Some (i387 (tss c)) else None).
  { unfold vfpu. rewrite Hc. simpl. by destruct (Z.eqb_spec (last_task_used_math s) (current s)). }
  assert (H02 : tasks s2 !! 0 = None).
  { apply (f_equal (λ m, m !! 0)) in Hsame. rewrite !lookup_fmap in Hsame.
    change (tasks s0) with (tasks s) in Hsame. rewrite (math_null _ Hwf) in Hsame. by destruct (tasks s1 !! 0) eqn:E. }
  destruct (truth (used_math c)) eqn:Hu.
  - unfold frstor. rewrite (bind_Ok _ _ _ c s2) by (apply task_at_run; simpl; by rewrite Hcur). eexists. split; [done|].
    split; [by split|]. split; [|split; [done|split; [done|split]]].
    + split; [|done]. split; [done|by exists c|]. intros _. exists c. split; [|done]. simpl. by rewrite Hcur.
    + unfold finds. by rewrite Hmine.
    + intros q Hq. change (vfpu s q) with (vfpu s0 q). rewrite <-Hv by done. unfold vfpu. simpl.
      destruct (tasks s1 !! q); [|done]. simpl. by destruct (Z.eqb_spec (current s) q); [subst q|].
  - rewrite (bind_Ok _ _ _ tt (s2 <| fpu ::= initial_387 |>)) by done.
    unfold upd_cur. rewrite (bind_Ok _ _ _ (current s2) (s2 <| fpu ::= initial_387 |>)) by done.
    rewrite (upd_task_run _ _ _ c) by done. eexists. split; [done|].
    split; [|split; [|split; [done|split; [done|split]]]].
    + split; [done|split; [done|]]. simpl. rewrite Hcs. etrans; [|exact Hsame].
      by apply (same_tasks_insert _ _ c); [rewrite Hcur|].
    + assert (Hin : <[current s2 := c <| used_math := 1 |>]> (tasks s2) !! current s2 = Some (c <| used_math := 1 |>))
        by apply lookup_insert_eq.
      split; [|done]. split; [|by eexists|].
      * simpl. rewrite lookup_insert_ne; [done|]. intros Heq. change (current s2) with (current s1) in Hc2. rewrite Heq in Hc2. congruence.
      * intros _. exists (c <| used_math := 1 |>). split; [|done]. simpl. rewrite <-Hcs. exact Hin.
    + unfold finds. rewrite Hmine. by eexists.
    + intros q Hq. change (vfpu s q) with (vfpu s0 q). rewrite <-Hv by done. unfold vfpu. simpl. rewrite Hcs, lookup_insert_ne by done.
      destruct (tasks s1 !! q); [|done]. simpl. by destruct (Z.eqb_spec (current s) q); [subst q|].
Qed.


(** *** A run of the machine as the 387 sees it

    The current task executes an instruction of the 387, which traps if it has
    to, or the scheduler switches to the task of another slot. *)
Inductive fpu_event := Op (g : i387_struct → i387_struct) | Switch (n : nat).
Definition fpu_step (e : fpu_event) : M sched_state unit :=
  match e with
  | Op g => s ← get; when (cr0_ts s) math_trap ;; modify (λ s, s <| fpu ::= g |>)
  | Switch n => switch_to n
  end.

(** The same run on a machine where every task has a 387 of its own. *)
Definition registers := Z → option i387_struct.
Inductive own_step (slots : list Z) : fpu_event → Z → registers → Z → registers → Prop :=
  | own_op g p V V' f :
      match V p with Some f' => f = f' | None => fresh f end →
      V' p = Some (g f) → (∀ q, q ≠ p → V' q = V q) → own_step slots (Op g) p V p V'
  | own_switch n p p' V V' :
      slots !! n = Some p' → (∀ q, V' q = V q) → own_step slots (Switch n) p V p' V'.
Inductive own_run (slots : list Z) : list fpu_event → Z → registers → Z → registers → Prop :=
  | own_nil p V : own_run slots [] p V p V
  | own_cons e es p1 V1 p2 V2 p3 V3 :
      own_step slots e p1 V1 p2 V2 → own_run slots es p2 V2 p3 V3 → own_run slots (e :: es) p1 V1 p3 V3.

(** The switches of a run go to slots in use. *)
Definition switches_ok (s : sched_state) (es : list fpu_event) : Prop :=
  ∀ n, Switch n ∈ es → ∃ p, task s !! n = Some p ∧ is_Some (tasks s !! p).

Lemma same_tasks_is_Some s s' p : same_tasks s s' → is_Some (tasks s !! p) → is_Some (tasks s' !! p).
Proof.
  intros (_ & _ & H) [t Ht]. apply (f_equal (λ m, m !! p)) in H. rewrite !lookup_fmap, Ht in H.
  destruct (tasks s' !! p); by eauto.
Qed.

Lemma fpu_op g s :
  math_ok s →
  ∃ s', fpu_step (Op g) s = Ok tt s' ∧ same_tasks s s' ∧ math_ok s' ∧
    own_step (task s) (Op g) (current s) (vfpu s) (current s') (vfpu s').
Proof.
  intros Hok. simpl. rewrite (bind_Ok _ _ _ s s) by done.
  assert (Hmid : ∃ s1, when (cr0_ts s) math_trap s = Ok tt s1 ∧ same_tasks s s1 ∧ math_ok s1 ∧
    last_task_used_math s1 = current s ∧ finds s (current s) (fpu s1) ∧ ∀ q, q ≠ current s → vfpu s1 q = vfpu s q).
  { destruct (cr0_ts s) eqn:Hts.
    - destruct (math_trap_run s Hok) as (s1 & H). exists s1. naive_solver.
    - pose proof Hok as [[_ [c Hc] _] Hown]. specialize (Hown Hts). exists s. do 4 (split; [done|]). split; [|done].
      unfold finds. rewrite <-Hown in Hc |- *. by rewrite (vfpu_owner s c Hc). }
  destruct Hmid as (s1 & Hrun & Hsame & Hok1 & Hlast & Hf & Hv). rewrite (bind_Ok _ _ _ _ _ Hrun).
  eexists. split; [done|]. split; [done|]. pose proof Hsame as (_ & Hcur & _). destruct Hok1 as [[H0 [c Hc] Ho] Hts].
  split; [split; [by split; [done|exists c|]|done]|]. simpl. rewrite Hcur. apply (own_op _ _ _ _ _ (fpu s1)); [done|..].
  - rewrite <-Hcur in Hlast. unfold vfpu. simpl. rewrite <-Hcur, Hc. simpl. by rewrite Hlast, Z.eqb_refl.
  - intros q Hq. rewrite <-Hv by done. unfold vfpu. simpl. destruct (tasks s1 !! q); [|done]. simpl.
    rewrite Hlast. by destruct (Z.eqb_spec (current s) q); [subst q|].
Qed.

Lemma fpu_switch n s p :
  math_ok s → task s !! n = Some p → is_Some (tasks s !! p) →
  ∃ s', fpu_step (Switch n) s = Ok tt s' ∧ task s' = task s ∧ tasks s' = tasks s ∧ math_ok s' ∧
    own_step (task s) (Switch n) (current s) (vfpu s) (current s') (vfpu s').
Proof.
  intros [[H0 Hc Ho] Hts] Hn Hp. simpl. unfold switch_to. rewrite (bind_Ok _ _ _ _ _ (task_slot_run _ _ _ Hn)).
  rewrite (bind_Ok _ _ _ (current s) s) by done. destruct (Z.eqb_spec p (current s)) as [->|Hne]; simpl.
  - exists s. repeat split; try done. by apply own_switch.
  - exists (switched_to p s). repeat split; try done; [|by apply own_switch]. simpl.
    intros H. apply negb_false_iff in H. lia.
Qed.

(** C30: one 387 for many tasks.  Along any run of 387 instructions and task
    switches, every task computes as if it had a 387 of its own: nothing another
    task does changes its registers, and the first instruction of a task finds
    them initialised.  The run never faults, and nothing else of any task
    changes. *)
Theorem math_refines es s :
  math_ok s → switches_ok s es →
  ∃ s', for_each es fpu_step s = Ok tt s' ∧ math_ok s' ∧
    task s' = task s ∧ without_math <$> tasks s' = without_math <$> tasks s ∧
    own_run (task s) es (current s) (vfpu s) (current s') (vfpu s').
Proof.
  revert s. induction es as [|e es IH]; intros s Hok Hsw; simpl; [exists s; do 4 (split; [done|]); constructor|].
  assert (Hstep : ∃ s1, fpu_step e s = Ok tt s1 ∧ math_ok s1 ∧ task s1 = task s ∧
    without_math <$> tasks s1 = without_math <$> tasks s ∧
    own_step (task s) e (current s) (vfpu s) (current s1) (vfpu s1)).
  { destruct e as [g|n].
    - destruct (fpu_op g s Hok) as (s1 & ? & (? & _ & ?) & ? & ?). by exists s1.
    - destruct (Hsw n) as (p & Hn & Hp); [left|].
      destruct (fpu_switch n s p Hok Hn Hp) as (s1 & ? & ? & Ht & ? & ?). exists s1. by rewrite Ht. }
  destruct Hstep as (s1 & Hrun & Hok1 & Htask & Htasks & Hown). rewrite (bind_Ok _ _ _ _ _ Hrun).
  destruct (IH s1 Hok1) as (s2 & Hrun2 & ? & ? & ? & Hown2).
  { intros n Hn. destruct (Hsw n) as (p & Hp & t & Ht); [by right|]. exists p. rewrite Htask. split; [done|].
    apply (f_equal (λ m, m !! p)) in Htasks. rewrite !lookup_fmap, Ht in Htasks.
    destruct (tasks s1 !! p); by eauto. }
  exists s2. split; [done|]. split; [done|]. split; [congruence|]. split; [congruence|].
  rewrite Htask in Hown2. by eapply own_cons.
Qed.

(** *** fork()

    The child gets the registers of its parent; a parent whose registers are in
    the 387 loses them there, because fnsave initialises it and nothing loads
    them again. *)
Lemma save_math_child s p t :
  math_wf s → p ≠ current s → tasks s !! current s = Some t →
  tasks s !! p = Some (t <| state := TASK_UNINTERRUPTIBLE |>) → last_task_used_math s ≠ p →
  ∃ s', save_math p s = Ok tt s' ∧ vfpu s' p = vfpu s (current s) ∧
    (last_task_used_math s ≠ current s → s' = s) ∧
    (last_task_used_math s = current s → vfpu s' (current s) = Some (initial_387 (fpu s))).
Proof.
  intros Hwf Hne Ht Hp Hlp. unfold save_math. rewrite (bind_Ok _ _ _ s s) by done.
  destruct (Z.eqb_spec (last_task_used_math s) (current s)) as [He|Hn]; simpl.
  - set (s0 := s <| cr0_ts := false |>). rewrite (bind_Ok _ _ _ tt s0) by done. unfold fnsave, get. mred.
    rewrite (upd_task_run p _ s0 _ Hp). eexists. split; [done|].
    assert (Hlast0 : last_task_used_math s ≠ 0).
    { intros H0. rewrite <-He, H0, (math_null _ Hwf) in Ht. done. }
    destruct (math_owner _ Hwf Hlast0) as (t' & Ht' & Hu). rewrite He, Ht in Ht'. injection Ht' as <-.
    split; [|split; [done|]]; unfold vfpu; simpl.
    + rewrite lookup_insert_eq, Ht, He. simpl. destruct (Z.eqb_spec (current s) p) as [|_]; [by subst p|].
      by rewrite Hu, Z.eqb_refl.
    + intros _. by rewrite lookup_insert_ne, Ht, He, Z.eqb_refl by done.
  - exists s. split; [done|]. split; [|by split; [intros|done]]. unfold vfpu. rewrite Hp, Ht. simpl.
    destruct (Z.eqb_spec (last_task_used_math s) p) as [|_]; [done|].
    by destruct (Z.eqb_spec (last_task_used_math s) (current s)).
Qed.

(** ** The gates *)

(** [d] is a gate of the kernel's code segment to [e], of a type (14 for an
    interrupt gate, 15 for a trap gate) and a privilege level. *)
Definition leads_to `{Linked} (d : desc_struct) (type dpl : Z) (e : entry) : Prop :=
  gate_addr d = entry_addr e ∧ gate_selector d = 8 ∧ gate_type d = type ∧ gate_dpl d = dpl ∧ gate_present d = true.

(** The linker put the kernel below 4 GB. *)
Class LinkedOk `{Linked} : Prop := entry_addr_ok e : 0 ≤ entry_addr e < 2 ^ 32.

Lemma high_half_bit n : 0 ≤ n < 32 → Z.testbit 0xffff0000 n = (16 <=? n).
Proof.
  intros Hn. assert (Hall : forallb (λ k, Bool.eqb (Z.testbit 0xffff0000 (Z.of_nat k)) (16 <=? Z.of_nat k)) (seq 0 32) = true)
    by reflexivity.
  rewrite forallb_forall in Hall. specialize (Hall (Z.to_nat n)). rewrite Z2Nat.id in Hall by lia.
  apply Bool.eqb_prop, Hall, in_seq. lia.
Qed.
Lemma low_half_bit n : 0 ≤ n → Z.testbit 0xffff n = (n <? 16).
Proof. intros Hn. exact (Z.testbit_ones_nonneg 16 n ltac:(lia) Hn). Qed.

Lemma gate_desc_addr type dpl a : 0 ≤ a < 2 ^ 32 → gate_addr (gate_desc type dpl a) = a.
Proof.
  intros Ha. unfold gate_addr, gate_desc. simpl desc_a. simpl desc_b. apply Z.bits_inj'. intros n Hn.
  destruct (Z.lt_ge_cases n 32) as [Hlt|Hge].
  - rewrite !Z.lor_spec, !Z.land_spec, !Z.lor_spec, !Z.land_spec, high_half_bit, low_half_bit by lia.
    destruct (Z.ltb_spec n 16), (Z.leb_spec 16 n); try lia;
      by rewrite ?andb_false_r, ?andb_true_r, ?orb_false_r.
  - assert (Hhigh : ∀ x, 0 ≤ x < 2 ^ 32 → Z.testbit x n = false).
    { intros x Hx. rewrite <-(Z.mod_small x (2 ^ 32)) by lia. by rewrite Z.mod_pow2_bits_high by lia. }
    rewrite !Z.lor_spec, !Z.land_spec. rewrite (Hhigh 0xffff0000), (Hhigh 0xffff), (Hhigh a) by lia.
    by rewrite !andb_false_r.
Qed.

(** A field of the lower half of the second word. *)
Lemma low_field a k m sh :
  0 ≤ sh → 0 ≤ m < 2 ^ (16 - sh) → sh ≤ 16 →
  Z.land (Z.shiftr (Z.lor (Z.land a 0xffff0000) k) sh) m = Z.land (Z.shiftr k sh) m.
Proof.
  intros Hsh Hm Hle. apply Z.bits_inj'. intros n Hn. rewrite !Z.land_spec, !Z.shiftr_spec, Z.lor_spec, Z.land_spec by lia.
  destruct (Z.lt_ge_cases n (16 - sh)) as [Hlt|Hge].
  - rewrite high_half_bit by lia. destruct (Z.leb_spec 16 (n + sh)); [lia|]. by rewrite andb_false_r.
  - assert (Z.testbit m n = false) as ->.
    { rewrite <-(Z.mod_small m (2 ^ (16 - sh))) by lia. by rewrite Z.mod_pow2_bits_high by lia. }
    by rewrite !andb_false_r.
Qed.

Lemma gate_desc_selector type dpl a : gate_selector (gate_desc type dpl a) = 8.
Proof.
  unfold gate_selector, gate_desc. simpl desc_a. change (Z.land 0x80000 0xffff0000) with 0x80000.
  apply Z.bits_inj'. intros n Hn. rewrite !Z.land_spec, Z.shiftr_spec, Z.lor_spec, Z.land_spec, !low_half_bit by lia.
  destruct (Z.ltb_spec (n + 16) 16); [lia|]. rewrite andb_false_r, orb_false_r.
  destruct (Z.ltb_spec n 16).
  - by rewrite andb_true_r, <-Z.shiftr_spec by lia.
  - rewrite andb_false_r. change 8 with (8 mod 2 ^ 16). by rewrite Z.mod_pow2_bits_high by lia.
Qed.

Lemma gate_desc_leads `{LinkedOk} type dpl e :
  type = 14 ∨ type = 15 → dpl = 0 ∨ dpl = 3 → leads_to (gate_desc type dpl (entry_addr e)) type dpl e.
Proof.
  intros Ht Hd. split; [apply gate_desc_addr, entry_addr_ok|]. split; [apply gate_desc_selector|].
  unfold gate_type, gate_dpl, gate_present, gate_desc. simpl desc_b. rewrite Z.testbit_odd.
  rewrite !low_field by lia.
  assert (Hp : ∀ k, Z.odd (Z.shiftr (Z.lor (Z.land (entry_addr e) 0xffff0000) k) 15) = Z.odd (Z.shiftr k 15)).
  { intros k. rewrite <-!Z.testbit_odd, Z.lor_spec, Z.land_spec. by rewrite andb_false_r. }
  rewrite Hp. destruct Ht as [-> | ->], Hd as [-> | ->]; done.
Qed.

(** ** trap_init() *)

(** The gates of the first 48 vectors: the type, the privilege level and the
    routine. *)
Definition trap_gates : list (Z * Z * entry) := [
  (15, 0, divide_error); (15, 0, debug); (15, 0, nmi);
  (15, 3, int3); (15, 3, overflow); (15, 3, bounds);
  (15, 0, invalid_op); (15, 0, device_not_available); (15, 0, double_fault);
  (15, 0, coprocessor_segment_overrun); (15, 0, invalid_TSS); (15, 0, segment_not_present);
  (15, 0, stack_segment); (15, 0, general_protection); (15, 0, page_fault); (15, 0, reserved);
  (15, 0, coprocessor_error)] ++ replicate 22 (15, 0, reserved) ++
  [(15, 0, parallel_interrupt)] ++ replicate 5 (15, 0, reserved) ++ [(15, 0, irq13)] ++ replicate 2 (15, 0, reserved).
Definition desc_of `{Linked} (g : Z * Z * entry) : desc_struct := gate_desc g.1.1 g.1.2 (entry_addr g.2).

(** [f] applied to the table of gates. *)
Definition upd_idt {X D} (f : list desc_struct → list desc_struct) (s : io_system X D) : io_system X D :=
  s <| sys_k ::= λ k, k <| k_sched ::= λ d, d <| idt ::= f |> |> |>.
(** The state of the device after [mask_port]. *)
Definition masked `{Controller D} (mask port : Z) (d : D) : D :=
  port_out port (u8 (Z.land (port_in port d).1 mask)) (port_in port d).2.
Lemma mask_port_run {X} `{Controller D} mask port (s : io_system X D) :
  mask_port mask port s = Ok tt (s <| sys_dev ::= masked mask port |>).
Proof. done. Qed.
Lemma gate_run `{Linked} {X D} n type dpl e (s : io_system X D) :
  zoom sys_k (zoom k_sched (_set_gate n type dpl e)) s = Ok tt (upd_idt <[n := desc_of (type, dpl, e)]> s).
Proof. done. Qed.

(** What trap_init() does: 48 gates, and two lines of the interrupt controllers
    enabled. *)
Definition traps_set (g : list (Z * Z * entry)) : list (Z * Z * entry) := trap_gates ++ drop 48 g.
Lemma trap_init_run `{Linked} {X D} `{Controller D} (s : io_system X D) g :
  length g = 256%nat → idt (k_sched (sys_k s)) = desc_of <$> g →
  trap_init s = Ok tt (upd_idt (λ _, desc_of <$> traps_set g) s <| sys_dev ::= λ d, masked 0xdf 0xA1 (masked 0xfb 0x21 d) |>).
Proof.
  intros Hlen Hg. do 48 (destruct g as [|? g]; [done|]). destruct s as [k x d], k as [? sc], sc. simpl in Hg. subst.
  unfold trap_init. cbn [for_each seq Nat.sub]. reflexivity.
Qed.

(** ** The handlers *)

(** The exceptions whose handler lets the program go on. *)
Definition survivable : list nat := [1; 3; 7; 14; 16; 39; 45]%nat.

Lemma die_run `{Env} str esp nr s ss : esp !! 4%nat = Some ss → die str esp nr s = (do_exit 11 ;; mret tt) s.
Proof.
  intros Hss. unfold die, printk. rewrite Hss. mred. simpl. by destruct (ss =? 0x17).
Qed.
Lemma fatal_exception `{Env} `{Cpu} {X D} `{Controller D} e str err cr2 eax r (s : io_system X D) :
  c_handler e = Some (die str) → exception e err cr2 eax r s = (zoom sys_k (do_exit 11) ;; mret r) s.
Proof. intros He. unfold exception. rewrite He. unfold zoom. mred. rewrite (die_run _ _ _ _ (r_ss r)) by done. mred. by destruct (do_exit 11 (sys_k s)). Qed.

Definition entry_of (n : nat) : entry := match trap_gates !! n with Some g => g.2 | None => ignore_int end.
Definition int_dpl (n : nat) : Z := if bool_decide (n ∈ [3; 4; 5]%nat) then 3 else 0.

Lemma trap_gates_lookup n : (n < 48)%nat → trap_gates !! n = Some (15, int_dpl n, entry_of n).
Proof. intros Hn. do 48 (destruct n as [|n]; [reflexivity|]). lia. Qed.
(** The name under which die() reports an exception. *)
Definition fatal_name (e : entry) : option string :=
  match e with
  | divide_error => Some "divide error" | nmi => Some "nmi" | overflow => Some "overflow"
  | bounds => Some "bounds" | invalid_op => Some "invalid operand"
  | coprocessor_segment_overrun => Some "coprocessor segment overrun"
  | reserved => Some "reserved (15,17-47) error" | double_fault => Some "double fault"
  | invalid_TSS => Some "invalid TSS" | segment_not_present => Some "segment not present"
  | stack_segment => Some "stack segment" | general_protection => Some "general protection"
  | _ => None
  end%string.
Lemma fatal_name_handler `{Env} e str : fatal_name e = Some str → c_handler e = Some (die str).
Proof. by destruct e; intros [= <-]. Qed.
Lemma entry_of_fatal `{Env} n :
  (n < 48)%nat → n ∉ survivable → ∃ str, c_handler (entry_of n) = Some (die str).
Proof.
  intros Hn Hs.
  assert (Hall : forallb (λ n, bool_decide (n ∈ survivable) || bool_decide (is_Some (fatal_name (entry_of n)))) (seq 0 48) = true)
    by reflexivity.
  rewrite forallb_forall in Hall. specialize (Hall n (proj2 (in_seq 48 0 n) ltac:(lia))).
  rewrite bool_decide_false in Hall by done. apply bool_decide_eq_true in Hall as [str Hstr].
  exists str. by apply fatal_name_handler.
Qed.

(** C31: the exceptions.  trap_init() makes the gates of the vectors 0-47 lead to
    their stubs, callable by programs only for 3, 4 and 5, and leaves the other
    gates alone.  Every one of these exceptions kills the current task with exit
    code 11, except those that are a service: 7 and 16 (the coprocessor), 14
    (paging), 39 and 45 (the interrupts of the printer and the coprocessor),
    and 1 and 3, which only print the registers. *)
Theorem trap_init_correct `{LinkedOk} `{Env} `{Cpu} {X D} `{Controller D} (s : io_system X D) g :
  length g = 256%nat → idt (k_sched (sys_k s)) = desc_of <$> g →
  ∃ s', trap_init s = Ok tt s' ∧
    (∀ n, (n < 48)%nat →
      (∃ d, idt (k_sched (sys_k s')) !! n = Some d ∧ leads_to d 15 (int_dpl n) (entry_of n)) ∧
      (n ∉ survivable → ∀ err cr2 eax r (s1 : io_system X D),
        exception (entry_of n) err cr2 eax r s1 = (zoom sys_k (do_exit 11) ;; mret r) s1) ∧
      (n = 1%nat ∨ n = 3%nat → ∀ err cr2 eax r (s1 : io_system X D),
        exception (entry_of n) err cr2 eax r s1 = Ok r s1)) ∧
    (∀ n, (48 ≤ n)%nat → idt (k_sched (sys_k s')) !! n = idt (k_sched (sys_k s)) !! n).
Proof.
  intros Hlen Hg. eexists. split; [by apply (trap_init_run s g)|].
  set (s' := upd_idt _ _ <| sys_dev ::= _ |>). assert (Hidt : idt (k_sched (sys_k s')) = desc_of <$> traps_set g) by done.
  rewrite Hidt. split.
  - intros n Hn. split; [|split].
    + exists (desc_of (15, int_dpl n, entry_of n)). split.
      * rewrite list_lookup_fmap. unfold traps_set. rewrite lookup_app_l by (simpl; lia). by rewrite trap_gates_lookup.
      * apply gate_desc_leads; [by right|]. unfold int_dpl. case_bool_decide; [by right|by left].
    + intros Hs err cr2 eax r s1. destruct (entry_of_fatal n Hn Hs) as (str & Hf). by eapply fatal_exception.
    + intros [-> | ->] err cr2 eax r [k x d]; reflexivity.
  - intros n Hn. rewrite Hg, !list_lookup_fmap. unfold traps_set.
    rewrite lookup_app_r by (simpl; lia). rewrite lookup_drop. do 2 f_equal. simpl. lia.
Qed.
