(* ===== verification/SysProofs.v ===== *)
(** * The identity system calls and the boot memory layout *)

From stdpp Require Import base option list gmap.
From Stdlib Require Import ZArith Lia.
From S2P Require Import Prelude Types Memory MemoryFacts Sched Kernel KernelFacts Sys.
Local Open Scope Z_scope.

(** The identities of a task are 16-bit numbers. *)
Definition ids_ok (t : task_struct) : Prop :=
  0 ≤ uid t < 65536 ∧ 0 ≤ euid t < 65536 ∧ 0 ≤ gid t < 65536 ∧
  0 ≤ egid t < 65536 ∧ 0 ≤ sgid t < 65536.

(** The fields of [t] with the two user ids replaced. *)
Definition with_uids (u e : Z) (t : task_struct) : task_struct := t <| uid := u |> <| euid := e |>.
Definition with_gids (g e : Z) (t : task_struct) : task_struct := t <| gid := g |> <| egid := e |>.

Lemma with_uids_same t : with_uids (uid t) (euid t) t = t.
Proof. by destruct t. Qed.

(** Name the state reached, and compare the ids in it. *)
Ltac finish_ids t s Hs f g :=
  lazymatch goal with
  | |- context [mret ?r (set_me ?T s)] => exists r, (f T), (g T)
  | |- context [mret ?r s] => exists r, (f t), (g t); rewrite Hs at 1
  end;
  split; [by destruct t|]; unfold EPERM; simpl; repeat split; intros; lia.

(** sys_setreuid always returns 0 or -EPERM and touches nothing but the
    two user ids of the caller; on -EPERM even these are as before; on 0 each
    id asked for (a positive argument) has been set; and a caller that is not
    the superuser can only end up with ids it already had. *)
Theorem setreuid_correct (s : kernel) (t : task_struct) (ruid euid' : Z)
    (Ht : cur_is s t) (Hids : ids_ok t) (Hr : ruid < 65536) (He : euid' < 65536) :
  ∃ r u e,
    sys_setreuid ruid euid' s = Ok r (set_me (with_uids u e t) s) ∧
    (r = 0 ∨ r = - EPERM) ∧
    (r = - EPERM → u = uid t ∧ e = euid t ∧ euid t ≠ 0) ∧
    (r = 0 → u = (if 0 <? ruid then ruid else uid t) ∧ e = (if 0 <? euid' then euid' else euid t)) ∧
    (euid t ≠ 0 → (u = uid t ∨ u = euid t) ∧ (e = uid t ∨ e = euid t)).
Proof.
  destruct Hids as (Hu & He0 & _). assert (Hs : s = set_me t s) by (by rewrite set_me_id).
  unfold sys_setreuid. do 2 run_me. unfold when.
  destruct (Z.ltb_spec 0 ruid), (Z.ltb_spec 0 euid'); simpl;
    destruct (Z.eqb_spec (euid t) 0); simpl;
    repeat match goal with |- context [?a =? ?b] => destruct (Z.eqb_spec a b); simpl end;
    repeat run_me; rewrite ?u16_small, ?set_me_set_me by lia;
    finish_ids t s Hs uid euid.
Qed.

(** sys_setregid always returns 0 or -EPERM and touches nothing but the two
    group ids of the caller; although it stores the real id before it tests the
    effective one, a call that fails leaves both as before; on 0 each id asked
    for has been set; without privilege the real group never changes and the
    effective one is among the real, effective and saved ones. *)
Theorem setregid_correct (s : kernel) (t : task_struct) (rgid egid' : Z)
    (Ht : cur_is s t) (Hids : ids_ok t) (Hr : rgid < 65536) (He : egid' < 65536) :
  ∃ r g e,
    sys_setregid rgid egid' s = Ok r (set_me (with_gids g e t) s) ∧
    (r = 0 ∨ r = - EPERM) ∧
    (r = - EPERM → g = gid t ∧ e = egid t ∧ euid t ≠ 0) ∧
    (r = 0 → g = (if 0 <? rgid then rgid else gid t) ∧ e = (if 0 <? egid' then egid' else egid t)) ∧
    (euid t ≠ 0 → g = gid t ∧ (e = gid t ∨ e = egid t ∨ e = sgid t)).
Proof.
  destruct Hids as (_ & _ & Hg & He0 & _). assert (Hs : s = set_me t s) by (by rewrite set_me_id).
  unfold sys_setregid. do 2 run_me. unfold when.
  destruct (Z.ltb_spec 0 rgid), (Z.ltb_spec 0 egid'); simpl;
    destruct (Z.eqb_spec (euid t) 0); simpl;
    try (destruct (Z.eqb_spec (gid t) rgid); simpl);
    repeat run_me; simpl; rewrite ?u16_small by lia; simpl;
    repeat match goal with |- context [?a =? ?b] => destruct (Z.eqb_spec a b); simpl end;
    repeat run_me; rewrite ?u16_small, ?set_me_set_me by lia;
    finish_ids t s Hs gid egid.
Qed.

(** ** The boot memory map *)

(** The page frames main memory consists of are free, the others used. *)
Definition map_of (start end_ : Z) (i : nat) : Z :=
  if (start <=? LOW_MEM + 4096 * Z.of_nat i) && (LOW_MEM + 4096 * Z.of_nat i <? end_) then 0 else USED.

Lemma memory_layout_bounds k :
  0 ≤ k < 65536 →
  let '(e, b, m) := memory_layout k in
  m = b ∧ 0x100000 ≤ m ≤ e ∧ e ≤ 0x1000000 ∧ e mod 4096 = 0 ∧ m mod 4096 = 0.
Proof.
  intros Hk. unfold memory_layout.
  rewrite Z.shiftl_mul_pow2 by lia. change (2 ^ 20) with 1048576. change (2 ^ 10) with 1024.
  set (x := 1048576 + k * 1024).
  assert (Hx : Z.land x 0xfffff000 = 4096 * (x / 4096)).
  { rewrite Z.land_comm. apply frame_spec. subst x. lia. }
  rewrite Hx. pose proof (Z.div_mod x 4096). pose proof (Z.mod_pos_bound x 4096).
  assert (1048576 ≤ 4096 * (x / 4096)).
  { assert (256 ≤ x / 4096); [|lia]. apply Z.div_le_lower_bound; subst x; lia. }
  destruct (Z.ltb_spec (16 * 1024 * 1024) (4096 * (x / 4096)));
    repeat match goal with |- context [?a <? ?b] => destruct (Z.ltb_spec a b) end;
    repeat split; try lia; try (by rewrite Z.mul_comm, Z.mod_mul by lia).
Qed.

(** One store in mem_map, and a loop of such stores. *)
Lemma map_set_at s i v :
  0 ≤ i < Z.of_nat (length (mem_map s)) →
  map_set i v s = Ok tt (s <| mem_map := zinsert i v (mem_map s) |>).
Proof.
  intros Hi. unfold map_set, map_get, deref. mred. unfold get.
  destruct (zlookup_is_Some (mem_map s) i Hi) as [x ->]. done.
Qed.
Lemma map_set_loop s (a : Z) (n : nat) v :
  0 ≤ a → a + Z.of_nat n ≤ Z.of_nat (length (mem_map s)) →
  wp (for_each (seq 0 n) (λ k, map_set (a + Z.of_nat k) v)) (λ _ s',
    HIGH_MEMORY s' = HIGH_MEMORY s ∧ phys s' = phys s ∧ length (mem_map s') = length (mem_map s) ∧
    ∀ i, zlookup (mem_map s') i =
      if (a <=? i) && (i <? a + Z.of_nat n) then Some v else zlookup (mem_map s) i) s.
Proof.
  intros Ha Hn.
  apply (wp_for_seq n _ (λ k s',
    HIGH_MEMORY s' = HIGH_MEMORY s ∧ phys s' = phys s ∧ length (mem_map s') = length (mem_map s) ∧
    ∀ i, zlookup (mem_map s') i =
      if (a <=? i) && (i <? a + Z.of_nat k) then Some v else zlookup (mem_map s) i)).
  - repeat split; intros i.
    destruct (Z.leb_spec a i), (Z.ltb_spec i (a + Z.of_nat 0)); [lia|done..].
  - intros k s1 Hk (Hh & Hp & Hl & Hm). unfold wp. rewrite map_set_at by lia. simpl.
    rewrite length_zinsert. repeat split; try congruence. intros i.
    destruct (decide (i = a + Z.of_nat k)) as [->|Hne].
    + rewrite zlookup_zinsert_eq by lia.
      destruct (Z.leb_spec a (a + Z.of_nat k)), (Z.ltb_spec (a + Z.of_nat k) (a + Z.of_nat (S k))); [done|lia..].
    + rewrite zlookup_zinsert_ne by congruence. rewrite Hm.
      destruct (Z.leb_spec a i), (Z.ltb_spec i (a + Z.of_nat k)), (Z.ltb_spec i (a + Z.of_nat (S k)));
        simpl; first [done|lia].
Qed.

Lemma mem_init_run s start e :
  Z.of_nat (length (mem_map s)) = PAGING_PAGES →
  0x100000 ≤ start ≤ e → e ≤ 0x1000000 → e mod 4096 = 0 → start mod 4096 = 0 →
  ∃ s', mem_init start e s = Ok tt s' ∧ HIGH_MEMORY s' = e ∧ phys s' = phys s ∧
    mem_map s' = map_of start e <$> seq 0 (Z.to_nat PAGING_PAGES).
Proof.
  intros Hlen Hs He He0 Hs0.
  assert (HP : PAGING_PAGES = 3840) by reflexivity.
  apply Z.mod_divide in He0 as [e' ->]; [|lia]. apply Z.mod_divide in Hs0 as [m' ->]; [|lia].
  assert (Hi : MAP_NR (m' * 4096) = m' - 256).
  { unfold MAP_NR, LOW_MEM. rewrite Z.shiftr_div_pow2 by lia. change (2 ^ 12) with 4096.
    replace (m' * 4096 - 0x100000) with ((m' - 256) * 4096) by lia. apply Z.div_mul. lia. }
  assert (Hn : Z.shiftr (e' * 4096 - m' * 4096) 12 = e' - m').
  { rewrite Z.shiftr_div_pow2 by lia. change (2 ^ 12) with 4096.
    rewrite <-Z.mul_sub_distr_r. apply Z.div_mul. lia. }
  assert (Hw : wp (mem_init (m' * 4096) (e' * 4096)) (λ _ s', HIGH_MEMORY s' = e' * 4096 ∧
    phys s' = phys s ∧ length (mem_map s') = length (mem_map s) ∧ ∀ i, 0 ≤ i < 3840 →
      zlookup (mem_map s') i = Some (map_of (m' * 4096) (e' * 4096) (Z.to_nat i))) s).
  { unfold mem_init. apply wp_bind. unfold modify. apply wp_bind.
    eapply wp_mono; [apply (map_set_loop _ 0 (Z.to_nat PAGING_PAGES) USED); simpl; lia|].
    intros ? s1 (Hh1 & Hp1 & Hl1 & Hm1). simpl in Hh1, Hp1, Hl1, Hm1. rewrite Hi, Hn.
    eapply wp_mono; [apply (map_set_loop _ (m' - 256)); lia|].
    intros ? s2 (Hh2 & Hp2 & Hl2 & Hm2). repeat split; try congruence.
    intros i Hi'. rewrite Hm2, Hm1, HP. unfold map_of, LOW_MEM. rewrite !Z2Nat.id by lia.
    destruct (Z.leb_spec (m' - 256) i), (Z.ltb_spec i (m' - 256 + (e' - m'))),
      (Z.leb_spec (m' * 4096) (0x100000 + 4096 * i)), (Z.ltb_spec (0x100000 + 4096 * i) (e' * 4096)),
      (Z.leb_spec 0 i), (Z.ltb_spec i (0 + 3840)); cbn [andb]; first [reflexivity|lia]. }
  destruct (proj1 (wp_Ok _ _ _) Hw) as ([] & s' & Hrun & Hh & Hp & Hl & Hm).
  exists s'. repeat split; [done..|]. apply list_eq. intros i. rewrite list_lookup_fmap.
  destruct (decide (i < 3840)%nat) as [Hlt|Hge].
  - specialize (Hm (Z.of_nat i) ltac:(lia)). rewrite zlookup_nat, Nat2Z.id in Hm. rewrite Hm.
    rewrite lookup_seq_lt by (rewrite HP; simpl; lia). done.
  - rewrite !lookup_ge_None_2; [done|rewrite length_seq, HP; lia|lia].
Qed.

(** Whatever amount of extended memory the BIOS reports, main() hands
    mem_init() a page-aligned range inside the 15 MB that mem_map covers, and
    afterwards mem_map marks as free exactly the frames of that range. *)
Theorem boot_memory_correct (s : mm) (EXT_MEM_K : Z)
    (Hk : 0 ≤ EXT_MEM_K < 65536) (Hlen : Z.of_nat (length (mem_map s)) = PAGING_PAGES) :
  let '(memory_end, buffer_memory_end, main_memory_start) := memory_layout EXT_MEM_K in
  0x100000 ≤ buffer_memory_end ∧ buffer_memory_end = main_memory_start ∧
  main_memory_start ≤ memory_end ≤ 0x1000000 ∧
  ∃ s', mem_init main_memory_start memory_end s = Ok tt s' ∧
    HIGH_MEMORY s' = memory_end ∧ phys s' = phys s ∧
    mem_map s' = map_of main_memory_start memory_end <$> seq 0 (Z.to_nat PAGING_PAGES).
Proof.
  pose proof (memory_layout_bounds EXT_MEM_K Hk) as Hb.
  destruct (memory_layout EXT_MEM_K) as [[e b] m]. destruct Hb as (-> & Hb1 & He & He0 & Hm0).
  repeat split; [lia..|].
  destruct (mem_init_run s b e) as (s' & ? & ? & ? & ?); eauto 10.
Qed.
