(* ===== verification/RequestFacts.v ===== *)
(** * The end of a request, and the first request of a device

    end_request computed for a request with a buffer; the routines by which a
    driver looks at the first request of its queue and updates it. *)

From stdpp Require Import base option list gmap strings.
From Stdlib Require Import ZArith Lia.
From S2P Require Import Prelude Types Memory Sched Kernel KernelFacts Blk BlkProofs Ports Buffer BlockFacts.
Local Open Scope Z_scope.

(** ** The end of a request *)

(** The head of a wait queue is a task. *)
Definition wakeable (K : kernel) (q : Z) : Prop := q = 0 ∨ is_Some (tasks (k_sched K) !! q).
Definition wakes (K K' : kernel) : Prop := ∀ q, wakeable K q → wakeable K' q.

Lemma wake_up_run p K :
  wakeable K (rd p K) → (∀ ks, rd p K = 0 → wr p 0 (K <| k_sched := ks |>) = K <| k_sched := ks |>) →
  ∃ ks, wake_up p K = Ok tt (wr p 0 (K <| k_sched := ks |>)) ∧ wakes K (K <| k_sched := ks |>).
Proof.
  intros Hw Hid. unfold wake_up, gets. mred. destruct (Z.eq_dec (rd p K) 0) as [H0|H0].
  - exists (k_sched K). rewrite H0. rewrite Hid by done. split; [by destruct K|]. by intros q.
  - destruct Hw as [Hw|[t Ht]]; [done|]. assert (Htr : truth (rd p K) = true) by by apply truth_true.
    exists (k_sched K <| tasks ::= <[rd p K := t <| state := 0 |>]> |>). unfold make_runnable, upd_task, task_at. split.
    + rewrite Htr. unfold zoom, when, get. rewrite ?Htr. mred. rewrite Ht. done.
    + intros q [->|Hq]; [by left|]. right. simpl. destruct (decide (q = rd p K)) as [->|Hne].
      * by rewrite lookup_insert_eq.
      * by rewrite lookup_insert_ne.
Qed.
Lemma alter_is_insert {A} (f : A → A) i x (l : list A) : l !! i = Some x → alter f i l = <[i := f x]> l.
Proof. intros Hx. apply list_eq. intros j. destruct (decide (j = i)) as [->|Hne].
  - rewrite list_lookup_alter_eq, Hx. simpl. by rewrite list_lookup_insert_eq by by eapply lookup_lt_Some.
  - by rewrite list_lookup_alter_ne, list_lookup_insert_ne.
Qed.

(** Request [c] is [r]. *)
Definition req_is (K : kernel) (c : nat) (r : request_struct) : Prop := request (k_blk K) !! c = Some r.
Definition set_req (c : nat) (r : request_struct) (K : kernel) : kernel :=
  K <| k_blk ::= λ d, d <| request ::= <[c := r]> |> |>.

Lemma alter_buffer f b x K :
  buf_is K b x → K <| k_buf ::= λ d, d <| buffers ::= alter f b |> |> = set_buf b (f x) K.
Proof. intros Hx. unfold set_buf, set. simpl. by rewrite (alter_is_insert _ _ _ _ Hx). Qed.
Lemma alter_request f c r K :
  req_is K c r → K <| k_blk ::= λ d, d <| request ::= alter f c |> |> = set_req c (f r) K.
Proof. intros Hx. unfold set_req, set. simpl. by rewrite (alter_is_insert _ _ _ _ Hx). Qed.
Lemma set_buf_same b x K : buf_is K b x → set_buf b x K = K.
Proof.
  intros Hx. unfold set_buf, set. simpl. rewrite (list_insert_id _ _ _ Hx).
  by destruct K as [? ? [] ? ? ? ? ? ?].
Qed.
Lemma set_req_same c r K : req_is K c r → set_req c r K = K.
Proof.
  intros Hx. unfold set_req, set. simpl. rewrite (list_insert_id _ _ _ Hx).
  by destruct K as [? ? ? [] ? ? ? ? ?].
Qed.

(** What end_request leaves of the buffer and the request. *)
Definition ended_buffer (up : Z) (x : buffer_head) : buffer_head :=
  x <| b_uptodate := u8 up |> <| b_lock := 0 |> <| b_wait := 0 |>.
Definition ended_request (r : request_struct) : request_struct := r <| r_waiting := 0 |> <| r_dev := -1 |>.

Lemma wake_buf_run b x K :
  buf_is K b x → wakeable K (b_wait x) →
  ∃ ks, wake_up (b_wait_of b) K = Ok tt (set_buf b (x <| b_wait := 0 |>) (K <| k_sched := ks |>)) ∧
    wakes K (K <| k_sched := ks |>).
Proof.
  intros Hx Hw. assert (Hrd : rd (b_wait_of b) K = b_wait x) by (simpl; by rewrite Hx).
  assert (Hwr : ∀ ks, wr (b_wait_of b) 0 (K <| k_sched := ks |>) = set_buf b (x <| b_wait := 0 |>) (K <| k_sched := ks |>))
    by (intros ks; by apply alter_buffer).
  destruct (wake_up_run (b_wait_of b) K) as (ks & Hrun & Hk); [by rewrite Hrd| |].
  - intros ks H0. rewrite Hrd in H0. rewrite Hwr. apply set_buf_same. destruct x. simpl in *. by rewrite <-H0.
  - exists ks. by rewrite Hrun, Hwr.
Qed.
Lemma wake_req_run c r K :
  req_is K c r → wakeable K (r_waiting r) →
  ∃ ks, wake_up (waiting_of c) K = Ok tt (set_req c (r <| r_waiting := 0 |>) (K <| k_sched := ks |>)) ∧
    wakes K (K <| k_sched := ks |>).
Proof.
  intros Hx Hw. assert (Hrd : rd (waiting_of c) K = r_waiting r) by (simpl; unfold req_is in Hx; by rewrite Hx).
  assert (Hwr : ∀ ks, wr (waiting_of c) 0 (K <| k_sched := ks |>) = set_req c (r <| r_waiting := 0 |>) (K <| k_sched := ks |>))
    by (intros ks; by apply alter_request).
  destruct (wake_up_run (waiting_of c) K) as (ks & Hrun & Hk); [by rewrite Hrd| |].
  - intros ks H0. rewrite Hrd in H0. rewrite Hwr. apply set_req_same. destruct r. simpl in *. by rewrite <-H0.
  - exists ks. by rewrite Hrun, Hwr.
Qed.
Lemma wake_queue_run K :
  wakeable K (wait_for_request (k_blk K)) →
  ∃ ks, wake_up wait_for_request_q K = Ok tt (K <| k_sched := ks |> <| k_blk ::= λ d, d <| wait_for_request := 0 |> |>).
Proof.
  intros Hw. destruct (wake_up_run wait_for_request_q K) as (ks & Hrun & _); [exact Hw| |by exists ks].
  intros ks H0. simpl in *. destruct K as [? ? ? [] ? ? ? ? ?]. simpl in *. by rewrite H0.
Qed.

Lemma set_buf_set b x y K : set_buf b x (set_buf b y K) = set_buf b x K.
Proof. unfold set_buf, set. simpl. by rewrite list_insert_insert_eq. Qed.
Lemma unlock_buffer_run b x K :
  buf_is K b x → wakeable K (b_wait x) →
  ∃ ks, unlock_buffer b K = Ok tt (set_buf b (x <| b_lock := 0 |> <| b_wait := 0 |>) (K <| k_sched := ks |>)) ∧
    wakes K (K <| k_sched := ks |>).
Proof.
  intros Hx Hw. unfold unlock_buffer. rewrite (bind_Ok _ _ _ _ _ (bh_run _ _ _ Hx)).
  rewrite (bind_Ok _ _ K tt K) by (by destruct (b_lock x =? 0)).
  rewrite (bind_Ok _ _ _ _ _ (set_bh_run _ _ _ _ Hx)). set (x1 := x <| b_lock := 0 |>).
  destruct (wake_buf_run b x1 (set_buf b x1 K)) as (ks & Hrun & Hk); [by eapply buf_is_set|done|].
  exists ks. rewrite Hrun. split; [|exact Hk]. f_equal. exact (set_buf_set b (x1 <| b_wait := 0 |>) x1 (K <| k_sched := ks |>)).
Qed.

(** end_request, on a request with a buffer. *)
Lemma end_request_run major up K d c r b x :
  zlookup (blk_dev (k_blk K)) major = Some d → current_request d = Some c → req_is K c r →
  r_bh r = Some b → buf_is K b x → wakeable K (b_wait x) → wakeable K (r_waiting r) →
  wakeable K (wait_for_request (k_blk K)) →
  ∃ K', end_request major up K = Ok tt K' ∧
    k_buf K' = k_buf K <| buffers ::= <[b := ended_buffer up x]> |> ∧
    request (k_blk K') = <[c := ended_request r]> (request (k_blk K)) ∧
    blk_dev (k_blk K') = zinsert major (d <| current_request := r_next r |>) (blk_dev (k_blk K)).
Proof.
  intros Hd Hc Hr Hb Hx Hwx Hwr Hwq. unfold end_request.
  assert (HC : CURRENT major K = Ok c K) by (unfold CURRENT, blk_dev_at, get; mred; rewrite Hd; simpl; by rewrite Hc).
  rewrite (bind_Ok _ _ _ _ _ HC), (bind_Ok _ _ _ _ _ (request_at_run _ _ _ Hr)).
  assert (Hoff : ∃ ks0, when (major =? 2) (zoom k_sched (floppy_off (Z.land (r_dev r) 3))) K = Ok tt (K <| k_sched := ks0 |>) ∧
    wakes K (K <| k_sched := ks0 |>)).
  { destruct (major =? 2).
    - eexists. split; [done|]. by intros q.
    - exists (k_sched K). split; [by destruct K|]. by intros q. }
  destruct Hoff as (ks0 & Hoff & Hk0). rewrite (bind_Ok _ _ _ _ _ Hoff), Hb.
  set (K0 := K <| k_sched := ks0 |>) in *. apply Hk0 in Hwx, Hwr, Hwq.
  (* the buffer *)
  set (x1 := x <| b_uptodate := u8 up |>).
  destruct (unlock_buffer_run b x1 (set_buf b x1 K0)) as (ks1 & Hw1 & Hk1); [by eapply buf_is_set|done|].
  assert (Hw1' : unlock_buffer b (set_buf b x1 K0) = Ok tt (set_buf b (ended_buffer up x) (K0 <| k_sched := ks1 |>)))
    by (rewrite Hw1; f_equal; exact (set_buf_set b (ended_buffer up x) x1 (K0 <| k_sched := ks1 |>))).
  set (K1 := set_buf b (ended_buffer up x) (K0 <| k_sched := ks1 |>)) in *.
  assert (Hbuf : (set_bh b (λ x0, x0 <| b_uptodate := u8 up |>) ;; unlock_buffer b) K0 = Ok tt K1)
    by (rewrite (bind_Ok _ _ _ _ _ (set_bh_run K0 b _ x Hx)); exact Hw1').
  rewrite (bind_Ok _ _ _ _ _ Hbuf).
  rewrite (bind_Ok _ _ K1 tt K1) by (by destruct (up =? 0)).
  (* those who wait for the request, or for any *)
  destruct (wake_req_run c r K1 Hr) as (ks2 & Hw2 & Hk2); [by apply Hk1|].
  rewrite (bind_Ok _ _ _ _ _ Hw2). set (r2 := r <| r_waiting := 0 |>). set (K2 := set_req c r2 (K1 <| k_sched := ks2 |>)).
  destruct (wake_queue_run K2) as [ks3 Hw3]; [by apply Hk2, Hk1|].
  rewrite (bind_Ok _ _ _ _ _ Hw3). set (K3 := K2 <| k_sched := ks3 |> <| k_blk ::= λ d, d <| wait_for_request := 0 |> |>).
  (* the queue goes on *)
  pose proof (lookup_lt_Some _ _ _ Hr) as Hlt.
  assert (Hr3 : req_is K3 c r2) by by apply list_lookup_insert_eq.
  rewrite (bind_Ok _ _ _ _ _ (upd_request_run _ _ _ _ Hr3)). set (r4 := r2 <| r_dev := -1 |>).
  assert (Hr4 : req_is (set_req c r4 K3) c r4) by (apply list_lookup_insert_eq; simpl; by rewrite length_insert).
  rewrite (bind_Ok _ _ _ _ _ (request_at_run _ _ _ Hr4)).
  unfold upd_blk_dev, blk_dev_at. unfold get. mred. simpl. rewrite Hd. simpl. eexists. split; [done|].
  simpl. by rewrite list_insert_insert_eq.
Qed.

(** ** A request that is finished *)
(** Requests are looked up through the queue: [c] is its first. *)
Definition first_is (major : Z) (K : kernel) (c : nat) : Prop :=
  ∃ d, zlookup (blk_dev (k_blk K)) major = Some d ∧ current_request d = Some c.
Lemma req_is_set c r r' K : req_is K c r → req_is (set_req c r' K) c r'.
Proof. intros H. apply list_lookup_insert_eq. by eapply lookup_lt_Some. Qed.
(** The tasks that wait for the buffer, for the request, for any request. *)
Definition waiters_ok (K : kernel) (r : request_struct) (x : buffer_head) : Prop :=
  wakeable K (b_wait x) ∧ wakeable K (r_waiting r) ∧ wakeable K (wait_for_request (k_blk K)).

(** From [K] to [K']: request [c], that was [r], is free and out of the queue,
    buffer [b] is [x'], the other requests and buffers are as they were. *)
Record finished (major : Z) (K K' : kernel) (c : nat) (r : request_struct) (b : nat) (x' : buffer_head) : Prop := {
  fin_request : ∃ r', request (k_blk K') = <[c := r']> (request (k_blk K)) ∧ r_dev r' = -1;
  fin_queue : ∃ q, zlookup (blk_dev (k_blk K')) major = Some q ∧ current_request q = r_next r;
  fin_buffers : k_buf K' = k_buf K <| buffers ::= <[b := x']> |>
}.

Lemma end_request_finished major up K c r r' b x x0 :
  first_is major K c → req_is K c r → buf_is K b x0 → r_bh r' = Some b → r_next r' = r_next r → r_waiting r' = r_waiting r →
  b_wait x = b_wait x0 → waiters_ok K r x0 →
  ∃ K', end_request major up (set_req c r' (set_buf b x K)) = Ok tt K' ∧ finished major K K' c r b (ended_buffer up x).
Proof.
  intros (q & Hq & Hc) Hr Hx Hb Hn Hw Hbw (W1 & W2 & W3). set (K1 := set_req c r' (set_buf b x K)).
  destruct (end_request_run major up K1 q c r' b x) as (K' & Hrun & Hbuf & Hreq & Hdev); try done.
  { by apply (req_is_set c r). } { by apply (buf_is_set K b x0 x). } { by rewrite Hbw. } { by rewrite Hw. }
  exists K'. split; [exact Hrun|]. split.
  - exists (ended_request r'). split; [|done]. rewrite Hreq. unfold K1. simpl. by rewrite list_insert_insert_eq.
  - exists (q <| current_request := r_next r' |>). split; [|by rewrite <-Hn].
    rewrite Hdev. apply zlookup_zinsert_eq. by eapply zlookup_Some.
  - rewrite Hbuf. unfold K1, set_buf, set. simpl. by rewrite list_insert_insert_eq.
Qed.
(** [l] put into the data of a buffer. *)
Definition fill (at_ : Z) (l : list Z) (x : buffer_head) : buffer_head :=
  x <| b_data := splice (Z.to_nat at_) l (b_data x) |>.

(** ** The first request *)
Lemma init_request_run major K d c r b x :
  zlookup (blk_dev (k_blk K)) major = Some d → current_request d = Some c → req_is K c r → MAJOR (r_dev r) = major →
  r_bh r = Some b → buf_is K b x → b_lock x ≠ 0 → init_request major K = Ok (Some r) K.
Proof.
  intros Hd Hc Hr Hm Hb Hx Hl. unfold init_request.
  assert (Hdev : blk_dev_at major K = Ok d K) by (unfold blk_dev_at, get; mred; by rewrite Hd).
  rewrite (bind_Ok _ _ _ _ _ Hdev), Hc, (bind_Ok _ _ _ _ _ (request_at_run _ _ _ Hr)), Hm.
  rewrite Z.eqb_refl, (bind_Ok _ _ K tt K) by done. rewrite Hb. apply Z.eqb_neq in Hl.
  assert (Hlk : (x ← bh b; if b_lock x =? 0 then panic "block not locked" else mret tt) K = Ok tt K)
    by (rewrite (bind_Ok _ _ _ _ _ (bh_run _ _ _ Hx)); by rewrite Hl).
  by rewrite (bind_Ok _ _ _ _ _ Hlk).
Qed.

Section Io.
Context {X D : Type}.
Implicit Types s : io_system X D.

(** [s'] is [s] but for the device. *)
Definition with_dev (d : D) s : io_system X D := s <| sys_dev := d |>.

Lemma zoom_k {A} (m : M kernel A) s a K : m (sys_k s) = Ok a K → zoom sys_k m s = Ok a (s <| sys_k := K |>).
Proof. intros H. unfold zoom. by rewrite H. Qed.
Lemma zoom_k_same {A} (m : M kernel A) s a : m (sys_k s) = Ok a (sys_k s) → zoom sys_k m s = Ok a s.
Proof. intros H. rewrite (zoom_k _ _ _ _ H). by destruct s. Qed.

Lemma CURRENT_run major K c : first_is major K c → CURRENT major K = Ok c K.
Proof. intros (d & Hd & Hc). unfold CURRENT, blk_dev_at, get. mred. rewrite Hd. simpl. by rewrite Hc. Qed.
Lemma current_req_run major s c r : first_is major (sys_k s) c → req_is (sys_k s) c r → current_req major s = Ok r s.
Proof.
  intros Hc Hr. apply zoom_k_same. rewrite (bind_Ok _ _ _ _ _ (CURRENT_run _ _ _ Hc)). by apply request_at_run.
Qed.
Lemma upd_current_run major f s c r :
  first_is major (sys_k s) c → req_is (sys_k s) c r → upd_current major f s = Ok tt (s <| sys_k := set_req c (f r) (sys_k s) |>).
Proof.
  intros Hc Hr. apply zoom_k. rewrite (bind_Ok _ _ _ _ _ (CURRENT_run _ _ _ Hc)). by apply upd_request_run.
Qed.
Lemma set_req_set c r r' K : set_req c r (set_req c r' K) = set_req c r K.
Proof. unfold set_req, set. simpl. by rewrite list_insert_insert_eq. Qed.
End Io.
