(* ===== verification/Hd.v ===== *)
(** * kernel/blk_drv/hd.c: the hard disk driver

    The controller is the device of [Ports].  Interrupts are calls of
    [hd_interrupt], which runs the handler in do_hd. *)

From stdpp Require Import base option list gmap strings.
From Stdlib Require Import ZArith.
From S2P Require Import Prelude Types Memory Sched Kernel Blk Ports Buffer Inode Sys.
Local Open Scope Z_scope.

(** ** hdreg.h *)
Definition HD_DATA : Z := 0x1f0.
Definition HD_ERROR : Z := 0x1f1.
Definition HD_STATUS : Z := 0x1f7.
Definition HD_CMD : Z := 0x3f6.
Definition ERR_STAT : Z := 0x01.
Definition DRQ_STAT : Z := 0x08.
Definition SEEK_STAT : Z := 0x10.
Definition WRERR_STAT : Z := 0x20.
Definition READY_STAT : Z := 0x40.
Definition BUSY_STAT : Z := 0x80.
Definition WIN_RESTORE : Z := 0x10.
Definition WIN_READ : Z := 0x20.
Definition WIN_WRITE : Z := 0x30.
Definition WIN_SPECIFY : Z := 0x91.
(** One entry of a partition table, at [p] of the bytes of its sector. *)
Record partition := mk_partition {
  boot_ind : Z; p_head : Z; p_sector : Z; p_cyl : Z; sys_ind : Z; end_head : Z; end_sector : Z; end_cyl : Z;
  p_start_sect : Z; p_nr_sects : Z
}.
Definition le32 (l : list Z) (i : nat) : Z :=
  let b k := default 0 (l !! (i + k)%nat) in b 0%nat + 256 * b 1%nat + 65536 * b 2%nat + 16777216 * b 3%nat.
Definition partition_at (l : list Z) (p : nat) : partition :=
  let b k := default 0 (l !! (p + k)%nat) in
  mk_partition (b 0%nat) (b 1%nat) (b 2%nat) (b 3%nat) (b 4%nat) (b 5%nat) (b 6%nat) (b 7%nat)
    (le32 l (p + 8)) (le32 l (p + 12)).

(** ** The state of the driver *)
Definition MAX_ERRORS : Z := 7.
Record hd_i_struct := mk_hd_i { hi_head : Z; hi_sect : Z; hi_cyl : Z; hi_wpcom : Z; hi_lzone : Z; hi_ctl : Z }.
Record hd_struct := mk_hd { start_sect : Z; nr_sects : Z }.
(** The values of do_hd. *)
Inductive hd_handler := read_intr_ | write_intr_ | recal_intr_.

Record hd_state := mk_hd_state {
  recalibrate : Z;
  reset : Z;
  hd_info : list hd_i_struct;        (* [2] *)
  NR_HD : Z;
  hd : list hd_struct;               (* [5*MAX_HD] *)
  do_hd : option hd_handler;
  callable : Z                       (* static in sys_setup() *)
}.
#[export] Instance eta_hd_state : Eta hd_state := fun s =>
  mk_hd_state (recalibrate s) (reset s) (hd_info s) (NR_HD s) (hd s) (do_hd s) (callable s).
Definition boot_hd : hd_state :=
  mk_hd_state 1 1 (replicate 2 (mk_hd_i 0 0 0 0 0 0)) 0 (replicate 10 (mk_hd 0 0)) None 1.

Notation hd_system := (io_system hd_state).

Section Hd.
Context {D : Type} {Ctl : Controller D}.
Local Notation kern m := (zoom sys_k m).

Definition hd_info_at (i : Z) : M (hd_system D) hd_i_struct := d ← drv; deref (zlookup (hd_info d) i).
Definition hd_at (i : Z) : M (hd_system D) hd_struct := d ← drv; deref (zlookup (hd d) i).

(** ** Commands *)
(** [while (--retries && (inb_p(HD_STATUS)&0xc0)!=0x40);] *)
Fixpoint ready_loop (retries : nat) : M (hd_system D) Z :=
  match retries with
  | O | S O => mret 0
  | S (S _ as n) => st ← inp HD_STATUS; if Z.land st 0xc0 =? 0x40 then mret (Z.of_nat n) else ready_loop n
  end.
Definition controller_ready : M (hd_system D) Z := ready_loop (Z.to_nat 10000).

Definition win_result : M (hd_system D) Z :=
  i ← inp HD_STATUS;
  if Z.land i (Z.lor BUSY_STAT (Z.lor READY_STAT (Z.lor WRERR_STAT (Z.lor SEEK_STAT ERR_STAT)))) =? Z.lor READY_STAT SEEK_STAT
  then mret 0 else
  when (truth (Z.land i 1)) (inp HD_ERROR ;; mret tt) ;;
  mret 1.

Definition hd_out (drive nsect sect head cyl cmd : Z) (intr_addr : hd_handler) : M (hd_system D) unit :=
  (if (1 <? drive) || (15 <? head) then panic "Trying to write bad sector" else mret tt) ;;
  r ← controller_ready;
  (if negb (truth r) then panic "HD controller not ready" else mret tt) ;;
  set_drv (λ d, d <| do_hd := Some intr_addr |>) ;;
  info ← hd_info_at drive;
  outp (hi_ctl info) HD_CMD ;;
  let port := HD_DATA in
  outp (Z.shiftr (hi_wpcom info) 2) (port + 1) ;;
  outp nsect (port + 2) ;;
  outp sect (port + 3) ;;
  outp cyl (port + 4) ;;
  outp (Z.shiftr cyl 8) (port + 5) ;;
  outp (Z.lor (Z.lor 0xA0 (Z.shiftl drive 4)) head) (port + 6) ;;
  outp cmd (port + 7).

Fixpoint busy_loop (n : nat) : M (hd_system D) unit :=
  match n with
  | O => mret tt
  | S n =>
      st ← inp HD_STATUS;
      if READY_STAT =? Z.land st (Z.lor BUSY_STAT READY_STAT) then mret tt else busy_loop n
  end.
(** The test is parsed as [(i == READY_STAT) | SEEK_STAT]. *)
Definition drive_busy : M (hd_system D) Z :=
  busy_loop (Z.to_nat 10000) ;;
  i ← inp HD_STATUS;
  let i := Z.land i (Z.lor BUSY_STAT (Z.lor READY_STAT SEEK_STAT)) in
  if truth (Z.lor (Z.b2z (i =? READY_STAT)) SEEK_STAT) then mret 0 else
  printk "HD controller times out\n\r" ;;
  mret 1.
Definition reset_controller : M (hd_system D) unit :=
  outp 4 HD_CMD ;;
  info ← hd_info_at 0;
  outp (Z.land (hi_ctl info) 0x0f) HD_CMD ;;
  b ← drive_busy;
  when (truth b) (printk "HD-controller still busy\n\r") ;;
  i ← inp HD_ERROR;
  when (negb (i =? 1)) (printk "HD-controller reset failed: %02x\n\r").
Definition reset_hd (nr : Z) : M (hd_system D) unit :=
  reset_controller ;;
  info ← hd_info_at nr;
  hd_out nr (u32 (hi_sect info)) (u32 (hi_sect info)) (u32 (hi_head info - 1)) (u32 (hi_cyl info)) WIN_SPECIFY recal_intr_.
Definition unexpected_hd_interrupt : M (hd_system D) unit := printk "Unexpected HD interrupt\n\r".

(** ** Requests *)
Definition bad_rw_intr : M (hd_system D) unit :=
  upd_current 3 (λ r, r <| r_errors ::= λ e, s32 (e + 1) |>) ;;
  r ← current_req 3;
  when (MAX_ERRORS <=? r_errors r) (kern (end_request 3 0)) ;;
  e ← current_errors 3;
  when (MAX_ERRORS / 2 <? e) (set_drv (λ d, d <| reset := 1 |>)).

(** divl with edx = 0: the quotient and the remainder. *)
Definition divl (eax by_ : Z) : M (hd_system D) (Z * Z) :=
  if u32 by_ =? 0 then fault else mret (eax / u32 by_, eax mod u32 by_).
(** [for(i=0 ; i<3000 && !(r=inb_p(HD_STATUS)&DRQ_STAT) ; i++)], the last r. *)
Fixpoint wait_drq (n : nat) : M (hd_system D) Z :=
  match n with
  | O => mret 0
  | S n => st ← inp HD_STATUS; let r := Z.land st DRQ_STAT in if truth r then mret r else wait_drq n
  end.
(** [port_write(HD_DATA,CURRENT->buffer,256)] *)
Definition write_sector : M (hd_system D) unit :=
  r ← current_req 3;
  b ← deref (r_bh r);
  x ← kern (bh b);
  modify (λ s, s <| sys_dev ::= port_write HD_DATA (slice (Z.to_nat (r_buffer r)) 512 (b_data x)) |>).
(** [port_read(HD_DATA,CURRENT->buffer,256)] *)
Definition read_sector : M (hd_system D) unit :=
  r ← current_req 3;
  b ← deref (r_bh r);
  s ← get;
  let got := port_read HD_DATA 256 (sys_dev s) in
  modify (λ s, s <| sys_dev := got.2 |>) ;;
  kern (set_bh b (λ x, x <| b_data ::= splice (Z.to_nat (r_buffer r)) got.1 |>)).

(** The body after [repeat:]; [true] for [goto repeat]. *)
Definition hd_request_once : M (hd_system D) bool :=
  q ← kern (init_request 3);
  match q with
  | None => mret false
  | Some r =>
      let dev := MINOR (r_dev r) in
      let block := r_sector r in
      d ← drv;
      (* dev >= 5*NR_HD || block+2 > hd[dev].nr_sects *)
      bad ← (if u32 (5 * NR_HD d) <=? dev then mret true else
             h ← hd_at dev; mret (u32 (nr_sects h) <? u32 (block + 2)));
      if bad : bool then kern (end_request 3 0) ;; mret true else
      h ← hd_at dev;
      let block := u32 (block + start_sect h) in
      let dev := dev / 5 in
      info ← hd_info_at dev;
      bs ← divl block (hi_sect info);
      ch ← divl bs.1 (hi_head info);
      let sec := u32 (bs.2 + 1) in
      let nsect := r_nr_sectors r in
      if truth (reset d) then
        set_drv (λ d, d <| reset := 0 |> <| recalibrate := 1 |>) ;;
        reset_hd dev ;;
        mret false
      else if truth (recalibrate d) then
        set_drv (λ d, d <| recalibrate := 0 |>) ;;
        hd_out dev (u32 (hi_sect info)) 0 0 0 WIN_RESTORE recal_intr_ ;;
        mret false
      else if r_cmd r =? WRITE then
        hd_out dev nsect sec ch.2 ch.1 WIN_WRITE write_intr_ ;;
        drq ← wait_drq 3000;
        if negb (truth drq) then bad_rw_intr ;; mret true else
        write_sector ;;
        mret false
      else if r_cmd r =? READ then
        hd_out dev nsect sec ch.2 ch.1 WIN_READ read_intr_ ;;
        mret false
      else panic "unknown hd-command"
  end.
Fixpoint hd_request_loop (fuel : nat) : M (hd_system D) unit :=
  match fuel with
  | O => no_fuel
  | S fuel => again ← hd_request_once; if again : bool then hd_request_loop fuel else mret tt
  end.
(** A round ends a request or adds an error to one, which ends at the
    MAX_ERRORS-th: there are at most NR_REQUEST requests. *)
Definition do_hd_request : M (hd_system D) unit := hd_request_loop (S (NR_REQUEST * Z.to_nat MAX_ERRORS)).

(** ** Interrupts *)
Definition read_intr : M (hd_system D) unit :=
  w ← win_result;
  if truth w then bad_rw_intr ;; do_hd_request else
  read_sector ;;
  upd_current 3 (λ r, r <| r_errors := 0 |>) ;;
  upd_current 3 (λ r, r <| r_buffer ::= λ b, b + 512 |>) ;;
  upd_current 3 (λ r, r <| r_sector ::= λ n, u32 (n + 1) |>) ;;
  upd_current 3 (λ r, r <| r_nr_sectors ::= λ n, u32 (n - 1) |>) ;;
  r ← current_req 3;
  if truth (r_nr_sectors r) then set_drv (λ d, d <| do_hd := Some read_intr_ |>) else
  kern (end_request 3 1) ;;
  do_hd_request.
Definition write_intr : M (hd_system D) unit :=
  w ← win_result;
  if truth w then bad_rw_intr ;; do_hd_request else
  upd_current 3 (λ r, r <| r_nr_sectors ::= λ n, u32 (n - 1) |>) ;;
  r ← current_req 3;
  if truth (r_nr_sectors r) then
    upd_current 3 (λ r, r <| r_sector ::= λ n, u32 (n + 1) |>) ;;
    upd_current 3 (λ r, r <| r_buffer ::= λ b, b + 512 |>) ;;
    set_drv (λ d, d <| do_hd := Some write_intr_ |>) ;;
    write_sector
  else
  kern (end_request 3 1) ;;
  do_hd_request.
Definition recal_intr : M (hd_system D) unit :=
  w ← win_result;
  when (truth w) bad_rw_intr ;;
  do_hd_request.

(** system_call.s: the handler is taken out of do_hd and called. *)
Definition hd_interrupt : M (hd_system D) unit :=
  outp 0x20 0xA0 ;;
  d ← drv;
  set_drv (λ d, d <| do_hd := None |>) ;;
  outp 0x20 0x20 ;;
  match do_hd d with
  | None => unexpected_hd_interrupt
  | Some read_intr_ => read_intr
  | Some write_intr_ => write_intr
  | Some recal_intr_ => recal_intr
  end.

Definition hd_init {L : Linked} : M (hd_system D) unit :=
  kern (upd_blk_dev 3 (λ d, d <| request_fn := Some do_hd_request_fn |>)) ;;
  zoom sys_k (zoom k_sched (set_intr_gate 0x2E hd_interrupt_)) ;;
  mask_port 0xfb 0x21 ;;
  mask_port 0xbf 0xA1.

(** ** sys_setup *)

(** One drive parameter table of the BIOS. *)
Definition bios_drive (l : list Z) : hd_i_struct :=
  let b i := default 0 (l !! (i : nat)) in
  mk_hd_i (b 2%nat) (b 14%nat) (b 0%nat + 256 * b 1%nat) (b 5%nat + 256 * b 6%nat) (b 12%nat + 256 * b 13%nat) (b 8%nat).
Definition whole_drive (i : hd_i_struct) : hd_struct := mk_hd 0 (s32 (hi_head i * hi_sect i * hi_cyl i)).
Definition set_hd (i : Z) (h : hd_struct) : M (hd_system D) unit := set_drv (λ d, d <| hd ::= zinsert i h |>).

Section Setup.
Context {E : Env}.

(** The partition table of one drive. *)
Definition read_partitions (drive : Z) : M (hd_system D) unit :=
  b ← kern (bread (0x300 + drive * 5) 0);
  match b with
  | None => printk "Unable to read partition table of drive %d\n\r" ;; panic ""
  | Some b =>
      x ← kern (bh b);
      let data := b_data x in
      (if negb (default 0 (data !! 510%nat) =? 0x55) || negb (default 0 (data !! 511%nat) =? 0xAA)
       then printk "Bad partition table on drive %d\n\r" ;; panic "" else mret tt) ;;
      for_each (seq 0 4) (λ i,
        let p := partition_at data (0x1BE + 16 * i) in
        set_hd (Z.of_nat i + 1 + 5 * drive) (mk_hd (s32 (p_start_sect p)) (s32 (p_nr_sects p)))) ;;
      kern (brelse (Some b))
  end.

Definition sys_setup (BIOS : list Z) : M (hd_system D) Z :=
  d ← drv;
  if negb (truth (callable d)) then mret (-1) else
  set_drv (λ d, d <| callable := 0 |>) ;;
  let drives := [bios_drive BIOS; bios_drive (drop 16 BIOS)] in
  set_drv (λ d, d <| hd_info := drives |>) ;;
  set_drv (λ d, d <| NR_HD := if truth (hi_cyl (bios_drive (drop 16 BIOS))) then 2 else 1 |>) ;;
  d ← drv;
  for_each (take (Z.to_nat (NR_HD d)) (zip (seq 0 2) drives)) (λ p, set_hd (Z.of_nat p.1 * 5) (whole_drive p.2)) ;;
  cmos_disks ← CMOS_READ 0x12;
  set_drv (λ d, d <| NR_HD :=
    if truth (Z.land cmos_disks 0xf0) then (if truth (Z.land cmos_disks 0x0f) then 2 else 1) else 0 |>) ;;
  d ← drv;
  for_each (drop (Z.to_nat (NR_HD d)) (seq 0 2)) (λ i, set_hd (Z.of_nat i * 5) (mk_hd 0 0)) ;;
  for_each (take (Z.to_nat (NR_HD d)) (seq 0 2)) (λ i, read_partitions (Z.of_nat i)) ;;
  when (truth (NR_HD d)) (printk "Partition table%s ok.\n\r") ;;
  kern rd_load ;;
  kern mount_root ;;
  mret 0.
End Setup.
End Hd.
