(* ===== verification/HdSpec.v ===== *)
(** * What the hard disk driver relies on: a controller and its drives

    The view of a controller: the command in progress, the sectors of the
    drives, the registers last written, and for how many more reads of the
    status it answers busy.  [HdController] says what a working ST-506
    controller does with the ports in terms of it. *)

From stdpp Require Import base option list gmap strings.
From Stdlib Require Import ZArith.
From S2P Require Import Prelude Types Memory Sched Kernel Blk Ports Hd.
Local Open Scope Z_scope.

(** The command in progress: [n] sectors from [lba] of [drive] on are left. *)
Inductive hd_job := Idle | Reading (drive lba n : Z) | Writing (drive lba n : Z).

Record hd_view := mk_view {
  job : hd_job;
  sectors : gmap (Z * Z) (list Z);   (* (drive, sector), 512 bytes each *)
  regs : gmap Z Z;
  busy : nat
}.
#[export] Instance eta_view : Eta hd_view := fun v => mk_view (job v) (sectors v) (regs v) (busy v).

Definition sector_of (v : hd_view) (drive lba : Z) : list Z :=
  resize 512 0 (default [] (sectors v !! (drive, lba))).
Lemma length_sector v drive lba : length (sector_of v drive lba) = 512%nat.
Proof. apply length_resize. Qed.
Definition reg (v : hd_view) (p : Z) : Z := default 0 (regs v !! p).

(** The registers of a command: the drive and its head, the cylinder, the
    sector on the track, counted from 1, and how many sectors. *)
Definition cmd_drive (v : hd_view) : Z := Z.land (Z.shiftr (reg v (HD_DATA + 6)) 4) 1.
Definition cmd_head (v : hd_view) : Z := Z.land (reg v (HD_DATA + 6)) 15.
Definition cmd_cyl (v : hd_view) : Z := reg v (HD_DATA + 4) + 256 * reg v (HD_DATA + 5).
Definition cmd_count (v : hd_view) : Z := if reg v (HD_DATA + 2) =? 0 then 256 else reg v (HD_DATA + 2).
(** The linear number of a sector of a drive. *)
Definition chs_lba (heads spt cyl head sec : Z) : Z := (cyl * heads + head) * spt + sec - 1.

Definition status_bits : Z := Z.lor BUSY_STAT (Z.lor READY_STAT (Z.lor WRERR_STAT (Z.lor SEEK_STAT ERR_STAT))).

Class HdController (D : Type) `{!Controller D} := {
  view : D → hd_view;
  heads : Z → Z;
  spt : Z → Z;
  (** time passes until the controller interrupts *)
  settle : D → D;
  settle_view d : view (settle d) = view d <| busy := 0%nat |>;
  status_view d : view (port_in HD_STATUS d).2 = view d <| busy ::= pred |>;
  status_busy d : busy (view d) ≠ 0%nat →
    Z.land (port_in HD_STATUS d).1 0xc0 ≠ 0x40 ∧ Z.land (port_in HD_STATUS d).1 DRQ_STAT = 0;
  status_ready d : busy (view d) = 0%nat →
    Z.land (port_in HD_STATUS d).1 status_bits = Z.lor READY_STAT SEEK_STAT;
  status_drq d drive lba n : busy (view d) = 0%nat → job (view d) = Writing drive lba n → 0 < n →
    Z.land (port_in HD_STATUS d).1 DRQ_STAT ≠ 0;
  (** writes of the registers; bit 2 of the control byte is the reset *)
  out_reg p v d : HD_DATA < p < HD_DATA + 7 ∨ p = HD_CMD ∧ Z.land v 4 = 0 →
    view (port_out p v d) = view d <| regs ::= <[p := v]> |>;
  out_other p v d : ¬ (HD_DATA ≤ p ≤ HD_DATA + 7) → p ≠ HD_CMD → view (port_out p v d) = view d;
  (** the commands *)
  out_read d : let v := view d in
    ∃ b, view (port_out (HD_DATA + 7) WIN_READ d) = v <| busy := b |> <| job :=
      Reading (cmd_drive v)
        (chs_lba (heads (cmd_drive v)) (spt (cmd_drive v)) (cmd_cyl v) (cmd_head v) (reg v (HD_DATA + 3)))
        (cmd_count v) |>;
  out_write d : let v := view d in
    ∃ b, (b < 3000)%nat ∧ view (port_out (HD_DATA + 7) WIN_WRITE d) = v <| busy := b |> <| job :=
      Writing (cmd_drive v)
        (chs_lba (heads (cmd_drive v)) (spt (cmd_drive v)) (cmd_cyl v) (cmd_head v) (reg v (HD_DATA + 3)))
        (cmd_count v) |>;
  (** the data of a sector *)
  read_data d drive lba n : busy (view d) = 0%nat → job (view d) = Reading drive lba n → 0 < n →
    (port_read HD_DATA 256 d).1 = sector_of (view d) drive lba ∧
    ∃ b, view (port_read HD_DATA 256 d).2 = view d <| busy := b |> <| job := Reading drive (lba + 1) (n - 1) |>;
  write_data d l drive lba n : busy (view d) = 0%nat → job (view d) = Writing drive lba n → 0 < n →
    length l = 512%nat →
    ∃ b, view (port_write HD_DATA l d) = view d <| busy := b |> <| job := Writing drive (lba + 1) (n - 1) |>
      <| sectors ::= <[(drive, lba) := l]> |>
}.

Section Irq.
Context {D : Type} {Ctl : Controller D} {HC : HdController D}.

(** The controller finishes a sector and interrupts, [n] times. *)
Definition hd_irq : M (hd_system D) unit :=
  modify (λ s, s <| sys_dev ::= settle |>) ;; hd_interrupt.
Fixpoint hd_irqs (n : nat) : M (hd_system D) unit :=
  match n with O => mret tt | S n => hd_irq ;; hd_irqs n end.

(** The [n] sectors from [lba] of [drive] on, in a row. *)
Fixpoint sectors_from (v : hd_view) (drive lba : Z) (n : nat) : list Z :=
  match n with O => [] | S n => sector_of v drive lba ++ sectors_from v drive (lba + 1) n end.

(** The geometry the BIOS reported for [drive] is the drive's own. *)
Definition geometry_ok (drive : Z) (i : hd_i_struct) : Prop :=
  hi_head i = heads drive ∧ hi_sect i = spt drive ∧
  0 < hi_head i ≤ 16 ∧ 0 < hi_sect i < 256 ∧ 0 ≤ hi_cyl i < 65536 ∧
  0 ≤ hi_ctl i < 256 ∧ Z.land (hi_ctl i) 4 = 0.

(** Request [c], that is [r], is the first of the disk's queue and asks for
    [n] sectors from [lba] of [drive] on, inside its partition, to or from
    buffer [b], that is [x]. *)
Record hd_request (s : hd_system D) (c : nat) (r : request_struct) (b : nat) (x : buffer_head)
    (drive lba : Z) (n : nat) : Prop := {
  hr_current : ∃ d, zlookup (blk_dev (k_blk (sys_k s))) 3 = Some d ∧ current_request d = Some c;
  hr_request : request (k_blk (sys_k s)) !! c = Some r;
  hr_major : MAJOR (r_dev r) = 3;
  hr_bh : r_bh r = Some b;
  hr_buffer : buffers (k_buf (sys_k s)) !! b = Some x;
  hr_locked : b_lock x ≠ 0;
  hr_count : r_nr_sectors r = Z.of_nat n;
  hr_bounds : (0 < n < 256)%nat;
  hr_room : 0 ≤ r_buffer r ∧ r_buffer r + 512 * Z.of_nat n ≤ Z.of_nat (length (b_data x));
  hr_drive : drive = MINOR (r_dev r) / 5;
  hr_drives : MINOR (r_dev r) < 5 * NR_HD (sys_drv s) ≤ 10;
  hr_place : ∃ h i, zlookup (hd (sys_drv s)) (MINOR (r_dev r)) = Some h ∧
    zlookup (hd_info (sys_drv s)) drive = Some i ∧ geometry_ok drive i ∧
    0 ≤ start_sect h ∧ 0 ≤ r_sector r ∧ r_sector r + 2 ≤ nr_sects h < 2147483648 ∧
    start_sect h + nr_sects h ≤ hi_cyl i * hi_head i * hi_sect i ∧
    lba = start_sect h + r_sector r
}.
End Irq.
