(* ===== verification/HdLive.v ===== *)
(** * No request of the hard disk is stranded *)

From stdpp Require Import base option list gmap strings.
From Stdlib Require Import ZArith Lia.
From S2P Require Import Prelude Types Memory Sched Kernel Blk BlkProofs Ports RequestLive Hd.
Local Open Scope Z_scope.
Notation hd_links := (links 3).
Notation hd_queue := (req_queue 3 MAX_ERRORS).

Local Notation budget := (budget MAX_ERRORS).

Section Live.
Context {D : Type} {Ctl : Controller D}.
Implicit Types s : hd_system D.
Local Notation io := (@RequestLive.io hd_state D _).

Lemma io_hd_info_at i : io (hd_info_at i). Proof. unfold hd_info_at. io. Qed.
Lemma io_hd_at i : io (hd_at i). Proof. unfold hd_at. io. Qed.
Lemma io_ready_loop n : io (ready_loop n).
Proof. induction n as [|[|n] IH]; [apply io_ret..|]. cbn [ready_loop]. io. Qed.
Lemma io_controller_ready : io controller_ready. Proof. apply io_ready_loop. Qed.
Lemma io_win_result : io win_result. Proof. unfold win_result, when. io. Qed.
Lemma io_busy_loop n : io (busy_loop n).
Proof. induction n as [|n IH]; [apply io_ret|]. cbn [busy_loop]. io. Qed.
Lemma io_drive_busy : io drive_busy.
Proof. unfold drive_busy. apply io_bind; [apply io_busy_loop|]. io. Qed.
Lemma io_wait_drq n : io (wait_drq n).
Proof. induction n as [|n IH]; [apply io_ret|]. cbn [wait_drq]. io. Qed.
Lemma io_divl a b : io (divl a b). Proof. unfold divl. io. Qed.
Hint Resolve io_hd_info_at io_hd_at io_controller_ready io_win_result io_drive_busy io_wait_drq io_divl : io.
Lemma io_reset_controller : io reset_controller. Proof. unfold reset_controller, when. io. Qed.

(** A command leaves the kernel as it is and installs its handler. *)
Lemma ends_hd_out drive nsect sect head cyl cmd h (Q : unit → hd_system D → Prop) s :
  (∀ s', sys_k s' = sys_k s → sys_drv s' = sys_drv s <| do_hd := Some h |> → Q tt s') →
  ends (hd_out drive nsect sect head cyl cmd h) Q s.
Proof.
  intros H. unfold hd_out. apply ends_bind, io_if; [apply io_panic|apply io_ret|]. intros _ s1 Hk1 Hh1.
  apply ends_bind, io_controller_ready. intros r s2 Hk2 Hh2.
  apply ends_bind, io_if; [apply io_panic|apply io_ret|]. intros _ s3 Hk3 Hh3.
  apply ends_bind, ends_modify, ends_bind, io_hd_info_at. intros i s4 Hk4 Hh4. cbv zeta.
  match goal with |- ends ?m _ _ => assert (Hio : io m) by (clear; io) end.
  apply Hio. intros [] s5 Hk5 Hh5. simpl in *. apply H; [congruence|]. rewrite Hh5, Hh4, Hh3, Hh2, Hh1. done.
Qed.

(** While requests are queued the driver waits for an interrupt. *)
Definition hd_live s : Prop := ∃ l, hd_queue l (sys_k s) ∧ (l ≠ [] → do_hd (sys_drv s) ≠ None).

(** A failed transfer costs an error, or the request. *)
Lemma ends_bad_rw_intr l s :
  hd_queue l (sys_k s) →
  ends bad_rw_intr (λ _ s', do_hd (sys_drv s') = do_hd (sys_drv s) ∧
    ∃ l', hd_queue l' (sys_k s') ∧ (budget (sys_k s') l' < budget (sys_k s) l)%nat) s.
Proof.
  intros H. unfold bad_rw_intr. apply ends_bind. eapply ends_upd_current; [apply H|]. intros c l' r -> Hr.
  set (r1 := r <| r_errors := s32 (r_errors r + 1) |>). set (K1 := k_upd c r1 (sys_k s)).
  pose proof (hq_errors _ _ H c r ltac:(left) Hr) as He.
  assert (He1 : r_errors r1 = r_errors r + 1) by (simpl; apply s32_small; unfold MAX_ERRORS in He; lia).
  assert (Hr1 : request (k_blk K1) !! c = Some r1) by by eapply list_lookup_insert_eq, lookup_lt_Some.
  assert (Hout : c ∉ l') by (by apply (NoDup_cons c), (hl_nodup _ _ (hq_links _ _ H))).
  assert (Hl' : ∀ i, i ∈ l' → request (k_blk K1) !! i = request (k_blk (sys_k s)) !! i).
  { intros i Hi. apply list_lookup_insert_ne. by intros ->. }
  assert (Hcost : budget (sys_k s) (c :: l') = (Z.to_nat (MAX_ERRORS - r_errors r) + budget K1 l')%nat).
  { rewrite (budget_cons _ _ _ _ Hr). f_equal. symmetry. by apply budget_ext. }
  assert (Hlinks : hd_links (c :: l') K1) by (eapply links_upd; [apply H|done..]).
  change (s <| sys_k ::= k_upd c r1 |>) with (s <| sys_k := K1 |>). set (s1 := s <| sys_k := K1 |>).
  assert (Hlast : ∀ s2, do_hd (sys_drv s2) = do_hd (sys_drv s) →
    (∃ l2, hd_queue l2 (sys_k s2) ∧ (budget (sys_k s2) l2 < budget (sys_k s) (c :: l'))%nat) →
    ends (e ← current_errors 3; when (MAX_ERRORS / 2 <? e) (set_drv (λ d, d <| reset := 1 |>)))
      (λ _ s', do_hd (sys_drv s') = do_hd (sys_drv s) ∧
        ∃ l2, hd_queue l2 (sys_k s') ∧ (budget (sys_k s') l2 < budget (sys_k s) (c :: l'))%nat) s2).
  { intros s2 Hh2 Hq2. apply ends_bind, ends_current_errors. intros e. apply ends_when; intros _.
    - by apply ends_modify.
    - done. }
  apply ends_bind. eapply ends_current_req; [exact Hlinks|]. intros c' l2 r' [= <- <-] Hr'.
  assert (r' = r1) as -> by (assert (Some r' = Some r1) by exact (eq_trans (eq_sym Hr') Hr1); congruence). apply ends_bind, ends_when; intros Hb.
  - apply ends_zoom. eapply ends_mono; [apply (ends_end_request_queue 0 c l'), Hlinks|].
    intros _ K2 (HK2 & Hi2 & _). apply Hlast; [done|]. exists l'. split.
    + eapply req_queue_ext; [exact HK2|exact Hi2|]. intros i x Hi. simpl. rewrite Hl' by done.
      apply (hq_errors _ _ H). by right.
    + rewrite Hcost. cbn [sys_k]. rewrite (budget_ext K1 K2) by done. lia.
  - apply Hlast; [done|]. exists (c :: l'). apply Z.leb_gt in Hb. split.
    + apply (req_queue_upd c l' (sys_k s) r r1); [done..|]. rewrite He1 in Hb |- *. lia.
    + rewrite Hcost. change (budget K1 (c :: l') < Z.to_nat (MAX_ERRORS - r_errors r) + budget K1 l')%nat.
      rewrite (budget_cons K1 c l' r1 Hr1), He1. lia.
Qed.

(** ** do_hd_request and the interrupts *)
(** A round: it is repeated with a smaller budget, or the disk is idle or
    works. *)
Lemma ends_hd_request_once l s :
  hd_queue l (sys_k s) →
  ends hd_request_once (λ again s', if again : bool
    then ∃ l', hd_queue l' (sys_k s') ∧ (budget (sys_k s') l' < budget (sys_k s) l)%nat
    else hd_live s') s.
Proof.
  intros H. assert (Hlive : ∀ s', sys_k s' = sys_k s → do_hd (sys_drv s') ≠ None → hd_live s').
  { intros s' Hk Hd. exists l. by rewrite Hk. }
  unfold hd_request_once. apply ends_bind, ends_zoom. eapply ends_init_request; [apply H| |].
  { intros ->. apply ends_ret. exists []. by split. }
  intros c l' r -> Hr. replace (s <| sys_k := sys_k s |>) with s by by destruct s.
  apply ends_bind, io_drv. intros d s1 Hk1 _.
  apply ends_bind. match goal with |- ends ?m _ _ => assert (Hio : io m) by (clear; io) end.
  apply Hio. clear Hio. intros bad s2 Hk2 _. rewrite Hk1 in Hk2. destruct bad.
  { apply ends_bind, ends_zoom. eapply ends_mono; [apply (ends_end_request_queue 0 c l'); rewrite Hk2; apply H|].
    intros _ K (HK & Hi & _). apply ends_ret. exists l'. rewrite Hk2 in Hi. split.
    - eapply req_queue_ext; [exact HK|exact Hi|]. intros i x Hin. apply (hq_errors _ _ H). by right.
    - rewrite (budget_cons _ _ _ _ Hr). cbn [sys_k]. rewrite (budget_ext (sys_k s) K) by done.
      pose proof (hq_errors _ _ H c r ltac:(left) Hr). lia. }
  apply ends_bind, io_hd_at. intros h s3 Hk3 _. apply ends_bind, io_hd_info_at. intros i s4 Hk4 _.
  apply ends_bind, io_divl. intros bs s5 Hk5 _. apply ends_bind, io_divl. intros ch s6 Hk6 _.
  assert (Hk : sys_k s6 = sys_k s) by congruence. clear s2 s3 s4 s5 Hk2 Hk3 Hk4 Hk5 Hk6.
  destruct (truth (reset d)).
  { apply ends_bind, ends_modify, ends_bind. unfold reset_hd. apply ends_bind, io_reset_controller. intros [] s7 Hk7 _.
    apply ends_bind, io_hd_info_at. intros i' s8 Hk8 _. apply ends_hd_out. intros s9 Hk9 Hh9. apply ends_ret, Hlive.
    - rewrite Hk9, Hk8, Hk7. exact Hk.
    - by rewrite Hh9. }
  destruct (truth (recalibrate d)).
  { apply ends_bind, ends_modify, ends_bind, ends_hd_out. intros s9 Hk9 Hh9. apply ends_ret, Hlive.
    - rewrite Hk9. exact Hk.
    - by rewrite Hh9. }
  destruct (r_cmd r =? WRITE).
  - apply ends_bind, ends_hd_out. intros s7 Hk7 Hh7. apply ends_bind, io_wait_drq. intros drq s8 Hk8 Hh8.
    rewrite Hk7, Hk in Hk8. destruct (negb (truth drq)).
    + apply ends_bind. eapply ends_mono; [apply (ends_bad_rw_intr (c :: l')); by rewrite Hk8|].
      intros [] s9 (_ & l2 & Hl2 & Hb). apply ends_ret. exists l2. by rewrite <-Hk8.
    + apply ends_bind. unfold write_sector. apply ends_bind. eapply ends_current_req; [rewrite Hk8; apply H|].
      intros ? ? x _ _. apply ends_bind, ends_deref. intros b _. apply ends_bind, ends_zoom, ends_bh. intros y _.
      apply ends_modify, ends_ret, Hlive; [exact Hk8|]. change (do_hd (sys_drv s8) ≠ None). by rewrite Hh8, Hh7.
  - destruct (r_cmd r =? READ); [|apply ends_panic].
    apply ends_bind, ends_hd_out. intros s9 Hk9 Hh9. apply ends_ret, Hlive.
    + rewrite Hk9. exact Hk.
    + by rewrite Hh9.
Qed.

Lemma ends_hd_request_loop fuel l s :
  hd_queue l (sys_k s) → (budget (sys_k s) l < fuel)%nat → ends (hd_request_loop fuel) (λ _, hd_live) s.
Proof.
  revert l s. induction fuel as [|fuel IH]; intros l s H Hb; [lia|]. cbn [hd_request_loop].
  apply ends_bind. eapply ends_mono; [by apply ends_hd_request_once|]. intros [] s' H'; [|by apply ends_ret].
  destruct H' as (l' & Hl' & Hb'). apply (IH l'); [done|lia].
Qed.
Lemma ends_do_hd_request l s : hd_queue l (sys_k s) → ends do_hd_request (λ _, hd_live) s.
Proof.
  intros H. unfold do_hd_request. apply (ends_hd_request_loop _ l); [done|].
  pose proof (budget_bound _ _ H). lia.
Qed.

Lemma ends_upd_queue f l s :
  (∀ r, r_next (f r) = r_next r) → (∀ r, 0 ≤ r_errors r < MAX_ERRORS → 0 ≤ r_errors (f r) < MAX_ERRORS) →
  hd_queue l (sys_k s) →
  ends (upd_current 3 f) (λ _ s', hd_queue l (sys_k s') ∧ sys_drv s' = sys_drv s) s.
Proof.
  intros Hn He H. eapply ends_upd_current; [apply H|]. intros c l' r -> Hr. split; [|done].
  apply (req_queue_upd c l' (sys_k s) r (f r)); [done..|]. apply He, (hq_errors _ _ H c); [left|done].
Qed.
Lemma ends_bad_then_request l s :
  hd_queue l (sys_k s) → ends (bad_rw_intr ;; do_hd_request) (λ _, hd_live) s.
Proof.
  intros H. apply ends_bind. eapply ends_mono; [by apply (ends_bad_rw_intr l)|].
  intros [] s' (_ & l' & Hl' & _). by apply (ends_do_hd_request l').
Qed.
(** The first request is done. *)
Lemma ends_done_then_request l s :
  hd_queue l (sys_k s) → ends (zoom sys_k (end_request 3 1) ;; do_hd_request) (λ _, hd_live) s.
Proof.
  intros H. apply ends_bind, ends_zoom. destruct l as [|c l].
  - (* CURRENT is NULL *)
    unfold end_request. apply ends_bind. eapply ends_CURRENT; [apply H|done].
  - eapply ends_mono; [apply (ends_end_request_queue 1 c l), H|]. intros [] K (HK & Hi & _).
    apply (ends_do_hd_request l). eapply req_queue_ext; [exact HK|exact Hi|].
    intros i r Hin. apply (hq_errors _ _ H). by right.
Qed.

Lemma ends_read_intr l s : hd_queue l (sys_k s) → ends read_intr (λ _, hd_live) s.
Proof.
  intros H. unfold read_intr. apply ends_bind, io_win_result. intros w s1 Hk1 _. rewrite <-Hk1 in H.
  destruct (truth w); [by apply (ends_bad_then_request l)|].
  apply ends_bind, (ends_mono _ (λ _ s', hd_queue l (sys_k s'))).
  { unfold read_sector. apply ends_bind. eapply ends_current_req; [apply H|]. intros c l' r -> _.
    apply ends_bind, ends_deref. intros b _. apply ends_bind, ends_get, ends_bind, ends_modify, ends_zoom, ends_set_bh.
    intros bs. by eapply req_queue_blk; [|exact H]. }
  intros [] s2 H2. do 4 (apply ends_bind; eapply ends_mono;
    [apply (ends_upd_queue _ l); [done|simpl; unfold MAX_ERRORS; lia|done]|]; intros [] s3 [H3 _]; clear dependent s2; rename s3 into s2, H3 into H2).
  apply ends_bind. eapply ends_current_req; [apply H2|]. intros c l' r -> _. destruct (truth (r_nr_sectors r)).
  - apply ends_modify. by exists (c :: l').
  - by apply (ends_done_then_request (c :: l')).
Qed.
Lemma ends_write_sector (Q : unit → hd_system D → Prop) l s :
  hd_links l (sys_k s) → (∀ s', sys_k s' = sys_k s → sys_drv s' = sys_drv s → Q tt s') → ends write_sector Q s.
Proof.
  intros H HQ. unfold write_sector. apply ends_bind. eapply ends_current_req; [apply H|]. intros c l' r -> _.
  apply ends_bind, ends_deref. intros b _. apply ends_bind, ends_zoom, ends_bh. intros x _.
  apply ends_modify. by apply HQ.
Qed.
Lemma ends_write_intr l s : hd_queue l (sys_k s) → ends write_intr (λ _, hd_live) s.
Proof.
  intros H. unfold write_intr. apply ends_bind, io_win_result. intros w s1 Hk1 _. rewrite <-Hk1 in H.
  destruct (truth w); [by apply (ends_bad_then_request l)|].
  apply ends_bind. eapply ends_mono; [apply (ends_upd_queue _ l); [done..|exact H]|]. intros [] s2 [H2 _].
  apply ends_bind. eapply ends_current_req; [apply H2|]. intros c l' r -> _. destruct (truth (r_nr_sectors r)).
  - do 2 (apply ends_bind; eapply ends_mono; [apply (ends_upd_queue _ (c :: l')); [done..|exact H2]|];
      intros [] s3 [H3 _]; clear dependent s2; rename s3 into s2, H3 into H2).
    apply ends_bind, ends_modify. eapply ends_write_sector; [exact (hq_links _ _ H2)|].
    intros s3 Hk3 Hh3. exists (c :: l'). rewrite Hk3, Hh3. by split.
  - by apply (ends_done_then_request (c :: l')).
Qed.
Lemma ends_recal_intr l s : hd_queue l (sys_k s) → ends recal_intr (λ _, hd_live) s.
Proof.
  intros H. unfold recal_intr. apply ends_bind, io_win_result. intros w s1 Hk1 _. rewrite <-Hk1 in H.
  apply ends_bind, ends_when; intros _; [|by apply (ends_do_hd_request l)].
  eapply ends_mono; [by apply (ends_bad_rw_intr l)|]. intros [] s2 (_ & l' & Hl' & _). by apply (ends_do_hd_request l').
Qed.

(** C19: no request of the hard disk is stranded, whatever the controller
    answers.  Starting the driver and every interrupt end after finitely many
    steps, and when they return, requests are left in the queue only if a
    handler waits for the next interrupt. *)
Theorem hd_live_correct s l :
  hd_queue l (sys_k s) →
  ends do_hd_request (λ _, hd_live) s ∧
  ((l ≠ [] → do_hd (sys_drv s) ≠ None) → ends hd_interrupt (λ _, hd_live) s).
Proof.
  intros H. split; [by apply (ends_do_hd_request l)|]. intros Hd.
  unfold hd_interrupt. apply ends_bind, io_outp. intros [] s1 Hk1 Hh1.
  apply ends_bind. unfold drv at 1. apply ends_bind, ends_get, ends_ret. rewrite Hh1.
  apply ends_bind, ends_modify, ends_bind, io_outp. intros [] s3 Hk3 Hh3.
  assert (H3 : hd_queue l (sys_k s3)) by (rewrite Hk3; simpl; by rewrite Hk1).
  destruct (do_hd (sys_drv s)) as [[]|].
  - by apply (ends_read_intr l).
  - by apply (ends_write_intr l).
  - by apply (ends_recal_intr l).
  - apply ends_ret. exists l. split; [done|]. intros Hl. by apply Hd in Hl.
Qed.
End Live.
