(* ===== verification/HdFacts.v ===== *)
(** * The hard disk driver: commands and interrupts

    The single steps of the driver with a working controller, [HdController],
    computed: the poll of the status, the registers of a command, the dispatch
    of the first request, the entry of an interrupt. *)

From stdpp Require Import base option list gmap strings.
From Stdlib Require Import ZArith Lia.
From S2P Require Import Prelude Types Memory Sched Kernel KernelFacts Blk Ports BlkProofs Buffer BlockFacts RequestFacts Hd HdSpec.
Local Open Scope Z_scope.

(** ** Cylinders, heads and sectors *)
Lemma chs_lba_div heads spt block :
  0 < heads → 0 < spt →
  chs_lba heads spt (block / spt / heads) ((block / spt) mod heads) (block mod spt + 1) = block.
Proof.
  intros Hh Hs. unfold chs_lba. pose proof (Z.div_mod block spt ltac:(lia)).
  pose proof (Z.div_mod (block / spt) heads ltac:(lia)). nia.
Qed.
Lemma chs_bounds heads spt cyls block :
  0 < heads → 0 < spt → 0 ≤ block < cyls * heads * spt →
  0 ≤ block / spt / heads < cyls ∧ 0 ≤ (block / spt) mod heads < heads ∧ 0 ≤ block mod spt < spt.
Proof.
  intros Hh Hs Hb. split; [|split; apply Z.mod_pos_bound; lia].
  assert (0 ≤ block / spt) by (apply Z.div_pos; lia). split; [apply Z.div_pos; lia|].
  apply Z.div_lt_upper_bound; [lia|]. apply Z.div_lt_upper_bound; [lia|]. nia.
Qed.
(** The drive and head register. *)
Lemma drive_head_bits drive head :
  0 ≤ drive ≤ 1 → 0 ≤ head ≤ 15 → let b := u8 (Z.lor (Z.lor 0xA0 (Z.shiftl drive 4)) head) in
  Z.land (Z.shiftr b 4) 1 = drive ∧ Z.land b 15 = head.
Proof.
  intros Hd Hh.
  assert (Hall : forallb (λ d, forallb (λ h, let b := u8 (Z.lor (Z.lor 0xA0 (Z.shiftl (Z.of_nat d) 4)) (Z.of_nat h)) in
    (Z.land (Z.shiftr b 4) 1 =? Z.of_nat d) && (Z.land b 15 =? Z.of_nat h)) (seq 0 16)) (seq 0 2) = true) by by vm_compute.
  rewrite forallb_forall in Hall. specialize (Hall (Z.to_nat drive)).
  rewrite forallb_forall in Hall. specialize (Hall ltac:(apply in_seq; lia) (Z.to_nat head) ltac:(apply in_seq; lia)).
  rewrite !Z2Nat.id in Hall by lia. apply andb_prop in Hall as [H1%Z.eqb_eq H2%Z.eqb_eq]. done.
Qed.

(** ** Commands *)
Section Transfer.
Context {D : Type} {Ctl : Controller D} {HC : HdController D}.
Implicit Types s : hd_system D.

Lemma inp_status_run s : inp HD_STATUS s = Ok (port_in HD_STATUS (sys_dev s)).1
  (with_dev (port_in HD_STATUS (sys_dev s)).2 s).
Proof. done. Qed.
(** The controller is polled until it is ready. *)
Lemma ready_loop_run n s :
  (busy (view (sys_dev s)) < n)%nat →
  ∃ k d, ready_loop (S n) s = Ok k (with_dev d s) ∧ k ≠ 0 ∧ view d = view (sys_dev s) <| busy := 0%nat |>.
Proof.
  revert s. induction n as [|n IH]; intros s Hb; [lia|]. cbn [ready_loop]. rewrite (bind_Ok _ _ _ _ _ (inp_status_run s)).
  set (d1 := (port_in HD_STATUS (sys_dev s)).2). pose proof (status_view (sys_dev s)) as Hv. fold d1 in Hv.
  destruct (busy (view (sys_dev s))) as [|k] eqn:Hk.
  - pose proof (status_ready _ Hk) as Hst.
    assert (H40 : Z.land (port_in HD_STATUS (sys_dev s)).1 0xc0 = 0x40).
    { change 0xc0 with (Z.land status_bits 0xc0). by rewrite Z.land_assoc, Hst. }
    rewrite H40. exists (Z.of_nat (S n)), d1. split; [done|]. split; [lia|].
    rewrite Hv. destruct (view (sys_dev s)). simpl in *. by rewrite Hk.
  - assert (Hne : busy (view (sys_dev s)) ≠ 0%nat) by lia. destruct (status_busy _ Hne) as [H40 _].
    apply Z.eqb_neq in H40. rewrite H40.
    destruct (IH (with_dev d1 s)) as (m & d & Hrun & Hm & Hd); [simpl; rewrite Hv; simpl; lia|].
    exists m, d. split; [exact Hrun|]. split; [done|]. rewrite Hd. simpl. by rewrite Hv.
Qed.

(** A port written later does not matter for one written before. *)
Definition written (l : list (Z * Z)) (r : gmap Z Z) : gmap Z Z := foldr (λ p, <[HD_DATA + p.1 := p.2]>) r l.
Lemma written_lookup l r p v : list_to_map (M := gmap Z Z) l !! p = Some v → written l r !! (HD_DATA + p) = Some v.
Proof.
  induction l as [|[q w] l IH]; simpl; [done|]. destruct (decide (q = p)) as [->|Hne].
  - by rewrite !lookup_insert_eq.
  - rewrite !lookup_insert_ne by lia. done.
Qed.

(** The registers of the command; the kernel stays. *)
Lemma hd_out_run s drive nsect sect head cyl cmd h i :
  0 ≤ drive ≤ 1 → 0 ≤ head ≤ 15 → (busy (view (sys_dev s)) < 9999)%nat →
  zlookup (hd_info (sys_drv s)) drive = Some i → 0 ≤ hi_ctl i < 256 → Z.land (hi_ctl i) 4 = 0 →
  ∃ d v, hd_out drive nsect sect head cyl cmd h s =
      Ok tt (with_dev (port_out (HD_DATA + 7) (u8 cmd) d) s <| sys_drv ::= λ x, x <| do_hd := Some h |> |>) ∧
    view d = v ∧ job v = job (view (sys_dev s)) ∧ sectors v = sectors (view (sys_dev s)) ∧ busy v = 0%nat ∧
    reg v (HD_DATA + 2) = u8 nsect ∧ reg v (HD_DATA + 3) = u8 sect ∧ reg v (HD_DATA + 4) = u8 cyl ∧
    reg v (HD_DATA + 5) = u8 (Z.shiftr cyl 8) ∧
    reg v (HD_DATA + 6) = u8 (Z.lor (Z.lor 0xA0 (Z.shiftl drive 4)) head).
Proof.
  intros Hdr Hhd Hb Hi Hctl Hctl4. unfold hd_out.
  assert (Hok : (1 <? drive) || (15 <? head) = false) by lia. rewrite Hok.
  rewrite (bind_Ok _ _ s tt s) by done.
  destruct (ready_loop_run 9999 s Hb) as (k & d0 & Hrun & Hk & Hd0).
  assert (Hready : controller_ready s = Ok k (with_dev d0 s)) by exact Hrun.
  rewrite (bind_Ok _ _ _ _ _ Hready). apply truth_true in Hk. rewrite Hk. cbn [negb].
  rewrite (bind_Ok _ _ (with_dev d0 s) tt (with_dev d0 s)) by done.
  set (s1 := with_dev d0 s <| sys_drv ::= λ x, x <| do_hd := Some h |> |>).
  rewrite (bind_Ok _ _ _ tt s1) by done.
  assert (Hinfo : hd_info_at drive s1 = Ok i s1) by (unfold hd_info_at, drv, get; mred; simpl; by rewrite Hi).
  rewrite (bind_Ok _ _ _ _ _ Hinfo).
  (* the outs *)
  set (d1 := port_out HD_CMD (u8 (hi_ctl i)) d0). set (d2 := port_out (HD_DATA + 1) (u8 (Z.shiftr (hi_wpcom i) 2)) d1).
  set (d3 := port_out (HD_DATA + 2) (u8 nsect) d2). set (d4 := port_out (HD_DATA + 3) (u8 sect) d3).
  set (d5 := port_out (HD_DATA + 4) (u8 cyl) d4). set (d6 := port_out (HD_DATA + 5) (u8 (Z.shiftr cyl 8)) d5).
  set (d7 := port_out (HD_DATA + 6) (u8 (Z.lor (Z.lor 0xA0 (Z.shiftl drive 4)) head)) d6).
  exists d7, (view d7). split; [done|]. split; [done|].
  assert (Hv1 : view d1 = view d0 <| regs ::= <[HD_CMD := u8 (hi_ctl i)]> |>)
    by (apply out_reg; right; split; [done|]; rewrite u8_small; done).
  set (outs := [(6, u8 (Z.lor (Z.lor 0xA0 (Z.shiftl drive 4)) head)); (5, u8 (Z.shiftr cyl 8)); (4, u8 cyl);
    (3, u8 sect); (2, u8 nsect); (1, u8 (Z.shiftr (hi_wpcom i) 2))]).
  assert (Hv : view d7 = view d1 <| regs ::= written outs |>).
  { unfold d7, d6, d5, d4, d3, d2. do 6 rewrite out_reg by (unfold HD_DATA; lia). done. }
  rewrite Hv, Hv1, Hd0. do 3 (split; [done|]).
  assert (Hreg : ∀ p x, list_to_map (M := gmap Z Z) outs !! p = Some x →
    ∀ v, reg (v <| regs ::= written outs |>) (HD_DATA + p) = x).
  { intros p x Hx v. unfold reg. change (default 0 (written outs (regs v) !! (HD_DATA + p)) = x).
    by rewrite (written_lookup _ _ _ _ Hx). }
  unfold outs. split_and!; by apply Hreg.
Qed.

(** A command for the sectors from [block] on reaches the controller as such. *)
Lemma hd_out_command s drive block n h hdl i cmd :
  zlookup (hd_info (sys_drv s)) drive = Some i → geometry_ok drive i → 0 ≤ drive ≤ 1 →
  0 ≤ block < hi_cyl i * hi_head i * hi_sect i → (0 < n < 256)%nat → (busy (view (sys_dev s)) < 9999)%nat →
  h = (block / hi_sect i) mod hi_head i →
  ∃ d v, hd_out drive (Z.of_nat n) (u32 (block mod hi_sect i + 1)) h (block / hi_sect i / hi_head i) cmd hdl s =
      Ok tt (with_dev (port_out (HD_DATA + 7) (u8 cmd) d) s <| sys_drv ::= λ x, x <| do_hd := Some hdl |> |>) ∧
    view d = v ∧ sectors v = sectors (view (sys_dev s)) ∧ cmd_drive v = drive ∧ cmd_count v = Z.of_nat n ∧
    chs_lba (heads drive) (spt drive) (cmd_cyl v) (cmd_head v) (reg v (HD_DATA + 3)) = block.
Proof.
  intros Hi (Hh & Hs & Bh & Bs & Bc & Bctl & Bctl4) Hdr Hb Hn Hbusy ->.
  destruct (chs_bounds (hi_head i) (hi_sect i) (hi_cyl i) block) as (Hcyl & Hhead & Hsec); [lia..|].
  destruct (hd_out_run s drive (Z.of_nat n) (u32 (block mod hi_sect i + 1)) ((block / hi_sect i) mod hi_head i)
    (block / hi_sect i / hi_head i) cmd hdl i) as (d & v & Hrun & Hv & _ & Hsecs & _ & H2 & H3 & H4 & H5 & H6); [lia..|done|lia|done|].
  exists d, v. split; [exact Hrun|]. split; [done|]. split; [done|].
  destruct (drive_head_bits drive ((block / hi_sect i) mod hi_head i)) as [Hd1 Hd2]; [lia..|].
  rewrite u32_small in H3 by lia. rewrite u8_small in H2, H3 by lia.
  unfold cmd_drive, cmd_count, cmd_cyl, cmd_head. rewrite H2, H3, H4, H5, H6.
  split; [done|]. split; [destruct (Z.eqb_spec (Z.of_nat n) 0); lia|].
  rewrite Hd2, u8_shift16 by lia. rewrite <-Hh, <-Hs. apply chs_lba_div; lia.
Qed.

(** ** The first request *)

(** What do_hd_request computes for the request: the place on the drive. *)
Definition issue (r : request_struct) (drive lba : Z) (n : nat) (i : hd_i_struct) : M (hd_system D) bool :=
  let sec := u32 (lba mod hi_sect i + 1) in
  let head := (lba / hi_sect i) mod hi_head i in
  let cyl := lba / hi_sect i / hi_head i in
  if r_cmd r =? WRITE then
    hd_out drive (Z.of_nat n) sec head cyl WIN_WRITE write_intr_ ;;
    drq ← wait_drq 3000;
    if negb (truth drq) then bad_rw_intr ;; mret true else
    write_sector ;;
    mret false
  else if r_cmd r =? READ then
    hd_out drive (Z.of_nat n) sec head cyl WIN_READ read_intr_ ;;
    mret false
  else panic "unknown hd-command".

Lemma divl_run (a b : Z) s : 0 < b < 256 → divl a b s = Ok (a / b, a mod b) s.
Proof.
  intros Hb. unfold divl. rewrite u32_small by lia. destruct (Z.eqb_spec b 0); [lia|done].
Qed.
Lemma hd_request_once_issue s c r b x drive lba n :
  hd_request s c r b x drive lba n → reset (sys_drv s) = 0 → recalibrate (sys_drv s) = 0 →
  ∃ i, zlookup (hd_info (sys_drv s)) drive = Some i ∧ geometry_ok drive i ∧ 0 ≤ drive ≤ 1 ∧
    0 ≤ lba < hi_cyl i * hi_head i * hi_sect i ∧ hd_request_once s = issue r drive lba n i s.
Proof.
  intros [(d & Hd & Hc) Hr Hm Hb Hx Hl Hn _ _ Hdrive Hdrives (h & i & Hh & Hi & Hgeo & Hs0 & Hr0 & Hin & Hcyl & Hlba)] Hreset Hrecal.
  pose proof Hgeo as (Hhd & Hsp & Bh & Bs & Bc & _).
  assert (Hminor : 0 ≤ MINOR (r_dev r)) by (unfold MINOR; apply Z.land_nonneg; lia).
  assert (Bdr : 0 ≤ drive ≤ 1).
  { rewrite Hdrive. split; [apply Z.div_pos; lia|]. apply Z.lt_succ_r, Z.div_lt_upper_bound; lia. }
  assert (Blba : 0 ≤ lba < hi_cyl i * hi_head i * hi_sect i) by lia.
  assert (Bmax : hi_cyl i * hi_head i * hi_sect i ≤ 65535 * 16 * 255) 
    by (apply Z.mul_le_mono_nonneg; [nia|apply Z.mul_le_mono_nonneg; lia|lia|lia]).
  exists i. do 4 (split; [done|]). unfold hd_request_once.
  rewrite (bind_Ok _ _ _ _ _ (zoom_k_same _ _ _ (init_request_run 3 _ d c r b x Hd Hc Hr Hm Hb Hx Hl))).
  rewrite (bind_Ok _ _ _ (sys_drv s) s) by done. cbv zeta.
  rewrite u32_small, (proj2 (Z.leb_gt _ _)) by lia.
  assert (Hhat : hd_at (MINOR (r_dev r)) s = Ok h s) by (unfold hd_at, drv, get; mred; by rewrite Hh).
  assert (Hbad : (h ← hd_at (MINOR (r_dev r)); mret (u32 (nr_sects h) <? u32 (r_sector r + 2))) s = Ok false s).
  { rewrite (bind_Ok _ _ _ _ _ Hhat), !u32_small by lia. unfold mret, M_ret. f_equal. apply Z.ltb_ge. lia. }
  rewrite (bind_Ok _ _ _ _ _ Hbad), (bind_Ok _ _ _ _ _ Hhat).
  rewrite <-Hdrive. assert (Hinfo : hd_info_at drive s = Ok i s) by (unfold hd_info_at, drv, get; mred; by rewrite Hi).
  rewrite (bind_Ok _ _ _ _ _ Hinfo). replace (u32 (r_sector r + start_sect h)) with lba by (rewrite u32_small; lia).
  rewrite (bind_Ok _ _ _ _ _ (divl_run lba (hi_sect i) s ltac:(lia))).
  rewrite (bind_Ok _ _ _ _ _ (divl_run (lba / hi_sect i) (hi_head i) s ltac:(lia))).
  rewrite Hreset, Hrecal, Hn. done.
Qed.

(** ** An interrupt *)

(** The state of the driver and the controller, the kernel aside. *)
Definition at_hd (K : kernel) (h : option hd_handler) (d : D) s : hd_system D :=
  mk_system K (sys_drv s <| do_hd := h |>) d.
Definition run_handler (h : hd_handler) : M (hd_system D) unit :=
  match h with read_intr_ => read_intr | write_intr_ => write_intr | recal_intr_ => recal_intr end.

Lemma hd_irq_run s K h d0 :
  ∃ d, hd_irq (at_hd K (Some h) d0 s) = run_handler h (at_hd K None d s) ∧ view d = view d0 <| busy := 0%nat |>.
Proof.
  exists (port_out 0x20 (u8 0x20) (port_out 0xA0 (u8 0x20) (settle d0))). split; [by destruct h|].
  rewrite !out_other by (unfold HD_DATA, HD_CMD; lia). apply settle_view.
Qed.
Lemma win_result_run s :
  busy (view (sys_dev s)) = 0%nat → ∃ d, win_result s = Ok 0 (with_dev d s) ∧ view d = view (sys_dev s).
Proof.
  intros Hb. exists (port_in HD_STATUS (sys_dev s)).2. unfold win_result.
  rewrite (bind_Ok _ _ _ _ _ (inp_status_run s)). fold status_bits. rewrite (status_ready _ Hb). split; [done|].
  rewrite status_view. destruct (view (sys_dev s)). simpl in *. by rewrite Hb.
Qed.

(** Updates of the first request in a row. *)
Lemma upd_current_at f K h d s c r :
  first_is 3 K c → req_is K c r →
  ∀ r0, upd_current 3 f (at_hd (set_req c r0 K) h d s) = Ok tt (at_hd (set_req c (f r0) K) h d s).
Proof.
  intros Hc Hr r0. rewrite (upd_current_run 3 f (at_hd (set_req c r0 K) h d s) c r0 Hc (req_is_set _ _ _ _ Hr)).
  unfold at_hd. f_equal. simpl. by rewrite <-(set_req_set c (f r0) r0 K).
Qed.
Lemma current_hd_at K h d s c r r0 :
  first_is 3 K c → req_is K c r → current_req 3 (at_hd (set_req c r0 K) h d s) = Ok r0 (at_hd (set_req c r0 K) h d s).
Proof. intros Hc Hr. by apply (current_req_run 3 _ c); [|apply (req_is_set _ r)]. Qed.
End Transfer.
