(* ===== verification/HdProofs.v ===== *)
(** * Transfers with the hard disk

    What the driver and a working controller do together: the data of the
    sectors a request names, [start_sect] of its partition added, end up in its
    buffer, or on the disk, and the request is ended. *)

From stdpp Require Import base option list gmap strings.
From Stdlib Require Import ZArith Lia.
From S2P Require Import Prelude Types Memory Sched Kernel KernelFacts Blk Ports BlkProofs Buffer BlockFacts RequestFacts Hd HdSpec HdFacts.
Local Open Scope Z_scope.

Section Transfer.
Context {D : Type} {Ctl : Controller D} {HC : HdController D}.
Implicit Types s : hd_system D.

(** ** Reading *)

(** The request after a sector. *)
Definition advance (r : request_struct) (m : nat) : request_struct :=
  r <| r_errors := 0 |> <| r_buffer := r_buffer r + 512 |> <| r_sector := u32 (r_sector r + 1) |>
    <| r_nr_sectors := Z.of_nat m |>.
Definition done_then_request : M (hd_system D) unit := zoom sys_k (end_request 3 1) ;; do_hd_request.

(** One sector into the buffer. *)
Lemma read_sector_run K c r0 b x0 r x h d s drive lba n :
  first_is 3 K c → req_is K c r0 → buf_is K b x0 → r_bh r = Some b →
  busy (view d) = 0%nat → job (view d) = Reading drive lba n → 0 < n →
  ∃ d' bz, read_sector (at_hd (set_req c r (set_buf b x K)) h d s) =
      Ok tt (at_hd (set_req c r (set_buf b (fill (r_buffer r) (sector_of (view d) drive lba) x) K)) h d' s) ∧
    view d' = view d <| busy := bz |> <| job := Reading drive (lba + 1) (n - 1) |>.
Proof.
  intros Hc Hr Hx Hb Hbusy Hjob Hn. destruct (read_data d drive lba n Hbusy Hjob Hn) as (Hdata & bz & Hv).
  set (d' := (port_read HD_DATA 256 d).2) in *. exists d', bz. split; [|exact Hv].
  set (K1 := set_buf b x K). set (x' := fill (r_buffer r) (sector_of (view d) drive lba) x).
  unfold read_sector. rewrite (bind_Ok _ _ _ _ _ (current_hd_at K1 h d s c r0 r Hc Hr)), Hb.
  rewrite (bind_Ok _ _ _ b (at_hd (set_req c r K1) h d s)) by done.
  rewrite (bind_Ok get _ _ _ _ eq_refl). cbv zeta.
  rewrite (bind_Ok _ _ _ tt (at_hd (set_req c r K1) h d' s)) by done.
  assert (Hx1 : buf_is (set_req c r K1) b x) by (by eapply buf_is_set).
  erewrite zoom_k by (apply (set_bh_run _ _ _ _ Hx1)).
  change ((port_read HD_DATA 256 (sys_dev (at_hd (set_req c r K1) h d s))).1) with (port_read HD_DATA 256 d).1.
  rewrite Hdata. transitivity (Ok (S := hd_system D) tt (at_hd (set_req c r (set_buf b x' K1)) h d' s)); [done|].
  unfold K1. by rewrite set_buf_set.
Qed.

Lemma read_step K c r0 b x0 r x d s drive lba m :
  first_is 3 K c → req_is K c r0 → buf_is K b x0 →
  r_bh r = Some b → r_nr_sectors r = Z.of_nat (S m) → (m < 256)%nat → job (view d) = Reading drive lba (Z.of_nat (S m)) →
  ∃ d' bz, hd_irq (at_hd (set_req c r (set_buf b x K)) (Some read_intr_) d s) =
      (if truth (Z.of_nat m) then set_drv (λ h, h <| do_hd := Some read_intr_ |>) else done_then_request)
        (at_hd (set_req c (advance r m) (set_buf b (fill (r_buffer r) (sector_of (view d) drive lba) x) K)) None d' s) ∧
    view d' = view d <| busy := bz |> <| job := Reading drive (lba + 1) (Z.of_nat m) |>.
Proof.
  intros Hc Hr Hx Hb Hn Hm Hjob. set (K1 := set_buf b x K).
  destruct (hd_irq_run s (set_req c r K1) read_intr_ d) as (d1 & Hirq & Hv1). rewrite Hirq.
  change (run_handler read_intr_) with read_intr. unfold read_intr.
  destruct (win_result_run (at_hd (set_req c r K1) None d1 s)) as (d2 & Hwin & Hv2); [simpl; by rewrite Hv1|].
  rewrite (bind_Ok _ _ _ _ _ Hwin). cbn [truth negb Z.eqb]. simpl in Hv2. rewrite Hv1 in Hv2.
  destruct (read_sector_run K c r0 b x0 r x None d2 s drive lba (Z.of_nat (S m)) Hc Hr Hx Hb)
    as (d3 & bz & Hsec & Hv3); [by rewrite Hv2..|lia|].
  assert (Hsec2 : sector_of (view d2) drive lba = sector_of (view d) drive lba) by (by rewrite Hv2).
  rewrite Hsec2 in Hsec. rewrite (bind_Ok _ _ _ _ _ Hsec).
  exists d3, bz. set (K2 := set_buf b (fill (r_buffer r) (sector_of (view d) drive lba) x) K).
  set (r1 := r <| r_errors := 0 |>). set (r2 := r1 <| r_buffer := r_buffer r + 512 |>).
  set (r3 := r2 <| r_sector := u32 (r_sector r + 1) |>).
  rewrite (bind_Ok _ _ _ _ _ (upd_current_at _ K2 None d3 s c r0 Hc Hr r)). fold r1.
  rewrite (bind_Ok _ _ _ _ _ (upd_current_at _ K2 None d3 s c r0 Hc Hr r1)).
  rewrite (bind_Ok _ _ _ _ _ (upd_current_at _ K2 None d3 s c r0 Hc Hr r2)).
  rewrite (bind_Ok _ _ _ _ _ (upd_current_at _ K2 None d3 s c r0 Hc Hr r3)).
  assert (Hr4 : r3 <| r_nr_sectors ::= λ n, u32 (n - 1) |> = advance r m).
  { unfold advance. fold r1 r2 r3. change (r_nr_sectors r3) with (r_nr_sectors r). unfold set. simpl.
    by replace (u32 (r_nr_sectors r - 1)) with (Z.of_nat m) by (rewrite Hn, u32_small; lia). }
  rewrite Hr4, (bind_Ok _ _ _ _ _ (current_hd_at K2 None d3 s c r0 (advance r m) Hc Hr)).
  split; [by destruct (truth _)|]. rewrite Hv3, Hv2. replace (Z.of_nat (S m) - 1) with (Z.of_nat m) by lia. done.
Qed.

Lemma length_sectors_from d drive lba n : length (sectors_from (view d) drive lba n) = (512 * n)%nat.
Proof.
  revert lba. induction n as [|n IH]; intros lba; [done|]. cbn [sectors_from].
  rewrite length_app, length_sector, IH. lia.
Qed.
Lemma sectors_from_ext v v' drive lba n :
  sectors v' = sectors v → sectors_from v' drive lba n = sectors_from v drive lba n.
Proof.
  intros E. revert lba. induction n as [|n IH]; intros lba; [done|]. cbn [sectors_from]. rewrite IH.
  unfold sector_of. by rewrite E.
Qed.
Lemma fill_fill at_ a l x :
  0 ≤ at_ → length a = 512%nat → (Z.to_nat at_ + 512 + length l ≤ length (b_data x))%nat →
  fill (at_ + 512) l (fill at_ a x) = fill at_ (a ++ l) x.
Proof.
  intros Hat Ha Hl. unfold fill, set. simpl. f_equal. rewrite <-splice_app by lia. f_equal. lia.
Qed.

(** All the sectors but the last, one per interrupt, and the last. *)
Lemma read_irqs K c r0 b x0 drive s m : ∀ r x d lba,
  first_is 3 K c → req_is K c r0 → buf_is K b x0 →
  r_bh r = Some b → r_nr_sectors r = Z.of_nat (S m) → (m < 256)%nat → job (view d) = Reading drive lba (Z.of_nat (S m)) →
  0 ≤ r_buffer r → (Z.to_nat (r_buffer r) + 512 * S m ≤ length (b_data x))%nat →
  ∃ s1 d' r', hd_irqs m (at_hd (set_req c r (set_buf b x K)) (Some read_intr_) d s) = Ok tt s1 ∧
    hd_irq s1 = done_then_request (at_hd (set_req c r' (set_buf b
      (fill (r_buffer r) (sectors_from (view d) drive lba (S m)) x) K)) None d' s) ∧
    r_bh r' = r_bh r ∧ r_next r' = r_next r ∧ r_waiting r' = r_waiting r ∧ sectors (view d') = sectors (view d).
Proof.
  induction m as [|m IH]; intros r x d lba Hc Hr Hx Hb Hn Hm Hjob Hat Hroom;
    destruct (read_step K c r0 b x0 r x d s drive lba _ Hc Hr Hx Hb Hn Hm Hjob) as (d' & bz & Hirq & Hv).
  - eexists _, d', (advance r 0). split; [done|]. rewrite Hirq. cbn [sectors_from]. rewrite app_nil_r.
    by rewrite Hv.
  - set (x1 := fill (r_buffer r) (sector_of (view d) drive lba) x) in *. set (r1 := advance r (S m)) in *.
    assert (Hirq' : hd_irq (at_hd (set_req c r (set_buf b x K)) (Some read_intr_) d s) =
      Ok tt (at_hd (set_req c r1 (set_buf b x1 K)) (Some read_intr_) d' s)).
    { rewrite Hirq. assert (Htr : truth (Z.of_nat (S m)) = true) by (apply truth_true; lia). by rewrite Htr. }
    assert (Hlen : length (b_data x1) = length (b_data x)) by (apply length_splice; rewrite length_sector; lia).
    destruct (IH r1 x1 d' (lba + 1)) as (s1 & d2 & r' & Hrun & Hlast & Hb' & Hn' & Hw' & Hs'); try done.
    + lia.
    + by rewrite Hv.
    + simpl. lia.
    + rewrite Hlen. simpl. lia.
    + exists s1, d2, r'. cbn [hd_irqs]. rewrite (bind_Ok _ _ _ _ _ Hirq'). split; [exact Hrun|].
      rewrite Hlast. change (r_buffer r1) with (r_buffer r + 512). unfold x1.
      rewrite (sectors_from_ext (view d) (view d')) by by rewrite Hv.
      rewrite fill_fill; [|done|apply length_sector|rewrite length_sectors_from; lia].
      split; [done|]. rewrite Hb', Hn', Hw', Hs', Hv. done.
Qed.


(** ** The whole transfer *)

Lemma done_then_request_run K c r r' b x x0 d s :
  first_is 3 K c → req_is K c r → buf_is K b x0 → r_bh r' = Some b → r_next r' = r_next r → r_waiting r' = r_waiting r →
  b_wait x = b_wait x0 → waiters_ok K r x0 →
  ∃ s3, done_then_request (at_hd (set_req c r' (set_buf b x K)) None d s) = do_hd_request s3 ∧
    finished 3 K (sys_k s3) c r b (ended_buffer 1 x) ∧ sys_dev s3 = d.
Proof.
  intros Hc Hr Hx Hb Hn Hw Hbw HW.
  destruct (end_request_finished 3 1 K c r r' b x x0 Hc Hr Hx Hb Hn Hw Hbw HW) as (K' & Hrun & Hfin).
  exists (at_hd K' None d s). split; [|done]. unfold done_then_request.
  by rewrite (bind_Ok _ _ _ _ _ (zoom_k _ (at_hd _ None d s) _ _ Hrun)).
Qed.

(** C17: reading.  Request [c] asks for [n] sectors, inside its partition, to
    buffer [b].  do_hd_request commands the controller, each interrupt but the
    last moves one sector, and at the [n]-th the buffer holds the [n] sectors of
    the drive that start at the partition's first plus the request's, up to
    date and unlocked, its request is free again and the driver goes on with
    the next one.  The disk is as it was. *)
Theorem hd_read_correct s c r b x drive lba n :
  hd_request s c r b x drive lba n → r_cmd r = READ →
  reset (sys_drv s) = 0 → recalibrate (sys_drv s) = 0 →
  (busy (view (sys_dev s)) < 9999)%nat → waiters_ok (sys_k s) r x →
  ∃ s1 s2 s3, do_hd_request s = Ok tt s1 ∧ hd_irqs (n - 1) s1 = Ok tt s2 ∧ hd_irq s2 = do_hd_request s3 ∧
    finished 3 (sys_k s) (sys_k s3) c r b
      (ended_buffer 1 (fill (r_buffer r) (sectors_from (view (sys_dev s)) drive lba n) x)) ∧
    sectors (view (sys_dev s3)) = sectors (view (sys_dev s)).
Proof.
  intros H Hcmd Hreset Hrecal Hbusy Hw.
  destruct (hd_request_once_issue s c r b x drive lba n H Hreset Hrecal) as (i & Hi & Hgeo & Bdr & Blba & Honce).
  destruct H as [Hc Hr _ Hb Hx _ Hn Hbn [Hat Hroom] _ _ _].
  destruct (hd_out_command s drive lba n ((lba / hi_sect i) mod hi_head i) read_intr_ i WIN_READ)
    as (d & v & Hout & Hv & Hsecs & Hdrive & Hcount & Hlba); try done.
  destruct (out_read d) as (bz & Hcmdv). rewrite Hv, Hdrive, Hcount, Hlba in Hcmdv.
  destruct n as [|m]; [lia|].
  set (d1 := port_out (HD_DATA + 7) (u8 WIN_READ) d) in *.
  set (K := sys_k s) in *.
  assert (Hstart : do_hd_request s = Ok tt (at_hd (set_req c r (set_buf b x K)) (Some read_intr_) d1 s)).
  { rewrite (set_buf_same b x K Hx), (set_req_same c r K Hr). unfold do_hd_request. cbn [hd_request_loop].
    erewrite bind_Ok; [|rewrite Honce; unfold issue; rewrite Hcmd; cbn [Z.eqb READ WRITE];
      rewrite (bind_Ok _ _ _ _ _ Hout); done]. done. }
  change (port_out (HD_DATA + 7) WIN_READ d) with d1 in Hcmdv.
  destruct (read_irqs K c r b x drive s m r x d1 lba) as (s1 & d' & r' & Hrun & Hlast & Hb' & Hn' & Hw' & Hs'); try done.
  { lia. } { by rewrite Hcmdv. } { lia. }
  destruct (done_then_request_run K c r r' b (fill (r_buffer r) (sectors_from (view d1) drive lba (S m)) x) x d' s
    Hc Hr Hx (eq_trans Hb' Hb) Hn' Hw' eq_refl Hw) as (s3 & Hs3 & Hfin & Hdev). rewrite Hs3 in Hlast.
  exists (at_hd (set_req c r (set_buf b x K)) (Some read_intr_) d1 s), s1, s3.
  rewrite Nat.sub_1_r. cbn [Nat.pred]. do 3 (split; [done|]). split.
  - by rewrite <-(sectors_from_ext (view (sys_dev s)) (view d1)) by (rewrite Hcmdv; done).
  - rewrite Hdev, Hs', Hcmdv. done.
Qed.

(** ** Writing *)
Lemma wait_drq_run n s drive lba k :
  (busy (view (sys_dev s)) < n)%nat → job (view (sys_dev s)) = Writing drive lba k → 0 < k →
  ∃ r d, wait_drq n s = Ok r (with_dev d s) ∧ r ≠ 0 ∧ view d = view (sys_dev s) <| busy := 0%nat |>.
Proof.
  revert s. induction n as [|n IH]; intros s Hb Hjob Hk; [lia|]. cbn [wait_drq].
  rewrite (bind_Ok _ _ _ _ _ (inp_status_run s)). cbv zeta.
  set (d1 := (port_in HD_STATUS (sys_dev s)).2). pose proof (status_view (sys_dev s)) as Hv. fold d1 in Hv.
  destruct (busy (view (sys_dev s))) as [|j] eqn:Hj.
  - pose proof (status_drq _ _ _ _ Hj Hjob Hk) as Hdrq. pose proof (proj2 (truth_true _) Hdrq) as Htr. rewrite Htr.
    eexists _, d1. split; [done|]. split; [done|]. rewrite Hv. destruct (view (sys_dev s)). simpl in *. by rewrite Hj.
  - assert (Hne : busy (view (sys_dev s)) ≠ 0%nat) by lia. destruct (status_busy _ Hne) as [_ H0]. rewrite H0.
    change (truth 0) with false.
    destruct (IH (with_dev d1 s)) as (r & d & Hrun & Hr & Hd); [simpl; rewrite Hv; simpl; lia|simpl; by rewrite Hv|done|].
    exists r, d. split; [exact Hrun|]. split; [done|]. rewrite Hd. simpl. by rewrite Hv.
Qed.

(** One sector out of the buffer. *)
Lemma write_sector_run K c r0 b x r h d s drive lba n :
  first_is 3 K c → req_is K c r0 → buf_is K b x → r_bh r = Some b →
  busy (view d) = 0%nat → job (view d) = Writing drive lba n → 0 < n →
  (Z.to_nat (r_buffer r) + 512 ≤ length (b_data x))%nat →
  ∃ d' bz, write_sector (at_hd (set_req c r K) h d s) = Ok tt (at_hd (set_req c r K) h d' s) ∧
    view d' = view d <| busy := bz |> <| job := Writing drive (lba + 1) (n - 1) |>
      <| sectors ::= <[(drive, lba) := slice (Z.to_nat (r_buffer r)) 512 (b_data x)]> |>.
Proof.
  intros Hc Hr Hx Hb Hbusy Hjob Hn Hroom. set (l := slice (Z.to_nat (r_buffer r)) 512 (b_data x)).
  destruct (write_data d l drive lba n Hbusy Hjob Hn) as (bz & Hv); [by apply length_slice|].
  exists (port_write HD_DATA l d), bz. split; [|exact Hv].
  unfold write_sector. rewrite (bind_Ok _ _ _ _ _ (current_hd_at K h d s c r0 r Hc Hr)), Hb.
  rewrite (bind_Ok _ _ _ b (at_hd (set_req c r K) h d s)) by done.
  assert (Hbh : zoom sys_k (bh b) (at_hd (set_req c r K) h d s) = Ok x (at_hd (set_req c r K) h d s))
    by (apply zoom_k_same, bh_run; exact Hx).
  by rewrite (bind_Ok _ _ _ _ _ Hbh).
Qed.

(** The request after the interrupt of a sector that is not the last. *)
Definition advance_write (r : request_struct) (m : nat) : request_struct :=
  r <| r_nr_sectors := Z.of_nat m |> <| r_sector := u32 (r_sector r + 1) |> <| r_buffer := r_buffer r + 512 |>.

Lemma write_step K c r0 b x r d s m :
  first_is 3 K c → req_is K c r0 → buf_is K b x → r_bh r = Some b → r_nr_sectors r = Z.of_nat (S m) → (m < 256)%nat →
  ∃ d', view d' = view d <| busy := 0%nat |> ∧
    hd_irq (at_hd (set_req c r K) (Some write_intr_) d s) =
      (if truth (Z.of_nat m) then write_sector (at_hd (set_req c (advance_write r m) K) (Some write_intr_) d' s)
       else done_then_request (at_hd (set_req c (r <| r_nr_sectors := Z.of_nat m |>) K) None d' s)).
Proof.
  intros Hc Hr Hx Hb Hn Hm. destruct (hd_irq_run s (set_req c r K) write_intr_ d) as (d1 & Hirq & Hv1). rewrite Hirq.
  change (run_handler write_intr_) with write_intr. unfold write_intr.
  destruct (win_result_run (at_hd (set_req c r K) None d1 s)) as (d2 & Hwin & Hv2); [simpl; by rewrite Hv1|].
  rewrite (bind_Ok _ _ _ _ _ Hwin). cbn [truth negb Z.eqb]. simpl in Hv2. rewrite Hv1 in Hv2.
  exists d2. split; [done|]. set (r1 := r <| r_nr_sectors := Z.of_nat m |>).
  assert (Hr1 : r <| r_nr_sectors ::= λ n, u32 (n - 1) |> = r1).
  { unfold r1, set. by replace (u32 (r_nr_sectors r - 1)) with (Z.of_nat m) by (rewrite Hn, u32_small; lia). }
  rewrite (bind_Ok _ _ _ _ _ (upd_current_at _ K None d2 s c r0 Hc Hr r)), Hr1.
  rewrite (bind_Ok _ _ _ _ _ (current_hd_at K None d2 s c r0 r1 Hc Hr)). change (r_nr_sectors r1) with (Z.of_nat m).
  destruct (truth (Z.of_nat m)); [|done].
  rewrite (bind_Ok _ _ _ _ _ (upd_current_at _ K None d2 s c r0 Hc Hr r1)).
  set (r2 := r1 <| r_sector := u32 (r_sector r + 1) |>).
  rewrite (bind_Ok _ _ _ _ _ (upd_current_at _ K None d2 s c r0 Hc Hr r2)). done.
Qed.

(** The sectors from [lba] on hold the first [n] * 512 bytes of [l]. *)
Fixpoint store_sectors (m : gmap (Z * Z) (list Z)) (drive lba : Z) (l : list Z) (n : nat) : gmap (Z * Z) (list Z) :=
  match n with
  | O => m
  | S n => store_sectors (<[(drive, lba) := take 512 l]> m) drive (lba + 1) (drop 512 l) n
  end.
Lemma store_sectors_other m drive lba l n dr k :
  dr ≠ drive ∨ k < lba ∨ lba + Z.of_nat n ≤ k → store_sectors m drive lba l n !! (dr, k) = m !! (dr, k).
Proof.
  revert m lba l. induction n as [|n IH]; intros m lba l Hk; [done|]. cbn [store_sectors].
  rewrite IH by lia. apply lookup_insert_ne. intros [= -> ->]. lia.
Qed.
(** Reading back what was stored. *)
Lemma store_sectors_from v drive lba l n :
  (512 * n ≤ length l)%nat →
  sectors_from (v <| sectors := store_sectors (sectors v) drive lba l n |>) drive lba n = take (512 * n) l.
Proof.
  revert v lba l. induction n as [|n IH]; intros v lba l Hl; [done|]. cbn [sectors_from store_sectors].
  set (m1 := <[(drive, lba) := take 512 l]> (sectors v)).
  specialize (IH (v <| sectors := m1 |>) (lba + 1) (drop 512 l)). cbn [sectors set] in IH.
  assert (Hhd : sector_of (v <| sectors := store_sectors m1 drive (lba + 1) (drop 512 l) n |>) drive lba = take 512 l).
  { unfold sector_of. cbn [sectors set]. rewrite store_sectors_other by lia. unfold m1. rewrite lookup_insert_eq.
    apply resize_all_alt. rewrite length_take. lia. }
  rewrite Hhd. change (v <| sectors := ?a |>) with (v <| sectors := m1 |> <| sectors := a |>).
  rewrite IH by (rewrite length_drop; lia).
  replace (512 * S n)%nat with (512 + 512 * n)%nat by lia. by rewrite take_take_drop.
Qed.

Lemma write_irqs K c r0 b x drive s m : ∀ r d lba,
  first_is 3 K c → req_is K c r0 → buf_is K b x →
  r_bh r = Some b → r_nr_sectors r = Z.of_nat (S m) → (m < 256)%nat → job (view d) = Writing drive lba (Z.of_nat m) →
  0 ≤ r_buffer r → (Z.to_nat (r_buffer r) + 512 * S m ≤ length (b_data x))%nat →
  ∃ s1 d' r', hd_irqs m (at_hd (set_req c r K) (Some write_intr_) d s) = Ok tt s1 ∧
    hd_irq s1 = done_then_request (at_hd (set_req c r' K) None d' s) ∧
    r_bh r' = r_bh r ∧ r_next r' = r_next r ∧ r_waiting r' = r_waiting r ∧
    sectors (view d') =
      store_sectors (sectors (view d)) drive lba (drop (Z.to_nat (r_buffer r) + 512) (b_data x)) m.
Proof.
  induction m as [|m IH]; intros r d lba Hc Hr Hx Hb Hn Hm Hjob Hat Hroom;
    destruct (write_step K c r0 b x r d s _ Hc Hr Hx Hb Hn Hm) as (d1 & Hv1 & Hirq).
  - eexists _, d1, _. split; [done|]. split; [exact Hirq|]. by rewrite Hv1.
  - assert (Htr : truth (Z.of_nat (S m)) = true) by (apply truth_true; lia). rewrite Htr in Hirq.
    set (r1 := advance_write r (S m)) in *.
    assert (Hat1 : Z.to_nat (r_buffer r1) = (Z.to_nat (r_buffer r) + 512)%nat) by (simpl; lia).
    destruct (write_sector_run K c r0 b x r1 (Some write_intr_) d1 s drive lba (Z.of_nat (S m)) Hc Hr Hx Hb)
      as (d2 & bz & Hsec & Hv2); [by rewrite Hv1..|lia|rewrite Hat1; lia|].
    rewrite Hsec in Hirq. rewrite Hat1 in Hv2.
    destruct (IH r1 d2 (lba + 1)) as (s1 & d3 & r' & Hrun & Hlast & Hb' & Hn' & Hw' & Hs'); try done.
    + lia.
    + rewrite Hv2. simpl. f_equal. lia.
    + simpl. lia.
    + rewrite Hat1. lia.
    + exists s1, d3, r'. cbn [hd_irqs store_sectors]. rewrite (bind_Ok _ _ _ _ _ Hirq). split; [exact Hrun|].
      split; [exact Hlast|]. rewrite Hb', Hn', Hw', Hs', Hat1, Hv2. do 3 (split; [done|]). simpl.
      rewrite Hv1, drop_drop. done.
Qed.

(** The controller asks for the first sector and gets it. *)
Lemma write_start s c r b x drive lba m :
  hd_request s c r b x drive lba (S m) → r_cmd r = WRITE →
  reset (sys_drv s) = 0 → recalibrate (sys_drv s) = 0 → (busy (view (sys_dev s)) < 9999)%nat →
  ∃ d, do_hd_request s = Ok tt (at_hd (set_req c r (sys_k s)) (Some write_intr_) d s) ∧
    job (view d) = Writing drive (lba + 1) (Z.of_nat m) ∧
    sectors (view d) = <[(drive, lba) := slice (Z.to_nat (r_buffer r)) 512 (b_data x)]> (sectors (view (sys_dev s))).
Proof.
  intros H Hcmd Hreset Hrecal Hbusy.
  destruct (hd_request_once_issue s c r b x drive lba (S m) H Hreset Hrecal) as (i & Hi & Hgeo & Bdr & Blba & Honce).
  destruct H as [Hc Hr _ Hb Hx _ _ Hbn [Hat Hroom] _ _ _].
  destruct (hd_out_command s drive lba (S m) ((lba / hi_sect i) mod hi_head i) write_intr_ i WIN_WRITE)
    as (d & v & Hout & Hv & Hsecs & Hdrive & Hcount & Hlba); try done.
  destruct (out_write d) as (bz & Hbz & Hcmdv). rewrite Hv, Hdrive, Hcount, Hlba in Hcmdv.
  set (d1 := port_out (HD_DATA + 7) (u8 WIN_WRITE) d) in *. change (port_out (HD_DATA + 7) WIN_WRITE d) with d1 in Hcmdv.
  set (K := sys_k s) in *. set (s0 := at_hd (set_req c r K) (Some write_intr_) d1 s).
  destruct (wait_drq_run 3000 s0 drive lba (Z.of_nat (S m))) as (q & d2 & Hdrq & Hq & Hv2);
    [simpl; by rewrite Hcmdv|simpl; by rewrite Hcmdv|lia|]. simpl in Hv2.
  destruct (write_sector_run K c r b x r (Some write_intr_) d2 s drive lba (Z.of_nat (S m)) Hc Hr Hx Hb)
    as (d3 & bz3 & Hsec & Hv3); [by rewrite Hv2, ?Hcmdv..|lia|lia|].
  assert (Hissue : hd_request_once s = Ok false (at_hd (set_req c r K) (Some write_intr_) d3 s)).
  { rewrite Honce. unfold issue. rewrite Hcmd. change (WRITE =? WRITE) with true. cbn iota.
    rewrite (bind_Ok _ _ _ _ _ Hout).
    assert (Hs0 : with_dev d1 s <| sys_drv ::= λ x, x <| do_hd := Some write_intr_ |> |> = s0)
      by (unfold s0; by rewrite (set_req_same c r K Hr)).
    rewrite Hs0, (bind_Ok _ _ _ _ _ Hdrq). apply truth_true in Hq. rewrite Hq. cbn [negb].
    by rewrite (bind_Ok _ _ _ _ _ Hsec). }
  exists d3. split; [|split].
  - unfold do_hd_request. cbn [hd_request_loop]. by rewrite (bind_Ok _ _ _ _ _ Hissue).
  - rewrite Hv3. simpl. f_equal. lia.
  - rewrite Hv3, Hv2, Hcmdv. simpl. by rewrite Hsecs.
Qed.

(** C18: writing.  As for reading, with the data the other way: at the [n]-th
    interrupt after do_hd_request the [n] sectors of the drive hold the bytes of
    the buffer, what sectors_from reads back, every other sector of the drives
    is as it was, and the buffer is up to date and unlocked. *)
Theorem hd_write_correct s c r b x drive lba n :
  hd_request s c r b x drive lba n → r_cmd r = WRITE →
  reset (sys_drv s) = 0 → recalibrate (sys_drv s) = 0 →
  (busy (view (sys_dev s)) < 9999)%nat → waiters_ok (sys_k s) r x →
  ∃ s1 s2 s3, do_hd_request s = Ok tt s1 ∧ hd_irqs (n - 1) s1 = Ok tt s2 ∧ hd_irq s2 = do_hd_request s3 ∧
    finished 3 (sys_k s) (sys_k s3) c r b (ended_buffer 1 x) ∧
    sectors_from (view (sys_dev s3)) drive lba n = slice (Z.to_nat (r_buffer r)) (512 * n) (b_data x) ∧
    ∀ dr k, dr ≠ drive ∨ k < lba ∨ lba + Z.of_nat n ≤ k →
      sector_of (view (sys_dev s3)) dr k = sector_of (view (sys_dev s)) dr k.
Proof.
  intros H Hcmd Hreset Hrecal Hbusy Hw. pose proof H as [Hc Hr _ Hb Hx _ Hn Hbn [Hat Hroom] _ _ _].
  destruct n as [|m]; [lia|]. set (K := sys_k s) in *.
  destruct (write_start s c r b x drive lba m H Hcmd Hreset Hrecal Hbusy) as (d & Hstart & Hjob & Hsecs).
  destruct (write_irqs K c r b x drive s m r d (lba + 1)) as (s1 & d' & r' & Hrun & Hlast & Hb' & Hn' & Hw' & Hs');
    try done; [lia|lia|].
  rewrite <-(set_buf_same b x K Hx) in Hlast.
  destruct (done_then_request_run K c r r' b x x d' s Hc Hr Hx (eq_trans Hb' Hb) Hn' Hw' eq_refl Hw)
    as (s3 & Hs3 & Hfin & Hdev). rewrite Hs3 in Hlast.
  exists (at_hd (set_req c r K) (Some write_intr_) d s), s1, s3.
  rewrite Nat.sub_1_r. cbn [Nat.pred]. do 4 (split; [done|]).
  assert (Hall : sectors (view d') =
    store_sectors (sectors (view (sys_dev s))) drive lba (drop (Z.to_nat (r_buffer r)) (b_data x)) (S m)).
  { rewrite Hs', Hsecs. cbn [store_sectors]. by rewrite drop_drop. }
  rewrite Hdev. split.
  - set (v0 := view (sys_dev s)) in *.
    rewrite (sectors_from_ext (v0 <| sectors := sectors (view d') |>)) by done. rewrite Hall. apply store_sectors_from.
    rewrite length_drop. lia.
  - intros dr k Hk. unfold sector_of. rewrite Hall. by rewrite store_sectors_other.
Qed.

(** ** Failures *)

(** The state of the controller when a handler starts. *)
Definition irq_dev (d : D) : D := port_out 0x20 (u8 0x20) (port_out 0xA0 (u8 0x20) d).
Definition failed (d : D) : Prop := Z.land (port_in HD_STATUS d).1 status_bits ≠ Z.lor READY_STAT SEEK_STAT.

Lemma win_result_failed s : failed (sys_dev s) → ∃ d, win_result s = Ok 1 (with_dev d s).
Proof.
  intros Hf. unfold win_result. rewrite (bind_Ok _ _ _ _ _ (inp_status_run s)). fold status_bits.
  apply Z.eqb_neq in Hf. rewrite Hf. destruct (truth _); by eexists.
Qed.
Lemma current_errors_run s c r :
  first_is 3 (sys_k s) c → req_is (sys_k s) c r → current_errors 3 s = Ok (r_errors r) s.
Proof.
  intros (q & Hq & Hc) Hr. unfold current_errors.
  assert (Hdev : zoom sys_k (blk_dev_at 3) s = Ok q s)
    by (apply zoom_k_same; unfold blk_dev_at, get; mred; by rewrite Hq).
  rewrite (bind_Ok _ _ _ _ _ Hdev), Hc.
  by rewrite (bind_Ok _ _ _ _ _ (zoom_k_same _ s _ (request_at_run _ _ _ Hr))).
Qed.
(** ... through whatever is the first request now. *)
Lemma current_errors_next s q :
  zlookup (blk_dev (k_blk (sys_k s))) 3 = Some q →
  (∀ c, current_request q = Some c → is_Some (request (k_blk (sys_k s)) !! c)) → ∃ e, current_errors 3 s = Ok e s.
Proof.
  intros Hq Hnext. destruct (current_request q) as [c|] eqn:Hc.
  - destruct (Hnext c eq_refl) as [r Hr]. exists (r_errors r). apply (current_errors_run s c r); [by exists q|done].
  - eexists. unfold current_errors.
    assert (Hdev : zoom sys_k (blk_dev_at 3) s = Ok q s)
      by (apply zoom_k_same; unfold blk_dev_at, get; mred; by rewrite Hq).
    rewrite (bind_Ok _ _ _ _ _ Hdev), Hc. destruct s as [[] ? ?]. done.
Qed.

(** bad_rw_intr while the request has errors left. *)
Lemma bad_rw_intr_retry s c r :
  first_is 3 (sys_k s) c → req_is (sys_k s) c r → 0 ≤ r_errors r → r_errors r + 1 < MAX_ERRORS →
  bad_rw_intr s = Ok tt (s <| sys_k := set_req c (r <| r_errors := r_errors r + 1 |>) (sys_k s) |>
    <| sys_drv := if MAX_ERRORS / 2 <? r_errors r + 1 then sys_drv s <| reset := 1 |> else sys_drv s |>).
Proof.
  intros Hc Hr He0 He. unfold bad_rw_intr. rewrite (bind_Ok _ _ _ _ _ (upd_current_run 3 _ s c r Hc Hr)).
  assert (Hs : r <| r_errors ::= λ e, s32 (e + 1) |> = r <| r_errors := r_errors r + 1 |>).
  { unfold set. by rewrite s32_small by (unfold MAX_ERRORS in He; lia). }
  rewrite Hs. set (r1 := r <| r_errors := r_errors r + 1 |>). set (s1 := s <| sys_k := set_req c r1 (sys_k s) |>).
  assert (Hr1 : req_is (sys_k s1) c r1) by by apply (req_is_set c r).
  rewrite (bind_Ok _ _ _ _ _ (current_req_run 3 s1 c r1 Hc Hr1)).
  change (r_errors r1) with (r_errors r + 1). rewrite (proj2 (Z.leb_gt _ _) He).
  rewrite (bind_Ok _ _ s1 tt s1) by done. rewrite (bind_Ok _ _ _ _ _ (current_errors_run s1 c r1 Hc Hr1)).
  change (r_errors r1) with (r_errors r + 1). destruct (MAX_ERRORS / 2 <? r_errors r + 1); [done|].
  unfold when. by destruct s.
Qed.

(** The last error: the request is given up. *)
Lemma bad_rw_intr_give_up s c r b x :
  first_is 3 (sys_k s) c → req_is (sys_k s) c r → r_errors r + 1 = MAX_ERRORS → r_bh r = Some b →
  buf_is (sys_k s) b x → waiters_ok (sys_k s) r x →
  (∀ c', r_next r = Some c' → is_Some (request (k_blk (sys_k s)) !! c')) →
  ∃ s', bad_rw_intr s = Ok tt s' ∧ finished 3 (sys_k s) (sys_k s') c r b (ended_buffer 0 x).
Proof.
  intros Hc Hr He Hb Hx Hw Hnext. unfold bad_rw_intr. rewrite (bind_Ok _ _ _ _ _ (upd_current_run 3 _ s c r Hc Hr)).
  set (r1 := r <| r_errors ::= λ e, s32 (e + 1) |>). set (s1 := s <| sys_k := set_req c r1 (sys_k s) |>).
  assert (He1 : r_errors r1 = MAX_ERRORS) by (simpl; rewrite He; done).
  assert (Hr1 : req_is (sys_k s1) c r1) by by apply (req_is_set c r).
  rewrite (bind_Ok _ _ _ _ _ (current_req_run 3 s1 c r1 Hc Hr1)), He1, Z.leb_refl.
  destruct (end_request_finished 3 0 (sys_k s) c r r1 b x x Hc Hr Hx Hb eq_refl eq_refl eq_refl Hw) as (K' & Hrun & Hfin).
  rewrite (set_buf_same b x (sys_k s) Hx) in Hrun. set (s2 := s1 <| sys_k := K' |>).
  assert (Hend : when true (zoom sys_k (end_request 3 0)) s1 = Ok tt s2) by (by apply zoom_k).
  rewrite (bind_Ok _ _ _ _ _ Hend). destruct Hfin as [(r' & Hreq & Hr') (q & Hq & Hqn) Hbuf].
  destruct (current_errors_next s2 q Hq) as [e Herr].
  { intros c' Hc'. change (is_Some (request (k_blk K') !! c')). rewrite Hreq.
    destruct (decide (c' = c)) as [->|Hne].
    - rewrite list_lookup_insert_eq by by eapply lookup_lt_Some. done.
    - rewrite list_lookup_insert_ne by done. apply Hnext. congruence. }
  rewrite (bind_Ok _ _ _ _ _ Herr). destruct (MAX_ERRORS / 2 <? e); (eexists; split; [done|]); split; by eauto.
Qed.

(** C20: errors.  When the status says that the command failed, the interrupt
    counts an error for the first request and starts it again; with more than
    MAX_ERRORS/2 of them the controller is to be reset first.  At the
    MAX_ERRORS-th the request is given up: its buffer is unlocked and not up to
    date, and the driver goes on with the next one. *)
Theorem hd_interrupt_error s c r b x h :
  do_hd (sys_drv s) = Some h → failed (irq_dev (sys_dev s)) →
  first_is 3 (sys_k s) c → req_is (sys_k s) c r → 0 ≤ r_errors r < MAX_ERRORS → r_bh r = Some b →
  buf_is (sys_k s) b x → waiters_ok (sys_k s) r x →
  (∀ c', r_next r = Some c' → is_Some (request (k_blk (sys_k s)) !! c')) →
  ∃ s', hd_interrupt s = do_hd_request s' ∧
    if r_errors r + 1 =? MAX_ERRORS then finished 3 (sys_k s) (sys_k s') c r b (ended_buffer 0 x)
    else sys_k s' = set_req c (r <| r_errors := r_errors r + 1 |>) (sys_k s) ∧
      reset (sys_drv s') = if MAX_ERRORS / 2 <? r_errors r + 1 then 1 else reset (sys_drv s).
Proof.
  intros Hh Hf Hc Hr He Hb Hx Hw Hnext.
  set (s1 := at_hd (sys_k s) None (irq_dev (sys_dev s)) s).
  destruct (win_result_failed s1 Hf) as [d Hwin]. set (s2 := with_dev d s1) in *.
  assert (Hgo : hd_interrupt s = (bad_rw_intr ;; do_hd_request) s2).
  { transitivity (run_handler h s1).
    - destruct s as [K H d0]. simpl in Hh. unfold hd_interrupt. unfold drv, get. mred. simpl. rewrite Hh. by destruct h.
    - destruct h; cbn [run_handler].
      all: unfold read_intr, write_intr, recal_intr; by rewrite (bind_Ok _ _ _ _ _ Hwin). }
  rewrite Hgo. destruct (Z.eqb_spec (r_errors r + 1) MAX_ERRORS) as [Hlast|Hmore].
  - destruct (bad_rw_intr_give_up s2 c r b x Hc Hr Hlast Hb Hx Hw Hnext) as (s' & Hrun & Hfin).
    exists s'. by rewrite (bind_Ok _ _ _ _ _ Hrun).
  - pose proof (bad_rw_intr_retry s2 c r Hc Hr ltac:(lia) ltac:(lia)) as Hrun.
    eexists. rewrite (bind_Ok _ _ _ _ _ Hrun). split; [done|]. split; [done|]. simpl. by destruct (_ <? _).
Qed.
End Transfer.
