(* ===== verification/Floppy.v ===== *)
(** * kernel/blk_drv/floppy.c: the floppy driver

    The controller is the device of [Ports]; the motors, the timers and the
    drive select are in sched.c, whose state is [Sched].  do_fd_request calls
    routines that call it again after a failed command: they take it as their
    argument [again], and the knot is tied at the end, where two levels are
    enough ([FloppyLive]).  The static variables head, sector, track, reset, ...
    have the prefix fd_. *)

From stdpp Require Import base option list gmap strings.
From Stdlib Require Import ZArith.
From S2P Require Import Prelude Types Memory Sched Kernel Blk Ports.
Local Open Scope Z_scope.

(** ** fdreg.h *)
Definition FD_STATUS : Z := 0x3f4.
Definition FD_DATA : Z := 0x3f5.
Definition FD_DIR : Z := 0x3f7.
Definition FD_DCR : Z := 0x3f7.
Definition STATUS_BUSY : Z := 0x10.
Definition STATUS_DIR : Z := 0x40.
Definition STATUS_READY : Z := 0x80.
Definition FD_RECALIBRATE : Z := 0x07.
Definition FD_SEEK : Z := 0x0F.
Definition FD_READ : Z := 0xE6.
Definition FD_WRITE : Z := 0xC5.
Definition FD_SENSEI : Z := 0x08.
Definition FD_SPECIFY : Z := 0x03.
Definition DMA_READ : Z := 0x46.
Definition DMA_WRITE : Z := 0x4A.

(** ** The state of the driver *)
Definition MAX_ERRORS : Z := 8.
Definition MAX_REPLIES : Z := 7.
Record floppy_struct := mk_floppy {
  f_size : Z; f_sect : Z; f_head : Z; f_track : Z; f_stretch : Z; f_gap : Z; f_rate : Z; f_spec1 : Z
}.
Definition floppy_type : list floppy_struct := [
  mk_floppy    0  0 0  0 0 0x00 0x00 0x00;
  mk_floppy  720  9 2 40 0 0x2A 0x02 0xDF;
  mk_floppy 2400 15 2 80 0 0x1B 0x00 0xDF;
  mk_floppy  720  9 2 40 1 0x2A 0x02 0xDF;
  mk_floppy 1440  9 2 80 0 0x2A 0x02 0xDF;
  mk_floppy  720  9 2 40 1 0x23 0x01 0xDF;
  mk_floppy 1440  9 2 80 0 0x23 0x01 0xDF;
  mk_floppy 2880 18 2 80 0 0x1B 0x00 0xCF
].

(** The values of do_floppy. *)
Inductive floppy_handler := rw_interrupt_ | seek_interrupt_ | recal_interrupt_ | reset_interrupt_.

Record fd_state := mk_fd_state {
  fd_recalibrate : Z; fd_reset : Z; fd_seek : Z;
  reply_buffer : list Z;             (* [MAX_REPLIES] *)
  cur_spec1 : Z; cur_rate : Z;
  floppy : Z;                        (* an index of floppy_type *)
  current_drive : Z; fd_sector : Z; fd_head : Z; fd_track : Z;
  seek_track : Z; current_track : Z; command : Z;
  do_floppy : option floppy_handler;
  tmp_floppy_area : list Z           (* [1024] *)
}.
#[export] Instance eta_fd_state : Eta fd_state := fun s =>
  mk_fd_state (fd_recalibrate s) (fd_reset s) (fd_seek s) (reply_buffer s) (cur_spec1 s) (cur_rate s) (floppy s)
    (current_drive s) (fd_sector s) (fd_head s) (fd_track s) (seek_track s) (current_track s) (command s)
    (do_floppy s) (tmp_floppy_area s).
Definition boot_fd : fd_state :=
  mk_fd_state 0 0 0 (replicate 7 0) (-1) (-1) 0 0 0 0 0 0 255 0 None (replicate 1024 0).
Notation fd_system := (io_system fd_state).

(** The functions of the driver that timers call, as values of timer_list[].fn. *)
Definition transfer_fn : Z := 1.
Definition floppy_on_interrupt_fn : Z := 2.

(** Where buffer_init put the data of the buffers, and the linker
    tmp_floppy_area: the DMA chip needs physical addresses. *)
Class Addresses := { buffer_addr : nat → Z; tmp_floppy_addr : Z }.

Section Fd.
Context {D : Type} {Ctl : Controller D} {A : Addresses}.
Local Notation kern m := (zoom sys_k m).
Local Notation sch m := (zoom sys_k (zoom k_sched m)).
Local Notation FD := (M (fd_system D)).

Definition reply (i : Z) : FD Z := d ← drv; deref (zlookup (reply_buffer d) i).
(** [*floppy]; beyond the table there is no floppy_struct. *)
Definition cur_floppy : FD floppy_struct := d ← drv; deref (zlookup floppy_type (floppy d)).
Definition get_sched : FD sched_state := sch get.

Definition floppy_deselect (nr : Z) : FD unit :=
  s ← get_sched;
  when (negb (nr =? Z.land (current_DOR s) 3)) (printk "floppy_deselect: drive not selected\n\r") ;;
  sch (modify (λ s, s <| selected := 0 |>)) ;;
  kern (wake_up wait_on_floppy_select_q).

(** [(unsigned long)(CURRENT->buffer)] *)
Definition request_addr : FD Z := r ← current_req 2; b ← deref (r_bh r); mret (buffer_addr b + r_buffer r).
(** [copy_buffer(CURRENT->buffer,tmp_floppy_area)] and back. *)
Definition copy_to_tmp : FD unit :=
  r ← current_req 2; b ← deref (r_bh r); x ← kern (bh b);
  set_drv (λ d, d <| tmp_floppy_area := slice (Z.to_nat (r_buffer r)) 1024 (b_data x) |>).
Definition copy_from_tmp : FD unit :=
  r ← current_req 2; b ← deref (r_bh r); d ← drv;
  kern (set_bh b (λ x, x <| b_data ::= splice (Z.to_nat (r_buffer r)) (tmp_floppy_area d) |>)).

Definition setup_DMA : FD unit :=
  addr ← request_addr;
  d ← drv;
  addr ← (if 0x100000 <=? addr then
            when (command d =? FD_WRITE) copy_to_tmp ;; mret tmp_floppy_addr
          else mret addr);
  outp (Z.lor 4 2) 10 ;;
  let cmd := if command d =? FD_READ then DMA_READ else DMA_WRITE in
  outp cmd 12 ;;
  outp cmd 11 ;;
  outp addr 4 ;;
  let addr := Z.shiftr addr 8 in
  outp addr 4 ;;
  let addr := Z.shiftr addr 8 in
  outp addr 0x81 ;;
  outp 0xff 5 ;;
  outp 3 5 ;;
  outp (Z.lor 0 2) 10.

(** ** Bytes to and from the controller *)
Fixpoint send_loop (n : nat) (byte : Z) : FD unit :=
  match n with
  | O =>
      set_drv (λ d, d <| fd_reset := 1 |>) ;;
      printk "Unable to send byte to FDC\n\r"
  | S n =>
      st ← inp FD_STATUS;
      if Z.land st (Z.lor STATUS_READY STATUS_DIR) =? STATUS_READY then outp byte FD_DATA else send_loop n byte
  end.
Definition output_byte (byte : Z) : FD unit :=
  d ← drv;
  if truth (fd_reset d) then mret tt else send_loop (Z.to_nat 10000) byte.

Definition result_fails : FD Z :=
  set_drv (λ d, d <| fd_reset := 1 |>) ;;
  printk "Getstatus times out\n\r" ;;
  mret (-1).
Fixpoint result_loop (n : nat) (i : Z) : FD Z :=
  match n with
  | O => result_fails
  | S n =>
      st ← inp FD_STATUS;
      let status := Z.land st (Z.lor STATUS_DIR (Z.lor STATUS_READY STATUS_BUSY)) in
      if status =? STATUS_READY then mret i else
      if status =? Z.lor STATUS_DIR (Z.lor STATUS_READY STATUS_BUSY) then
        if MAX_REPLIES <=? i then result_fails else
        b ← inp FD_DATA;
        set_drv (λ d, d <| reply_buffer ::= zinsert i b |>) ;;
        result_loop n (i + 1)
      else result_loop n i
  end.
Definition result_ : FD Z :=
  d ← drv;
  if truth (fd_reset d) then mret (-1) else result_loop (Z.to_nat 10000) 0.

Definition bad_flp_intr : FD unit :=
  upd_current 2 (λ r, r <| r_errors ::= λ e, s32 (e + 1) |>) ;;
  r ← current_req 2;
  when (MAX_ERRORS <? r_errors r) (
    d ← drv;
    floppy_deselect (current_drive d) ;;
    kern (end_request 2 0)) ;;
  e ← current_errors 2;
  if MAX_ERRORS / 2 <? e then set_drv (λ d, d <| fd_reset := 1 |>)
  else set_drv (λ d, d <| fd_recalibrate := 1 |>).

Definition reset_floppy : FD unit :=
  set_drv (λ d, d <| fd_reset := 0 |> <| cur_spec1 := -1 |> <| cur_rate := -1 |> <| fd_recalibrate := 1 |>) ;;
  printk "Reset-floppy called\n\r" ;;
  set_drv (λ d, d <| do_floppy := Some reset_interrupt_ |>) ;;
  s ← get_sched;
  sch (outb_dor (u8 (Z.land (current_DOR s) (Z.lnot 0x04)))) ;;
  sch (outb_dor (current_DOR s)).

Definition unexpected_floppy_interrupt : FD unit :=
  output_byte FD_SENSEI ;;
  n ← result_;
  st0 ← reply 0;
  if negb (n =? 2) || (Z.land st0 0xE0 =? 0x60)
  then set_drv (λ d, d <| fd_reset := 1 |>)
  else set_drv (λ d, d <| fd_recalibrate := 1 |>).

(** ** Routines that go on with do_fd_request *)
Section Again.
Variable again : FD unit.
Local Notation again_if_reset := (d ← drv; when (truth (fd_reset d)) again).

Definition rw_interrupt : FD unit :=
  n ← result_;
  st0 ← reply 0; st1 ← reply 1; st2 ← reply 2;
  if negb (n =? 7) || has st0 0xf8 || has st1 0xbf || has st2 0x73 then
    (if has st1 0x02 then
       printk "Drive %d is write protected\n\r" ;;
       d ← drv;
       floppy_deselect (current_drive d) ;;
       kern (end_request 2 0)
     else bad_flp_intr) ;;
    again
  else
    d ← drv;
    when (command d =? FD_READ) (addr ← request_addr; when (0x100000 <=? addr) copy_from_tmp) ;;
    floppy_deselect (current_drive d) ;;
    kern (end_request 2 1) ;;
    again.

Definition setup_rw_floppy : FD unit :=
  setup_DMA ;;
  set_drv (λ d, d <| do_floppy := Some rw_interrupt_ |>) ;;
  d ← drv;
  f ← cur_floppy;
  output_byte (command d) ;;
  output_byte (Z.lor (Z.shiftl (fd_head d) 2) (current_drive d)) ;;
  output_byte (fd_track d) ;;
  output_byte (fd_head d) ;;
  output_byte (fd_sector d) ;;
  output_byte 2 ;;
  output_byte (f_sect f) ;;
  output_byte (f_gap f) ;;
  output_byte 0xFF ;;
  again_if_reset.

Definition seek_interrupt : FD unit :=
  output_byte FD_SENSEI ;;
  n ← result_;
  st0 ← reply 0; st1 ← reply 1;
  d ← drv;
  if negb (n =? 2) || negb (Z.land st0 0xF8 =? 0x20) || negb (st1 =? seek_track d) then
    bad_flp_intr ;;
    again
  else
    set_drv (λ d, d <| current_track := st1 |>) ;;
    setup_rw_floppy.

Definition transfer : FD unit :=
  f ← cur_floppy;
  d ← drv;
  when (negb (cur_spec1 d =? f_spec1 f)) (
    set_drv (λ d, d <| cur_spec1 := f_spec1 f |>) ;;
    output_byte FD_SPECIFY ;;
    output_byte (f_spec1 f) ;;
    output_byte 6) ;;
  when (negb (cur_rate d =? f_rate f)) (
    set_drv (λ d, d <| cur_rate := f_rate f |>) ;;
    outp (f_rate f) FD_DCR) ;;
  d ← drv;
  if truth (fd_reset d) then again else
  if negb (truth (fd_seek d)) then setup_rw_floppy else
  set_drv (λ d, d <| do_floppy := Some seek_interrupt_ |>) ;;
  (if truth (seek_track d) then
     output_byte FD_SEEK ;;
     output_byte (Z.lor (Z.shiftl (fd_head d) 2) (current_drive d)) ;;
     output_byte (seek_track d)
   else
     output_byte FD_RECALIBRATE ;;
     output_byte (Z.lor (Z.shiftl (fd_head d) 2) (current_drive d))) ;;
  again_if_reset.

Definition recal_interrupt : FD unit :=
  output_byte FD_SENSEI ;;
  n ← result_;
  st0 ← reply 0;
  (if negb (n =? 2) || (Z.land st0 0xE0 =? 0x60)
   then set_drv (λ d, d <| fd_reset := 1 |>)
   else set_drv (λ d, d <| fd_recalibrate := 0 |>)) ;;
  again.

Definition recalibrate_floppy : FD unit :=
  set_drv (λ d, d <| fd_recalibrate := 0 |> <| current_track := 0 |> <| do_floppy := Some recal_interrupt_ |>) ;;
  output_byte FD_RECALIBRATE ;;
  d ← drv;
  output_byte (Z.lor (Z.shiftl (fd_head d) 2) (current_drive d)) ;;
  again_if_reset.

Definition reset_interrupt : FD unit :=
  output_byte FD_SENSEI ;;
  result_ ;;
  output_byte FD_SPECIFY ;;
  d ← drv;
  output_byte (cur_spec1 d) ;;
  output_byte 6 ;;
  again.

(** [add_timer(jif,fn)] for a function of this driver, which is called at once
    when no time is left. *)
Definition fd_add_timer (jif fn : Z) (call : FD unit) : FD unit :=
  if jif <=? 0 then call else sch (add_timer (λ _, mret tt) jif fn).

Definition floppy_on_interrupt : FD unit :=
  sch (modify (λ s, s <| selected := 1 |>)) ;;
  d ← drv;
  s ← get_sched;
  if negb (current_drive d =? Z.land (current_DOR s) 3) then
    let dor := Z.lor (Z.land (current_DOR s) 0xFC) (current_drive d) in
    sch (modify (λ s, s <| current_DOR := dor |>)) ;;
    sch (outb_dor dor) ;;
    fd_add_timer 2 transfer_fn transfer
  else transfer.

(** From [repeat:] on; [true] for [goto repeat]. *)
Definition fd_request_once : FD bool :=
  q ← kern (init_request 2);
  match q with
  | None => mret false
  | Some r =>
      let dev := Z.land (r_dev r) 3 in
      set_drv (λ d, d <| floppy := Z.shiftr (MINOR (r_dev r)) 2 |>) ;;
      f ← cur_floppy;
      set_drv (λ d, d <| fd_seek := if negb (current_drive d =? dev) then 1 else fd_seek d |> <| current_drive := dev |>) ;;
      let block := r_sector r in
      if f_size f <? u32 (block + 2) then kern (end_request 2 0) ;; mret true else
      (if (f_sect f =? 0) || (f_head f =? 0) then fault else mret tt) ;;
      let sector := u8 (block mod f_sect f) in
      let block := block / f_sect f in
      let track := u8 (block / f_head f) in
      let strack := u8 (Z.shiftl track (f_stretch f)) in
      set_drv (λ d, d <| fd_head := u8 (block mod f_head f) |> <| fd_track := track |> <| seek_track := strack |>
        <| fd_seek := if negb (strack =? current_track d) then 1 else fd_seek d |> <| fd_sector := u8 (sector + 1) |>) ;;
      (if r_cmd r =? READ then set_drv (λ d, d <| command := FD_READ |>)
       else if r_cmd r =? WRITE then set_drv (λ d, d <| command := FD_WRITE |>)
       else panic "do_fd_request: unknown command") ;;
      ticks ← sch (ticks_to_floppy_on dev);
      fd_add_timer ticks floppy_on_interrupt_fn floppy_on_interrupt ;;
      mret false
  end.
Fixpoint fd_request_loop (fuel : nat) : FD unit :=
  match fuel with
  | O => no_fuel
  | S fuel => r ← fd_request_once; if r : bool then fd_request_loop fuel else mret tt
  end.
(** A round that is repeated takes a request off the queue. *)
Definition fd_request : FD unit :=
  set_drv (λ d, d <| fd_seek := 0 |>) ;;
  d ← drv;
  if truth (fd_reset d) then reset_floppy else
  if truth (fd_recalibrate d) then recalibrate_floppy else
  fd_request_loop (S NR_REQUEST).
End Again.

(** do_fd_request calls itself after a failed command only, and then resets the
    controller. *)
Definition do_fd_request : FD unit := fd_request (fd_request no_fuel).

(** system_call.s: the handler is taken out of do_floppy and called. *)
Definition floppy_interrupt : FD unit :=
  outp 0x20 0x20 ;;
  d ← drv;
  set_drv (λ d, d <| do_floppy := None |>) ;;
  match do_floppy d with
  | None => unexpected_floppy_interrupt
  | Some rw_interrupt_ => rw_interrupt do_fd_request
  | Some seek_interrupt_ => seek_interrupt do_fd_request
  | Some recal_interrupt_ => recal_interrupt do_fd_request
  | Some reset_interrupt_ => reset_interrupt do_fd_request
  end.
(** What do_timer calls when a timer of the driver expires. *)
Definition floppy_timer (fn : Z) : FD unit :=
  if fn =? transfer_fn then transfer do_fd_request else
  if fn =? floppy_on_interrupt_fn then floppy_on_interrupt do_fd_request else fault.

Definition floppy_init {L : Linked} : FD unit :=
  kern (upd_blk_dev 2 (λ d, d <| request_fn := Some do_fd_request_fn |>)) ;;
  sch (set_trap_gate 0x26 floppy_interrupt_) ;;
  mask_port (Z.lnot 0x40) 0x21.

(** ** The disk-change line, asked for by tasks *)
Section Change.
Context {E : Env}.

(** sched.c; the task sleeps until the motor runs. *)
Fixpoint floppy_on_loop (fuel : nat) (nr : Z) : M kernel unit :=
  match fuel with
  | O => no_fuel
  | S fuel =>
      ticks ← zoom k_sched (ticks_to_floppy_on nr);
      if truth ticks then sleep_on (wait_motor_of nr) ;; floppy_on_loop fuel nr else mret tt
  end.
Definition floppy_on (nr : Z) : M kernel unit := floppy_on_loop patience nr.

(** [while ((current_DOR & 3) != nr && selected) ...] *)
Fixpoint select_wait (fuel : nat) (nr : Z) : M kernel unit :=
  match fuel with
  | O => no_fuel
  | S fuel =>
      s ← zoom k_sched get;
      if negb (Z.land (current_DOR s) 3 =? nr) && truth (selected s)
      then interruptible_sleep_on wait_on_floppy_select_q ;; select_wait fuel nr else mret tt
  end.
Fixpoint floppy_change_loop (fuel : nat) (nr : Z) : FD Z :=
  match fuel with
  | O => no_fuel
  | S fuel =>
      kern (floppy_on nr) ;;
      kern (select_wait patience nr) ;;
      s ← get_sched;
      if negb (Z.land (current_DOR s) 3 =? nr) then floppy_change_loop fuel nr else
      b ← inp FD_DIR;
      sch (floppy_off nr) ;;
      mret (if has b 0x80 then 1 else 0)
  end.
Definition floppy_change (nr : Z) : FD Z := floppy_change_loop patience nr.
End Change.
End Fd.
