(* ===== verification/FloppyLive.v ===== *)
(** * The floppy driver ends, and strands no request

    At the end of the file: whatever the driver does to the timers, it adds to
    them. *)

From stdpp Require Import base option list gmap strings.
From Stdlib Require Import ZArith Lia.
From S2P Require Import Prelude Types Memory Sched SchedProofs TimerProofs Kernel Blk BlkProofs Ports RequestLive Floppy.
Local Open Scope Z_scope.
Notation fd_queue := (req_queue 2 (MAX_ERRORS + 1)).

Section Live.
Context {D : Type} {Ctl : Controller D} {A : Addresses}.
Implicit Types s : fd_system D.
Local Notation FD := (M (fd_system D)).

(** A timer of the list calls this driver. *)
Definition fd_timer_set s : Prop :=
  ∃ t, t ∈ timer_list (k_sched (sys_k s)) ∧ (t_fn t = transfer_fn ∨ t_fn t = floppy_on_interrupt_fn).
(** While requests are queued, an interrupt or a timer of the driver is to come. *)
Definition fd_waits s : Prop := do_floppy (sys_drv s) ≠ None ∨ fd_timer_set s.
(** The queue and the timer list are well formed. *)
Definition fd_ok (l : list nat) s : Prop := fd_queue l (sys_k s) ∧ ∃ tl, timers_wf (k_sched (sys_k s)) tl.
Definition fd_live s : Prop := ∃ l, fd_ok l s ∧ (l ≠ [] → fd_waits s).

(** ** Steps that leave the queue and the handler alone *)
Definition unmoved s s' : Prop :=
  same_reqs (sys_k s) (sys_k s') ∧ same_timers (k_sched (sys_k s)) (k_sched (sys_k s')) ∧
  do_floppy (sys_drv s') = do_floppy (sys_drv s).
Lemma unmoved_trans s1 s2 s3 : unmoved s1 s2 → unmoved s2 s3 → unmoved s1 s3.
Proof. intros ([? ?] & [? ?] & ?) ([? ?] & [? ?] & ?). repeat split; congruence. Qed.
Lemma timers_wf_same t t' l : same_timers t t' → timers_wf t l → timers_wf t' l.
Proof. intros [E1 E2] [H1 H2 H3 H4]. split; by rewrite ?E1, ?E2. Qed.
Lemma fd_ok_unmoved l s s' : unmoved s s' → fd_ok l s → fd_ok l s'.
Proof.
  intros (Hr & Ht & _) [Hq [tl Htl]]. split; [by eapply req_queue_same|]. exists tl. by eapply timers_wf_same.
Qed.
Lemma fd_waits_unmoved s s' : unmoved s s' → fd_waits s → fd_waits s'.
Proof. intros (_ & [Ht _] & Hd) [H|H]; [left; by rewrite Hd|right; unfold fd_timer_set; by rewrite Ht]. Qed.

Definition quiet {B} (m : FD B) : Prop :=
  ∀ (Q : B → fd_system D → Prop) s, (∀ a s', unmoved s s' → Q a s') → ends m Q s.

Lemma quiet_io {B} (m : FD B) : RequestLive.io m → quiet m.
Proof.
  intros H Q s HQ. apply H. intros a s' Hk Hd. apply HQ. unfold unmoved, same_reqs, same_timers. by rewrite Hk, Hd.
Qed.
Lemma quiet_bind {B C} (m : FD B) (f : B → FD C) : quiet m → (∀ a, quiet (f a)) → quiet (m ≫= f).
Proof.
  intros Hm Hf Q s H. apply ends_bind, Hm. intros a s1 H1. apply Hf. intros b s2 H2. apply H. by eapply unmoved_trans.
Qed.
Lemma quiet_if {B} (b : bool) (m n : FD B) : quiet m → quiet n → quiet (if b then m else n).
Proof. by destruct b. Qed.
Lemma quiet_ret {B} (a : B) : quiet (mret a). Proof. apply quiet_io, io_ret. Qed.
Lemma quiet_when b (m : FD unit) : quiet m → quiet (when b m).
Proof. intros H. apply quiet_if; [done|apply quiet_ret]. Qed.
Lemma quiet_set_drv f : (∀ d, do_floppy (f d) = do_floppy d) → quiet (set_drv f : FD unit).
Proof. intros Hf Q s H. apply ends_modify, H. split; [done|]. split; [done|]. apply Hf. Qed.
(** Anything the scheduler does that is not of the timers. *)
Lemma quiet_sched {B} (m : M sched_state B) :
  (∀ t, ends m (λ _ t', same_timers t t') t) → quiet (zoom sys_k (zoom k_sched m)).
Proof.
  intros Hm Q s H. apply ends_zoom, ends_zoom. eapply ends_mono; [apply Hm|]. intros a t Ht. by apply H.
Qed.
Lemma quiet_get_sched : quiet get_sched. Proof. apply quiet_sched. intros t. by apply ends_get. Qed.
Lemma quiet_sched_modify f : (∀ t, same_timers t (f t)) → quiet (zoom sys_k (zoom k_sched (modify f))).
Proof. intros Hf. apply quiet_sched. intros t. apply ends_modify, Hf. Qed.
Lemma quiet_dor v : quiet (zoom sys_k (zoom k_sched (outb_dor v))).
Proof. by apply quiet_sched_modify. Qed.
Lemma quiet_ticks nr : quiet (zoom sys_k (zoom k_sched (ticks_to_floppy_on nr))).
Proof.
  apply quiet_sched. intros t. unfold ticks_to_floppy_on. cbv zeta.
  apply ends_bind. destruct (3 <? nr); [apply ends_panic|]. apply ends_ret, ends_bind, ends_modify, ends_bind, ends_get.
  unfold arr_get. apply ends_bind, ends_when; intros _.
  - apply ends_bind, ends_modify, ends_bind, ends_bind, ends_get, ends_deref. intros mon _.
    apply ends_bind. destruct (has _ _); [|apply ends_when; intros _].
    all: repeat apply ends_modify; apply ends_bind, ends_get, ends_deref; done.
  - apply ends_bind, ends_get, ends_deref. done.
Qed.
Lemma quiet_wake_select : quiet (zoom sys_k (wake_up wait_on_floppy_select_q)).
Proof. intros Q s H. apply ends_zoom, ends_wake_up; intros ks Hks; by apply H. Qed.

Lemma quiet_inp p : quiet (inp p). Proof. apply quiet_io, io_inp. Qed.
Lemma quiet_outp v p : quiet (outp v p). Proof. apply quiet_io, io_outp. Qed.
Lemma quiet_drv : quiet drv. Proof. apply quiet_io, io_drv. Qed.
Lemma quiet_deref {B} (o : option B) : quiet (deref o). Proof. apply quiet_io, io_deref. Qed.
Lemma quiet_printk msg : quiet (printk msg). Proof. apply quiet_ret. Qed.
Lemma quiet_fault {B} : quiet (fault : FD B). Proof. apply quiet_io, io_fault. Qed.
Lemma quiet_panic {B} msg : quiet (panic msg : FD B). Proof. apply quiet_io, io_panic. Qed.
Hint Resolve quiet_inp quiet_outp quiet_drv quiet_deref quiet_printk quiet_fault quiet_panic quiet_ret quiet_get_sched
  quiet_dor quiet_ticks quiet_wake_select : quiet.
Hint Extern 1 (quiet (set_drv _)) => apply quiet_set_drv; reflexivity : quiet.
Hint Extern 1 (quiet (zoom sys_k (zoom k_sched (modify _)))) => apply quiet_sched_modify; done : quiet.
Ltac quiet := repeat first [match goal with |- ∀ _, _ => intro end | solve [auto with quiet]
  | apply quiet_bind | apply quiet_if | apply quiet_when].

Lemma quiet_reply i : quiet (reply i). Proof. unfold reply. quiet. Qed.
Lemma quiet_cur_floppy : quiet cur_floppy. Proof. unfold cur_floppy. quiet. Qed.
Lemma quiet_send_loop n b : quiet (send_loop n b).
Proof. induction n as [|n IH]; cbn [send_loop]; quiet. Qed.
Lemma quiet_output_byte b : quiet (output_byte b).
Proof. unfold output_byte. apply quiet_bind; [quiet|]. intros d. apply quiet_if; [quiet|apply quiet_send_loop]. Qed.
Lemma quiet_result_loop n i : quiet (result_loop n i).
Proof. revert i. induction n as [|n IH]; intros i; cbn [result_loop]; unfold result_fails; cbv zeta; quiet. Qed.
Lemma quiet_result : quiet result_.
Proof. unfold result_. apply quiet_bind; [quiet|]. intros d. apply quiet_if; [quiet|apply quiet_result_loop]. Qed.
Lemma quiet_deselect nr : quiet (floppy_deselect nr). Proof. unfold floppy_deselect. quiet. Qed.
Lemma quiet_unexpected : quiet unexpected_floppy_interrupt.
Proof.
  unfold unexpected_floppy_interrupt. apply quiet_bind; [apply quiet_output_byte|]. intros _.
  apply quiet_bind; [apply quiet_result|]. intros n. apply quiet_bind; [apply quiet_reply|]. quiet.
Qed.

(** The request of the transfer is looked at, and its buffer copied. *)
Lemma quiet_current : quiet (current_req 2).
Proof.
  intros Q s H. unfold current_req, CURRENT, blk_dev_at. apply ends_zoom.
  apply ends_bind, ends_bind, ends_bind, ends_get, ends_deref. intros d _. apply ends_deref. intros c _.
  unfold request_at. apply ends_bind, ends_get, ends_deref. intros r _. by apply H.
Qed.
Lemma quiet_bh b : quiet (zoom sys_k (bh b)).
Proof. intros Q s H. apply ends_zoom, ends_bh. intros x _. by apply H. Qed.
Lemma quiet_set_bh b f : quiet (zoom sys_k (set_bh b f)).
Proof. intros Q s H. apply ends_zoom, ends_set_bh. intros bs. by apply H. Qed.
Hint Resolve quiet_reply quiet_cur_floppy quiet_output_byte quiet_result quiet_deselect quiet_current quiet_bh quiet_set_bh : quiet.
Lemma quiet_request_addr : quiet request_addr. Proof. unfold request_addr. quiet. Qed.
Lemma quiet_copy_to_tmp : quiet copy_to_tmp. Proof. unfold copy_to_tmp. quiet. Qed.
Lemma quiet_copy_from_tmp : quiet copy_from_tmp. Proof. unfold copy_from_tmp. quiet. Qed.
Hint Resolve quiet_request_addr quiet_copy_to_tmp quiet_copy_from_tmp : quiet.
Lemma quiet_setup_DMA : quiet setup_DMA. Proof. unfold setup_DMA. cbv zeta. quiet. Qed.

(** ** Timers *)
Lemma ends_fd_add_timer jif fn call (Q : unit → fd_system D → Prop) l s :
  fn = transfer_fn ∨ fn = floppy_on_interrupt_fn → fd_ok l s →
  (jif ≤ 0 → ends call Q s) → (∀ s', fd_ok l s' → fd_timer_set s' → Q tt s') →
  ends (fd_add_timer jif fn call) Q s.
Proof.
  intros Hfn [Hq [tl Htl]] Hcall HQ. unfold fd_add_timer. destruct (Z.leb_spec jif 0) as [Hle|Hgt]; [by apply Hcall|].
  apply ends_zoom, ends_zoom.
  assert (Hfn0 : fn ≠ 0) by (destruct Hfn as [-> | ->]; done).
  pose proof (add_timer_spec (λ _, mret tt) _ _ jif fn Htl Hfn0 Hgt) as Hadd.
  destruct (free_timer (timer_list (k_sched (sys_k s))) 0) as [p|].
  - destruct Hadd as (t' & Hrun & Hwf & Hents). eapply ends_Ok; [exact Hrun|]. apply HQ.
    + split; [by eapply req_queue_blk; [|exact Hq]|by exists (p :: tl)].
    + destruct (insert_delta_split jif fn (timers (k_sched (sys_k s)) tl) Hgt) as (pre & post & d & _ & Hins & _).
      assert (Hin : (d, fn) ∈ timers t' (p :: tl)) by (rewrite Hents, Hins; apply elem_of_app; right; left).
      apply list_elem_of_fmap in Hin as (i & Hi & Hin). unfold entry in Hi.
      destruct (timer_list t' !! i) as [t|] eqn:Ht; [|congruence].
      exists t. split; [by eapply list_elem_of_lookup_2|]. replace (t_fn t) with fn by congruence. done.
  - destruct Hadd as [_ Hrun]. eapply ends_outcome; [exact Hrun|done].
Qed.

(** ** The routines *)
Lemma ends_drv (Q : fd_state → fd_system D → Prop) s : Q (sys_drv s) s → ends drv Q s.
Proof. intros H. by apply ends_bind, ends_get, ends_ret. Qed.
Lemma ends_quiet {B} (m : FD B) (Q : B → fd_system D → Prop) l s :
  quiet m → fd_ok l s → (∀ a s', fd_ok l s' → do_floppy (sys_drv s') = do_floppy (sys_drv s) → Q a s') → ends m Q s.
Proof. intros Hm H HQ. apply Hm. intros a s' Hs. apply HQ; [by eapply fd_ok_unmoved|apply Hs]. Qed.
Lemma fd_ok_drv l s f : fd_ok l s → fd_ok l (s <| sys_drv ::= f |>).
Proof. done. Qed.
Lemma fd_live_intro l s : fd_ok l s → do_floppy (sys_drv s) ≠ None → fd_live s.
Proof. intros H Hd. exists l. split; [done|]. intros _. by left. Qed.

(** The first request ends. *)
Lemma ends_end_fd up c l s :
  links 2 (c :: l) (sys_k s) → (∃ tl, timers_wf (k_sched (sys_k s)) tl) →
  (∀ i r, i ∈ l → request (k_blk (sys_k s)) !! i = Some r → 0 ≤ r_errors r < MAX_ERRORS + 1) →
  ends (zoom sys_k (end_request 2 up)) (λ _, fd_ok l) s.
Proof.
  intros Hl [tl Htl] He. apply ends_zoom. eapply ends_mono; [by apply (ends_end_request_queue up c l)|].
  intros _ K (HK & Hi & Ht). split; [by eapply req_queue_ext|]. exists tl. by eapply timers_wf_same.
Qed.
Lemma ends_end_fd_ok up l s :
  fd_ok l s → ends (zoom sys_k (end_request 2 up)) (λ _ s', ∃ l', fd_ok l' s') s.
Proof.
  intros [Hq Ht]. destruct l as [|c l].
  - unfold end_request. apply ends_zoom, ends_bind. eapply ends_CURRENT; [apply Hq|done].
  - eapply ends_mono; [apply (ends_end_fd up c l); [apply Hq|done|]|intros [] s' H'; by exists l].
    intros i r Hi. apply (hq_errors _ _ Hq). by right.
Qed.

Lemma ends_bad_flp_intr l s : fd_ok l s → ends bad_flp_intr (λ _ s', ∃ l', fd_ok l' s') s.
Proof.
  intros [Hq Ht]. unfold bad_flp_intr. apply ends_bind. eapply ends_upd_current; [apply Hq|]. intros c l' r -> Hr.
  set (r1 := r <| r_errors := s32 (r_errors r + 1) |>). set (K1 := k_upd c r1 (sys_k s)).
  pose proof (hq_errors _ _ Hq c r ltac:(left) Hr) as He.
  assert (He1 : r_errors r1 = r_errors r + 1) by (simpl; apply s32_small; unfold MAX_ERRORS in He; lia).
  assert (Hr1 : request (k_blk K1) !! c = Some r1) by by eapply list_lookup_insert_eq, lookup_lt_Some.
  assert (Hlinks : links 2 (c :: l') K1) by (eapply links_upd; [apply Hq|done..]).
  change (s <| sys_k ::= k_upd c r1 |>) with (s <| sys_k := K1 |>). set (s1 := s <| sys_k := K1 |>).
  apply ends_bind. eapply ends_current_req; [exact Hlinks|]. intros c' l2 r' [= <- <-] Hr'.
  assert (r' = r1) as -> by (assert (Some r' = Some r1) by exact (eq_trans (eq_sym Hr') Hr1); congruence).
  apply ends_bind, (ends_mono _ (λ _ s', ∃ l2, fd_ok l2 s')).
  { apply ends_when; intros Hb.
    - apply ends_bind, ends_drv, ends_bind, quiet_deselect. intros [] s2 Hs2.
      destruct Hs2 as ([E1 E2] & E3 & _).
      eapply ends_mono; [apply (ends_end_fd 0 c l')|intros [] s' H'; by exists l'].
      + destruct Hlinks as [Hbq Hnd Hlen]. split; [|done|by rewrite E1]. unfold blk_queue. by rewrite E1, E2.
      + destruct Ht as [tl Htl]. exists tl. by eapply timers_wf_same.
      + rewrite E1. intros i x Hi. simpl. rewrite list_lookup_insert_ne.
        * apply (hq_errors _ _ Hq). by right.
        * intros <-. pose proof (hl_nodup _ _ Hlinks) as Hnd. by apply NoDup_cons in Hnd as [Hn _].
    - exists (c :: l'). split; [|done]. apply Z.ltb_ge in Hb.
      apply (req_queue_upd c l' (sys_k s) r r1); [done..|]. rewrite He1 in Hb |- *. lia. }
  intros [] s2 (l2 & Hl2). apply ends_bind, ends_current_errors. intros e.
  destruct (MAX_ERRORS / 2 <? e); apply ends_modify; by exists l2.
Qed.

(** What a routine may assume of the do_fd_request it goes on with: that it
    works, or that it works when the controller is to be reset. *)
Definition works (m : FD unit) : Prop := ∀ l s, fd_ok l s → ends m (λ _, fd_live) s.
Definition resets (m : FD unit) : Prop :=
  ∀ l s, fd_ok l s → truth (fd_reset (sys_drv s)) = true → ends m (λ _, fd_live) s.
Lemma works_resets m : works m → resets m.
Proof. intros H l s Hl _. by apply (H l). Qed.

Lemma ends_reset_floppy l s : fd_ok l s → ends reset_floppy (λ _, fd_live) s.
Proof.
  intros H. unfold reset_floppy. apply ends_bind, ends_modify, ends_bind, ends_ret, ends_bind, ends_modify.
  apply ends_bind. eapply ends_quiet; [apply quiet_get_sched|exact H|]. intros t s1 H1 Hd1.
  apply ends_bind. eapply ends_quiet; [apply quiet_dor|exact H1|]. intros [] s2 H2 Hd2.
  eapply ends_quiet; [apply quiet_dor|exact H2|]. intros [] s3 H3 Hd3.
  eapply fd_live_intro; [exact H3|]. by rewrite Hd3, Hd2, Hd1.
Qed.

Section Again.
Context (again : FD unit) (Hreset : resets again).

(** A command ends: the handler waits for its interrupt, or the controller did
    not take it. *)
Lemma ends_again_if_reset l s :
  fd_ok l s → do_floppy (sys_drv s) ≠ None →
  ends (d ← drv; when (truth (fd_reset d)) again) (λ _, fd_live) s.
Proof.
  intros H Hd. apply ends_bind, ends_drv, ends_when; intros Hr; [by apply (Hreset l)|]. by eapply fd_live_intro.
Qed.
Lemma ends_command {B} (m : FD B) l s :
  quiet m → fd_ok l s → do_floppy (sys_drv s) ≠ None →
  ends (m ;; d ← drv; when (truth (fd_reset d)) again) (λ _, fd_live) s.
Proof.
  intros Hm H Hd. apply ends_bind. eapply ends_quiet; [exact Hm|exact H|]. intros a s' H' Hd'.
  apply (ends_again_if_reset l); [done|]. by rewrite Hd'.
Qed.

Lemma ends_setup_rw_floppy l s : fd_ok l s → ends (setup_rw_floppy again) (λ _, fd_live) s.
Proof.
  intros H. unfold setup_rw_floppy. apply ends_bind. eapply ends_quiet; [apply quiet_setup_DMA|exact H|].
  intros [] s1 H1 _. apply ends_bind, ends_modify, ends_bind, ends_drv, ends_bind.
  eapply ends_quiet; [apply quiet_cur_floppy|exact H1|]. intros f s2 H2 Hd2.
  assert (Hne : do_floppy (sys_drv s2) ≠ None) by (by rewrite Hd2).
  do 8 (apply ends_bind; eapply ends_quiet; [apply quiet_output_byte|eassumption|]; intros [] ? ? ?).
  eapply ends_command; [apply quiet_output_byte|eassumption|]. congruence.
Qed.

Lemma ends_transfer l s : fd_ok l s → ends (transfer again) (λ _, fd_live) s.
Proof.
  intros H. unfold transfer. apply ends_bind. eapply ends_quiet; [apply quiet_cur_floppy|exact H|]. intros f s1 H1 _.
  apply ends_bind, ends_drv, ends_bind. eapply ends_quiet; [|exact H1|].
  { apply quiet_when. apply quiet_bind; [by apply quiet_set_drv|]. quiet. }
  intros [] s2 H2 _. apply ends_bind. eapply ends_quiet; [|exact H2|].
  { apply quiet_when. apply quiet_bind; [by apply quiet_set_drv|]. quiet. }
  intros [] s3 H3 _. apply ends_bind, ends_drv. destruct (truth (fd_reset (sys_drv s3))) eqn:Hr.
  { by apply (Hreset l). }
  destruct (negb (truth (fd_seek (sys_drv s3)))); [by apply (ends_setup_rw_floppy l)|].
  apply ends_bind, ends_modify. eapply ends_command; [|exact H3|done]. apply quiet_if; quiet.
Qed.

Lemma ends_recalibrate_floppy l s : fd_ok l s → ends (recalibrate_floppy again) (λ _, fd_live) s.
Proof.
  intros H. unfold recalibrate_floppy. apply ends_bind, ends_modify, ends_bind.
  eapply ends_quiet; [apply quiet_output_byte|exact H|]. intros [] s1 H1 Hd1. apply ends_bind, ends_drv.
  eapply ends_command; [apply quiet_output_byte|exact H1|]. by rewrite Hd1.
Qed.

Lemma ends_floppy_on_interrupt l s : fd_ok l s → ends (floppy_on_interrupt again) (λ _, fd_live) s.
Proof.
  intros H. unfold floppy_on_interrupt. apply ends_bind. eapply ends_quiet; [by apply quiet_sched_modify|exact H|].
  intros [] s1 H1 _. apply ends_bind, ends_drv, ends_bind. eapply ends_quiet; [apply quiet_get_sched|exact H1|].
  intros t s2 H2 _. destruct (negb _); [|by apply (ends_transfer l)].
  cbv zeta. apply ends_bind. eapply ends_quiet; [by apply quiet_sched_modify|exact H2|]. intros [] s3 H3 _.
  apply ends_bind. eapply ends_quiet; [apply quiet_dor|exact H3|]. intros [] s4 H4 _.
  eapply ends_fd_add_timer; [by left|exact H4|done|]. intros s5 H5 Ht. exists l. split; [done|]. intros _. by right.
Qed.

(** A round: it is repeated with a shorter queue. *)
Lemma ends_fd_request_once l s :
  fd_ok l s → ends (fd_request_once again) (λ b s', if b : bool then ∃ l', fd_ok l' s' ∧ (length l' < length l)%nat else fd_live s') s.
Proof.
  intros H. unfold fd_request_once. apply ends_bind, ends_zoom. eapply ends_init_request; [apply H| |].
  { intros ->. apply ends_ret. exists []. split; [exact H|done]. }
  intros c l' r -> Hr. replace (s <| sys_k := sys_k s |>) with s by by destruct s.
  apply ends_bind, ends_modify, ends_bind. eapply ends_quiet; [apply quiet_cur_floppy|exact H|]. intros f s1 H1 _.
  apply ends_bind, ends_modify. cbv zeta. destruct (f_size f <? u32 (r_sector r + 2)).
  { apply ends_bind. eapply ends_mono; [apply (ends_end_fd 0 c l'); [apply H1|apply H1|]|].
    - intros i x Hi. apply (hq_errors _ _ (proj1 H1)). by right.
    - intros [] s2 H2. apply ends_ret. exists l'. split; [done|]. simpl. lia. }
  apply ends_bind. destruct (_ || _); [apply ends_fault|]. apply ends_ret, ends_bind, ends_modify.
  set (s2 := s1 <| sys_drv ::= _ |>). set (s3 := s2 <| sys_drv ::= _ |>).
  assert (H3 : fd_ok (c :: l') s3) by exact H1. clearbody s3. clear s2.
  apply ends_bind. eapply ends_quiet; [|exact H3|].
  { apply quiet_if; [quiet|]. apply quiet_if; quiet. }
  intros [] s4 H4 _. apply ends_bind. eapply ends_quiet; [apply quiet_ticks|exact H4|]. intros ticks s5 H5 _.
  apply ends_bind. eapply ends_fd_add_timer; [by right|exact H5| |].
  - intros _. eapply ends_mono; [by apply (ends_floppy_on_interrupt (c :: l'))|]. intros [] s6 H6. by apply ends_ret.
  - intros s6 H6 Ht. apply ends_ret. exists (c :: l'). split; [done|]. intros _. by right.
Qed.
Lemma ends_fd_request_loop fuel l s :
  fd_ok l s → (length l < fuel)%nat → ends (fd_request_loop again fuel) (λ _, fd_live) s.
Proof.
  revert l s. induction fuel as [|fuel IH]; intros l s H Hf; [lia|]. cbn [fd_request_loop].
  apply ends_bind. eapply ends_mono; [by apply ends_fd_request_once|]. intros [] s' H'; [|by apply ends_ret].
  destruct H' as (l' & Hl' & Hlt). apply (IH l'); [done|lia].
Qed.
Lemma ends_fd_request : works (fd_request again).
Proof.
  intros l s H. unfold fd_request. apply ends_bind, ends_modify, ends_bind, ends_drv.
  destruct (truth (fd_reset _)) eqn:Hr; [by apply (ends_reset_floppy l)|].
  destruct (truth (fd_recalibrate _)); [by apply (ends_recalibrate_floppy l)|].
  apply (ends_fd_request_loop _ l); [done|]. pose proof (links_length _ _ (hq_links _ _ (proj1 H))). lia.
Qed.
End Again.

(** The controller is reset without going on with anything. *)
Lemma fd_request_resets m : resets (fd_request m).
Proof.
  intros l s H Hr. unfold fd_request. apply ends_bind, ends_modify, ends_bind, ends_drv.
  assert (Hr' : truth (fd_reset (sys_drv (s <| sys_drv ::= λ d, d <| fd_seek := 0 |> |>))) = true) by exact Hr.
  rewrite Hr'. by apply (ends_reset_floppy l).
Qed.
Lemma ends_do_fd_request : works do_fd_request.
Proof. apply ends_fd_request, fd_request_resets. Qed.

(** ** The interrupts *)
Lemma ends_then_request (m : FD unit) s :
  ends m (λ _ s', ∃ l', fd_ok l' s') s → ends (m ;; do_fd_request) (λ _, fd_live) s.
Proof. intros H. apply ends_bind. eapply ends_mono; [exact H|]. intros [] s' (l' & Hl'). by apply (ends_do_fd_request l'). Qed.

Lemma ends_rw_interrupt : works (rw_interrupt do_fd_request).
Proof.
  intros l s H. unfold rw_interrupt.
  apply ends_bind. eapply ends_quiet; [apply quiet_result|exact H|]. intros n s1 H1 _.
  do 3 (apply ends_bind; eapply ends_quiet; [apply quiet_reply|eassumption|]; intros ? ? ? _).
  destruct (_ || has _ 0x73).
  - apply ends_then_request. destruct (has _ 2); [|by eapply ends_bad_flp_intr].
    apply ends_bind, ends_ret, ends_bind, ends_drv, ends_bind.
    eapply ends_quiet; [apply quiet_deselect|eassumption|]. intros [] s6 H6 _. by apply (ends_end_fd_ok 0 l).
  - apply ends_bind, ends_drv, ends_bind. eapply ends_quiet; [|eassumption|].
    { apply quiet_when, quiet_bind; [apply quiet_request_addr|]. intros addr. apply quiet_when, quiet_copy_from_tmp. }
    intros [] s6 H6 _. apply ends_bind. eapply ends_quiet; [apply quiet_deselect|exact H6|]. intros [] s7 H7 _.
    apply ends_then_request. by apply (ends_end_fd_ok 1 l).
Qed.
Lemma ends_seek_interrupt : works (seek_interrupt do_fd_request).
Proof.
  intros l s H. unfold seek_interrupt.
  apply ends_bind. eapply ends_quiet; [apply quiet_output_byte|exact H|]. intros [] s1 H1 _.
  apply ends_bind. eapply ends_quiet; [apply quiet_result|exact H1|]. intros n s2 H2 _.
  do 2 (apply ends_bind; eapply ends_quiet; [apply quiet_reply|eassumption|]; intros ? ? ? _).
  apply ends_bind, ends_drv. destruct (_ || _).
  - apply ends_then_request. by eapply ends_bad_flp_intr.
  - apply ends_bind, ends_modify. apply (ends_setup_rw_floppy _ (works_resets _ ends_do_fd_request) l). eassumption.
Qed.
Lemma ends_recal_interrupt : works (recal_interrupt do_fd_request).
Proof.
  intros l s H. unfold recal_interrupt.
  apply ends_bind. eapply ends_quiet; [apply quiet_output_byte|exact H|]. intros [] s1 H1 _.
  apply ends_bind. eapply ends_quiet; [apply quiet_result|exact H1|]. intros n s2 H2 _.
  apply ends_bind. eapply ends_quiet; [apply quiet_reply|exact H2|]. intros st s3 H3 _.
  apply ends_then_request. destruct (_ || _); apply ends_modify; by exists l.
Qed.
Lemma ends_reset_interrupt : works (reset_interrupt do_fd_request).
Proof.
  intros l s H. unfold reset_interrupt.
  apply ends_bind. eapply ends_quiet; [apply quiet_output_byte|exact H|]. intros [] s1 H1 _.
  apply ends_bind. eapply ends_quiet; [apply quiet_result|exact H1|]. intros n s2 H2 _.
  apply ends_bind. eapply ends_quiet; [apply quiet_output_byte|exact H2|]. intros [] s3 H3 _.
  apply ends_bind, ends_drv, ends_bind. eapply ends_quiet; [apply quiet_output_byte|exact H3|]. intros [] s4 H4 _.
  apply ends_bind. eapply ends_quiet; [apply quiet_output_byte|exact H4|]. intros [] s5 H5 _.
  by apply (ends_do_fd_request l).
Qed.

(** C21: no request of the floppy is stranded, whatever the controller answers.
    do_fd_request, every interrupt and every timer of the driver end, and leave
    requests in the queue only when an interrupt has its handler or a timer of
    the driver is set. *)
Theorem fd_live_correct s l :
  fd_ok l s →
  ends do_fd_request (λ _, fd_live) s ∧
  ((l ≠ [] → fd_waits s) → ends floppy_interrupt (λ _, fd_live) s) ∧
  (∀ fn, fn = transfer_fn ∨ fn = floppy_on_interrupt_fn → ends (floppy_timer fn) (λ _, fd_live) s).
Proof.
  intros H. split; [by apply (ends_do_fd_request l)|split].
  - intros Hw. unfold floppy_interrupt. apply ends_bind, quiet_outp. intros [] s1 Hs1.
    assert (H1 : fd_ok l s1) by by eapply fd_ok_unmoved. apply ends_bind, ends_drv, ends_bind, ends_modify.
    destruct (do_floppy (sys_drv s1)) as [[]|] eqn:Hd.
    + by apply (ends_rw_interrupt l).
    + by apply (ends_seek_interrupt l).
    + by apply (ends_recal_interrupt l).
    + by apply (ends_reset_interrupt l).
    + apply quiet_unexpected. intros [] s2 Hs2. exists l. split; [by eapply fd_ok_unmoved; [exact Hs2|]|].
      intros Hl. eapply fd_waits_unmoved; [exact Hs2|]. right.
      destruct (fd_waits_unmoved _ _ Hs1 (Hw Hl)) as [Hne|Ht]; [by rewrite Hd in Hne|exact Ht].
  - intros fn [-> | ->]; unfold floppy_timer.
    + apply (ends_transfer _ (works_resets _ ends_do_fd_request) l s H).
    + apply (ends_floppy_on_interrupt _ (works_resets _ ends_do_fd_request) l s H).
Qed.
End Live.

(** ** The timer list *)

(** While [m] runs, requests are added to the timers of [π] and nothing else
    happens to them. *)
Definition only_adds {S B} (π : S → sched_state) (m : M S B) : Prop := ∀ s a s', m s = Ok a s' → adds (π s) (π s').

Section OnlyAdds.
Context {S : Type} (π : S → sched_state).
Lemma only_adds_ret {B} (a : B) : only_adds π (mret a). Proof. by intros s b s' [= _ <-]. Qed.
Lemma only_adds_get : only_adds π get. Proof. by intros s b s' [= _ <-]. Qed.
Lemma only_adds_gets {B} (f : S → B) : only_adds π (gets f). Proof. by intros s b s' [= _ <-]. Qed.
Lemma only_adds_deref {B} (o : option B) : only_adds π (deref o).
Proof. destruct o; [apply only_adds_ret|done]. Qed.
Lemma only_adds_panic {B} msg : only_adds π (panic msg : M S B). Proof. done. Qed.
Lemma only_adds_fault {B} : only_adds π (fault : M S B). Proof. done. Qed.
Lemma only_adds_no_fuel {B} : only_adds π (no_fuel : M S B). Proof. done. Qed.
Lemma only_adds_modify f : (∀ s, adds (π s) (π (f s))) → only_adds π (modify f).
Proof. intros H s b s' [= _ <-]. apply H. Qed.
Lemma only_adds_bind {B C} (m : M S B) (f : B → M S C) :
  only_adds π m → (∀ a, only_adds π (f a)) → only_adds π (m ≫= f).
Proof. intros Hm Hf s c s' H. apply bind_Ok_inv in H as (a & s1 & H1 & H2). etrans; [by eapply Hm|by eapply Hf]. Qed.
Lemma only_adds_if {B} (b : bool) (m n : M S B) : only_adds π m → only_adds π n → only_adds π (if b then m else n).
Proof. by destruct b. Qed.
Lemma only_adds_when b (m : M S unit) : only_adds π m → only_adds π (when b m).
Proof. intros H. by apply only_adds_if; [|apply only_adds_ret]. Qed.
Lemma only_adds_opt {B C} (o : option B) (m : M S C) (f : B → M S C) :
  only_adds π m → (∀ b, only_adds π (f b)) → only_adds π (match o with Some b => f b | None => m end).
Proof. by destruct o. Qed.
End OnlyAdds.
Lemma only_adds_zoom {S T B} (π : S → sched_state) (π' : T → sched_state) (proj : S → T) `{!Setter proj} (m : M T B) :
  only_adds π' m → (∀ s, π' (proj s) = π s) → (∀ s t, π (s <| proj := t |>) = π' t) → only_adds π (zoom proj m).
Proof.
  intros Hm H1 H2 s a s' H. unfold zoom in H. destruct (m (proj s)) as [b t| | | |] eqn:Ht; try done.
  injection H as <- <-. rewrite <-H1, H2. by eapply Hm.
Qed.
Lemma only_adds_aside {S T B} (π : S → sched_state) (proj : S → T) `{!Setter proj} (m : M T B) :
  (∀ s t, π (s <| proj := t |>) = π s) → only_adds π (zoom proj m).
Proof.
  intros H1 s a s' H. unfold zoom in H. destruct (m (proj s)) as [b t| | | |]; try done. injection H as <- <-. by rewrite H1.
Qed.
Create HintDb adds.
#[export] Hint Resolve only_adds_ret only_adds_get only_adds_gets only_adds_deref only_adds_panic only_adds_fault
  only_adds_no_fuel : adds.
#[export] Hint Extern 2 (only_adds _ (modify _)) => apply only_adds_modify; intros ?; apply adds_same; reflexivity : adds.
#[export] Hint Extern 2 (only_adds k_sched (zoom k_mm _)) => apply only_adds_aside; reflexivity : adds.
#[export] Hint Extern 2 (only_adds k_sched (zoom k_buf _)) => apply only_adds_aside; reflexivity : adds.
Ltac only_adds := repeat first [match goal with |- ∀ _, _ => intro end | solve [auto with adds]
  | apply only_adds_bind | apply only_adds_if | apply only_adds_when | apply only_adds_opt].

(** *** The kernel *)
Lemma only_adds_sched {B} (m : M sched_state B) : only_adds id m → only_adds k_sched (zoom k_sched m).
Proof. intros H. by eapply only_adds_zoom. Qed.
Lemma only_adds_make_runnable p : only_adds id (make_runnable p).
Proof. unfold make_runnable, upd_task, task_at. only_adds. Qed.
Lemma only_adds_wake_up p :
  (∀ s, adds (k_sched s) (k_sched (wr p 0 s))) → only_adds k_sched (wake_up p).
Proof.
  intros Hp. unfold wake_up. apply only_adds_bind; [auto with adds|]. intros q.
  apply only_adds_when, only_adds_bind; [apply only_adds_sched, only_adds_make_runnable|]. intros _.
  by apply only_adds_modify.
Qed.
#[export] Hint Extern 2 (only_adds k_sched (wake_up _)) => apply only_adds_wake_up; intros ?; apply adds_same; reflexivity : adds.
Lemma only_adds_bh b : only_adds k_sched (bh b). Proof. unfold bh. only_adds. Qed.
Lemma only_adds_set_bh b f : only_adds k_sched (set_bh b f). Proof. unfold set_bh. only_adds. Qed.
#[export] Hint Resolve only_adds_bh only_adds_set_bh : adds.
Lemma only_adds_end_request major up : only_adds k_sched (end_request major up).
Proof.
  unfold end_request, CURRENT, blk_dev_at, request_at, unlock_buffer, upd_request, upd_blk_dev, printk, request_at, blk_dev_at.
  only_adds. apply only_adds_sched. unfold floppy_off. only_adds.
Qed.
Lemma only_adds_init_request major : only_adds k_sched (init_request major).
Proof. unfold init_request, blk_dev_at, request_at. only_adds. Qed.

(** *** The driver *)
Section Driver.
Context {D : Type} {Ctl : Controller D} {A : Addresses}.
Local Notation FD := (M (fd_system D)).
Definition fd_timers (s : fd_system D) : sched_state := k_sched (sys_k s).
Local Notation added := (only_adds fd_timers).

Lemma added_kernel {B} (m : M kernel B) : only_adds k_sched m → added (zoom sys_k m : FD B).
Proof. intros H. by eapply only_adds_zoom. Qed.
Lemma added_sched {B} (m : M sched_state B) : only_adds id m → added (zoom sys_k (zoom k_sched m) : FD B).
Proof. intros H. by apply added_kernel, only_adds_sched. Qed.
Lemma added_quiet {B} (m : FD B) : quiet m → added m.
Proof.
  intros Hm s a s' H. pose proof (ends_result _ _ _ _ _ (Hm (λ _, unmoved s) s (λ _ _ H, H)) H) as (_ & [Ht Hn] & _).
  by apply adds_same.
Qed.
Lemma added_set_drv f : added (set_drv f : FD unit). Proof. unfold set_drv. only_adds. Qed.
Lemma added_drv : added (drv : FD fd_state). Proof. apply added_quiet, quiet_drv. Qed.
Lemma added_deselect nr : added (floppy_deselect nr). Proof. apply added_quiet, quiet_deselect. Qed.
Lemma added_add_timer jif fn call : fn ≠ 0 → added call → added (fd_add_timer jif fn call).
Proof.
  intros Hfn Hcall. unfold fd_add_timer. destruct (Z.leb_spec jif 0) as [|Hj]; [done|].
  apply added_sched. intros s [] s' H l Hwf. pose proof (add_timer_spec (λ _, mret tt) s l jif fn Hwf Hfn Hj) as Hadd.
  destruct (free_timer (timer_list s) 0) as [p|]; [|by destruct Hadd as [_ Hadd]; rewrite Hadd in H].
  destruct Hadd as (s1 & Hrun & Hwf1 & He). assert (s1 = s') as -> by congruence.
  exists (p :: l), [(jif, fn)]. split; [done|]. split; [by repeat constructor|done].
Qed.
Lemma added_reply i : added (reply i). Proof. apply added_quiet, quiet_reply. Qed.
Lemma added_cur_floppy : added cur_floppy. Proof. apply added_quiet, quiet_cur_floppy. Qed.
Lemma added_output_byte b : added (output_byte b). Proof. apply added_quiet, quiet_output_byte. Qed.
Lemma added_outp v p : added (outp v p : FD unit). Proof. apply added_quiet, quiet_outp. Qed.
Lemma added_setup_DMA : added setup_DMA. Proof. apply added_quiet, quiet_setup_DMA. Qed.
Lemma added_get_sched : added get_sched. Proof. apply added_quiet, quiet_get_sched. Qed.
Lemma added_dor v : added (zoom sys_k (zoom k_sched (outb_dor v)) : FD unit). Proof. apply added_quiet, quiet_dor. Qed.
Lemma added_ticks nr : added (zoom sys_k (zoom k_sched (ticks_to_floppy_on nr)) : FD Z).
Proof. apply added_quiet, quiet_ticks. Qed.
Lemma added_modify f : (∀ t, same_timers t (f t)) → added (zoom sys_k (zoom k_sched (modify f)) : FD unit).
Proof. intros Hf. by apply added_quiet, quiet_sched_modify. Qed.
Lemma added_end up : added (zoom sys_k (end_request 2 up) : FD unit).
Proof. apply added_kernel, only_adds_end_request. Qed.
Lemma added_init : added (zoom sys_k (init_request 2) : FD (option request_struct)).
Proof. apply added_kernel, only_adds_init_request. Qed.
Local Hint Resolve added_set_drv added_drv added_reply added_cur_floppy added_output_byte added_outp added_setup_DMA
  added_get_sched added_dor added_ticks added_end added_init : adds.
Local Hint Extern 2 (added (zoom sys_k (zoom k_sched (modify _)))) => apply added_modify; done : adds.

Lemma added_reset : added reset_floppy. Proof. unfold reset_floppy, printk. only_adds. Qed.
Section Again.
Context (again : FD unit) (Hagain : added again).
Local Hint Resolve Hagain : adds.
Lemma added_setup_rw : added (setup_rw_floppy again). Proof. unfold setup_rw_floppy. only_adds. Qed.
Local Hint Resolve added_setup_rw : adds.
Lemma added_transfer : added (transfer again). Proof. unfold transfer. only_adds. Qed.
Lemma added_recalibrate : added (recalibrate_floppy again). Proof. unfold recalibrate_floppy. only_adds. Qed.
Local Hint Resolve added_transfer : adds.
Local Hint Extern 1 (added (fd_add_timer _ _ _)) => apply added_add_timer; [done|auto with adds] : adds.
Lemma added_on_interrupt : added (floppy_on_interrupt again).
Proof. unfold floppy_on_interrupt. cbv zeta. only_adds. Qed.
Local Hint Resolve added_on_interrupt : adds.
Lemma added_request_once : added (fd_request_once again).
Proof. unfold fd_request_once. cbv zeta. only_adds. Qed.
Lemma added_request : added (fd_request again).
Proof.
  assert (Hloop : ∀ fuel, added (fd_request_loop again fuel)).
  { induction fuel as [|fuel IH]; cbn [fd_request_loop]; [done|].
    apply only_adds_bind; [apply added_request_once|]. intros b. by apply only_adds_if; [|apply only_adds_ret]. }
  pose proof added_reset. pose proof added_recalibrate. unfold fd_request. only_adds.
Qed.
End Again.
(** The functions of the driver that timers call add timers, and do nothing else
    to the list. *)
Lemma added_floppy_timer fn : added (floppy_timer fn).
Proof.
  assert (Hagain : added do_fd_request) by (by do 2 apply added_request).
  unfold floppy_timer. apply only_adds_if; [by apply added_transfer|].
  apply only_adds_if; [by apply added_on_interrupt|done].
Qed.
End Driver.
