(* ===== verification/FloppyProofs.v ===== *)
(** * Transfers with the floppy

    What a working controller is sent for a request, and what the driver does
    with its answer. *)

From stdpp Require Import base option list gmap strings.
From Stdlib Require Import ZArith Lia.
From S2P Require Import Prelude Types Memory Sched Kernel KernelFacts Blk BlkProofs Ports Buffer BlockFacts RequestFacts Floppy.
Local Open Scope Z_scope.

(** The bytes of a READ or WRITE command that is not complete. *)
Definition rw_command (l : list Z) : Prop :=
  (length l < 9)%nat ∧ (head l = Some FD_READ ∨ head l = Some FD_WRITE).

(** A controller as the driver sees it: what it was sent ([outs]: ports and
    bytes), the bytes it has taken of a command, for how many reads of the
    status it is not ready yet, the bytes of a result still to be read.  [pause]
    is the time until its interrupt. *)
Class Fdc (D : Type) `{!Controller D} := {
  outs : D → list (Z * Z);
  fdc_cmd : D → option (list Z);
  fdc_busy : D → nat;
  fdc_results : D → option (list Z);
  fdc_status d : let d' := (port_in FD_STATUS d).2 in
    outs d' = outs d ∧ fdc_cmd d' = fdc_cmd d ∧ fdc_results d' = fdc_results d ∧ fdc_busy d' = pred (fdc_busy d);
  (** the command phase *)
  fdc_wait d l : fdc_cmd d = Some l → fdc_busy d ≠ 0%nat → Z.land (port_in FD_STATUS d).1 0xc0 ≠ 0x80;
  fdc_ready d l : fdc_cmd d = Some l → fdc_busy d = 0%nat → Z.land (port_in FD_STATUS d).1 0xc0 = 0x80;
  fdc_out p b d : p ≠ FD_DATA → let d' := port_out p b d in
    outs d' = outs d ++ [(p, b)] ∧ fdc_cmd d' = fdc_cmd d ∧ fdc_results d' = fdc_results d ∧ fdc_busy d' = fdc_busy d;
  fdc_take b d l : fdc_cmd d = Some l → fdc_busy d = 0%nat → let d' := port_out FD_DATA b d in
    outs d' = outs d ++ [(FD_DATA, b)] ∧ (fdc_busy d' < Z.to_nat 10000)%nat ∧
    (rw_command (l ++ [b]) → fdc_cmd d' = Some (l ++ [b]));
  (** the result phase *)
  fdc_more d b l : fdc_results d = Some (b :: l) → fdc_busy d = 0%nat →
    Z.land (port_in FD_STATUS d).1 0xd0 = 0xd0 ∧
    let d' := (port_in FD_DATA (port_in FD_STATUS d).2) in
    d'.1 = b ∧ fdc_results d'.2 = Some l ∧ fdc_busy d'.2 = 0%nat ∧ outs d'.2 = outs d;
  fdc_over d : fdc_results d = Some [] → fdc_busy d = 0%nat → Z.land (port_in FD_STATUS d).1 0xd0 = 0x80
}.

(** ** Arithmetic of the place *)
Section Place.
Context (f : floppy_struct) (block : Z).
Definition fd_sec : Z := block mod f_sect f + 1.
Definition fd_hd : Z := (block / f_sect f) mod f_head f.
Definition fd_trk : Z := block / f_sect f / f_head f.
End Place.

Lemma floppy_type_ok k f :
  floppy_type !! k = Some f → f_size f ≠ 0 →
  0 < f_sect f ≤ 18 ∧ f_head f = 2 ∧ 0 < f_track f ≤ 80 ∧ f_size f = f_sect f * f_head f * f_track f ∧
  0 ≤ f_stretch f ≤ 1 ∧ f_track f * 2 ^ f_stretch f ≤ 80 ∧ f_size f ≤ 2880.
Proof. intros Hk Hs. do 8 (destruct k as [|k]; [simpl in Hk; simplify_eq; simpl in *; lia|]). done. Qed.

(** The sector, head and track are on the disk and name [block]. *)
Lemma fd_place_ok k f block :
  floppy_type !! k = Some f → 0 ≤ block < f_size f →
  (fd_trk f block * f_head f + fd_hd f block) * f_sect f + (fd_sec f block - 1) = block ∧
  1 ≤ fd_sec f block ≤ f_sect f ∧ 0 ≤ fd_hd f block < f_head f ∧ 0 ≤ fd_trk f block < f_track f.
Proof.
  intros Hk Hb. destruct (floppy_type_ok k f Hk) as (Hs & Hh & Ht & Hsz & _); [lia|]. unfold fd_trk, fd_hd, fd_sec.
  pose proof (Z.div_mod block (f_sect f) ltac:(lia)). pose proof (Z.mod_pos_bound block (f_sect f) ltac:(lia)).
  pose proof (Z.div_mod (block / f_sect f) (f_head f) ltac:(lia)).
  pose proof (Z.mod_pos_bound (block / f_sect f) (f_head f) ltac:(lia)).
  assert (0 ≤ block / f_sect f) by (apply Z.div_pos; lia).
  split; [|split; [lia|split; [lia|]]].
  - rewrite Hh in *. nia.
  - split; [apply Z.div_pos; lia|]. apply Z.div_lt_upper_bound; [lia|]. apply Z.div_lt_upper_bound; [lia|]. nia.
Qed.

(** A motor that runs, of a drive that is selected, needs no time. *)
Lemma motor_mask dor drive :
  0 ≤ dor < 256 → 0 ≤ drive ≤ 3 → Z.land dor 3 = drive → Z.testbit dor (4 + drive) = true →
  Z.lor (u8 (Z.shiftl 0x10 drive)) dor = dor ∧ Z.lor (Z.land dor 0xFC) drive = dor.
Proof.
  intros Hd Hdr. 
  assert (Hall : forallb (λ d, forallb (λ k,
    negb ((Z.land (Z.of_nat d) 3 =? Z.of_nat k) && Z.testbit (Z.of_nat d) (4 + Z.of_nat k)) ||
    (Z.lor (u8 (Z.shiftl 0x10 (Z.of_nat k))) (Z.of_nat d) =? Z.of_nat d) &&
    (Z.lor (Z.land (Z.of_nat d) 0xFC) (Z.of_nat k) =? Z.of_nat d)) (seq 0 4)) (seq 0 256) = true) by by vm_compute.
  rewrite forallb_forall in Hall. specialize (Hall (Z.to_nat dor) ltac:(apply in_seq; lia)).
  rewrite forallb_forall in Hall. specialize (Hall (Z.to_nat drive) ltac:(apply in_seq; lia)).
  rewrite !Z2Nat.id in Hall by lia. intros H1 H2. rewrite H1, Z.eqb_refl, H2 in Hall. cbn [andb negb orb] in Hall.
  apply andb_prop in Hall as [E1%Z.eqb_eq E2%Z.eqb_eq]. done.
Qed.

Lemma land3_bound x : 0 ≤ Z.land x 3 ≤ 3.
Proof.
  pose proof (Z.land_ones x 2 ltac:(lia)) as E. change (Z.ones 2) with 3 in E. rewrite E.
  pose proof (Z.mod_pos_bound x (2 ^ 2)). lia.
Qed.

(** The nine bytes fit in a byte each. *)
Lemma floppy_gap_ok k f : floppy_type !! k = Some f → 0 ≤ f_gap f < 256.
Proof. intros Hk. do 8 (destruct k as [|k]; [simpl in Hk; simplify_eq; simpl in *; lia|]). done. Qed.
Lemma head_drive_byte hd drive : 0 ≤ hd ≤ 1 → 0 ≤ drive ≤ 3 → u8 (Z.lor (Z.shiftl hd 2) drive) = hd * 4 + drive.
Proof.
  intros Hh Hd. assert (hd = 0 ∨ hd = 1) as [-> | ->] by lia;
    assert (drive = 0 ∨ drive = 1 ∨ drive = 2 ∨ drive = 3) as [-> |[-> |[-> | ->]]] by lia; done.
Qed.

(** ** Bytes to the controller *)
Section Transfer.
Context {D : Type} {Ctl : Controller D} {F : Fdc D} {A : Addresses}.
Implicit Types s : fd_system D.
Local Notation FD := (M (fd_system D)).
Local Notation sys K h d := (mk_system (X := fd_state) (D := D) K h d).

Lemma send_loop_run K h b l n : ∀ d,
  fdc_cmd d = Some l → (fdc_busy d < n)%nat →
  ∃ d', send_loop n b (sys K h d) = Ok tt (sys K h d') ∧ outs d' = outs d ++ [(FD_DATA, u8 b)] ∧
    (fdc_busy d' < Z.to_nat 10000)%nat ∧ (rw_command (l ++ [u8 b]) → fdc_cmd d' = Some (l ++ [u8 b])).
Proof.
  induction n as [|n IH]; intros d Hl Hb; [lia|]. cbn [send_loop].
  rewrite (bind_Ok _ _ _ (port_in FD_STATUS d).1 (sys K h (port_in FD_STATUS d).2)) by done.
  destruct (fdc_status d) as (Ho & Hc & _ & Hb'). set (d1 := (port_in FD_STATUS d).2) in *.
  change (Z.lor STATUS_READY STATUS_DIR) with 0xc0. change STATUS_READY with 0x80.
  destruct (Nat.eq_dec (fdc_busy d) 0) as [H0|Hne].
  - rewrite (fdc_ready d l Hl H0), Z.eqb_refl.
    destruct (fdc_take (u8 b) d1 l) as (Ho2 & Hb2 & Hc2); [by rewrite Hc|by rewrite Hb', H0|].
    exists (port_out FD_DATA (u8 b) d1). split; [done|]. split; [by rewrite Ho2, Ho|done].
  - pose proof (fdc_wait d l Hl Hne) as Hw. apply Z.eqb_neq in Hw. rewrite Hw.
    destruct (IH d1) as (d' & Hrun & Ho2 & Hb2 & Hc2); [by rewrite Hc|rewrite Hb'; lia|].
    exists d'. split; [exact Hrun|]. split; [by rewrite Ho2, Ho|done].
Qed.
Lemma output_byte_run K h d b l :
  fd_reset h = 0 → fdc_cmd d = Some l → (fdc_busy d < Z.to_nat 10000)%nat →
  ∃ d', output_byte b (sys K h d) = Ok tt (sys K h d') ∧ outs d' = outs d ++ [(FD_DATA, u8 b)] ∧
    (fdc_busy d' < Z.to_nat 10000)%nat ∧ (rw_command (l ++ [u8 b]) → fdc_cmd d' = Some (l ++ [u8 b])).
Proof.
  intros Hr Hl Hb. unfold output_byte. rewrite (bind_Ok _ _ _ h (sys K h d)) by done. rewrite Hr. cbn [truth negb Z.eqb].
  by apply send_loop_run.
Qed.

Lemma cur_floppy_run K h d f : zlookup floppy_type (floppy h) = Some f → cur_floppy (sys K h d) = Ok f (sys K h d).
Proof. intros Hf. unfold cur_floppy, drv, get. mred. cbn [sys_drv]. by rewrite Hf. Qed.

(** A command, byte by byte. *)
Fixpoint output_bytes (l : list Z) : FD unit :=
  match l with [] => mret tt | b :: l => output_byte b ;; output_bytes l end.
Lemma output_bytes_run K h bs : ∀ l d,
  fd_reset h = 0 → fdc_cmd d = Some l → (fdc_busy d < Z.to_nat 10000)%nat →
  (∀ k, (k < length bs)%nat → (0 < k)%nat → rw_command (l ++ take k (u8 <$> bs))) →
  ∃ d', output_bytes bs (sys K h d) = Ok tt (sys K h d') ∧ outs d' = outs d ++ (pair FD_DATA <$> (u8 <$> bs)).
Proof.
  induction bs as [|b bs IH]; intros l d Hr Hl Hb Hrw.
  { exists d. split; [done|]. by rewrite app_nil_r. }
  destruct (output_byte_run K h d b l Hr Hl Hb) as (d1 & Hrun & Ho & Hb1 & Hc1).
  destruct bs as [|b2 bs].
  { exists d1. split; [|by rewrite Ho]. cbn [output_bytes]. by rewrite (bind_Ok _ _ _ _ _ Hrun). }
  destruct (IH (l ++ [u8 b]) d1) as (d2 & Hrun2 & Ho2); [done| |done| |].
  - apply Hc1. apply (Hrw 1%nat); simpl; lia.
  - intros k Hk Hk0. rewrite <-app_assoc. apply (Hrw (S k)); simpl in *; lia.
  - exists d2. cbn [output_bytes] in *. rewrite (bind_Ok _ _ _ _ _ Hrun). split; [exact Hrun2|].
    rewrite Ho2, Ho, <-app_assoc. done.
Qed.

(** ** The DMA chip *)
Definition dma_program (cmd addr : Z) : list (Z * Z) :=
  [(10, 6); (12, cmd); (11, cmd); (4, u8 addr); (4, u8 (Z.shiftr addr 8)); (0x81, u8 (Z.shiftr (Z.shiftr addr 8) 8));
   (5, 0xff); (5, 3); (10, 2)].
(** Where the data goes: DMA reaches the first megabyte only. *)
Definition dma_addr (b : nat) (r : request_struct) : Z :=
  if 0x100000 <=? buffer_addr b + r_buffer r then tmp_floppy_addr else buffer_addr b + r_buffer r.
Definition dma_area (b : nat) (r : request_struct) (x : buffer_head) (h : fd_state) : fd_state :=
  if (0x100000 <=? buffer_addr b + r_buffer r) && (command h =? FD_WRITE)
  then h <| tmp_floppy_area := slice (Z.to_nat (r_buffer r)) 1024 (b_data x) |> else h.

Lemma outs_run (l : list (Z * Z)) d :
  Forall (λ p, p.1 ≠ FD_DATA) l →
  let d' := foldl (λ d p, port_out p.1 p.2 d) d l in
  outs d' = outs d ++ l ∧ fdc_cmd d' = fdc_cmd d ∧ fdc_busy d' = fdc_busy d.
Proof.
  revert d. induction l as [|[p b] l IH]; intros d Hl; simpl; [by rewrite app_nil_r|].
  apply Forall_cons in Hl as [Hp Hl]. destruct (fdc_out p b d Hp) as (Ho & Hc & _ & Hb).
  destruct (IH (port_out p b d) Hl) as (Ho2 & Hc2 & Hb2). by rewrite Ho2, Hc2, Hb2, Ho, <-app_assoc.
Qed.
Lemma setup_DMA_run K h d c r b x :
  first_is 2 K c → req_is K c r → r_bh r = Some b → buf_is K b x →
  ∃ d', setup_DMA (sys K h d) = Ok tt (sys K (dma_area b r x h) d') ∧
    outs d' = outs d ++ dma_program (if command h =? FD_READ then DMA_READ else DMA_WRITE) (dma_addr b r) ∧
    fdc_cmd d' = fdc_cmd d ∧ fdc_busy d' = fdc_busy d.
Proof.
  intros Hc Hr Hb Hx. unfold setup_DMA. pose proof (current_req_run 2 (sys K h d) c r Hc Hr) as Hcur.
  assert (Haddr : request_addr (sys K h d) = Ok (buffer_addr b + r_buffer r) (sys K h d))
    by (unfold request_addr; rewrite (bind_Ok _ _ _ _ _ Hcur), Hb; done).
  rewrite (bind_Ok _ _ _ _ _ Haddr), (bind_Ok _ _ _ h (sys K h d)) by done.
  set (prog := dma_program (if command h =? FD_READ then DMA_READ else DMA_WRITE) (dma_addr b r)).
  destruct (outs_run prog d) as (Ho & Hcmd & Hbusy).
  { unfold prog, dma_program, FD_DATA. repeat constructor; simpl; lia. }
  exists (foldl (λ d p, port_out p.1 p.2 d) d prog). split; [|done]. clear Ho Hcmd Hbusy. unfold prog, dma_addr, dma_area.
  destruct (0x100000 <=? buffer_addr b + r_buffer r); cbn [andb].
  - assert (Hcopy : when (command h =? FD_WRITE) copy_to_tmp (sys K h d) = Ok tt (sys K (if command h =? FD_WRITE
        then h <| tmp_floppy_area := slice (Z.to_nat (r_buffer r)) 1024 (b_data x) |> else h) d)).
    { destruct (command h =? FD_WRITE); [|done]. unfold when, copy_to_tmp. rewrite (bind_Ok _ _ _ _ _ Hcur), Hb.
      rewrite (bind_Ok _ _ _ b (sys K h d)) by done.
      rewrite (bind_Ok _ _ _ x (sys K h d)); [done|]. apply zoom_k_same. by apply bh_run. }
    erewrite bind_Ok; [|rewrite (bind_Ok _ _ _ _ _ Hcopy); done]. by destruct (command h =? FD_READ).
  - rewrite (bind_Ok _ _ _ (buffer_addr b + r_buffer r) (sys K h d)) by done. by destruct (command h =? FD_READ).
Qed.

(** ** The command of a transfer *)
Fixpoint output_then (l : list Z) (k : FD unit) : FD unit :=
  match l with [] => k | b :: l => output_byte b ;; output_then l k end.
Lemma output_then_run l k s s' : output_bytes l s = Ok tt s' → output_then l k s = k s'.
Proof.
  revert s. induction l as [|b l IH]; intros s; cbn [output_bytes output_then]; [by intros [= <-]|].
  intros H. apply bind_Ok_inv in H as (u & s1 & Hb & Hl). rewrite (bind_Ok _ _ _ _ _ Hb). by apply IH.
Qed.

(** The nine bytes. *)
Definition rw_bytes (h : fd_state) (f : floppy_struct) : list Z :=
  [command h; Z.lor (Z.shiftl (fd_head h) 2) (current_drive h); fd_track h; fd_head h; fd_sector h; 2; f_sect f; f_gap f; 0xFF].

Lemma setup_rw_floppy_run again K h d c r b x f :
  first_is 2 K c → req_is K c r → r_bh r = Some b → buf_is K b x →
  zlookup floppy_type (floppy h) = Some f → command h = FD_READ ∨ command h = FD_WRITE →
  fd_reset h = 0 → fdc_cmd d = Some [] → (fdc_busy d < Z.to_nat 10000)%nat →
  ∃ d', setup_rw_floppy again (sys K h d) = Ok tt (sys K (dma_area b r x h <| do_floppy := Some rw_interrupt_ |>) d') ∧
    outs d' = outs d ++ dma_program (if command h =? FD_READ then DMA_READ else DMA_WRITE) (dma_addr b r) ++
      (pair FD_DATA <$> (u8 <$> rw_bytes h f)).
Proof.
  intros Hc Hr Hb Hx Hf Hcmd Hreset Hidle Hbusy.
  destruct (setup_DMA_run K h d c r b x Hc Hr Hb Hx) as (d1 & Hdma & Ho & Hc1 & Hb1).
  set (h1 := dma_area b r x h <| do_floppy := Some rw_interrupt_ |>).
  assert (Hfields : rw_bytes h1 f = rw_bytes h f ∧ floppy h1 = floppy h ∧ fd_reset h1 = fd_reset h)
    by (unfold h1, dma_area; by destruct (_ && _)).
  destruct Hfields as (Hrw & Hfl & Hres).
  destruct (output_bytes_run K h1 (rw_bytes h1 f) [] d1) as (d2 & Hrun & Ho2).
  { by rewrite Hres. } { by rewrite Hc1. } { by rewrite Hb1. }
  { intros k Hk Hk0. rewrite Hrw in *. simpl in Hk. cbn [app]. split; [rewrite length_take; simpl; lia|].
    destruct k as [|k]; [lia|]. simpl. destruct Hcmd as [-> | ->]; [by left|by right]. }
  exists d2. split; [|by rewrite Ho2, Ho, Hrw, <-app_assoc].
  unfold setup_rw_floppy. rewrite (bind_Ok _ _ _ _ _ Hdma).
  rewrite (bind_Ok _ _ _ tt (sys K h1 d1)) by done. rewrite (bind_Ok _ _ _ h1 (sys K h1 d1)) by done.
  rewrite (bind_Ok _ _ _ f (sys K h1 d1)).
  2:{ apply cur_floppy_run. by rewrite Hfl. }
  set (k := d ← drv; when (truth (fd_reset d)) again).
  transitivity (k (sys K h1 d2)); [exact (output_then_run (rw_bytes h1 f) k _ _ Hrun)|].
  unfold k. rewrite (bind_Ok _ _ _ h1 (sys K h1 d2)) by done.
  by rewrite Hres, Hreset.
Qed.

(** ** do_fd_request with the motor running and the head in place *)

(** Request [c], that is [r], is the first of the floppy's queue and asks for the
    block of buffer [b], that is [x], on a disk of type [f]. *)
Record fd_request_at (K : kernel) (c : nat) (r : request_struct) (b : nat) (x : buffer_head) (f : floppy_struct) : Prop := {
  fr_first : first_is 2 K c;
  fr_request : req_is K c r;
  fr_major : MAJOR (r_dev r) = 2;
  fr_bh : r_bh r = Some b;
  fr_buffer : buf_is K b x;
  fr_locked : b_lock x ≠ 0;
  fr_type : zlookup floppy_type (Z.shiftr (MINOR (r_dev r)) 2) = Some f;
  fr_cmd : r_cmd r = READ ∨ r_cmd r = WRITE;
  fr_place : 0 ≤ r_sector r ∧ r_sector r + 2 ≤ f_size f
}.
(** The motor of [drive] runs and the drive is selected. *)
Definition motor_on (t : sched_state) (drive : Z) : Prop :=
  0 ≤ current_DOR t < 256 ∧ Z.land (current_DOR t) 3 = drive ∧ Z.testbit (current_DOR t) (4 + drive) = true ∧
  zlookup (mon_timer t) drive = Some 0.
(** The head stands on the track of [block] of drive [drive], and the controller
    is set to disks of type [f]. *)
Definition head_on (h : fd_state) (drive : Z) (f : floppy_struct) (block : Z) : Prop :=
  fd_reset h = 0 ∧ fd_recalibrate h = 0 ∧ current_drive h = drive ∧
  current_track h = fd_trk f block * 2 ^ f_stretch f ∧ cur_spec1 h = f_spec1 f ∧ cur_rate h = f_rate f.

Definition on_sched (drive : Z) (t : sched_state) : sched_state :=
  t <| moff_timer ::= zinsert drive 10000 |> <| selected := 1 |>.
Lemma ticks_run t drive :
  0 ≤ drive ≤ 3 → motor_on t drive →
  ticks_to_floppy_on drive t = Ok 0 (t <| moff_timer ::= zinsert drive 10000 |>).
Proof.
  intros Hdr (Bd & Hsel & Hbit & Hmon). destruct (motor_mask (current_DOR t) drive) as [E1 E2]; [done..|].
  unfold ticks_to_floppy_on. cbv zeta. rewrite (proj2 (Z.ltb_ge _ _)) by lia.
  rewrite (bind_Ok _ _ t tt t) by done.
  set (t1 := t <| moff_timer ::= zinsert drive 10000 |>).
  rewrite (bind_Ok _ _ _ tt t1) by done. rewrite (bind_Ok get _ t1 t1 t1 eq_refl).
  change (current_DOR t1) with (current_DOR t). rewrite E1, E2.
  assert (Hsame : (if negb (truth (selected t1)) then current_DOR t else current_DOR t) = current_DOR t)
    by (by destruct (negb _)).
  rewrite Hsame, Z.eqb_refl. rewrite (bind_Ok _ _ t1 tt t1) by done.
  unfold arr_get, get. mred. change (mon_timer t1) with (mon_timer t). by rewrite Hmon.
Qed.

(** The place in the driver's variables. *)
Definition placed (r : request_struct) (f : floppy_struct) (h : fd_state) : fd_state :=
  h <| fd_seek := 0 |> <| floppy := Z.shiftr (MINOR (r_dev r)) 2 |> <| current_drive := Z.land (r_dev r) 3 |>
    <| fd_head := fd_hd f (r_sector r) |> <| fd_track := fd_trk f (r_sector r) |>
    <| seek_track := fd_trk f (r_sector r) * 2 ^ f_stretch f |> <| fd_sector := fd_sec f (r_sector r) |>
    <| command := if r_cmd r =? READ then FD_READ else FD_WRITE |>.

Lemma transfer_run again K h d f :
  zlookup floppy_type (floppy h) = Some f → cur_spec1 h = f_spec1 f → cur_rate h = f_rate f → fd_reset h = 0 →
  fd_seek h = 0 → transfer again (sys K h d) = setup_rw_floppy again (sys K h d).
Proof.
  intros Hf Hs Hr Hreset Hseek. unfold transfer.
  rewrite (bind_Ok _ _ _ f (sys K h d)) by (by apply cur_floppy_run).
  rewrite (bind_Ok _ _ _ h (sys K h d)) by done. rewrite Hs, Hr, !Z.eqb_refl. cbn [negb].
  do 2 rewrite (bind_Ok _ _ _ tt (sys K h d)) by done. rewrite (bind_Ok _ _ _ h (sys K h d)) by done.
  by rewrite Hreset, Hseek.
Qed.
Lemma floppy_on_run again K h d :
  current_drive h = Z.land (current_DOR (k_sched K)) 3 →
  floppy_on_interrupt again (sys K h d) =
    transfer again (sys (K <| k_sched ::= λ t, t <| selected := 1 |> |>) h d).
Proof.
  intros Hd. unfold floppy_on_interrupt. set (K1 := K <| k_sched ::= λ t, t <| selected := 1 |> |>).
  rewrite (bind_Ok _ _ _ tt (sys K1 h d)) by done. rewrite (bind_Ok _ _ _ h (sys K1 h d)) by done.
  rewrite (bind_Ok _ _ _ (k_sched K1) (sys K1 h d)) by (by destruct K). by rewrite Hd, Z.eqb_refl.
Qed.

Lemma fd_request_once_run again K h d c r b x f :
  fd_request_at K c r b x f → motor_on (k_sched K) (Z.land (r_dev r) 3) →
  head_on h (Z.land (r_dev r) 3) f (r_sector r) → fd_seek h = 0 →
  fd_request_once again (sys K h d) =
    (setup_rw_floppy again ;; mret false) (sys (K <| k_sched ::= on_sched (Z.land (r_dev r) 3) |>) (placed r f h) d).
Proof.
  intros [(q & Hq & Hc) Hr Hm Hb Hx Hl Hf Hcmd [Hs0 Hsz]] Hmot (Hres & Hrec & Hdrv & Htrk & Hsp & Hrt) Hseek.
  set (drive := Z.land (r_dev r) 3) in *.
  assert (Bdr : 0 ≤ drive ≤ 3).
  { apply land3_bound. }
  assert (Hft : ∃ k, floppy_type !! k = Some f) by (unfold zlookup in Hf; destruct (_ <? 0) in Hf; [done|by eexists]).
  destruct Hft as [k Hk]. destruct (floppy_type_ok k f Hk) as (Bs & Bh & Bt & Bsz & Bst & Btk & Bmax); [lia|].
  destruct (fd_place_ok k f (r_sector r) Hk) as (_ & Bsec & Bhd & Btrk); [lia|].
  unfold fd_request_once.
  rewrite (bind_Ok _ _ _ _ _ (zoom_k_same _ (sys K h d) _ (init_request_run 2 K q c r b x Hq Hc Hr Hm Hb Hx Hl))).
  cbv zeta. fold drive. set (h1 := h <| floppy := Z.shiftr (MINOR (r_dev r)) 2 |>).
  rewrite (bind_Ok _ _ _ tt (sys K h1 d)) by done.
  rewrite (bind_Ok _ _ _ f (sys K h1 d)) by (by apply cur_floppy_run).
  set (h2 := h1 <| fd_seek := 0 |> <| current_drive := drive |>).
  rewrite (bind_Ok _ _ _ tt (sys K h2 d)).
  2:{ unfold set_drv, modify, set. cbn [sys_drv sys_k sys_dev].
      change (current_drive h1) with (current_drive h). change (fd_seek h1) with (fd_seek h).
      by rewrite Hdrv, Z.eqb_refl, Hseek. }
  rewrite (u32_small (r_sector r + 2)), (proj2 (Z.ltb_ge _ _)) by lia.
  rewrite (proj2 (Z.eqb_neq (f_sect f) 0)), (proj2 (Z.eqb_neq (f_head f) 0)) by lia. cbn [orb].
  rewrite (bind_Ok _ _ (sys K h2 d) tt (sys K h2 d)) by done.
  fold (fd_hd f (r_sector r)). fold (fd_trk f (r_sector r)).
  assert (Bmod : 0 ≤ r_sector r mod f_sect f < f_sect f) by (apply Z.mod_pos_bound; lia).
  rewrite (u8_small (r_sector r mod f_sect f)), (u8_small (r_sector r mod f_sect f + 1)) by lia.
  fold (fd_sec f (r_sector r)). rewrite (u8_small (fd_hd f (r_sector r))), !(u8_small (fd_trk f (r_sector r))) by lia.
  rewrite Z.shiftl_mul_pow2 by lia.
  assert (Btr2 : 0 ≤ fd_trk f (r_sector r) * 2 ^ f_stretch f ≤ 80) by nia.
  rewrite !(u8_small (fd_trk f (r_sector r) * 2 ^ f_stretch f)) by lia.
  set (h3 := h2 <| fd_head := fd_hd f (r_sector r) |> <| fd_track := fd_trk f (r_sector r) |>
    <| seek_track := fd_trk f (r_sector r) * 2 ^ f_stretch f |> <| fd_seek := 0 |> <| fd_sector := fd_sec f (r_sector r) |>).
  rewrite (bind_Ok _ _ _ tt (sys K h3 d)).
  2:{ set (T := fd_trk f (r_sector r) * 2 ^ f_stretch f) in *.
      assert (Hsk : (if negb (T =? current_track h2) then 1 else fd_seek h2) = 0)
        by (change (current_track h2) with (current_track h); by rewrite Htrk, Z.eqb_refl).
      transitivity (Ok (S := fd_system D) tt (sys K (h2 <| fd_head := fd_hd f (r_sector r) |> <| fd_track := fd_trk f (r_sector r) |>
        <| seek_track := T |> <| fd_seek := if negb (T =? current_track h2) then 1 else fd_seek h2 |>
        <| fd_sector := fd_sec f (r_sector r) |>) d)); [done|]. by rewrite Hsk. }
  rewrite (bind_Ok _ _ _ tt (sys K (placed r f h) d)).
  2:{ unfold placed. destruct Hcmd as [-> | ->]; done. }
  set (K1 := K <| k_sched ::= λ t, t <| moff_timer ::= zinsert drive 10000 |> |>).
  rewrite (bind_Ok _ _ _ 0 (sys K1 (placed r f h) d)).
  2:{ unfold zoom. cbn [sys_k]. rewrite (ticks_run (k_sched K) drive Bdr Hmot). done. }
  unfold mbind, M_bind. unfold fd_add_timer. rewrite (proj2 (Z.leb_le 0 0)) by lia.
  rewrite (floppy_on_run again K1 (placed r f h) d) by (symmetry; apply Hmot).
  by rewrite (transfer_run again _ (placed r f h) d f).
Qed.

Lemma rw_bytes_place r f h k :
  floppy_type !! k = Some f → 0 ≤ r_sector r < f_size f →
  u8 <$> rw_bytes (placed r f h) f =
    [if r_cmd r =? READ then FD_READ else FD_WRITE; fd_hd f (r_sector r) * 4 + Z.land (r_dev r) 3; fd_trk f (r_sector r);
     fd_hd f (r_sector r); fd_sec f (r_sector r); 2; f_sect f; f_gap f; 0xFF].
Proof.
  intros Hk Hb. destruct (fd_place_ok k f (r_sector r) Hk Hb) as (_ & Bsec & Bhd & Btrk).
  destruct (floppy_type_ok k f Hk) as (Bs & Bh & Bt & _); [lia|]. pose proof (floppy_gap_ok k f Hk) as Bg.
  unfold rw_bytes. cbn [fmap list_fmap]. 
  change (command (placed r f h)) with (if r_cmd r =? READ then FD_READ else FD_WRITE).
  change (fd_head (placed r f h)) with (fd_hd f (r_sector r)). change (current_drive (placed r f h)) with (Z.land (r_dev r) 3).
  change (fd_track (placed r f h)) with (fd_trk f (r_sector r)). change (fd_sector (placed r f h)) with (fd_sec f (r_sector r)).
  rewrite head_drive_byte by (try apply land3_bound; lia).
  rewrite (u8_small (fd_hd f (r_sector r))), (u8_small (fd_trk f (r_sector r))), (u8_small (fd_sec f (r_sector r))),
    (u8_small (f_sect f)), (u8_small (f_gap f)) by lia.
  by destruct (r_cmd r =? READ).
Qed.

(** C22: the command of a transfer.  With the motor running, the head on the
    track and the controller set up, do_fd_request sends the DMA chip the address
    of the buffer, or of tmp_floppy_area if the buffer is beyond the first
    megabyte, where a write is copied to, and the controller the nine bytes of a
    READ or WRITE whose track, head and sector name the request's block; then
    the driver waits for the interrupt of the transfer.  Nothing else is sent. *)
Theorem fd_command_correct K h d c r b x f :
  let drive := Z.land (r_dev r) 3 in
  let trk := fd_trk f (r_sector r) in let hd := fd_hd f (r_sector r) in let sec := fd_sec f (r_sector r) in
  fd_request_at K c r b x f → motor_on (k_sched K) drive → head_on h drive f (r_sector r) →
  fdc_cmd d = Some [] → (fdc_busy d < Z.to_nat 10000)%nat →
  (∃ h' d', do_fd_request (sys K h d) = Ok tt (sys (K <| k_sched ::= on_sched drive |>) h' d') ∧
    do_floppy h' = Some rw_interrupt_ ∧
    h' = dma_area b r x (placed r f h) <| do_floppy := Some rw_interrupt_ |> ∧
    outs d' = outs d ++ dma_program (if r_cmd r =? READ then DMA_READ else DMA_WRITE) (dma_addr b r) ++
      (pair FD_DATA <$> [if r_cmd r =? READ then FD_READ else FD_WRITE; hd * 4 + drive; trk; hd; sec; 2; f_sect f; f_gap f; 0xFF])) ∧
  (trk * f_head f + hd) * f_sect f + (sec - 1) = r_sector r ∧
  1 ≤ sec ≤ f_sect f ∧ 0 ≤ hd < f_head f ∧ 0 ≤ trk < f_track f.
Proof.
  intros drive trk hd sec H Hmot Hhead Hidle Hbusy.
  pose proof H as [Hfirst Hr _ Hb Hx _ Hf Hcmd [Hs0 Hsz]]. pose proof Hhead as (Hres & Hrec & _).
  assert (Hft : ∃ k, floppy_type !! k = Some f) by (unfold zlookup in Hf; destruct (_ <? 0) in Hf; [done|by eexists]).
  destruct Hft as [k Hk]. pose proof (fd_place_ok k f (r_sector r) Hk ltac:(lia)) as Hplace. split; [|exact Hplace].
  set (K1 := K <| k_sched ::= on_sched drive |>).
  destruct (setup_rw_floppy_run (fd_request no_fuel) K1 (placed r f h) d c r b x f) as (d' & Hrun & Ho); try done.
  { simpl. destruct (r_cmd r =? READ); [by left|by right]. }
  exists (dma_area b r x (placed r f h) <| do_floppy := Some rw_interrupt_ |>), d'. split; [|split; [done|split; [done|]]].
  - set (h0 := h <| fd_seek := 0 |>).
    unfold do_fd_request. unfold fd_request at 1.
    rewrite (bind_Ok _ _ _ tt (sys K h0 d)) by done. rewrite (bind_Ok _ _ _ h0 (sys K h0 d)) by done.
    change (fd_reset h0) with (fd_reset h). change (fd_recalibrate h0) with (fd_recalibrate h). rewrite Hres, Hrec.
    cbn [truth negb Z.eqb fd_request_loop]. 
    pose proof (fd_request_once_run (fd_request no_fuel) K h0 d c r b x f H Hmot Hhead eq_refl) as Honce.
    unfold mbind at 1, M_bind at 1. rewrite Honce. fold drive. fold K1.
    change (placed r f h0) with (placed r f h). by rewrite (bind_Ok _ _ _ _ _ Hrun).
  - rewrite Ho. change (command (placed r f h)) with (if r_cmd r =? READ then FD_READ else FD_WRITE).
    assert (Hdma : (if (if r_cmd r =? READ then FD_READ else FD_WRITE) =? FD_READ then DMA_READ else DMA_WRITE) =
      (if r_cmd r =? READ then DMA_READ else DMA_WRITE)) by (by destruct (r_cmd r =? READ)).
    rewrite Hdma. do 3 f_equal. apply (rw_bytes_place r f h k Hk). lia.
Qed.

(** ** The result *)
Lemma splice_insert i (b : Z) l rb :
  (i + S (length l) ≤ length rb)%nat → splice (S i) l (<[i := b]> rb) = splice i (b :: l) rb.
Proof.
  intros Hi. assert (E : <[i := b]> rb = splice i [b] rb)
    by (rewrite insert_take_drop by lia; unfold splice; simpl; by rewrite Nat.add_1_r).
  rewrite E. replace (S i) with (i + length [b])%nat by (simpl; lia). rewrite splice_app by (simpl; lia). done.
Qed.
Lemma result_loop_run K l : ∀ n h d i,
  fdc_results d = Some l → fdc_busy d = 0%nat → (length l < n)%nat → (i + length l ≤ 7)%nat →
  length (reply_buffer h) = 7%nat →
  ∃ d', result_loop n (Z.of_nat i) (sys K h d) = Ok (Z.of_nat (i + length l))
      (sys K (h <| reply_buffer := splice i l (reply_buffer h) |>) d').
Proof.
  induction l as [|b l IH]; intros n h d i Hl Hb Hn Hi Hrb; (destruct n as [|n]; [lia|]); cbn [result_loop].
  - rewrite (bind_Ok _ _ _ (port_in FD_STATUS d).1 (sys K h (port_in FD_STATUS d).2)) by done. cbv zeta.
    change (Z.lor STATUS_DIR (Z.lor STATUS_READY STATUS_BUSY)) with 0xd0. change STATUS_READY with 0x80.
    rewrite (fdc_over d Hl Hb). cbn [Z.eqb Pos.eqb]. exists (port_in FD_STATUS d).2. rewrite Nat.add_0_r.
    assert (E : splice i [] (reply_buffer h) = reply_buffer h)
      by (unfold splice; simpl; by rewrite Nat.add_0_r, take_drop).
    rewrite E. by destruct h.
  - rewrite (bind_Ok _ _ _ (port_in FD_STATUS d).1 (sys K h (port_in FD_STATUS d).2)) by done. cbv zeta.
    change (Z.lor STATUS_DIR (Z.lor STATUS_READY STATUS_BUSY)) with 0xd0. change STATUS_READY with 0x80.
    destruct (fdc_more d b l Hl Hb) as (Hst & Hbyte & Hres & Hbusy & _). rewrite Hst. cbn [Z.eqb Pos.eqb].
    simpl length in *. rewrite (proj2 (Z.leb_gt _ _)) by (unfold MAX_REPLIES; lia).
    set (d2 := (port_in FD_DATA (port_in FD_STATUS d).2)) in *.
    rewrite (bind_Ok _ _ _ d2.1 (sys K h d2.2)) by done. rewrite Hbyte.
    set (h1 := h <| reply_buffer ::= zinsert (Z.of_nat i) b |>). rewrite (bind_Ok _ _ _ tt (sys K h1 d2.2)) by done.
    destruct (IH n h1 d2.2 (S i)) as (d' & Hrun); [done|done|lia|lia|by simpl; rewrite length_zinsert|].
    exists d'. replace (Z.of_nat i + 1) with (Z.of_nat (S i)) by lia. rewrite Hrun.
    replace (S i + length l)%nat with (i + S (length l))%nat by lia. unfold h1. simpl reply_buffer.
    assert (E : zinsert (Z.of_nat i) b (reply_buffer h) = <[i := b]> (reply_buffer h))
      by (unfold zinsert; rewrite (proj2 (Z.ltb_ge _ _)), Nat2Z.id by lia; done).
    rewrite E, splice_insert by lia. done.
Qed.

(** What floppy_deselect does to the kernel. *)
Lemma floppy_deselect_run K h d nr :
  wakeable K (wait_on_floppy_select (k_blk K)) →
  ∃ K', floppy_deselect nr (sys K h d) = Ok tt (sys K' h d) ∧ k_buf K' = k_buf K ∧
    request (k_blk K') = request (k_blk K) ∧ blk_dev (k_blk K') = blk_dev (k_blk K) ∧
    wait_for_request (k_blk K') = wait_for_request (k_blk K) ∧ wakes K K'.
Proof.
  intros Hw. unfold floppy_deselect. rewrite (bind_Ok _ _ _ (k_sched K) (sys K h d)) by (by destruct K).
  rewrite (bind_Ok _ _ _ tt (sys K h d)) by (by destruct (negb _)).
  set (K1 := K <| k_sched ::= λ t, t <| selected := 0 |> |>).
  rewrite (bind_Ok _ _ _ tt (sys K1 h d)) by done.
  destruct (wake_up_run wait_on_floppy_select_q K1) as (ks & Hrun & Hk); [exact Hw| |].
  { intros ks H0. change (wait_on_floppy_select (k_blk K) = 0) in H0. unfold K1. clear Hw K1.
    destruct K as [? ? ? [] ? ? ? ? ?]. simpl in H0. by subst. }
  eexists. rewrite (zoom_k _ (sys K1 h d) _ _ Hrun). split; [done|]. do 4 (split; [done|]). exact Hk.
Qed.

(** Seven bytes of a result. *)
Lemma result_run K h d l :
  fd_reset h = 0 → fdc_results d = Some l → fdc_busy d = 0%nat → length l = 7%nat → length (reply_buffer h) = 7%nat →
  ∃ d', result_ (sys K h d) = Ok 7 (sys K (h <| reply_buffer := l |>) d').
Proof.
  intros Hr Hl Hb H7 Hrb. unfold result_. rewrite (bind_Ok _ _ _ h (sys K h d)) by done. rewrite Hr. cbn [truth negb Z.eqb].
  assert (Hn : (length l < Z.to_nat 10000)%nat) by (rewrite H7; apply Nat.ltb_lt; by vm_compute).
  destruct (result_loop_run K l (Z.to_nat 10000) h d 0 Hl Hb Hn) as (d' & Hrun); [lia|done|].
  exists d'. change 0 with (Z.of_nat 0). rewrite Hrun, H7. 
  assert (E : splice 0 l (reply_buffer h) = l).
  { unfold splice. simpl. rewrite drop_ge by lia. apply app_nil_r. }
  by rewrite E.
Qed.
Lemma reply_run K h d i v : zlookup (reply_buffer h) i = Some v → reply i (sys K h d) = Ok v (sys K h d).
Proof. intros Hv. unfold reply, drv, get. mred. cbn [sys_drv]. by rewrite Hv. Qed.

(** The data of a read comes back from tmp_floppy_area if it went there. *)
Definition fd_received (h : fd_state) (b : nat) (r : request_struct) (x : buffer_head) : buffer_head :=
  if (command h =? FD_READ) && (0x100000 <=? buffer_addr b + r_buffer r) then fill (r_buffer r) (tmp_floppy_area h) x else x.
Lemma copy_back_run K h d c r b x :
  first_is 2 K c → req_is K c r → r_bh r = Some b → buf_is K b x →
  when (command h =? FD_READ) (addr ← request_addr; when (0x100000 <=? addr) copy_from_tmp) (sys K h d) =
    Ok tt (sys (set_buf b (fd_received h b r x) K) h d).
Proof.
  intros Hc Hr Hb Hx. unfold fd_received. pose proof (current_req_run 2 (sys K h d) c r Hc Hr) as Hcur.
  destruct (command h =? FD_READ); cbn [andb when]; [|by rewrite (set_buf_same b x K Hx)].
  assert (Haddr : request_addr (sys K h d) = Ok (buffer_addr b + r_buffer r) (sys K h d))
    by (unfold request_addr; rewrite (bind_Ok _ _ _ _ _ Hcur), Hb; done).
  rewrite (bind_Ok _ _ _ _ _ Haddr). destruct (0x100000 <=? _); cbn [when]; [|by rewrite (set_buf_same b x K Hx)].
  unfold copy_from_tmp. rewrite (bind_Ok _ _ _ _ _ Hcur), Hb. rewrite (bind_Ok _ _ _ b (sys K h d)) by done.
  rewrite (bind_Ok _ _ _ h (sys K h d)) by done. by rewrite (zoom_k _ (sys K h d) _ _ (set_bh_run K b _ x Hx)).
Qed.

(** the end of a transfer.  At the interrupt of a transfer whose seven
    result bytes show no error, the data a read left in tmp_floppy_area is
    copied to the buffer, the buffer is unlocked and up to date, the request is
    free, and the driver goes on with the next one. *)
Theorem fd_done_correct K h d c r b x f st0 st1 st2 rest :
  fd_request_at K c r b x f → do_floppy h = Some rw_interrupt_ → fd_reset h = 0 → length (reply_buffer h) = 7%nat →
  fdc_results d = Some (st0 :: st1 :: st2 :: rest) → length rest = 4%nat → fdc_busy d = 0%nat →
  Z.land st0 0xf8 = 0 → Z.land st1 0xbf = 0 → Z.land st2 0x73 = 0 →
  waiters_ok K r x → wakeable K (wait_on_floppy_select (k_blk K)) →
  ∃ K' h' d', floppy_interrupt (sys K h d) = do_fd_request (sys K' h' d') ∧
    finished 2 K K' c r b (ended_buffer 1 (fd_received h b r x)).
Proof.
  intros [Hc Hr _ Hb Hx _ _ _ _] Hdo Hreset Hrb Hres Hrest Hbusy H0 H1 H2 (W1 & W2 & W3) Hsel.
  set (d1 := port_out 0x20 (u8 0x20) d). set (h1 := h <| do_floppy := None |>).
  destruct (fdc_out 0x20 (u8 0x20) d) as (_ & _ & Hres1 & Hbusy1); [done|]. fold d1 in Hres1, Hbusy1.
  set (l := st0 :: st1 :: st2 :: rest) in *. set (h2 := h1 <| reply_buffer := l |>).
  destruct (result_run K h1 d1 l) as (d2 & Hresult); [done|by rewrite Hres1|by rewrite Hbusy1|simpl; lia|done|].
  assert (Hgo : floppy_interrupt (sys K h d) = rw_interrupt do_fd_request (sys K h1 d1)).
  { unfold floppy_interrupt. rewrite (bind_Ok _ _ _ tt (sys K h d1)) by done.
    rewrite (bind_Ok _ _ _ h (sys K h d1)) by done. rewrite (bind_Ok _ _ _ tt (sys K h1 d1)) by done. by rewrite Hdo. }
  rewrite Hgo. unfold rw_interrupt. rewrite (bind_Ok _ _ _ _ _ Hresult). fold h2.
  rewrite (bind_Ok _ _ _ st0 (sys K h2 d2)) by (by apply reply_run).
  rewrite (bind_Ok _ _ _ st1 (sys K h2 d2)) by (by apply reply_run).
  rewrite (bind_Ok _ _ _ st2 (sys K h2 d2)) by (by apply reply_run).
  unfold has. rewrite H0, H1, H2. cbn [truth negb Z.eqb Pos.eqb orb].
  rewrite (bind_Ok _ _ _ h2 (sys K h2 d2)) by done.
  set (K1 := set_buf b (fd_received h2 b r x) K).
  rewrite (bind_Ok _ _ _ _ _ (copy_back_run K h2 d2 c r b x Hc Hr Hb Hx)). fold K1.
  destruct (floppy_deselect_run K1 h2 d2 (current_drive h2)) as (K2 & Hdes & Hbuf2 & Hreq2 & Hdev2 & Hwait2 & Hk2); [exact Hsel|].
  rewrite (bind_Ok _ _ _ _ _ Hdes).
  assert (Hrx : b_wait (fd_received h2 b r x) = b_wait x) by (unfold fd_received; by destruct (_ && _)).
  destruct Hc as (q & Hq & Hcq).
  destruct (end_request_run 2 1 K2 q c r b (fd_received h2 b r x)) as (K3 & Hend & Hbuf3 & Hreq3 & Hdev3); try done.
  { by rewrite Hdev2. } { unfold req_is. by rewrite Hreq2. }
  { unfold buf_is. rewrite Hbuf2. by apply (buf_is_set K b x). }
  { apply Hk2. by rewrite Hrx. } { by apply Hk2. } { rewrite Hwait2. by apply Hk2. }
  rewrite (bind_Ok _ _ _ _ _ (zoom_k _ (sys K2 h2 d2) _ _ Hend)).
  exists K3, h2, d2. split; [done|]. split.
  - exists (ended_request r). by rewrite Hreq3, Hreq2.
  - exists (q <| current_request := r_next r |>). rewrite Hdev3, Hdev2. split; [|done].
    apply zlookup_zinsert_eq. by eapply zlookup_Some.
  - rewrite Hbuf3, Hbuf2. unfold K1, set_buf, set. simpl. by rewrite list_insert_insert_eq.
Qed.
End Transfer.
