(* ===== verification/Main.v ===== *)
(** * init/main.c: main(), and the initialisers it calls in sched.c, serial.c
    and tty_io.c

    main() up to the jump to user mode.  The drivers share the ports of one
    board; the code between the calls of the initialisers is the memory layout
    of Sys and the clock of Mktime. *)

From stdpp Require Import base option list gmap strings.
From Stdlib Require Import ZArith.
From S2P Require Import Prelude Types Memory Mktime Screen Sched Kernel Blk Ports Buffer Tty Fork Console Sys Traps Hd Floppy.
Local Open Scope Z_scope.

(** The variables of the disk drivers and drive_info of main.c. *)
Record drivers := mk_drivers { d_hd : hd_state; d_fd : fd_state; drive_info : list Z }.
#[export] Instance eta_drivers : Eta drivers := fun d => mk_drivers (d_hd d) (d_fd d) (drive_info d).

Section Boot.
Context {L : Linked} {D : Type} {Ctl : Controller D}.

(** ** serial.c *)
Section Serial.
Context {X : Type}.

(** init(): 2400 bps, 8 bits, all interrupts but those for writes. *)
Definition init (port : Z) : M (io_system X D) unit :=
  outp 0x80 (port + 3) ;;
  outp 0x30 port ;;
  outp 0x00 (port + 1) ;;
  outp 0x03 (port + 3) ;;
  outp 0x0b (port + 4) ;;
  outp 0x0d (port + 1) ;;
  inp port ;;
  mret tt.

Definition rs_init : M (io_system X D) unit :=
  zoom sys_k (zoom k_sched (set_intr_gate 0x24 rs1_interrupt)) ;;
  zoom sys_k (zoom k_sched (set_intr_gate 0x23 rs2_interrupt)) ;;
  t ← zoom sys_k (tty_at 1);
  init (q_data (read_q t)) ;;
  t ← zoom sys_k (tty_at 2);
  init (q_data (read_q t)) ;;
  mask_port 0xE7 0x21.

(** Bit 1 of the interrupt register: interrupt when the transmitter is empty. *)
Definition rs_write (n : nat) : M (io_system X D) unit :=
  t ← zoom sys_k (tty_at n);
  when (negb (EMPTY (write_q t))) (
    b ← inp (q_data (write_q t) + 1);
    outp (Z.lor b 0x02) (q_data (write_q t) + 1)).

(** ** tty_io.c *)
Definition chr_dev_init : M (io_system X D) unit := mret tt.
Definition tty_init : M (io_system X D) unit := rs_init ;; con_init.

(** ** sched.c *)
Definition LATCH : Z := 1193180 / HZ.
Definition sched_init : M (io_system X D) unit :=
  zoom sys_k (zoom k_sched sched_tables) ;;
  (* ltr(0), lldt(0): the descriptors just made are loaded *)
  outp 0x36 0x43 ;;
  outp (Z.land LATCH 0xff) 0x40 ;;
  outp (Z.shiftr LATCH 8) 0x40 ;;
  zoom sys_k (zoom k_sched (set_intr_gate 0x20 timer_interrupt)) ;;
  mask_port (Z.lnot 0x01) 0x21 ;;
  zoom sys_k (zoom k_sched (set_system_gate 0x80 system_call_)).
End Serial.

(** ** main.c *)

(** What setup.s and the image builder left at 0x90000. *)
Definition EXT_MEM_K (s : mm) : Z := setup_short s 0x90002.
Definition DRIVE_INFO (s : mm) : list Z := (λ i, setup_byte s (0x90080 + Z.of_nat i)) <$> seq 0 32.
Definition ORIG_ROOT_DEV (s : mm) : Z := setup_short s 0x901FC.

(** main() up to sti(); [fuel] bounds how often the clock is read. *)
Definition main (fuel : nat) : M (io_system drivers D) unit :=
  s ← get;
  let m := k_mm (sys_k s) in
  zoom sys_k (modify (λ k, k <| k_fs ::= λ f, f <| ROOT_DEV := ORIG_ROOT_DEV m |> |>)) ;;
  set_drv (λ d, d <| drive_info := DRIVE_INFO m |>) ;;
  let '(memory_end, buffer_memory_end, main_memory_start) := memory_layout (EXT_MEM_K m) in
  zoom sys_k (zoom k_mm (mem_init main_memory_start memory_end)) ;;
  trap_init ;;
  zoom sys_k blk_dev_init ;;
  chr_dev_init ;;
  tty_init ;;
  t ← time_init CMOS_READ fuel;
  zoom sys_k (zoom k_sched (modify (λ d, d <| startup_time := t |>))) ;;
  sched_init ;;
  zoom sys_k (zoom k_buf (buffer_init buffer_memory_end)) ;;
  on_drv d_hd hd_init ;;
  on_drv d_fd floppy_init.
End Boot.
