(* ===== verification/MainProofs.v ===== *)
(** * The boot

    main() brings the machine from what the boot loader leaves into a state in
    which the invariants of the other files hold. *)

From stdpp Require Import base option list gmap.
From Stdlib Require Import ZArith Lia.
From S2P Require Import Prelude Types Memory MemoryFacts Mktime Screen ScreenProofs ConsoleFacts Sched SchedProofs Kernel Blk Ports Buffer BufferProofs GetblkProofs Tty Fork Console Sys Traps TrapsProofs SysProofs Hd Floppy Main.
Local Open Scope Z_scope.

(** ** The board

    The interrupt controllers return the masks written to them; no other port
    changes these, and none the date the CMOS clock shows: it does not tick while
    the kernel boots. *)
Definition pic (p : Z) : Prop := p = 0x21 ∨ p = 0xA1.
Class Board (D : Type) {Ctl : Controller D} := {
  irq_mask : Z → D → Z;
  board_date : D → tm;
  irq_mask_byte p d : pic p → 0 ≤ irq_mask p d < 256;
  pic_in p d : pic p → (port_in p d).1 = irq_mask p d;
  mask_in p q d : pic q → irq_mask q (port_in p d).2 = irq_mask q d;
  mask_out p q v d : pic q → 0 ≤ v < 256 → irq_mask q (port_out p v d) = if p =? q then v else irq_mask q d;
  date_in p d : board_date (port_in p d).2 = board_date d;
  date_out p v d : board_date (port_out p v d) = board_date d;
  cmos_in addr v d : (addr, v) ∈ clock_regs (board_date d) →
    (port_in 0x71 (port_out 0x70 (u8 (Z.lor 0x80 addr)) d)).1 = v
}.

(** The gate table of the kernel. *)
Definition with_idt (f : list desc_struct → list desc_struct) (k : kernel) : kernel :=
  k <| k_sched ::= λ c, c <| idt ::= f |> |>.

Section Board.
Context {D : Type} {Ctl : Controller D} {B : Board D}.
Implicit Types d : D.

(** What the kernel can tell of the board. *)
Record board_is (m1 m2 : Z) (t : tm) (d : D) : Prop := {
  is_m1 : irq_mask 0x21 d = m1;
  is_m2 : irq_mask 0xA1 d = m2;
  is_date : board_date d = t
}.

Lemma pic_1 : pic 0x21.
Proof. by left. Qed.
Lemma pic_2 : pic 0xA1.
Proof. by right. Qed.
Hint Resolve pic_1 pic_2 : core.

Lemma board_out p v m1 m2 t d :
  ¬ pic p → board_is m1 m2 t d → board_is m1 m2 t (port_out p (u8 v) d).
Proof.
  intros Hp [<- <- <-]. pose proof (u8_bound v).
  assert (Hne : ∀ q, pic q → irq_mask q (port_out p (u8 v) d) = irq_mask q d).
  { intros q Hq. rewrite mask_out by done. by destruct (Z.eqb_spec p q) as [->|]. }
  split; [by apply Hne|by apply Hne|apply date_out].
Qed.
Lemma board_in p m1 m2 t d : board_is m1 m2 t d → board_is m1 m2 t (port_in p d).2.
Proof. intros [<- <- <-]. split; [by apply mask_in|by apply mask_in|apply date_in]. Qed.

Lemma land_byte m k : 0 ≤ m < 256 → u8 (Z.land m k) = Z.land m k.
Proof.
  intros Hm. rewrite <-(u8_small m) at 2 by done. unfold u8, wrap. change (2 ^ 8) with 256.
  change 256 with (2 ^ 8). rewrite <-!Z.land_ones by lia.
  by rewrite <-!Z.land_assoc, (Z.land_comm k).
Qed.
Lemma board_mask1 k m1 m2 t d : board_is m1 m2 t d → board_is (Z.land m1 k) m2 t (masked k 0x21 d).
Proof.
  intros [<- <- <-]. unfold masked. pose proof (u8_bound (Z.land (port_in 0x21 d).1 k)).
  split; rewrite ?mask_out, ?date_out by done; simpl; [|by apply mask_in|apply date_in].
  rewrite pic_in by done. apply land_byte, irq_mask_byte, pic_1.
Qed.
Lemma board_mask2 k m1 m2 t d : board_is m1 m2 t d → board_is m1 (Z.land m2 k) t (masked k 0xA1 d).
Proof.
  intros [<- <- <-]. unfold masked. pose proof (u8_bound (Z.land (port_in 0xA1 d).1 k)).
  split; rewrite ?mask_out, ?date_out by done; simpl; [by apply mask_in| |apply date_in].
  rewrite pic_in by done. apply land_byte, irq_mask_byte, pic_2.
Qed.

(** ** The steps of main()

    A state: the kernel, the drivers, and what is known of the board. *)
Context {X : Type}.
Implicit Types (s : io_system X D) (k : kernel).
Record at_ k (x : X) m1 m2 t s : Prop := {
  at_k : sys_k s = k; at_drv : sys_drv s = x; at_dev : board_is m1 m2 t (sys_dev s)
}.

Lemma at_outp p v k x m1 m2 t s :
  at_ k x m1 m2 t s → ¬ pic p → wp (outp v p) (λ _, at_ k x m1 m2 t) s.
Proof. intros [] Hp. split; [done..|]. simpl. by apply board_out. Qed.
Lemma at_inp p k x m1 m2 t s : at_ k x m1 m2 t s → wp (inp p) (λ _, at_ k x m1 m2 t) s.
Proof. intros []. split; [done..|]. simpl. by apply board_in. Qed.
Lemma at_mask1 m k x m1 m2 t s :
  at_ k x m1 m2 t s → wp (mask_port m 0x21) (λ _, at_ k x (Z.land m1 m) m2 t) s.
Proof. intros []. split; [done..|]. by apply board_mask1. Qed.
Lemma at_mask2 m k x m1 m2 t s :
  at_ k x m1 m2 t s → wp (mask_port m 0xA1) (λ _, at_ k x m1 (Z.land m2 m) t) s.
Proof. intros []. split; [done..|]. by apply board_mask2. Qed.
(** A routine of the kernel that does not touch the ports. *)
Lemma at_zoom {A} (m : M kernel A) (Q : A → kernel → Prop) k x m1 m2 t s :
  at_ k x m1 m2 t s → wp m Q k → wp (zoom sys_k m) (λ a s', ∃ k', Q a k' ∧ at_ k' x m1 m2 t s') s.
Proof.
  intros [<- ? ?] Hm. unfold wp, zoom in *. destruct (m (sys_k s)); try done. eexists. split; [done|by split].
Qed.
Lemma at_set_drv f k x m1 m2 t s : at_ k x m1 m2 t s → wp (set_drv f) (λ _, at_ k (f x) m1 m2 t) s.
Proof. intros [? <- ?]. by split. Qed.

Lemma clock_at k x m1 m2 t : clock_shows CMOS_READ (at_ k x m1 m2 t) t.
Proof.
  intros s addr v [Hk Hx Hb] Hv. set (s1 := s <| sys_dev ::= port_out 0x70 (u8 (Z.lor 0x80 addr)) |>).
  exists (s1 <| sys_dev := (port_in 0x71 (sys_dev s1)).2 |>). split.
  - unfold CMOS_READ. rewrite (bind_Ok _ _ _ tt s1) by done. unfold inp. rewrite (bind_Ok _ _ _ s1 s1) by done.
    assert ((port_in 0x71 (sys_dev s1)).1 = v) as <-; [|done]. apply cmos_in. by destruct Hb as [_ _ ->].
  - split; [done..|]. apply board_in, board_out; [|done]. by intros [|].
Qed.

(** A gate, and any other step of the kernel. *)
Lemma at_run {A} (m : M kernel A) a k' k x m1 m2 t s :
  at_ k x m1 m2 t s → m k = Ok a k' → wp (zoom sys_k m) (λ a' s', a' = a ∧ at_ k' x m1 m2 t s') s.
Proof. intros [<- ? ?] Hm. unfold wp, zoom. rewrite Hm. split; [done|by split]. Qed.
Lemma at_gate `{Linked} n type dpl e k x m1 m2 t s :
  at_ k x m1 m2 t s →
  wp (zoom sys_k (zoom k_sched (_set_gate n type dpl e)))
    (λ _, at_ (with_idt <[n := desc_of (type, dpl, e)]> k) x m1 m2 t) s.
Proof. intros [<- ? ?]. by split. Qed.
Lemma at_trap_init `{Linked} g k x m1 m2 t s :
  at_ k x m1 m2 t s → length g = 256%nat → idt (k_sched k) = desc_of <$> g →
  wp trap_init (λ _, at_ (with_idt (λ _, desc_of <$> traps_set g) k) x
    (Z.land m1 0xfb) (Z.land m2 0xdf) t) s.
Proof.
  intros [<- ? ?] Hlen Hg. unfold wp. rewrite (trap_init_run s g) by done.
  split; [done..|]. simpl. by apply board_mask2, board_mask1.
Qed.
End Board.

(** ** The initialisers *)
Ltac step L := apply wp_bind; eapply wp_mono; [L|cbv beta].
Ltac port := apply at_outp; [eassumption|by intros [|]].

Section Init.
Context {L : Linked} {D : Type} {Ctl : Controller D} {B : Board D}.

Section Any.
Context {X : Type}.
Implicit Types (s : io_system X D) (k : kernel).
Lemma at_init p k x m1 m2 t s :
  at_ k x m1 m2 t s → 0x200 ≤ p → wp (init p) (λ _, at_ k x m1 m2 t) s.
Proof.
  intros Hs Hp. unfold init. do 6 (step ltac:(apply at_outp; [eassumption|unfold pic; lia]); intros _ ? ?).
  step ltac:(by apply at_inp). by intros _ ? ?.
Qed.
Lemma at_rs_init k x m1 m2 t s :
  at_ k x m1 m2 t s → tty_table (k_tty k) = init_tty_table →
  wp rs_init (λ _, at_ (with_idt <[0x23%nat := desc_of (14, 0, rs2_interrupt)]>
    (with_idt <[0x24%nat := desc_of (14, 0, rs1_interrupt)]> k)) x (Z.land m1 0xE7) m2 t) s.
Proof.
  intros Hs Htty. unfold rs_init. step ltac:(by apply at_gate). intros _ s1 H1.
  step ltac:(by apply at_gate). intros _ s2 H2.
  step ltac:(eapply at_run; [exact H2|]; unfold tty_at, get; mred; simpl; rewrite Htty; done). intros t1 s3 [-> H3].
  step ltac:(apply at_init; [exact H3|done]). intros _ s4 H4.
  step ltac:(eapply at_run; [exact H4|]; unfold tty_at, get; mred; simpl; rewrite Htty; done). intros t2 s5 [-> H5].
  step ltac:(apply at_init; [exact H5|done]). intros _ s6 H6. by apply at_mask1.
Qed.
Lemma at_con_init k x m1 m2 t s :
  at_ k x m1 m2 t s →
  wp con_init (λ _, at_ (with_idt <[0x21%nat := desc_of (15, 0, keyboard_interrupt)]>
    (k <| k_con ::= init_screen (k_mm k) |>)) x (Z.land m1 0xfd) m2 t) s.
Proof.
  intros Hs. unfold con_init. step ltac:(by eapply at_run). intros _ s1 [_ H1].
  step ltac:(by apply at_gate). intros _ s2 H2. step ltac:(by apply at_mask1). intros _ s3 H3.
  step ltac:(by apply at_inp). intros a s4 H4. step port. intros _ s5 H5. port.
Qed.
Lemma at_sched_init k sc x m1 m2 t s :
  at_ k x m1 m2 t s → sched_tables (k_sched k) = Ok tt sc →
  wp sched_init (λ _, at_ (with_idt <[0x80%nat := desc_of (15, 3, system_call_)]>
    (with_idt <[0x20%nat := desc_of (14, 0, timer_interrupt)]> (k <| k_sched := sc |>)))
    x (Z.land m1 (Z.lnot 1)) m2 t) s.
Proof.
  intros Hs Hsc. unfold sched_init. step ltac:(eapply at_run; [exact Hs|]; unfold zoom; by rewrite Hsc). intros _ s1 [_ H1].
  step port. intros _ s2 H2. step port. intros _ s3 H3. step port. intros _ s4 H4.
  step ltac:(by apply at_gate). intros _ s5 H5. step ltac:(by apply at_mask1). intros _ s6 H6. by apply at_gate.
Qed.
End Any.

(** hd_init() and floppy_init(), seen by their drivers and by the system. *)
Lemma at_hd_init k b (x : hd_state) m1 m2 t s :
  at_ k x m1 m2 t s → upd_blk_dev 3 (λ d, d <| request_fn := Some do_hd_request_fn |>) k = Ok tt b →
  wp hd_init (λ _, at_ (with_idt <[0x2E%nat := desc_of (14, 0, hd_interrupt_)]> b) x
    (Z.land m1 0xfb) (Z.land m2 0xbf) t) s.
Proof.
  intros Hs Hb. unfold hd_init. step ltac:(by eapply at_run). intros _ s1 [_ H1].
  step ltac:(by apply at_gate). intros _ s2 H2. step ltac:(by apply at_mask1). intros _ s3 H3. by apply at_mask2.
Qed.
Lemma at_floppy_init k b (x : fd_state) m1 m2 t s :
  at_ k x m1 m2 t s → upd_blk_dev 2 (λ d, d <| request_fn := Some do_fd_request_fn |>) k = Ok tt b →
  wp floppy_init (λ _, at_ (with_idt <[0x26%nat := desc_of (15, 0, floppy_interrupt_)]> b) x
    (Z.land m1 (Z.lnot 0x40)) m2 t) s.
Proof.
  intros Hs Hb. unfold floppy_init. step ltac:(by eapply at_run). intros _ s1 [_ H1].
  step ltac:(by apply at_gate). intros _ s2 H2. by apply at_mask1.
Qed.
Lemma at_on_drv {X Y A} (part : X → Y) `{!Setter part} (m : M (io_system Y D) A) k x m1 m2 t s k' m1' m2' :
  at_ k x m1 m2 t s →
  (∀ s1, at_ k (part x) m1 m2 t s1 → wp m (λ _, at_ k' (part x) m1' m2' t) s1) →
  wp (on_drv part m) (λ _, at_ k' (x <| part := part x |>) m1' m2' t) s.
Proof.
  intros [<- <- Hd] Hm. specialize (Hm (mk_system (sys_k s) (part (sys_drv s)) (sys_dev s)) ltac:(by split)).
  unfold wp, on_drv in *. destruct (m _) as [a s'| | | |]; try done. destruct Hm as [<- Hx ?]. split; [done| |done].
  simpl. by rewrite Hx.
Qed.
End Init.

Lemma zoom_Ok {S T A} (proj : S → T) `{!Setter proj} (m : M T A) s a t :
  m (proj s) = Ok a t → zoom proj m s = Ok a (s <| proj := t |>).
Proof. intros H. unfold zoom. by rewrite H. Qed.

(** ** The tables of the kernel *)

(** The loop over task[1], task[2], ... and their descriptors. *)
Lemma clear_slots l : ∀ pre s gd,
  task s = pre ++ l → gdt s = gd →
  ∃ gd', for_each (seq (length pre) (length l)) clear_entry s
    = Ok tt (s <| task := pre ++ replicate (length l) 0 |> <| gdt := gd' |>).
Proof.
  induction l as [|x l IH]; intros pre s gd Ht Hg; cbn [length seq for_each].
  - exists gd. rewrite app_nil_r in Ht |- *. destruct s. simpl in *. by subst.
  - assert (Hbody : ∃ g1, clear_entry (length pre) s = Ok tt (s <| task ::= <[length pre := 0]> |> <| gdt := g1 |>))
      by (exists (<[2 + FIRST_TSS_ENTRY + 2 * (Z.of_nat (length pre) - 1) + 1 := mk_desc 0 0]>
        (<[2 + FIRST_TSS_ENTRY + 2 * (Z.of_nat (length pre) - 1) := mk_desc 0 0]> (gdt s))); reflexivity).
    destruct Hbody as [g1 Hbody]. rewrite (bind_Ok _ _ _ _ _ Hbody). set (s1 := s <| task ::= _ |> <| gdt := _ |>).
    destruct (IH (pre ++ [0]) s1 (gdt s1)) as [gd' Hrun]; [|done|].
    + simpl. by rewrite Ht, insert_app_r_alt, Nat.sub_diag, <-app_assoc by lia.
    + exists gd'. rewrite length_app, Nat.add_1_r in Hrun. etrans; [exact Hrun|]. by rewrite <-app_assoc.
Qed.
Lemma sched_tables_run s l :
  task s = init_task s :: l → length l = (NR_TASKS - 1)%nat →
  ∃ gd, sched_tables s = Ok tt (s <| task := init_task s :: replicate (NR_TASKS - 1) 0 |> <| gdt := gd |>).
Proof.
  intros Ht Hl. unfold sched_tables. rewrite (bind_Ok _ _ _ s s) by done.
  set (s1 := s <| gdt ::= <[FIRST_TSS_ENTRY := tssldt_desc (init_task s + TSS_OFFSET) 0x89]> |>).
  rewrite (bind_Ok _ _ _ tt s1) by done.
  set (s2 := s1 <| gdt ::= <[FIRST_LDT_ENTRY := tssldt_desc (init_task s + LDT_OFFSET) 0x82]> |>).
  rewrite (bind_Ok _ _ _ tt s2) by done.
  destruct (clear_slots l [init_task s] s2 (gdt s2)) as [gd Hrun]; [done..|].
  exists gd. rewrite <-Hl. etrans; [exact Hrun|]. done.
Qed.
Lemma blk_dev_init_run k :
  length (request (k_blk k)) = NR_REQUEST →
  blk_dev_init k = Ok tt (k <| k_blk ::= λ b, b <| request ::= fmap (λ r, r <| r_dev := -1 |> <| r_next := None |>) |> |>).
Proof.
  intros Hl. destruct k as [? ? ? b], b as [rs]. simpl in Hl. do 32 (destruct rs as [|? rs]; [done|]). by destruct rs.
Qed.
Lemma upd_blk_dev_run k i f d :
  zlookup (blk_dev (k_blk k)) i = Some d →
  upd_blk_dev i f k = Ok tt (k <| k_blk ::= λ b, b <| blk_dev ::= zinsert i (f d) |> |>).
Proof. intros Hd. unfold upd_blk_dev, blk_dev_at, get. mred. by rewrite Hd. Qed.
Lemma setup_byte_phys s s' a : phys s' = phys s → setup_byte s' a = setup_byte s a.
Proof. intros H. unfold setup_byte, word. by rewrite H. Qed.
Lemma setup_ok_phys s s' : phys s' = phys s → setup_ok s → setup_ok s'.
Proof.
  intros H. unfold setup_ok, ORIG_VIDEO_COLS, ORIG_X, ORIG_Y, setup_short. by rewrite !(setup_byte_phys s s').
Qed.
Lemma count_buffers_some n b h : n ≠ 0%nat → h + BUFFER_HEAD_SIZE <= b - BLOCK_SIZE → count_buffers n b h ≠ 0%nat.
Proof. intros Hn H. destruct n; [done|]. simpl. by rewrite (proj2 (Z.leb_le _ _) H). Qed.

Lemma buffer_init_run e s :
  0x100000 ≤ e → e mod 4096 = 0 → start_buffer s + BUFFER_HEAD_SIZE ≤ 640 * 1024 - BLOCK_SIZE →
  ∃ n, n ≠ 0%nat ∧ buffer_init e s = Ok tt (init_cache n s).
Proof.
  intros He _ Hs. unfold buffer_init. rewrite (bind_Ok get _ s s s eq_refl). cbv zeta. change (Z.shiftl 1 20) with 0x100000.
  set (b := if e =? _ then _ else _). assert (Hb : 640 * 1024 ≤ b) by (unfold b; destruct (e =? 0x100000); lia).
  exists (count_buffers (Z.to_nat (b / BLOCK_SIZE)) b (start_buffer s)).
  assert (Hn : count_buffers (Z.to_nat (b / BLOCK_SIZE)) b (start_buffer s) ≠ 0%nat).
  { apply count_buffers_some; [|unfold BLOCK_SIZE in *; lia].
    assert (640 ≤ b / BLOCK_SIZE) by (apply Z.div_le_lower_bound; unfold BLOCK_SIZE; lia). lia. }
  split; [done|]. by rewrite bool_decide_false by done.
Qed.

Section Main.
Context {L : Linked} {LO : LinkedOk} {D : Type} {Ctl : Controller D} {B : Board D}.

(** ** main() *)

(** What head.s and the program image provide: 256 interrupt gates to
    ignore_int, the variables with their initial values, task 0 alone in the
    task table; and what setup.s has stored fits the console and leaves room for
    a buffer below 640 KB. *)
Record at_power_on (s : io_system drivers D) (t : tm) : Prop := {
  on_idt : idt (k_sched (sys_k s)) = replicate 256 (desc_of (14, 0, ignore_int));
  on_task : ∃ l, task (k_sched (sys_k s)) = init_task (k_sched (sys_k s)) :: l ∧ length l = (NR_TASKS - 1)%nat;
  on_task0 : init_task (k_sched (sys_k s)) ≠ 0 ∧
    ∃ pg, tasks (k_sched (sys_k s)) !! init_task (k_sched (sys_k s)) = Some (INIT_TASK (init_task (k_sched (sys_k s))) pg);
  on_mem : Z.of_nat (length (mem_map (k_mm (sys_k s)))) = PAGING_PAGES;
  on_setup : setup_ok (k_mm (sys_k s));
  on_con : k_con (sys_k s) = boot_console;
  on_tty : tty_table (k_tty (sys_k s)) = init_tty_table;
  on_request : length (request (k_blk (sys_k s))) = NR_REQUEST;
  on_blk_dev : blk_dev (k_blk (sys_k s)) = replicate (Z.to_nat NR_BLK_DEV) (mk_blk_dev None None);
  on_end : start_buffer (k_buf (sys_k s)) + BUFFER_HEAD_SIZE ≤ 640 * 1024 - BLOCK_SIZE;
  on_date : board_date (sys_dev s) = t ∧ valid_date t ∧ tm_year t < 100
}.

(** The gates after the boot. *)
Definition boot_gates : list (Z * Z * entry) :=
  take 32 trap_gates ++ [
    (14, 0, timer_interrupt); (15, 0, keyboard_interrupt); (15, 0, reserved); (14, 0, rs2_interrupt);
    (14, 0, rs1_interrupt); (15, 0, reserved); (15, 0, floppy_interrupt_); (15, 0, parallel_interrupt);
    (15, 0, reserved); (15, 0, reserved); (15, 0, reserved); (15, 0, reserved); (15, 0, reserved);
    (15, 0, irq13); (14, 0, hd_interrupt_); (15, 0, reserved)] ++
  replicate 80 (14, 0, ignore_int) ++ [(15, 3, system_call_)] ++ replicate 127 (14, 0, ignore_int).

(** The kernel after the boot of [k0]: its memory map [mm'], its task-state
    descriptors [gd] and its start time [t]. *)
Definition booted (k0 : kernel) (m' : mm) (gd : gmap Z desc_struct) (t : Z) (n : nat) : kernel :=
  let k := k0 <| k_mm := m' |> <| k_con := init_screen m' boot_console |> <| k_buf := init_cache n (k_buf k0) |> in
  let k := k <| k_fs ::= λ f, f <| ROOT_DEV := ORIG_ROOT_DEV (k_mm k0) |> |> in
  let k := k <| k_blk ::= λ b, b <| request ::= fmap (λ r, r <| r_dev := -1 |> <| r_next := None |>) |>
    <| blk_dev := [mk_blk_dev None None; mk_blk_dev None None; mk_blk_dev (Some do_fd_request_fn) None;
         mk_blk_dev (Some do_hd_request_fn) None; mk_blk_dev None None; mk_blk_dev None None; mk_blk_dev None None] |> |> in
  k <| k_sched ::= λ c, c <| task := init_task c :: replicate (NR_TASKS - 1) 0 |> <| gdt := gd |>
    <| idt := desc_of <$> boot_gates |> <| startup_time := t |> |>.

Lemma main_run s t fuel :
  at_power_on s t →
  let '(memory_end, buffer_end, start) := memory_layout (EXT_MEM_K (k_mm (sys_k s))) in
  ∃ m' n, n ≠ 0%nat ∧ HIGH_MEMORY m' = memory_end ∧ phys m' = phys (k_mm (sys_k s)) ∧
    mem_map m' = map_of start memory_end <$> seq 0 (Z.to_nat PAGING_PAGES) ∧
    wp (main (S fuel)) (λ _ s', ∃ gd, at_ (booted (sys_k s) m' gd (epoch_seconds t) n)
      (sys_drv s <| drive_info := DRIVE_INFO (k_mm (sys_k s)) |>)
      (Z.land (irq_mask 0x21 (sys_dev s)) 0xa0) (Z.land (irq_mask 0xA1 (sys_dev s)) 0x9f) t s') s.
Proof.
  intros [Hidt (l & Htask & Hl) _ Hmem Hsetup Hcon Htty Hreq Hdev Hend (Hdate & Hvalid & Hyear)].
  set (m0 := k_mm (sys_k s)) in *.
  pose proof (memory_layout_bounds (EXT_MEM_K m0)) as Hlay.
  destruct (memory_layout (EXT_MEM_K m0)) as [[me be] st] eqn:Hml.
  destruct Hlay as (-> & Hbe & Hme & Hme0 & Hbe0).
  { unfold EXT_MEM_K, setup_short. pose proof (setup_byte_bound m0 0x90002). pose proof (setup_byte_bound m0 (0x90002 + 1)). lia. }
  destruct (mem_init_run m0 be me Hmem) as (m' & Hrun & Hh & Hp & Hm); [lia..|].
  destruct (buffer_init_run be (k_buf (sys_k s))) as (n & Hn & Hbuf); [lia|done|done|].
  exists m', n. do 4 (split; [done|]).
  assert (H0 : at_ (sys_k s) (sys_drv s) (irq_mask 0x21 (sys_dev s)) (irq_mask 0xA1 (sys_dev s)) t s) by (split; [done..|by split]).
  apply wp_bind. change (wp ?m ?Q s) with (wp (m s) Q s) || idtac. unfold wp at 1, get. fold m0. cbv zeta. rewrite Hml.
  step ltac:(by eapply at_run). intros _ s1 [_ H1]. step ltac:(by apply at_set_drv). intros _ s2 H2.
  step ltac:(eapply at_run; [exact H2|by apply zoom_Ok]). intros _ s3 [_ H3].
  step ltac:(apply (at_trap_init (replicate 256 (14, 0, ignore_int))); [exact H3|done|by rewrite fmap_replicate]). intros _ s4 H4.
  step ltac:(eapply at_run; [exact H4|by apply blk_dev_init_run]). intros _ s5 [_ H5].
  apply wp_bind, wp_ret. apply wp_bind. unfold tty_init.
  step ltac:(by apply at_rs_init). intros _ s6 H6. eapply wp_mono; [by apply at_con_init|cbv beta]. intros _ s7 H7.
  apply wp_bind. apply wp_Ok.
  edestruct (time_init_correct (CMOS_READ (X := drivers))) as (s8 & Htime & H8); [exact Hvalid|exact Hyear|apply clock_at|exact H7|].
  eexists _, s8. split; [exact Htime|].
  step ltac:(by eapply at_run). intros _ s9 [_ H9].
  lazymatch type of H9 with at_ ?k _ _ _ _ _ => destruct (sched_tables_run (k_sched k) l Htask Hl) as [gd Hgd] end.
  step ltac:(eapply at_sched_init; [exact H9|exact Hgd]). intros _ s10 H10.
  step ltac:(eapply at_run; [exact H10|by apply zoom_Ok]). intros _ s11 [_ H11].
  step ltac:(eapply at_on_drv; [exact H11|]; intros s12 H12; eapply at_hd_init; [exact H12|];
    apply (upd_blk_dev_run _ 3 _ (mk_blk_dev None None)); simpl; by rewrite Hdev). intros _ s12 H12.
  eapply wp_mono; [eapply at_on_drv; [exact H12|]; intros s13 H13; eapply at_floppy_init; [exact H13|];
    apply (upd_blk_dev_run _ 2 _ (mk_blk_dev None None)); simpl; by rewrite Hdev|cbv beta]. intros _ s13 H13. exists gd.
  destruct H13 as [Hk Hx Hd]. split.
  - rewrite Hk. clear -Hidt Hcon Hdev. subst m0. destruct (sys_k s) as [mm0 sc buf blk fs ttys con us sw].
    destruct sc, blk, fs. simpl in Hidt, Hcon, Hdev. subst. unfold booted. reflexivity.
  - by rewrite Hx.
  - destruct Hd as [H1' H2' H3']. split; [rewrite H1'|rewrite H2'|done]; by rewrite <-!Z.land_assoc.
Qed.

Lemma boot_gates_ok n g : boot_gates !! n = Some g → leads_to (desc_of g) g.1.1 g.1.2 g.2.
Proof.
  intros Hg. apply gate_desc_leads.
  - assert (Hall : Forall (λ g, g.1.1 = 14 ∨ g.1.1 = 15) boot_gates) by (apply (bool_decide_unpack _); by vm_compute).
    by apply (Forall_lookup_1 _ _ _ _ Hall Hg).
  - assert (Hall : Forall (λ g, g.1.2 = 0 ∨ g.1.2 = 3) boot_gates) by (apply (bool_decide_unpack _); by vm_compute).
    by apply (Forall_lookup_1 _ _ _ _ Hall Hg).
Qed.
Lemma boot_gates_user n g : boot_gates !! n = Some g → g.1.2 = 3 ↔ n ∈ [3; 4; 5; 0x80]%nat.
Proof.
  intros Hg. assert (Hn : (n < 256)%nat) by (apply lookup_lt_Some in Hg; exact Hg).
  assert (Hall : forallb (λ n, match boot_gates !! n with
    | Some g => Bool.eqb (g.1.2 =? 3) (bool_decide (n ∈ [3; 4; 5; 0x80]%nat)) | None => false end) (seq 0 256) = true)
    by by vm_compute.
  rewrite forallb_forall in Hall. specialize (Hall n (proj2 (in_seq 256 0 n) ltac:(lia))). rewrite Hg in Hall.
  apply Bool.eqb_prop in Hall. rewrite <-Z.eqb_eq, Hall. apply bool_decide_eq_true.
Qed.

Lemma boot_mm_wf m' start me :
  mem_map m' = map_of start me <$> seq 0 (Z.to_nat PAGING_PAGES) → HIGH_MEMORY m' = me → me ≤ 0x1000000 → mm_wf m'.
Proof.
  intros Hm Hh He. split; [by rewrite Hm, length_fmap, length_seq|]. split.
  - rewrite Hm. apply Forall_fmap, Forall_forall. intros i _. unfold compose, map_of, USED. case_match; lia.
  - rewrite Hh. unfold LOW_MEM, PAGING_MEMORY. lia.
Qed.
Lemma boot_sched_wf s t :
  task s = init_task s :: replicate (NR_TASKS - 1) 0 → init_task s ≠ 0 →
  tasks s !! init_task s = Some t →
  sched_wf s ∧ ∀ i p, task s !! i = Some p → i ≠ 0%nat → p = 0.
Proof.
  intros Ht H0 Htask.
  assert (Hz : ∀ i p, task s !! i = Some p → i ≠ 0%nat → p = 0).
  { intros [|i] p Hi Hne; [done|]. rewrite Ht in Hi. by apply lookup_replicate in Hi as [-> _]. }
  split; [|done]. split.
  - rewrite Ht. simpl. done.
  - intros i j p Hi Hj Hp. destruct i, j; try done; exfalso; apply Hp; first [by eapply (Hz (S _))|by eapply Hz].
  - intros i p Hi Hp. destruct i; [|by destruct Hp; eapply (Hz (S i))]. rewrite Ht in Hi. injection Hi as <-. by eexists.
  - intros i p t' ([Hi0 _] & Hi & Hp & _). destruct Hp. apply (Hz i); [done|lia].
Qed.

(** The state in which main() enables the interrupts, for a boot from [s]. *)
Record well_booted (s s' : io_system drivers D) (t : tm) : Prop := {
  (* free are exactly the pages above the buffers *)
  boot_memory : let '(memory_end, _, start) := memory_layout (EXT_MEM_K (k_mm (sys_k s))) in
    mm_wf (k_mm (sys_k s')) ∧ HIGH_MEMORY (k_mm (sys_k s')) = memory_end ∧
    mem_map (k_mm (sys_k s')) = map_of start memory_end <$> seq 0 (Z.to_nat PAGING_PAGES);
  (* a well-formed cache without any block *)
  boot_cache : ∃ n, n ≠ 0%nat ∧ cache_ok (k_buf (sys_k s')) (λ _, []) (seq 0 n) ∧
    ∀ b, (b < n)%nat → spare (k_buf (sys_k s')) b;
  (* task 0 alone *)
  boot_sched : sched_wf (k_sched (sys_k s')) ∧
    ∀ i p, task (k_sched (sys_k s')) !! i = Some p → i ≠ 0%nat → p = 0;
  boot_screen : con_ok (k_con (sys_k s'));
  (* no request, and the two disk drivers *)
  boot_blk : Forall (λ r, r_dev r = -1 ∧ r_next r = None) (request (k_blk (sys_k s'))) ∧
    Forall (λ d, current_request d = None) (blk_dev (k_blk (sys_k s'))) ∧
    request_fn <$> blk_dev (k_blk (sys_k s')) !! 2%nat = Some (Some do_fd_request_fn) ∧
    request_fn <$> blk_dev (k_blk (sys_k s')) !! 3%nat = Some (Some do_hd_request_fn);
  (* the gates; programs can use four of them *)
  boot_idt : ∀ n, (n < 256)%nat → ∃ d g, idt (k_sched (sys_k s')) !! n = Some d ∧ boot_gates !! n = Some g ∧
    leads_to d g.1.1 g.1.2 g.2 ∧ (gate_dpl d = 3 ↔ n ∈ [3; 4; 5; 0x80]%nat);
  (* the lines let through *)
  boot_masks : irq_mask 0x21 (sys_dev s') = Z.land (irq_mask 0x21 (sys_dev s)) 0xa0 ∧
    irq_mask 0xA1 (sys_dev s') = Z.land (irq_mask 0xA1 (sys_dev s)) 0x9f;
  boot_time : startup_time (k_sched (sys_k s')) = epoch_seconds t;
  boot_root : ROOT_DEV (k_fs (sys_k s')) = ORIG_ROOT_DEV (k_mm (sys_k s))
}.

(** C23: the boot.  From what the boot loader leaves, main() reaches the jump to
    user mode: the page map has free exactly the pages above the buffers, the
    buffer cache is well-formed and holds no block, the scheduler's tables are
    well-formed with task 0 alone, the console is set up, no request is queued
    and both disk drivers are installed; every interrupt has its gate, programs
    can call only 3, 4, 5 and the system call, and the controllers let through
    the timer, the keyboard, the serial lines, the disks and the coprocessor.
    The clock is set to the date the CMOS shows. *)
Theorem main_correct s t fuel :
  at_power_on s t → ∃ s', main (S fuel) s = Ok tt s' ∧ well_booted s s' t.
Proof.
  intros Hon. pose proof (main_run s t fuel Hon) as H. destruct (memory_layout _) as [[me be] st] eqn:Hml.
  destruct H as (m' & n & Hn & Hh & Hp & Hm & Hrun). apply wp_Ok in Hrun as ([] & s' & Hrun & gd & [Hk _ [Hm1 Hm2 _]]).
  destruct Hon as [_ _ [H0 [pg Htask]] _ Hsetup _ _ _ _ _ _].
  pose proof (memory_layout_bounds (EXT_MEM_K (k_mm (sys_k s)))) as Hlay. rewrite Hml in Hlay.
  destruct Hlay as (-> & _ & Hme & _).
  { unfold EXT_MEM_K, setup_short. pose proof (setup_byte_bound (k_mm (sys_k s)) 0x90002).
    pose proof (setup_byte_bound (k_mm (sys_k s)) (0x90002 + 1)). lia. }
  exists s'. split; [done|]. split; rewrite ?Hk; try done.
  - rewrite Hml. split; [by eapply boot_mm_wf|done].
  - exists n. split; [done|]. split; [by apply init_cache_ok|intros b; apply init_cache_spare].
  - by eapply boot_sched_wf.
  - by apply init_screen_ok, (setup_ok_phys (k_mm (sys_k s))).
  - split; [|by repeat constructor]. simpl. apply Forall_fmap, Forall_forall. by intros.
  - intros i Hi. destruct (lookup_lt_is_Some_2 boot_gates i Hi) as [g Hg]. exists (desc_of g), g.
    split; [change (idt _) with (desc_of <$> boot_gates); by rewrite list_lookup_fmap, Hg|].
    pose proof (boot_gates_ok i g Hg) as Hl. do 2 (split; [done|]).
    destruct Hl as (_ & _ & _ & -> & _). by apply boot_gates_user.
Qed.
End Main.
