(* ===== verification/Syscall.v ===== *)
(** * include/linux/sys.h, unistd.h, system_call.s and the library stubs

    The system calls as a user program makes them: the macros of unistd.h and
    the routines of lib/ built with them, interrupt 0x80, the table of sys.h,
    the handlers of the other files, and the way back; the timer interrupt,
    which leaves by the same code; and ctype.c, the other part of lib/ that is
    linked to user programs.

    The interrupt routines are written as in system_call.s, on the registers and
    the kernel stack of the current task: the registers of the interrupted
    program are words of the stack, which the handlers read as their arguments,
    own, and change.  A call that does not return, because its task is gone,
    gives [None]. *)

From stdpp Require Import base option list gmap strings.
From Stdlib Require Import ZArith Lia.
From S2P Require Import Prelude Types Memory Sched Kernel Blk Ports Buffer Inode FileDev Tty Namei Open Fork Exit Exec Sys.
From S2P Require Import Screen KernelFacts Traps Hd Floppy Main Console.
Local Open Scope Z_scope.

(** ** The numbers of unistd.h and the table of sys.h *)

Inductive sys_fn :=
  | Sys_setup | Sys_exit | Sys_fork | Sys_read | Sys_write | Sys_open | Sys_close | Sys_waitpid
  | Sys_creat | Sys_link | Sys_unlink | Sys_execve | Sys_chdir | Sys_time | Sys_mknod | Sys_chmod
  | Sys_chown | Sys_break | Sys_stat | Sys_lseek | Sys_getpid | Sys_mount | Sys_umount | Sys_setuid
  | Sys_getuid | Sys_stime | Sys_ptrace | Sys_alarm | Sys_fstat | Sys_pause | Sys_utime | Sys_stty
  | Sys_gtty | Sys_access | Sys_nice | Sys_ftime | Sys_sync | Sys_kill | Sys_rename | Sys_mkdir
  | Sys_rmdir | Sys_dup | Sys_pipe | Sys_times | Sys_prof | Sys_brk | Sys_setgid | Sys_getgid
  | Sys_signal | Sys_geteuid | Sys_getegid | Sys_acct | Sys_phys | Sys_lock | Sys_ioctl | Sys_fcntl
  | Sys_mpx | Sys_setpgid | Sys_ulimit | Sys_uname | Sys_umask | Sys_chroot | Sys_ustat | Sys_dup2
  | Sys_getppid | Sys_getpgrp | Sys_setsid | Sys_sigaction | Sys_sgetmask | Sys_ssetmask
  | Sys_setreuid | Sys_setregid.
#[export] Instance sys_fn_eq : EqDecision sys_fn.
Proof. solve_decision. Defined.

(** [__NR_...] *)
Definition NR (f : sys_fn) : Z :=
  match f with
  | Sys_setup => 0 | Sys_exit => 1 | Sys_fork => 2 | Sys_read => 3 | Sys_write => 4 | Sys_open => 5
  | Sys_close => 6 | Sys_waitpid => 7 | Sys_creat => 8 | Sys_link => 9 | Sys_unlink => 10
  | Sys_execve => 11 | Sys_chdir => 12 | Sys_time => 13 | Sys_mknod => 14 | Sys_chmod => 15
  | Sys_chown => 16 | Sys_break => 17 | Sys_stat => 18 | Sys_lseek => 19 | Sys_getpid => 20
  | Sys_mount => 21 | Sys_umount => 22 | Sys_setuid => 23 | Sys_getuid => 24 | Sys_stime => 25
  | Sys_ptrace => 26 | Sys_alarm => 27 | Sys_fstat => 28 | Sys_pause => 29 | Sys_utime => 30
  | Sys_stty => 31 | Sys_gtty => 32 | Sys_access => 33 | Sys_nice => 34 | Sys_ftime => 35
  | Sys_sync => 36 | Sys_kill => 37 | Sys_rename => 38 | Sys_mkdir => 39 | Sys_rmdir => 40
  | Sys_dup => 41 | Sys_pipe => 42 | Sys_times => 43 | Sys_prof => 44 | Sys_brk => 45
  | Sys_setgid => 46 | Sys_getgid => 47 | Sys_signal => 48 | Sys_geteuid => 49 | Sys_getegid => 50
  | Sys_acct => 51 | Sys_phys => 52 | Sys_lock => 53 | Sys_ioctl => 54 | Sys_fcntl => 55
  | Sys_mpx => 56 | Sys_setpgid => 57 | Sys_ulimit => 58 | Sys_uname => 59 | Sys_umask => 60
  | Sys_chroot => 61 | Sys_ustat => 62 | Sys_dup2 => 63 | Sys_getppid => 64 | Sys_getpgrp => 65
  | Sys_setsid => 66 | Sys_sigaction => 67 | Sys_sgetmask => 68 | Sys_ssetmask => 69
  | Sys_setreuid => 70 | Sys_setregid => 71
  end.

Definition sys_call_table : list sys_fn := [
  Sys_setup; Sys_exit; Sys_fork; Sys_read; Sys_write; Sys_open; Sys_close; Sys_waitpid; Sys_creat;
  Sys_link; Sys_unlink; Sys_execve; Sys_chdir; Sys_time; Sys_mknod; Sys_chmod; Sys_chown;
  Sys_break; Sys_stat; Sys_lseek; Sys_getpid; Sys_mount; Sys_umount; Sys_setuid; Sys_getuid;
  Sys_stime; Sys_ptrace; Sys_alarm; Sys_fstat; Sys_pause; Sys_utime; Sys_stty; Sys_gtty;
  Sys_access; Sys_nice; Sys_ftime; Sys_sync; Sys_kill; Sys_rename; Sys_mkdir; Sys_rmdir; Sys_dup;
  Sys_pipe; Sys_times; Sys_prof; Sys_brk; Sys_setgid; Sys_getgid; Sys_signal; Sys_geteuid;
  Sys_getegid; Sys_acct; Sys_phys; Sys_lock; Sys_ioctl; Sys_fcntl; Sys_mpx; Sys_setpgid;
  Sys_ulimit; Sys_uname; Sys_umask; Sys_chroot; Sys_ustat; Sys_dup2; Sys_getppid; Sys_getpgrp;
  Sys_setsid; Sys_sigaction; Sys_sgetmask; Sys_ssetmask; Sys_setreuid; Sys_setregid].

Definition nr_system_calls : Z := 72.

(** How many parameters the handlers are declared with. *)
Definition nargs (f : sys_fn) : nat :=
  match f with
  | Sys_read | Sys_write | Sys_open | Sys_waitpid | Sys_execve | Sys_mknod | Sys_chown | Sys_lseek
  | Sys_mount | Sys_signal | Sys_ioctl | Sys_fcntl | Sys_sigaction => 3
  | Sys_creat | Sys_link | Sys_chmod | Sys_stat | Sys_fstat | Sys_utime | Sys_access | Sys_kill
  | Sys_mkdir | Sys_setpgid | Sys_ustat | Sys_dup2 | Sys_setreuid | Sys_setregid => 2
  | Sys_setup | Sys_exit | Sys_close | Sys_unlink | Sys_chdir | Sys_time | Sys_umount | Sys_setuid
  | Sys_stime | Sys_alarm | Sys_nice | Sys_rmdir | Sys_dup | Sys_pipe | Sys_times | Sys_brk
  | Sys_setgid | Sys_uname | Sys_umask | Sys_chroot | Sys_ssetmask => 1
  | _ => 0
  end.

(** What the linker, the compiler and the stack decide: the address of
    drive_info in main.c; the bytes of struct stat that cp_stat() does not set;
    what a handler, called with [args], leaves in the stack slots of its
    parameters, which are its own variables (sys_read() assigns to count,
    sys_open() to mode), and in ecx and edx, which C routines do not keep. *)
Class Image := {
  drive_info_at : Z;
  stack_junk : list Z;
  args_left : sys_fn → list Z → kernel → list Z;
  scratch : kernel → Z * Z
}.

(** What the interrupt routines of the current task run on: eax, the other
    registers, the words of its kernel stack from the top, and the rest.  In
    the kernel, eip and esp of the record are not those of the code and the
    stack that run. *)
Record machine (D : Type) := mk_machine {
  m_eax : Z; m_regs : regs; m_stack : list Z; m_sys : io_system drivers D
}.
Arguments mk_machine {D} _ _ _ _.
Arguments m_eax {D} _.
Arguments m_regs {D} _.
Arguments m_stack {D} _.
Arguments m_sys {D} _.
#[export] Instance eta_machine {D} : Eta (machine D) := fun m => mk_machine (m_eax m) (m_regs m) (m_stack m) (m_sys m).

(** The offsets of system_call.s, in words. *)
Definition EAX : nat := 0.
Definition EBX : nat := 1.
Definition ECX : nat := 2.
Definition EDX : nat := 3.
Definition FS : nat := 4.
Definition ES : nat := 5.
Definition DS : nat := 6.
Definition EIP : nat := 7.
Definition CS : nat := 8.
Definition EFLAGS : nat := 9.
Definition OLDESP : nat := 10.
Definition OLDSS : nat := 11.

Section Calls.
Context {E : Env} {I : Image} {D : Type} {Ctl : Controller D} {A : Addresses}.
Local Notation system := (io_system drivers D).
Local Notation kern m := (zoom sys_k m).
Local Notation sch m := (zoom sys_k (zoom k_sched m)).
Local Notation run m := (zoom m_sys m).
Local Notation MM := (M (machine D)).

(** [n] bytes of the kernel's memory. *)
Definition kernel_bytes (addr : Z) (n : nat) (s : system) : list Z :=
  if addr =? drive_info_at then take n (drive_info (sys_drv s))
  else (λ i, setup_byte (k_mm (sys_k s)) (addr + Z.of_nat i)) <$> seq 0 n.

(** The routine behind an entry of the table, called with the arguments [bx],
    [cx] and [dx]; [r] is what _sys_fork and _sys_execve find on the stack and
    in the registers.  The result is the value, if the call comes back, and the
    eip and esp that execve writes to the stack. *)
Definition handler (f : sys_fn) (bx cx dx : Z) (r : regs) : M system (option (Z * option (Z * Z))) :=
  let call (m : M kernel Z) := v ← kern m; mret (Some (v, None)) in
  match f with
  | Sys_setup => s ← get; v ← on_drv d_hd (sys_setup (kernel_bytes bx 32 s)); mret (Some (v, None))
  | Sys_exit => v ← kern (sys_exit (s32 bx)); mret ((λ v, (v, None)) <$> v)
  | Sys_fork => call (sys_fork r)
  | Sys_read => call (sys_read (u32 bx) (u32 cx) (s32 dx))
  | Sys_write => call (sys_write (u32 bx) (u32 cx) (s32 dx))
  | Sys_open => call (sys_open (u32 bx) (s32 cx) (s32 dx))
  | Sys_close => call (sys_close (u32 bx))
  | Sys_waitpid => call (sys_waitpid (s32 bx) (u32 cx) (s32 dx))
  | Sys_creat => call (sys_creat (u32 bx) (s32 cx))
  | Sys_link => call (sys_link (u32 bx) (u32 cx))
  | Sys_unlink => call (sys_unlink (u32 bx))
  | Sys_execve =>
      r ← kern (do_execve (r_cs r) (u32 bx) (u32 cx) (u32 dx)); mret (Some r)
  | Sys_chdir => call (sys_chdir (u32 bx))
  | Sys_time => call (sys_time (u32 bx))
  | Sys_mknod => call (sys_mknod (u32 bx) (s32 cx) (s32 dx))
  | Sys_chmod => call (sys_chmod (u32 bx) (s32 cx))
  | Sys_chown => call (sys_chown (u32 bx) (s32 cx) (s32 dx))
  | Sys_break => call sys_break
  | Sys_stat => call (sys_stat stack_junk (u32 bx) (u32 cx))
  | Sys_lseek => call (sys_lseek (u32 bx) (s32 cx) (s32 dx))
  | Sys_getpid => call (zoom k_sched sys_getpid)
  | Sys_mount => call (sys_mount (u32 bx) (u32 cx) (s32 dx))
  | Sys_umount => call (sys_umount (u32 bx))
  | Sys_setuid => call (sys_setuid (s32 bx))
  | Sys_getuid => call (zoom k_sched sys_getuid)
  | Sys_stime => call (sys_stime (u32 bx))
  | Sys_ptrace => call sys_ptrace
  | Sys_alarm => call (zoom k_sched (sys_alarm (s32 bx)))
  | Sys_fstat => call (sys_fstat stack_junk (u32 bx) (u32 cx))
  | Sys_pause => call sys_pause
  | Sys_utime => call (sys_utime (u32 bx) (u32 cx))
  | Sys_stty => call sys_stty
  | Sys_gtty => call sys_gtty
  | Sys_access => call (sys_access (u32 bx) (s32 cx))
  | Sys_nice => call (zoom k_sched (sys_nice (s32 bx)))
  | Sys_ftime => call sys_ftime
  | Sys_sync => call sys_sync
  | Sys_kill => call (zoom k_sched (sys_kill (s32 bx) (s32 cx)))
  | Sys_rename => call sys_rename
  | Sys_mkdir => call (sys_mkdir (u32 bx) (s32 cx))
  | Sys_rmdir => call (sys_rmdir (u32 bx))
  | Sys_dup => call (sys_dup (u32 bx))
  | Sys_pipe => call (sys_pipe (u32 bx))
  | Sys_times => call (sys_times (u32 bx))
  | Sys_prof => call sys_prof
  | Sys_brk => call (sys_brk (u32 bx))
  | Sys_setgid => call (sys_setgid (s32 bx))
  | Sys_getgid => call (zoom k_sched sys_getgid)
  | Sys_signal => call (sys_signal (s32 bx) (s32 cx) (s32 dx))
  | Sys_geteuid => call (zoom k_sched sys_geteuid)
  | Sys_getegid => call (zoom k_sched sys_getegid)
  | Sys_acct => call sys_acct
  | Sys_phys => call sys_phys
  | Sys_lock => call sys_lock
  | Sys_ioctl => call (sys_ioctl (u32 bx) (u32 cx) (u32 dx))
  | Sys_fcntl => call (sys_fcntl (u32 bx) (u32 cx) (u32 dx))
  | Sys_mpx => call sys_mpx
  | Sys_setpgid => call (zoom k_sched (sys_setpgid (s32 bx) (s32 cx)))
  | Sys_ulimit => call sys_ulimit
  | Sys_uname => call (sys_uname (u32 bx))
  | Sys_umask => call (sys_umask (s32 bx))
  | Sys_chroot => call (sys_chroot (u32 bx))
  | Sys_ustat => call (sys_ustat (s32 bx) (u32 cx))
  | Sys_dup2 => call (sys_dup2 (u32 bx) (u32 cx))
  | Sys_getppid => call (zoom k_sched sys_getppid)
  | Sys_getpgrp => call sys_getpgrp
  | Sys_setsid => call sys_setsid
  | Sys_sigaction => call (sys_sigaction (s32 bx) (u32 cx) (u32 dx))
  | Sys_sgetmask => call sys_sgetmask
  | Sys_ssetmask => call (sys_ssetmask (s32 bx))
  | Sys_setreuid => call (sys_setreuid (s32 bx) (s32 cx))
  | Sys_setregid => call (sys_setregid (s32 bx) (s32 cx))
  end.

(** ** system_call.s *)

(** *** The instructions *)
Definition push (v : Z) : MM unit := modify (λ m, m <| m_stack ::= cons v |>).
Definition pop : MM Z :=
  m ← get;
  match m_stack m with [] => fault | v :: l => modify (λ m, m <| m_stack := l |>) ;; mret v end.
(** The word [k] above the top. *)
Definition word_at (k : nat) : MM Z := m ← get; deref (m_stack m !! k).
Definition set_word (k : nat) (v : Z) : MM unit := modify (λ m, m <| m_stack ::= <[k := v]> |>).
Definition upd_regs (f : regs → regs) : MM unit := modify (λ m, m <| m_regs ::= f |>).
Definition eax_is (v : Z) : MM unit := modify (λ m, m <| m_eax := v |>).

(** What the processor does at an interrupt: a program is interrupted on the
    kernel stack of its task, which is empty, and leaves its ss and esp there. *)
Definition interrupt : MM unit :=
  m ← get;
  let r := m_regs m in
  when (negb (Z.land (r_cs r) 3 =? 0)) (
    modify (λ m, m <| m_stack := [] |>) ;;
    push (r_ss r) ;;
    push (r_esp r) ;;
    upd_regs (λ r, r <| r_ss := 0x10 |>)) ;;
  push (r_eflags r) ;;
  push (r_cs r) ;;
  push (r_eip r) ;;
  upd_regs (λ r, r <| r_cs := 8 |>).
Definition iret : MM unit :=
  eip ← pop;
  cs ← pop;
  eflags ← pop;
  upd_regs (λ r, r <| r_eip := eip |> <| r_cs := cs |> <| r_eflags := eflags |>) ;;
  when (negb (Z.land cs 3 =? 0)) (
    esp ← pop;
    ss ← pop;
    upd_regs (λ r, r <| r_esp := esp |> <| r_ss := ss |>)).

(** *** The way in and the way back *)

(** [push %ds] ... [pushl %ebx] *)
Definition save_regs : MM unit :=
  m ← get;
  let r := m_regs m in
  push (r_ds r) ;;
  push (r_es r) ;;
  push (r_fs r) ;;
  push (r_edx r) ;;
  push (r_ecx r) ;;
  push (r_ebx r).
(** ds and es become the kernel's data segment, fs the program's. *)
Definition kernel_segments : MM unit := upd_regs (λ r, r <| r_ds := 0x10 |> <| r_es := 0x10 |> <| r_fs := 0x17 |>).

(** From [ret_from_sys_call:] on.  do_signal() is called with the number pushed
    in front of the saved registers, which are its other parameters; it writes
    to those of eip and esp. *)
Definition signal_pending : MM (option Z) :=
  cs ← word_at CS;
  if negb (Z.land cs 0xffff =? 0x0f) then mret None else
  ss ← word_at OLDSS;
  if negb (Z.land ss 0xffff =? 0x17) then mret None else
  run (kern take_signal).
Definition deliver (signr : Z) : MM unit :=
  push signr ;;
  eax ← word_at (S EAX);
  ecx ← word_at (S ECX);
  edx ← word_at (S EDX);
  eip ← word_at (S EIP);
  eflags ← word_at (S EFLAGS);
  esp ← word_at (S OLDESP);
  '(eip, esp) ← run (kern (do_signal signr eax ecx edx eip eflags esp));
  set_word (S EIP) eip ;;
  set_word (S OLDESP) esp ;;
  v ← pop;
  eax_is v.
Definition restore_regs : MM unit :=
  v ← pop; eax_is v ;;
  v ← pop; upd_regs (λ r, r <| r_ebx := v |>) ;;
  v ← pop; upd_regs (λ r, r <| r_ecx := v |>) ;;
  v ← pop; upd_regs (λ r, r <| r_edx := v |>) ;;
  v ← pop; upd_regs (λ r, r <| r_fs := v |>) ;;
  v ← pop; upd_regs (λ r, r <| r_es := v |>) ;;
  v ← pop; upd_regs (λ r, r <| r_ds := v |>).
Definition ret_from_sys_call_ : MM unit :=
  signr ← signal_pending;
  match signr with None => mret tt | Some signr => deliver signr end ;;
  restore_regs ;;
  iret.

(** *** System calls *)

(** What _sys_fork pushes and _sys_execve points to: the saved registers above
    the return address, and the registers that nobody has saved. *)
Definition saved_regs : MM regs :=
  m ← get;
  let at_ k := default 0 (m_stack m !! k) in
  let r := m_regs m in
  mret (mk_regs (r_ebp r) (r_edi r) (r_esi r) (r_gs r) (at_ EBX) (at_ ECX) (at_ EDX) (at_ FS) (at_ ES) (at_ DS)
    (at_ EIP) (at_ CS) (at_ EFLAGS) (at_ OLDESP) (at_ OLDSS)).

(** The parameters of the handler are its own. *)
Definition use_args (f : sys_fn) (args : list Z) : MM unit :=
  m ← get;
  let left := args_left f args (sys_k (m_sys m)) in
  for_each (seq 0 (nargs f)) (λ i, match left !! i with Some v => set_word (EBX + i) v | None => mret tt end).
Definition use_scratch : MM unit :=
  m ← get;
  let '(cx, dx) := scratch (sys_k (m_sys m)) in
  upd_regs (λ r, r <| r_ecx := cx |> <| r_edx := dx |>).

(** [call _sys_call_table(,%eax,4)]: the return address, whatever it is, goes
    on the stack and comes off it.  False when the call does not come back. *)
Definition call_handler (f : sys_fn) : MM bool :=
  push 0 ;;
  bx ← word_at EBX;
  cx ← word_at ECX;
  dx ← word_at EDX;
  r ← saved_regs;
  result ← run (handler f bx cx dx r);
  match result with
  | None => mret false
  | Some (v, jump) =>
      match jump with Some (eip, esp) => set_word EIP eip ;; set_word OLDESP esp | None => mret tt end ;;
      use_args f [bx; cx; dx] ;;
      use_scratch ;;
      pop ;;
      eax_is v ;;
      mret true
  end.

(** _system_call; the comparison with the number of calls is unsigned. *)
Definition system_call : MM bool :=
  m ← get;
  if nr_system_calls - 1 <? u32 (m_eax m) then eax_is (-1) ;; iret ;; mret true else
  save_regs ;;
  kernel_segments ;;
  f ← deref (sys_call_table !! Z.to_nat (u32 (m_eax m)));
  back ← call_handler f;
  if negb back then mret false else
  m ← get;
  push (m_eax m) ;;
  t ← run (kern me);
  when (negb (state t =? 0) || (counter t =? 0)) (run (kern reschedule)) ;;
  ret_from_sys_call_ ;;
  mret true.

(** A routine that do_exit() ends does not come back; what it would do after a
    do_exit() that came back, to task 0, is not followed. *)
Definition or_gone (m : MM bool) : MM bool := λ s,
  match m s with
  | Exit code s => (r ← run (kern (do_exit code)); match r with None => mret false | Some _ => fault end) s
  | r => r
  end.

(** ** do_timer() of sched.c *)

(** Only the floppy driver sets timers. *)
Definition timer_fn (fn : Z) : M system unit := on_drv d_fd (floppy_timer fn).

(** [while (next_timer && next_timer->jiffies <= 0)] *)
Fixpoint run_timers (fuel : nat) : M system unit :=
  match fuel with
  | O => no_fuel
  | S fuel =>
      d ← sch get;
      match next_timer d with
      | None => mret tt
      | Some n =>
          t ← sch (timer_at n);
          if t_jiffies t <=? 0 then
            sch (upd_timer n (λ t, t <| t_fn := 0 |>)) ;;
            sch (modify (λ d, d <| next_timer := t_next t |>)) ;;
            timer_fn (t_fn t) ;;
            run_timers fuel
          else mret tt
      end
  end.
(** [if (next_timer) { next_timer->jiffies--; while ... }]; no more requests can
    be due than there are slots. *)
Definition tick_timers : M system unit :=
  d ← sch get;
  match next_timer d with
  | None => mret tt
  | Some n => sch (upd_timer n (λ t, t <| t_jiffies ::= λ j, j - 1 |>)) ;; run_timers (S TIME_REQUESTS)
  end.

Definition do_timer (cpl : Z) : M system unit :=
  d ← sch get;
  when (truth (beepcount d)) (
    sch (modify (λ d, d <| beepcount ::= λ b, s32 (b - 1) |>)) ;;
    d ← sch get;
    when (negb (truth (beepcount d))) (kern sysbeepstop)) ;;
  sch (if truth cpl then upd_cur (λ t, t <| utime ::= λ x, s32 (x + 1) |>)
       else upd_cur (λ t, t <| stime ::= λ x, s32 (x + 1) |>)) ;;
  tick_timers ;;
  d ← sch get;
  when (has (current_DOR d) 0xf0) (sch do_floppy_timer) ;;
  sch (upd_cur (λ t, t <| counter ::= λ c, s32 (c - 1) |>)) ;;
  t ← sch cur_task;
  if 0 <? counter t then mret tt else
  sch (upd_cur (λ t, t <| counter := 0 |>)) ;;
  if negb (truth cpl) then mret tt else kern reschedule.

(** _timer_interrupt *)
Definition timer_interrupt_ : MM unit :=
  save_regs ;;
  m ← get;
  push (m_eax m) ;;
  kernel_segments ;;
  run (sch (modify (λ d, d <| jiffies ::= λ j, s32 (j + 1) |>))) ;;
  run (outp 0x20 0x20) ;;
  cs ← word_at CS;
  push (Z.land cs 3) ;;
  cpl ← word_at 0;
  run (do_timer cpl) ;;
  use_scratch ;;
  pop ;;
  ret_from_sys_call_.

(** ** unistd.h and lib/ *)

(** A user program: its registers, its errno and the system it runs on. *)
Record program := mk_program { p_regs : regs; errno : Z; p_sys : system }.
#[local] Instance eta_program : Eta program := fun p => mk_program (p_regs p) (errno p) (p_sys p).

(** [int $0x80] *)
Definition int_0x80 (eax : Z) : M program (option Z) := λ p,
  let with_sys m := mk_program (p_regs p) (errno p) (m_sys m) in
  match or_gone (interrupt ;; system_call) (mk_machine eax (p_regs p) [] (p_sys p)) with
  | Ok back m => if back then Ok (Some (m_eax m)) (mk_program (m_regs m) (errno p) (m_sys m)) else Ok None (with_sys m)
  | Panic e m => Panic e (with_sys m)
  | Exit c m => Exit c (with_sys m)
  | Fault m => Fault (with_sys m)
  | NoFuel => NoFuel
  end.

(** [if (__res >= 0) return __res; errno = -__res; return -1;] *)
Definition returns (res : option Z) : M program (option Z) :=
  match res with
  | None => mret None
  | Some res => if 0 <=? res then mret (Some res) else modify (λ p, p <| errno := s32 (- res) |>) ;; mret (Some (-1))
  end.
Definition ebx_is (a : Z) : M program unit := modify (λ p, p <| p_regs ::= λ r, r <| r_ebx := a |> |>).
Definition ecx_is (a : Z) : M program unit := modify (λ p, p <| p_regs ::= λ r, r <| r_ecx := a |> |>).
Definition edx_is (a : Z) : M program unit := modify (λ p, p <| p_regs ::= λ r, r <| r_edx := a |> |>).
Definition _syscall0 (name : sys_fn) : M program (option Z) := res ← int_0x80 (NR name); returns res.
Definition _syscall1 (name : sys_fn) (a : Z) : M program (option Z) :=
  ebx_is a ;; res ← int_0x80 (NR name); returns res.
Definition _syscall2 (name : sys_fn) (a b : Z) : M program (option Z) :=
  ebx_is a ;; ecx_is b ;; res ← int_0x80 (NR name); returns res.
Definition _syscall3 (name : sys_fn) (a b c : Z) : M program (option Z) :=
  ebx_is a ;; ecx_is b ;; edx_is c ;; res ← int_0x80 (NR name); returns res.

Definition write := _syscall3 Sys_write.
Definition close := _syscall1 Sys_close.
Definition dup := _syscall1 Sys_dup.
Definition setsid := _syscall0 Sys_setsid.
Definition execve := _syscall3 Sys_execve.
Definition waitpid := _syscall3 Sys_waitpid.
Definition wait (wait_stat : Z) : M program (option Z) := waitpid (-1) wait_stat 0.
(** Without a third argument, [va_arg] takes what the stack holds. *)
Definition open (filename flag mode : Z) : M program (option Z) :=
  ebx_is filename ;; ecx_is flag ;; edx_is mode ;; res ← int_0x80 (NR Sys_open); returns res.
Definition _exit (exit_code : Z) : M program (option Z) := ebx_is exit_code ;; int_0x80 (NR Sys_exit).
(** main.c makes its own. *)
Definition fork := _syscall0 Sys_fork.
Definition pause := _syscall0 Sys_pause.
Definition setup := _syscall1 Sys_setup.
Definition sync := _syscall0 Sys_sync.
End Calls.

(** ** ctype.h and ctype.c *)

(** _WS is _S of ctype.h. *)
Definition _U : Z := 0x01.
Definition _L : Z := 0x02.
Definition _D : Z := 0x04.
Definition _C : Z := 0x08.
Definition _P : Z := 0x10.
Definition _WS : Z := 0x20.
Definition _X : Z := 0x40.
Definition _SP : Z := 0x80.

(** EOF, then the characters. *)
Definition _ctype : list Z := [
  0;
  _C; _C; _C; _C; _C; _C; _C; _C;
  _C; Z.lor _C _WS; Z.lor _C _WS; Z.lor _C _WS; Z.lor _C _WS; Z.lor _C _WS; _C; _C;
  _C; _C; _C; _C; _C; _C; _C; _C;
  _C; _C; _C; _C; _C; _C; _C; _C;
  Z.lor _WS _SP; _P; _P; _P; _P; _P; _P; _P;
  _P; _P; _P; _P; _P; _P; _P; _P;
  _D; _D; _D; _D; _D; _D; _D; _D;
  _D; _D; _P; _P; _P; _P; _P; _P;
  _P; Z.lor _U _X; Z.lor _U _X; Z.lor _U _X; Z.lor _U _X; Z.lor _U _X; Z.lor _U _X; _U;
  _U; _U; _U; _U; _U; _U; _U; _U;
  _U; _U; _U; _U; _U; _U; _U; _U;
  _U; _U; _U; _P; _P; _P; _P; _P;
  _P; Z.lor _L _X; Z.lor _L _X; Z.lor _L _X; Z.lor _L _X; Z.lor _L _X; Z.lor _L _X; _L;
  _L; _L; _L; _L; _L; _L; _L; _L;
  _L; _L; _L; _L; _L; _L; _L; _L;
  _L; _L; _L; _P; _P; _P; _P; _C;
  0; 0; 0; 0; 0; 0; 0; 0; 0; 0; 0; 0; 0; 0; 0; 0;
  0; 0; 0; 0; 0; 0; 0; 0; 0; 0; 0; 0; 0; 0; 0; 0;
  0; 0; 0; 0; 0; 0; 0; 0; 0; 0; 0; 0; 0; 0; 0; 0;
  0; 0; 0; 0; 0; 0; 0; 0; 0; 0; 0; 0; 0; 0; 0; 0;
  0; 0; 0; 0; 0; 0; 0; 0; 0; 0; 0; 0; 0; 0; 0; 0;
  0; 0; 0; 0; 0; 0; 0; 0; 0; 0; 0; 0; 0; 0; 0; 0;
  0; 0; 0; 0; 0; 0; 0; 0; 0; 0; 0; 0; 0; 0; 0; 0;
  0; 0; 0; 0; 0; 0; 0; 0; 0; 0; 0; 0; 0; 0; 0; 0].

(** [(_ctype+1)[c]]: nothing outside the table. *)
Definition ctype_at (c : Z) : option Z := zlookup _ctype (c + 1).
Definition ctype_test (mask c : Z) : option Z := (λ x, Z.land x mask) <$> ctype_at c.
Definition isalnum := ctype_test (Z.lor _U (Z.lor _L _D)).
Definition isalpha := ctype_test (Z.lor _U _L).
Definition iscntrl := ctype_test _C.
Definition isdigit := ctype_test _D.
Definition isgraph := ctype_test (Z.lor _P (Z.lor _U (Z.lor _L _D))).
Definition islower := ctype_test _L.
Definition isprint := ctype_test (Z.lor _P (Z.lor _U (Z.lor _L (Z.lor _D _SP)))).
Definition ispunct := ctype_test _P.
Definition isspace := ctype_test _WS.
Definition isupper := ctype_test _U.
Definition isxdigit := ctype_test (Z.lor _D _X).
Definition isascii (c : Z) : bool := u32 c <=? 0x7f.
Definition toascii (c : Z) : Z := Z.land (u32 c) 0x7f.
(** [_ctmp] is a char, which gcc takes as signed. *)
Definition _ctmp (c : Z) : Z := s8 c.
Definition tolower (c : Z) : option Z :=
  (λ x, if truth x then _ctmp c - (65 - 97) else _ctmp c) <$> isupper (_ctmp c).
Definition toupper (c : Z) : option Z :=
  (λ x, if truth x then _ctmp c - (97 - 65) else _ctmp c) <$> islower (_ctmp c).
