(* ===== verification/SyscallProofs.v ===== *)
(** * The system call path and the clock

    The numbers of unistd.h agree with the table of sys.h; what a library call
    returns, in terms of its handler; the registers that come back from the
    stack; the timers that a clock tick calls; and the tick, which leaves by the
    same code. *)

From stdpp Require Import base option list gmap strings.
From Stdlib Require Import ZArith Lia.
From S2P Require Import Prelude Types Memory Sched Kernel Blk Ports Buffer Inode FileDev Tty Namei Open Fork Exit Exec Sys.
From S2P Require Import Screen SchedProofs TimerProofs KernelFacts SignalProofs Console Traps Hd Floppy FloppyLive Main Syscall.
Local Open Scope Z_scope.

(** ** The table *)

(** The number that unistd.h gives a system call is the index of its
    handler in sys_call_table of sys.h, no other index holds that handler, and
    the bound system_call.s tests is the length of the table. *)
Theorem sys_call_table_correct :
  Z.of_nat (length sys_call_table) = nr_system_calls ∧
  ∀ f n, sys_call_table !! n = Some f ↔ Z.of_nat n = NR f.
Proof.
  split; [done|]. intros f n. split.
  - intros H. do 72 (destruct n as [|n]; [by injection H as <-|]). by destruct n.
  - intros H. assert (n = Z.to_nat (NR f)) as -> by lia. by destruct f.
Qed.
Lemma NR_bound f : 0 ≤ NR f < nr_system_calls.
Proof. unfold nr_system_calls. by destruct f. Qed.
Lemma NR_entry f : sys_call_table !! Z.to_nat (NR f) = Some f.
Proof. by destruct f. Qed.

Section Calls.
Context {E : Env} {I : Image} {D : Type} {Ctl : Controller D} {Ad : Addresses}.
Local Notation system := (io_system drivers D).
Local Notation kern m := (zoom sys_k m).
Local Notation sch m := (zoom sys_k (zoom k_sched m)).
Local Notation run m := (zoom m_sys m).
Local Notation MM := (M (machine D)).
Local Notation program := (@program D).
Local Notation sched s := (k_sched (sys_k s)).

(** ** The stack of an interrupt *)

(** A program, not the kernel, is interrupted. *)
Definition in_program (r : regs) : bool := negb (Z.land (r_cs r) 3 =? 0).
(** What the processor and the interrupt routine push. *)
Definition frame (r : regs) (stk : list Z) : list Z :=
  [r_ebx r; r_ecx r; r_edx r; r_fs r; r_es r; r_ds r; r_eip r; r_cs r; r_eflags r] ++
  (if in_program r then [r_esp r; r_ss r] else stk).
(** What remains on the stack of the interrupted code. *)
Definition left_on_stack (r : regs) (stk : list Z) : list Z := if in_program r then [] else stk.
(** The registers that neither saves have their values of [r]. *)
Definition unsaved (r g : regs) : Prop :=
  r_ebp g = r_ebp r ∧ r_edi g = r_edi r ∧ r_esi g = r_esi r ∧ r_gs g = r_gs r ∧
  (in_program r = false → r_esp g = r_esp r ∧ r_ss g = r_ss r).
Definition entered (r : regs) : regs := r <| r_cs := 8 |> <| r_ss := if in_program r then 0x10 else r_ss r |>.

Lemma entered_run eax r stk (s : system) :
  interrupt (mk_machine eax r stk s) = Ok tt (mk_machine eax (entered r)
    ([r_eip r; r_cs r; r_eflags r] ++ (if in_program r then [r_esp r; r_ss r] else stk)) s).
Proof. unfold interrupt, entered, in_program, get. mred. cbn [m_regs]. destruct r. by destruct (negb _) eqn:Hb; simpl in Hb |- *; rewrite ?Hb. Qed.
Lemma unsaved_entered r : unsaved r (entered r).
Proof. unfold unsaved, entered. destruct r. simpl. do 4 (split; [done|]). by intros ->. Qed.
(** The registers come back from the frame. *)
Lemma iret_run e g eip cs eflags stk (s : system) :
  iret (mk_machine e g (eip :: cs :: eflags :: stk) s) =
    when (negb (Z.land cs 3 =? 0)) (
      esp ← pop;
      ss ← pop;
      upd_regs (λ r, r <| r_esp := esp |> <| r_ss := ss |>))
    (mk_machine e (g <| r_eip := eip |> <| r_cs := cs |> <| r_eflags := eflags |>) stk s).
Proof. reflexivity. Qed.
Lemma restore_run e g v bx cx dx fs es ds stk (s : system) :
  restore_regs (mk_machine e g (v :: bx :: cx :: dx :: fs :: es :: ds :: stk) s) =
    Ok tt (mk_machine v (g <| r_ebx := bx |> <| r_ecx := cx |> <| r_edx := dx |> <| r_fs := fs |> <| r_es := es |>
      <| r_ds := ds |>) stk s).
Proof. reflexivity. Qed.
Lemma left_run v r stk g e (s : system) :
  unsaved r g → (restore_regs ;; iret) (mk_machine e g (v :: frame r stk) s) = Ok tt (mk_machine v r (left_on_stack r stk) s).
Proof.
  intros (H1 & H2 & H3 & H4 & H5). unfold frame, left_on_stack. cbn [app].
  rewrite (bind_Ok _ _ _ _ _ (restore_run _ _ _ _ _ _ _ _ _ _ _)), iret_run.
  change (negb (Z.land (r_cs r) 3 =? 0)) with (in_program r). destruct (in_program r); [clear H5|destruct (H5 eq_refl)];
    destruct g, r; cbn in *; subst; reflexivity.
Qed.

(** ** What is left of the machine *)

(** The outcome for the system, with [f] of the rest. *)
Definition seen {B C} (f : B → machine D → C) (o : outcome (machine D) B) : outcome system C :=
  match o with
  | Ok b m => Ok (f b m) (m_sys m)
  | Panic e m => Panic e (m_sys m)
  | Exit c m => Exit c (m_sys m)
  | Fault m => Fault (m_sys m)
  | NoFuel => NoFuel
  end.
Lemma seen_run {A B C} (f : B → machine D → C) (m : M system A) (k : A → MM B) e r stk (s : system) :
  seen f ((run m ≫= k) (mk_machine e r stk s)) = (m ≫= λ a s, seen f (k a (mk_machine e r stk s))) s.
Proof. unfold mbind, M_bind, zoom. simpl. by destruct (m s). Qed.
Lemma bind_pointwise {S A B} (m : M S A) (f g : A → M S B) s :
  (∀ a s', m s = Ok a s' → f a s' = g a s') → (m ≫= f) s = (m ≫= g) s.
Proof. intros H. unfold mbind, M_bind. destruct (m s) eqn:Hm; try done. by apply H. Qed.

Lemma kern_bind {A B} (m : M kernel A) (f : A → M kernel B) (s : system) :
  kern (m ≫= f) s = (kern m ≫= λ a, kern (f a)) s.
Proof.
  unfold mbind, M_bind, zoom. destruct s as [k d h]. simpl. destruct (m k) as [a k1|e k1|c k1|k1|]; [|reflexivity..]. cbn. destruct (f a k1); reflexivity.
Qed.
Lemma kern_ret {A} (a : A) (s : system) : kern (mret a) s = Ok a s.
Proof. by destruct s. Qed.

(** ** The way back *)

Lemma seg_in_program r : Z.land (r_cs r) 0xffff = 0x0f → in_program r = true.
Proof.
  intros H. unfold in_program. replace (Z.land (r_cs r) 3) with (Z.land (Z.land (r_cs r) 0xffff) 3) by (by rewrite <-Z.land_assoc).
  by rewrite H.
Qed.

Lemma bind_head {S A B} (m m' : M S A) (f : A → M S B) s s' : m s = m' s' → (m ≫= f) s = (m' ≫= f) s'.
Proof. unfold mbind, M_bind. by intros ->. Qed.

(** What [deliver] does with the frame of a program. *)
Definition signalled (eip esp : Z) (r : regs) : regs := r <| r_eip := eip |> <| r_esp := esp |>.
Lemma deliver_head signr v r g e (s : system) :
  in_program r = true →
  deliver signr (mk_machine e g (v :: frame r []) s) =
    (run (kern (do_signal signr v (r_ecx r) (r_edx r) (r_eip r) (r_eflags r) (r_esp r))) ≫= λ '(eip, esp),
      set_word (S EIP) eip ;; set_word (S OLDESP) esp ;; v ← pop; eax_is v) (mk_machine e g (signr :: v :: frame r []) s).
Proof. intros Hp. unfold frame. rewrite Hp. reflexivity. Qed.
Lemma deliver_tail signr v r g e eip esp (s : system) :
  in_program r = true →
  (set_word (S EIP) eip ;; set_word (S OLDESP) esp ;; v ← pop; eax_is v) (mk_machine e g (signr :: v :: frame r []) s) =
    Ok tt (mk_machine signr g (v :: frame (signalled eip esp r) []) s).
Proof.
  intros Hp. assert (Hp' : in_program (signalled eip esp r) = true) by exact Hp. unfold frame. rewrite Hp, Hp'. reflexivity.
Qed.
Lemma deliver_run {C} (f : unit → machine D → C) signr v r g e (s : system) :
  in_program r = true → unsaved r g →
  seen f ((deliver signr ;; restore_regs ;; iret) (mk_machine e g (v :: frame r []) s)) =
    ((kern (do_signal signr v (r_ecx r) (r_edx r) (r_eip r) (r_eflags r) (r_esp r)) : M system (Z * Z)) ≫=
      λ j, (λ s, Ok (f tt (mk_machine v (signalled j.1 j.2 r) [] s)) s) : M system C) s.
Proof.
  intros Hp Hg. rewrite (bind_head _ _ _ _ _ (deliver_head _ _ _ _ _ _ Hp)), bind_assoc, seen_run.
  apply bind_pointwise. intros [eip esp] s1 _. rewrite (bind_Ok _ _ _ _ _ (deliver_tail _ _ _ _ _ _ _ _ Hp)).
  rewrite left_run.
  - unfold left_on_stack. replace (in_program (signalled eip esp r)) with true by done. done.
  - destruct Hg as (?&?&?&?&H). split_and!; try done. unfold signalled. change (in_program _) with (in_program r). by rewrite Hp.
Qed.

Lemma pending_run v r stk g e (s : system) :
  signal_pending (mk_machine e g (v :: frame r stk) s) =
    (if negb (Z.land (r_cs r) 0xffff =? 0x0f) || negb (Z.land (r_ss r) 0xffff =? 0x17) then mret None else run (kern take_signal))
      (mk_machine e g (v :: frame r stk) s).
Proof.
  unfold signal_pending. rewrite (bind_Ok _ _ _ (r_cs r) (mk_machine e g (v :: frame r stk) s)) by reflexivity.
  destruct (Z.eqb_spec (Z.land (r_cs r) 0xffff) 0x0f) as [Hc|]; [|done]. cbn [negb orb].
  rewrite (bind_Ok _ _ _ (r_ss r) (mk_machine e g (v :: frame r stk) s)).
  - by destruct (_ =? 0x17).
  - unfold frame. by rewrite (seg_in_program r Hc).
Qed.

(** From [ret_from_sys_call:] on, in terms of the record of registers. *)
Lemma ret_run {C} (f : unit → machine D → C) v r stk g e (s : system) :
  unsaved r g →
  seen f (ret_from_sys_call_ (mk_machine e g (v :: frame r stk) s)) =
    ((kern (ret_from_sys_call v r) : M system regs) ≫=
      λ r', (λ s, Ok (f tt (mk_machine v r' (left_on_stack r stk) s)) s) : M system C) s.
Proof.
  intros Hg. unfold ret_from_sys_call_, ret_from_sys_call. rewrite (bind_head _ _ _ _ _ (pending_run v r stk g e s)).
  destruct (_ || _) eqn:Ho.
  { rewrite (bind_Ok (mret None) _ _ None _) by done. rewrite (bind_Ok (mret tt) _ _ tt _) by done. rewrite left_run by done.
    by rewrite (bind_Ok _ _ _ _ _ (kern_ret r s)). }
  apply orb_false_elim in Ho as [Hc%negb_false_iff%Z.eqb_eq _]. pose proof (seg_in_program r Hc) as Hp.
  rewrite seen_run, (bind_head _ _ _ _ _ (kern_bind take_signal _ s)), bind_assoc. apply bind_pointwise. intros [signr|] s1 _.
  - assert (Hf : frame r stk = frame r []) by (unfold frame; by rewrite Hp). rewrite Hf, deliver_run by done.
    rewrite (bind_head _ _ _ _ _ (kern_bind _ _ s1)), bind_assoc. apply bind_pointwise. intros [eip esp] s2 _.
    rewrite (bind_Ok _ _ _ _ _ (kern_ret _ s2)). unfold left_on_stack. by rewrite Hp.
  - rewrite (bind_Ok (mret tt) _ _ tt _) by done. rewrite left_run by done. by rewrite (bind_Ok _ _ _ _ _ (kern_ret r s1)).
Qed.

(** ** The call of a handler *)

(** What a handler leaves of its arguments, and where execve() jumps. *)
Definition own_args (f : sys_fn) (k : kernel) (r : regs) : regs :=
  let left := args_left f [r_ebx r; r_ecx r; r_edx r] k in
  let own (i : nat) v := if (i <? nargs f)%nat then default v (left !! i) else v in
  r <| r_ebx := own 0%nat (r_ebx r) |> <| r_ecx := own 1%nat (r_ecx r) |> <| r_edx := own 2%nat (r_edx r) |>.
Definition jumped (jump : option (Z * Z)) (r : regs) : regs :=
  match jump with Some (eip, esp) => r <| r_eip := eip |> <| r_esp := esp |> | None => r end.
(** The frame a handler that comes back leaves. *)
Definition after_call (f : sys_fn) (k : kernel) (jump : option (Z * Z)) (r : regs) : regs := own_args f k (jumped jump r).

Lemma nargs_bound f : (nargs f ≤ 3)%nat.
Proof. destruct f; simpl; lia. Qed.
Lemma in_program_after f k jump r : in_program (after_call f k jump r) = in_program r.
Proof. by destruct jump as [[eip esp]|]. Qed.
Lemma unsaved_after f k jump r g : in_program r = true → unsaved r g → unsaved (after_call f k jump r) g.
Proof.
  intros Hp (?&?&?&?&_). unfold unsaved. rewrite in_program_after, Hp. by destruct jump as [[eip esp]|].
Qed.

Lemma saved_regs_run r g e x (s : system) :
  in_program r = true → unsaved r g →
  saved_regs (mk_machine e g (x :: frame r []) s) = Ok r (mk_machine e g (x :: frame r []) s).
Proof. intros Hp (H1&H2&H3&H4&_). unfold frame. rewrite Hp. destruct g, r. cbn in *. subst. reflexivity. Qed.

Lemma use_args_run f r g e x (s : system) :
  in_program r = true →
  use_args f [r_ebx r; r_ecx r; r_edx r] (mk_machine e g (x :: frame r []) s) =
    Ok tt (mk_machine e g (x :: frame (own_args f (sys_k s) r) []) s).
Proof.
  intros Hp. assert (Hp' : in_program (own_args f (sys_k s) r) = true) by exact Hp.
  unfold frame. rewrite Hp, Hp'. unfold use_args, own_args, get. mred. cbn [m_sys].
  generalize (args_left f [r_ebx r; r_ecx r; r_edx r] (sys_k s)) as left. intros left. pose proof (nargs_bound f) as Hn.
  destruct (nargs f) as [|[|[|[|]]]]; [..|lia]; destruct left as [|a [|b [|c left]]]; reflexivity.
Qed.

Definition call_rest (f : sys_fn) (r : regs) (result : option (Z * option (Z * Z))) : MM bool :=
  match result with
  | None => mret false
  | Some (v, jump) =>
      match jump with Some (eip, esp) => set_word EIP eip ;; set_word OLDESP esp | None => mret tt end ;;
      use_args f [r_ebx r; r_ecx r; r_edx r] ;;
      use_scratch ;;
      pop ;;
      eax_is v ;;
      mret true
  end.
Lemma call_head f r g e (s : system) :
  in_program r = true → unsaved r g →
  call_handler f (mk_machine e g (frame r []) s) =
    (run (handler f (r_ebx r) (r_ecx r) (r_edx r) r) ≫= call_rest f r) (mk_machine e g (0 :: frame r []) s).
Proof.
  intros Hp Hg. unfold call_handler.
  rewrite (bind_Ok _ _ _ tt (mk_machine e g (0 :: frame r []) s)) by reflexivity.
  rewrite (bind_Ok _ _ _ (r_ebx r) (mk_machine e g (0 :: frame r []) s)) by reflexivity.
  rewrite (bind_Ok _ _ _ (r_ecx r) (mk_machine e g (0 :: frame r []) s)) by reflexivity.
  rewrite (bind_Ok _ _ _ (r_edx r) (mk_machine e g (0 :: frame r []) s)) by reflexivity.
  by rewrite (bind_Ok _ _ _ _ _ (saved_regs_run r g e 0 s Hp Hg)).
Qed.
Definition scratched (k : kernel) (g : regs) : regs := g <| r_ecx := (scratch k).1 |> <| r_edx := (scratch k).2 |>.
Lemma call_rest_run f r g e v jump (s : system) :
  in_program r = true →
  call_rest f r (Some (v, jump)) (mk_machine e g (0 :: frame r []) s) =
    Ok true (mk_machine v (scratched (sys_k s) g) (frame (after_call f (sys_k s) jump r) []) s).
Proof.
  intros Hp. unfold call_rest.
  assert (Hj : (match jump with Some (eip, esp) => set_word EIP eip ;; set_word OLDESP esp | None => mret tt end : MM unit)
    (mk_machine e g (0 :: frame r []) s) = Ok tt (mk_machine e g (0 :: frame (jumped jump r) []) s)).
  { destruct jump as [[eip esp]|]; [|done]. assert (Hp' : in_program (jumped (Some (eip, esp)) r) = true) by exact Hp.
    unfold frame. rewrite Hp, Hp'. reflexivity. }
  rewrite (bind_Ok _ _ _ _ _ Hj).
  replace [r_ebx r; r_ecx r; r_edx r] with [r_ebx (jumped jump r); r_ecx (jumped jump r); r_edx (jumped jump r)]
    by (by destruct jump as [[eip esp]|]).
  assert (Hp' : in_program (jumped jump r) = true) by (by destruct jump as [[eip esp]|]).
  rewrite (bind_Ok _ _ _ _ _ (use_args_run f (jumped jump r) g e 0 s Hp')).
  rewrite (bind_Ok use_scratch _ _ tt (mk_machine e (scratched (sys_k s) g) (0 :: frame (after_call f (sys_k s) jump r) []) s)); [reflexivity|].
  unfold use_scratch, get, scratched. mred. cbn [m_sys]. by destruct (scratch (sys_k s)).
Qed.

(** What a system call gives the program: the value and the registers. *)
Definition to_program (back : bool) (m : machine D) : option (Z * regs) :=
  if back then Some (m_eax m, m_regs m) else None.
(** The rest of [system_call], in terms of the record of registers. *)
Definition call_spec (f : sys_fn) (r : regs) : M system (option (Z * regs)) :=
  result ← handler f (r_ebx r) (r_ecx r) (r_edx r) r;
  match result with
  | None => mret None
  | Some (v, jump) =>
      s ← get;
      t ← kern me;
      when (negb (state t =? 0) || (counter t =? 0)) (kern reschedule) ;;
      r ← kern (ret_from_sys_call v (after_call f (sys_k s) jump r));
      mret (Some (v, r))
  end.

Lemma system_call_bad eax r (s : system) :
  in_program r = true → nr_system_calls ≤ u32 eax →
  (interrupt ;; system_call) (mk_machine eax r [] s) = Ok true (mk_machine (-1) r [] s).
Proof.
  intros Hp H. rewrite (bind_Ok _ _ _ _ _ (entered_run eax r [] s)). unfold system_call, get. mred. cbn [m_eax].
  destruct (Z.ltb_spec (nr_system_calls - 1) (u32 eax)); [|lia].
  change (eax_is (-1) (mk_machine eax (entered r) ?st s)) with (Ok tt (mk_machine (-1) (entered r) st s)). cbn beta iota. cbn [app].
  rewrite iret_run. change (negb (Z.land (r_cs r) 3 =? 0)) with (in_program r). rewrite Hp. destruct r. reflexivity.
Qed.
Lemma unsaved_kernel r g : unsaved r g → unsaved r (g <| r_ds := 0x10 |> <| r_es := 0x10 |> <| r_fs := 0x17 |>).
Proof. done. Qed.
Lemma unsaved_scratched k r g : unsaved r g → unsaved r (scratched k g).
Proof. done. Qed.

Lemma u32_NR f : u32 (NR f) = NR f.
Proof. pose proof (NR_bound f) as Hn. apply u32_small. unfold nr_system_calls in Hn. lia. Qed.
Lemma system_call_run f eax r (s : system) :
  u32 eax = NR f → in_program r = true →
  seen to_program ((interrupt ;; system_call) (mk_machine eax r [] s)) = call_spec f r s.
Proof.
  intros Heax Hp. rewrite (bind_Ok _ _ _ _ _ (entered_run eax r [] s)). unfold system_call.
  rewrite (bind_Ok get _ _ _ _ eq_refl). cbn [m_eax].
  pose proof (NR_bound f) as Hn. rewrite Heax.
  destruct (Z.ltb_spec (nr_system_calls - 1) (NR f)); [lia|].
  set (st := ([r_eip r; r_cs r; r_eflags r] ++ _)).
  rewrite (bind_Ok save_regs _ _ tt (mk_machine eax (entered r) (frame r []) s)) by (by destruct r).
  set (g := entered r <| r_ds := 0x10 |> <| r_es := 0x10 |> <| r_fs := 0x17 |>).
  assert (Hg : unsaved r g) by apply unsaved_kernel, unsaved_entered.
  rewrite (bind_Ok kernel_segments _ _ tt (mk_machine eax g (frame r []) s)) by reflexivity.
  rewrite NR_entry. rewrite (bind_Ok (deref (Some f)) _ _ f (mk_machine eax g (frame r []) s)) by reflexivity.
  clearbody g. rewrite (bind_head _ _ _ _ _ (call_head f r g eax s Hp Hg)), bind_assoc, seen_run.
  unfold call_spec. apply bind_pointwise. intros [[v jump]|] s1 _; [|done].
  rewrite (bind_Ok _ _ _ _ _ (call_rest_run f r g eax v jump s1 Hp)). cbn [negb].
  rewrite (bind_Ok get _ _ _ _ eq_refl). cbn [m_eax].
  set (r1 := after_call f (sys_k s1) jump r). set (g1 := scratched (sys_k s1) g).
  assert (Hg1 : unsaved r1 g1) by (by apply unsaved_scratched, unsaved_after).
  assert (Hl : left_on_stack r1 [] = []) by (unfold left_on_stack; by destruct (in_program r1)).
  rewrite (bind_Ok (push v) _ _ tt (mk_machine v g1 (v :: frame r1 []) s1)) by reflexivity.
  rewrite (bind_Ok get _ s1 s1 s1) by reflexivity. fold r1.
  rewrite seen_run. apply bind_pointwise. intros t s2 _.
  assert (Hret : ∀ s3, seen to_program ((ret_from_sys_call_ ;; mret true) (mk_machine v g1 (v :: frame r1 []) s3)) =
    (r ← kern (ret_from_sys_call v r1); mret (Some (v, r))) s3).
  { intros s3. pose proof (ret_run (λ _, to_program true) v r1 [] g1 v s3 Hg1) as Hr. rewrite Hl in Hr.
    transitivity (seen (λ _, to_program true) (ret_from_sys_call_ (mk_machine v g1 (v :: frame r1 []) s3))); [|exact Hr].
    unfold mbind, M_bind. by destruct (ret_from_sys_call_ _). }
  destruct (_ || _); unfold when.
  - rewrite seen_run. by apply bind_pointwise.
  - rewrite !(bind_Ok (mret tt) _ _ tt _) by reflexivity. apply Hret.
Qed.

(** ** The library *)

(** The task goes on at once: it is running, has time left, and no signal is
    to be delivered. *)
Definition goes_on (k : kernel) (r : regs) : Prop :=
  ∃ t, cur_is k t ∧ state t = TASK_RUNNING ∧ counter t ≠ 0 ∧
    (Z.land (r_cs r) 0xffff ≠ 0x0f ∨ Z.land (r_ss r) 0xffff ≠ 0x17 ∨
     Sched.task (k_sched k) !! 0%nat = Some (current (k_sched k)) ∨ next_signal t = None).

Lemma take_signal_none k t :
  cur_is k t → Sched.task (k_sched k) !! 0%nat = Some (current (k_sched k)) ∨ next_signal t = None →
  take_signal k = Ok None k.
Proof.
  intros Ht Hn. unfold take_signal, get. mred. rewrite (me_run _ _ Ht). cbn beta iota.
  case_bool_decide; [done|]. by destruct Hn as [?| ->].
Qed.
Lemma ret_goes_on eax k r : goes_on k r → ret_from_sys_call eax r k = Ok r k.
Proof.
  intros (t & Ht & _ & _ & Hs). unfold ret_from_sys_call.
  destruct (Z.eqb_spec (Z.land (r_cs r) 0xffff) 0x0f); [|done].
  destruct (Z.eqb_spec (Z.land (r_ss r) 0xffff) 0x17); [|done]. simpl.
  rewrite (bind_Ok _ _ _ _ _ (take_signal_none k t Ht ltac:(tauto))). done.
Qed.
Lemma goes_on_after f k k' jump r : goes_on k r → goes_on k (after_call f k' jump r).
Proof. by destruct jump as [[eip esp]|]. Qed.
Lemma zoom_ok {A} (m : M kernel A) (s : system) a : m (sys_k s) = Ok a (sys_k s) → kern m s = Ok a s.
Proof. intros H. unfold zoom. rewrite H. by destruct s. Qed.

Lemma call_spec_run f r (s s1 : system) v jump :
  handler f (r_ebx r) (r_ecx r) (r_edx r) r s = Ok (Some (v, jump)) s1 → goes_on (sys_k s1) r →
  call_spec f r s = Ok (Some (v, after_call f (sys_k s1) jump r)) s1.
Proof.
  intros Hh Hg. unfold call_spec. rewrite (bind_Ok _ _ _ _ _ Hh), (bind_Ok get _ _ _ _ eq_refl).
  pose proof (ret_goes_on v _ _ (goes_on_after f _ (sys_k s1) jump _ Hg)) as Hret. destruct Hg as (t & Ht & Hst & Hc & _).
  rewrite (bind_Ok (kern me) _ s1 t s1) by (apply zoom_ok; by apply me_run).
  rewrite Hst. apply Z.eqb_neq in Hc. rewrite Hc. cbn [negb orb Z.eqb TASK_RUNNING]. unfold when.
  rewrite (bind_Ok (mret tt) _ s1 tt s1) by done. by rewrite (bind_Ok _ _ _ _ _ (zoom_ok _ _ _ Hret)).
Qed.

Local Notation trap eax p := ((interrupt ;; system_call) (mk_machine eax (p_regs p) [] (p_sys p))).
Lemma int_0x80_ok eax (p : program) v r s :
  seen to_program (trap eax p) = Ok (Some (v, r)) s → int_0x80 eax p = Ok (Some v) (mk_program r (errno p) s).
Proof.
  unfold int_0x80, or_gone. destruct (trap eax p) as [[] m|e m|c m|m|]; simpl; try done. by intros [= <- <- <-].
Qed.
Lemma or_gone_true (m : MM bool) s s' : or_gone m s = Ok true s' → m s = Ok true s'.
Proof.
  unfold or_gone. destruct (m s) as [b s1|e s1|c s1|s1|] eqn:Hm; try done.
  intros H. by apply bind_Ok_inv in H as ([z|] & s2 & _ & H).
Qed.
Lemma int_0x80_inv eax (p : program) v p' :
  int_0x80 eax p = Ok (Some v) p' →
  seen to_program (trap eax p) = Ok (Some (v, p_regs p')) (p_sys p') ∧ errno p' = errno p.
Proof.
  unfold int_0x80. destruct (or_gone _ _) as [[] m|e m|c m|m|] eqn:Hm; try done. intros [= <- <-].
  apply or_gone_true in Hm. by rewrite Hm.
Qed.

(** What a program sees of a call whose handler gives [v]. *)
Definition answered (v : Z) (r : regs) (s : system) (p : program) : outcome program (option Z) :=
  Ok (Some (if 0 <=? v then v else -1)) (mk_program r (if 0 <=? v then errno p else s32 (- v)) s).
Lemma returns_run v (p : program) : returns (Some v) p = answered v (p_regs p) (p_sys p) p.
Proof. unfold returns, answered. by destruct (0 <=? v), p. Qed.

(** The registers as the macros load them. *)
Definition with_args (args : list Z) (r : regs) : regs :=
  match args with
  | [] => r
  | [a] => r <| r_ebx := a |>
  | [a; b] => r <| r_ebx := a |> <| r_ecx := b |>
  | a :: b :: c :: _ => r <| r_ebx := a |> <| r_ecx := b |> <| r_edx := c |>
  end.
Definition _syscall (f : sys_fn) (args : list Z) : M program (option Z) :=
  match args with
  | [] => _syscall0 f
  | [a] => _syscall1 f a
  | [a; b] => _syscall2 f a b
  | a :: b :: c :: _ => _syscall3 f a b c
  end.
Lemma _syscall_run f args (p : program) :
  _syscall f args p = (res ← int_0x80 (NR f); returns res) (mk_program (with_args args (p_regs p)) (errno p) (p_sys p)).
Proof. destruct p. by destruct args as [|a [|b [|c args]]]. Qed.
Lemma with_args_in_program args r : in_program (with_args args r) = in_program r.
Proof. by destruct args as [|? [|? [|? ?]]]. Qed.

(** The calls that are not there. *)
Definition unimplemented : list sys_fn :=
  [Sys_ftime; Sys_break; Sys_ptrace; Sys_stty; Sys_gtty; Sys_rename; Sys_prof; Sys_acct; Sys_phys; Sys_lock; Sys_mpx; Sys_ulimit].
Lemma unimplemented_run f r (s : system) :
  f ∈ unimplemented →
  handler f (r_ebx r) (r_ecx r) (r_edx r) r s = Ok (Some (- ENOSYS, None)) s ∧ after_call f (sys_k s) None r = r.
Proof.
  intros Hf. unfold unimplemented in Hf.
  repeat (apply elem_of_cons in Hf as [->|Hf]; [by destruct s, r|]). by apply elem_of_nil in Hf.
Qed.

Lemma call_spec_inv f r (s s' : system) v r' :
  call_spec f r s = Ok (Some (v, r')) s' →
  ∃ jump s1 s2, handler f (r_ebx r) (r_ecx r) (r_edx r) r s = Ok (Some (v, jump)) s1 ∧
    kern (ret_from_sys_call v (after_call f (sys_k s1) jump r)) s2 = Ok r' s'.
Proof.
  unfold call_spec. intros H. apply bind_Ok_inv in H as ([[w jump]|] & s1 & Hh & H); [|discriminate H].
  apply bind_Ok_inv in H as (? & ? & [= <- <-] & H). apply bind_Ok_inv in H as (t & s2 & _ & H).
  apply bind_Ok_inv in H as ([] & s3 & _ & H). apply bind_Ok_inv in H as (r2 & s4 & Hr & H). injection H as <- <- <-.
  by exists jump, s1, s3.
Qed.

(** The task of an _exit() that comes back. *)
Definition only_task_0 (code : Z) (s : system) : Prop :=
  ∃ s1, kern (sys_exit (s32 code)) s = Ok (Some (-1)) s1 ∧ Sched.task (sched s1) !! 0%nat = Some (current (sched s1)).
Lemma sys_exit_back code (s s1 : system) v :
  kern (sys_exit code) s = Ok (Some v) s1 → v = -1 ∧ Sched.task (sched s1) !! 0%nat = Some (current (sched s1)).
Proof.
  unfold zoom, sys_exit. destruct (do_exit _ (sys_k s)) as [o k|e k|c k|k|] eqn:Hk; intros H; try discriminate H.
  injection H as -> <-. exact (do_exit_back _ _ _ _ Hk).
Qed.

(** C25: a library call that a program makes with the macros of unistd.h runs
    the handler of its name with its arguments.  If the task goes on when the
    handler is done (it is running, has time left, and has no signal to take),
    the program gets the handler's value when it is not negative, and else -1
    with the negated value in errno, which is left alone otherwise; the
    registers are those the handler leaves.  So the calls that do not exist fail
    with ENOSYS and change nothing; a number outside the table gives -1 at once;
    and _exit() comes back, with -1, only if the task that schedule() finds is
    task 0, which never exits. *)
Theorem syscall_correct (p : program) :
  in_program (p_regs p) = true →
  (∀ f args v jump s1, let r := with_args args (p_regs p) in
     handler f (r_ebx r) (r_ecx r) (r_edx r) r (p_sys p) = Ok (Some (v, jump)) s1 → goes_on (sys_k s1) r →
     _syscall f args p = answered v (after_call f (sys_k s1) jump r) s1 p) ∧
  (∀ f args, f ∈ unimplemented → goes_on (sys_k (p_sys p)) (p_regs p) →
     _syscall f args p = Ok (Some (-1)) (mk_program (with_args args (p_regs p)) ENOSYS (p_sys p))) ∧
  (∀ eax, nr_system_calls ≤ u32 eax → int_0x80 eax p = Ok (Some (-1)) p) ∧
  (∀ code v p', _exit code p = Ok (Some v) p' → v = -1 ∧ only_task_0 code (p_sys p)).
Proof.
  intros Hp.
  assert (Hcall : ∀ f args v jump s1, let r := with_args args (p_regs p) in
     handler f (r_ebx r) (r_ecx r) (r_edx r) r (p_sys p) = Ok (Some (v, jump)) s1 → goes_on (sys_k s1) r →
     _syscall f args p = answered v (after_call f (sys_k s1) jump r) s1 p).
  { intros f args v jump s1 r Hh Hg. rewrite _syscall_run.
    pose proof (call_spec_run f r (p_sys p) s1 v jump Hh Hg) as Hrun.
    rewrite <-(system_call_run f (NR f) r (p_sys p)) in Hrun by first [by apply u32_NR|unfold r; by rewrite with_args_in_program].
    rewrite (bind_Ok _ _ _ _ _ (int_0x80_ok (NR f) (mk_program r (errno p) (p_sys p)) _ _ _ Hrun)).
    by rewrite returns_run. }
  split; [done|]. split; [|split].
  - intros f args Hf Hg. destruct (unimplemented_run f (with_args args (p_regs p)) (p_sys p) Hf) as [Hh Hr].
    rewrite (Hcall f args _ _ _ Hh); [by rewrite Hr|]. by destruct args as [|? [|? [|? ?]]].
  - intros eax H. pose proof (system_call_bad eax _ (p_sys p) Hp H) as Hb. destruct p as [r e s].
    apply (int_0x80_ok eax (mk_program r e s)). cbn [p_regs p_sys] in Hb |- *. by rewrite Hb.
  - intros code v p' H. unfold _exit in H. apply bind_Ok_inv in H as ([] & p1 & [= <-] & H).
    apply int_0x80_inv in H as [H _]. rewrite (system_call_run Sys_exit) in H by done.
    apply call_spec_inv in H as (jump & s1 & s2 & Hh & _). cbn [handler] in Hh.
    apply bind_Ok_inv in Hh as (o & s3 & Hh & Ho). destruct o as [w|]; [|discriminate Ho]. injection Ho as <- _ <-.
    destruct (sys_exit_back _ _ _ _ Hh) as [-> Hc]. split; [done|]. by exists s3.
Qed.

(** ** The registers *)

(** No register changes but eip, esp and the first [n] of the arguments. *)
Definition kept (n : nat) (r r' : regs) : Prop :=
  r' = r <| r_ebx := if (0 <? n)%nat then r_ebx r' else r_ebx r |> <| r_ecx := if (1 <? n)%nat then r_ecx r' else r_ecx r |>
    <| r_edx := if (2 <? n)%nat then r_edx r' else r_edx r |> <| r_eip := r_eip r' |> <| r_esp := r_esp r' |>.
Definition same_place (r r' : regs) : Prop := r_eip r' = r_eip r ∧ r_esp r' = r_esp r.
(** [r'] is where do_signal() has put the program with the registers [r], when
    the value of the call was [v]; [s] is the state after it. *)
Definition in_signal_handler (v : Z) (r r' : regs) (s : system) : Prop :=
  ∃ k1 k2 signr, take_signal k1 = Ok (Some signr) k2 ∧
    do_signal signr v (r_ecx r') (r_edx r') (r_eip r) (r_eflags r') (r_esp r) k2 = Ok (r_eip r', r_esp r') (sys_k s).

Lemma handler_jumps f r (s s1 : system) v jump :
  handler f (r_ebx r) (r_ecx r) (r_edx r) r s = Ok (Some (v, jump)) s1 → f = Sys_execve ∨ jump = None.
Proof.
  intros H. destruct f; cbn [handler] in H; try (by left); right;
    try by (apply bind_Ok_inv in H as (? & ? & _ & H); injection H as _ <- _).
  - apply bind_Ok_inv in H as (? & ? & _ & H). apply bind_Ok_inv in H as (? & ? & _ & H). by injection H as _ <- _.
  - apply bind_Ok_inv in H as ([w|] & ? & _ & H); [by injection H as _ <- _|discriminate H].
Qed.
Lemma after_call_kept f k jump r : kept (nargs f) r (after_call f k jump r).
Proof.
  unfold kept, after_call, own_args. destruct (nargs f) as [|[|[|n]]]; destruct r, jump as [[eip esp]|]; reflexivity.
Qed.
Lemma ret_moves v r (s s' : system) r' :
  kern (ret_from_sys_call v r) s = Ok r' s' → r' = r ∨ in_signal_handler v r r' s' ∧ r' = signalled (r_eip r') (r_esp r') r.
Proof.
  intros H. unfold zoom in H. destruct (ret_from_sys_call v r (sys_k s)) as [r1 k1| | | |] eqn:Hr; try done.
  injection H as -> <-. unfold ret_from_sys_call in Hr.
  destruct (_ || _); [injection Hr as <- _; by left|].
  apply bind_Ok_inv in Hr as ([signr|] & k2 & Ht & Hr); [|injection Hr as <- _; by left].
  apply bind_Ok_inv in Hr as ([eip esp] & k3 & Hd & Hr). injection Hr as <- <-. right. split; [|by destruct r].
  exists (sys_k s), k2, signr. split; [exact Ht|exact Hd].
Qed.
Lemma kept_signalled n r r1 eip esp : kept n r r1 → kept n r (signalled eip esp r1).
Proof. unfold kept. intros ->. destruct n as [|[|[|n]]]; destruct r, r1; reflexivity. Qed.

(** C26: a program that a system call comes back to has its errno, and finds
    every register but eax as it was, except for the arguments that the handler
    has as parameters, which are the handler's own, and for eip and esp, which
    execve() and the delivery of a signal set.  A number outside the table
    changes nothing at all. *)
Theorem int_0x80_keeps eax (p : program) v p' :
  in_program (p_regs p) = true → int_0x80 eax p = Ok (Some v) p' →
  errno p' = errno p ∧
  ((nr_system_calls ≤ u32 eax ∧ p' = p) ∨
   ∃ f, sys_call_table !! Z.to_nat (u32 eax) = Some f ∧ kept (nargs f) (p_regs p) (p_regs p') ∧
     (f = Sys_execve ∨ same_place (p_regs p) (p_regs p') ∨ in_signal_handler v (p_regs p) (p_regs p') (p_sys p'))).
Proof.
  intros Hp H. pose proof H as [Hs He]%int_0x80_inv. split; [done|].
  destruct (Z.leb_spec nr_system_calls (u32 eax)) as [Hb|Hb].
  { left. split; [done|]. rewrite system_call_bad in Hs by done. injection Hs as _ Hr Hs.
    destruct p, p'. cbn in *. by subst. }
  right. pose proof (u32_bound eax) as Hu.
  destruct (lookup_lt_is_Some_2 sys_call_table (Z.to_nat (u32 eax))) as [f Hf].
  { assert (length sys_call_table = Z.to_nat nr_system_calls) as -> by done. lia. }
  assert (Hn : u32 eax = NR f) by (apply sys_call_table_correct in Hf; lia).
  rewrite (system_call_run f) in Hs by done. apply call_spec_inv in Hs as (jump & s1 & s2 & Hh & Hr).
  pose proof (after_call_kept f (sys_k s1) jump (p_regs p)) as Hk.
  assert (Hj : f = Sys_execve ∨ same_place (p_regs p) (after_call f (sys_k s1) jump (p_regs p))).
  { destruct (handler_jumps _ _ _ _ _ _ Hh) as [->| ->]; [by left|by right]. }
  exists f. split; [done|]. destruct (ret_moves _ _ _ _ _ Hr) as [->|[Hsig Heq]].
  - split; [done|]. destruct Hj; [by left|by right; left].
  - split; [rewrite Heq; by apply kept_signalled|]. destruct Hj as [|[Heip Hesp]]; [by left|right; right].
    unfold in_signal_handler in Hsig |- *. by rewrite Heip, Hesp in Hsig.
Qed.

(** ** Timers *)

Definition with_sched (d : sched_state) (s : system) : system := s <| sys_k ::= λ k, k <| k_sched := d |> |>.
Lemma sch_Ok {A} (m : M sched_state A) (s : system) a d : m (sched s) = Ok a d → sch m s = Ok a (with_sched d s).
Proof. intros H. unfold zoom. by rewrite H. Qed.
Lemma sch_get (s : system) : sch get s = Ok (sched s) s.
Proof. by destruct s as [[] ? ?]. Qed.
Lemma with_sched_same (s : system) : with_sched (sched s) s = s.
Proof. by destruct s as [[] ? ?]. Qed.

Lemma timer_fn_adds fn (s s' : system) : timer_fn fn s = Ok tt s' → adds (sched s) (sched s').
Proof.
  unfold timer_fn, on_drv. destruct (floppy_timer fn _) as [[] t| | | |] eqn:Ht; intros H; try discriminate H. injection H as <-.
  exact (added_floppy_timer fn _ _ _ Ht).
Qed.
(** [fn = next_timer->fn; ...; next_timer = next_timer->next; (fn)();] *)
Definition expire (e : Z * Z) : M system unit := sch drop_timer ;; timer_fn e.2.

Lemma drop_timer_run (d : sched_state) i l t :
  timers_wf d (i :: l) → next_timer d = Some i → timer_list d !! i = Some t → ∃ d1,
  drop_timer d = Ok tt d1 ∧ timers_wf d1 l ∧ timers d1 l = timers d l ∧
  (upd_timer i (λ t, t <| t_fn := 0 |>) ;; modify (λ d, d <| next_timer := t_next t |>)) d = Ok tt d1.
Proof.
  intros Hwf Hn Ht. destruct (timers_wf_pop _ _ _ _ Hwf Ht) as [H1 H2]. eexists. split; [|split; [exact H1|split; [exact H2|]]].
  - unfold drop_timer, get. mred. rewrite Hn. unfold timer_at, get. mred. rewrite Ht. cbn [deref]. mred. by rewrite (upd_timer_run i _ d t Ht).
  - mred. by rewrite (upd_timer_run i _ d t Ht).
Qed.

(** The loop over the requests that are due, and then [rest]. *)
Lemma run_timers_run due : ∀ fuel rest (s : system) l,
  timers_wf (sched s) l → timers (sched s) l = due ++ rest → Forall (λ e, e.1 = 0) due → pending rest → (length due < fuel)%nat →
  run_timers fuel s = for_each due expire s ∧
  ∀ s', run_timers fuel s = Ok tt s' → ∃ l' new, timers_wf (sched s') l' ∧ delayed new ∧ timers (sched s') l' = insert_all rest new.
Proof.
  induction due as [|e due IH]; intros fuel rest s l Hwf Hl Hz Hr Hf; (destruct fuel as [|fuel]; [simpl in Hf; lia|]);
    cbn [run_timers for_each]; rewrite (bind_Ok _ _ _ _ _ (sch_get s)).
  - assert (Hstop : ∀ o, o = Ok tt s → o = (mret tt : M system unit) s ∧ ∀ s', o = Ok tt s' →
      ∃ l' new, timers_wf (sched s') l' ∧ delayed new ∧ timers (sched s') l' = insert_all rest new).
    { intros o ->. split; [done|]. intros s' [= <-]. exists l, []. split; [done|]. split; [by constructor|done]. }
    destruct rest as [|e rest]; apply Hstop.
    { by rewrite (timers_nil _ _ Hwf Hl). }
    destruct (timers_cons _ _ _ _ Hwf Hl) as (i & l' & t & -> & Hn & Ht & -> & _). rewrite Hn.
    rewrite (bind_Ok _ _ _ t (with_sched (sched s) s)) by (apply sch_Ok; unfold timer_at, get; mred; by rewrite Ht).
    rewrite with_sched_same. destruct Hr as [_ Hr]. specialize (Hr _ eq_refl). simpl in Hr.
    destruct (Z.leb_spec (t_jiffies t) 0); [lia|done].
  - destruct (timers_cons _ _ _ _ Hwf Hl) as (i & l' & t & -> & Hn & Ht & -> & Hl'). rewrite Hn.
    rewrite (bind_Ok _ _ _ t (with_sched (sched s) s)) by (apply sch_Ok; unfold timer_at, get; mred; by rewrite Ht).
    rewrite with_sched_same. apply Forall_cons in Hz as [Hz0 Hz]. simpl in Hz0. rewrite Hz0. cbn [Z.leb Z.compare].
    destruct (drop_timer_run _ _ _ _ Hwf Hn Ht) as (d1 & Hd & Hwf1 & Hl1 & Hrun).
    set (s1 := with_sched d1 s).
    assert (H1 : ∀ X : M system unit, (sch (upd_timer i (λ t, t <| t_fn := 0 |>)) ;;
      sch (modify (λ d, d <| next_timer := t_next t |>)) ;; X) s = X s1).
    { intros X. rewrite (bind_Ok _ _ _ _ _ (sch_Ok _ s _ _ (upd_timer_run i _ _ t Ht))).
      mred in Hrun. rewrite (upd_timer_run i _ (sched s) t Ht) in Hrun. injection Hrun as Hrun. unfold s1. by rewrite <-Hrun. }
    assert (H2 : expire (t_jiffies t, t_fn t) s = timer_fn (t_fn t) s1) by exact (bind_Ok _ _ _ _ _ (sch_Ok _ s _ _ Hd)).
    rewrite H1, (bind_head _ _ _ _ _ H2). clear H1 H2.
    assert (Hstep : ∀ s2, timer_fn (t_fn t) s1 = Ok tt s2 → ∃ l2 new, timers_wf (sched s2) l2 ∧ delayed new ∧
      timers (sched s2) l2 = due ++ insert_all rest new).
    { intros s2 H2. destruct (timer_fn_adds _ _ _ H2 l' Hwf1) as (l2 & new & Hwf2 & Hnew & Hl2).
      exists l2, new. split; [done|]. split; [done|]. rewrite Hl2. change (sched s1) with d1. rewrite Hl1, Hl'.
      by apply insert_all_zeros. }
    split.
    + apply bind_pointwise. intros [] s2 H2. destruct (Hstep s2 H2) as (l2 & new & Hwf2 & Hnew & Hl2).
      apply (IH fuel (insert_all rest new) s2 l2); [done|done|done|by apply insert_all_pending|simpl in Hf; lia].
    + intros s' H. apply bind_Ok_inv in H as ([] & s2 & H2 & H). destruct (Hstep s2 H2) as (l2 & new & Hwf2 & Hnew & Hl2).
      destruct (IH fuel (insert_all rest new) s2 l2) as [_ IH2]; [done|done|done|by apply insert_all_pending|simpl in Hf; lia|].
      destruct (IH2 s' H) as (l3 & new' & Hwf3 & Hnew' & Hl3). exists l3, (new ++ new'). split; [done|].
      split; [by apply Forall_app|]. rewrite Hl3. unfold insert_all. by rewrite foldl_app.
Qed.

Lemma zero_prefix l : Forall (λ e : Z * Z, 0 ≤ e.1) l → ∃ z r, l = z ++ r ∧ Forall (λ e, e.1 = 0) z ∧ pending r.
Proof.
  induction 1 as [|[d f] l Hd Hl (z & r & -> & Hz & Hr)]; [by exists [], []|]. simpl in Hd.
  destruct (Z.eqb_spec d 0) as [->|Hne].
  - exists ((0, f) :: z), r. split; [done|]. split; [by constructor|done].
  - exists [], ((d, f) :: z ++ r). split; [done|]. split; [constructor|]. split; [by constructor|]. intros e [= <-]. simpl. lia.
Qed.
Lemma for_each_map {S A B} (h : A → B) (l : list A) (f : B → M S unit) s : for_each (h <$> l) f s = for_each l (λ a, f (h a)) s.
Proof. revert s. induction l as [|a l IH]; intros s; [done|]. cbn. apply bind_pointwise. intros [] s1 _. apply IH. Qed.

(** C27: a tick takes one off the time that every pending timer has left, takes
    those that are due off the list, one after the other in their order, calling
    the function of each, and leaves the others.  The functions are those of the
    floppy driver; they may add requests, which are merged into the list as
    add_timer() does and do not expire at this tick.  The rounds allowed are
    enough: nothing else can go wrong than what goes wrong in a function that is
    called. *)
Theorem tick_timers_correct (s : system) l :
  timers_wf (sched s) l → pending (timers (sched s) l) →
  ∃ due rest,
    expiry 0 (timers (sched s) l) = due ++ rest ∧ Forall (λ e, e.1 = 1) due ∧ Forall (λ e, 1 < e.1) rest ∧
    tick_timers s = (sch count_down ;; for_each due expire) s ∧
    ∀ s', tick_timers s = Ok tt s' → ∃ l' later new,
      timers_wf (sched s') l' ∧ timers (sched s') l' = insert_all later new ∧ delayed new ∧
      expiry 0 later = (λ e, (e.1 - 1, e.2)) <$> rest ∧ pending (timers (sched s') l').
Proof.
  intros Hwf Hp. unfold tick_timers. rewrite (bind_Ok _ _ _ _ _ (sch_get s)).
  destruct (timers (sched s) l) as [|e r] eqn:Hl.
  { exists [], []. do 3 (split; [done|]). rewrite (timers_nil _ _ Hwf Hl). split.
    - rewrite (bind_Ok _ _ _ tt (with_sched (sched s) s)); [by rewrite with_sched_same|].
      apply sch_Ok. unfold count_down, get. mred. by rewrite (timers_nil _ _ Hwf Hl).
    - intros s' [= <-]. exists l, [], []. rewrite Hl. split; [done|]. split; [done|]. split; [by constructor|done]. }
  destruct (timers_cons _ _ _ _ Hwf Hl) as (i & l0 & t & -> & Hn & Ht & -> & Hl0). rewrite Hn.
  destruct (count_down_run _ _ _ _ Hwf Ht) as (d1 & Hc & Hwf1 & Hl1). rewrite Hl0 in Hl1.
  destruct Hp as [Hpos Hh]. specialize (Hh _ eq_refl). simpl in Hh. apply Forall_cons in Hpos as [_ Hpos].
  destruct (zero_prefix ((t_jiffies t - 1, t_fn t) :: r)) as (z & r' & Hz & Hz0 & Hr').
  { constructor; [simpl; lia|done]. }
  set (later1 := λ e : Z * Z, (e.1 + 1, e.2)).
  assert (Hexp : expiry 0 ((t_jiffies t, t_fn t) :: r) = (later1 <$> z) ++ (later1 <$> expiry 0 r')).
  { rewrite <-fmap_app, <-(expiry_zeros z r') by done. rewrite <-Hz. unfold later1. rewrite <-(expiry_shift 0 1). cbn [expiry].
    f_equal; [f_equal; lia|]. f_equal. lia. }
  exists (later1 <$> z), (later1 <$> expiry 0 r'). split; [done|]. split; [|split].
  - apply Forall_fmap. eapply Forall_impl; [exact Hz0|]. intros [d f]. simpl. lia.
  - apply Forall_fmap. eapply Forall_impl; [apply (expiry_late 0 r'); [done|apply Hr'|apply Hr']|]. intros [d f]. simpl. lia.
  - set (s1 := with_sched d1 s).
    assert (Hc1 : sch count_down s = Ok tt s1) by (by apply sch_Ok).
    assert (Hc2 : sch (upd_timer i (λ t, t <| t_jiffies ::= λ j, j - 1 |>)) s = Ok tt s1).
    { apply sch_Ok. unfold count_down, get in Hc. mred in Hc. by rewrite Hn in Hc. }
    rewrite (bind_Ok _ _ _ _ _ Hc1), (bind_Ok _ _ _ _ _ Hc2).
    assert (Hlen : (length z < S TIME_REQUESTS)%nat).
    { apply timers_length in Hwf1. apply Nat.lt_succ_r. etrans; [|exact Hwf1].
      assert (length (timers d1 (i :: l0)) = length (i :: l0)) as <- by (unfold timers; by rewrite length_fmap).
      rewrite Hl1, Hz, length_app. lia. }
    destruct (run_timers_run z (S TIME_REQUESTS) r' s1 (i :: l0)) as [Hrun Hend]; [done|by rewrite <-Hz|done|done|done|].
    split; [by rewrite Hrun, for_each_map|]. intros s' H. destruct (Hend s' H) as (l' & new & Hwf' & Hnew & Hl').
    exists l', r', new. split; [done|]. split; [done|]. split; [done|]. split.
    + rewrite <-list_fmap_compose, <-(list_fmap_id (expiry 0 r')) at 1. apply list_fmap_ext. intros _ [d f] _. cbn. f_equal. lia.
    + rewrite Hl'. by apply insert_all_pending.
Qed.

(** ** The clock *)

(** No timer is due at the next tick and no floppy motor is on. *)
Definition idle_clock (d : sched_state) : Prop :=
  (∀ n, next_timer d = Some n → ∃ t, timer_list d !! n = Some t ∧ 1 < t_jiffies t) ∧
  has (current_DOR d) 0xf0 = false.
Definition tick_task (user : bool) (t : task_struct) : task_struct :=
  (if user then t <| utime ::= λ x, s32 (x + 1) |> else t <| stime ::= λ x, s32 (x + 1) |>)
    <| counter := Z.max 0 (counter t - 1) |>.
Definition ticked (user : bool) (t : task_struct) (d : sched_state) : sched_state :=
  d <| timer_list ::= λ l, match next_timer d with Some n => alter (λ t, t <| t_jiffies ::= λ j, j - 1 |>) n l | None => l end |>
    <| tasks ::= <[current d := tick_task user t]> |>.
(** The speaker is counted down; at the end of the beep its gate is closed. *)
Definition beep_tick (k : kernel) : kernel :=
  let b := beepcount (k_sched k) in
  if negb (truth b) then k else
  let k1 := k <| k_sched ::= λ d, d <| beepcount := s32 (b - 1) |> |> in
  if truth (s32 (b - 1)) then k1 else k1 <| k_con ::= outb_p (Z.land (inb 0x61 k1) 0xFC) 0x61 |>.

Lemma insert_alter {A} (f : A → A) (l : list A) n x : l !! n = Some x → <[n := f x]> l = alter f n l.
Proof.
  intros H. apply list_eq. intros i. destruct (decide (i = n)) as [->|Hne].
  - by rewrite list_lookup_insert_eq, list_lookup_alter_eq, H by (by eapply lookup_lt_Some).
  - by rewrite list_lookup_insert_ne, list_lookup_alter_ne.
Qed.
Lemma tick_timers_idle (s : system) :
  idle_clock (sched s) →
  tick_timers s = Ok tt (with_sched (sched s <| timer_list ::= λ l,
    match next_timer (sched s) with Some n => alter (λ t, t <| t_jiffies ::= λ j, j - 1 |>) n l | None => l end |>) s).
Proof.
  intros [Ht _]. unfold tick_timers. rewrite (bind_Ok _ _ _ _ _ (sch_get s)).
  destruct (next_timer (sched s)) as [n|] eqn:Hn; [|by destruct s as [[? [] ? ? ? ? ? ?] ? ?]].
  destruct (Ht n eq_refl) as (t & Hl & Hj). rewrite (bind_Ok _ _ _ _ _ (sch_Ok _ s _ _ (upd_timer_run n _ _ t Hl))).
  set (t1 := t <| t_jiffies ::= λ j, j - 1 |>). set (d1 := sched s <| timer_list ::= <[n := t1]> |>).
  cbn [run_timers]. rewrite (bind_Ok _ _ _ _ _ (sch_get (with_sched d1 s))).
  change (next_timer (sched (with_sched d1 s))) with (next_timer (sched s)). rewrite Hn.
  assert (H1 : timer_at n d1 = Ok t1 d1).
  { unfold timer_at, get. mred. change (timer_list d1) with (<[n := t1]> (timer_list (sched s))).
    by rewrite list_lookup_insert_eq by (by eapply lookup_lt_Some). }
  rewrite (bind_Ok _ _ _ t1 (with_sched d1 s)) by exact (sch_Ok _ (with_sched d1 s) _ _ H1).
  destruct (Z.leb_spec (t_jiffies t1) 0) as [H|_]; [simpl in H; lia|]. unfold mret, M_ret, d1, t1, set at 1 3.
  by rewrite <-(insert_alter _ _ _ _ Hl).
Qed.

Lemma upd_cur_run f d t : tasks d !! current d = Some t → upd_cur f d = Ok tt (d <| tasks ::= <[current d := f t]> |>).
Proof. intros H. unfold upd_cur, cur, gets. mred. by rewrite (upd_task_run _ _ _ _ H). Qed.
Lemma sch_cur (f : task_struct → task_struct) (s : system) t :
  tasks (sched s) !! current (sched s) = Some t →
  sch (upd_cur f) s = Ok tt (with_sched (sched s <| tasks ::= <[current (sched s) := f t]> |>) s).
Proof. intros H. by apply sch_Ok, upd_cur_run. Qed.

Lemma beep_run (s : system) :
  (d ← sch get;
   when (truth (beepcount d)) (
     sch (modify (λ d, d <| beepcount ::= λ b, s32 (b - 1) |>)) ;;
     d ← sch get;
     when (negb (truth (beepcount d))) (kern sysbeepstop))) s = Ok tt (s <| sys_k := beep_tick (sys_k s) |>).
Proof.
  rewrite (bind_Ok _ _ _ _ _ (sch_get s)). unfold beep_tick. destruct (truth (beepcount (sched s))); cbn [when negb]; [|by destruct s].
  set (d1 := sched s <| beepcount ::= λ b, s32 (b - 1) |>).
  rewrite (bind_Ok _ _ s tt (with_sched d1 s)) by (by apply sch_Ok). rewrite (bind_Ok _ _ _ _ _ (sch_get (with_sched d1 s))).
  change (beepcount (sched (with_sched d1 s))) with (s32 (beepcount (sched s) - 1)).
  destruct (truth (s32 (beepcount (sched s) - 1))); cbn [when negb]; reflexivity.
Qed.
Lemma beep_sched k : k_sched (beep_tick k) =
  k_sched k <| beepcount := if truth (beepcount (k_sched k)) then s32 (beepcount (k_sched k) - 1) else beepcount (k_sched k) |>.
Proof.
  unfold beep_tick. destruct (truth (beepcount (k_sched k))); cbn [negb]; [|by destruct k as [? [] ? ? ? ? ? ?]]. by destruct (truth _).
Qed.

(** do_timer() up to the call of schedule(). *)
Lemma do_timer_idle cpl (s : system) t :
  cur_is (sys_k s) t → idle_clock (sched s) → 0 ≤ counter t < 2^31 →
  do_timer cpl s = kern (when (truth cpl && (counter t <=? 1)) reschedule)
    (s <| sys_k := beep_tick (sys_k s) <| k_sched ::= ticked (truth cpl) t |> |>).
Proof.
  intros Ht Hi Hc. unfold do_timer.
  set (s0 := s <| sys_k := beep_tick (sys_k s) |>).
  etransitivity; [exact (eq_trans (eq_sym (bind_assoc _ _ _ s)) (bind_Ok _ _ s tt s0 (beep_run s)))|]. cbn beta.
  set (d := sched s0).
  assert (Hd : ∃ b, d = sched s <| beepcount := b |>) by (eexists; apply beep_sched).
  assert (Ht0 : tasks d !! current d = Some t) by (destruct Hd as [b ->]; exact Ht).
  assert (Hi0 : idle_clock d) by (destruct Hd as [b ->]; exact Hi). clear Hd.
  set (t1 := if truth cpl then t <| utime ::= λ x, s32 (x + 1) |> else t <| stime ::= λ x, s32 (x + 1) |>).
  set (d2 := d <| tasks ::= <[current d := t1]> |>).
  rewrite (bind_Ok _ _ s0 tt (with_sched d2 s0)).
  2:{ apply sch_Ok. unfold d2, t1. destruct (truth cpl); by apply upd_cur_run. }
  rewrite (bind_Ok _ _ _ _ _ (tick_timers_idle (with_sched d2 s0) Hi0)). change (sched (with_sched d2 s0)) with d2.
  set (d3 := set timer_list _ d2). change (with_sched d3 (with_sched d2 s0)) with (with_sched d3 s0).
  rewrite (bind_Ok _ _ _ _ _ (sch_get (with_sched d3 s0))). change (sched (with_sched d3 s0)) with d3.
  replace (has (current_DOR d3) 0xf0) with false by (symmetry; exact (proj2 Hi0)). unfold when at 1.
  rewrite (bind_Ok (mret tt) _ (with_sched d3 s0) tt (with_sched d3 s0)) by done.
  assert (H3 : tasks d3 !! current d3 = Some t1) by apply lookup_insert_eq.
  rewrite (bind_Ok _ _ _ _ _ (sch_cur _ (with_sched d3 s0) t1 H3)). change (sched (with_sched d3 s0)) with d3.
  set (t2 := t1 <| counter ::= λ c, s32 (c - 1) |>). set (d4 := set tasks _ d3).
  change (with_sched d4 (with_sched d3 s0)) with (with_sched d4 s0).
  assert (H4 : tasks d4 !! current d4 = Some t2) by apply lookup_insert_eq.
  rewrite (bind_Ok _ _ (with_sched d4 s0) t2 (with_sched d4 s0)) by exact (sch_Ok _ (with_sched d4 s0) _ _ (cur_task_run _ _ H4)).
  assert (Hc2 : counter t2 = counter t - 1).
  { change (s32 (counter t1 - 1) = counter t - 1). replace (counter t1) with (counter t) by (unfold t1; by destruct (truth cpl)).
    apply s32_small. lia. }
  assert (Hend : ∀ t', t' = tick_task (truth cpl) t → d3 <| tasks ::= <[current d3 := t']> |> = ticked (truth cpl) t d).
  { intros t' ->. unfold ticked, d3, d2, set. destruct d. cbn. f_equal. apply insert_insert_eq. }
  assert (Htick : ∀ c, c = Z.max 0 (counter t - 1) → t1 <| counter := c |> = tick_task (truth cpl) t) by (by intros c ->).
  change (s <| sys_k := beep_tick (sys_k s) <| k_sched ::= ticked (truth cpl) t |> |>) with (with_sched (ticked (truth cpl) t d) s0).
  rewrite Hc2. destruct (Z.ltb_spec 0 (counter t - 1)).
  - replace (counter t <=? 1) with false by lia. rewrite andb_false_r. unfold when.
    assert (d4 = ticked (truth cpl) t d) as ->; [|done]. apply Hend. rewrite <-(Htick (counter t - 1)) by lia. unfold t2, set. by rewrite <-Hc2.
  - rewrite (bind_Ok _ _ _ _ _ (sch_cur _ (with_sched d4 s0) t2 H4)). change (sched (with_sched d4 s0)) with d4.
    assert (Hd5 : d4 <| tasks ::= <[current d4 := t2 <| counter := 0 |>]> |> = ticked (truth cpl) t d).
    { change (current d4) with (current d3). unfold d4 at 1. rewrite set_tasks_twice. apply Hend. exact (Htick 0 ltac:(lia)). }
    rewrite Hd5. replace (counter t <=? 1) with true by lia. rewrite andb_true_r. by destruct (truth cpl).
Qed.

(** What a tick leaves before anything is rescheduled. *)
Definition after_tick (user : bool) (t : task_struct) (s : system) : system :=
  s <| sys_k ::= λ k, beep_tick (k <| k_sched ::= λ d, d <| jiffies ::= λ j, s32 (j + 1) |> |>) <| k_sched ::= ticked user t |> |>
    <| sys_dev ::= port_out 0x20 0x20 |>.
(** eax, the registers and the stack of the code that goes on. *)
Definition going_on (_ : unit) (m : machine D) : Z * regs * list Z := (m_eax m, m_regs m, m_stack m).

Lemma timer_interrupt_run eax r stk (s : system) t :
  cur_is (sys_k s) t → idle_clock (sched s) → 0 ≤ counter t < 2^31 →
  seen going_on ((interrupt ;; timer_interrupt_) (mk_machine eax r stk s)) =
    (kern (when (in_program r && (counter t <=? 1)) reschedule) ;;
     r' ← kern (ret_from_sys_call eax r);
     mret (eax, r', if in_program r then [] else stk)) (after_tick (in_program r) t s).
Proof.
  intros Ht Hi Hc. rewrite (bind_Ok _ _ _ _ _ (entered_run eax r stk s)). unfold timer_interrupt_.
  set (st := ([r_eip r; r_cs r; r_eflags r] ++ _)).
  rewrite (bind_Ok save_regs _ _ tt (mk_machine eax (entered r) (frame r stk) s)) by (by destruct r).
  rewrite (bind_Ok get _ _ _ _ eq_refl). cbn [m_eax].
  rewrite (bind_Ok (push eax) _ _ tt (mk_machine eax (entered r) (eax :: frame r stk) s)) by reflexivity.
  set (g := entered r <| r_ds := 0x10 |> <| r_es := 0x10 |> <| r_fs := 0x17 |>).
  assert (Hg : unsaved r g) by apply unsaved_kernel, unsaved_entered.
  rewrite (bind_Ok kernel_segments _ _ tt (mk_machine eax g (eax :: frame r stk) s)) by reflexivity. clearbody g.
  set (s1 := s <| sys_k ::= λ k, k <| k_sched ::= λ d, d <| jiffies ::= λ j, s32 (j + 1) |> |> |>).
  rewrite (bind_Ok _ _ _ tt (mk_machine eax g (eax :: frame r stk) s1)) by reflexivity.
  set (s2 := s1 <| sys_dev ::= port_out 0x20 0x20 |>).
  rewrite (bind_Ok _ _ _ tt (mk_machine eax g (eax :: frame r stk) s2)) by reflexivity.
  rewrite (bind_Ok (word_at CS) _ _ (r_cs r) (mk_machine eax g (eax :: frame r stk) s2)) by reflexivity.
  set (cpl := Z.land (r_cs r) 3).
  rewrite (bind_Ok (push cpl) _ _ tt (mk_machine eax g (cpl :: eax :: frame r stk) s2)) by reflexivity.
  rewrite (bind_Ok (word_at 0) _ _ cpl (mk_machine eax g (cpl :: eax :: frame r stk) s2)) by reflexivity.
  rewrite seen_run, (bind_head _ _ _ _ _ (do_timer_idle cpl s2 t Ht Hi Hc)).
  change (truth cpl) with (in_program r). change (s2 <| sys_k := _ |>) with (after_tick (in_program r) t s).
  apply bind_pointwise. intros [] s3 _.
  rewrite (bind_Ok use_scratch _ _ tt (mk_machine eax (scratched (sys_k s3) g) (cpl :: eax :: frame r stk) s3)).
  2:{ unfold use_scratch, get, scratched. mred. cbn [m_sys]. by destruct (scratch (sys_k s3)). }
  rewrite (bind_Ok pop _ _ cpl (mk_machine eax (scratched (sys_k s3) g) (eax :: frame r stk) s3)) by reflexivity.
  by rewrite (ret_run going_on) by (by apply unsaved_scratched).
Qed.
Lemma seen_ok (o : outcome (machine D) unit) e r stk (s : system) x :
  seen going_on o = x → x = Ok (e, r, stk) s → o = Ok tt (mk_machine e r stk s).
Proof. intros <-. destruct o as [[] [e' r' stk' s']|? ?|? ?|?|]; simpl; try done. by intros [= <- <- <- <-]. Qed.

(** C28: a clock tick at which no timer is due and no floppy motor runs counts
    jiffies, acknowledges the interrupt, counts a beep down and stops the
    speaker at its end, charges the tick to the current task as user or system
    time and takes one off its time slice but never below 0; the scheduler is
    called if the tick interrupted a user program and used its slice up, and
    signals are delivered on the way back, to the registers restored from the
    stack.  A tick in the kernel only counts: no switch, no signal, and the
    kernel goes on with its registers and its stack. *)
Theorem timer_interrupt_correct eax r stk (s : system) t :
  cur_is (sys_k s) t → idle_clock (sched s) → 0 ≤ counter t < 2^31 →
  let user := in_program r in
  seen going_on ((interrupt ;; timer_interrupt_) (mk_machine eax r stk s)) =
    (kern (when (user && (counter t <=? 1)) reschedule) ;;
     r ← kern (ret_from_sys_call eax r);
     mret (eax, r, if user then [] else stk)) (after_tick user t s) ∧
  (user = false →
    (interrupt ;; timer_interrupt_) (mk_machine eax r stk s) = Ok tt (mk_machine eax r stk (after_tick false t s))).
Proof.
  intros Ht Hi Hc user. pose proof (timer_interrupt_run eax r stk s t Ht Hi Hc) as Hrun. fold user in Hrun.
  split; [exact Hrun|]. intros Hu. rewrite Hu in Hrun. apply (seen_ok _ _ _ _ _ _ Hrun).
  cbn [andb when]. rewrite (bind_Ok _ _ _ tt (after_tick false t s)) by (by destruct s).
  rewrite (bind_Ok _ _ _ r (after_tick false t s)); [done|]. apply zoom_ok. unfold ret_from_sys_call.
  destruct (Z.eqb_spec (Z.land (r_cs r) 0xffff) 0x0f) as [H|]; [|done].
  unfold user in Hu. by rewrite (seg_in_program r H) in Hu.
Qed.
End Calls.


(** ** ctype.c *)

Definition between (a b c : Z) : bool := (a <=? c) && (c <=? b).
Definition upper := between 65 90.
Definition lower := between 97 122.
Definition digit := between 48 57.
Definition punct (c : Z) : bool := between 33 47 c || between 58 64 c || between 91 96 c || between 123 126 c.
(** What each test should answer for [c]. *)
Definition class_ok (c : Z) : bool :=
  let ok (test : Z → option Z) (b : bool) := bool_decide (truth <$> test c = Some b) in
  ok isupper (upper c) && ok islower (lower c) && ok isdigit (digit c) && ok ispunct (punct c) &&
  ok isalpha (upper c || lower c) && ok isalnum (upper c || lower c || digit c) &&
  ok isspace (between 9 13 c || (c =? 32)) && ok iscntrl (between 0 31 c || (c =? 127)) &&
  ok isgraph (between 33 126 c) && ok isprint (between 32 126 c) &&
  ok isxdigit (digit c || between 65 70 c || between 97 102 c).
Definition case_ok (c : Z) : bool :=
  bool_decide (tolower c = if between 128 254 c then None else
    Some (if c =? 255 then -1 else Tty.tolower c)) &&
  bool_decide (toupper c = if between 128 254 c then None else
    Some (if c =? 255 then -1 else Tty.toupper c)).

Lemma chars_forall (P : Z → bool) : forallb (λ i, P (Z.of_nat i - 1)) (seq 0 257) = true → ∀ c, -1 ≤ c ≤ 255 → P c = true.
Proof.
  intros H c Hc. rewrite forallb_forall in H. specialize (H (Z.to_nat (c + 1))).
  replace (Z.of_nat (Z.to_nat (c + 1)) - 1) with c in H by lia. apply H. apply in_seq. lia.
Qed.

(** For EOF and every unsigned char the tests of ctype.h are those of
    ASCII, and false above 127; tolower() and toupper() change exactly the
    letters of the other case, as the terminals take them to, but for the
    characters 128 to 254 they read outside the table, because they go through
    a signed char. *)
Theorem ctype_correct c : -1 ≤ c ≤ 255 → class_ok c = true ∧ case_ok c = true.
Proof. intros Hc. split; revert c Hc; apply chars_forall; vm_compute; reflexivity. Qed.
