(* ===== verification/Build.v ===== *)
(** * tools/build.c: the boot image

    The program that joins the boot sector, setup and the kernel.  The files it
    is given and the device numbers stat() finds are parameters; an open file is
    the bytes not yet read, and standard output takes [room] more bytes. *)

From stdpp Require Import base option list strings.
From Stdlib Require Import ZArith Lia.
From S2P Require Import Prelude Types Memory Screen Buffer Main.
Local Open Scope Z_scope.

Record build_state := mk_build { image : list Z; room : nat; stderr : list string }.
#[export] Instance eta_build : Eta build_state := fun s => mk_build (image s) (room s) (stderr s).

Definition MINIX_HEADER : nat := 32.
Definition GCC_HEADER : nat := 1024.
Definition SYS_SIZE : Z := 0x2000.
Definition DEFAULT_MAJOR_ROOT : Z := 3.
Definition DEFAULT_MINOR_ROOT : Z := 6.
Definition SETUP_SECTS : Z := 4.
(** [char buf[1024]] *)
Definition BUF : nat := 1024.

Definition fprintf (str : string) : M build_state unit := modify (λ s, s <| stderr ::= λ l, l ++ [str] |>).
Definition die {A} (str : string) : M build_state A := fprintf str ;; exit_with 1.
Definition usage {A} : M build_state A := die "Usage: build bootsect setup system [rootdev] [> image]".
Definition die_if (b : bool) (str : string) : M build_state unit := if b then die str else mret tt.

(** [read(id,buf,n)]: how much, the buffer, and the rest of the file. *)
Definition read_buf (id buf : list Z) (n : nat) : nat * list Z * list Z :=
  let d := take n id in (length d, d ++ drop (length d) buf, drop n id).
(** [write(1,buf,n)] *)
Definition write1 (buf : list Z) (n : nat) : M build_state nat :=
  s ← get;
  let c := Nat.min n (room s) in
  modify (λ s, s <| image ::= λ l, l ++ take c buf |> <| room ::= λ r, (r - c)%nat |>) ;;
  mret c.
(** The buffer as an array of longs, on a machine of 32 bits. *)
Definition long_at (buf : list Z) (i : nat) : Z := get32 buf (4 * i).

Definition minix_header (name : string) (buf : list Z) : M build_state unit :=
  die_if (negb (long_at buf 0 =? 0x04100301)) ("Non-Minix header of " +:+ name) ;;
  die_if (negb (long_at buf 1 =? Z.of_nat MINIX_HEADER)) ("Non-Minix header of " +:+ name) ;;
  die_if (negb (long_at buf 3 =? 0)) ("Illegal data segment in " +:+ name) ;;
  die_if (negb (long_at buf 4 =? 0)) ("Illegal bss in " +:+ name) ;;
  die_if (negb (long_at buf 5 =? 0)) ("Non-Minix header of " +:+ name) ;;
  die_if (negb (long_at buf 7 =? 0)) ("Illegal symbol table in " +:+ name).

(** [for (i=0 ; (c=read(id,buf,sizeof buf))>0 ; i+=c) if (write(1,buf,c)!=c) die(...)] *)
Fixpoint copy_file (fuel : nat) (id buf : list Z) (i : nat) : M build_state nat :=
  match fuel with
  | O => no_fuel
  | S fuel =>
      let '(c, buf, id) := read_buf id buf BUF in
      if (c =? 0)%nat then mret i else
      w ← write1 buf c;
      die_if (negb (w =? c)%nat) "Write call failed" ;;
      copy_file fuel id buf (i + c)
  end.
(** [while (i<SETUP_SECTS*512)] *)
Fixpoint pad_setup (fuel : nat) (buf : list Z) (i : nat) : M build_state unit :=
  match fuel with
  | O => no_fuel
  | S fuel =>
      if Z.of_nat i <? SETUP_SECTS * 512 then
        let c := Nat.min (Z.to_nat (SETUP_SECTS * 512) - i) BUF in
        w ← write1 buf c;
        die_if (negb (w =? c)%nat) "Write call failed" ;;
        pad_setup fuel buf (i + c)
      else mret tt
  end.

Section Host.
Context (open : string → option (list Z)) (stat_rdev : string → option Z).

Definition opened (name file : string) : M build_state (list Z) :=
  match open file with None => die ("Unable to open " +:+ name) | Some id => mret id end.
(** The root device of the command line. *)
Definition root_of (argv : list string) : M build_state (Z * Z) :=
  match argv !! 4%nat with
  | Some a =>
      if negb (String.eqb a "FLOPPY") then
        match stat_rdev a with
        | None => fprintf a ;; die "Couldn't stat root device."
        | Some st_rdev => mret (s8 (MAJOR st_rdev), s8 (MINOR st_rdev))
        end
      else mret (0, 0)
  | None => mret (DEFAULT_MAJOR_ROOT, DEFAULT_MINOR_ROOT)
  end.

Definition build_boot (file : string) (major_root minor_root : Z) (buf : list Z) : M build_state (list Z) :=
  id ← opened "'boot'" file;
  let '(c, buf, id) := read_buf id buf MINIX_HEADER in
  die_if (negb (c =? MINIX_HEADER)%nat) "Unable to read header of 'boot'" ;;
  minix_header "'boot'" buf ;;
  let '(i, buf, id) := read_buf id buf BUF in
  fprintf "Boot sector %d bytes.\n" ;;
  die_if (negb (i =? 512)%nat) "Boot block must be exactly 512 bytes" ;;
  die_if (negb (get16 buf 510 =? 0xAA55)) "Boot block hasn't got boot flag (0xAA55)" ;;
  let buf := <[509%nat := u8 major_root]> (<[508%nat := u8 minor_root]> buf) in
  i ← write1 buf 512;
  die_if (negb (i =? 512)%nat) "Write call failed" ;;
  mret buf.

Definition build_setup (file : string) (buf : list Z) : M build_state (list Z) :=
  id ← opened "'setup'" file;
  let '(c, buf, id) := read_buf id buf MINIX_HEADER in
  die_if (negb (c =? MINIX_HEADER)%nat) "Unable to read header of 'setup'" ;;
  minix_header "'setup'" buf ;;
  i ← copy_file (S (length id)) id buf 0;
  die_if (SETUP_SECTS * 512 <? Z.of_nat i) "Setup exceeds SETUP_SECTS sectors - rewrite build/boot/setup" ;;
  fprintf "Setup is %d bytes.\n" ;;
  let buf := replicate BUF 0 in
  pad_setup 3 buf i ;;
  mret buf.

Definition build_system (file : string) (buf : list Z) : M build_state unit :=
  id ← opened "'system'" file;
  let '(c, buf, id) := read_buf id buf GCC_HEADER in
  die_if (negb (c =? GCC_HEADER)%nat) "Unable to read header of 'system'" ;;
  die_if (negb (long_at buf 5 =? 0)) "Non-GCC header of 'system'" ;;
  i ← copy_file (S (length id)) id buf 0;
  fprintf "System is %d bytes.\n" ;;
  die_if (SYS_SIZE * 16 <? Z.of_nat i) "System is too big".

Definition build_main (argv : list string) : M build_state Z :=
  let argc := length argv in
  (if negb (argc =? 4)%nat && negb (argc =? 5)%nat then usage else mret tt) ;;
  '(major_root, minor_root) ← root_of argv;
  fprintf "Root device is (%d, %d)\n" ;;
  when (negb (major_root =? 2) && negb (major_root =? 3) && negb (major_root =? 0)) (
    fprintf "Illegal root device (major = %d)\n" ;;
    die "Bad root device --- major #") ;;
  let arg i := default "" (argv !! i) in
  buf ← build_boot (arg 1%nat) major_root minor_root (replicate BUF 0);
  buf ← build_setup (arg 2%nat) buf;
  build_system (arg 3%nat) buf ;;
  mret 0.

(** ** The image, by its layout *)

Definition root_device (argv : list string) : option (Z * Z) :=
  d ← match argv !! 4%nat with
      | None => Some (DEFAULT_MAJOR_ROOT, DEFAULT_MINOR_ROOT)
      | Some a => if String.eqb a "FLOPPY" then Some (0, 0) else
          (λ d, (s8 (MAJOR d), s8 (MINOR d))) <$> stat_rdev a
      end;
  if bool_decide (d.1 ∈ [0; 2; 3]) then Some d else None.
(** A Minix executable without data, bss and symbols: what follows the header. *)
Definition minix_text (f : list Z) : option (list Z) :=
  let h := take MINIX_HEADER f in
  if bool_decide (length h = MINIX_HEADER ∧ long_at h 0 = 0x04100301 ∧ long_at h 1 = 32 ∧ long_at h 3 = 0 ∧
    long_at h 4 = 0 ∧ long_at h 5 = 0 ∧ long_at h 7 = 0) then Some (drop MINIX_HEADER f) else None.
Definition gcc_text (f : list Z) : option (list Z) :=
  let h := take GCC_HEADER f in
  if bool_decide (length h = GCC_HEADER ∧ long_at h 5 = 0) then Some (drop GCC_HEADER f) else None.

Definition layout (argv : list string) : option (list Z) :=
  let file i := argv !! i ≫= open in
  if bool_decide (length argv = 4%nat ∨ length argv = 5%nat) then
    '(major, minor) ← root_device argv;
    boot ← file 1%nat ≫= minix_text;
    setup ← file 2%nat ≫= minix_text;
    system ← file 3%nat ≫= gcc_text;
    if bool_decide (length boot = 512%nat ∧ get16 boot 510 = 0xAA55 ∧ (length setup ≤ 2048)%nat ∧
      Z.of_nat (length system) ≤ 131072) then
      Some (take 508 boot ++ [u8 minor; u8 major] ++ drop 510 boot ++
            setup ++ replicate (2048 - length setup) 0 ++ system)
    else None
  else None.
End Host.

(** ** What a routine writes *)

(** [m] writes exactly [l] and returns with [P], or, if [l] is [None] or there
    is no room for it, dies. *)
Definition does {A} (m : M build_state A) (o : option (list Z)) (P : A → Prop) : Prop := ∀ s,
  match o with
  | Some l =>
      if (length l <=? room s)%nat
      then ∃ a s', m s = Ok a s' ∧ image s' = image s ++ l ∧ room s' = (room s - length l)%nat ∧ P a
      else ∃ s', m s = Exit 1 s'
  | None => ∃ s', m s = Exit 1 s'
  end.

Lemma does_ret {A} (a : A) (P : A → Prop) : P a → does (mret a) (Some []) P.
Proof. intros HP s. simpl. exists a, s. split; [done|]. rewrite app_nil_r. split; [done|]. split; [lia|done]. Qed.
Lemma does_weaken {A} (m : M build_state A) o (P Q : A → Prop) : does m o P → (∀ a, P a → Q a) → does m o Q.
Proof.
  intros Hm HPQ s. specialize (Hm s). destruct o as [l|]; [|done]. destruct (_ <=? _)%nat; [|done].
  destruct Hm as (a & s' & ? & ? & ? & ?). exists a, s'. auto.
Qed.
Lemma does_dies {A B} (m : M build_state A) (f : A → M build_state B) P Q : does m None P → does (m ≫= f) None Q.
Proof. intros Hm s. destruct (Hm s) as [s' H]. exists s'. unfold mbind, M_bind. by rewrite H. Qed.
Lemma does_bind {A B} (m : M build_state A) (f : A → M build_state B) l o P Q :
  does m (Some l) P → (∀ a, P a → does (f a) o Q) → does (m ≫= f) (app l <$> o) Q.
Proof.
  intros Hm Hf s. specialize (Hm s). simpl in Hm. destruct (Nat.leb_spec (length l) (room s)) as [Hl|Hl].
  - destruct Hm as (a & s1 & Hr & Him & Hro & HP). specialize (Hf a HP s1).
    destruct o as [k|]; simpl.
    + rewrite length_app. rewrite Hro in Hf.
      destruct (Nat.leb_spec (length k) (room s - length l)) as [Hk|Hk].
      * destruct Hf as (b & s2 & Hr2 & Him2 & Hro2 & HQ). rewrite (proj2 (Nat.leb_le _ _)) by lia.
        exists b, s2. split; [by rewrite (bind_Ok _ _ _ _ _ Hr)|]. split; [by rewrite Him2, Him, app_assoc|].
        split; [lia|done].
      * rewrite (proj2 (Nat.leb_gt _ _)) by lia. destruct Hf as [s2 Hr2]. exists s2.
        by rewrite (bind_Ok _ _ _ _ _ Hr).
    + destruct Hf as [s2 Hr2]. exists s2. by rewrite (bind_Ok _ _ _ _ _ Hr).
  - destruct Hm as [s1 Hr]. destruct o as [k|]; simpl.
    + rewrite length_app, (proj2 (Nat.leb_gt _ _)) by lia. exists s1. unfold mbind, M_bind. by rewrite Hr.
    + exists s1. unfold mbind, M_bind. by rewrite Hr.
Qed.
(** A step that writes nothing. *)
Lemma does_then {A B} (m : M build_state A) (f : A → M build_state B) o P Q :
  does m (Some []) P → (∀ a, P a → does (f a) o Q) → does (m ≫= f) o Q.
Proof. intros Hm Hf. pose proof (does_bind m f [] o P Q Hm Hf) as H. by destruct o. Qed.

Lemma does_fprintf str : does (fprintf str) (Some []) (λ _, True).
Proof. intros s. simpl. eexists tt, _. split; [done|]. simpl. rewrite app_nil_r. split; [done|]. split; [lia|done]. Qed.
Lemma does_die {A} str P : does (@die A str) None P.
Proof. intros s. by eexists. Qed.
Lemma does_die_if b str : does (die_if b str) (if b then None else Some []) (λ _, True).
Proof. destruct b; [apply does_die|by apply does_ret]. Qed.
(** [if (b) die(...)], then the rest. *)
Lemma does_check {B} (b : bool) str (m : M build_state B) o Q :
  does m o Q → does (die_if b str ;; m) (if b then None else o) Q.
Proof.
  intros Hm. destruct b; [apply (does_dies _ _ (λ _, True)), does_die|]. eapply does_then; [by apply (does_ret tt (λ _, True))|]. by intros [] _.
Qed.
(** [if (write(1,buf,n) != n) die(...)], then the rest. *)
Lemma does_write {B} buf n str (m : M build_state B) o Q :
  (n ≤ length buf)%nat → does m o Q →
  does (w ← write1 buf n; die_if (negb (w =? n)%nat) str ;; m) (app (take n buf) <$> o) Q.
Proof.
  intros Hn Hm s. rewrite <-bind_assoc. revert s. change (does ((w ← write1 buf n; die_if (negb (w =? n)%nat) str) ≫= λ _, m) (app (take n buf) <$> o) Q).
  apply (does_bind _ _ _ _ (λ _, True)); [|done]. intros s. simpl. rewrite length_take, Nat.min_l by done.
  unfold write1, get, modify. mred. destruct (Nat.leb_spec n (room s)) as [Hr|Hr].
  - rewrite Nat.min_l by done. rewrite Nat.eqb_refl. simpl. eexists tt, _. split; [done|]. simpl. done.
  - rewrite Nat.min_r by lia. rewrite (proj2 (Nat.eqb_neq _ _)) by lia. simpl. by eexists.
Qed.

(** Copying and padding. *)
Lemma copy_file_does fuel : ∀ id buf i, (length id < fuel)%nat → length buf = BUF →
  does (copy_file fuel id buf i) (Some id) (λ n, n = (i + length id)%nat).
Proof.
  induction fuel as [|fuel IH]; intros id buf i Hf Hb; [lia|]. cbn [copy_file read_buf].
  set (d := take BUF id). assert (Hd : (length d ≤ BUF)%nat) by (unfold d; rewrite length_take; lia).
  destruct (Nat.eqb_spec (length d) 0) as [H0|H0].
  - assert (id = []) as -> by (destruct id; [done|]; discriminate H0). apply does_ret. simpl. lia.
  - assert (Hid : (0 < length id)%nat) by (destruct id; [done|simpl; lia]).
    assert (Hbuf : length (d ++ drop (length d) buf) = BUF) by (rewrite length_app, length_drop; lia).
    replace (Some id) with (app (take (length d) (d ++ drop (length d) buf)) <$> Some (drop BUF id)).
    2:{ rewrite take_app_length. unfold d. change (Some (take BUF id ++ drop BUF id) = Some id). by rewrite take_drop. }
    apply does_write; [lia|]. eapply does_weaken; [apply IH; [|done]|].
    + rewrite length_drop. unfold BUF in *. lia.
    + intros n ->. rewrite length_drop. unfold d. rewrite length_take. lia.
Qed.
Lemma pad_setup_does fuel : ∀ i, (2048 - i + BUF ≤ fuel * BUF)%nat →
  does (pad_setup fuel (replicate BUF 0) i) (Some (replicate (2048 - i) 0)) (λ _, True).
Proof.
  induction fuel as [|fuel IH]; intros i Hf; [unfold BUF in Hf; lia|]. cbn [pad_setup].
  change (SETUP_SECTS * 512) with 2048. destruct (Z.ltb_spec (Z.of_nat i) 2048) as [Hi|Hi].
  - change (Z.to_nat 2048) with 2048%nat. set (c := Nat.min (2048 - i) BUF).
    assert (Hc : (0 < c)%nat ∧ (c ≤ 2048 - i)%nat ∧ (c ≤ BUF)%nat) by (unfold c, BUF; lia).
    replace (Some (replicate (2048 - i) 0)) with (app (take c (replicate BUF 0)) <$> Some (replicate (2048 - (i + c)) 0)).
    2:{ rewrite take_replicate, Nat.min_l by lia. simpl. rewrite <-replicate_add. do 2 f_equal. lia. }
    apply does_write; [rewrite length_replicate; lia|]. apply IH. rewrite Nat.mul_succ_l in Hf.
    destruct fuel as [|fuel]; [unfold BUF in Hf; lia|].
    destruct (Nat.min_spec (2048 - i) BUF) as [[? E]|[? E]]; fold c in E; lia.
  - replace (2048 - i)%nat with 0%nat by lia. by apply does_ret.
Qed.

Lemma does_seq {A B} (m : M build_state A) (f : A → M build_state B) o1 o2 P Q :
  does m o1 P → (∀ a, P a → does (f a) o2 Q) → does (m ≫= f) (l ← o1; app l <$> o2) Q.
Proof. intros Hm Hf. destruct o1 as [l|]; [by apply (does_bind m f l o2 P)|by apply (does_dies m f P)]. Qed.

(** ** The three parts *)

Definition header_ok (h : list Z) : bool :=
  (long_at h 0 =? 0x04100301) && (long_at h 1 =? 32) && (long_at h 3 =? 0) && (long_at h 4 =? 0) &&
  (long_at h 5 =? 0) && (long_at h 7 =? 0).
Lemma minix_header_does name buf :
  does (minix_header name buf) (if header_ok buf then Some [] else None) (λ _, True).
Proof.
  unfold minix_header, header_ok. change (Z.of_nat MINIX_HEADER) with 32.
  match goal with |- does _ ?o _ => replace o with
    (if negb (long_at buf 0 =? 0x04100301) then None else if negb (long_at buf 1 =? 32) then None else
     if negb (long_at buf 3 =? 0) then None else if negb (long_at buf 4 =? 0) then None else
     if negb (long_at buf 5 =? 0) then None else if negb (long_at buf 7 =? 0) then None else Some ([] : list Z)) end.
  - do 5 apply does_check. apply does_die_if.
  - by repeat (destruct (_ =? _); simpl).
Qed.

Lemma byte_at_app_l (l k : list Z) n : (n < length l)%nat → byte_at (l ++ k) n = byte_at l n.
Proof. intros H. unfold byte_at. by rewrite lookup_app_l. Qed.
Lemma long_at_app_l (l k : list Z) i : (4 * i + 3 < length l)%nat → long_at (l ++ k) i = long_at l i.
Proof. intros H. unfold long_at, get32, get16. by rewrite !byte_at_app_l by lia. Qed.
Lemma header_ok_app (h k : list Z) : length h = MINIX_HEADER → header_ok (h ++ k) = header_ok h.
Proof. intros H. unfold header_ok. unfold MINIX_HEADER in H. by rewrite !long_at_app_l by lia. Qed.

Section Host.
Context (open : string → option (list Z)) (stat_rdev : string → option Z).

Lemma opened_does name file id : open file = Some id → does (opened open name file) (Some []) (λ x, x = id).
Proof. intros H. unfold opened. rewrite H. by apply does_ret. Qed.
Lemma opened_dies name file : open file = None → does (opened open name file) None (λ _, True).
Proof. intros H. unfold opened. rewrite H. apply does_die. Qed.

(** Opening a file and its Minix header: what follows sees the text. *)
Lemma header_does {B} name file str buf (f : list Z → list Z → M build_state B) (o : list Z → option (list Z)) Q :
  length buf = BUF →
  (∀ id b, minix_text id = Some (drop MINIX_HEADER id) → open file = Some id → length b = BUF →
     does (f b (drop MINIX_HEADER id)) (o (drop MINIX_HEADER id)) Q) →
  does (id ← opened open name file;
        let '(c, buf, id) := read_buf id buf MINIX_HEADER in
        die_if (negb (c =? MINIX_HEADER)%nat) str ;; minix_header name buf ;; f buf id)
    ((open file ≫= minix_text) ≫= o) Q.
Proof.
  intros Hb Hf. destruct (open file) as [id|] eqn:Ho; [|by apply (does_dies _ _ (λ _, True)), opened_dies].
  eapply does_then; [by apply opened_does|]. intros ? ->. simpl.
  unfold read_buf, minix_text. set (h := take MINIX_HEADER id).
  case_bool_decide as Hok.
  - destruct Hok as (Hl & H0 & H1 & H3 & H4 & H5 & H7). rewrite Hl, Nat.eqb_refl. simpl.
    eapply does_then; [by apply (does_ret tt (λ _, True))|]. intros [] _.
    eapply does_then; [|intros [] _; apply Hf; [|done|]].
    + pose proof (minix_header_does name (h ++ drop MINIX_HEADER buf)) as Hm.
      rewrite header_ok_app in Hm by done. unfold header_ok in Hm. by rewrite H0, H1, H3, H4, H5, H7 in Hm.
    + unfold minix_text. fold h. by rewrite bool_decide_eq_true_2.
    + rewrite length_app, Hl, length_drop, Hb. done.
  - simpl. destruct (Nat.eqb_spec (length h) MINIX_HEADER) as [Hl|Hl]; simpl.
    + eapply does_then; [by apply (does_ret tt (λ _, True))|]. intros [] _.
      apply (does_dies _ _ (λ _, True)). rewrite Hl.
      pose proof (minix_header_does name (h ++ drop MINIX_HEADER buf)) as Hm.
      rewrite header_ok_app in Hm by done. destruct (header_ok h) eqn:Hh; [|done].
      destruct Hok. unfold header_ok in Hh. rewrite !andb_true_iff, !Z.eqb_eq in Hh. tauto.
    + apply (does_dies _ _ (λ _, True)), does_die.
Qed.

Definition patched (boot : list Z) (major minor : Z) : list Z := take 508 boot ++ [u8 minor; u8 major] ++ drop 510 boot.
Lemma patch_insert (boot : list Z) a b :
  length boot = 512%nat → <[509%nat := b]> (<[508%nat := a]> boot) = take 508 boot ++ [a; b] ++ drop 510 boot.
Proof.
  intros Hl. apply list_eq. intros i.
  destruct (decide (i = 509%nat)) as [->|H9].
  { rewrite list_lookup_insert_eq by (rewrite length_insert; lia).
    rewrite lookup_app_r by (rewrite length_take; lia). rewrite length_take, Hl. done. }
  rewrite list_lookup_insert_ne by done. destruct (decide (i = 508%nat)) as [->|H8].
  { rewrite list_lookup_insert_eq by lia. rewrite lookup_app_r by (rewrite length_take; lia). rewrite length_take, Hl. done. }
  rewrite list_lookup_insert_ne by done. destruct (decide (i < 508)%nat) as [Hi|Hi].
  - rewrite lookup_app_l by (rewrite length_take; lia). by rewrite lookup_take_lt by lia.
  - rewrite lookup_app_r by (rewrite length_take; lia). rewrite length_take, Hl.
    rewrite lookup_app_r by (simpl; lia). rewrite lookup_drop. f_equal. simpl. lia.
Qed.

Definition boot_part (major minor : Z) (boot : list Z) : option (list Z) :=
  if bool_decide (length boot = 512%nat ∧ get16 boot 510 = 0xAA55) then Some (patched boot major minor) else None.
Lemma build_boot_does file major minor buf :
  length buf = BUF →
  does (build_boot open file major minor buf) ((open file ≫= minix_text) ≫= boot_part major minor) (λ b, length b = BUF).
Proof.
  intros Hb. unfold build_boot.
  apply (header_does "'boot'" file _ buf (λ buf id,
    let '(i, buf, id) := read_buf id buf BUF in
    fprintf "Boot sector %d bytes.\n" ;;
    die_if (negb (i =? 512)%nat) "Boot block must be exactly 512 bytes" ;;
    die_if (negb (get16 buf 510 =? 0xAA55)) "Boot block hasn't got boot flag (0xAA55)" ;;
    let buf := <[509%nat := u8 major]> (<[508%nat := u8 minor]> buf) in
    i ← write1 buf 512;
    die_if (negb (i =? 512)%nat) "Write call failed" ;;
    mret buf) (boot_part major minor) _ Hb).
  intros id b _ _ Hlb. set (text := drop MINIX_HEADER id). cbn [read_buf].
  set (d := take BUF text). eapply does_then; [apply does_fprintf|]. intros _ _.
  unfold boot_part. destruct (Nat.eqb_spec (length d) 512) as [Hd|Hd]; simpl.
  2:{ rewrite bool_decide_eq_false_2; [apply (does_dies _ _ (λ _, True)), does_die|].
      intros [Hl _]. apply Hd. unfold d. rewrite length_take, Hl. done. }
  assert (Ht : d = text) by (unfold d in *; rewrite length_take in Hd; apply take_ge; unfold BUF in *; lia).
  rewrite Ht in *. eapply does_then; [by apply (does_ret tt (λ _, True))|]. intros [] _.
  rewrite Hd. replace (get16 (text ++ drop 512 b) 510) with (get16 text 510)
    by (unfold get16; by rewrite !byte_at_app_l by lia).
  destruct (Z.eqb_spec (get16 text 510) 0xAA55) as [H|H]; simpl.
  2:{ rewrite bool_decide_eq_false_2 by tauto. apply (does_dies _ _ (λ _, True)), does_die. }
  rewrite bool_decide_eq_true_2 by done. eapply does_then; [by apply (does_ret tt (λ _, True))|]. intros [] _.
  set (b' := <[509%nat := _]> _).
  assert (Hlen : length b' = BUF) by (unfold b'; rewrite !length_insert, length_app, length_drop, Hd, Hlb; done).
  replace (Some (patched text major minor)) with (app (take 512 b') <$> Some ([] : list Z)).
  - apply does_write; [unfold BUF in Hlen; lia|]. by apply does_ret.
  - cbn [fmap option_fmap option_map]. rewrite app_nil_r. f_equal. unfold b', patched.
    rewrite <-patch_insert by done. rewrite !insert_app_l by (rewrite ?length_insert; lia).
    rewrite take_app_le by (rewrite !length_insert; lia). apply take_ge. rewrite !length_insert. lia.
Qed.

Definition setup_part (text : list Z) : option (list Z) :=
  if bool_decide (length text ≤ 2048)%nat then Some (text ++ replicate (2048 - length text) 0) else None.
Lemma build_setup_does file buf :
  length buf = BUF →
  does (build_setup open file buf) ((open file ≫= minix_text) ≫= setup_part) (λ b, length b = BUF).
Proof.
  intros Hb. unfold build_setup.
  apply (header_does "'setup'" file _ buf (λ buf id,
    i ← copy_file (S (length id)) id buf 0;
    die_if (SETUP_SECTS * 512 <? Z.of_nat i) "Setup exceeds SETUP_SECTS sectors - rewrite build/boot/setup" ;;
    fprintf "Setup is %d bytes.\n" ;;
    let buf := replicate BUF 0 in
    pad_setup 3 buf i ;;
    mret buf) setup_part _ Hb).
  intros id b _ _ Hlb. set (text := drop MINIX_HEADER id).
  replace (setup_part text) with (l ← Some text; app l <$> (if SETUP_SECTS * 512 <? Z.of_nat (length text) then None
    else Some (replicate (2048 - length text) 0))).
  - eapply does_seq; [by apply copy_file_does; [lia|]|]. intros n ->. apply does_check.
    eapply does_then; [apply does_fprintf|]. intros _ _.
    rewrite <-(app_nil_r (replicate (2048 - length text) 0)).
    apply (does_seq _ _ (Some (replicate (2048 - length text) 0)) (Some []) (λ _, True)).
    + apply pad_setup_does. unfold BUF. lia.
    + intros [] _. apply does_ret. by rewrite length_replicate.
  - unfold setup_part. change (SETUP_SECTS * 512) with 2048. simpl. case_bool_decide; destruct (Z.ltb_spec 2048 (Z.of_nat (length text))); simpl; try done; lia.
Qed.

Definition system_part (text : list Z) : option (list Z) :=
  if bool_decide (Z.of_nat (length text) ≤ 131072) then Some text else None.
Lemma build_system_does file buf :
  length buf = BUF →
  does (build_system open file buf) ((open file ≫= gcc_text) ≫= system_part) (λ _, True).
Proof.
  intros Hb. unfold build_system. destruct (open file) as [id|] eqn:Ho; [|by apply (does_dies _ _ (λ _, True)), opened_dies].
  eapply does_then; [by apply opened_does|]. intros ? ->.
  change ((Some id ≫= gcc_text) ≫= system_part) with (gcc_text id ≫= system_part).
  unfold read_buf, gcc_text. cbn beta iota. set (h := take GCC_HEADER id).
  destruct (Nat.eqb_spec (length h) GCC_HEADER) as [Hl|Hl].
  2:{ rewrite bool_decide_eq_false_2 by tauto. apply (does_dies _ _ (λ _, True)), does_die. }
  eapply does_then; [by apply (does_ret tt (λ _, True))|]. intros [] _.
  rewrite long_at_app_l by (rewrite Hl; unfold GCC_HEADER; lia).
  destruct (Z.eqb_spec (long_at h 5) 0) as [H5|H5].
  2:{ rewrite bool_decide_eq_false_2 by tauto. apply (does_dies _ _ (λ _, True)), does_die. }
  rewrite bool_decide_eq_true_2 by done. eapply does_then; [by apply (does_ret tt (λ _, True))|]. intros [] _.
  set (text := drop GCC_HEADER id). change (Some text ≫= system_part) with (system_part text).
  replace (system_part text) with (l ← Some text; app l <$> (if SYS_SIZE * 16 <? Z.of_nat (length text) then None else Some [])).
  - eapply does_seq; [apply copy_file_does; [lia|]|].
    + by rewrite length_app, Hl, length_drop, Hb.
    + intros n ->. eapply does_then; [apply does_fprintf|]. intros _ _. apply does_die_if.
  - unfold system_part. change (SYS_SIZE * 16) with 131072. simpl. rewrite ?app_nil_r.
    case_bool_decide; destruct (Z.ltb_spec 131072 (Z.of_nat (length text))); simpl; rewrite ?app_nil_r; try done; lia.
Qed.

(** The root device is found and accepted, and the rest follows. *)
Lemma root_does {B} argv (f : Z → Z → M build_state B) (o : Z * Z → option (list Z)) Q :
  (∀ d, does (f d.1 d.2) (o d) Q) →
  does ('(major_root, minor_root) ← root_of stat_rdev argv;
        fprintf "Root device is (%d, %d)\n" ;;
        when (negb (major_root =? 2) && negb (major_root =? 3) && negb (major_root =? 0)) (
          fprintf "Illegal root device (major = %d)\n" ;;
          die "Bad root device --- major #") ;;
        f major_root minor_root)
    (root_device stat_rdev argv ≫= o) Q.
Proof.
  intros Hf.
  assert (Hgo : ∀ d : Z * Z, does ((λ '(major_root, minor_root),
      fprintf "Root device is (%d, %d)\n" ;;
      when (negb (major_root =? 2) && negb (major_root =? 3) && negb (major_root =? 0)) (
        fprintf "Illegal root device (major = %d)\n" ;;
        die "Bad root device --- major #") ;;
      f major_root minor_root) d) ((if bool_decide (d.1 ∈ [0; 2; 3]) then Some d else None) ≫= o) Q).
  { intros [major minor]. eapply does_then; [apply does_fprintf|]. intros _ _. cbn [fst].
    assert (Hb : negb (major =? 2) && negb (major =? 3) && negb (major =? 0) = negb (bool_decide (major ∈ [0; 2; 3]))).
    { case_bool_decide as Hin; rewrite !elem_of_cons, elem_of_nil in Hin;
        destruct (Z.eqb_spec major 2), (Z.eqb_spec major 3), (Z.eqb_spec major 0); simpl; tauto. }
    rewrite Hb. destruct (bool_decide _); simpl.
    - eapply does_then; [by apply (does_ret tt (λ _, True))|]. intros [] _. apply (Hf (major, minor)).
    - apply (does_dies _ _ (λ _, True)). eapply does_then; [apply does_fprintf|]. intros _ _. apply does_die. }
  unfold root_of, root_device. destruct (argv !! 4%nat) as [a|].
  - destruct (String.eqb a "FLOPPY"); simpl; [eapply does_then; [by apply (does_ret _ (λ d, d = (0, 0)))|intros ? ->; exact (Hgo (0, 0))]|].
    destruct (stat_rdev a) as [d|]; simpl.
    + eapply does_then; [by apply (does_ret _ (λ x, x = (s8 (MAJOR d), s8 (MINOR d))))|].
      intros ? ->. exact (Hgo (s8 (MAJOR d), s8 (MINOR d))).
    + apply (does_dies _ _ (λ _, True)). eapply does_then; [apply does_fprintf|]. intros _ _. apply does_die.
  - eapply does_then; [by apply (does_ret _ (λ x, x = (DEFAULT_MAJOR_ROOT, DEFAULT_MINOR_ROOT)))|].
    intros ? ->. exact (Hgo (DEFAULT_MAJOR_ROOT, DEFAULT_MINOR_ROOT)).
Qed.

Lemma layout_parts argv :
  length argv = 4%nat ∨ length argv = 5%nat →
  let text i := open (default "" (argv !! (i : nat))) ≫= minix_text in
  layout open stat_rdev argv = root_device stat_rdev argv ≫= λ d,
    l1 ← text 1%nat ≫= boot_part d.1 d.2;
    app l1 <$> (l2 ← text 2%nat ≫= setup_part;
      app l2 <$> (l3 ← (open (default "" (argv !! 3%nat)) ≫= gcc_text) ≫= system_part; app l3 <$> Some [])).
Proof.
  intros Hn text. unfold layout, text. rewrite bool_decide_eq_true_2 by done.
  assert (Harg : ∀ i, (i < 4)%nat → argv !! i ≫= open = open (default "" (argv !! i))).
  { intros i Hi. destruct (lookup_lt_is_Some_2 argv i) as [a ->]; [lia|done]. }
  rewrite !Harg by lia. destruct (root_device stat_rdev argv) as [[major minor]|]; [|done]. cbn [mbind option_bind fst snd].
  destruct (open (default "" (argv !! 1%nat)) ≫= minix_text) as [boot|]; [|done].
  destruct (open (default "" (argv !! 2%nat)) ≫= minix_text) as [setup|]; simpl; unfold boot_part;
    [|by case_bool_decide].
  destruct (open (default "" (argv !! 3%nat)) ≫= gcc_text) as [system|]; simpl; unfold setup_part;
    [|by repeat case_bool_decide].
  unfold system_part. repeat case_bool_decide; simpl; try done; try tauto.
  unfold patched. by rewrite app_nil_r, <-!app_assoc.
Qed.

Lemma build_main_does argv : does (build_main open stat_rdev argv) (layout open stat_rdev argv) (λ r, r = 0).
Proof.
  unfold build_main. destruct (decide (length argv = 4%nat ∨ length argv = 5%nat)) as [Hn|Hn].
  - rewrite layout_parts by done. eapply does_then; [|intros [] _; apply root_does].
    + destruct Hn as [-> | ->]; by apply (does_ret tt (λ _, True)).
    + intros d. eapply does_seq; [apply build_boot_does, length_replicate|]. intros b Hb.
      eapply does_seq; [by apply build_setup_does|]. intros b2 Hb2.
      eapply does_seq; [by apply build_system_does|]. intros _ _. by apply does_ret.
  - unfold layout. rewrite bool_decide_eq_false_2 by done. apply (does_dies _ _ (λ _, True)).
    destruct (Nat.eqb_spec (length argv) 4); [tauto|]. destruct (Nat.eqb_spec (length argv) 5); [tauto|]. apply does_die.
Qed.

(** C29: build writes the boot image and returns 0 exactly when its layout is
    well defined (boot sector of 512 bytes with the boot flag, setup of at most
    four sectors, system of at most 128 kB, proper headers, a root device of
    major number 0, 2 or 3) and the output takes it; the image is then the boot
    sector with the root device in bytes 508 and 509, setup padded with zeros
    to four sectors, and the system without its header.  In every other case it
    exits with 1. *)
Theorem build_main_correct argv s :
  match layout open stat_rdev argv with
  | Some img =>
      if (length img <=? room s)%nat
      then ∃ s', build_main open stat_rdev argv s = Ok 0 s' ∧ image s' = image s ++ img
      else ∃ s', build_main open stat_rdev argv s = Exit 1 s'
  | None => ∃ s', build_main open stat_rdev argv s = Exit 1 s'
  end.
Proof.
  pose proof (build_main_does argv) as Hmain.
  specialize (Hmain s). destruct (layout open stat_rdev argv) as [img|]; [|done]. destruct (_ <=? _)%nat; [|done].
  destruct Hmain as (r & s' & Hr & Him & _ & ->). eauto.
Qed.

(** The number of the root device: the default one, that of the boot floppy, or
    what stat() gives. *)
Definition root_number (argv : list string) : option Z :=
  match argv !! 4%nat with
  | None => Some 0x306
  | Some a => if String.eqb a "FLOPPY" then Some 0 else stat_rdev a
  end.
Lemma u8_s8 x : u8 (s8 x) = u8 x.
Proof. unfold u8, s8. rewrite Zminus_mod, Zmod_mod, <-Zminus_mod. f_equal. lia. Qed.
Lemma dev_bytes dev : 0 ≤ dev < 65536 → u8 (MINOR dev) + 256 * u8 (MAJOR dev) = dev.
Proof.
  intros Hd. unfold u8, MAJOR, MINOR. rewrite u32_small by lia. rewrite Z.shiftr_div_pow2 by lia.
  change 0xff with (Z.ones 8). rewrite Z.land_ones, Zmod_mod by lia. change (2^8) with 256.
  rewrite (Z.mod_small (dev / 256)) by (split; [apply Z.div_pos; lia|apply Z.div_lt_upper_bound; lia]).
  pose proof (Z.div_mod dev 256). lia.
Qed.
Lemma layout_root argv img :
  layout open stat_rdev argv = Some img →
  ∃ major minor, root_device stat_rdev argv = Some (major, minor) ∧ byte_at img 508 = u8 minor ∧ byte_at img 509 = u8 major.
Proof.
  unfold layout. case_bool_decide; [|done]. destruct (root_device stat_rdev argv) as [[major minor]|]; [|done]. simpl.
  destruct (argv !! 1%nat ≫= open) as [f1|]; [|done]. simpl. destruct (minix_text f1) as [boot|]; [|done]. simpl.
  destruct (argv !! 2%nat ≫= open) as [f2|]; [|done]. simpl. destruct (minix_text f2) as [setup|]; [|done]. simpl.
  destruct (argv !! 3%nat ≫= open) as [f3|]; [|done]. simpl. destruct (gcc_text f3) as [system|]; [|done]. simpl.
  case_bool_decide as Hok; [|done]. destruct Hok as (Hl & _). intros [= <-].
  exists major, minor. split; [done|].
  assert (H508 : length (take 508 boot) = 508%nat) by (rewrite length_take; lia).
  unfold byte_at. split; rewrite lookup_app_r by lia; by rewrite H508.
Qed.

(** The root device named on build's command line is the ROOT_DEV with
    which main() starts, when bytes 508 and 509 of the image that build wrote
    are those of the boot sector in memory at 0x90000. *)
Theorem image_root_dev argv n s m dev :
  build_main open stat_rdev argv (mk_build [] n []) = Ok 0 s →
  (∀ i, (508 ≤ i < 510)%nat → setup_byte m (0x90000 + Z.of_nat i) = byte_at (image s) i) →
  root_number argv = Some dev → 0 ≤ dev < 65536 → ORIG_ROOT_DEV m = dev.
Proof.
  intros Hrun Hm Hroot Hdev. pose proof (build_main_does argv (mk_build [] n [])) as H.
  destruct (layout open stat_rdev argv) as [img|] eqn:Hlay; [|destruct H as [s' H]; by rewrite Hrun in H].
  destruct (_ <=? _)%nat; [|destruct H as [s' H]; by rewrite Hrun in H].
  destruct H as (r & s' & H & Himg & _). rewrite Hrun in H. injection H as _ <-. simpl in Himg. subst img.
  destruct (layout_root _ _ Hlay) as (major & minor & Hr & H8 & H9).
  unfold ORIG_ROOT_DEV, setup_short.
  pose proof (Hm 508%nat ltac:(lia)) as Hm8. pose proof (Hm 509%nat ltac:(lia)) as Hm9.
  change (0x90000 + Z.of_nat 508) with 0x901FC in Hm8. change (0x90000 + Z.of_nat 509) with (0x901FC + 1) in Hm9.
  rewrite Hm8, Hm9, H8, H9. unfold root_device in Hr. unfold root_number in Hroot.
  destruct (argv !! 4%nat) as [a|].
  - destruct (String.eqb a "FLOPPY").
    + vm_compute in Hr. injection Hr as <- <-. by injection Hroot as <-.
    + rewrite Hroot in Hr. simpl in Hr. case_bool_decide; [|done]. injection Hr as <- <-.
      rewrite !u8_s8. by apply dev_bytes.
  - vm_compute in Hr. injection Hr as <- <-. by injection Hroot as <-.
Qed.
End Host.

(** ** A small system *)

Definition ex_header : list Z := put32 0x04100301 ++ put32 32 ++ replicate 24 0.
Definition ex_files (name : string) : option (list Z) :=
  if String.eqb name "bootsect" then Some (ex_header ++ replicate 510 7 ++ [0x55; 0xAA]) else
  if String.eqb name "setup" then Some (ex_header ++ [1; 2; 3]) else
  if String.eqb name "system" then Some (replicate 1024 0 ++ [4; 5]) else None.
Definition ex_stat (name : string) : option Z := if String.eqb name "/dev/hd1" then Some 0x301 else None.
Definition ex_argv : list string := ["build"; "bootsect"; "setup"; "system"; "/dev/hd1"].
Definition ex_img : list Z := default [] (layout ex_files ex_stat ex_argv).
Definition ex_mem : mm := mk_mm 0 [] {[ 0x901FC := 0xAA550301 ]}.
Definition ex_built : build_state :=
  match build_main ex_files ex_stat ex_argv (mk_build [] 3000 []) with Ok _ s => s | _ => mk_build [] 0 [] end.
Lemma image_root_dev_witness : ORIG_ROOT_DEV ex_mem = 0x301.
Proof.
  apply (image_root_dev ex_files ex_stat ex_argv 3000 ex_built ex_mem 0x301).
  - vm_compute. reflexivity.
  - intros i Hi. assert (i = 508%nat ∨ i = 509%nat) as [-> | ->] by lia; vm_compute; reflexivity.
  - reflexivity.
  - lia.
Defined.
Lemma build_main_correct_witness :
  ∃ s', build_main ex_files ex_stat ex_argv (mk_build [] 3000 []) = Ok 0 s' ∧ image s' = ex_img.
Proof.
  pose proof (build_main_correct ex_files ex_stat ex_argv (mk_build [] 3000 [])) as H.
  change (layout ex_files ex_stat ex_argv) with (Some ex_img) in H. exact H.
Defined.
