(* ===== verification/InitProc.v ===== *)
(** * init/main.c after the jump to user mode: task 0, init and its shells

    The program that main() and init() are, as interaction trees over the
    library calls they make; the calls answer as the kernel's calls may, over
    the descriptors of the process that makes them.  A process that forks goes
    on in two: the answer of [Fork] says in which one the tree is followed. *)

From Stdlib Require Import ZArith Ascii String List Lia.
From ITree Require Import ITree.
From Paco Require Import paco.
From S2P Require Import Vsprintf.
Import ITreeNotations ListNotations.
Local Open Scope Z_scope.
Local Open Scope itree_scope.

(** ** The library calls *)

(** wait() gives its value and what it stores; _exit() gives nothing. *)
Inductive lib : Type -> Type :=
  | Setup : lib Z
  | Open (filename : string) (flag mode : Z) : lib Z
  | Dup (fd : Z) : lib Z
  | Close (fd : Z) : lib Z
  | Write (fd : Z) (buf : list Z) : lib Z
  | Fork : lib Z
  | Execve (file : string) (argv envp : list string) : lib Z
  | Wait : lib (Z * option Z)
  | Setsid : lib Z
  | Sync : lib Z
  | Pause : lib Z
  | Exit (exit_code : Z) : lib Empty_set.

Definition O_RDONLY : Z := 0.
Definition O_RDWR : Z := 2.
Definition BLOCK_SIZE : Z := 1024.
Definition chars (s : string) : list Z := map Prelude.chr (list_ascii_of_string s).
Definition nl : list Z := [10; 13].

(** printf(): the text vsprintf() leaves in printbuf. *)
Definition text (fmt args : list Z) : list Z :=
  match vsprintf fmt (mk_vs [] args base.empty) with
  | Prelude.Ok _ s => v_out s
  | _ => []
  end.
Definition printf (fmt args : list Z) : itree lib Z :=
  ITree.trigger (Write 1 (text fmt args)) ;; Ret (Z.of_nat (length (text fmt args))).
Definition _exit (code : Z) : itree lib Empty_set := ITree.trigger (Exit code).

(** ** init() *)

Definition argv_rc : list string := ["/bin/sh"%string].
Definition envp_rc : list string := ["HOME=/"%string].
Definition argv : list string := ["-/bin/sh"%string].
Definition envp : list string := ["HOME=/usr/root"%string].
Definition tty0 : string := "/dev/tty0".
Definition rc : string := "/etc/rc".
Definition sh : string := "/bin/sh".

(** [while (pid != wait(&i));] *)
Definition wait_for (pid i : Z) : itree lib Z :=
  ITree.iter (fun i =>
    x <- ITree.trigger Wait ;;
    let i := match snd x with Some v => v | None => i end in
    if pid =? fst x then Ret (inr i) else Ret (inl i)) i.

(** The child that runs /etc/rc. *)
Definition rc_child : itree lib Empty_set :=
  ITree.trigger (Close 0) ;;
  r <- ITree.trigger (Open rc O_RDONLY 0) ;;
  if negb (r =? 0) then _exit 1 else
  ITree.trigger (Execve sh argv_rc envp_rc) ;;
  _exit 2.
(** The child that is the login shell. *)
Definition login_child : itree lib Empty_set :=
  ITree.trigger (Close 0) ;; ITree.trigger (Close 1) ;; ITree.trigger (Close 2) ;;
  ITree.trigger Setsid ;;
  ITree.trigger (Open tty0 O_RDWR 0) ;;
  ITree.trigger (Dup 0) ;;
  ITree.trigger (Dup 0) ;;
  r <- ITree.trigger (Execve sh argv envp) ;;
  _exit r.

(** What follows fork() in the loop: [inl] is the next round. *)
Definition shell_round (pid i : Z) : itree lib (Z + Empty_set) :=
  if pid <? 0 then
    printf (chars "Fork failed in init" ++ [13; 10]) [] ;;
    Ret (inl i)
  else if pid =? 0 then v <- login_child ;; Ret (inr v)
  else
    i <- wait_for pid i ;;
    printf (nl ++ chars "child %d died with code %04x" ++ nl) [pid; i] ;;
    ITree.trigger Sync ;;
    Ret (inl i).
(** The loop that never ends; the _exit(0) behind it is not reached. *)
Definition shells (i : Z) : itree lib Empty_set :=
  ITree.iter (fun i => pid <- ITree.trigger Fork ;; shell_round pid i) i.

(** The shell for /etc/rc, then the others. *)
Definition run_rc (i : Z) : itree lib Empty_set :=
  pid <- ITree.trigger Fork ;;
  if pid =? 0 then rc_child else
  i <- (if 0 <? pid then wait_for pid i else Ret i) ;;
  shells i.

Section Init.
(** The variables main() has set, and what the stack holds where [i] is. *)
Context (nr_buffers memory_end main_memory_start i0 : Z).

Definition init : itree lib Empty_set :=
  ITree.trigger Setup ;;
  ITree.trigger (Open tty0 O_RDWR 0) ;;
  ITree.trigger (Dup 0) ;;
  ITree.trigger (Dup 0) ;;
  printf (chars "%d buffers = %d bytes buffer space" ++ nl) [nr_buffers; nr_buffers * BLOCK_SIZE] ;;
  printf (chars "Free mem: %d bytes" ++ nl) [memory_end - main_memory_start] ;;
  run_rc i0.

(** [for(;;) pause();] *)
Definition pauses : itree lib Empty_set := ITree.iter (fun _ => ITree.trigger Pause ;; Ret (inl tt)) tt.
(** main() from move_to_user_mode() on. *)
Definition in_user_mode : itree lib Empty_set :=
  pid <- ITree.trigger Fork ;;
  if pid =? 0 then init else pauses.
End Init.

(** ** What the calls may answer

    open() and dup() take the lowest free descriptor, fork() and setsid() do
    what the system calls do to the process; the rest is arbitrary. *)

Inductive role := Task0 | First | Shell.
(** A process: its descriptors with what they are open on, whether it leads a
    session, and the child it has forked and not yet waited for. *)
Record process := mk_process {
  p_role : role; p_fds : list (option string); p_leader : bool; p_child : option Z
}.

(** The lowest free descriptor. *)
Fixpoint fd_alloc (f : string) (l : list (option string)) : Z * list (option string) :=
  match l with
  | [] => (0, [Some f])
  | None :: l => (0, Some f :: l)
  | Some g :: l => let '(fd, l) := fd_alloc f l in (Z.succ fd, Some g :: l)
  end.
Fixpoint fd_free (fd : nat) (l : list (option string)) : list (option string) :=
  match fd, l with
  | O, _ :: l => None :: l
  | S fd, x :: l => x :: fd_free fd l
  | _, [] => []
  end.
Definition fd_at (w : process) (fd : Z) : option string :=
  if fd <? 0 then None else match nth_error (p_fds w) (Z.to_nat fd) with Some x => x | None => None end.
Definition set_fds (l : list (option string)) (w : process) : process := mk_process (p_role w) l (p_leader w) (p_child w).
Definition set_child (c : option Z) (w : process) : process := mk_process (p_role w) (p_fds w) (p_leader w) c.
Definition lead (w : process) : process := mk_process (p_role w) (p_fds w) true (p_child w).
(** The child: task 0 forks init, init forks the shells; it shares the
    descriptors and leads nothing. *)
Definition forked (w : process) : process :=
  mk_process (match p_role w with Task0 => First | _ => Shell end) (p_fds w) false None.

Definition NR_OPEN : Z := 20.
(** [f] is opened at the lowest free descriptor, if there is one. *)
Definition allocated (f : string) (w : process) (fd : Z) (w' : process) : Prop :=
  let '(n, l) := fd_alloc f (p_fds w) in
  if n <? NR_OPEN then fd = n /\ w' = set_fds l w else fd = -1 /\ w' = w.

(** The value of a call in process [w], and the process that goes on. *)
Definition answers (w : process) {T} (e : lib T) : T -> process -> Prop :=
  match e with
  | Open f _ _ => fun fd w' => fd = -1 /\ w' = w \/ allocated f w fd w'
  | Dup fd => fun fd' w' =>
      match fd_at w fd with
      | Some f => allocated f w fd' w'
      | None => fd' = -1 /\ w' = w
      end
  | Close fd => fun r w' =>
      match fd_at w fd with
      | Some _ => r = 0 /\ w' = set_fds (fd_free (Z.to_nat fd) (p_fds w)) w
      | None => r = -1 /\ w' = w
      end
  | Fork => fun pid w' =>
      pid = -1 /\ w' = w \/ 0 < pid /\ w' = set_child (Some pid) w \/ pid = 0 /\ w' = forked w
  | Execve _ _ _ => fun r w' => r = -1 /\ w' = w        (* else it does not come back *)
  | Wait => fun r w' =>
      w' = match p_child w with
           | Some c => if c =? fst r then set_child None w else w
           | None => w
           end
  | Setsid => fun r w' => p_leader w = true /\ r = -1 /\ w' = w \/ 0 < r /\ w' = lead w
  | Exit _ => fun _ _ => False
  | Setup | Write _ _ | Sync | Pause => fun _ w' => w' = w
  end.

(** ** What init promises *)

Definition all_tty : list (option string) := [Some tty0; Some tty0; Some tty0].
(** Nothing is open. *)
Definition no_fds (l : list (option string)) : Prop := Forall (fun x => x = None) l.

Definition allowed (w : process) {T} (e : lib T) : Prop :=
  match e with
  | Setup => p_role w = First /\ p_fds w = []
  | Pause => p_role w = Task0
  | Fork => p_role w <> Shell /\ p_child w = None
  | Wait => p_role w = First /\ p_child w <> None
  | Sync => p_role w = First /\ p_child w = None
  | Setsid => p_role w = Shell /\ p_leader w = false
  | Exit _ => p_role w = Shell
  | Execve file args env =>
      p_role w = Shell /\ file = sh /\
      (args = argv_rc /\ env = envp_rc /\
         (p_fds w = [Some rc; Some tty0; Some tty0] \/ p_fds w = [Some rc]) \/
       args = argv /\ env = envp /\ p_leader w = true /\ (p_fds w = all_tty \/ no_fds (p_fds w)))
  | Open _ _ _ | Dup _ | Close _ | Write _ _ => p_role w <> Task0
  end.

(** Whatever the calls answer, the next thing the process does, after finitely
    many silent steps, is a call that is allowed, and so on for ever: it never
    returns and never loops without a call. *)
Section Promise.
Context {R : Type}.
Inductive keeps_promise_ (r : process -> itree lib R -> Prop) (w : process) : itree' lib R -> Prop :=
  | silent t : keeps_promise_ r w (observe t) -> keeps_promise_ r w (TauF t)
  | calls T (e : lib T) k :
      allowed w e -> (forall a w', answers w e a w' -> r w' (k a)) -> keeps_promise_ r w (VisF e k).
Definition keeps_promise_gen (r : process -> itree lib R -> Prop) (w : process) (t : itree lib R) : Prop :=
  keeps_promise_ r w (observe t).
Lemma keeps_promise_mon : monotone2 keeps_promise_gen.
Proof. intros w t r r' H Hr. unfold keeps_promise_gen in *. induction H; constructor; auto. Qed.
Definition keeps_promise : process -> itree lib R -> Prop := paco2 keeps_promise_gen bot2.
End Promise.
#[local] Hint Resolve keeps_promise_mon : paco.

(** Task 0 after the boot: nothing is open. *)
Definition task0 : process := mk_process Task0 [] false None.

(** ** Proofs *)

(** One call: it is allowed, and whatever it answers. *)
#[local] Opaque text chars.
Ltac answer H := cbv -[tty0 rc sh argv envp argv_rc envp_rc Z.lt Z.eqb] in H.
Ltac call a w H := pfold; red; cbn; apply calls; [cbn|intros a w H; answer H].

(** init between two shells. *)
Definition idle (w : process) : Prop :=
  p_role w = First /\ p_child w = None /\ (p_fds w = all_tty \/ p_fds w = []).

(** Only what a tree does next counts. *)
Lemma same_next {R} r w (t t' : itree lib R) : observe t = observe t' -> paco2 keeps_promise_gen r w t' -> paco2 keeps_promise_gen r w t.
Proof. intros He Ht. punfold Ht. pfold. red in Ht |- *. rewrite He. exact Ht. Qed.

(** Where a tree is followed by others. *)
Record context {A B} (C : itree lib A -> itree lib B) : Prop := {
  cx_ret t x : observe t = RetF x -> observe (C t) = observe (C (Ret x));
  cx_tau t t' : observe t = TauF t' -> observe (C t) = TauF (C t');
  cx_vis t T (e : lib T) k : observe t = VisF e k -> observe (C t) = VisF e (fun a => C (k a))
}.
Lemma next_bind {A B} (t : itree lib A) (K : A -> itree lib B) :
  observe (ITree.bind t K) =
    match observe t with
    | RetF x => observe (K x)
    | TauF t => TauF (ITree.bind t K)
    | VisF e k => VisF e (fun a => ITree.bind (k a) K)
    end.
Proof.
  change (observe (ITree.bind t K)) with (observe match observe t with
    | RetF x => K x
    | TauF t => Tau (ITree.bind t K)
    | VisF e k => Vis e (fun a => ITree.bind (k a) K)
    end). destruct (observe t); reflexivity.
Qed.
Lemma context_bind {A B} (K : A -> itree lib B) : context (fun t => ITree.bind t K).
Proof. split; intros; rewrite !next_bind, H; reflexivity. Qed.
Lemma context_bind2 {A B D} (K : A -> itree lib B) (K' : B -> itree lib D) :
  context (fun t => ITree.bind (ITree.bind t K) K').
Proof. split; intros; rewrite !next_bind, H; reflexivity. Qed.

(** What never returns keeps its promise wherever it is called. *)
Lemma never_returns {A B} (C : itree lib A -> itree lib B) w t :
  context C -> keeps_promise w t -> keeps_promise w (C t).
Proof.
  intros HC. revert w t. pcofix CIH. intros w t Ht. punfold Ht. pfold. red in Ht |- *.
  remember (observe t) as o eqn:Ho. revert t Ho. induction Ht as [t' Ht IH|T e k Hal Hk]; intros t Ho.
  - rewrite (cx_tau _ HC _ _ (eq_sym Ho)). constructor. apply IH. reflexivity.
  - rewrite (cx_vis _ HC _ _ _ _ (eq_sym Ho)). constructor; [assumption|]. intros a w' Ha.
    right. apply CIH. destruct (Hk a w' Ha) as [H|[]]. exact H.
Qed.

(** One round of the wait for [pid]. *)
Lemma wait_round pid i : exists k, observe (wait_for pid i) = VisF Wait k /\
  forall x, let i' := match snd x with Some v => v | None => i end in
    observe (k x) = if pid =? fst x then RetF i' else TauF (wait_for pid i').
Proof.
  eexists. split; [unfold wait_for; cbn; reflexivity|]. intros x. cbn.
  match goal with |- context [observe (ITree.subst ?f (ITree.subst ?g (Ret x)))] =>
    change (observe (ITree.subst f (ITree.subst g (Ret x)))) with (observe (ITree.bind (g x) f)) end.
  cbn beta. destruct (pid =? fst x); reflexivity.
Qed.

(** [t] is [u], perhaps after a silent step. *)
Definition soon {B} (u t : itree lib B) : Prop := t = u \/ observe t = TauF u.
Lemma soon_keeps {B} (r : process -> itree lib B -> Prop) w u t :
  soon u t -> keeps_promise_ r w (observe u) -> keeps_promise_ r w (observe t).
Proof. intros [-> | ->]; [auto|apply silent]. Qed.

Lemma wait_ok {B} (C : itree lib Z -> itree lib B) r w pid i :
  context C -> p_role w = First -> p_child w = Some pid ->
  (forall i, paco2 keeps_promise_gen r (set_child None w) (C (Ret i))) ->
  paco2 keeps_promise_gen r w (C (wait_for pid i)).
Proof.
  intros HC Hr Hc HK. enough (H : forall i t, soon (C (wait_for pid i)) t -> paco2 keeps_promise_gen r w t)
    by (eapply H; left; reflexivity).
  clear i. pcofix CIH. intros i t Ht. pfold. red. apply (soon_keeps _ _ _ _ Ht).
  destruct (wait_round pid i) as (k & Ho & Hk). rewrite (cx_vis _ HC _ _ _ _ Ho). apply calls.
  { split; [assumption|congruence]. }
  intros x w' Hw. cbn in Hw. rewrite Hc in Hw. specialize (Hk x). cbn in Hk.
  destruct (pid =? fst x); subst w'.
  - left. apply (same_next _ _ _ (C (Ret match snd x with Some v => v | None => i end))); [apply (cx_ret _ HC _ _ Hk)|].
    eapply paco2_mon; [apply HK|auto].
  - right. eapply CIH. right. apply (cx_tau _ HC _ _ Hk).
Qed.

Lemma exit_ok r fds l c code : paco2 keeps_promise_gen r (mk_process Shell fds l c) (_exit code).
Proof. call a w H; [reflexivity|contradiction]. Qed.

Lemma rc_child_ok r fds l c :
  fds = all_tty \/ fds = [] -> paco2 keeps_promise_gen r (mk_process Shell fds l c) rc_child.
Proof.
  intros Hf. call a w Hw; [discriminate|]. left.
  assert (E : w = mk_process Shell match fds with [] => [] | _ => [None; Some tty0; Some tty0] end l c).
  { destruct Hf as [-> | ->]; destruct Hw as [_ ->]; reflexivity. }
  clear Hw. subst w. call fd w Hw; [discriminate|]. left.
  destruct Hf as [-> | ->]; answer Hw; (destruct Hw as [[-> ->]|[-> ->]]; cbn;
    [apply (same_next _ _ _ (_exit 1)); [reflexivity|apply exit_ok]|]);
    (call res w2 H2; [split; [reflexivity|split; [reflexivity|left; tauto]]|]);
    destruct H2 as [-> ->]; left; (apply (same_next _ _ _ (_exit 2)); [reflexivity|apply exit_ok]).
Qed.

(** A call with one answer. *)
Ltac goes_on := let a := fresh "a" in let w := fresh "w" in let H := fresh "H" in
  call a w H; [first [discriminate | reflexivity | split; first [reflexivity | discriminate]]|];
  repeat match type of H with _ /\ _ => let H' := fresh "H" in destruct H as [H' H] end; subst; left; cbn.

Lemma login_child_ok r fds c :
  fds = all_tty \/ fds = [] -> paco2 keeps_promise_gen r (mk_process Shell fds false c) login_child.
Proof.
  intros [-> | ->]; goes_on; goes_on; goes_on;
    (call a w H; [split; reflexivity|]; destruct H as [[? _]|[_ ->]]; [discriminate|]; left; cbn);
    (call a1 w1 H1; [discriminate|]; destruct H1 as [[-> ->]|[-> ->]]; left; cbn; goes_on; goes_on).
  all: call res w2 H2; [split; [reflexivity|split; [reflexivity|right; repeat split; first [left; reflexivity|right; repeat constructor]]]|].
  all: destruct H2 as [-> ->]; left; apply (same_next _ _ _ (_exit (-1))); [reflexivity|apply exit_ok].
Qed.

Definition next_round (lr : Z + Empty_set) : itree lib Empty_set :=
  match lr with inl i => Tau (shells i) | inr v => Ret v end.
Lemma shells_round i : exists k, observe (shells i) = VisF Fork k /\
  forall pid, observe (k pid) = observe (ITree.bind (shell_round pid i) next_round).
Proof. eexists. split; [unfold shells; cbn; reflexivity|]. intros pid. reflexivity. Qed.

Lemma shells_ok : forall i w, idle w -> keeps_promise w (shells i).
Proof.
  enough (H : forall i t w, soon (shells i) t -> idle w -> keeps_promise w t)
    by (intros i w Hw; exact (H i _ w (or_introl eq_refl) Hw)).
  pcofix CIH. intros i t [ro fds l c] Ht Hidle. pose proof Hidle as (Hr & Hc & Hf). cbn in Hr, Hc, Hf. subst ro c. pfold. red.
  apply (soon_keeps _ _ _ _ Ht). destruct (shells_round i) as (k & Ho & Hk). rewrite Ho.
  apply calls; [split; [discriminate|reflexivity]|].
  intros pid w Hw. answer Hw. left. apply (same_next _ _ _ _ (Hk pid)). unfold shell_round.
  destruct Hw as [[-> ->]|[[Hpos ->]|[-> ->]]].
  - call n w Hw; [discriminate|]. subst w. right. apply (CIH i); [right; reflexivity|exact Hidle].
  - rewrite (proj2 (Z.ltb_ge pid 0)), (proj2 (Z.eqb_neq pid 0)) by lia.
    apply (wait_ok (fun t => ITree.bind (ITree.bind t _) next_round)); [apply context_bind2|reflexivity|reflexivity|].
    intros i'. call n w Hw; [discriminate|]. subst w. left.
    call n' w' Hw'; [split; reflexivity|]. subst w'. right. apply (CIH i'); [right; reflexivity|exact Hidle].
  - cbn [Z.ltb Z.eqb Z.compare]. eapply paco2_mon_bot; [|intros ? ? ? H; exact H].
    apply (never_returns (fun t => ITree.bind (ITree.bind t _) _)); [apply context_bind2|].
    apply login_child_ok. exact Hf.
Qed.

Lemma run_rc_ok i fds l :
  fds = all_tty \/ fds = [] -> keeps_promise (mk_process First fds l None) (run_rc i).
Proof.
  intros Hf. call pid w Hw; [split; [discriminate|reflexivity]|]. left.
  destruct Hw as [[-> ->]|[[Hpos ->]|[-> ->]]].
  - apply (same_next _ _ _ (shells i)); [reflexivity|]. apply shells_ok. split; [|split]; [reflexivity..|exact Hf].
  - apply (same_next _ _ _ (ITree.bind (wait_for pid i) shells)).
    { transitivity (observe (if pid =? 0 then rc_child else
        ITree.bind (if 0 <? pid then wait_for pid i else Ret i) shells)); [reflexivity|].
      rewrite (proj2 (Z.eqb_neq pid 0)), (proj2 (Z.ltb_lt 0 pid)) by lia. reflexivity. }
    apply (wait_ok (fun t => ITree.bind t shells)); [apply context_bind|reflexivity|reflexivity|].
    intros i'. apply (same_next _ _ _ (shells i')); [reflexivity|].
    apply shells_ok. split; [|split]; [reflexivity..|exact Hf].
  - apply (same_next _ _ _ rc_child); [reflexivity|]. apply rc_child_ok. exact Hf.
Qed.

Lemma init_ok nr_buffers memory_end main_memory_start i0 :
  keeps_promise (mk_process First [] false None) (init nr_buffers memory_end main_memory_start i0).
Proof.
  goes_on. call fd w Hw; [discriminate|]. left.
  destruct Hw as [[-> ->]|[-> ->]]; cbn; goes_on; goes_on; goes_on; goes_on.
  all: apply (same_next _ _ _ (run_rc i0)); [reflexivity|apply run_rc_ok; tauto].
Qed.

Lemma pauses_ok w : p_role w = Task0 -> keeps_promise w pauses.
Proof.
  intros Hr. enough (H : forall t, soon pauses t -> keeps_promise w t) by (apply H; left; reflexivity).
  pcofix CIH. intros t Ht. pfold. red. apply (soon_keeps _ _ _ _ Ht). unfold pauses. cbn.
  apply calls; [exact Hr|]. intros a w' ->. right. apply CIH. right. reflexivity.
Qed.

(** C24: whatever the library calls answer, main() in user mode goes on making
    calls for ever, and only calls it may make.  Task 0 forks only while it has
    no child, and pauses.  init never returns and never exits; it waits only
    while a shell it forked is not reaped, and it forks a shell and writes the
    buffers back only when none is: there are never two.  A shell is /bin/sh.
    The first one reads /etc/rc and has the terminal as its output, or no
    output if the terminal could not be opened; every later one leads a session
    of its own and has the terminal at descriptors 0, 1 and 2 and nothing else
    open, or nothing at all. *)
Theorem in_user_mode_correct nr_buffers memory_end main_memory_start i0 :
  keeps_promise task0 (in_user_mode nr_buffers memory_end main_memory_start i0).
Proof.
  call pid w Hw; [split; [discriminate|reflexivity]|].
  left. apply (same_next _ _ _ (if pid =? 0 then init nr_buffers memory_end main_memory_start i0 else pauses)); [reflexivity|].
  destruct Hw as [[-> ->]|[[Hpos ->]|[-> ->]]]; [apply pauses_ok; reflexivity| |apply init_ok].
  rewrite (proj2 (Z.eqb_neq pid 0)) by lia. apply pauses_ok. reflexivity.
Qed.

(** ** What init prints and does *)

Example ex_buffers : text (chars "%d buffers = %d bytes buffer space" ++ nl) [3000; 3000 * BLOCK_SIZE] =
  chars "3000 buffers = 3072000 bytes buffer space" ++ nl.
Proof. vm_compute. reflexivity. Qed.
Example ex_died : text (nl ++ chars "child %d died with code %04x" ++ nl) [7; 256] =
  nl ++ chars "child 7 died with code 0100" ++ nl.
Proof. vm_compute. reflexivity. Qed.

(** The calls of a tree when they answer [l]. *)
Inductive a_call : Type := the (T : Type) (e : lib T).
#[global] Arguments the {T}.
Definition answer_of {T} (e : lib T) (z : Z) : option T :=
  match e with
  | Exit _ => None
  | Wait => Some (z, Some 0)
  | _ => Some z
  end.
Fixpoint follow (fuel : nat) (l : list Z) (t : itree lib Empty_set) : list a_call :=
  match fuel with
  | O => []
  | S fuel =>
      match observe t with
      | RetF v => match v with end
      | TauF t => follow fuel l t
      | VisF e k =>
          the e ::
          match l with
          | [] => []
          | z :: l => match answer_of e z with Some a => follow fuel l (k a) | None => [] end
          end
      end
  end.
(** init, and its first shell when there is no /bin/sh. *)
Example ex_first_shell :
  follow 100 [0; 0; 0; 1; 2; 0; 0; 0; 0; 0; -1] (in_user_mode 3000 0x1000000 0x400000 0) =
  [the Fork; the Setup; the (Open tty0 O_RDWR 0); the (Dup 0); the (Dup 0);
   the (Write 1 (chars "3000 buffers = 3072000 bytes buffer space" ++ nl));
   the (Write 1 (chars "Free mem: 12582912 bytes" ++ nl));
   the Fork; the (Close 0); the (Open rc O_RDONLY 0); the (Execve sh argv_rc envp_rc); the (Exit 2)].
Proof. vm_compute. reflexivity. Qed.
(** init when the shell with pid 5 has been reaped behind two other children. *)
Example ex_next_shell :
  follow 100 [5; 9; 8; 5; 0; 0; 6] (shells 0) =
  [the Fork; the Wait; the Wait; the Wait;
   the (Write 1 (nl ++ chars "child 5 died with code 0000" ++ nl)); the Sync; the Fork; the Wait].
Proof. vm_compute. reflexivity. Qed.
