(* ===== verification/Demo.v ===== *)
(** * A concrete kernel for the witnesses

    Task 0, init (pid 1, with a zombie child of pid 4), and a current task of
    pid 5 with real user 100 and effective user 200 that has one open file.
    Nothing else runs while a task waits. *)

From stdpp Require Import base option list gmap strings.
From Stdlib Require Import ZArith Lia.
From S2P Require Import Prelude Types Memory Sched Screen Kernel KernelFacts Inode Tty.
Local Open Scope Z_scope.

Definition demo_env : Env := {|
  others := λ _ s, s; start_io := λ _ s, s; floppy_change := λ _ s, (false, s);
  tty_out := λ _ _ s, s; inb := λ _ _, 0; outb := λ _ _ s, s; patience := 4; depth := 2
|}.

Definition demo_ldt : list desc_struct :=
  [mk_desc 0 0; set_base (mk_desc 0x9f 0xc0fa00) 0x8000000; set_base (mk_desc 0x9f 0xc0f200) 0x8000000].
Definition demo_task0 : task_struct := INIT_TASK 0x1000 0.
Definition demo_init : task_struct :=
  demo_task0 <| pid := 1 |> <| father := 0 |> <| pgrp := 1 |> <| session := 1 |> <| leader := 1 |>.
Definition demo_child : task_struct :=
  demo_init <| pid := 4 |> <| father := 5 |> <| leader := 0 |> <| state := TASK_ZOMBIE |>.
Definition demo_task : task_struct :=
  demo_init <| pid := 5 |> <| father := 1 |> <| pgrp := 5 |> <| leader := 0 |>
    <| uid := 100 |> <| euid := 200 |> <| gid := 10 |> <| egid := 20 |> <| sgid := 30 |>
    <| filp := <[3%nat := Some 0%nat]> (replicate NR_OPEN None) |> <| ldt := demo_ldt |>.

Definition demo_sched : sched_state := {|
  init_task := 0x1000;
  tasks := {[ 0x1000 := demo_task0; 0xFFF000 := demo_init; 0xFFE000 := demo_task; 0xFFD000 := demo_child ]};
  task := 0x1000 :: 0xFFF000 :: 0xFFE000 :: 0xFFD000 :: replicate (NR_TASKS - 4) 0;
  current := 0xFFE000; last_task_used_math := 0; jiffies := 10; startup_time := 0;
  wait_motor := [0;0;0;0]; mon_timer := [0;0;0;0]; moff_timer := [0;0;0;0];
  current_DOR := 0x0C; selected := 0; dor_writes := [];
  timer_list := replicate TIME_REQUESTS (mk_timer 0 0 None); next_timer := None;
  beepcount := 0; last_pid := 5; gdt := ∅;
  idt := replicate 256 (mk_desc 0 0); fpu := mk_i387 0 0 0 0 0 0 0 (replicate 20 0); cr0_ts := true
|}.
Definition demo_mm : mm := mk_mm (LOW_MEM + PAGING_MEMORY) (replicate (Z.to_nat PAGING_PAGES) 0) ∅.
Definition demo_file : file := mk_file 0x8000 2 1 (Some 0%nat) 40.
Definition demo_inode : m_inode :=
  zero_inode <| i_mode := 0x81a4 |> <| i_uid := 100 |> <| i_gid := 10 |> <| i_size := 5000 |>
    <| i_nlinks := 1 |> <| i_dev := 0x301 |> <| i_num := 9 |> <| i_count := 1 |>.
Definition demo : kernel := {|
  k_mm := demo_mm; k_sched := demo_sched;
  k_buf := mk_bufs 0x20000 [] (replicate (Z.to_nat NR_HASH) None) None 0;
  k_blk := mk_blk (replicate NR_REQUEST (mk_request (-1) 0 0 0 0 0 0 None None)) 0
             (replicate (Z.to_nat NR_BLK_DEV) (mk_blk_dev None None)) 0 [] 0 0;
  k_fs := mk_fs (demo_inode :: replicate (NR_INODE - 1) zero_inode) 0
            (demo_file :: replicate (NR_FILE - 1) (mk_file 0 0 0 None 0)) [] 0x301;
  k_tty := mk_ttys init_tty_table 0; k_con := boot_console;
  k_user := ∅; switches := 0
|}.

Lemma demo_cur : cur_is demo demo_task.
Proof. reflexivity. Qed.
