(* ===== verification/ExecProofs.v ===== *)
(** * The arguments of execve()

    The strings go from the old address space to the argument pages
    (copy_strings), and from there to the new program's stack
    (create_tables). *)

From stdpp Require Import base option list gmap.
From Stdlib Require Import ZArith Lia.
From S2P Require Import Exec Prelude Types Memory MemoryFacts Sched Kernel KernelFacts FileDev UserFacts PipeProofs Demo.
Local Open Scope Z_scope.

(** ** Longs and strings of user memory *)

Definition user_byte (m : gmap Z Z) (a : Z) : Z := u8 (default 0 (m !! a)).
Definition user_long (m : gmap Z Z) (a : Z) : Z :=
  user_byte m a + 256 * user_byte m (a + 1) + 65536 * (user_byte m (a + 2) + 256 * user_byte m (a + 2 + 1)).
Lemma get_fs_long_run a s : get_fs_long a s = Ok (user_long (k_user s) a) s.
Proof. unfold get_fs_long, get_fs_word, get_fs_byte, get. mred. reflexivity. Qed.
Definition long_bytes (v : Z) : list Z := [v; Z.shiftr v 8; Z.shiftr v 16; Z.shiftr (Z.shiftr v 16) 8].
Lemma put_fs_long_run v a s : put_fs_long v a s = Ok tt (set_user (user_write (long_bytes v) a (k_user s)) s).
Proof.
  unfold put_fs_long, put_fs_word, put_fs_byte, modify. mred. replace (a + 2) with (a + 1 + 1) by lia. reflexivity.
Qed.
Lemma user_byte_write l a m (k : nat) x :
  l !! k = Some x → user_byte (user_write l a m) (a + Z.of_nat k) = u8 x.
Proof.
  intros Hk. pose proof (lookup_lt_Some _ _ _ Hk). unfold user_byte. rewrite lookup_user_write, decide_True by lia.
  replace (Z.to_nat (a + Z.of_nat k - a)) with k by lia. rewrite Hk. simpl. apply u8_small, u8_bound.
Qed.
Lemma user_long_write v a m : 0 ≤ v < 2^32 → user_long (user_write (long_bytes v) a m) a = v.
Proof.
  intros Hv. unfold user_long.
  pose proof (user_byte_write (long_bytes v) a m 0 _ eq_refl) as B0. rewrite Z.add_0_r in B0.
  pose proof (user_byte_write (long_bytes v) a m 1 _ eq_refl) as B1. pose proof (user_byte_write (long_bytes v) a m 2 _ eq_refl) as B2.
  pose proof (user_byte_write (long_bytes v) a m 3 _ eq_refl) as B3.
  replace (a + 2 + 1) with (a + Z.of_nat 3) by lia. change (Z.of_nat 1) with 1 in B1. change (Z.of_nat 2) with 2 in B2.
  rewrite B0, B1, B2, B3. unfold u8. rewrite !Z.shiftr_div_pow2 by lia. change (2^8) with 256. change (2^16) with 65536.
  pose proof (Z.div_mod v 256 ltac:(lia)) as E1. pose proof (Z.div_mod (v / 256) 256 ltac:(lia)) as E2.
  pose proof (Z.div_mod (v / 65536) 256 ltac:(lia)) as E3. rewrite !Z.div_div in * by lia.
  change (256 * 256) with 65536 in *. change (65536 * 256) with 16777216 in *.
  rewrite (Z.mod_small (v / 16777216)); [lia|]. split; [apply Z.div_pos; lia|apply Z.div_lt_upper_bound; lia].
Qed.
Lemma user_long_ext m m' a : (∀ q, a ≤ q < a + 4 → m !! q = m' !! q) → user_long m a = user_long m' a.
Proof. intros H. unfold user_long, user_byte. by rewrite !H by lia. Qed.

Definition holds (m : gmap Z Z) (a : Z) (l : list Z) : Prop :=
  ∀ k x, l !! k = Some x → m !! (a + Z.of_nat k) = Some x ∧ 0 ≤ x < 256.
(** A string with its final 0. *)
Definition string_at (m : gmap Z Z) (a : Z) (str : list Z) : Prop :=
  holds m a (str ++ [0]) ∧ Forall (λ x, x ≠ 0) str.
(** An array of pointers to strings, ended by NULL. *)
Definition vector (m : gmap Z Z) (v : Z) (strs : list (list Z)) : Prop :=
  v ≠ 0 ∧
  (∀ (k : nat) str, strs !! k = Some str →
     user_long m (v + 4 * Z.of_nat k) ≠ 0 ∧ string_at m (user_long m (v + 4 * Z.of_nat k)) str) ∧
  user_long m (v + 4 * Z.of_nat (length strs)) = 0.
(** What a program passes to execve(): such an array, or NULL for none. *)
Definition passed (m : gmap Z Z) (v : Z) (strs : list (list Z)) : Prop :=
  v = 0 ∧ strs = [] ∨ vector m v strs.
(** The strings one behind the other. *)
Definition packed (strs : list (list Z)) : list Z := concat ((λ str, str ++ [0]) <$> strs).
Lemma packed_cons str strs : packed (str :: strs) = (str ++ [0]) ++ packed strs.
Proof. done. Qed.
Lemma packed_app l k : packed (l ++ k) = packed l ++ packed k.
Proof. unfold packed. by rewrite fmap_app, concat_app. Qed.

(** ** The argument pages *)

(** The argument pages hold [l] from position [p] on. *)
Record stack (m : mm) (page : list Z) (p : Z) (l : list Z) : Prop := {
  st_wf : mm_wf m;
  st_len : length page = 32%nat;
  st_pages j pg : page !! j = Some pg → pg ≠ 0 → ∃ i, 0 ≤ i < PAGING_PAGES ∧ pg = page_addr i ∧ count m i ≠ 0;
  st_inj i j pg : page !! i = Some pg → page !! j = Some pg → pg ≠ 0 → i = j;
  st_bytes k x : l !! k = Some x → ∃ pg, page !! Z.to_nat ((p + Z.of_nat k) / 4096) = Some pg ∧ pg ≠ 0 ∧
    byte_of m (pg + (p + Z.of_nat k) mod 4096) = x;
  st_range : 0 ≤ p ∧ p + Z.of_nat (length l) < 131072
}.
(** [offset] is 0 or the place of [p] in a page that is there. *)
Definition offset_ok (page : list Z) (p offset : Z) : Prop :=
  offset = 0 ∨ offset = p mod 4096 ∧ ∃ pg, page !! Z.to_nat (p / 4096) = Some pg ∧ pg ≠ 0.

Definition full (m : mm) : Prop := ∀ i, 0 ≤ i < PAGING_PAGES → count m i ≠ 0.

Lemma page_addr_apart i j a b : 0 ≤ a < 4096 → 0 ≤ b < 4096 → page_addr i + a = page_addr j + b → i = j ∧ a = b.
Proof. unfold page_addr. lia. Qed.

Lemma in_other_page i i' r : i' ≠ i → 0 ≤ r < 4096 →
  in_page (page_addr i) (page_addr i' + r - (page_addr i' + r) mod 4) = false.
Proof.
  intros Hne Hr. assert (Hm : (page_addr i' + r) mod 4 = r mod 4).
  { unfold page_addr, LOW_MEM. replace (1048576 + 4096 * i' + r) with (r + (262144 + 1024 * i') * 4) by lia.
    apply Z.mod_add. lia. }
  rewrite Hm. pose proof (Z.mod_pos_bound r 4 ltac:(lia)). pose proof (Z.mod_le r 4 ltac:(lia) ltac:(lia)).
  unfold in_page, page_addr, LOW_MEM. lia.
Qed.

(** A fresh page in an empty slot. *)
Lemma stack_new_page m page p l j :
  stack m page p l → (j < 32)%nat → page !! j = Some 0 →
  ∃ pag m', get_free_page m = Ok pag m' ∧ (pag = 0 → full m') ∧ (pag ≠ 0 → stack m' (<[j := pag]> page) p l).
Proof.
  intros [Hwf Hlen Hpg Hinj Hby Hr] Hj Hj0. destruct (get_free_page_run m Hwf) as (pag & m' & Hrun & Hgot).
  exists pag, m'. split; [done|]. destruct Hgot as [Hfull|i m' Hi Hi0 _ HH Hm Hw]; [by split|]. split; [unfold page_addr, LOW_MEM; lia|].
  intros _. assert (Hsame : same_maps (m <| mem_map := zinsert i 1 (mem_map m) |>) m') by done.
  assert (Hc : ∀ a, count m' a = if decide (i = a) then 1 else count m a).
  { intros a. rewrite (count_same _ _ _ Hsame). by apply count_insert. }
  assert (Hold : ∀ j' pg, page !! j' = Some pg → pg ≠ 0 → pg ≠ page_addr i).
  { intros j' pg Hj' Hpg0 ->. destruct (Hpg _ _ Hj' Hpg0) as (i' & Hi' & Heq & Hci). unfold page_addr in Heq.
    assert (i = i') as <- by lia. done. }
  split; [exact (mm_wf_same _ _ (mm_wf_insert m i 1 Hwf ltac:(lia)) Hsame)|by rewrite length_insert| | | |done].
  - intros j' pg Hj' Hpg0. rewrite list_lookup_insert_Some in Hj'. destruct Hj' as [(-> & <- & _)|(Hne & Hj')].
    + exists i. split; [done|]. split; [done|]. by rewrite Hc, decide_True.
    + destruct (Hpg _ _ Hj' Hpg0) as (i' & Hi' & -> & Hci). exists i'. split; [done|]. split; [done|].
      rewrite Hc. by case_decide.
  - intros a b pg Ha Hb Hpg0. rewrite !list_lookup_insert_Some in Ha, Hb.
    destruct Ha as [(-> & <- & _)|(Hna & Ha)], Hb as [(-> & Hb & _)|(Hnb & Hb)]; try done; subst.
    + by destruct (Hold _ _ Hb Hpg0).
    + by destruct (Hold _ _ Ha Hpg0).
    + by apply (Hinj a b pg).
  - intros k x Hx. destruct (Hby k x Hx) as (pg & Hpgk & Hpg0 & Hb). exists pg. split; [|split; [done|]].
    + rewrite list_lookup_insert_ne; [done|]. intros ->. congruence.
    + rewrite <-Hb. unfold byte_of. rewrite Hw. destruct (Hpg _ _ Hpgk Hpg0) as (i' & Hi' & -> & Hci).
      assert (i' ≠ i) by congruence.
      by rewrite in_other_page by (done || apply Z.mod_pos_bound; lia).
Qed.

(** One more byte in front. *)
Lemma stack_push m page p l pag c :
  stack m page p l → 0 < p → page !! Z.to_nat ((p - 1) / 4096) = Some pag → pag ≠ 0 → 0 ≤ c < 256 →
  stack (set_byte (pag + (p - 1) mod 4096) c m) page (p - 1) (c :: l).
Proof.
  intros [Hwf Hlen Hpg Hinj Hby Hr] Hp Hpag Hpag0 Hc.
  split; [by destruct m|done|done|done| |simpl; lia].
  intros [|k] x Hx; simpl in Hx.
  - injection Hx as <-. rewrite Z.add_0_r. exists pag. split; [done|]. split; [done|].
    by rewrite byte_of_set, decide_True, u8_small.
  - destruct (Hby k x Hx) as (pg & Hpgk & Hpg0 & Hb).
    replace (p - 1 + Z.of_nat (S k)) with (p + Z.of_nat k) by lia. exists pg. split; [done|]. split; [done|].
    rewrite byte_of_set, decide_False; [done|]. intros Heq.
    destruct (Hpg _ _ Hpgk Hpg0) as (i & Hi & -> & _). destruct (Hpg _ _ Hpag Hpag0) as (i' & Hi' & -> & _).
    apply page_addr_apart in Heq as [-> Hmod]; [|apply Z.mod_pos_bound; lia..].
    pose proof (Hinj _ _ _ Hpgk Hpag Hpg0) as Hdiv.
    assert (Hq : (p + Z.of_nat k) / 4096 = (p - 1) / 4096).
    { apply Z2Nat.inj; [apply Z.div_pos; lia|apply Z.div_pos; lia|done]. }
    pose proof (Z.div_mod (p + Z.of_nat k) 4096 ltac:(lia)). pose proof (Z.div_mod (p - 1) 4096 ltac:(lia)). lia.
Qed.

(** ** copy_strings() *)

Definition str_has (t : str_ptr) (str : list Z) (s : kernel) : Prop :=
  ∀ k x, str !! k = Some x → 0 ≤ x < 256 ∧ ∀ m, string_byte t (Z.of_nat k) (set_mm m s) = Ok x (set_mm m s).

Lemma get_page_k m s pag m' : get_free_page m = Ok pag m' → zoom k_mm get_free_page (set_mm m s) = Ok pag (set_mm m' s).
Proof. intros H. unfold zoom. change (k_mm (set_mm m s)) with m. by rewrite H. Qed.
Lemma zlookup_pos {A} (l : list A) i : 0 ≤ i → zlookup l i = l !! Z.to_nat i.
Proof. intros Hi. unfold zlookup. by destruct (Z.ltb_spec i 0); [lia|]. Qed.
Lemma zinsert_pos {A} i (x : A) l : 0 ≤ i → zinsert i x l = <[Z.to_nat i := x]> l.
Proof. intros Hi. unfold zinsert. by destruct (Z.ltb_spec i 0); [lia|]. Qed.

(** The page of the byte in front of [p]. *)
Lemma stack_page m page p l offset :
  stack m page p l → offset_ok page p offset → 0 < p →
  let offset' := if offset - 1 <? 0 then (p - 1) mod 4096 else offset - 1 in
  offset' = (p - 1) mod 4096 ∧
  ∃ pag m' pag0, page !! Z.to_nat ((p - 1) / 4096) = Some pag0 ∧
    (if (offset - 1 <? 0) && (pag0 =? 0) then get_free_page else mret pag0) m = Ok pag m' ∧
    (pag = 0 → full m') ∧
    (pag ≠ 0 → stack m' (<[Z.to_nat ((p - 1) / 4096) := pag]> page) p l).
Proof.
  intros Hst Hoff Hp offset'. pose proof Hst as [_ Hlen _ _ _ Hr].
  assert (Hlt : (Z.to_nat ((p - 1) / 4096) < 32)%nat).
  { apply Nat2Z.inj_lt. rewrite Z2Nat.id by (apply Z.div_pos; lia). apply Z.div_lt_upper_bound; lia. }
  destruct (lookup_lt_is_Some_2 page (Z.to_nat ((p - 1) / 4096))) as [pag0 Hpag0]; [by rewrite Hlen|].
  assert (Hkeep : pag0 ≠ 0 → stack m (<[Z.to_nat ((p - 1) / 4096) := pag0]> page) p l)
    by (intros _; by rewrite list_insert_id).
  destruct Hoff as [-> | (Ho & pg & Hpg & Hpg0)].
  - split; [done|]. destruct (Z.eqb_spec pag0 0) as [->|H0].
    + destruct (stack_new_page m page p l _ Hst Hlt Hpag0) as (pag & m' & Hrun & Hfull & Hok). by exists pag, m', 0.
    + exists pag0, m, pag0. split_and!; try done; by rewrite (proj2 (Z.eqb_neq _ _) H0), ?andb_false_r.
  - destruct (decide (offset = 0)) as [Hz|Hnz].
    + split; [unfold offset'; by rewrite Hz|]. subst offset. rewrite Hz. simpl. destruct (Z.eqb_spec pag0 0) as [->|H0].
      * destruct (stack_new_page m page p l _ Hst Hlt Hpag0) as (pag & m' & Hrun & Hfull & Hok). by exists pag, m', 0.
      * exists pag0, m, pag0. split_and!; try done; by rewrite (proj2 (Z.eqb_neq _ _) H0), ?andb_false_r.
    + pose proof (Z.mod_pos_bound p 4096 ltac:(lia)) as Hmp. pose proof (Z.div_mod p 4096 ltac:(lia)) as Hdm.
      assert (Hd : (p - 1) / 4096 = p / 4096 ∧ (p - 1) mod 4096 = p mod 4096 - 1).
      { split; symmetry; [apply (Z.div_unique _ _ _ (p mod 4096 - 1)); lia|apply (Z.mod_unique _ _ (p / 4096)); lia]. }
      destruct Hd as [Hd1 Hd2]. unfold offset'. destruct (Z.ltb_spec (offset - 1) 0); [lia|]. split; [lia|].
      rewrite Hd1 in *. assert (pg = pag0) as -> by congruence. exists pag0, m, pag0. by split_and!.
Qed.

Lemma copy_string_spec t str s n : ∀ m page p offset l,
  (n ≤ length str)%nat → str_has t str s → stack m page p l → offset_ok page p offset → Z.of_nat n ≤ p →
  ∃ r page' m', copy_string n t page p offset (set_mm m s) = Ok (r, page') (set_mm m' s) ∧
    match r with
    | None => full m'
    | Some (p', offset') => p' = p - Z.of_nat n ∧ stack m' page' p' (take n str ++ l) ∧ offset_ok page' p' offset'
    end.
Proof.
  induction n as [|n IH]; intros m page p offset l Hn Hstr Hst Hoff Hp.
  { exists (Some (p, offset)), page, m. split; [done|]. split; [lia|done]. }
  cbn [copy_string]. pose proof (st_range _ _ _ _ Hst) as Hr. rewrite u32_small by lia. change PAGE_SIZE with 4096.
  destruct (stack_page m page p l offset Hst Hoff ltac:(lia)) as (Ho & pag & m1 & pag0 & Hpag0 & Hrun & Hfull & Hst1).
  rewrite Ho. assert (Hq : 0 ≤ (p - 1) / 4096) by (apply Z.div_pos; lia).
  rewrite zlookup_pos, Hpag0 by done. cbn [deref]. rewrite bind_ret_l.
  rewrite (bind_Ok _ _ _ pag (set_mm m1 s)).
  2:{ destruct (_ && _); [by apply get_page_k|]. unfold mret, M_ret in Hrun |- *. by injection Hrun as -> ->. }
  rewrite zinsert_pos by done. destruct (Z.eqb_spec pag 0) as [H0|H0].
  { eexists None, _, m1. split; [done|by apply Hfull]. }
  destruct (lookup_lt_is_Some_2 str n) as [c Hc]; [lia|]. destruct (Hstr n c Hc) as [Hcb Hby].
  rewrite (bind_Ok _ _ _ _ _ (Hby m1)), (bind_Ok _ _ _ _ _ (st8_k_run _ _ _)).
  specialize (Hst1 H0). set (page1 := <[_ := pag]> page) in *.
  assert (Hpg1 : page1 !! Z.to_nat ((p - 1) / 4096) = Some pag).
  { apply list_lookup_insert_eq. by eapply lookup_lt_Some. }
  pose proof (stack_push m1 page1 p l pag c Hst1 ltac:(lia) Hpg1 H0 Hcb) as Hst2.
  destruct (IH _ _ (p - 1) ((p - 1) mod 4096) (c :: l) ltac:(lia) Hstr Hst2) as (r & page' & m' & Hrun' & Hres); [right; eauto|lia|].
  exists r, page', m'. split; [exact Hrun'|]. destruct r as [[p' offset']|]; [|done].
  destruct Hres as (-> & Hst' & Hoff'). split; [lia|]. split; [|done].
  by rewrite (take_S_r _ _ _ Hc), <-app_assoc.
Qed.

(** The strings of the source, and the string the pointer leads to. *)
Definition source (v : strings) (strs : list (list Z)) (s : kernel) : Prop :=
  ∀ k str, strs !! k = Some str → Forall (λ x, x ≠ 0) str ∧
    ∃ t, (∀ m, string_ptr v (Z.of_nat k) (set_mm m s) = Ok (Some t) (set_mm m s)) ∧ str_has t (str ++ [0]) s.

Lemma source_user s v strs : vector (k_user s) v strs → source (user_strings v) strs s.
Proof.
  intros (_ & Hv & _) k str Hk. destruct (Hv k str Hk) as [Ha [Hst Hnz]]. split; [done|].
  exists (in_user (user_long (k_user s) (v + 4 * Z.of_nat k))). split.
  - intros m. cbn [string_ptr]. rewrite (bind_Ok _ _ _ _ _ (get_fs_long_run _ _)).
    change (k_user (set_mm m s)) with (k_user s). unfold truth. by rewrite (proj2 (Z.eqb_neq _ _) Ha).
  - intros j x Hx. destruct (Hst j x Hx) as [Hm Hb]. split; [done|]. intros m. cbn [string_byte].
    unfold get_fs_byte. mred. unfold get. change (k_user (set_mm m s)) with (k_user s). rewrite Hm. simpl.
    by rewrite u8_small.
Qed.

Lemma string_len_run t str s m n : ∀ fuel, str_has t (str ++ [0]) s → Forall (λ x, x ≠ 0) str →
  (n ≤ length str)%nat → (n < fuel)%nat →
  string_len fuel t (Z.of_nat (length str - n)) (set_mm m s) = Ok (Z.of_nat (length str) + 1) (set_mm m s).
Proof.
  induction n as [|n IH]; intros [|fuel] Hstr Hnz Hn Hf; try lia; cbn [string_len].
  - destruct (Hstr (length str) 0) as [_ Hby]; [by rewrite lookup_app_r, Nat.sub_diag by lia|].
    replace (length str - 0)%nat with (length str) by lia. by rewrite (bind_Ok _ _ _ _ _ (Hby m)).
  - destruct (lookup_lt_is_Some_2 str (length str - S n)) as [c Hc]; [lia|].
    destruct (Hstr (length str - S n)%nat c) as [_ Hby]; [by apply lookup_app_l_Some|].
    rewrite (bind_Ok _ _ _ _ _ (Hby m)). unfold truth.
    rewrite (proj2 (Z.eqb_neq c 0)) by (exact (Forall_lookup_1 _ _ _ _ Hnz Hc)). simpl.
    replace (Z.of_nat (length str - S n) + 1) with (Z.of_nat (length str - n)) by lia. apply IH; auto; lia.
Qed.

Lemma packed_take strs n str :
  strs !! n = Some str → packed (take (S n) strs) = packed (take n strs) ++ str ++ [0].
Proof. intros H. rewrite (take_S_r _ _ _ H), packed_app, packed_cons. by rewrite app_nil_r. Qed.
Lemma packed_split strs n str :
  strs !! n = Some str → packed strs = packed (take n strs) ++ (str ++ [0]) ++ packed (drop (S n) strs).
Proof. intros H. rewrite <-(take_drop_middle _ _ _ H) at 1. by rewrite packed_app, packed_cons. Qed.
Lemma packed_length strs : (length strs ≤ length (packed strs))%nat.
Proof. induction strs as [|str strs IH]; [done|]. rewrite packed_cons, !length_app. simpl. lia. Qed.

(** What a copy of [l] onto the stack leads to. *)
Definition copied (l0 l : list Z) (p : Z) (s : kernel) (res : outcome kernel (Z * list Z)) : Prop :=
  ∃ m' p' page', res = Ok (p', page') (set_mm m' s) ∧
    (p' = 0 ∧ full m' ∨ p' = p - Z.of_nat (length l) ∧ stack m' page' p' (l ++ l0)).

Lemma copy_strings_loop_spec v strs s n : ∀ m page p offset l0,
  source v strs s → (n ≤ length strs)%nat → stack m page p l0 → offset_ok page p offset →
  Z.of_nat (length (packed (take n strs))) ≤ p →
  copied l0 (packed (take n strs)) p s (copy_strings_loop n v page p offset (set_mm m s)).
Proof.
  induction n as [|n IH]; intros m page p offset l0 Hsrc Hn Hst Hoff Hp.
  { exists m, p, page. split; [done|]. right. split; [simpl; lia|done]. }
  destruct (lookup_lt_is_Some_2 strs n) as [str Hstr]; [lia|].
  destruct (Hsrc n str Hstr) as (Hnz & t & Hptr & Hhas).
  pose proof (st_range _ _ _ _ Hst) as Hr. rewrite (packed_take _ _ _ Hstr), length_app in *.
  assert (Hlen : Z.of_nat (length (str ++ [0])) = Z.of_nat (length str) + 1) by (rewrite length_app; simpl; lia).
  cbn [copy_strings_loop]. rewrite (bind_Ok _ _ _ _ _ (Hptr m)).
  assert (Hsl : string_len string_fuel t 0 (set_mm m s) = Ok (Z.of_nat (length str) + 1) (set_mm m s)).
  { pose proof (string_len_run t str s m (length str) string_fuel Hhas Hnz ltac:(lia)) as H.
    rewrite Nat.sub_diag in H. apply H. unfold string_fuel. lia. }
  rewrite (bind_Ok _ _ _ _ _ Hsl). pose proof (u32_bound (p - (Z.of_nat (length str) + 1))) as Hu.
  destruct (Z.ltb_spec (u32 (p - (Z.of_nat (length str) + 1))) 0); [lia|].
  replace (Z.to_nat (Z.of_nat (length str) + 1)) with (length (str ++ [0])) by lia.
  destruct (copy_string_spec t (str ++ [0]) s (length (str ++ [0])) m page p offset l0) as (r & page1 & m1 & Hrun & Hres); try done; [lia|].
  rewrite (bind_Ok _ _ _ _ _ Hrun). destruct r as [[p1 offset1]|]; cbn beta iota.
  2:{ exists m1, 0, page1. split; [done|by left]. }
  destruct Hres as (-> & Hst1 & Hoff1). rewrite firstn_all in Hst1.
  destruct (IH m1 page1 _ offset1 _ Hsrc ltac:(lia) Hst1 Hoff1 ltac:(lia)) as (m2 & p2 & page2 & Hrun2 & Hres2).
  exists m2, p2, page2. split; [done|]. destruct Hres2 as [H0|[Hp2 Hst2]]; [by left|right].
  split; [rewrite length_app; lia|]. by rewrite <-app_assoc.
Qed.
Lemma copy_strings_spec v strs s m page p l0 :
  source v strs s → stack m page p l0 → Z.of_nat (length (packed strs)) < p →
  copied l0 (packed strs) p s (copy_strings (Z.of_nat (length strs)) v page p (set_mm m s)).
Proof.
  intros Hsrc Hst Hp. unfold copy_strings. destruct (Z.eqb_spec p 0); [lia|]. rewrite Nat2Z.id.
  pose proof (copy_strings_loop_spec v strs s (length strs) m page p 0 l0 Hsrc ltac:(lia) Hst) as H.
  rewrite firstn_all in H. apply H; [by left|lia].
Qed.

(** ** The new address space *)

(** Where the byte at position 0 of the argument pages goes. *)
Definition ARG_BASE : Z := 0x4000000 - PAGE_SIZE * MAX_ARG_PAGES.

Lemma page_bytes_elem m pg at_ a x :
  (a, x) ∈ page_bytes m pg at_ ↔
  at_ ≤ a < at_ + 4096 ∧
  x = u8 (Z.shiftr (word m (pg + 4 * ((a - at_) / 4))) (8 * ((a - at_) mod 4))).
Proof.
  unfold page_bytes. rewrite list_elem_of_fmap. split.
  - intros (k & Heq & Hk). apply elem_of_seq in Hk. injection Heq as -> ->.
    replace (at_ + Z.of_nat k - at_) with (Z.of_nat k) by lia. split; [lia|done].
  - intros (Ha & ->). exists (Z.to_nat (a - at_)). rewrite elem_of_seq. split; [|lia].
    rewrite Z2Nat.id by lia. f_equal; lia.
Qed.

Lemma arg_segment_elem m page a x :
  (a, x) ∈ concat (imap (λ i pg,
    if pg =? 0 then [] else page_bytes m pg (0x4000000 - PAGE_SIZE * (MAX_ARG_PAGES - Z.of_nat i))) page) ↔
  ∃ j pg, page !! j = Some pg ∧ pg ≠ 0 ∧ (a, x) ∈ page_bytes m pg (ARG_BASE + 4096 * Z.of_nat j).
Proof.
  rewrite list_elem_of_In, in_concat. split.
  - intros (l & Hl & Hx). apply list_elem_of_In, list_elem_of_lookup_1 in Hl as [j Hl].
    rewrite list_lookup_imap in Hl. destruct (page !! j) as [pg|] eqn:Hj; [|done]. injection Hl as <-.
    destruct (Z.eqb_spec pg 0); [by destruct Hx|]. exists j, pg. split; [done|]. split; [done|].
    apply list_elem_of_In. unfold ARG_BASE. change PAGE_SIZE with 4096 in *.
    by replace (67108864 - 4096 * MAX_ARG_PAGES + 4096 * Z.of_nat j) with (67108864 - 4096 * (MAX_ARG_PAGES - Z.of_nat j)) by lia.
  - intros (j & pg & Hj & H0 & Hx). eexists. split; [|apply list_elem_of_In, Hx].
    apply list_elem_of_In, (list_elem_of_lookup_2 _ j). rewrite list_lookup_imap, Hj. simpl.
    rewrite (proj2 (Z.eqb_neq _ _) H0). unfold ARG_BASE. change PAGE_SIZE with 4096.
    by replace (67108864 - 4096 * MAX_ARG_PAGES + 4096 * Z.of_nat j) with (67108864 - 4096 * (MAX_ARG_PAGES - Z.of_nat j)) by lia.
Qed.

Lemma byte_of_aligned m i r : byte_of m (page_addr i + r) = u8 (Z.shiftr (word m (page_addr i + 4 * (r / 4))) (8 * (r mod 4))).
Proof.
  unfold byte_of. assert (Hm : (page_addr i + r) mod 4 = r mod 4).
  { unfold page_addr, LOW_MEM. replace (1048576 + 4096 * i + r) with (r + (262144 + 1024 * i) * 4) by lia.
    apply Z.mod_add. lia. }
  rewrite Hm. do 3 f_equal. pose proof (Z.div_mod r 4 ltac:(lia)). lia.
Qed.

(** The argument pages still hold what they held. *)
Definition same_pages (page : list Z) (m m2 : mm) : Prop :=
  ∀ pg r, pg ∈ page → pg ≠ 0 → 0 ≤ r < 4096 → byte_of m2 (pg + r) = byte_of m (pg + r).

(** The new segment shows the stack. *)
Lemma arg_segment_holds m m2 page p l :
  stack m page p l → same_pages page m m2 → holds (arg_segment m2 page) (ARG_BASE + p) l.
Proof.
  intros Hst Hsame k x Hk. destruct (st_bytes _ _ _ _ Hst k x Hk) as (pg & Hpg & H0 & Hb).
  rewrite <-Hsame in Hb by (done || (by eapply list_elem_of_lookup_2) || apply Z.mod_pos_bound; lia).
  pose proof (st_range _ _ _ _ Hst) as Hr. split; [|by subst x; apply byte_of_bound].
  set (q := p + Z.of_nat k) in *. assert (Hq : 0 ≤ q) by lia.
  pose proof (Z.div_mod q 4096 ltac:(lia)) as Hdm. pose proof (Z.mod_pos_bound q 4096 ltac:(lia)) as Hmb.
  assert (Hd : 0 ≤ q / 4096) by (apply Z.div_pos; lia).
  destruct (st_pages _ _ _ _ Hst _ _ Hpg H0) as (i & _ & -> & _). rewrite byte_of_aligned in Hb.
  replace (ARG_BASE + p + Z.of_nat k) with (ARG_BASE + q) by lia.
  unfold arg_segment. apply elem_of_list_to_map_1'.
  - intros y Hy. apply arg_segment_elem in Hy as (j & pg' & Hj & _ & Hy). apply page_bytes_elem in Hy as [Ha ->].
    assert (Hjq : Z.of_nat j = q / 4096) by (apply (Z.div_unique _ _ _ (q - 4096 * Z.of_nat j)); lia).
    rewrite <-Hjq, Nat2Z.id in Hpg. assert (pg' = page_addr i) as -> by congruence.
    replace (ARG_BASE + q - (ARG_BASE + 4096 * Z.of_nat j)) with (q mod 4096) by lia. done.
  - apply arg_segment_elem. exists (Z.to_nat (q / 4096)), (page_addr i). split; [done|]. split; [done|].
    apply page_bytes_elem. rewrite Z2Nat.id by done. split; [lia|].
    replace (ARG_BASE + q - (ARG_BASE + 4096 * (q / 4096))) with (q mod 4096) by lia. done.
Qed.

(** ** create_tables() *)

Lemma skip_string_run s p str n : ∀ fuel,
  holds (k_user s) p (str ++ [0]) → Forall (λ x, x ≠ 0) str → (n ≤ length str)%nat → (n < fuel)%nat →
  skip_string fuel (p + Z.of_nat (length str - n)) s = Ok (p + Z.of_nat (length str) + 1) s.
Proof.
  induction n as [|n IH]; intros [|fuel] Hst Hnz Hn Hf; try lia; cbn [skip_string]; unfold get_fs_byte; mred; unfold get.
  - destruct (Hst (length str) 0) as [Hm _]; [by rewrite lookup_app_r, Nat.sub_diag by lia|].
    replace (length str - 0)%nat with (length str) by lia. by rewrite Hm.
  - destruct (lookup_lt_is_Some_2 str (length str - S n)) as [c Hc]; [lia|].
    destruct (Hst (length str - S n)%nat c) as [Hm Hb]; [by apply lookup_app_l_Some|].
    rewrite Hm. simpl. rewrite u8_small by done. unfold truth.
    rewrite (proj2 (Z.eqb_neq c 0)) by (exact (Forall_lookup_1 _ _ _ _ Hnz Hc)). simpl.
    replace (p + Z.of_nat (length str - S n) + 1) with (p + Z.of_nat (length str - n)) by lia. apply IH; auto; lia.
Qed.

(** An array of pointers to the strings packed from [p] on. *)
Definition table (m : gmap Z Z) (v p : Z) (strs : list (list Z)) : Prop :=
  (∀ k, (k < length strs)%nat → user_long m (v + 4 * Z.of_nat k) = p + Z.of_nat (length (packed (take k strs)))) ∧
  user_long m (v + 4 * Z.of_nat (length strs)) = 0.
(** The memory is the same but for the [n] longs at [v]. *)
Definition outside (v : Z) (n : nat) (m m' : gmap Z Z) : Prop :=
  ∀ q, q < v ∨ v + 4 * Z.of_nat n ≤ q → m' !! q = m !! q.

Lemma holds_app m a l k : holds m a (l ++ k) ↔ holds m a l ∧ holds m (a + Z.of_nat (length l)) k.
Proof.
  split.
  - intros H. split; intros j x Hj; [by apply H, lookup_app_l_Some|].
    rewrite <-Z.add_assoc, <-Nat2Z.inj_add. apply H. rewrite lookup_app_r by lia. rewrite <-Hj. f_equal. lia.
  - intros [Hl Hk] j x [Hj|[Hle Hj]]%lookup_app_Some; [by apply Hl|]. specialize (Hk _ _ Hj).
    by replace (a + Z.of_nat j) with (a + Z.of_nat (length l) + Z.of_nat (j - length l)) by lia.
Qed.
Lemma holds_ext m m' a l : (∀ q, a ≤ q → m' !! q = m !! q) → holds m a l → holds m' a l.
Proof. intros He H k x Hk. rewrite He by lia. by apply H. Qed.
Lemma table_ext m m' v p strs :
  (∀ q, v ≤ q < v + 4 * Z.of_nat (S (length strs)) → m' !! q = m !! q) → table m v p strs → table m' v p strs.
Proof.
  intros He [H1 H2]. split; [intros k Hk; rewrite <-H1 by done|rewrite <-H2]; apply user_long_ext; intros q Hq; apply He; lia.
Qed.
Lemma table_vector m v p strs :
  table m v p strs → 0 < p → v ≠ 0 → holds m p (packed strs) → Forall (Forall (λ x, x ≠ 0)) strs → vector m v strs.
Proof.
  intros [H1 H2] Hp Hv Hh Hnz. split; [done|]. split; [|done]. intros k str Hk.
  rewrite H1 by (by eapply lookup_lt_Some). split; [lia|]. split; [|exact (Forall_lookup_1 _ _ _ _ Hnz Hk)].
  rewrite (packed_split _ _ _ Hk), holds_app, holds_app in Hh. tauto.
Qed.

Lemma fill_table_spec strs : ∀ s p v,
  holds (k_user s) p (packed strs) → Forall (Forall (λ x, x ≠ 0)) strs →
  v + 4 * Z.of_nat (S (length strs)) ≤ p → 0 ≤ p → Z.of_nat (length (packed strs)) < 131072 → p + Z.of_nat (length (packed strs)) < 2^32 →
  ∃ m', fill_table (length strs) p v s = Ok (p + Z.of_nat (length (packed strs))) (set_user m' s) ∧
    table m' v p strs ∧ outside v (S (length strs)) (k_user s) m'.
Proof.
  induction strs as [|str strs IH]; intros s p v Hh Hnz Hv Hp Hlen Hmax; cbn [length fill_table].
  - eexists. rewrite (bind_Ok _ _ _ _ _ (put_fs_long_run _ _ _)). rewrite Z.add_0_r. split; [done|]. split.
    + split; [by intros k Hk%Nat.nlt_0_r|]. replace (v + 4 * Z.of_nat (length [])) with v by (simpl; lia).
      by apply user_long_write.
    + intros q Hq. simpl in Hq. rewrite lookup_user_write, decide_False by (simpl; lia). done.
  - rewrite packed_cons in *. rewrite (length_app (str ++ [0])) in *. apply holds_app in Hh as [Hh0 Hh].
    apply Forall_cons in Hnz as [Hnz0 Hnz]. cbn [length] in Hv.
    rewrite (bind_Ok _ _ _ _ _ (put_fs_long_run _ _ _)). set (s1 := set_user _ s).
    assert (H1 : ∀ q, q < v ∨ v + 4 ≤ q → k_user s1 !! q = k_user s !! q).
    { intros q Hq. change (k_user s1) with (user_write (long_bytes p) v (k_user s)).
      by rewrite lookup_user_write, decide_False by (simpl; lia). }
    assert (Hl : Z.of_nat (length (str ++ [0])) = Z.of_nat (length str) + 1) by (rewrite length_app; simpl; lia).
    rewrite (bind_Ok _ _ _ (p + Z.of_nat (length (str ++ [0]))) s1).
    2:{ pose proof (skip_string_run s1 p str (length str) string_fuel) as H. rewrite Nat.sub_diag, Z.add_0_r in H.
        rewrite Hl, Z.add_assoc. apply H; [|done|lia|unfold string_fuel; lia].
        refine (holds_ext _ _ _ _ _ Hh0). intros q Hq. apply H1. lia. }
    destruct (IH s1 (p + Z.of_nat (length (str ++ [0]))) (v + 4)) as (m' & Hrun & [Ht1 Ht2] & Hout); try done; try lia.
    { refine (holds_ext _ _ _ _ _ Hh). intros q Hq. apply H1. lia. }
    exists m'. rewrite Hrun. split; [f_equal; lia|]. split.
    + split.
      * intros [|k] Hk; cbn [length] in Hk.
        -- replace (v + 4 * Z.of_nat 0) with v by lia. change (packed (take 0 _)) with (@nil Z). rewrite Z.add_0_r.
           rewrite (user_long_ext m' (k_user s1)) by (intros q Hq; apply Hout; lia). apply user_long_write. lia.
        -- replace (v + 4 * Z.of_nat (S k)) with (v + 4 + 4 * Z.of_nat k) by lia. rewrite Ht1 by lia.
           cbn [take]. rewrite packed_cons, (length_app (str ++ [0])). lia.
      * cbn [length]. replace (v + 4 * Z.of_nat (S (length strs))) with (v + 4 + 4 * Z.of_nat (length strs)) by lia. done.
    + intros q Hq. rewrite Hout, H1 by lia. done.
Qed.

Lemma land_align4 p : 0 ≤ p < 2^32 → Z.land 0xfffffffc p = p - p mod 4.
Proof.
  intros Hp. change 0xfffffffc with (Z.land (Z.ones 32) (Z.lnot (Z.ones 2))).
  rewrite Z.land_comm, Z.land_assoc, Z.land_ones, Z.mod_small, <-Z.ldiff_land, Z.ldiff_ones_r by lia.
  rewrite Z.shiftl_mul_pow2, Z.shiftr_div_pow2 by lia. change (2^2) with 4.
  pose proof (Z.div_mod p 4 ltac:(lia)). lia.
Qed.

Lemma user_long_skip l v m a : a + 4 ≤ v ∨ v + Z.of_nat (length l) ≤ a → user_long (user_write l v m) a = user_long m a.
Proof. intros Ha. apply user_long_ext. intros q Hq. by rewrite lookup_user_write, decide_False by lia. Qed.

(** The three longs create_tables() stores first. *)
Lemma three_longs m sp x y z :
  0 ≤ x < 2^32 → 0 ≤ y < 2^32 → 0 ≤ z < 2^32 →
  let m' := user_write (long_bytes z) sp (user_write (long_bytes y) (sp + 4) (user_write (long_bytes x) (sp + 8) m)) in
  user_long m' sp = z ∧ user_long m' (sp + 4) = y ∧ user_long m' (sp + 8) = x ∧ outside sp 3 m m'.
Proof.
  intros Hx Hy Hz m'. unfold m'. assert (Hl : ∀ v, length (long_bytes v) = 4%nat) by done. split_and!.
  - by apply user_long_write.
  - rewrite user_long_skip by (rewrite Hl; lia). by apply user_long_write.
  - rewrite !user_long_skip by (rewrite Hl; lia). by apply user_long_write.
  - intros q Hq. by rewrite !lookup_user_write, !decide_False by (rewrite Hl; lia).
Qed.

Lemma create_tables_spec args envs s p :
  holds (k_user s) p (packed args ++ packed envs) → Forall (Forall (λ x, x ≠ 0)) (args ++ envs) →
  0x1000000 ≤ p < 0x4000000 → Z.of_nat (length (packed args ++ packed envs)) < 131072 →
  ∃ sp u, create_tables p (Z.of_nat (length args)) (Z.of_nat (length envs)) s = Ok sp (set_user u s) ∧
    sp mod 4 = 0 ∧ user_long u sp = Z.of_nat (length args) ∧
    vector u (user_long u (sp + 4)) args ∧ vector u (user_long u (sp + 8)) envs.
Proof.
  intros Hh [Hnza Hnze]%Forall_app Hp Hlen. rewrite length_app in Hlen.
  pose proof (packed_length args) as Hla. pose proof (packed_length envs) as Hle.
  apply holds_app in Hh as [Hha Hhe]. unfold create_tables. rewrite land_align4 by lia.
  pose proof (Z.mod_pos_bound p 4 ltac:(lia)) as Hm. pose proof (Z.div_mod p 4 ltac:(lia)) as Hdm.
  remember (p - p mod 4) as sp0 eqn:E0. cbv zeta. rewrite (u32_small (sp0 - _)) by lia.
  remember (sp0 - 4 * (Z.of_nat (length envs) + 1)) as envp eqn:Eenv. rewrite (u32_small (envp - _)) by lia.
  remember (envp - 4 * (Z.of_nat (length args) + 1)) as argv eqn:Earg. rewrite (u32_small (argv - _)) by lia.
  remember (argv - 12) as sp eqn:Esp.
  rewrite (bind_Ok _ _ _ _ _ (put_fs_long_run _ _ _)), (bind_Ok _ _ _ _ _ (put_fs_long_run _ _ _)),
    (bind_Ok _ _ _ _ _ (put_fs_long_run _ _ _)), !Nat2Z.id.
  destruct (three_longs (k_user s) sp envp argv (Z.of_nat (length args))) as (Hsp & Hsp4 & Hsp8 & H3); [lia..|].
  set (s3 := set_user _ (set_user _ (set_user _ s))).
  assert (Hk3 : k_user s3 = user_write (long_bytes (Z.of_nat (length args))) sp (user_write (long_bytes argv) (sp + 4)
    (user_write (long_bytes envp) (sp + 8) (k_user s)))) by done.
  rewrite <-Hk3 in Hsp, Hsp4, Hsp8, H3. clear Hk3.
  destruct (fill_table_spec args s3 p argv) as (u1 & Hr1 & Ht1 & Ho1); try done; try lia.
  { refine (holds_ext _ _ _ _ _ Hha). intros q Hq. apply H3. lia. }
  rewrite (bind_Ok _ _ _ _ _ Hr1).
  destruct (fill_table_spec envs (set_user u1 s3) (p + Z.of_nat (length (packed args))) envp)
    as (u2 & Hr2 & Ht2 & Ho2); try done; try lia.
  { refine (holds_ext _ _ _ _ _ Hhe). intros q Hq. rewrite <-H3 by lia. apply Ho1. lia. }
  rewrite (bind_Ok _ _ _ _ _ Hr2). exists sp, u2. split; [done|].
  assert (Hlow : ∀ q, q < argv → u2 !! q = k_user s3 !! q).
  { intros q Hq. rewrite Ho2 by lia. apply Ho1. lia. }
  assert (Hhigh : ∀ q, sp0 ≤ q → u2 !! q = k_user s !! q).
  { intros q Hq. rewrite Ho2, <-H3 by lia. apply Ho1. lia. }
  rewrite !(user_long_ext u2 (k_user s3)), Hsp, Hsp4, Hsp8 by (intros; apply Hlow; lia). split.
  { replace sp with ((p / 4 - Z.of_nat (length envs) - Z.of_nat (length args) - 5) * 4) by lia. apply Z.mod_mul. lia. }
  split; [done|]. split.
  - apply (table_vector _ _ p); [|lia|lia| |done].
    + refine (table_ext _ _ _ _ _ _ Ht1). intros q Hq. apply Ho2. lia.
    + refine (holds_ext _ _ _ _ _ Hha). intros q Hq. apply Hhigh. lia.
  - apply (table_vector _ _ (p + Z.of_nat (length (packed args)))); [done|lia|lia| |done].
    refine (holds_ext _ _ _ _ _ Hhe). intros q Hq. apply Hhigh. lia.
Qed.

(** ** execve()'s arguments *)

Lemma passed_source s v strs : passed (k_user s) v strs → source (user_strings v) strs s.
Proof. intros [[_ ->]|Hv]; [by intros k str Hk|by apply source_user]. Qed.
Lemma passed_nonzero m v strs : passed m v strs → Forall (Forall (λ x, x ≠ 0)) strs.
Proof.
  intros [[_ ->]|(_ & Hv & _)]; [done|]. apply Forall_lookup_2. intros k str Hk.
  by destruct (Hv k str Hk) as [_ [_ Hnz]].
Qed.
Lemma count_from_run s v strs n : ∀ fuel, vector (k_user s) v strs → (n ≤ length strs)%nat → (n < fuel)%nat →
  count_from fuel (v + 4 * Z.of_nat (length strs - n)) (Z.of_nat (length strs - n)) s = Ok (Z.of_nat (length strs)) s.
Proof.
  induction n as [|n IH]; intros [|fuel] Hv Hn Hf; try lia; cbn [count_from];
    rewrite (bind_Ok _ _ _ _ _ (get_fs_long_run _ _)); pose proof Hv as (_ & Hp & Hend); unfold truth.
  - by rewrite Nat.sub_0_r, Hend.
  - destruct (lookup_lt_is_Some_2 strs (length strs - S n)) as [str Hstr]; [lia|].
    rewrite (proj2 (Z.eqb_neq _ _) (proj1 (Hp _ _ Hstr))). simpl.
    replace (v + 4 * Z.of_nat (length strs - S n) + 4) with (v + 4 * Z.of_nat (length strs - n)) by lia.
    replace (Z.of_nat (length strs - S n) + 1) with (Z.of_nat (length strs - n)) by lia. apply IH; [done|lia..].
Qed.
Lemma count_run s v strs : passed (k_user s) v strs → Z.of_nat (length strs) < 131072 →
  Exec.count v s = Ok (Z.of_nat (length strs)) s.
Proof.
  intros [[-> ->]|Hv] Hl; [done|]. unfold Exec.count, truth. rewrite (proj2 (Z.eqb_neq _ _) (proj1 Hv)). cbn [negb].
  pose proof (count_from_run s v strs (length strs) string_fuel Hv) as H. rewrite Nat.sub_diag, Z.add_0_r in H.
  apply H; [lia|unfold string_fuel; lia].
Qed.

Lemma stack_empty m : mm_wf m → stack m (replicate 32 0) 131068 [].
Proof.
  intros Hm. split; try done.
  - intros j pg [-> _]%lookup_replicate H0. done.
  - intros i j pg [-> _]%lookup_replicate _ H0. done.
Qed.

(** C10: execve() hands its arguments on unchanged.  For argument and environment
    arrays of the calling program (or NULL) whose strings, with their zeros,
    take fewer than 128 K - 4 bytes in all, count() counts them, and the two
    calls of copy_strings() either find no free page, which is p = 0, or put
    the strings into the argument pages.  As long as those pages keep their
    bytes, create_tables() on the new address space, which shows them below its
    top, then returns a stack pointer, a multiple of 4, where the new program
    finds argc, a pointer to a NULL-terminated array of exactly the same
    argument strings, and one of the same environment strings. *)
Theorem exec_args_correct s argv envp args envs :
  mm_wf (k_mm s) → passed (k_user s) argv args → passed (k_user s) envp envs →
  Z.of_nat (length (packed args ++ packed envs)) < PAGE_SIZE * MAX_ARG_PAGES - 4 →
  let argc := Z.of_nat (length args) in
  let envc := Z.of_nat (length envs) in
  Exec.count argv s = Ok argc s ∧ Exec.count envp s = Ok envc s ∧
  ∃ m' p page,
    ('(p, page) ← copy_strings envc (user_strings envp) (replicate 32 0) (PAGE_SIZE * MAX_ARG_PAGES - 4);
     copy_strings argc (user_strings argv) page p) s = Ok (p, page) (set_mm m' s) ∧
    (p = 0 ∧ full m' ∨
     0 < p ∧ ∀ s2, same_pages page m' (k_mm s2) →
       ∃ sp u, create_tables (u32 (p + 0x4000000 - MAX_ARG_PAGES * PAGE_SIZE)) argc envc
                 (set_user (arg_segment (k_mm s2) page) s2) = Ok sp (set_user u s2) ∧
         sp mod 4 = 0 ∧ user_long u sp = argc ∧
         vector u (user_long u (sp + 4)) args ∧ vector u (user_long u (sp + 8)) envs).
Proof.
  intros Hwf Ha He Hlen argc envc. subst argc envc. change (PAGE_SIZE * MAX_ARG_PAGES - 4) with 131068 in *.
  change (MAX_ARG_PAGES * PAGE_SIZE) with 131072. rewrite length_app in Hlen.
  pose proof (packed_length args). pose proof (packed_length envs).
  split; [apply count_run; [done|lia]|]. split; [apply count_run; [done|lia]|].
  assert (Es : set_mm (k_mm s) s = s) by (by destruct s).
  destruct (copy_strings_spec _ envs s (k_mm s) _ 131068 [] (passed_source _ _ _ He) (stack_empty _ Hwf))
    as (m1 & p1 & page1 & Hr1 & Hres1); [lia|].
  rewrite Es in Hr1. rewrite (bind_Ok _ _ _ _ _ Hr1). cbn beta iota. destruct Hres1 as [[-> Hfull]|[Hp1 Hst1]].
  { exists m1, 0, page1. split; [done|by left]. }
  destruct (copy_strings_spec _ args s m1 page1 p1 _ (passed_source _ _ _ Ha) Hst1) as (m2 & p2 & page2 & Hr2 & Hres2); [lia|].
  exists m2, p2, page2. split; [exact Hr2|]. destruct Hres2 as [?|[Hp2 Hst2]]; [by left|right].
  split; [lia|]. intros s2 Hsame. rewrite app_nil_r in Hst2.
  pose proof (arg_segment_holds _ _ _ _ _ Hst2 Hsame) as Hh. rewrite u32_small by lia.
  replace (p2 + 67108864 - 131072) with (ARG_BASE + p2) by (unfold ARG_BASE; change (PAGE_SIZE * MAX_ARG_PAGES) with 131072; lia).
  destruct (create_tables_spec args envs (set_user (arg_segment (k_mm s2) page2) s2) (ARG_BASE + p2)) as (sp & u & Hrun & Hres).
  - exact Hh.
  - apply Forall_app. eauto using passed_nonzero.
  - unfold ARG_BASE. change (PAGE_SIZE * MAX_ARG_PAGES) with 131072. lia.
  - rewrite length_app. lia.
  - by exists sp, u.
Qed.

(** ** A concrete program: [ls -l] with the environment [A=b] *)

Definition ex_exec : kernel :=
  set_user (user_write (long_bytes 200 ++ long_bytes 300 ++ long_bytes 0) 100
    (user_write (long_bytes 400 ++ long_bytes 0) 120
    (user_write [108; 115; 0] 200 (user_write [45; 108; 0] 300 (user_write [65; 61; 98; 0] 400 ∅))))) demo.
Definition ex_args : list (list Z) := [[108; 115]; [45; 108]].
Definition ex_envs : list (list Z) := [[65; 61; 98]].

(** The strings where the tables of the new program say they are. *)
Definition ex_argv_run : M kernel (Z * Z * Z * Z) :=
  '(p, page) ← copy_strings 1 (user_strings 120) (replicate 32 0) 131068;
  '(p, page) ← copy_strings 2 (user_strings 100) page p;
  modify (λ s, set_user (arg_segment (k_mm s) page) s) ;;
  sp ← create_tables (u32 (p + 0x4000000 - 131072)) 2 1;
  argv ← get_fs_long (sp + 4);
  arg1 ← get_fs_long (argv + 4);
  c ← get_fs_byte (arg1 + 1);
  argc ← get_fs_long sp;
  mret (sp, argc, arg1, c).
Example ex_argv_ok :
  match ex_argv_run ex_exec with
  | Ok (sp, argc, arg1, c) _ => sp = 0x3ffffd0 ∧ argc = 2 ∧ arg1 = 0x3fffff5 ∧ c = 108
  | _ => False
  end.
Proof. vm_compute. repeat split. Qed.

Lemma ex_exec_ok :
  mm_wf (k_mm ex_exec) ∧ passed (k_user ex_exec) 100 ex_args ∧ passed (k_user ex_exec) 120 ex_envs.
Proof.
  split; [|split; right; (split; [done|]; split; [|by vm_compute])].
  - split; [done|]. split; [by apply Forall_replicate|done].
  - intros [|[|k]] str Hk; try done; injection Hk as <-; (split; [by vm_compute|]; split; [|by repeat constructor]);
      intros [|[|[|j]]] x Hx; try done; injection Hx as <-; by vm_compute.
  - intros [|k] str Hk; try done; injection Hk as <-; (split; [by vm_compute|]; split; [|by repeat constructor]);
      intros [|[|[|[|j]]]] x Hx; try done; injection Hx as <-; by vm_compute.
Qed.

Lemma exec_args_correct_witness :
  mm_wf (k_mm ex_exec) ∧ passed (k_user ex_exec) 100 ex_args ∧ passed (k_user ex_exec) 120 ex_envs ∧
  ∃ m' p page,
    ('(p, page) ← copy_strings 1 (user_strings 120) (replicate 32 0) 131068;
     copy_strings 2 (user_strings 100) page p) ex_exec = Ok (p, page) (set_mm m' ex_exec) ∧
    (p = 0 ∧ full m' ∨
     0 < p ∧ ∀ s2, same_pages page m' (k_mm s2) →
       ∃ sp u, create_tables (u32 (p + 0x4000000 - 131072)) 2 1
                 (set_user (arg_segment (k_mm s2) page) s2) = Ok sp (set_user u s2) ∧
         sp mod 4 = 0 ∧ user_long u sp = 2 ∧
         vector u (user_long u (sp + 4)) ex_args ∧ vector u (user_long u (sp + 8)) ex_envs).
Proof.
  destruct ex_exec_ok as (Hm & Ha & He). split; [done|]. split; [done|]. split; [done|].
  destruct (exec_args_correct ex_exec 100 120 ex_args ex_envs Hm Ha He) as (_ & _ & H); [by vm_compute|]. exact H.
Defined.
