(* ===== verification/DiskExamples.v ===== *)
(** * Concrete controllers, and the witnesses of the disk drivers *)

From stdpp Require Import base option list gmap strings.
From Stdlib Require Import ZArith Lia.
From S2P Require Import Prelude Types Memory Sched SchedProofs TimerProofs Kernel Blk Ports BlkProofs RequestLive BlockFacts RequestFacts Hd HdSpec HdLive HdFacts HdProofs Floppy FloppyLive FloppyProofs Demo.
Local Open Scope Z_scope.

(** ** A concrete controller, and the witnesses of the hard disk driver *)

Definition st506_in (p : Z) (v : hd_view) : Z * hd_view :=
  if p =? HD_STATUS then
    match busy v with
    | O => (match job v with Writing _ _ _ => 0x58 | _ => 0x50 end, v)
    | S n => (0x80, v <| busy := n |>)
    end
  else (1, v).
Definition st506_job (mk : Z → Z → Z → hd_job) (v : hd_view) : hd_view :=
  v <| busy := 2%nat |> <| job :=
    mk (cmd_drive v) (chs_lba 4 17 (cmd_cyl v) (cmd_head v) (reg v (HD_DATA + 3))) (cmd_count v) |>.
Definition st506_out (p b : Z) (v : hd_view) : hd_view :=
  if (HD_DATA <? p) && (p <? HD_DATA + 7) || (p =? HD_CMD) then v <| regs ::= <[p := b]> |>
  else if p =? HD_DATA + 7 then
    if b =? WIN_READ then st506_job Reading v else if b =? WIN_WRITE then st506_job Writing v
    else v <| busy := 2%nat |> <| job := Idle |>
  else v.
Definition st506_read (p : Z) (n : nat) (v : hd_view) : list Z * hd_view :=
  match job v with
  | Reading drive lba k => (sector_of v drive lba, v <| busy := 2%nat |> <| job := Reading drive (lba + 1) (k - 1) |>)
  | _ => ([], v)
  end.
Definition st506_write (p : Z) (l : list Z) (v : hd_view) : hd_view :=
  match job v with
  | Writing drive lba k => v <| busy := 2%nat |> <| job := Writing drive (lba + 1) (k - 1) |>
      <| sectors ::= <[(drive, lba) := l]> |>
  | _ => v
  end.
#[export] Instance st506 : Controller hd_view := {|
  port_in := st506_in; port_out := st506_out; port_read := st506_read; port_write := st506_write
|}.

#[export] Instance st506_ok : HdController hd_view.
Proof.
  refine {| view := λ v, v; heads := λ _, 4; spt := λ _, 17; settle := λ v, v <| busy := 0%nat |> |}; [done|..].
  - intros [j m r [|n]]; done.
  - intros [j m r [|n]] Hb; [done|]. by vm_compute.
  - intros [j m r [|n]] Hb; [|done]. simpl. destruct j; by vm_compute.
  - intros [j m r [|n]] drive lba n' Hb Hj Hn; [|done]. simpl in Hj. subst j. by vm_compute.
  - intros p v d Hp. simpl. unfold st506_out.
    assert (Hr : (HD_DATA <? p) && (p <? HD_DATA + 7) || (p =? HD_CMD) = true) by (unfold HD_DATA, HD_CMD in *; lia).
    by rewrite Hr.
  - intros p v d Hp Hc. simpl. unfold st506_out.
    assert (Hr : (HD_DATA <? p) && (p <? HD_DATA + 7) || (p =? HD_CMD) = false) by (unfold HD_DATA, HD_CMD in *; lia).
    assert (Hq : (p =? HD_DATA + 7) = false) by (unfold HD_DATA in *; lia). by rewrite Hr, Hq.
  - intros d. by exists 2%nat.
  - intros d. exists 2%nat. split; [lia|done].
  - intros d drive lba n Hb Hj Hn. simpl. unfold st506_read. rewrite Hj. split; [done|]. by exists 2%nat.
  - intros d l drive lba n Hb Hj Hn Hl. exists 2%nat. simpl. unfold st506_write. by rewrite Hj.
Defined.

(** One partition, of 5000 sectors from sector 100 on, on the first drive; a
    request for block 700 of it, to buffer 0, is the first of the queue. *)
Definition hd_drive : hd_i_struct := mk_hd_i 4 17 615 300 615 8.
Definition demo_hd : hd_state :=
  boot_hd <| recalibrate := 0 |> <| reset := 0 |> <| NR_HD := 1 |> <| hd_info := [hd_drive; hd_drive] |>
    <| hd ::= <[1%nat := mk_hd 100 5000]> |>.
Definition demo_req (cmd : Z) : request_struct := mk_request 0x301 cmd 0 1400 2 0 0xFFF000 (Some 0%nat) None.
Definition demo_bh : buffer_head :=
  mk_buffer (replicate 512 1 ++ replicate 512 2) 700 0x301 0 0 1 1 0xFFE000 None None None None.
Definition demo_disk : hd_view :=
  mk_view Idle {[ (0, 1500) := replicate 512 3; (0, 1501) := replicate 512 4 ]} ∅ 1.
Definition hd_kernel (cmd errors : Z) : kernel :=
  demo <| k_buf ::= λ d, d <| buffers := [demo_bh] |> |>
    <| k_blk ::= λ d, d <| request ::= <[0%nat := demo_req cmd <| r_errors := errors |>]> |>
         <| blk_dev ::= zinsert 3 (mk_blk_dev (Some do_hd_request_fn) (Some 0%nat)) |> |>.
Definition hd_demo (cmd : Z) : hd_system hd_view := mk_system (hd_kernel cmd 0) demo_hd demo_disk.

Lemma hd_demo_request cmd : hd_request (hd_demo cmd) 0 (demo_req cmd) 0 demo_bh 0 1500 2.
Proof.
  split; [by eexists|reflexivity|reflexivity|reflexivity|reflexivity|done|reflexivity|lia|done|reflexivity|done|].
  exists (mk_hd 100 5000), hd_drive. repeat split; done.
Qed.
Lemma hd_demo_waiters cmd : waiters_ok (hd_kernel cmd 0) (demo_req cmd) demo_bh.
Proof. split; [right; by eexists|split; [right; by eexists|by left]]. Qed.

(** Evaluated: the buffer after the two interrupts of a read. *)
Example hd_demo_read :
  match (do_hd_request ;; hd_irqs 2) (hd_demo READ) with
  | Ok _ s => (λ x, (take 1 (b_data x), take 1 (drop 1023 (b_data x)), b_uptodate x, b_lock x)) <$> buffers (k_buf (sys_k s)) !! 0%nat
  | _ => None
  end = Some ([3], [4], 1, 0).
Proof. vm_compute. reflexivity. Qed.
(** ... and the two sectors after those of a write. *)
Example hd_demo_write :
  match (do_hd_request ;; hd_irqs 2) (hd_demo WRITE) with
  | Ok _ s => Some (take 1 (sector_of (sys_dev s) 0 1500), take 1 (sector_of (sys_dev s) 0 1501))
  | _ => None
  end = Some ([1], [2]).
Proof. vm_compute. reflexivity. Qed.

(** ** Witnesses *)
Lemma hd_demo_links cmd e : hd_links [0%nat] (hd_kernel cmd e).
Proof.
  split.
  - exists (mk_blk_dev (Some do_hd_request_fn) (Some 0%nat)). split; [reflexivity|].
    apply (queue_cons _ _ (demo_req cmd <| r_errors := e |>)); [reflexivity|constructor].
  - apply NoDup_singleton.
  - reflexivity.
Qed.
Lemma hd_demo_queue cmd e : 0 ≤ e < Hd.MAX_ERRORS → hd_queue [0%nat] (hd_kernel cmd e).
Proof.
  intros He. split; [apply hd_demo_links|]. intros i r ->%list_elem_of_singleton Hr.
  assert (r = demo_req cmd <| r_errors := e |>) as -> by (simpl in Hr; congruence). done.
Qed.

Lemma hd_live_correct_witness :
  ends do_hd_request (λ _, hd_live) (hd_demo READ) ∧
  (([0%nat] ≠ [] → do_hd (sys_drv (hd_demo READ <| sys_drv ::= λ d, d <| do_hd := Some recal_intr_ |> |>)) ≠ None) →
    ends hd_interrupt (λ _, hd_live) (hd_demo READ <| sys_drv ::= λ d, d <| do_hd := Some recal_intr_ |> |>)).
Proof.
  assert (Hq : hd_queue [0%nat] (hd_kernel READ 0)) by (apply hd_demo_queue; split; done).
  split; [exact (proj1 (hd_live_correct (hd_demo READ) [0%nat] Hq))|].
  exact (proj2 (hd_live_correct (hd_demo READ <| sys_drv ::= λ d, d <| do_hd := Some recal_intr_ |> |>) [0%nat] Hq)).
Defined.

Lemma hd_read_correct_witness :
  ∃ s1 s2 s3, do_hd_request (hd_demo READ) = Ok tt s1 ∧ hd_irqs 1 s1 = Ok tt s2 ∧ hd_irq s2 = do_hd_request s3 ∧
    finished 3 (hd_kernel READ 0) (sys_k s3) 0 (demo_req READ) 0
      (ended_buffer 1 (fill 0 (replicate 512 3 ++ replicate 512 4) demo_bh)) ∧
    sectors (sys_dev s3) = sectors demo_disk.
Proof.
  exact (hd_read_correct (hd_demo READ) 0 (demo_req READ) 0 demo_bh 0 1500 2 (hd_demo_request READ) eq_refl eq_refl eq_refl
    ltac:(by apply Nat.ltb_lt; vm_compute) (hd_demo_waiters READ)).
Defined.
Lemma hd_write_correct_witness :
  ∃ s1 s2 s3, do_hd_request (hd_demo WRITE) = Ok tt s1 ∧ hd_irqs 1 s1 = Ok tt s2 ∧ hd_irq s2 = do_hd_request s3 ∧
    finished 3 (hd_kernel WRITE 0) (sys_k s3) 0 (demo_req WRITE) 0 (ended_buffer 1 demo_bh) ∧
    sectors_from (sys_dev s3) 0 1500 2 = replicate 512 1 ++ replicate 512 2 ∧
    ∀ dr k, dr ≠ 0 ∨ k < 1500 ∨ 1500 + Z.of_nat 2 ≤ k → sector_of (sys_dev s3) dr k = sector_of demo_disk dr k.
Proof.
  exact (hd_write_correct (hd_demo WRITE) 0 (demo_req WRITE) 0 demo_bh 0 1500 2 (hd_demo_request WRITE) eq_refl eq_refl eq_refl
    ltac:(by apply Nat.ltb_lt; vm_compute) (hd_demo_waiters WRITE)).
Defined.

(** A controller whose command failed, at the seventh error of the request. *)
#[export] Instance broken : Controller unit := {|
  port_in _ d := (0x51, d); port_out _ _ d := d; port_read _ _ d := ([], d); port_write _ _ d := d
|}.
Lemma hd_interrupt_error_witness :
  let s := mk_system (hd_kernel READ 6) (demo_hd <| do_hd := Some read_intr_ |>) tt in
  ∃ s', hd_interrupt s = do_hd_request s' ∧
    finished 3 (hd_kernel READ 6) (sys_k s') 0 (demo_req READ <| r_errors := 6 |>) 0 (ended_buffer 0 demo_bh).
Proof.
  refine (hd_interrupt_error (mk_system (hd_kernel READ 6) (demo_hd <| do_hd := Some read_intr_ |>) tt)
    0 (demo_req READ <| r_errors := 6 |>) 0 demo_bh read_intr_ _ _ _ _ _ _ _ _ _).
  - reflexivity.
  - intros H. vm_compute in H. discriminate.
  - by eexists.
  - reflexivity.
  - by split.
  - reflexivity.
  - reflexivity.
  - split; [right; by eexists|split; [right; by eexists|by left]].
  - intros c' H. discriminate.
Defined.

(** ** A concrete floppy controller, and the witnesses of the floppy driver *)

Inductive fdc_phase := Taking (l : list Z) | Answering (l : list Z).
Record fdc := mk_fdc { c_outs : list (Z * Z); c_phase : fdc_phase; c_busy : nat }.

Definition rw_commandb (l : list Z) : bool :=
  (length l <? 9)%nat && match l with c :: _ => (c =? FD_READ) || (c =? FD_WRITE) | [] => false end.
Definition fdc_in (p : Z) (d : fdc) : Z * fdc :=
  if p =? FD_STATUS then
    match c_busy d with
    | S n => (0, mk_fdc (c_outs d) (c_phase d) n)
    | O => (match c_phase d with Answering (_ :: _) => 0xd0 | _ => 0x80 end, d)
    end
  else if p =? FD_DATA then
    match c_phase d with Answering (b :: l) => (b, mk_fdc (c_outs d) (Answering l) (c_busy d)) | _ => (0, d) end
  else (0, d).
Definition fdc_outb (p b : Z) (d : fdc) : fdc :=
  let o := c_outs d ++ [(p, b)] in
  if p =? FD_DATA then
    match c_phase d with
    | Taking l => mk_fdc o (if rw_commandb (l ++ [b]) then Taking (l ++ [b]) else Answering (replicate 7 0)) 3
    | Answering l => mk_fdc o (Answering l) (c_busy d)
    end
  else mk_fdc o (c_phase d) (c_busy d).
#[export] Instance fdc_ctl : Controller fdc := {|
  port_in := fdc_in; port_out := fdc_outb; port_read _ _ d := ([], d); port_write _ _ d := d
|}.

Lemma rw_commandb_true l : rw_command l → rw_commandb l = true.
Proof.
  intros [Hl Hh]. unfold rw_commandb. apply Nat.ltb_lt in Hl. rewrite Hl.
  destruct l as [|c l]; [by destruct Hh|]. destruct Hh as [[= ->]|[= ->]]; done.
Qed.
#[export] Instance fdc_ok : Fdc fdc.
Proof.
  refine {| outs := c_outs; fdc_busy := c_busy;
    fdc_cmd d := match c_phase d with Taking l => Some l | _ => None end;
    fdc_results d := match c_phase d with Answering l => Some l | _ => None end |}.
  - intros [o ph [|n]]; done.
  - intros [o [l'|l'] [|n]] l Hl Hb; simpl in *; try done.
  - intros [o [l'|l'] [|n]] l Hl Hb; simpl in *; done.
  - intros p b d Hp. simpl. unfold fdc_outb. rewrite (proj2 (Z.eqb_neq _ _) Hp). done.
  - intros b [o [l'|l'] n] l Hl Hb; simpl in *; [|done]. injection Hl as ->. unfold fdc_outb. simpl.
    split; [done|]. split; [apply Nat.ltb_lt; by vm_compute|]. intros Hrw. by rewrite (rw_commandb_true _ Hrw).
  - intros [o [l'|l'] [|n]] b l Hl Hb; simpl in *; try done. by injection Hl as ->.
  - intros [o [l'|l'] [|n]] Hl Hb; simpl in *; try done. by injection Hl as ->.
Defined.

#[export] Instance demo_addresses : Addresses := {| buffer_addr _ := 0x200000; tmp_floppy_addr := 0x5000 |}.

(** Block 50 of a 1.44MB disk in drive 0: track 2, head 1, sector 11. *)
Definition fd_req (cmd : Z) : request_struct := mk_request 0x21C cmd 0 100 2 0 0xFFF000 (Some 0%nat) None.
Definition fd_bh : buffer_head :=
  mk_buffer (replicate 1024 1) 50 0x21C 0 0 1 1 0xFFE000 None None None None.
Definition fd_kernel (cmd : Z) : kernel :=
  demo <| k_buf ::= λ d, d <| buffers := [fd_bh] |> |>
    <| k_blk ::= λ d, d <| request ::= <[0%nat := fd_req cmd]> |>
         <| blk_dev ::= zinsert 2 (mk_blk_dev (Some do_fd_request_fn) (Some 0%nat)) |> |>
    <| k_sched ::= λ t, t <| current_DOR := 0x1C |> |>.
Definition fd_ready : fd_state := boot_fd <| current_track := 2 |> <| cur_spec1 := 0xCF |> <| cur_rate := 0 |>.
Definition fd_idle : fdc := mk_fdc [] (Taking []) 3.
Definition fd_disk : floppy_struct := mk_floppy 2880 18 2 80 0 0x1B 0x00 0xCF.

Lemma fd_demo_request cmd : cmd = READ ∨ cmd = WRITE → fd_request_at (fd_kernel cmd) 0 (fd_req cmd) 0 fd_bh fd_disk.
Proof. intros Hc. split; try reflexivity; [by eexists|done|exact Hc|simpl; lia]. Qed.

(** Evaluated: the DMA chip is sent 0x5000, the controller track 2, head 1 and
    sector 11. *)
Example fd_demo_read :
  match do_fd_request (mk_system (fd_kernel READ) fd_ready fd_idle) with
  | Ok _ s => c_outs (sys_dev s)
  | _ => []
  end = [(10, 6); (12, 0x46); (11, 0x46); (4, 0); (4, 0x50); (0x81, 0); (5, 0xff); (5, 3); (10, 2);
         (FD_DATA, 0xE6); (FD_DATA, 4); (FD_DATA, 2); (FD_DATA, 1); (FD_DATA, 11); (FD_DATA, 2); (FD_DATA, 18);
         (FD_DATA, 0x1B); (FD_DATA, 0xFF)].
Proof. vm_compute. reflexivity. Qed.

Lemma fd_demo_ok : fd_ok [0%nat] (mk_system (fd_kernel READ) fd_ready fd_idle).
Proof.
  split; [split; [split|]|].
  - exists (mk_blk_dev (Some do_fd_request_fn) (Some 0%nat)). split; [reflexivity|].
    apply (queue_cons _ _ (fd_req READ)); [reflexivity|constructor].
  - apply NoDup_singleton.
  - reflexivity.
  - intros i r ->%list_elem_of_singleton Hr. assert (r = fd_req READ) as -> by (simpl in Hr; congruence). done.
  - exists []. split; [reflexivity|constructor|constructor|]. intros i t Ht.
    assert (t_fn t = 0) as ->; [|split; [done|by intros ?%not_elem_of_nil]].
    change (replicate TIME_REQUESTS (mk_timer 0 0 None) !! i = Some t) in Ht. apply lookup_replicate in Ht as [-> _]. done.
Qed.

(** ** Witnesses *)
Lemma fd_live_correct_witness :
  ends do_fd_request (λ _, fd_live) (mk_system (fd_kernel READ) fd_ready fd_idle) ∧
  ends (floppy_timer transfer_fn) (λ _, fd_live) (mk_system (fd_kernel READ) fd_ready fd_idle).
Proof.
  split; [exact (proj1 (fd_live_correct _ _ fd_demo_ok))|].
  exact (proj2 (proj2 (fd_live_correct _ _ fd_demo_ok)) transfer_fn (or_introl eq_refl)).
Defined.
Lemma fd_command_correct_witness :
  ∃ h' d', do_fd_request (mk_system (fd_kernel WRITE) fd_ready fd_idle) =
      Ok tt (mk_system (fd_kernel WRITE <| k_sched ::= on_sched 0 |>) h' d') ∧
    do_floppy h' = Some rw_interrupt_ ∧
    h' = dma_area 0 (fd_req WRITE) fd_bh (placed (fd_req WRITE) fd_disk fd_ready) <| do_floppy := Some rw_interrupt_ |> ∧
    outs d' = [] ++ dma_program DMA_WRITE 0x5000 ++ (pair FD_DATA <$> [FD_WRITE; 4; 2; 1; 11; 2; 18; 0x1B; 0xFF]).
Proof.
  refine (proj1 (fd_command_correct (fd_kernel WRITE) fd_ready fd_idle 0 (fd_req WRITE) 0 fd_bh fd_disk
    (fd_demo_request WRITE (or_intror eq_refl)) _ _ eq_refl _)).
  - repeat split; done.
  - repeat split; reflexivity.
  - apply Nat.ltb_lt. vm_compute. reflexivity.
Defined.
Lemma fd_done_correct_witness :
  let h := fd_ready <| do_floppy := Some rw_interrupt_ |> <| command := FD_READ |> <| tmp_floppy_area := replicate 1024 7 |> in
  ∃ K' h' d', floppy_interrupt (mk_system (fd_kernel READ) h (mk_fdc [] (Answering [0; 0; 0; 2; 1; 13; 2]) 0)) =
      do_fd_request (mk_system K' h' d') ∧
    finished 2 (fd_kernel READ) K' 0 (fd_req READ) 0 (ended_buffer 1 (fill 0 (replicate 1024 7) fd_bh)).
Proof.
  intros h. refine (fd_done_correct (fd_kernel READ) h (mk_fdc [] (Answering [0; 0; 0; 2; 1; 13; 2]) 0) 0 (fd_req READ) 0 fd_bh
    fd_disk 0 0 0 [2; 1; 13; 2] (fd_demo_request READ (or_introl eq_refl)) _ _ _ _ _ _ _ _ _ _ _); try reflexivity.
  - split; [right; by eexists|split; [right; by eexists|by left]].
  - by left.
Defined.
