(* ===== verification/FsExamples.v ===== *)
(** * Witnesses of the buffer cache and the file system

    Concrete states at which the theorems on the buffer cache, pipes, names and
    descriptors apply. *)

From stdpp Require Import base option list gmap strings.
From Stdlib Require Import ZArith Lia.
From S2P Require Import Prelude Types Memory Sched Kernel KernelFacts LinkFacts Blk Buffer BlockFacts BufferProofs GetblkProofs Inode FileDev UserFacts PipeProofs Namei NameiProofs Open OpenProofs Demo.
Local Open Scope Z_scope.

(** ** Witnesses: the buffer cache *)

#[local] Existing Instance demo_env.

(** Three buffers, fresh from buffer_init. *)
Definition ex_cache : kernel := demo <| k_buf ::= init_cache 3 |>.
Lemma ex_cache_ok : cache_ok (k_buf ex_cache) (λ _, []) (seq 0 3).
Proof. by apply init_cache_ok. Qed.

Lemma find_buffer_correct_witness :
  ∃ r, find_buffer 0x301 7 (k_buf ex_cache) = Ok r (k_buf ex_cache) ∧ holds (k_buf ex_cache) 0x301 7 r.
Proof. apply (find_buffer_correct _ (λ _, []) (seq 0 3)); [apply ex_cache_ok|lia|lia]. Defined.

(** Block 7 of device 0x301 is not in the cache yet. *)
Lemma getblk_correct_witness :
  ∃ b K' ch' fr', getblk 0x301 7 ex_cache = Ok b K' ∧ cache_ok (k_buf K') ch' fr' ∧
    getblk_post ex_cache K' 0x301 7 b.
Proof.
  apply (getblk_correct ex_cache (λ _, []) (seq 0 3)).
  - simpl. lia.
  - apply ex_cache_ok.
  - apply init_cache_badness.
  - unfold ex_cache, set. simpl. lia.
  - lia.
  - lia.
  - intros b x Hx _. apply lookup_init_cache_inv in Hx as [_ ->]. reflexivity.
  - exists 0%nat. apply init_cache_spare. lia.
Defined.
(** The same block is found again in the same buffer; another block of its
    hash slot takes the next one. *)
Example ex_getblk :
  match (a ← getblk 0x301 7; b ← getblk 0x301 (7 + 307 * 2); c ← getblk 0x301 7; mret [a; b; c]) ex_cache with
  | Ok l K => (l, b_count <$> buffers (k_buf K) !! 0%nat, free_list (k_buf K))
  | _ => ([], None, None)
  end = ([0%nat; 1%nat; 0%nat], Some 2, Some 2%nat).
Proof. vm_compute. reflexivity. Qed.

Lemma buffer_init_correct_witness :
  ∃ s', buffer_init 0x28000 (k_buf demo) = Ok tt s' ∧
    cache_ok s' (λ _, []) (seq 0 (length (buffers s'))) ∧ badness_ok s' ∧ ∀ b, valid s' b → spare s' b.
Proof. apply (buffer_init_correct (k_buf demo) 0x28000). vm_compute. congruence. Defined.

(** ** Witnesses: pipes *)

#[local] Existing Instance demo_env.

(** A pipe whose four bytes wrap around the end of its page; its other end is
    closed. *)
Definition ex_pipe_inode : m_inode :=
  zero_inode <| i_size := 0x200000 |> <| i_count := 1 |> <| i_pipe := 1 |>
    <| i_zone := [2; 4094; 0; 0; 0; 0; 0; 0; 0] |>.
Definition ex_pipe : kernel :=
  demo <| k_fs ::= λ d, d <| inode_table ::= <[2%nat := ex_pipe_inode]> |> |>
       <| k_mm ::= λ m, mem_write [3; 4] 0x200000 (mem_write [1; 2] 0x200ffe m) |>
       <| k_user := user_write [7; 8; 9] 500 ∅ |>.

Lemma ex_pipe_holds : pipe_holds ex_pipe 2 ex_pipe_inode [1; 2; 3; 4].
Proof.
  split; [reflexivity|]. split; [|vm_compute; reflexivity].
  by split; [simpl; lia|vm_compute; split; congruence..].
Qed.
Lemma ex_pipe_user : user_has ex_pipe 500 ([7; 8; 9] ++ []).
Proof. apply (user_has_write _ 500 ∅ ex_pipe). repeat constructor; lia. Qed.

(** Ten bytes are asked for, four are there. *)
Lemma read_pipe_correct_witness :
  ∃ s' x', read_pipe 2 100 10 ex_pipe = Ok 4 s' ∧
    pipe_holds s' 2 x' [] ∧ k_mm s' = k_mm ex_pipe ∧
    k_user s' = user_write [1; 2; 3; 4] 100 (k_user ex_pipe) ∧ i_count x' = 1 ∧
    i_wait x' = 0 ∧ awake ex_pipe_inode s'.
Proof.
  apply (read_pipe_correct ex_pipe 2 ex_pipe_inode [1; 2; 3; 4] 100 10);
    [simpl; lia|apply ex_pipe_holds|by left|lia|by right].
Defined.
Lemma write_pipe_correct_witness :
  ∃ s' x' t', write_pipe 2 500 3 ex_pipe = Ok 3 s' ∧
    pipe_holds s' 2 x' [1; 2; 3; 4; 7; 8; 9] ∧
    k_user s' = k_user ex_pipe ∧ i_count x' = 1 ∧
    cur_is s' t' ∧ signal t' = signal demo_task ∧ i_wait x' = 0 ∧ awake ex_pipe_inode s'.
Proof.
  apply (write_pipe_correct ex_pipe 2 ex_pipe_inode [1; 2; 3; 4] 500 [7; 8; 9] [] demo_task);
    [simpl; lia|apply ex_pipe_holds|by left|apply ex_pipe_user|reflexivity|by right].
Defined.

(** ** Witnesses: permissions, directory entries, path names *)

#[local] Existing Instance demo_env.

(** The demo task may not write the file of mode 0644 of user 100: its
    effective user is 200. *)
Lemma permission_correct_witness :
  ∃ ok, permission 0 MAY_WRITE demo = Ok ok demo ∧
    (ok = true ↔ ¬ (i_dev demo_inode ≠ 0 ∧ i_nlinks demo_inode = 0) ∧
                 (euid demo_task = 0 ∨ grants demo_inode demo_task MAY_WRITE)).
Proof. apply (permission_correct demo demo_task 0 demo_inode); [reflexivity..|unfold MAY_WRITE; lia]. Defined.
Example ex_permission :
  (λ r, match r with Ok ok _ => ok | _ => true end) <$>
    [permission 0 MAY_WRITE demo; permission 0 MAY_READ demo; permission 0 MAY_EXEC demo] = [false; true; false].
Proof. vm_compute. reflexivity. Qed.

(** "/passwd" at address 100; a buffer with the entry "pass" of inode 7; the
    task's root is inode 1, a directory. *)
Definition ex_name : list Z := [112; 97; 115; 115; 119; 100].
Definition ex_entries : list Z := put16 7 ++ take 4 ex_name ++ replicate 1018 0.
Definition ex_buffer : buffer_head := mk_buffer ex_entries 5 0x301 1 0 1 0 0 None None None None.
Definition ex_dir : m_inode := demo_inode <| i_mode := 0x41ed |>.
Definition ex_namei : kernel :=
  demo <| k_user := user_write (47 :: ex_name ++ [0]) 100 ∅ |>
       <| k_buf ::= λ d, d <| buffers := [ex_buffer] |> |>
       <| k_fs ::= λ d, d <| inode_table ::= <[1%nat := ex_dir]> |> |>
       <| k_sched ::= λ d, d <| tasks ::=
            <[0xFFE000 := demo_task <| root := Some 1%nat |> <| pwd := Some 1%nat |>]> |> |>.

Lemma ex_name_bytes : Forall (λ x, 0 ≤ x < 256) (47 :: ex_name ++ [0]).
Proof. repeat constructor; lia. Qed.
Lemma ex_name_at_100 : user_has ex_namei 100 (47 :: ex_name ++ [0]).
Proof. apply (user_has_write _ 100 ∅ ex_namei ex_name_bytes). Qed.
Lemma ex_name_at_101 : user_has ex_namei 101 (ex_name ++ [0]).
Proof. apply (proj1 (user_has_cons ex_namei 100 47 (ex_name ++ [0])) ex_name_at_100). Qed.
Lemma ex_name_nonzero : Forall (λ x, x ≠ 0) ex_name.
Proof. repeat constructor; lia. Qed.
Lemma ex_entries_length : length (b_data ex_buffer) = 1024%nat.
Proof. reflexivity. Qed.

(** "pass" is not "passwd". *)
Lemma match_correct_witness :
  ∃ m, match_ 6 101 (0%nat, 0%nat) ex_namei = Ok m ex_namei ∧
    (m = true ↔ de_inode (b_data ex_buffer) 0 ≠ 0 ∧ (length ex_name ≤ NAME_LEN)%nat ∧
                c_string (de_name (b_data ex_buffer) 0) = ex_name).
Proof.
  apply (match_correct ex_namei 0 0 ex_buffer 101 ex_name [0]);
    [reflexivity|apply ex_entries_length|lia|apply ex_name_at_101|apply ex_name_nonzero].
Defined.
Example ex_match :
  (λ r, match r with Ok ok _ => ok | _ => true end) <$>
    [match_ 6 101 (0%nat, 0%nat) ex_namei; match_ 4 101 (0%nat, 0%nat) ex_namei;
     match_ 3 101 (0%nat, 0%nat) ex_namei] = [false; true; false].
Proof. vm_compute. reflexivity. Qed.

Lemma new_entry_found_witness :
  ∃ s' y', (fill_name (0%nat, 1%nat) 101 6 ;; set_de_inode (0%nat, 1%nat) 9) ex_namei = Ok tt s' ∧
    buf_is s' 0 y' ∧ b_dirt y' = 1 ∧ length (b_data y') = 1024%nat ∧
    de_inode (b_data y') 1 = 9 ∧
    match_ 6 101 (0%nat, 1%nat) s' = Ok true s' ∧
    ∀ k', (k' < 64)%nat → k' ≠ 1%nat →
      de_inode (b_data y') k' = de_inode (b_data ex_buffer) k' ∧
      de_name (b_data y') k' = de_name (b_data ex_buffer) k'.
Proof.
  apply (new_entry_found ex_namei 0 1 ex_buffer 101 9 ex_name [0]);
    [reflexivity|apply ex_entries_length|lia|apply ex_name_at_101|apply ex_name_nonzero|unfold NAME_LEN; simpl; lia|lia].
Defined.

Lemma path_fuel_enough n : Z.of_nat n <? 65536 = true → (n < path_fuel)%nat.
Proof. intros H%Z.ltb_lt. unfold path_fuel. lia. Qed.

(** get_dir of "/passwd" is the root directory. *)
Definition ex_got : kernel :=
  ex_namei <| k_fs ::= λ d, d <| inode_table ::= <[1%nat := ex_dir <| i_count := 2 |>]> |> |>.
Lemma ex_got_at_100 : user_has ex_got 100 ((47 :: ex_name) ++ 0 :: []).
Proof. apply (user_has_write _ 100 ∅ ex_got ex_name_bytes). Qed.
Lemma ex_get_dir : get_dir 100 ex_namei = Ok (Some 1%nat) ex_got.
Proof. vm_compute. reflexivity. Qed.
Lemma dir_namei_correct_witness :
  ∃ d, dir_namei 100 ex_namei =
         Ok (Some (1%nat, Z.of_nat (length (drop d (47 :: ex_name))), 100 + Z.of_nat d)) ex_got ∧
       last_component (47 :: ex_name) d.
Proof.
  apply (dir_namei_correct ex_namei ex_got 100 1 (47 :: ex_name) []);
    [apply ex_get_dir|apply ex_got_at_100|repeat constructor; lia|apply path_fuel_enough; reflexivity].
Defined.
Example ex_dir_namei :
  match dir_namei 100 ex_namei with Ok r _ => r | _ => None end = Some (1%nat, 6, 101).
Proof. vm_compute. reflexivity. Qed.

Lemma scan_name_correct_witness : scan_name path_fuel 101 0 ex_namei = Ok (0, 108, 6) ex_namei.
Proof.
  apply (scan_name_correct ex_namei 101 ex_name [] 0);
    [apply ex_name_at_101|repeat constructor; lia|by left|apply path_fuel_enough; reflexivity].
Defined.

(** ** Witnesses: descriptors *)

Lemma demo_filp_ok : filp_ok demo demo_task.
Proof.
  split; [reflexivity|]. intros fd f H.
  change (filp demo_task) with (<[3%nat := Some 0%nat]> (replicate NR_OPEN (@None nat))) in H.
  apply list_lookup_insert_Some in H as [(_ & [= <-] & _)|[_ H]].
  - by eexists.
  - by apply lookup_replicate_1 in H as [? _].
Qed.

(** dup of descriptor 3 gives descriptor 0. *)
Lemma dupfd_correct_witness :
  ∃ r s', dupfd 3 0 demo = Ok r s' ∧
    match Some 0%nat with
    | None => r = - EBADF ∧ s' = demo
    | Some f =>
        (Z.of_nat NR_OPEN ≤ 0 ∧ r = - EINVAL ∧ s' = demo) ∨
        (0 < Z.of_nat NR_OPEN ∧ r = - EMFILE ∧ s' = demo ∧
         ∀ j, (Z.to_nat 0 ≤ j < NR_OPEN)%nat → ∃ g, filp demo_task !! j = Some (Some g)) ∨
        (∃ k t', r = Z.of_nat k ∧ 0 ≤ r < Z.of_nat NR_OPEN ∧ filp demo_task !! k = Some None ∧
         (∀ j, (Z.to_nat 0 ≤ j < k)%nat → ∃ g, filp demo_task !! j = Some (Some g)) ∧
         cur_is s' t' ∧ filp t' = <[k := Some f]> (filp demo_task) ∧
         close_on_exec t' = Z.clearbit (close_on_exec demo_task) (Z.of_nat k) ∧
         (counts_exact demo → counts_exact s'))
    end.
Proof.
  apply (dupfd_correct demo demo_task 3 0); [reflexivity|apply demo_filp_ok|lia|lia|].
  intros f x H. change (file_table (k_fs demo)) with
    (demo_file :: replicate (NR_FILE - 1) (mk_file 0 0 0 None 0)) in H.
  destruct f as [|f]; [injection H as <-; simpl; lia|].
  apply lookup_replicate_1 in H as [-> _]. simpl. lia.
Defined.

Example ex_dupfd :
  match dupfd 3 5 demo with
  | Ok r s => (r, (λ t, filp t !! 5%nat) <$> tasks (k_sched s) !! 0xFFE000, f_count <$> file_table (k_fs s) !! 0%nat)
  | _ => (0, None, None)
  end = (5, Some (Some (Some 0%nat)), Some 2).
Proof. vm_compute. reflexivity. Qed.

(** The file of [demo] with descriptor 3 also open as descriptor 4. *)
Definition ex_shared_task : task_struct := demo_task <| filp ::= <[4%nat := Some 0%nat]> |>.
Definition ex_shared_file : file := demo_file <| f_count := 2 |>.
Definition ex_shared : kernel :=
  demo <| k_sched ::= λ d, d <| tasks ::= <[0xFFE000 := ex_shared_task]> |> |>
       <| k_fs ::= λ d, d <| file_table ::= <[0%nat := ex_shared_file]> |> |>.

#[local] Existing Instance demo_env.

Lemma sys_close_shared_witness :
  ∃ s' t', sys_close 4 ex_shared = Ok 0 s' ∧ cur_is s' t' ∧
    filp t' = <[4%nat := None]> (filp ex_shared_task) ∧
    close_on_exec t' = Z.clearbit (close_on_exec ex_shared_task) 4 ∧
    file_table (k_fs s') !! 0%nat = Some (ex_shared_file <| f_count := 1 |>) ∧
    (counts_exact ex_shared → counts_exact s').
Proof.
  apply (sys_close_shared ex_shared ex_shared_task 4 0 ex_shared_file);
    [reflexivity|unfold NR_OPEN; lia|reflexivity|reflexivity|simpl; lia].
Defined.

(** lseek(3, -10, SEEK_END) on a file of 5000 bytes. *)
Lemma sys_lseek_correct_witness :
  sys_lseek 3 (-10) 2 demo = Ok 4990 (set_file 0 (demo_file <| f_pos := 4990 |>) demo).
Proof.
  apply (sys_lseek_correct demo demo_task 3 0 demo_file 0 demo_inode (-10) 2);
    first [reflexivity|unfold NR_OPEN; lia|vm_compute; split; congruence].
Defined.
