(* ===== verification/Examples.v ===== *)
(** * Witnesses of the system calls, the request queue, inodes, bitmaps, fork,
    signals, terminals, the scheduler, exceptions, the boot, the call path and
    the console *)

From Stdlib Require Import ZArith Lia Ascii String.
From stdpp Require Import base option list gmap strings.
From S2P Require Import Prelude Types TimerProofs Memory Mktime Screen ConsoleFacts Sched SchedProofs Kernel KernelFacts Blk Ports BlkProofs Buffer BlockFacts Inode InodeProofs FileDev Tty Open Fork ForkProofs Exit SignalProofs TtyProofs Sys Traps TrapsProofs SysProofs Hd Floppy FloppyLive Main MainProofs Syscall SyscallProofs Demo.
From S2P Require Import ScreenProofs ScreenSpec ScreenRefine Console ConsoleProofs.
Local Open Scope Z_scope.

(** ** A concrete task table: task 0 and one other task, whose time has run
    out; two timers pending *)

Definition ex_task0 : task_struct := INIT_TASK 0x1000 0.
Definition ex_task1 : task_struct :=
  ex_task0 <| pid := 1 |> <| father := 0 |> <| counter := 0 |> <| alarm := 5 |>.
Definition ex_timers : list timer :=
  mk_timer 3 0x2000 (Some 1%nat) :: mk_timer 4 0x3000 None ::
  replicate (TIME_REQUESTS - 2) (mk_timer 0 0 None).
Definition ex_sched : sched_state := {|
  init_task := 0x1000;
  tasks := {[ 0x1000 := ex_task0; 0xFFF000 := ex_task1 ]};
  task := 0x1000 :: 0xFFF000 :: replicate (NR_TASKS - 2) 0;
  current := 0x1000; last_task_used_math := 0; jiffies := 10; startup_time := 0;
  wait_motor := [0;0;0;0]; mon_timer := [0;0;0;0]; moff_timer := [0;0;0;0];
  current_DOR := 0x0C; selected := 0; dor_writes := [];
  timer_list := ex_timers; next_timer := Some 0%nat; beepcount := 0; last_pid := 1; gdt := ∅;
  idt := replicate 256 (mk_desc 0 0); fpu := mk_i387 0 0 0 0 0 0 0 (replicate 20 0); cr0_ts := true
|}.

Lemma ex_task_slot i p : task ex_sched !! i = Some p →
  i = 0%nat ∧ p = 0x1000 ∨ i = 1%nat ∧ p = 0xFFF000 ∨ p = 0.
Proof.
  destruct i as [|[|i]]; intros H.
  - injection H as <-. by left.
  - injection H as <-. right. by left.
  - apply lookup_replicate_1 in H as [-> _]. by right; right.
Qed.
Lemma ex_sched_wf : sched_wf ex_sched.
Proof.
  split.
  - reflexivity.
  - intros i j p Hi%ex_task_slot Hj%ex_task_slot. lia.
  - intros i p Hi%ex_task_slot Hnz. destruct Hi as [[_ ->]|[[_ ->]|]]; [by eexists|by eexists|done].
  - intros i p t (Hr & Hi%ex_task_slot & Hnz & Ht).
    destruct Hi as [[-> ->]|[[-> ->]|]]; [lia| |done].
    vm_compute in Ht. injection Ht as <-. vm_compute. intuition discriminate.
Qed.


Example ex_schedule_runs :
  match schedule ex_sched with
  | Ok _ s => (current s, counter <$> tasks s !! 0xFFF000, signal <$> tasks s !! 0xFFF000)
  | _ => (0, None, None)
  end = (0xFFF000, Some 15, Some (_S SIGALRM)).
Proof. vm_compute. reflexivity. Qed.

Lemma ex_timers_wf : timers_wf ex_sched [0; 1]%nat.
Proof.
  split.
  - reflexivity.
  - econstructor; [reflexivity|]. econstructor; [reflexivity|]. constructor.
  - by apply (bool_decide_unpack _).
  - intros i t Ht. destruct i as [|[|i]].
    + injection Ht as <-. split; [|done]. left.
    + injection Ht as <-. split; [|done]. right. left.
    + apply lookup_replicate_1 in Ht as [-> _]. split; [done|].
      intros [?|[?|?%elem_of_nil]%elem_of_cons]%elem_of_cons; done.
Qed.

(** Five ticks from now falls between the two pending timers: the second one
    moves from 7 to 9 ticks. *)
Lemma add_timer_correct_witness :
  ∃ s' l' pre post d,
    add_timer (λ _, mret tt) 5 0x4000 ex_sched = Ok tt s' ∧ timers_wf s' l' ∧
    timers ex_sched [0; 1]%nat = pre ++ post ∧
    expiry 0 (timers ex_sched [0; 1]%nat) = expiry 0 pre ++ expiry (span pre) post ∧
    expiry 0 (timers s' l') =
      expiry 0 pre ++ (5, 0x4000) :: ((λ e, (e.1 + d, e.2)) <$> expiry (span pre) post) ∧
    0 < d ∧ span pre + d = 5 ∧ (∀ e, head (expiry (span pre) post) = Some e → 5 ≤ e.1).
Proof.
  refine (add_timer_correct (λ _, mret tt) ex_sched [0; 1]%nat 5 0x4000 ex_timers_wf _ _ _).
  - intros H. discriminate H.
  - reflexivity.
  - change (2 < 64)%nat. lia.
Defined.

Example ex_add_timer_delays :
  match add_timer (λ _, mret tt) 5 0x4000 ex_sched with
  | Ok _ s => expiry 0 (timers s [2; 0; 1]%nat)
  | _ => []
  end = [(3, 0x2000); (5, 0x4000); (9, 0x3000)].
Proof. vm_compute. reflexivity. Qed.

(** ** Witnesses for the theorems on kernel/sys.c and the boot memory map *)

Lemma demo_ids : ids_ok demo_task.
Proof. unfold ids_ok. simpl. lia. Qed.

(** The task becomes its effective user. *)
Lemma setreuid_correct_witness :
  ∃ r u e,
    sys_setreuid 200 0 demo = Ok r (set_me (with_uids u e demo_task) demo) ∧
    (r = 0 ∨ r = - EPERM) ∧
    (r = - EPERM → u = uid demo_task ∧ e = euid demo_task ∧ euid demo_task ≠ 0) ∧
    (r = 0 → u = (if 0 <? 200 then 200 else uid demo_task) ∧ e = (if 0 <? 0 then 0 else euid demo_task)) ∧
    (euid demo_task ≠ 0 → (u = uid demo_task ∨ u = euid demo_task) ∧ (e = uid demo_task ∨ e = euid demo_task)).
Proof. apply (setreuid_correct demo demo_task 200 0 demo_cur demo_ids); lia. Defined.

Lemma setregid_correct_witness :
  ∃ r g e,
    sys_setregid 10 30 demo = Ok r (set_me (with_gids g e demo_task) demo) ∧
    (r = 0 ∨ r = - EPERM) ∧
    (r = - EPERM → g = gid demo_task ∧ e = egid demo_task ∧ euid demo_task ≠ 0) ∧
    (r = 0 → g = (if 0 <? 10 then 10 else gid demo_task) ∧ e = (if 0 <? 30 then 30 else egid demo_task)) ∧
    (euid demo_task ≠ 0 → g = gid demo_task ∧ (e = gid demo_task ∨ e = egid demo_task ∨ e = sgid demo_task)).
Proof. apply (setregid_correct demo demo_task 10 30 demo_cur demo_ids); lia. Defined.

(** An id it does not own is refused. *)
Example ex_setreuid_denied :
  match sys_setreuid 300 0 demo with
  | Ok r s => (r, uid <$> tasks (k_sched s) !! 0xFFE000)
  | _ => (0, None)
  end = (- EPERM, Some 100).
Proof. vm_compute. reflexivity. Qed.

(** 16 MB: 15 MB of extended memory. *)
Lemma boot_memory_correct_witness :
  let '(memory_end, buffer_memory_end, main_memory_start) := memory_layout 15360 in
  0x100000 ≤ buffer_memory_end ∧ buffer_memory_end = main_memory_start ∧
  main_memory_start ≤ memory_end ≤ 0x1000000 ∧
  ∃ s', mem_init main_memory_start memory_end demo_mm = Ok tt s' ∧
    HIGH_MEMORY s' = memory_end ∧ phys s' = phys demo_mm ∧
    mem_map s' = map_of main_memory_start memory_end <$> seq 0 (Z.to_nat PAGING_PAGES).
Proof.
  apply (boot_memory_correct demo_mm 15360); [lia|].
  change (Z.of_nat (length (replicate (Z.to_nat PAGING_PAGES) 0)) = PAGING_PAGES).
  rewrite length_replicate. apply Z2Nat.id. done.
Defined.

(** ** Witnesses: fork, signals, bitmaps, inodes, terminals, requests *)

(** ** fork.c *)

Definition ex_fork : sched_state := demo_sched <| last_pid := 3 |>.

(** After pid 3, pids 4 and 5 are taken; slot 4 is free. *)
Lemma find_empty_process_correct_witness :
  ∃ r new, find_empty_process ex_fork = Ok r (ex_fork <| last_pid := new |>) ∧
    1 ≤ new ≤ 2147483647 ∧
    (∀ i p t, task ex_fork !! i = Some p → p ≠ 0 → tasks ex_fork !! p = Some t → pid t ≠ new) ∧
    ((∃ i, r = Z.of_nat i ∧ (1 ≤ i < NR_TASKS)%nat ∧ task ex_fork !! i = Some 0 ∧
           ∀ j, (1 ≤ j < i)%nat → task ex_fork !! j ≠ Some 0) ∨
     r = - EAGAIN ∧ ∀ j, (1 ≤ j)%nat → task ex_fork !! j ≠ Some 0).
Proof. apply (find_empty_process_correct ex_fork); [reflexivity|simpl; lia]. Defined.

Example ex_find_empty_process :
  match find_empty_process ex_fork with
  | Ok r s => (r, last_pid s)
  | _ => (0, 0)
  end = (4, 6).
Proof. vm_compute. reflexivity. Qed.

(** ** sys_kill *)

Lemma demo_slot i p : task demo_sched !! i = Some p →
  p = 0x1000 ∨ p = 0xFFF000 ∨ p = 0xFFE000 ∨ p = 0xFFD000 ∨ p = 0.
Proof.
  destruct i as [|[|[|[|i]]]]; intros H; try (injection H as <-; tauto).
  apply lookup_replicate_1 in H as [-> _]. tauto.
Qed.
Lemma demo_table_ok : table_ok demo_sched.
Proof.
  split; [reflexivity|]. split; [reflexivity|]. intros i p Hp%demo_slot Hnz.
  destruct Hp as [->|[->|[->|[->|?]]]]; [by eexists..|done].
Qed.

(** SIGTERM to the group of init: the caller may not. *)
Lemma sys_kill_correct_witness :
  ∃ r s', sys_kill (-1) 15 demo_sched = Ok r s' ∧ s' = demo_sched <| tasks := tasks s' |> ∧
    (∀ p t, tasks demo_sched !! p = Some t →
       tasks s' !! p = Some (if bool_decide (p ∈ user_tasks demo_sched) && kill_target (-1) demo_task t
                                && may_signal (-1 =? 0) demo_task t
                             then post 15 t else t)) ∧
    (r = 0 ∨ r = - EPERM ∨ r = - EINVAL ∧ -1 = -1) ∧
    (r = 0 ↔
       (∀ i p t, (1 ≤ i)%nat → task demo_sched !! i = Some p → p ≠ 0 → tasks demo_sched !! p = Some t →
          kill_target (-1) demo_task t = true → may_signal (-1 =? 0) demo_task t = true) ∧
       (-1 = -1 → ∀ i, (1 ≤ i)%nat → task demo_sched !! i ≠ Some 0)).
Proof. apply (sys_kill_correct demo_sched demo_task (-1) 15 demo_table_ok); [reflexivity|lia]. Defined.

(** kill(0, SIGTERM) by a member of the group 1 that is not its leader reaches
    nobody of the group: the code looks for the group numbered by the
    caller's pid. *)
Example ex_kill_group :
  let s := demo_sched <| tasks ::= alter (λ t, t <| pgrp := 1 |>) 0xFFE000 |> in
  match sys_kill 0 15 s with
  | Ok r s => (r, signal <$> tasks s !! 0xFFF000, signal <$> tasks s !! 0xFFE000)
  | _ => (1, None, None)
  end = (0, Some 0, Some 0).
Proof. vm_compute. reflexivity. Qed.

(** kill(-1, SIGTERM) by the superuser reports EINVAL although it reached
    every task, as some slot is empty. *)
Example ex_kill_all :
  let s := demo_sched <| tasks ::= alter (λ t, t <| euid := 0 |>) 0xFFE000 |> in
  match sys_kill (-1) 15 s with
  | Ok r s => (r, signal <$> tasks s !! 0xFFF000, signal <$> tasks s !! 0xFFE000)
  | _ => (1, None, None)
  end = (- EINVAL, Some 16384, Some 16384).
Proof. vm_compute. reflexivity. Qed.

(** ** bitmaps *)

Definition ex_block : list Z := 255 :: 0x37 :: replicate 1022 0.
Lemma ex_block_ok : block_ok ex_block.
Proof.
  split; [reflexivity|]. do 2 (apply Forall_cons; split; [lia|]). apply Forall_replicate. lia.
Qed.
Definition ex_buffer (data : list Z) : buffer_head := mk_buffer data 3 0x301 1 0 1 0 0 None None (Some 0%nat) (Some 0%nat).
Definition ex_maps : kernel := demo <| k_buf ::= λ d, d <| buffers := [ex_buffer ex_block] |> |>.

Lemma scan_maps_correct_witness :
  ∃ i b j, scan_maps [None; Some 0%nat] 0 None 8192 ex_maps = Ok (Z.of_nat i, b, j) ex_maps ∧ (i ≤ length [None; Some 0%nat])%nat ∧
    (∀ i' b' n, (i' < i)%nat → [None; Some 0%nat] !! i' = Some (Some b') → 0 ≤ n < 8192 →
       test_bit n (map_data ex_maps b') = true) ∧
    ((i < length [None; Some 0%nat])%nat →
       ∃ b', b = Some b' ∧ [None; Some 0%nat] !! i = Some (Some b') ∧ 0 ≤ j < 8192 ∧
         test_bit j (map_data ex_maps b') = false ∧ (∀ n, 0 ≤ n < j → test_bit n (map_data ex_maps b') = true)).
Proof.
  apply (scan_maps_correct ex_maps [None; Some 0%nat]). intros b Hb.
  apply elem_of_cons in Hb as [?|Hb]; [done|]. apply list_elem_of_singleton in Hb as [= ->].
  exists (ex_buffer ex_block). split; [reflexivity|exact ex_block_ok].
Defined.
Example ex_scan : find_first_zero ex_block = 11.
Proof. vm_compute. reflexivity. Qed.

Lemma bit_roundtrip_witness :
  (set_bit 11 ex_block).1 = false ∧
  let l' := (set_bit 11 ex_block).2 in
  block_ok l' ∧ (∀ m, 0 ≤ m < 8192 → test_bit m l' = bool_decide (m = 11) || test_bit m ex_block) ∧
  clear_bit 11 l' = (false, ex_block) ∧ (set_bit 11 l').1 = true.
Proof. apply (bit_roundtrip ex_block 11 ex_block_ok); [lia|reflexivity]. Defined.

(** ** inodes on disk *)

Definition ex_super : super_block_struct :=
  mk_super 1000 3000 1 1 36 0 1000000 SUPER_MAGIC [] [] 0x301 None None 0 0 0 0 0.
Lemma inode_slot_roundtrip_witness :
  let '(block, k) := inode_block ex_super 9 in
  let l' := splice (inode_offset k) (d_inode_bytes demo_inode) ex_block in
  length l' = 1024%nat ∧
  set_d_inode (slice (inode_offset k) D_INODE_SIZE l') zero_inode = with_disk_fields demo_inode zero_inode ∧
  ∀ num', 1 ≤ num' < 65536 → num' ≠ 9 →
    s_imap_blocks ex_super + s_zmap_blocks ex_super < 100000 → 0 ≤ s_imap_blocks ex_super → 0 ≤ s_zmap_blocks ex_super →
    let '(block', k') := inode_block ex_super num' in
    (block', k') ≠ (block, k) ∧
    (block' = block → slice (inode_offset k') D_INODE_SIZE l' = slice (inode_offset k') D_INODE_SIZE ex_block).
Proof.
  apply (inode_slot_roundtrip ex_super 9 demo_inode zero_inode ex_block); [lia|reflexivity|].
  unfold d_fields_ok. simpl. repeat split; try lia. repeat (apply Forall_cons; split; [lia|]). apply Forall_nil. done.
Defined.

(** ** the line discipline *)

(** The user types a, b, rubout, c, carriage return. *)
Definition typed : list Z := [97; 98; 127; 99; 13].
Definition ex_tty0 : tty_struct :=
  default (rs_tty 0) (init_tty_table !! 0%nat) <| read_q := foldl (λ q c, PUTCH c q) (empty_queue 0) typed |>.
Definition ex_typed : kernel := demo <| k_tty ::= λ d, d <| tty_table := [ex_tty0] |> |>.

Lemma ex_tview : tview ex_typed 0 ex_tty0 typed [].
Proof.
  split; [exact demo_table_ok|]. exists ex_tty0. split; [reflexivity|].
  split; [done|]. split; [split; [|split]; vm_compute; intuition discriminate|].
  split; [split; [|split]; vm_compute; intuition discriminate|].
  split; [vm_compute; reflexivity|]. split; [vm_compute; reflexivity|]. split; [by left|].
  split; [reflexivity|]. split; [split; [|split]; vm_compute; intuition discriminate|].
  split; [apply not_elem_of_nil|discriminate].
Qed.
Example ex_edited : foldl (edit ex_tty0) [] typed = [97; 99; 10].
Proof. vm_compute. reflexivity. Qed.

(** ** the elevator *)

Definition ex_request (sector : Z) (next : option nat) : request_struct :=
  mk_request 0x301 READ 0 sector 2 0 0 None next.
Definition ex_blk : kernel := demo <| k_blk ::= λ d, d
  <| request := [ex_request 10 (Some 1%nat); ex_request 30 None; ex_request 20 None] |>
  <| blk_dev ::= zinsert 3 (mk_blk_dev None (Some 0%nat)) |> |>.
Lemma add_request_elevator_witness :
  ∃ s' pre post, @add_request demo_env 3 2 ex_blk = Ok tt s' ∧ [1%nat] = pre ++ post ∧
    blk_queue s' 3 (0%nat :: pre ++ 2%nat :: post) ∧
    (descents (R_of (request (k_blk s')) <$> 0%nat :: pre ++ 2%nat :: post) ≤ 1)%nat.
Proof.
  apply (@add_request_elevator demo_env ex_blk 3 2 (ex_request 20 None) 0 [1%nat]).
  - exists (mk_blk_dev None (Some 0%nat)). split; [vm_compute; reflexivity|].
    eapply queue_cons; [reflexivity|]. eapply queue_cons; [reflexivity|]. apply queue_nil.
  - apply (bool_decide_unpack (NoDup [0%nat; 1%nat])). vm_compute. exact I.
  - unfold NR_REQUEST. simpl. lia.
  - reflexivity.
  - done.
  - intros i Hi. repeat (apply elem_of_cons in Hi as [->|Hi]; [done|]). by apply elem_of_nil in Hi.
  - vm_compute. lia.
Defined.

(** ** exceptions and the coprocessor *)

(** Two tasks load different control words. *)
Definition load (w : Z) : fpu_event := Op (λ f, mk_i387 w (swd f) (twd f) (fip f) (fcs f) (foo f) (fos f) (st_space f)).
Definition ex_math : list fpu_event := [load 1; Switch 1; load 2; Switch 2; Op id].
Lemma demo_math : math_ok demo_sched.
Proof. split; [split|]; [done|by eexists|done|done]. Qed.
Lemma math_refines_witness :
  ∃ s', for_each ex_math fpu_step demo_sched = Ok tt s' ∧ math_ok s' ∧
    task s' = task demo_sched ∧ without_math <$> tasks s' = without_math <$> tasks demo_sched ∧
    own_run (task demo_sched) ex_math (current demo_sched) (vfpu demo_sched) (current s') (vfpu s').
Proof.
  apply (math_refines ex_math demo_sched demo_math). intros n Hn. unfold ex_math, load in Hn.
  repeat (apply elem_of_cons in Hn as [Hn|Hn];
    [first [discriminate Hn|injection Hn as ->; eexists; split; [reflexivity|by eexists]]|]).
  by apply elem_of_nil in Hn.
Defined.
(** The first task gets its control word back, although the second changed it. *)
Example ex_math_kept :
  match for_each ex_math fpu_step demo_sched with Ok _ s => cwd (fpu s) = 1 | _ => False end.
Proof. vm_compute. reflexivity. Qed.

(** After execve() nobody owns the 387 but it does not trap either: what the new
    program loads is lost at the next switch. *)
Definition ex_after_exec : sched_state := demo_sched <| cr0_ts := false |>.
Example ex_math_lost :
  match for_each ex_math fpu_step ex_after_exec with Ok _ s => cwd (fpu s) = 0x037f | _ => False end.
Proof. vm_compute. reflexivity. Qed.

(** A board without devices. *)
#[local] Instance no_device : Controller unit := {|
  port_in _ d := (0xff, d); port_out _ _ d := d; port_read _ n d := (replicate (2 * n) 0xff, d); port_write _ _ d := d |}.
#[local] Instance ex_linked : Linked := {| entry_addr e := match e with system_call_ => 0x12345678 | _ => 0x6000 end |}.
#[local] Instance ex_linked_ok : LinkedOk.
Proof. intros e. by destruct e. Qed.
#[local] Instance ex_cpu_387 : Cpu := {| cr0_em := false |}.
Definition ex_ignore : list (Z * Z * entry) := replicate 256 (14, 0, ignore_int).
Definition ex_board : io_system unit unit :=
  mk_system (demo <| k_sched ::= λ d, d <| idt := desc_of <$> ex_ignore |> |>) tt tt.
Lemma trap_init_correct_witness :
  ∃ s', trap_init ex_board = Ok tt s' ∧
    (∀ n, (n < 48)%nat →
      (∃ d, idt (k_sched (sys_k s')) !! n = Some d ∧ leads_to d 15 (int_dpl n) (entry_of n)) ∧
      (n ∉ survivable → ∀ err cr2 eax r (s1 : io_system unit unit),
        @exception demo_env _ _ _ _ (entry_of n) err cr2 eax r s1 = (zoom sys_k (@do_exit demo_env 11) ;; mret r) s1) ∧
      (n = 1%nat ∨ n = 3%nat → ∀ err cr2 eax r (s1 : io_system unit unit),
        @exception demo_env _ _ _ _ (entry_of n) err cr2 eax r s1 = Ok r s1)) ∧
    (∀ n, (48 ≤ n)%nat → idt (k_sched (sys_k s')) !! n = idt (k_sched (sys_k ex_board)) !! n).
Proof. apply (@trap_init_correct _ _ demo_env _ _ _ _ ex_board ex_ignore); reflexivity. Defined.

(** ** the boot *)

(** Two interrupt controllers and a CMOS clock. *)
Record board := mk_board { b_mask1 : Z; b_mask2 : Z; b_select : Z; b_clock : tm }.
Definition board_in_port (p : Z) (b : board) : Z :=
  if p =? 0x21 then u8 (b_mask1 b) else if p =? 0xA1 then u8 (b_mask2 b) else
  if p =? 0x71 then default 0 (snd <$> list_find (λ r, r.1 = b_select b) (clock_regs (b_clock b)) ≫= λ r, Some r.2)
  else 0xff.
Definition board_out_port (p v : Z) (b : board) : board :=
  if p =? 0x21 then mk_board v (b_mask2 b) (b_select b) (b_clock b) else
  if p =? 0xA1 then mk_board (b_mask1 b) v (b_select b) (b_clock b) else
  if p =? 0x70 then mk_board (b_mask1 b) (b_mask2 b) (Z.land v 0x7f) (b_clock b) else b.
#[local] Instance ex_controller : Controller board := {|
  port_in p b := (board_in_port p b, b); port_out := board_out_port;
  port_read _ n b := (replicate (2 * n) 0xff, b); port_write _ _ b := b |}.
#[local] Instance ex_pc : Board board.
Proof.
  refine {| irq_mask p b := u8 (if p =? 0x21 then b_mask1 b else b_mask2 b); board_date := b_clock |}.
  - intros. apply u8_bound.
  - by intros p d [-> | ->].
  - done.
  - intros p q v d [-> | ->] Hv; simpl; unfold board_out_port;
      repeat (case_match; simpl in * ); try lia; try done; by rewrite u8_small.
  - done.
  - intros p v d. simpl. unfold board_out_port. by repeat case_match.
  - intros addr v d Hv.
    repeat (apply elem_of_cons in Hv as [[= -> ->]|Hv]; [reflexivity|]). by apply elem_of_nil in Hv.
Defined.
(** 16 MB, a display of 80 columns, the cursor at the top left, 12:45:30 on
    8 December 1991. *)
Definition ex_date : tm := mk_tm 30 45 12 8 11 91.
Definition ex_setup_words : gmap Z Z :=
  {[ 0x90000 := 15360 * 65536; 0x90004 := (80 * 256 + 3) * 65536; 0x901FC := 0x301 ]}.
Definition ex_off : io_system drivers board :=
  mk_system (demo <| k_mm := mk_mm 0 (replicate (Z.to_nat PAGING_PAGES) 0) ex_setup_words |>
      <| k_sched ::= λ c, c <| idt := replicate 256 (desc_of (14, 0, ignore_int)) |>
           <| tasks := {[ 0x1000 := INIT_TASK 0x1000 0 ]} |> <| task := 0x1000 :: replicate (NR_TASKS - 1) 0 |>
           <| current := 0x1000 |> |>)
    (mk_drivers boot_hd boot_fd []) (mk_board 0xff 0xff 0 ex_date).
Lemma ex_off_ok : at_power_on ex_off ex_date.
Proof.
  split.
  - reflexivity.
  - exists (replicate (NR_TASKS - 1) 0). by split.
  - split; [done|]. exists 0. reflexivity.
  - by vm_compute.
  - split; [vm_compute; by split|]. split; [by exists 40|]. by split.
  - reflexivity.
  - reflexivity.
  - reflexivity.
  - reflexivity.
  - by vm_compute.
  - split; [done|]. split; [|done]. by split.
Qed.
Lemma main_correct_witness : ∃ s', main 1 ex_off = Ok tt s' ∧ well_booted ex_off s' ex_date.
Proof. exact (main_correct ex_off ex_date 0 ex_off_ok). Defined.
(** The clock and the masks that this boot ends with. *)
Example ex_booted :
  match main 1 ex_off with
  | Ok _ s => startup_time (k_sched (sys_k s)) = 692196330 ∧ irq_mask 0x21 (sys_dev s) = 0xa0 ∧ irq_mask 0xA1 (sys_dev s) = 0x9f
  | _ => False
  end.
Proof. vm_compute. by repeat split. Qed.

(** ** the clock *)

#[local] Instance ex_addresses : Addresses := {| buffer_addr i := 0x100000 + 1024 * Z.of_nat i; tmp_floppy_addr := 0x8000 |}.
(** The motor of drive 0 is up to speed at the next tick, but drive 1 is
    selected; another timer comes three ticks later. *)
Definition ex_due : sched_state := ex_sched <| current_DOR := 0x1D |> <| timer_list :=
  mk_timer 1 floppy_on_interrupt_fn (Some 1%nat) :: mk_timer 3 transfer_fn None :: replicate (TIME_REQUESTS - 2) (mk_timer 0 0 None) |>.
Lemma ex_due_wf : timers_wf ex_due [0; 1]%nat.
Proof.
  split.
  - reflexivity.
  - econstructor; [reflexivity|]. econstructor; [reflexivity|]. constructor.
  - by apply (bool_decide_unpack _).
  - intros i t Ht. destruct i as [|[|i]].
    + injection Ht as <-. split; [|done]. left.
    + injection Ht as <-. split; [|done]. right. left.
    + apply lookup_replicate_1 in Ht as [-> _]. split; [done|].
      intros [?|[?|?%elem_of_nil]%elem_of_cons]%elem_of_cons; done.
Qed.
Definition ex_system : io_system drivers unit := mk_system demo (mk_drivers boot_hd boot_fd []) tt.
Definition ex_ticking : io_system drivers unit := ex_system <| sys_k ::= λ k, k <| k_sched := ex_due |> |>.
Lemma tick_timers_correct_witness :
  ∃ due rest,
    expiry 0 (timers ex_due [0; 1]%nat) = due ++ rest ∧ Forall (λ e, e.1 = 1) due ∧ Forall (λ e, 1 < e.1) rest ∧
    tick_timers ex_ticking = (zoom sys_k (zoom k_sched count_down) ;; for_each due expire) ex_ticking ∧
    ∀ s', tick_timers ex_ticking = Ok tt s' → ∃ l' later new,
      timers_wf (k_sched (sys_k s')) l' ∧ timers (k_sched (sys_k s')) l' = insert_all later new ∧ delayed new ∧
      expiry 0 later = (λ e, (e.1 - 1, e.2)) <$> rest ∧ pending (timers (k_sched (sys_k s')) l').
Proof.
  apply (tick_timers_correct ex_ticking [0; 1]%nat ex_due_wf).
  split; [|by intros e [= <-]]. by repeat constructor.
Defined.
(** The function of the first timer selects drive 0 and adds a timer of two
    ticks; the other one, which had three more to go, is put off by it. *)
Example ex_timer_added :
  match tick_timers ex_ticking with
  | Ok _ s => (timers (k_sched (sys_k s)) [0; 1]%nat, current_DOR (k_sched (sys_k s)))
  | _ => ([], 0)
  end = ([(2, transfer_fn); (3, transfer_fn)], 0x1C).
Proof. vm_compute. reflexivity. Qed.

(** ** system calls *)

(** Handlers leave 0x77 in the last of their arguments, and junk in ecx and edx. *)
#[local] Instance ex_image : Image := {|
  drive_info_at := 0x20000; stack_junk := replicate 4 0;
  args_left f args _ := <[(nargs f - 1)%nat := 0x77]> args; scratch _ := (0xCC, 0xDD) |}.
Definition ex_regs : regs := mk_regs 1 2 3 0x17 4 5 6 0x17 0x17 0x17 0x400 0x0f 0x202 0x3fff00 0x17.
Definition ex_program : @program unit := mk_program ex_regs 0 ex_system.
Lemma ex_goes_on r : r_cs r = 0x0f → r_ss r = 0x17 → goes_on demo r.
Proof. intros _ _. exists demo_task. split; [done|]. split; [done|]. split; [done|]. by do 3 right. Qed.

(** getpid() gives 5 and dup(9) fails with EBADF, which is 9; dup() has left
    something else in ebx. *)
Lemma syscall_correct_witness :
  _syscall (E := demo_env) Sys_getpid [] ex_program = answered 5 ex_regs ex_system ex_program ∧
  _syscall (E := demo_env) Sys_dup [9] ex_program = answered (-9) (ex_regs <| r_ebx := 0x77 |>) ex_system ex_program ∧
  _syscall (E := demo_env) Sys_rename [7; 8] ex_program =
    Ok (Some (-1)) (mk_program (with_args [7; 8] ex_regs) ENOSYS ex_system) ∧
  int_0x80 (E := demo_env) 72 ex_program = Ok (Some (-1)) ex_program.
Proof.
  destruct (syscall_correct (E := demo_env) ex_program eq_refl) as (Hcall & Hno & Hbad & _).
  split; [|split; [|split]].
  - apply (Hcall Sys_getpid [] 5 None ex_system); [reflexivity|by apply ex_goes_on].
  - apply (Hcall Sys_dup [9] (-9) None ex_system); [vm_compute; reflexivity|by apply ex_goes_on].
  - apply (Hno Sys_rename [7; 8]); [by apply (bool_decide_unpack _)|by apply ex_goes_on].
  - apply Hbad. vm_compute. discriminate.
Defined.
Lemma int_0x80_keeps_witness :
  let p' := mk_program (ex_regs <| r_ebx := 0x77 |>) 0 ex_system in
  errno p' = errno ex_program ∧
  ((nr_system_calls ≤ u32 41 ∧ p' = ex_program) ∨
   ∃ f, sys_call_table !! Z.to_nat (u32 41) = Some f ∧ kept (nargs f) ex_regs (p_regs p') ∧
     (f = Sys_execve ∨ same_place ex_regs (p_regs p') ∨ in_signal_handler (-9) ex_regs (p_regs p') (p_sys p'))).
Proof.
  apply (int_0x80_keeps (E := demo_env) 41 ex_program (-9)); [reflexivity|vm_compute; reflexivity].
Defined.
Example ex_kill_fails :
  match _syscall (E := demo_env) Sys_kill [5; 40] ex_program with Ok r p => (r, errno p) | _ => (None, 0) end = (Some (-1), 22).
Proof. vm_compute. reflexivity. Qed.

(** A tick in the kernel that ends a beep. *)
Definition ex_beeping : io_system drivers unit := ex_system <| sys_k ::= λ k, k <| k_sched ::= λ d, d <| beepcount := 1 |> |> |>.
Definition ex_kernel_regs : regs := ex_regs <| r_cs := 8 |> <| r_ss := 0x10 |>.
Lemma timer_interrupt_correct_witness :
  (interrupt ;; timer_interrupt_ (E := demo_env)) (mk_machine 7 ex_kernel_regs [0x1111] ex_beeping) =
    Ok tt (mk_machine 7 ex_kernel_regs [0x1111] (after_tick (E := demo_env) false demo_task ex_beeping)).
Proof.
  assert (Hi : idle_clock (k_sched (sys_k ex_beeping))) by (split; [intros n Hn; discriminate Hn|reflexivity]).
  assert (Hc : 0 <= counter demo_task < 2^31) by (change (0 <= 15 < 2^31); lia).
  destruct (timer_interrupt_correct (E := demo_env) 7 ex_kernel_regs [0x1111] ex_beeping demo_task demo_cur Hi Hc) as [_ H].
  exact (H eq_refl).
Defined.
Example ex_beep_ends :
  ports (k_con (sys_k (after_tick (E := demo_env) false demo_task ex_beeping))) =
    ports (k_con demo) ++ [(Z.land (inb (Env := demo_env) 0x61 demo) 0xFC, 0x61)].
Proof. reflexivity. Qed.
Lemma ctype_correct_witness : class_ok 65 = true ∧ case_ok 65 = true.
Proof. apply (ctype_correct 65). lia. Defined.

(** ** The console *)

(** An EGA card in colour mode with 80 columns; the BIOS left the cursor at the
    start of line 3. *)
Definition ex_setup : mm :=
  mk_mm (LOW_MEM + PAGING_MEMORY) [] {[ 0x90000 := 0x0300; 0x90004 := 0x50030000; 0x90008 := 0x00030000 ]}.
Definition ex_con : console := init_screen ex_setup boot_console.
Lemma ex_con_ok : con_ok ex_con.
Proof.
  apply init_screen_ok. split; [by vm_compute|]. split; [by exists 40|]. split; [by vm_compute|by vm_compute].
Qed.

Definition text (s : string) : list Z := chr <$> list_ascii_of_string s.
(** The characters at line [r] from column [k] on. *)
Definition line_of (c : console) (r k : Z) (n : nat) : list Z :=
  (λ i, lin c (r * 80 + k + Z.of_nat i) mod 256) <$> seq 0 n.
Definition print (s : list Z) (c : console) : console := con_run 127 s c.
Definition esc (s : string) : list Z := 27 :: text s.

Example ex_print :
  let c := print (text "hello" ++ [13; 10] ++ esc "[2;3Hx" ++ esc "[1;1H" ++ esc "[2L") ex_con in
  line_of c 3 2 1 = text "x" ∧ line_of c 5 0 5 = text "hello" ∧ (c_x c, c_y c) = (0, 0).
Proof. vm_compute. done. Qed.
(** A terminal of 25 lines that has printed 30 lines shows the last ones, also
    when the window has moved through video memory (the EGA) and when it has
    not. *)
Definition thirty : list Z := mjoin ((λ i, [13; 10; 65 + Z.of_nat i]) <$> seq 0 30).
Example ex_scroll :
  line_of (print thirty ex_con) 24 0 1 = [65 + 29] ∧ origin (print thirty ex_con) = 0xb8000 + 9 * 160 ∧
  line_of (print thirty (ex_con <| video_type := VIDEO_TYPE_CGA |>)) 24 0 1 = [65 + 29].
Proof. vm_compute. done. Qed.
(** ESC 7 saves nothing: the code compares the column, not the character. *)
Example ex_save : saved_y (print (esc "7") ex_con) = 0 ∧ saved_y (print (esc "[s") ex_con) = 3.
Proof. vm_compute. done. Qed.

Lemma screen_refines_witness :
  con_ok (run DeleteLine ex_con) ∧ grid_of (run DeleteLine ex_con) ≡ g_run DeleteLine (grid_of ex_con) ∧
  card (run DeleteLine ex_con) = card ex_con ∧
  ∀ a, a < video_mem_start ex_con ∨ video_mem_end ex_con ≤ a →
    cell_at (vram (run DeleteLine ex_con)) a = cell_at (vram ex_con) a.
Proof. apply (screen_refines DeleteLine ex_con ex_con_ok). discriminate. Defined.

Lemma goto_text_correct_witness :
  let c' := con_run 127 (goto_text 12 40) ex_con in
  con_ok c' ∧ c_state c' = 0 ∧ grid_of c' ≡ grid_of ex_con <| g_x := 39 |> <| g_y := 11 |>.
Proof.
  apply (goto_text_correct 127 12 40 ex_con ex_con_ok); [reflexivity|split; discriminate|split; discriminate].
Defined.

(** ** con_write *)

Definition fill (l : list Z) (q : tty_queue) : tty_queue := foldl (λ q ch, PUTCH ch q) q l.
Definition ex_tty (l : list Z) : tty_struct := (rs_tty 0) <| termios := (mk_termios 0x100 5 0 0x80b 0 INIT_C_CC) |>
  <| t_write := con_write_fn |> <| write_q := fill l (empty_queue 0) |>.
Definition ex_kernel (l : list Z) : kernel :=
  demo <| k_con := ex_con |> <| k_tty := mk_ttys [ex_tty l] 0 |>.
Definition ex_text : list Z := text "hi" ++ esc "[1m!".

Lemma fill_ok l q :
  queue_ok q → (length (q_list q) + length l < 1024)%nat → queue_ok (fill l q) ∧ q_list (fill l q) = q_list q ++ (s8 <$> l).
Proof.
  revert q. induction l as [|ch l IH]; intros q Hq Hl; simpl in *; [by rewrite app_nil_r|].
  destruct (PUTCH_spec ch q Hq) as [H1 H2]; [lia|]. destruct (IH (PUTCH ch q) H1) as [H3 H4].
  { rewrite H2, length_app. simpl. lia. }
  split; [done|]. rewrite H4, H2, <-app_assoc. done.
Qed.
Lemma ex_queue : queue_ok (write_q (ex_tty ex_text)) ∧ q_list (write_q (ex_tty ex_text)) = ex_text.
Proof. apply (fill_ok ex_text (empty_queue 0)); [by vm_compute|vm_compute; lia]. Qed.

Lemma con_write_correct_witness :
  let s := ex_kernel ex_text in
  let t := ex_tty ex_text in
  let c := con_run (ERASE_CHAR t) (q_list (write_q t)) (k_con s) in
  let d := c_y c * video_num_columns c + c_x c + (origin c - video_mem_start c) / 2 in
  line_of c 3 0 3 = text "hi!" ∧
  con_ok c ∧ keeps (k_con s) c ∧
  ∃ q, queue_ok q ∧ q_list q = [] ∧
    @con_write demo_env 0 s = Ok tt (shown s 0 q (c <| ports := ports c ++
      [(14, video_port_reg c); (d / 256 mod 256, video_port_val c);
       (15, video_port_reg c); (d mod 256, video_port_val c)] |>)).
Proof.
  split; [vm_compute; reflexivity|].
  apply (con_write_correct (E := demo_env) (ex_kernel ex_text) 0 (ex_tty ex_text)).
  - reflexivity.
  - apply ex_queue.
  - apply ex_con_ok.
  - rewrite (proj2 ex_queue). vm_compute. reflexivity.
Defined.

(** ESC Z corrupts the output queue: the nested con_write() has emptied it, and
    the outer one goes on taking characters. *)
Example ex_identify :
  match @con_write (console_env demo_env 2) 0 (ex_kernel (esc "Zab")) with
  | Ok _ s => (λ t, CHARS (write_q t)) <$> head (tty_table (k_tty s))
  | _ => None
  end = Some 1022.
Proof. vm_compute. reflexivity. Qed.

#[export] Instance demo_screen : ScreenSafe demo_env.
Proof. intros w n s. apply safe_refl. Qed.
Lemma console_safe_witness :
  let s := ex_kernel (esc "Zab") in
  let s' := @tty_out (console_env demo_env 2) con_write_fn 0 s in
  con_ok (k_con s') ∧ card (k_con s') = card (k_con s) ∧
  ∀ a, a < video_mem_start (k_con s) ∨ video_mem_end (k_con s) ≤ a →
    cell_at (vram (k_con s')) a = cell_at (vram (k_con s)) a.
Proof. apply (console_safe demo_env demo_screen 2 con_write_fn 0 (ex_kernel (esc "Zab")) ex_con_ok). Defined.

(** The echo of 0xDB, which Alt-[ sends, is [^] and an escape character; a Z
    typed after it makes the terminal answer, and the answer is accepted before
    the Z that asked for it. *)
Example alt_bracket_answers :
  let t := ex_tty0 <| read_q := fill [0xDB; chr "Z"] (empty_queue 0) |> in
  match @copy_to_cooked (console_env demo_env 2) 0 (ex_kernel [] <| k_tty := mk_ttys [t] 0 |>) with
  | Ok _ s => (λ t, q_list (secondary t)) <$> head (tty_table (k_tty s))
  | _ => None
  end = Some ([-37] ++ RESPONSE ++ [chr "Z"]).
Proof. vm_compute. reflexivity. Qed.
